(* ===== verification/_CoqProject ===== *)
-Q . S2P
Prelude.v
Arrays.v
View.v
ViewSupport.v
Bindings.v
TableController.v
ArrayTableController.v
ArrayTableUpdates.v
TableSorting.v
SortingArrayProxy.v
TableAdapter.v
Statechart.v
ButtonView.v
EventManager.v
Focus.v
SplitView.v
Layout.v
Lifecycle.v
Labels.v
Measure.v
Validations.v
Association.v
Validators.v
LazyList.v
LazyScroll.v
Controls.v
Progress.v
LazyTree.v
LazyItem.v
SafeClone.v
Menu.v
AutocompleteMenu.v
TableDataView.v
Clipboard.v
CellMethods.v
TableCells.v
TableView.v
TableMarkup.v
MenuScroll.v
MultiMenu.v
MultiButton.v
SelectButton.v
ComboBox.v
ListView.v
ListDrag.v
DragClone.v
TreeView.v
Panel.v
Dialog.v
Touch.v
SubMenu.v
MenuItems.v
Tooltip.v
MenuSizes.v
AlertPanel.v
TextField.v
Debounce.v
Form.v
Tabs.v
