(* ===== verification/Prelude.v ===== *)
(** * A verification library for Flame.js

    Flame.js is a library of user-interface components on top of Ember.  This
    development models its core logic as pure functions, translated from the sources
    under [src/], and proves what each part promises.  The document is modelled as far
    as the code keeps its state there; what the code reads of it otherwise (sizes,
    positions, the target of an event) enters as arguments or parameters.

    ** The parts and how they interact

    Foundations:
    - [Prelude] (this file): outcomes of JavaScript code, the values that the code
      tests for truth and identity, strings split and joined, lemmas on lists and maps.
    - [Arrays]: the stable sort behind [Array.prototype.sort] and Ember's array
      operations, with the class [Comparator] of lawful comparison functions.
    - [Statechart] ([statechart.js]): states, transitions and methods of a view; what a
      view provides is the class [Chart] with the laws [ChartLaws].

    Views in general:
    - [View] and [ViewSupport] ([view.js], [mixins/view_support.js]): the choice of the
      child views at [init], the search for a descendant, the cache of templates, the
      removal of class names.  [Lifecycle]: the observers of a view from its creation to its
      destruction.
    - [Bindings] ([utils/computed_nearest.js], [utils/prefixed_binding.js]): properties
      of the nearest ancestor that has them.
    - [EventManager] ([mixins/event_manager.js]): mouse events that bubble and are
      captured, key events and the stack of key responders.  [Focus]
      ([mixins/focus_support.js]): the focus of the browser, kept in step with that stack.
      [Labels] ([views/label_view.js], [disclosure_view.js], [text_area_view.js],
      [search_text_field_view.js]): small views as nodes of that tree, and what they accept.
      [Touch] ([statechart.js], [views/panel.js]): touches as events of the mouse.
    - [Layout] ([mixins/layout_support.js], [layout_manager.js],
      [layout_managers/vertical_stack_layout_manager.js]): layouts, and the manager that
      stacks children and is called again for every change of a height.
    - [Measure] ([utils/string_measurement.js]): the one element strings are measured in.
    - [Validations] ([validations.js], with the validators as functions): the validity of
      properties and of the object, and coupled properties.  [Validators]
      ([validators/email.js], [number.js], [not_blank.js]): what is accepted as an address or
      a number.  [Association] ([validators/association.js]): objects that are valid with
      those they are associated with.

    Tables:
    - [TableController] ([controllers/table_controller.js],
      [data_table_controller.js], [utils/table_cell.js], [table_header.js]): the trees of
      row and column headers, their leaves, and batches of cell data that are put at
      their index paths.
    - [ArrayTableController] ([controllers/array_table_controller.js]): the table of an
      array of objects, one column per property, and its sorting.  [ArrayTableUpdates]:
      how that table follows its objects.  [TableSorting] ([mixins/table_sort_support.js]):
      sorting by the menu of a column header, on top of both.
    - [SortingArrayProxy] ([utils/sorting_array_proxy.js]): a content that is kept in
      the order of its sort keys while source, keys or content change.
    - [TableAdapter] ([utils/table_view_content_adapter.js]): the header cells of a
      table, with their spans, from the trees of headers.
    - [TableDataView] ([views/table_data_view.js]): the selection of cells, editing,
      copying and pasting, and the batches in which changed cells are redrawn.
      [CellMethods] ([utils/table_cell.js]): the methods of cells, and cells that are read
      only.  [Clipboard]: the text area it is copied from and pasted to.  [TableCells]: those cells
      on the screen, rendered and redrawn.  [TableView] ([views/table_view.js]): the headers
      around them and the resizing of columns.  [TableMarkup]: all of these as one table, and
      columns as wide as what they show, measured by [Measure].

    Lists and trees:
    - [LazyList] and [LazyScroll] ([views/lazy_list_view.js]), [LazyTree]
      ([views/lazy_tree_view.js], [lazy_tree_item_view.js]), [LazyItem]
      ([views/lazy_list_item_view.js]): lists and trees of which only the visible rows have
      views, taken from and returned to a pool.  The tree is a client of the list; what a
      pressed item asks of its list or tree is the class [Reorderable].
    - [ListView], [ListDrag] and [TreeView] ([views/list_view.js], [list_item_view.js],
      [list_view_drag_helper.js], [tree_view.js], [tree_item_view.js]): lists and trees with
      a view for every item, and the dragging of items.  [DragClone]: the copy of a dragged
      item that follows the pointer; [SafeClone] ([utils/jquery_util.js]): what is removed
      from such a copy.

    Controls:
    - [ButtonView] ([views/button_view.js], [mixins/action_support.js]), a client of
      [Statechart]; [SelectButton] ([views/select_button_view.js]); [MultiButton]
      ([views/multiselection_button_view.js]); [Controls] ([views/scroll_view.js],
      [radio_button_view.js]); [Progress] ([views/progress_view.js]).
    - [TextField] ([views/text_field_view.js], [autocomplete_text_field_view.js]), with
      [Debounce], the way from keys to queries; [ComboBox] ([views/combo_box_view.js]), a
      client of [SelectButton]; [Form] ([views/form_view.js]), [Tabs] ([views/tab_view.js]).
    - [SplitView] ([views/split_view.js], [vertical_split_view.js],
      [horizontal_split_view.js], [split_view_divider_view_base.js]): the sizes of the two
      sides, collapsing, and the dragging of the divider.

    Panels and menus:
    - [Panel] ([views/panel.js], [popover.js], with the size of menus of
      [mixins/menu_view_support.js]): where panels are put, how they stack, move and close.
      [Dialog]: a panel with its views, the key responders and the focus, on top of [Focus].
      [Tooltip] ([views/tooltip.js]) and [AlertPanel] ([views/alert_panel.js]) build on it,
      on [Measure] and, the alert, on [Layout].
    - [Menu] ([views/menu_view.js]): menus with submenus, highlighting and selection.
      [SubMenu]: where submenus are put, and the identifiers of the elements of items;
      [MenuItems]: these elements and their events.  [MenuScroll]
      ([views/menu_scroll_view.js]): menus too long for the window.  [MenuSizes]
      ([mixins/menu_view_support.js]): their width, and the search by typing with its timer.
      [AutocompleteMenu] ([views/autocomplete_menu_view.js]): the menu of a text field, on
      top of [Menu] and [Focus].  [MultiMenu]
      ([views/multiselection_menu_view.js]): menus of several values, which [MultiButton]
      opens.

    ** How the models correspond to the code

    Each definition carries the name of the function it translates; a helper that
    stands for a loop or a branch says so.  An object is a record with the fields of the
    source; objects that refer to each other (headers, views, menus, the items of a
    proxy) live in a store, a [gmap] or a list, and are denoted by numbers, so that
    aliasing is explicit.  An observer is called where the property it observes is set,
    and, as in Ember, only when the value changes.  Code that throws returns an
    [outcome]; work that is put off (timers, [run.next], [run.later]) is a queue in the
    state, or is done at once where no other code can come between.  Code outside the
    repository is a parameter: handlers and hooks of application views, validators,
    the delegate that stores a cell, the constructor of a cell, [Ember.compare].  What is
    assumed of it is a class ([Comparator], [HandlerLaws], [HookLaws], [ActionLaws],
    [Delegate]), and every property with such an assumption has a witness in which
    concrete functions satisfy it.

    ** Fuel

    Recursion that is not structural takes fuel and returns [None] when it runs out.
    The theorems do not assume that it does not: they show that a stated amount is
    enough.  [Layout.adjustLayout] needs one unit per ancestor, and an alert panel, whose
    messages have two, gives it six; the event dispatch of [EventManager] and the searches
    of [Bindings] need one per ancestor, [LazyTree.loadCache] the depth of the part of the
    tree that is shown, [Menu.close] at most as many as there are menus, which is what
    it is given, [SplitView.updateLayout] two, the change of the focus in [Focus] as many as
    there are views; the nested lists of [TreeView] are numbered, and bound the recursion
    over them; the observers of [SortingArrayProxy] are nested twice, and never deeper.
    [Association.isValid] needs the length of the longest chain of associations: where they
    form a circle the code answers, too, but the depth is not bounded by such a chain, and
    the theorem does not say what it answers.

    ** What the theorems show

    - Tables: batches are written where their index paths lead and nowhere else, the
      paths and the coordinates of leaves determine each other, an outdated path is an
      error; header cells tile the rectangle of the header; the table is always in a state
      that fits its selection, whatever event comes; what is copied and pasted arrives;
      the batches of an update end and redraw every cell once, and redrawing gives what
      rendering anew would; whatever is done, cells that are read only stay as they are;
      the columns of header and cells are in line; an array table
      shows its objects as they are and observes nothing else, and sorting by a header
      reorders its rows, stably, as chosen.
    - Sorted arrays: after every change of the source, of the content and after a move
      the content is the source in key order.
    - Buttons and state machines: a button refines the automaton of a push button, fires
      at most once per press, and not at all when disabled, except by touch; the button of
      several values leaves its menu's choice as it is, up to order.
    - Events: the nearest willing ancestor gets an event and captures the mouse until
      the button is up; key responders are restored in reverse order; the focus follows them,
      and comes back to the text field when its menu of completions is closed; touches do
      what the mouse does.
    - Views: a view observes what its layout and its display properties name, follows every
      change of it, and observes nothing once it is destroyed; a copied element has lost the
      marks of Ember.
    - Layout: after a change of a height all stacked views are stacked again, so that an
      alert panel fits its message; the sizes of a split view always fit, collapsing and
      expanding are inverse, and the divider follows the pointer within its bounds; the bar of a
      progress view stays in its frame, and grows with the value.
    - Validation, forms and text: verdicts stay up to date under every change of a property,
      and the errors shown with them; the tabulator key goes round the fields; what is typed
      arrives, one query is sent per pause of the keys, and completions belong to what was
      typed last; a combo box shows the value, whether it was typed or chosen; an associated object that is not
      valid makes invalid what is associated with it; a text counts as a number exactly if it
      is a numeral.
    - Lists and trees: after scrolling, a change of the content, expanding or collapsing
      there is one view per row of the range to render, correctly filled, and the others are
      hidden in the pool; the caches of a tree are its preorder; dragging an item neither
      loses nor duplicates one and never puts it below itself, and its copy looks like it.
    - Panels and menus: popovers take the side with room; open menus always form one path,
      and are as wide as their titles; a cascade of submenus turns to the left once; a
      selection closes all of them, sets the value and fires the action once; a dialog gives
      keys and focus to its default view, keeps one view on the stack while it is used, and
      restores the stack when it is closed; child views learn where a view is scrolled to
      with the next frame.

    ** Where the code departs from what it means

    Lemmas at the end of the files, without numbers, evaluate the models on inputs where
    the code does not do what it means to: gaps and duplicates after scrolling by exactly
    the rendered rows ([LazyList]), collapsing by [collapseItem], views in the pool found
    by an undefined row, a class that is kept ([LazyTree]), items with submenus that get
    selected ([Menu]), submenus that leave the window ([SubMenu]), tooltips in the markup
    ([MenuItems]) and tooltips put back where there is no room ([Tooltip]), configurations
    that are changed ([AlertPanel]), updates of cells that are lost and a typed key that
    reappears ([TableDataView]), texts that are pasted elsewhere ([Clipboard]), titles that
    stay ([TableCells]), observers of objects taken over by another row or table
    ([ArrayTableUpdates]), default cells that throw ([CellMethods]), bindings to nothing that
    throw ([Lifecycle]), copies with the identifier of the original ([SafeClone]), keys that
    a menu lets pass or a closed menu takes ([AutocompleteMenu]), typed values that are
    replaced when the items change, and disabled boxes that work ([ComboBox]), letters that no
    query is sent for ([Debounce]), touches that throw ([Touch]), titles that are cut
    ([MenuSizes]), labels whose line is as high as an unresolved binding ([Labels]), bars of a
    negative width ([Progress]), disabled buttons that fire on touch ([ButtonView]) or open by key
    ([SelectButton], [MultiButton]), values reordered by being shown ([MultiButton]),
    observers that are not removed and keys that are not followed ([SortingArrayProxy]), a
    focus that is lost or never rests and a capture that is kept ([EventManager], [Focus]),
    stale positions ([Controls]), an undefined verdict ([Validations]), verdicts that go
    stale ([Association]), infinite numbers ([Validators]), an initial state that is not
    checked ([Statechart]), templates named like a property of all objects ([ViewSupport]),
    and others.

    ** What is not modelled

    Rendering by Ember, compilation and contents of templates: of markup only tables, menu
    items, checkboxes and copied elements are modelled, and of the document only what the
    parts above read and write; what is measured there enters as an argument.  Left out as
    well are
    - views that consist of a template, class names and settings alone (images, stack views
      and their items, error messages, loading indicators, the collection view, which is a
      list of mixins), and the macros of [utils/computed.js], a comparison and a choice;
    - the selection of text in elements ([selectRange]) and the registration of handlers
      with the browser or jQuery, which are calls of theirs without a result;
    - the creation of classes: which mixins are applied, and how properties of a definition
      override or are aliases of others.  Where a default matters it is part of the model;
    - the defaults of table headers, which throw or are empty. *)

From stdpp Require Export base decidable option list strings gmap sorting numbers.
From stdpp Require Export pretty.
From Stdlib Require Export Ascii ZArith Lia.

(** ** Outcomes of JavaScript code

    A call either returns a value or throws.  [Throw] carries the message the
    source gives to [Error], or the name of the run-time error the engine raises
    (for example ["TypeError"] for a property read on [undefined]). *)
Inductive outcome (A : Type) : Type :=
| Ok (a : A)
| Throw (msg : string).
Arguments Ok {A} a.
Arguments Throw {A} msg.

Definition outcome_bind {A B : Type} (m : outcome A) (f : A -> outcome B) : outcome B :=
  match m with
  | Ok a => f a
  | Throw e => Throw e
  end.

Declare Scope flame_scope.
Delimit Scope flame_scope with flame.
Notation "'do!' x <- m ; k" := (outcome_bind m (fun x => k))
  (at level 80, x name, m at level 79, k at level 80, right associativity) : flame_scope.

Definition TypeError : string := "TypeError".

(** A property read on the result of an array access: reading [a[i].p] throws
    when [a[i]] is [undefined]. *)
Definition or_throw {A : Type} (o : option A) (e : string) : outcome A :=
  match o with
  | Some a => Ok a
  | None => Throw e
  end.

Definition is_ok {A : Type} (m : outcome A) : bool :=
  match m with Ok _ => true | Throw _ => false end.

(** ** JavaScript values

    The values the modelled code inspects.  A number is an integer in the range
    that doubles represent exactly, or [NaN]; an object is a reference, equal to
    another exactly when both are the same object. *)
Inductive jsval : Type :=
| JUndefined
| JNull
| JBool (b : bool)
| JNaN
| JNum (z : Z)
| JStr (s : string)
| JObj (id : nat).

#[export] Instance jsval_eq_dec : EqDecision jsval.
Proof. solve_decision. Defined.

(** [===]: as equality, except that [NaN] is not equal to itself. *)
Definition strict_eq (a b : jsval) : bool :=
  match a, b with
  | JNaN, JNaN => false
  | _, _ => bool_decide (a = b)
  end.

Definition truthy (v : jsval) : bool :=
  match v with
  | JUndefined | JNull | JNaN => false
  | JBool b => b
  | JNum z => negb (z =? 0)%Z
  | JStr s => negb (bool_decide (s = ""))
  | JObj _ => true
  end.

(** [Ember.isNone]: null or undefined. *)
Definition isNone (v : jsval) : bool :=
  match v with JUndefined | JNull => true | _ => false end.

(** [a || b] *)
Definition js_or (a b : jsval) : jsval := if truthy a then a else b.

(** ** Tactics *)

Ltac deex :=
  repeat match goal with
  | H : exists x, _ |- _ => let x' := fresh x in destruct H as [x' H]
  | H : _ /\ _ |- _ => destruct H
  end.

(** Case analysis on every [match] and [if] of the goal, then cleanup. *)
Ltac crush_match :=
  repeat (case_match || case_decide); simplify_eq/=; try done.

(** Case analysis on a boolean comparison of integers, with its meaning. *)
Ltac zcases :=
  repeat match goal with
  | |- context [Z.ltb ?a ?b] => destruct (Z.ltb_spec a b)
  | |- context [Z.leb ?a ?b] => destruct (Z.leb_spec a b)
  | |- context [Z.eqb ?a ?b] => destruct (Z.eqb_spec a b)
  | |- context [Z.gtb ?a ?b] => rewrite (Z.gtb_ltb a b)
  | |- context [Z.geb ?a ?b] => rewrite (Z.geb_leb a b)
  end.

Create HintDb flame.
Create Rewrite HintDb flame_rw.

(** ** Strings

    [String.prototype.split] with a one-character separator, and
    [Array.prototype.join]. *)
Fixpoint split_on (c : Ascii.ascii) (s : string) : list string :=
  match s with
  | EmptyString => [EmptyString]
  | String a s' =>
      if decide (a = c) then EmptyString :: split_on c s'
      else match split_on c s' with
           | [] => [String a EmptyString]
           | w :: ws => String a w :: ws
           end
  end.

Fixpoint join (c : Ascii.ascii) (l : list string) : string :=
  match l with
  | [] => EmptyString
  | [x] => x
  | x :: l' => String.append x (String c (join c l'))
  end.

Fixpoint str_elem (c : Ascii.ascii) (s : string) : bool :=
  match s with
  | EmptyString => false
  | String a s' => bool_decide (a = c) || str_elem c s'
  end.

(** [indexOf(c) > -1] *)
Definition has_char (c : Ascii.ascii) (s : string) : bool := str_elem c s.

Lemma split_on_nonempty c s : split_on c s <> [].
Proof. destruct s as [|a s]; simpl; crush_match. Qed.

Lemma split_on_no_sep c s : str_elem c s = false -> split_on c s = [s].
Proof.
  induction s as [|a s IH]; simpl; [done|].
  intros [Ha Hs]%orb_false_iff. rewrite bool_decide_eq_false in Ha.
  rewrite decide_False by done. by rewrite IH.
Qed.

Lemma split_on_append c x s :
  str_elem c x = false ->
  split_on c (String.append x (String c s)) = x :: split_on c s.
Proof.
  induction x as [|a x IH]; simpl.
  - intros _. by rewrite decide_True.
  - intros [Ha Hs]%orb_false_iff. rewrite bool_decide_eq_false in Ha.
    rewrite decide_False by done. by rewrite IH.
Qed.

(** Splitting undoes joining when no element holds the separator. *)
Lemma split_join c l :
  l <> [] -> Forall (fun x => str_elem c x = false) l -> split_on c (join c l) = l.
Proof.
  intros Hl HF. induction HF as [|x l Hx HF IH]; [done|].
  destruct l as [|y l]; simpl.
  - by apply split_on_no_sep.
  - rewrite split_on_append by done. f_equal. by apply IH.
Qed.

(** Joining undoes splitting, always. *)
Lemma join_split c s : join c (split_on c s) = s.
Proof.
  induction s as [|a s IH]; simpl; [done|].
  destruct (decide (a = c)) as [->|Hne].
  - destruct (split_on c s) eqn:E; [by apply split_on_nonempty in E|].
    simpl in *. by rewrite <- IH.
  - destruct (split_on c s) as [|w [|w' ws]] eqn:E;
      [by apply split_on_nonempty in E| |]; simpl in *; by rewrite <- IH.
Qed.

(** [join] is injective on non-empty lists of separator-free words. *)
Lemma join_inj c l1 l2 :
  l1 <> [] -> l2 <> [] ->
  Forall (fun x => str_elem c x = false) l1 ->
  Forall (fun x => str_elem c x = false) l2 ->
  join c l1 = join c l2 -> l1 = l2.
Proof.
  intros N1 N2 F1 F2 E.
  rewrite <- (split_join c l1), <- (split_join c l2) by done. by rewrite E.
Qed.

Lemma append_length (s t : string) : String.length (s +:+ t) = (String.length s + String.length t)%nat.
Proof. induction s as [|a s IH]; [done|]. simpl. by rewrite IH. Qed.

Lemma str_elem_app c s1 s2 :
  str_elem c (String.append s1 s2) = str_elem c s1 || str_elem c s2.
Proof. induction s1 as [|a s1 IH]; simpl; [done|]. by rewrite IH, orb_assoc. Qed.

(** ** Generic facts on lists *)

(** [Array.prototype.map] with its index argument, as an association. *)
Lemma lookup_imap_Some {A B} (f : nat -> A -> B) (l : list A) i y :
  imap f l !! i = Some y <-> exists x, l !! i = Some x /\ y = f i x.
Proof.
  rewrite list_lookup_imap. destruct (l !! i) as [x|]; simpl; split.
  - intros [= <-]. by exists x.
  - by intros (? & [= <-] & ->).
  - done.
  - by intros (? & ? & ?).
Qed.

Lemma sum_list_app (l1 l2 : list nat) : sum_list (l1 ++ l2) = sum_list l1 + sum_list l2.
Proof. induction l1; simpl; lia. Qed.

Lemma length_concat_sum {A} (ll : list (list A)) :
  length (concat ll) = sum_list (map length ll).
Proof. induction ll as [|l ll IH]; simpl; [done|]. by rewrite length_app, IH. Qed.

#[export] Hint Resolve split_on_nonempty : flame.
#[export] Hint Rewrite @length_imap @length_fmap @length_app @length_insert : flame_rw.

(** ** Numbers as strings

    [toString] of an integer is its decimal form; it holds no comma, so joining
    numbers with commas ([Array.prototype.toString]) loses nothing. *)
Definition digit_or_dash (c : Ascii.ascii) : Prop :=
  c = "-"%char \/ exists n : N, c = pretty_N_char n.

Lemma pretty_N_go_no c (x : N) s :
  ~ digit_or_dash c -> str_elem c s = false -> str_elem c (pretty_N_go x s) = false.
Proof.
  intros Hc. revert s. induction (N.lt_wf_0 x) as [x _ IH]; intros s Hs.
  destruct (decide (x = 0)%N) as [->|Hx]; [by rewrite pretty_N_go_0|].
  rewrite pretty_N_go_step by lia. apply IH; [apply N.div_lt; lia|].
  simpl. rewrite Hs, bool_decide_eq_false_2; [done|].
  intros E. apply Hc. right. by exists (x `mod` 10)%N.
Qed.

Lemma pretty_Z_no c (z : Z) : ~ digit_or_dash c -> str_elem c (pretty z) = false.
Proof.
  intros Hc. destruct z as [|p|p].
  - cbn. rewrite bool_decide_eq_false_2; [done|]. intros E. apply Hc. right. by exists 0%N.
  - by apply pretty_N_go_no.
  - change (pretty (Zneg p)) with (String "-"%char (pretty_N_go (Npos p) "")).
    cbn [str_elem]. rewrite pretty_N_go_no by done.
    rewrite bool_decide_eq_false_2; [done|]. intros E. apply Hc. by left.
Qed.

Lemma comma_not_digit : ~ digit_or_dash ","%char.
Proof. intros [?|[n H]]; [done|]. unfold pretty_N_char in H. by repeat case_match. Qed.

(** ** Objects used as maps, filled key by key *)
Definition build_map {V : Type} (l : list (string * V)) : gmap string V :=
  foldl (fun m kv => <[kv.1 := kv.2]> m) ∅ l.

Lemma build_map_snoc {V} (l : list (string * V)) kv :
  build_map (l ++ [kv]) = <[kv.1 := kv.2]> (build_map l).
Proof. unfold build_map. by rewrite foldl_app. Qed.

Lemma build_map_elem {V} (l : list (string * V)) k v :
  build_map l !! k = Some v -> (k, v) ∈ l.
Proof.
  induction l as [|[k' v'] l IH] using rev_ind; [done|].
  rewrite build_map_snoc. simpl. destruct (decide (k' = k)) as [->|Hne].
  - rewrite lookup_insert_eq. intros [= ->]. set_solver.
  - rewrite lookup_insert_ne by done. intros H%IH. set_solver.
Qed.

Lemma build_map_is_Some {V} (l : list (string * V)) k :
  is_Some (build_map l !! k) <-> k ∈ l.*1.
Proof.
  induction l as [|[k' v'] l IH] using rev_ind.
  - split; [by intros [? ?]|set_solver].
  - rewrite build_map_snoc, fmap_app, elem_of_app. simpl.
    destruct (decide (k' = k)) as [->|Hne].
    + rewrite lookup_insert_eq. split; [set_solver|by eauto].
    + rewrite lookup_insert_ne by done. rewrite IH. set_solver.
Qed.

Lemma build_map_lookup {V} (l : list (string * V)) k v :
  NoDup l.*1 -> (k, v) ∈ l -> build_map l !! k = Some v.
Proof.
  induction l as [|[k' v'] l IH] using rev_ind; [set_solver|].
  rewrite fmap_app, NoDup_app, build_map_snoc. simpl.
  intros (Hnd & Hdis & _) [H|H]%elem_of_app.
  - rewrite lookup_insert_ne; [by apply IH|].
    intros ->. apply (Hdis k); [|set_solver].
    apply list_elem_of_fmap. by exists (k, v).
  - apply list_elem_of_singleton in H as [= <- <-]. apply lookup_insert_eq.
Qed.

(** ** Arrays

    [a[i] = x] on an array: past the end the array grows, the skipped positions
    reading as the filler. *)
Definition js_array_set {A : Type} (hole : A) (i : nat) (x : A) (l : list A) : list A :=
  if (i <? length l)%nat then <[i := x]> l
  else l ++ replicate (i - length l) hole ++ [x].

Lemma js_array_set_in {A} (hole : A) i x (l : list A) :
  i < length l -> js_array_set hole i x l = <[i := x]> l.
Proof. intros H. unfold js_array_set. by rewrite (proj2 (Nat.ltb_lt _ _) H). Qed.

(** ** Lists without duplicates *)
Lemma NoDup_fmap_elem {A B} (f : A -> B) (l : list A) x y :
  NoDup (f <$> l) -> x ∈ l -> y ∈ l -> f x = f y -> x = y.
Proof.
  intros Hnd [i Hi]%list_elem_of_lookup [j Hj]%list_elem_of_lookup E.
  assert (i = j) as ->; [|congruence].
  apply (NoDup_lookup _ _ _ (f x) Hnd); rewrite list_lookup_fmap.
  - by rewrite Hi.
  - by rewrite Hj, E.
Qed.

(** Duplicates are absent when the images under a map injective on the list are. *)
Lemma NoDup_fmap_on {A B} (f : A -> B) (l : list A) :
  (forall x y, x ∈ l -> y ∈ l -> f x = f y -> x = y) -> NoDup l -> NoDup (f <$> l).
Proof.
  intros Hf Hnd. induction Hnd as [|x l Hx Hnd IH]; csimpl; constructor.
  - intros (y & Ey & Hy)%list_elem_of_fmap. apply Hx.
    rewrite (Hf x y); [done|set_solver|set_solver|done].
  - apply IH. set_solver.
Qed.

(** A projection that forgets the index forgets [imap]. *)
Lemma fmap_imap_noindex {A B C} (g : B -> C) (f : nat -> A -> B) (h : A -> C) (l : list A) :
  (forall i x, g (f i x) = h x) -> g <$> imap f l = h <$> l.
Proof.
  intros H. apply list_eq. intros i. rewrite !list_lookup_fmap, list_lookup_imap.
  destruct (l !! i); simpl; [by rewrite H|done].
Qed.

Lemma Forall2_impl_r {A B} (P Q : A -> B -> Prop) l k :
  Forall2 P l k -> (forall x y, y ∈ k -> P x y -> Q x y) -> Forall2 Q l k.
Proof.
  induction 1 as [|x y l k Hxy H IH]; intros HPQ; constructor.
  - apply HPQ; [set_solver|done].
  - apply IH. intros x' y' Hy. apply HPQ. set_solver.
Qed.

Lemma Forall2_impl_l {A B} (P Q : A -> B -> Prop) l k :
  Forall2 P l k -> (forall x y, x ∈ l -> P x y -> Q x y) -> Forall2 Q l k.
Proof.
  induction 1 as [|x y l k Hxy H IH]; intros HPQ; constructor.
  - apply HPQ; [set_solver|done].
  - apply IH. intros x' y' Hx. apply HPQ. set_solver.
Qed.

(** Filtering related lists by related conditions keeps them related. *)
Lemma filter_Forall2 {A B} (R : A -> B -> Prop) (P : A -> Prop) (Q : B -> Prop)
    `{forall x, Decision (P x)} `{forall y, Decision (Q y)} l k :
  Forall2 R l k -> (forall x y, R x y -> P x <-> Q y) -> Forall2 R (filter P l) (filter Q k).
Proof.
  intros HF HPQ. induction HF as [|x y l k HR HF IH]; [constructor|]. rewrite !filter_cons.
  specialize (HPQ x y HR). destruct (decide (P x)), (decide (Q y)); try tauto. by constructor.
Qed.
