(* ===== verification/Arrays.v ===== *)
(** * Arrays: sorting and Ember's array protocol

    [Array.prototype.sort] with a comparator, as the stable sort the language
    prescribes, with the facts its clients use; the comparator's laws are a
    class, so that a client is proved for any lawful comparator (Ember.compare
    is code outside the repository and appears only through these laws). *)
From S2P Require Import Prelude.

(** A comparator is lawful when swapping its arguments swaps the sign and "not
    greater" is transitive. *)
Class Comparator {A : Type} (cmp : A -> A -> Z) : Prop := {
  cmp_opp : forall x y, Z.sgn (cmp y x) = (- Z.sgn (cmp x y))%Z;
  cmp_trans : forall x y z, (cmp x y <= 0 -> cmp y z <= 0 -> cmp x z <= 0)%Z
}.

Lemma cmp_total {A} (cmp : A -> A -> Z) `{!Comparator cmp} x y :
  (cmp x y <= 0 \/ cmp y x <= 0)%Z.
Proof. pose proof (cmp_opp x y). lia. Qed.

(** [0] exactly when neither is greater: what "equal keys" means to a sort. *)
Definition not_greater {A} (cmp : A -> A -> Z) (x y : A) : Prop := (cmp x y <= 0)%Z.

Fixpoint js_insert {A} (cmp : A -> A -> Z) (x : A) (l : list A) : list A :=
  match l with
  | [] => [x]
  | y :: l' => if (cmp y x <=? 0)%Z then y :: js_insert cmp x l' else x :: l
  end.

(** [array.sort(cmp)]: elements are taken in order and placed after those that
    are not greater, so equal elements keep their order. *)
Definition js_sort {A} (cmp : A -> A -> Z) (l : list A) : list A :=
  foldl (fun acc x => js_insert cmp x acc) [] l.

(** [Array.prototype.indexOf] *)
Fixpoint indexOf_from {A} `{EqDecision A} (k : nat) (x : A) (l : list A) : option nat :=
  match l with
  | [] => None
  | y :: l' => if decide (y = x) then Some k else indexOf_from (S k) x l'
  end.
Definition indexOf {A} `{EqDecision A} (x : A) (l : list A) : option nat := indexOf_from 0 x l.

(** [replace(start, removeCount, added)], the primitive mutation of an array. *)
Definition array_replace {A} (start removeCount : nat) (added : list A) (l : list A) : list A :=
  take start l ++ added ++ drop (start + removeCount) l.

(** [insertAt(i, x)] and [removeAt(i)] *)
Definition array_insertAt {A} (i : nat) (x : A) (l : list A) : list A := array_replace i 0 [x] l.
Definition array_removeAt {A} (i : nat) (l : list A) : list A := array_replace i 1 [] l.

(** [removeObject(x)]: every occurrence goes. *)
Definition array_removeObject {A} `{EqDecision A} (x : A) (l : list A) : list A :=
  filter (fun y => y <> x) l.

(** The comparator of a key. *)
Definition cmp_on {A B} (f : A -> B) (cmp : B -> B -> Z) (x y : A) : Z := cmp (f x) (f y).

#[export] Instance cmp_on_comparator {A B} (f : A -> B) cmp :
  Comparator cmp -> Comparator (cmp_on f cmp).
Proof.
  intros H. split; unfold cmp_on.
  - intros x y. apply cmp_opp.
  - intros x y z. apply cmp_trans.
Qed.

(** The comparator negated, for a descending sort. *)
Definition cmp_scale {A} (k : Z) (cmp : A -> A -> Z) (x y : A) : Z := (k * cmp x y)%Z.

#[export] Instance cmp_scale_comparator {A} (cmp : A -> A -> Z) :
  Comparator cmp -> Comparator (cmp_scale (-1) cmp).
Proof.
  intros H. split; unfold cmp_scale.
  - intros x y. pose proof (cmp_opp x y). lia.
  - intros x y z Hxy Hyz. pose proof (cmp_opp x y). pose proof (cmp_opp y z).
    pose proof (cmp_opp x z). pose proof (cmp_trans z y x). lia.
Qed.

(** Comparison of integers, [x - y]. *)
Definition cmp_Z (x y : Z) : Z := (x - y)%Z.

#[export] Instance cmp_Z_comparator : Comparator cmp_Z.
Proof. split; unfold cmp_Z; lia. Qed.

(** ** Facts *)
Lemma list_filter_none {A} (P : A -> Prop) `{!forall x, Decision (P x)} (l : list A) :
  Forall (fun x => ~ P x) l -> filter P l = [].
Proof. induction 1; [done|]. rewrite filter_cons. by rewrite decide_False. Qed.

Lemma list_filter_all {A} (P : A -> Prop) `{!forall x, Decision (P x)} (l : list A) :
  Forall P l -> filter P l = l.
Proof. induction 1 as [|x l Hx HF IH]; [done|]. rewrite filter_cons, decide_True by done. by rewrite IH. Qed.

Section sort.
Context {A : Type} (cmp : A -> A -> Z).

Lemma js_insert_perm x l : js_insert cmp x l ≡ₚ x :: l.
Proof.
  induction l as [|y l IH]; simpl; [done|]. destruct (_ <=? 0)%Z; [|done].
  rewrite IH. apply Permutation_swap.
Qed.

Lemma js_sort_perm l : js_sort cmp l ≡ₚ l.
Proof.
  unfold js_sort. induction l as [|x l IH] using rev_ind; [done|].
  rewrite foldl_app. simpl. rewrite js_insert_perm, IH. apply Permutation_cons_append.
Qed.

Lemma js_sort_elem x l : x ∈ js_sort cmp l <-> x ∈ l.
Proof. by rewrite js_sort_perm. Qed.

Lemma length_js_sort l : length (js_sort cmp l) = length l.
Proof. apply Permutation_length, js_sort_perm. Qed.

(** Inserting where everything before is not greater appends. *)
Lemma js_insert_last x l :
  Forall (fun y => (cmp y x <= 0)%Z) l -> js_insert cmp x l = l ++ [x].
Proof.
  induction 1 as [|y l Hy HF IH]; simpl; [done|].
  rewrite (proj2 (Z.leb_le _ _) Hy). by rewrite IH.
Qed.

Context `{!Comparator cmp}.

#[local] Instance not_greater_trans : Transitive (not_greater cmp).
Proof. intros x y z. apply cmp_trans. Qed.

Lemma js_insert_sorted x l :
  StronglySorted (not_greater cmp) l -> StronglySorted (not_greater cmp) (js_insert cmp x l).
Proof.
  induction 1 as [|y l Hs IH HF]; simpl; [by repeat constructor|].
  destruct (Z.leb_spec (cmp y x) 0) as [Hle|Hgt].
  - constructor; [done|]. rewrite js_insert_perm. by constructor.
  - assert (Hxy : (cmp x y <= 0)%Z) by (destruct (cmp_total cmp x y); lia).
    constructor; [by constructor|]. constructor; [done|].
    eapply Forall_impl; [done|]. intros z Hz. by transitivity y.
Qed.

Lemma js_sort_sorted l : StronglySorted (not_greater cmp) (js_sort cmp l).
Proof.
  unfold js_sort. induction l as [|x l IH] using rev_ind; [constructor|].
  rewrite foldl_app. simpl. by apply js_insert_sorted.
Qed.

(** Sorting a sorted array changes nothing. *)
Lemma js_sort_id l : StronglySorted (not_greater cmp) l -> js_sort cmp l = l.
Proof.
  unfold js_sort. induction l as [|x l IH] using rev_ind; [done|].
  intros Hs. apply StronglySorted_app in Hs as (Hall & Hl & _).
  rewrite foldl_app, IH by done. simpl. apply js_insert_last.
  apply Forall_forall. intros y Hy. apply (Hall y x Hy). set_solver.
Qed.

(** Stability: the elements of one class of equal keys keep their order. *)
Lemma js_insert_stable (P : A -> Prop) `{!forall x, Decision (P x)} x l :
  (forall y z, P y -> P z -> (cmp y z <= 0)%Z) ->
  StronglySorted (not_greater cmp) l ->
  filter P (js_insert cmp x l) = filter P l ++ filter P [x].
Proof.
  intros HP. induction 1 as [|y l Hs IH HF]; cbn [js_insert]; [done|].
  destruct (Z.leb_spec (cmp y x) 0) as [Hle|Hgt].
  - rewrite !(filter_cons P y), IH. by case_decide.
  - rewrite (filter_cons P x (y :: l)), (filter_cons P x []).
    case_decide as Hx; [|by rewrite app_nil_r].
    assert (filter P (y :: l) = []) as ->; [|done].
    apply list_filter_none. constructor.
    + intros Hy. specialize (HP y x Hy Hx). lia.
    + eapply Forall_impl; [done|]. intros z Hyz Hz.
      specialize (HP z x Hz Hx). pose proof (cmp_trans y z x Hyz HP). lia.
Qed.

Lemma js_sort_stable (P : A -> Prop) `{!forall x, Decision (P x)} l :
  (forall y z, P y -> P z -> (cmp y z <= 0)%Z) -> filter P (js_sort cmp l) = filter P l.
Proof.
  intros HP. unfold js_sort. induction l as [|x l IH] using rev_ind; [done|].
  rewrite foldl_app. simpl. rewrite js_insert_stable, IH; [|done|apply js_sort_sorted].
  by rewrite <- filter_app.
Qed.

End sort.

Section sublists.
Context {A : Type} (R : A -> A -> Prop).

Lemma StronglySorted_filter (P : A -> Prop) `{!forall x, Decision (P x)} l :
  StronglySorted R l -> StronglySorted R (filter P l).
Proof.
  induction 1 as [|x l Hs IH HF]; [constructor|]. rewrite filter_cons. case_decide; [|done].
  constructor; [done|]. rewrite Forall_forall in *. intros y [_ Hy]%list_elem_of_filter. by apply HF.
Qed.

Lemma StronglySorted_mono (R' : A -> A -> Prop) l :
  (forall x y, R x y -> R' x y) -> StronglySorted R l -> StronglySorted R' l.
Proof.
  intros HR. induction 1 as [|x l Hs IH HF]; constructor; [done|].
  eapply Forall_impl; [done|]. intros y. apply HR.
Qed.

End sublists.

Lemma indexOf_from_Some {A} `{EqDecision A} k x (l : list A) i :
  indexOf_from k x l = Some i -> k <= i /\ l !! (i - k) = Some x.
Proof.
  revert k. induction l as [|y l IH]; simpl; intros k; [done|].
  case_decide as Hd; [intros [= <-]; rewrite Nat.sub_diag; by subst|].
  intros [Hk Hl]%IH. split; [lia|]. by replace (i - k) with (S (i - S k)) by lia.
Qed.

Lemma indexOf_Some {A} `{EqDecision A} x (l : list A) i : indexOf x l = Some i -> l !! i = Some x.
Proof. intros [_ H]%indexOf_from_Some. by rewrite Nat.sub_0_r in H. Qed.

Lemma indexOf_from_None {A} `{EqDecision A} k x (l : list A) :
  indexOf_from k x l = None <-> x ∉ l.
Proof.
  revert k. induction l as [|y l IH]; simpl; intros k; [set_solver|].
  case_decide; [set_solver|]. rewrite IH. set_solver.
Qed.

Lemma indexOf_elem {A} `{EqDecision A} x (l : list A) : x ∈ l -> exists i, indexOf x l = Some i.
Proof.
  intros H. destruct (indexOf x l) as [i|] eqn:E; [by eexists|].
  by apply indexOf_from_None in E.
Qed.

Lemma indexOf_NoDup {A} `{EqDecision A} x (l : list A) i :
  NoDup l -> l !! i = Some x -> indexOf x l = Some i.
Proof.
  intros Hnd Hi. destruct (indexOf_elem x l) as [j Hj]; [by apply list_elem_of_lookup_2 in Hi|].
  rewrite Hj. f_equal. apply (NoDup_lookup l _ _ x Hnd); [|done]. by apply indexOf_Some.
Qed.

Lemma array_replace_perm {A} start removeCount (added l : list A) :
  array_replace start removeCount added l ++ take removeCount (drop start l) ≡ₚ l ++ added.
Proof.
  unfold array_replace. rewrite <- (take_drop start l) at 4.
  rewrite <- (take_drop removeCount (drop start l)) at 2.
  rewrite drop_drop, <- !app_assoc.
  apply Permutation_app_head.
  rewrite (Permutation_app_comm (drop _ _) (take _ _)).
  rewrite (Permutation_app_comm added). by rewrite <- !app_assoc.
Qed.

Lemma NoDup_replace {A} start removeCount (added l : list A) :
  NoDup l -> NoDup added -> (forall x, x ∈ added -> x ∉ l) ->
  NoDup (take start l ++ added ++ drop (start + removeCount) l).
Proof.
  intros Hl Ha Hdis.
  assert (Hsub : NoDup (take start l ++ drop (start + removeCount) l)).
  { rewrite <- drop_drop. eapply sublist_NoDup; [exact Hl|]. rewrite <- (take_drop start l) at 3.
    apply sublist_app; [done|]. apply sublist_drop. }
  apply NoDup_app in Hsub as (H1 & H2 & H3). apply NoDup_app. split_and!; [done| |].
  - intros x Hx [Hx'|Hx']%elem_of_app; [|by apply (H2 x)].
    apply (Hdis x Hx'). by apply (subseteq_take start).
  - apply NoDup_app. split_and!; [done| |done]. intros x Hx Hx'.
    apply (Hdis x Hx). by apply (subseteq_drop (start + removeCount)).
Qed.

#[export] Hint Resolve js_sort_perm js_sort_sorted : flame.

Lemma StronglySorted_map {A B} (f : A -> B) (R : B -> B -> Prop) l :
  StronglySorted R (f <$> l) <-> StronglySorted (fun x y => R (f x) (f y)) l.
Proof.
  induction l as [|x l IH]; csimpl.
  - split; constructor.
  - split; intros H; inv H; constructor; try (by apply IH); by apply Forall_fmap.
Qed.

Lemma take_drop_replaced {A} start removeCount (added l : list A) :
  start <= length l -> take (length added) (drop start (array_replace start removeCount added l)) = added.
Proof.
  intros H. unfold array_replace. rewrite drop_app_length' by (rewrite length_take; lia).
  by rewrite take_app_length.
Qed.
