(* ===== verification/View.v ===== *)
(** * View initialisation (src/view.js)

    [View#init] rewrites the [childViews] array before Ember creates the child
    views: an entry ["flag:name"] is kept as ["name"] when the property [flag]
    of the view is truthy and is dropped otherwise. *)
From S2P Require Import Prelude.

Open Scope string_scope.
Open Scope list_scope.

Module ViewInit.

(** The property [flag] of the view, [this.get(flag)]. *)
Section init.
Context (get : string -> jsval).

Definition colon : Ascii.ascii := ":"%char.

(** [splice(i, 1)] *)
Definition splice1 {A} (i : nat) (l : list A) : list A := take i l ++ drop (S i) l.

(** The state of the loop of [init]: the index [i], [removedCount], and
    [childViewsToCreate] ([undefined] until the first conditional entry). *)
Record loop := Loop {
  removedCount : nat;
  childViewsToCreate : option (list string)
}.

(** One iteration of the loop body at index [i]. *)
Definition init_step (childViews : list string) (i : nat) (childView : string) (st : loop) : loop :=
  if has_char colon childView then
    let cvs := default childViews (childViewsToCreate st) in
    let sp := split_on colon childView in
    let flag := default "" (sp !! 0) in
    let name := default "" (sp !! 1) in
    if truthy (get flag) then
      Loop (removedCount st) (Some (<[i - removedCount st := name]> cvs))
    else
      Loop (S (removedCount st)) (Some (splice1 (i - removedCount st) cvs))
  else st.

Fixpoint init_loop (childViews : list string) (i : nat) (rest : list string) (st : loop) : loop :=
  match rest with
  | [] => st
  | cv :: rest' => init_loop childViews (S i) rest' (init_step childViews i cv st)
  end.

(** The [childViews] the superclass constructor sees. *)
Definition init (childViews : option (list string)) : option (list string) :=
  match childViews with
  | None => None
  | Some cvs =>
      match childViewsToCreate (init_loop cvs 0 cvs (Loop 0 None)) with
      | Some cvs' => Some cvs'
      | None => Some cvs
      end
  end.

(** ** Specification: each entry contributes zero or one name. *)
Definition child_name (cv : string) : list string :=
  if has_char colon cv then
    let sp := split_on colon cv in
    if truthy (get (default "" (sp !! 0))) then [default "" (sp !! 1)] else []
  else [cv].

Definition children_spec (cvs : list string) : list string := concat (map child_name cvs).

(** What the loop keeps in [childViewsToCreate] after the prefix [done]:
    the names it contributes, then the entries not yet looked at. *)
Definition loop_inv (cvs pre rest : list string) (st : loop) : Prop :=
  length pre = removedCount st + length (children_spec pre) /\
  match childViewsToCreate st with
  | Some l => l = children_spec pre ++ rest
  | None => removedCount st = 0 /\ children_spec pre = pre
  end.

Lemma children_spec_snoc pre cv :
  children_spec (pre ++ [cv]) = children_spec pre ++ child_name cv.
Proof. unfold children_spec. rewrite map_app, concat_app. simpl. by rewrite app_nil_r. Qed.

Lemma init_step_inv cvs pre cv rest st :
  cvs = pre ++ cv :: rest ->
  loop_inv cvs pre (cv :: rest) st ->
  loop_inv cvs (pre ++ [cv]) rest (init_step cvs (length pre) cv st).
Proof.
  intros Hcvs [Hlen Hl]. unfold init_step, loop_inv in *.
  rewrite children_spec_snoc, length_app. unfold child_name.
  destruct (has_char colon cv) eqn:Hc; simpl.
  - assert (default cvs (childViewsToCreate st) = children_spec pre ++ cv :: rest) as ->.
    { destruct (childViewsToCreate st); [by subst|]. destruct Hl as [_ ->]. by subst. }
    replace (length pre - removedCount st) with (length (children_spec pre)) by lia.
    destruct (truthy _); simpl; (split; [rewrite ?length_app; simpl; lia|]).
    + rewrite <- (Nat.add_0_r (length (children_spec pre))), insert_app_r. simpl. by rewrite <- app_assoc.
    + unfold splice1. rewrite take_app_length, app_nil_r.
      rewrite <- Nat.add_1_r, drop_app_add. done.
  - rewrite length_app; simpl. split; [lia|].
    destruct (childViewsToCreate st); [by subst; rewrite <- app_assoc|].
    destruct Hl as [? ->]. done.
Qed.

Lemma init_loop_inv cvs pre rest st :
  cvs = pre ++ rest ->
  loop_inv cvs pre rest st ->
  loop_inv cvs cvs [] (init_loop cvs (length pre) rest st).
Proof.
  revert pre st. induction rest as [|cv rest IH]; simpl; intros pre st Hcvs Hinv.
  - by rewrite app_nil_r in Hcvs; subst.
  - replace (S (length pre)) with (length (pre ++ [cv])) by (rewrite length_app; simpl; lia).
    apply IH; [by rewrite <- app_assoc|]. by apply init_step_inv.
Qed.

End init.

(** The in-place loop of [View#init], with its shifting indices, creates
    exactly the children the specification lists: plain entries as they are, and
    ["flag:name"] as [name] when [flag] is truthy. *)
Theorem init_correct (get : string -> jsval) (cvs : list string) :
  init get (Some cvs) = Some (children_spec get cvs).
Proof.
  unfold init.
  pose proof (init_loop_inv get cvs [] cvs (Loop 0 None) eq_refl) as H.
  destruct H as [_ H]; [by split|]. simpl in H.
  destruct (childViewsToCreate _) as [l|]; [by rewrite app_nil_r in H; subst|].
  by destruct H as [_ ->].
Qed.

End ViewInit.
