(* ===== verification/ViewSupport.v ===== *)
(** * What all views share ([view.js], [mixins/view_support.js])

    The search for a descendant with a property, the choice of the template with the cache
    of compiled templates, and the removal of class names. *)

From S2P Require Import Prelude.
Open Scope string_scope.
Open Scope list_scope.
Open Scope flame_scope.

(** ** Descendants *)

(** A view with its child views; other children than views may be among them. *)
Inductive vnode := VNode (id : nat) (isView : bool) (childViews : list vnode).

Definition node_id (v : vnode) : nat := match v with VNode i _ _ => i end.
Definition node_isView (v : vnode) : bool := match v with VNode _ b _ => b end.

Section descendants.
Context (has : nat -> bool).                (* [childView.get(property)] is true *)

Fixpoint firstDescendantWithProperty (v : vnode) : option nat :=
  match v with
  | VNode _ _ cs =>
      foldl (fun result child =>
        if negb (node_isView child) then result
        else match result with
             | None => if has (node_id child) then Some (node_id child) else firstDescendantWithProperty child
             | Some _ => result
             end) None cs
  end.

(** The views below a view, each one before those below it. *)
Fixpoint descendants (v : vnode) : list nat :=
  match v with
  | VNode _ _ cs => concat (map (fun c => if node_isView c then node_id c :: descendants c else []) cs)
  end.

Lemma vnode_ind_all (P : vnode -> Prop) :
  (forall i b cs, Forall P cs -> P (VNode i b cs)) -> forall v, P v.
Proof.
  intros H. fix rec 1. intros [i b cs]. apply H. induction cs as [|c cs IH]; constructor; [apply rec|exact IH].
Qed.

Definition first_having (l : list nat) : option nat := head (base.filter (fun x => has x = true) l).

Lemma first_having_app l1 l2 :
  first_having (l1 ++ l2) = match first_having l1 with Some x => Some x | None => first_having l2 end.
Proof. unfold first_having. rewrite filter_app. by destruct (base.filter _ l1). Qed.

Lemma first_having_cons x l : first_having (x :: l) = if has x then Some x else first_having l.
Proof.
  unfold first_having. rewrite filter_cons. destruct (has x) eqn:E; [by rewrite decide_True|by rewrite decide_False by congruence].
Qed.

(** The search returns the first view below, going depth first, that has the property,
    and nothing only if none has. *)
Theorem first_descendant_is_first v : firstDescendantWithProperty v = first_having (descendants v).
Proof.
  induction v as [i b cs IH] using vnode_ind_all. cbn [firstDescendantWithProperty descendants].
  match goal with |- foldl ?f None cs = _ => enough (forall r0, foldl f r0 cs =
    match r0 with Some x => Some x | None => first_having (concat (map (fun c => if node_isView c then node_id c :: descendants c else []) cs)) end) as H by apply H end.
  induction IH as [|c cs Hc _ IH]; intros r; [by destruct r|]. cbn [foldl map concat]. rewrite IH, first_having_app.
  destruct (node_isView c); cbn [negb]; [|by destruct r]. destruct r as [x|]; [done|].
  rewrite first_having_cons, Hc. by destruct (has (node_id c)).
Qed.
End descendants.

(** ** Templates *)

Section templates.
Context {T : Type} (compile : string -> T).        (* [Ember.Handlebars.compile] *)
Context (templateForName : option string -> option T).
Context (inherited : list string).                 (* the properties every object has *)

(** The cache is an object: what it is asked for by a name that every object has, is not a
    compiled template. *)
Inductive found := Compiled (t : T) | Builtin (name : string).

Record cache := Cache { templates : gmap string T; compilations : list string }.

Definition _compileTemplate (template : string) (c : cache) : cache * found :=
  match templates c !! template with
  | Some t => (c, Compiled t)
  | None =>
      if bool_decide (template ∈ inherited) then (c, Builtin template)
      else let t := compile template in (Cache (<[template := t]> (templates c)) (compilations c ++ [template]), Compiled t)
  end.

(** The property [template] of a view: from its [handlebars], else by the name. *)
Definition template (handlebars templateName : option string) (c : cache) : cache * option found :=
  let by_name := templateForName templateName in
  match handlebars with
  | Some s => if decide (s = "") then (c, Compiled <$> by_name) else let (c', t) := _compileTemplate s c in (c', Some t)
  | None => (c, Compiled <$> by_name)
  end.

Fixpoint compile_all (l : list string) (c : cache) : cache * list found :=
  match l with
  | [] => (c, [])
  | s :: l' => let (c1, t) := _compileTemplate s c in let (c2, ts) := compile_all l' c1 in (c2, t :: ts)
  end.

Record cache_ok (c : cache) : Prop := {
  cache_right s t : templates c !! s = Some t -> t = compile s;
  cache_logged s : s ∈ compilations c <-> is_Some (templates c !! s);
  cache_once : NoDup (compilations c)
}.

Lemma empty_ok : cache_ok (Cache ∅ []).
Proof. split; cbn; [done| |constructor]. intros s. rewrite lookup_empty. split; [set_solver|by intros [? ?]]. Qed.

Lemma compile_ok s c : cache_ok c -> s ∉ inherited ->
  cache_ok (_compileTemplate s c).1 /\ (_compileTemplate s c).2 = Compiled (compile s).
Proof.
  intros [Hr Hl Ho] Hs. unfold _compileTemplate. destruct (templates c !! s) as [t|] eqn:E; cbn.
  { split; [done|]. by rewrite (Hr s t E). }
  rewrite bool_decide_eq_false_2 by done. cbn. split; [|done]. split; cbn.
  - intros x t [[<- <-]|[_ Hx]]%lookup_insert_Some; [done|by apply Hr].
  - intros x. rewrite elem_of_app, list_elem_of_singleton, Hl, lookup_insert_is_Some. destruct (decide (s = x)); naive_solver.
  - apply NoDup_app. split_and!; [done| |apply NoDup_singleton]. intros x Hx. rewrite list_elem_of_singleton. intros ->.
    apply Hl in Hx as [t Ht]. congruence.
Qed.

(** Views get their templates as if each had been compiled for them, while no template
    is compiled twice, as long as no template is the name of a property every object has. *)
Theorem cache_is_transparent l :
  Forall (fun s => s ∉ inherited) l ->
  let (c, ts) := compile_all l (Cache ∅ []) in
  ts = (fun s => Compiled (compile s)) <$> l /\ NoDup (compilations c) /\ forall s, s ∈ compilations c <-> s ∈ l.
Proof.
  intros Hl. assert (forall c, cache_ok c -> let (c', ts) := compile_all l c in
    cache_ok c' /\ ts = (fun s => Compiled (compile s)) <$> l /\
    forall s, s ∈ compilations c' <-> s ∈ compilations c \/ s ∈ l) as H.
  { induction Hl as [|s l Hs _ IH]; intros c Hc; cbn [compile_all]; [split_and!; [done..|set_solver]|].
    destruct (compile_ok s c Hc Hs) as [H1 H2]. destruct (_compileTemplate s c) as [c1 t] eqn:E. cbn in H1, H2. subst t.
    specialize (IH c1 H1). destruct (compile_all l c1) as [c2 ts]. destruct IH as (H2 & -> & Hin). split_and!; [done..|].
    intros x. rewrite Hin, elem_of_cons. enough (x ∈ compilations c1 <-> x ∈ compilations c \/ x = s) by naive_solver.
    clear -E Hs Hc. unfold _compileTemplate in E. destruct (templates c !! s) eqn:Es; [injection E as <-|].
    - split; [by left|]. intros [?| ->]; [done|]. apply (cache_logged c Hc). by eexists.
    - rewrite bool_decide_eq_false_2 in E by done. injection E as <-. cbn. set_solver. }
  specialize (H _ empty_ok). destruct (compile_all l _) as [c ts]. destruct H as (Hc & -> & Hin). split_and!; [done| |].
  - exact (cache_once c Hc).
  - intros s. rewrite Hin. set_solver.
Qed.
End templates.

(** ** Class names

    The prototypes of a view, from its own class upwards, end with that of [View] and
    those above it.  A prototype has the class names of those above it and its own. *)
Record proto := Proto { isViewClass : bool; proto_classNames : option (list string) }.

(** [removeObjects] *)
Definition removeObjects (xs l : list string) : list string := base.filter (fun x => x ∉ xs) l.

(** The loop up to [View]; without it the prototype of the last one is null, of which a
    property is read. *)
Fixpoint collect_loop (acc : list string) (chain : list proto) : outcome (list string) :=
  match chain with
  | [] => Throw TypeError
  | p :: ps =>
      if isViewClass p then Ok (removeObjects (default [] (proto_classNames p)) acc)
      else collect_loop (acc ++ default [] (proto_classNames p)) ps
  end.

(** [chain] begins with the class of the view, which is skipped. *)
Definition _collectSuperClassNames (chain : list proto) : outcome (list string) := collect_loop [] (tail chain).

Definition init_classNames (resetClassNames : bool) (chain : list proto) (classNames : list string) : outcome (list string) :=
  if resetClassNames then
    do! superClassNames <- _collectSuperClassNames chain ;
    Ok (removeObjects superClassNames classNames)
  else Ok classNames.

Lemma removeObjects_app xs l1 l2 : removeObjects xs (l1 ++ l2) = removeObjects xs l1 ++ removeObjects xs l2.
Proof. apply filter_app. Qed.

Lemma removeObjects_none xs l : (forall x, x ∈ l -> x ∉ xs) -> removeObjects xs l = l.
Proof.
  induction l as [|x l IH]; intros H; [done|]. unfold removeObjects. rewrite filter_cons_True by set_solver.
  f_equal. apply IH. set_solver.
Qed.

Lemma removeObjects_all xs l : (forall x, x ∈ l -> x ∈ xs) -> removeObjects xs l = [].
Proof.
  induction l as [|x l IH]; intros H; [done|]. unfold removeObjects. rewrite filter_cons_False; [apply IH|]; set_solver.
Qed.

Lemma elem_of_concat_map {A B} (f : A -> list B) l x : x ∈ concat (map f l) <-> exists p, p ∈ l /\ x ∈ f p.
Proof. induction l as [|a l IH]; cbn; [set_solver|]. rewrite elem_of_app, IH. set_solver. Qed.

Lemma class_names_collected above v rest : forall acc,
  Forall (fun p => isViewClass p = false) above -> isViewClass v = true ->
  collect_loop acc (above ++ v :: rest) =
    Ok (removeObjects (default [] (proto_classNames v)) (acc ++ concat (map (fun p => default [] (proto_classNames p)) above))).
Proof.
  induction above as [|p above IH]; intros acc Hf Hv; cbn [collect_loop app].
  - by rewrite Hv, app_nil_r.
  - apply Forall_cons in Hf as [-> Hf]. rewrite (IH _ Hf Hv). by rewrite <- app_assoc.
Qed.

(** A class that resets its class names keeps those of [View] and its own, and drops
    those of the classes between, wherever these do not share names. *)
Theorem own_class_names_remain own mid vnames above v rest c :
  Forall (fun p => isViewClass p = false) above -> isViewClass v = true -> proto_classNames v = Some vnames ->
  (forall x, x ∈ mid -> exists p, p ∈ above /\ x ∈ default [] (proto_classNames p)) ->
  (forall p x, p ∈ above -> x ∈ default [] (proto_classNames p) -> x ∈ vnames \/ x ∈ mid) ->
  (forall x, x ∈ mid -> x ∉ vnames /\ x ∉ own) ->
  init_classNames true (c :: above ++ v :: rest) (vnames ++ mid ++ own) = Ok (vnames ++ own).
Proof.
  intros Hf Hv Hn Hmid Habove Hdis. unfold init_classNames, _collectSuperClassNames. cbn [tail].
  rewrite (class_names_collected above v rest [] Hf Hv), Hn. cbn [app default outcome_bind from_option id]. f_equal.
  set (collected := removeObjects vnames _).
  assert (forall x, x ∈ collected <-> x ∉ vnames /\ exists p, p ∈ above /\ x ∈ default [] (proto_classNames p)) as Hc.
  { intros x. unfold collected, removeObjects. by rewrite list_elem_of_filter, elem_of_concat_map. }
  rewrite !removeObjects_app, (removeObjects_none _ vnames), (removeObjects_all _ mid), (removeObjects_none _ own); [done|..].
  - intros x Hx. rewrite Hc. intros [Hx1 (p & Hp & Hpx)]. destruct (Habove p x Hp Hpx) as [?|Hm]; [done|]. by destruct (Hdis x Hm).
  - intros x Hx. apply Hc. split; [by apply Hdis|]. by apply Hmid.
  - intros x Hx. rewrite Hc. naive_solver.
Qed.

(** ** Witnesses and departures *)

Lemma cache_is_transparent_witness :
  (compile_all String.length ["constructor"] ["{{view.value}}"; "<b>"; "{{view.value}}"] (Cache ∅ [])).2 =
    [Compiled 14; Compiled 3; Compiled 14].
Proof.
  pose proof (cache_is_transparent String.length ["constructor"] ["{{view.value}}"; "<b>"; "{{view.value}}"]) as H.
  destruct (compile_all _ _ _ _) as [c ts]. destruct H as (-> & _); [|reflexivity].
  apply Forall_forall. intros s Hs. set_solver.
Defined.

(** A check box is a button with class names of its own. *)
Definition ex_chain : list proto :=
  [Proto false (Some ["ember-view"; "flame-view"; "flame-button-view"; "flame-checkbox-view"]);
   Proto false (Some ["ember-view"; "flame-view"; "flame-button-view"]);
   Proto true (Some ["ember-view"; "flame-view"])].

Lemma own_class_names_remain_witness :
  init_classNames true ex_chain ["ember-view"; "flame-view"; "flame-button-view"; "flame-checkbox-view"] =
    Ok ["ember-view"; "flame-view"; "flame-checkbox-view"].
Proof.
  apply (own_class_names_remain ["flame-checkbox-view"] ["flame-button-view"] ["ember-view"; "flame-view"]
    [Proto false (Some ["ember-view"; "flame-view"; "flame-button-view"])] (Proto true (Some ["ember-view"; "flame-view"])) []).
  - repeat constructor.
  - reflexivity.
  - reflexivity.
  - intros x Hx. eexists. split; [by apply list_elem_of_singleton|]. cbn. set_solver.
  - intros p x Hp. apply list_elem_of_singleton in Hp as ->. cbn. set_solver.
  - intros x Hx. apply list_elem_of_singleton in Hx as ->. split; set_solver.
Defined.

(** A subclass of the check box loses the class name of the check box. *)
Lemma subclass_loses_name :
  init_classNames true (Proto false (Some ["ember-view"; "flame-view"; "flame-button-view"; "flame-checkbox-view"; "my-checkbox"]) :: ex_chain)
    ["ember-view"; "flame-view"; "flame-button-view"; "flame-checkbox-view"; "my-checkbox"] =
    Ok ["ember-view"; "flame-view"; "my-checkbox"].
Proof. reflexivity. Qed.

(** A collection view is not a [View]: the flag makes its creation throw. *)
Lemma collection_view_throws : init_classNames true [Proto false (Some ["flame-collection-view"]); Proto false None] ["flame-collection-view"] = Throw TypeError.
Proof. reflexivity. Qed.

(** The text of a label that is the name of a property of all objects. *)
Lemma constructor_is_no_template :
  (_compileTemplate String.length ["constructor"] "constructor" (Cache ∅ [])).2 = Builtin "constructor".
Proof. reflexivity. Qed.
