(* ===== verification/Bindings.v ===== *)
(** * Properties of ancestors ([utils/computed_nearest.js], [utils/prefixed_binding.js])

    Two ways for a view to refer to a property of the views it is in: the macro [nearest]
    defines, when it is first used, a property that follows a path to the nearest ancestor
    that has the property; a binding whose path begins with [^] or [$] is resolved when
    the view is created, to the path of an ancestor's property or to the path that such a
    property holds.

    Objects are sets of properties, the parent of a view being one of them.  Paths are
    strings, read from left to right at the dots ([Ember.get]); a step on anything but an
    object gives [undefined].  The macros that can be passed to [nearest] are parameters:
    functions of the value at the path.  Names of properties are not empty and hold
    no dots; [Ember.assert] throws. *)

From S2P Require Import Prelude.
From stdpp Require Import gmap.
Open Scope string_scope.
Open Scope list_scope.
Open Scope flame_scope.

(** ** Objects and paths *)

Abbreviation objects := (gmap nat (gmap string jsval)).

Definition dot : Ascii.ascii := "."%char.

Definition get (os : objects) (o : jsval) (k : string) : jsval :=
  match o with JObj i => default JUndefined (os !! i ≫= (.!! k)) | _ => JUndefined end.

(** [k in o] *)
Definition has (os : objects) (i : nat) (k : string) : bool := bool_decide (is_Some (os !! i ≫= (.!! k))).

Definition follow (os : objects) (o : jsval) (path : list string) : jsval := foldl (get os) o path.
Definition getPath (os : objects) (o : jsval) (path : string) : jsval := follow os o (split_on dot path).

Definition set_prop (os : objects) (i : nat) (k : string) (v : jsval) : objects := alter (<[k := v]>) i os.

(** [Ember.set] with a path: the object the path leads to but for its last name. *)
Definition setPath (os : objects) (o : jsval) (path : string) (v : jsval) : outcome objects :=
  let words := split_on dot path in
  match follow os o (removelast words) with
  | JObj i => Ok (set_prop os i (List.last words "") v)
  | _ => Throw "Property set failed: object in path could not be found or was destroyed."
  end.

(** ** [nearest] *)

(** The part before the first dot, and the rest from the dot on. *)
Fixpoint split_first (s : string) : string * string :=
  match s with
  | EmptyString => (EmptyString, EmptyString)
  | String a s' =>
      if decide (a = dot) then (EmptyString, s)
      else let '(p, r) := split_first s' in (String a p, r)
  end.

(** [key.replace(/\./g, '_')] *)
Fixpoint undot (s : string) : string :=
  match s with
  | EmptyString => EmptyString
  | String a s' => String (if decide (a = dot) then "_"%char else a) (undot s')
  end.

Definition property_name (key : string) : string := "__" +:+ undot key.

Definition not_found (p : string) : string := "Could not find property '" +:+ p +:+ "' in ancestor views".
Definition from_parent : string := "Don't use Flame.computed.nearest to fetch a property from the parent view".

(** The loop up the parents; [None] when the fuel runs out. *)
Fixpoint climb (fuel : nat) (os : objects) (property : string) (view : jsval) (path : string) : option (jsval * string) :=
  match fuel with
  | 0 => None
  | S n =>
      match view with
      | JObj i =>
          if has os i property then Some (view, path)
          else climb n os property (get os view "parentView") (path +:+ ".parentView")
      | _ => Some (view, path)
      end
  end.

Definition macro := jsval -> jsval.
Definition alias : macro := fun v => v.

(** The properties that were defined by [nearest], by view and name. *)
Record world := World { objs : objects; defined : list (nat * string * (macro * string)) }.

Definition find_defined (w : world) (target : nat) (name : string) : option (macro * string) :=
  snd <$> List.find (fun p => Nat.eqb p.1.1 target && String.eqb p.1.2 name) (defined w).

Definition createProperty (fuel : nat) (target : nat) (propertyName key : string) (mac : option macro) (w : world) : option (outcome world) :=
  let '(property, rest) := split_first key in
  r ← climb fuel (objs w) property (get (objs w) (JObj target) "parentView") "parentView";
  let '(view, path) := r in
  if negb (truthy view) then Some (Throw (not_found property))
  else if String.eqb path "parentView" then Some (Throw from_parent)
  else Some (Ok (World (objs w) ((target, propertyName, (default alias mac, path +:+ "." +:+ property +:+ rest)) :: defined w))).

Definition ensure_property (fuel : nat) (target : nat) (key : string) (mac : option macro) (w : world) : option (outcome world) :=
  match find_defined w target (property_name key) with
  | Some _ => Some (Ok w)
  | None => createProperty fuel target (property_name key) key mac w
  end.

Definition read_property (w : world) (target : nat) (name : string) : jsval :=
  match find_defined w target name with
  | Some (f, path) => f (getPath (objs w) (JObj target) path)
  | None => JUndefined
  end.

(** The property made by [nearest(key, mac)] is read. *)
Definition nearest_get (fuel : nat) (target : nat) (key : string) (mac : option macro) (w : world) : option (outcome (world * jsval)) :=
  r ← ensure_property fuel target key mac w;
  Some (do! w' <- r ; Ok (w', read_property w' target (property_name key))).

(** It is set, which without a macro sets the property the path leads to. *)
Definition nearest_set (fuel : nat) (target : nat) (key : string) (value : jsval) (w : world) : option (outcome (world * jsval)) :=
  r ← ensure_property fuel target key None w;
  Some (do! w' <- r ;
        do! path <- or_throw (snd <$> find_defined w' target (property_name key)) TypeError ;
        do! os <- setPath (objs w') (JObj target) path value ;
        let w'' := World os (defined w') in
        Ok (w'', read_property w'' target (property_name key))).

(** ** Prefixed bindings *)

Inductive prefix := Caret | Dollar.

(** The match of [_from] with the form of a prefixed binding. *)
Definition prefixed (from : string) : option (prefix * string * string) :=
  match from with
  | String a s =>
      if decide (a = "^"%char) then let '(p, r) := split_first s in if bool_decide (p = "") then None else Some (Caret, p, r)
      else if decide (a = "$"%char) then let '(p, r) := split_first s in if bool_decide (p = "") then None else Some (Dollar, p, r)
      else None
  | EmptyString => None
  end.

Fixpoint value_loop (fuel : nat) (os : objects) (p : string) (cur value : jsval) : option jsval :=
  match fuel with
  | 0 => None
  | S n =>
      if bool_decide (value = JUndefined) && negb (isNone cur)
      then value_loop n os p (get os cur "parentView") (get os cur p)
      else Some value
  end.

Definition lookupValueOfProperty (fuel : nat) (os : objects) (view : nat) (p : string) : option jsval :=
  value_loop fuel os p (JObj view) JUndefined.

Fixpoint path_loop (fuel : nat) (os : objects) (p : string) (cur : jsval) (path : list string) : option (option string) :=
  match fuel with
  | 0 => None
  | S n =>
      if isNone cur then Some None
      else if negb (bool_decide (get os cur p = JUndefined)) || negb (bool_decide (get os cur (p +:+ "Binding") = JUndefined))
      then Some (Some (Prelude.join dot (reverse path)))
      else path_loop n os p (get os cur "parentView") (path ++ ["parentView"])
  end.

Definition lookupPathToProperty (fuel : nat) (os : objects) (view : nat) (p : string) : option (option string) :=
  path_loop fuel os p (get os (JObj view) "parentView") [p; "parentView"].

Definition unresolved (p : string) : string := "Property '" +:+ p +:+ "' was not found!".

Section prefixed.
(** How a value that is not a string becomes one. *)
Context (toString : jsval -> string).

(** The path a binding of a new view is connected to; [None] when it is not prefixed. *)
Definition bindPrefixed (fuel : nat) (os : objects) (view : nat) (from : string) : option (option (outcome string)) :=
  match prefixed from with
  | None => Some None
  | Some (Dollar, p, suffix) =>
      v ← lookupValueOfProperty fuel os view p;
      Some (Some (match v with
                  | JStr s => Ok (s +:+ suffix)
                  | JUndefined | JNull => Throw (unresolved p)
                  | _ => Ok (toString v +:+ suffix)
                  end))
  | Some (Caret, p, suffix) =>
      r ← lookupPathToProperty fuel os view p;
      Some (Some (match r with
                  | Some path => Ok (path +:+ suffix)
                  | None => Throw (unresolved p)
                  end))
  end.
End prefixed.

(** ** Specification *)

(** A name of a property. *)
Definition name_ok (s : string) : Prop := s <> "" /\ str_elem dot s = false.

(** The ancestors of a view, the parent first, up to one that has no parent. *)
Inductive ancestors (os : objects) : nat -> list nat -> Prop :=
| no_ancestors v : isNone (get os (JObj v) "parentView") = true -> ancestors os v []
| ancestors_cons v p l : get os (JObj v) "parentView" = JObj p -> ancestors os p l -> ancestors os v (p :: l).

(** ** Lemmas on paths *)

Lemma split_on_app s1 s2 : split_on dot (s1 +:+ String dot s2) = split_on dot s1 ++ split_on dot s2.
Proof.
  induction s1 as [|a s1 IH]; [reflexivity|].
  change (String a s1 +:+ String dot s2) with (String a (s1 +:+ String dot s2)). cbn [split_on].
  destruct (decide (a = dot)); [by rewrite IH|]. rewrite IH.
  destruct (split_on dot s1) eqn:E; [by apply split_on_nonempty in E|done].
Qed.

Lemma follow_app os o l1 l2 : follow os o (l1 ++ l2) = follow os (follow os o l1) l2.
Proof. apply foldl_app. Qed.

Lemma split_first_word key : split_on dot key = (split_first key).1 ::
  match (split_first key).2 with EmptyString => [] | String _ r => split_on dot r end.
Proof.
  induction key as [|a s IH]; [done|]. cbn [split_on split_first].
  destruct (decide (a = dot)) as [->|Hne]; [done|]. destruct (split_first s) as [p r] eqn:E. cbn [fst snd] in *.
  by rewrite IH.
Qed.

Lemma split_first_spec key : key = (split_first key).1 +:+ (split_first key).2 /\ str_elem dot (split_first key).1 = false /\
  ((split_first key).2 = "" \/ exists r, (split_first key).2 = String dot r).
Proof.
  induction key as [|a s IH]; [by split_and!; auto|]. cbn [split_first].
  destruct (decide (a = dot)) as [->|Hne]; [cbn; split_and!; [done|done|right; by exists s]|].
  destruct (split_first s) as [p r]. cbn [fst snd] in *. destruct IH as (H1 & H2 & H3). split_and!.
  - change (String a p +:+ r) with (String a (p +:+ r)). by rewrite <- H1.
  - cbn [str_elem]. by rewrite bool_decide_eq_false_2.
  - done.
Qed.

Lemma append_assoc (a b c : string) : (a +:+ b) +:+ c = a +:+ (b +:+ c).
Proof. induction a as [|x a IH]; [done|]. exact (f_equal (String x) IH). Qed.

(** A path up the parents and on to a property. *)
Lemma getPath_up os v path key :
  getPath os v (path +:+ "." +:+ key) = getPath os (getPath os v path) key.
Proof. unfold getPath. change ("." +:+ key) with (String dot key). by rewrite split_on_app, follow_app. Qed.

Lemma getPath_parentView os v : getPath os v "parentView" = get os v "parentView".
Proof. unfold getPath. rewrite split_on_no_sep by done. done. Qed.

(** ** Lemmas on [nearest] *)

(** The path to the nearest ancestor with a property. *)
Definition is_nearest (os : objects) (v : nat) (l1 : list nat) (a : nat) (property : string) : Prop :=
  (exists l2, ancestors os v (l1 ++ a :: l2)) /\ has os a property = true /\
  forall x, x ∈ l1 -> has os x property = false.

(** The same parents. *)
Definition same_parents (os os' : objects) : Prop := forall i, get os' (JObj i) "parentView" = get os (JObj i) "parentView".

(** A path that leads to an object whatever the other properties are. *)
Definition leads (os : objects) (v0 : nat) (path : string) (o : jsval) : Prop :=
  forall os', same_parents os os' -> getPath os' (JObj v0) path = o.

Lemma climb_ok os property v0 : forall l1 fuel v path a,
  leads os v0 path (get os (JObj v) "parentView") ->
  is_nearest os v l1 a property -> length l1 < fuel ->
  exists path', climb fuel os property (get os (JObj v) "parentView") path = Some (JObj a, path') /\
    leads os v0 path' (JObj a) /\ (l1 = [] -> path' = path) /\ (l1 <> [] -> exists s, path' = path +:+ String dot s).
Proof.
  induction l1 as [|p l1 IH]; intros fuel v path a Hp [[l2 Ha] [Hh Hno]] Hf; (destruct fuel as [|n]; [lia|]).
  - inversion Ha as [|? ? ? Ev Ha']; subst. cbn [climb]. rewrite Ev, Hh. exists path. rewrite Ev in Hp. by split_and!.
  - cbn [app] in Ha. inversion Ha as [|? ? ? Ev Ha']; subst. cbn [climb]. rewrite Ev.
    rewrite (Hno p) by set_solver.
    destruct (IH n p (path +:+ ".parentView") a) as (path' & E & E1 & E2 & E3).
    + intros os' Hs. change (path +:+ ".parentView") with (path +:+ "." +:+ "parentView").
      rewrite getPath_up, (Hp os' Hs), Ev, getPath_parentView. apply Hs.
    + split; [by exists l2|]. split; [done|]. intros x Hx. apply Hno. set_solver.
    + cbn in Hf. lia.
    + exists path'. split_and!; [done|done|done|]. intros _. destruct l1 as [|p' l1].
      * rewrite E2 by done. by exists "parentView".
      * destruct E3 as [s ->]; [done|]. exists ("parentView" +:+ String dot s).
        change ".parentView" with (String dot "parentView"). by rewrite append_assoc.
Qed.

Lemma leads_parent os v : leads os v "parentView" (get os (JObj v) "parentView").
Proof. intros os' Hs. rewrite getPath_parentView. apply Hs. Qed.

(** What [createProperty] defines leads to the property of the nearest ancestor. *)
Definition first_word (key : string) : string := (split_first key).1.

Lemma createProperty_ok fuel target name key mac w l1 a p :
  is_nearest (objs w) target (p :: l1) a (first_word key) -> length (p :: l1) < fuel ->
  exists path, createProperty fuel target name key mac w = Some (Ok (World (objs w) ((target, name, (default alias mac, path)) :: defined w))) /\
    (exists base, path = base +:+ "." +:+ key /\ leads (objs w) target base (JObj a)).
Proof.
  intros Hn Hf. unfold createProperty, first_word in *. destruct (split_first_spec key) as (Hk & _ & _).
  destruct (split_first key) as [property rest]. cbn [fst snd] in *.
  destruct (climb_ok (objs w) property target (p :: l1) fuel target "parentView" a (leads_parent _ _) Hn Hf)
    as (path' & -> & E1 & _ & E3). destruct (E3 ltac:(done)) as [s ->]. cbn [mbind option_bind truthy negb].
  assert (String.eqb ("parentView" +:+ String dot s) "parentView" = false) as ->.
  { apply String.eqb_neq. intros E. vm_compute in E. discriminate E. }
  eexists. split; [reflexivity|]. exists ("parentView" +:+ String dot s). split; [|done].
  by rewrite Hk.
Qed.

Lemma find_defined_cons w target name x l :
  find_defined (World w ((target, name, x) :: l)) target name = Some x.
Proof. unfold find_defined. cbn. by rewrite Nat.eqb_refl, String.eqb_refl. Qed.

(** ** Lemmas on setting *)

Lemma get_set_other os i k v o k' : k' <> k -> get (set_prop os i k v) o k' = get os o k'.
Proof.
  intros Hne. unfold get, set_prop. destruct o as [| | | | | |x]; try done. f_equal.
  destruct (decide (i = x)) as [->|Hx]; [|by rewrite lookup_alter_ne].
  rewrite lookup_alter_eq. destruct (os !! x) as [m|]; [|done]. cbn. by rewrite lookup_insert_ne.
Qed.

Lemma get_set_same os i k v : has os i k = true -> get (set_prop os i k v) (JObj i) k = v.
Proof.
  unfold has, get, set_prop. rewrite bool_decide_eq_true, lookup_alter_eq.
  destruct (os !! i) as [m|]; [|by intros [? ?]]. cbn. by rewrite lookup_insert_eq.
Qed.

Lemma removelast_snoc {A} (l : list A) x : removelast (l ++ [x]) = l.
Proof. by rewrite removelast_last. Qed.

Lemma setPath_up os v base key x o : str_elem dot key = false -> getPath os (JObj v) base = JObj o ->
  setPath os (JObj v) (base +:+ "." +:+ key) x = Ok (set_prop os o key x).
Proof.
  intros Hk Hb. unfold setPath. change ("." +:+ key) with (String dot key). rewrite split_on_app.
  rewrite (split_on_no_sep dot key Hk), removelast_snoc. unfold getPath in Hb. rewrite Hb. by rewrite last_last.
Qed.

Lemma first_word_name key : str_elem dot key = false -> first_word key = key.
Proof.
  intros H. pose proof (split_first_word key) as E. rewrite (split_on_no_sep dot key H) in E.
  unfold first_word. congruence.
Qed.

(** ** Lemmas on prefixed bindings *)

(** The property is there: it has a value, or a binding. *)
Definition bound (os : objects) (p : string) (i : nat) : Prop :=
  get os (JObj i) p <> JUndefined \/ get os (JObj i) (p +:+ "Binding") <> JUndefined.

Lemma join_snoc c l x : l <> [] -> Prelude.join c (l ++ [x]) = Prelude.join c l +:+ String c x.
Proof.
  induction l as [|y l IH]; [done|]. intros _. destruct l as [|z l]; [done|].
  specialize (IH ltac:(done)). cbn [app] in IH |- *.
  change (Prelude.join c (y :: z :: l ++ [x])) with (y +:+ String c (Prelude.join c (z :: l ++ [x]))).
  rewrite IH. change (Prelude.join c (y :: z :: l)) with (y +:+ String c (Prelude.join c (z :: l))).
  by rewrite append_assoc.
Qed.

Lemma path_loop_ok os p : forall l1 fuel v n a,
  (exists l2, ancestors os v (l1 ++ a :: l2)) -> bound os p a -> (forall x, x ∈ l1 -> ~ bound os p x) -> length l1 < fuel ->
  path_loop fuel os p (get os (JObj v) "parentView") (p :: replicate (S n) "parentView") =
    Some (Some (Prelude.join dot (replicate (S n + length l1) "parentView" ++ [p]))).
Proof.
  assert (Hb : forall i, bound os p i <->
    negb (bool_decide (get os (JObj i) p = JUndefined)) || negb (bool_decide (get os (JObj i) (p +:+ "Binding") = JUndefined)) = true).
  { intros i. unfold bound. rewrite orb_true_iff, !negb_true_iff, !bool_decide_eq_false. done. }
  induction l1 as [|q l1 IH]; intros fuel v n a [l2 Ha] Hbd Hno Hf; (destruct fuel as [|f]; [lia|]).
  - inversion Ha as [|? ? ? Ev Ha']; subst. cbn [path_loop]. rewrite Ev. cbn [isNone].
    rewrite (proj1 (Hb a) Hbd). do 2 f_equal. rewrite reverse_cons, reverse_replicate. cbn [length]. by rewrite Nat.add_0_r.
  - cbn [app] in Ha. inversion Ha as [|? ? ? Ev Ha']; subst. cbn [path_loop]. rewrite Ev. cbn [isNone].
    assert (negb (bool_decide (get os (JObj q) p = JUndefined)) || negb (bool_decide (get os (JObj q) (p +:+ "Binding") = JUndefined)) = false) as ->.
    { apply not_true_iff_false. rewrite <- Hb. apply Hno. set_solver. }
    change ((p :: replicate (S n) "parentView") ++ ["parentView"]) with (p :: (replicate (S n) "parentView" ++ ["parentView"])).
    change ["parentView"] with (replicate 1 "parentView"). rewrite <- replicate_add.
    replace (S n + 1) with (S (S n)) by lia. rewrite (IH f q (S n) a); [|by exists l2|done| |cbn in Hf; lia].
    + do 4 f_equal. cbn [length]. f_equal. lia.
    + intros x Hx. apply Hno. set_solver.
Qed.

Lemma follow_up os : forall l1 v a, (exists l2, ancestors os v (l1 ++ a :: l2)) ->
  follow os (JObj v) (replicate (S (length l1)) "parentView") = JObj a.
Proof.
  induction l1 as [|q l1 IH]; intros v a [l2 Ha]; inversion Ha as [|? ? ? Ev Ha']; subst.
  - cbn. exact Ev.
  - cbn [length]. change (replicate (S (S (length l1))) "parentView") with ("parentView" :: replicate (S (length l1)) "parentView").
    unfold follow. cbn [foldl]. rewrite Ev. apply IH. by exists l2.
Qed.

Lemma split_join_names l : l <> [] -> Forall (fun x => str_elem dot x = false) l -> split_on dot (Prelude.join dot l) = l.
Proof. apply split_join. Qed.

(** ** Lemmas on the two forms *)

Lemma split_first_app p s : str_elem dot p = false -> s = "" \/ (exists r, s = String dot r) -> split_first (p +:+ s) = (p, s).
Proof.
  intros Hp Hs. induction p as [|a p IH].
  - change ("" +:+ s) with s. by destruct Hs as [->|[r ->]].
  - cbn in Hp. apply orb_false_iff in Hp as [Ha Hp]. rewrite bool_decide_eq_false in Ha.
    change (String a p +:+ s) with (String a (p +:+ s)). cbn [split_first]. rewrite decide_False by done. by rewrite IH.
Qed.

Lemma path_loop_none os p : forall l fuel v path,
  ancestors os v l -> (forall x, x ∈ l -> ~ bound os p x) -> length l < fuel ->
  path_loop fuel os p (get os (JObj v) "parentView") path = Some None.
Proof.
  induction l as [|q l IH]; intros fuel v path Ha Hno Hf; (destruct fuel as [|f]; [lia|]); inversion Ha as [? Hv|? ? ? Ev Ha']; subst.
  - cbn [path_loop]. by rewrite Hv.
  - cbn [path_loop]. rewrite Ev. cbn [isNone].
    assert (negb (bool_decide (get os (JObj q) p = JUndefined)) || negb (bool_decide (get os (JObj q) (p +:+ "Binding") = JUndefined)) = false) as ->.
    { apply not_true_iff_false. rewrite orb_true_iff, !negb_true_iff, !bool_decide_eq_false. apply (Hno q). set_solver. }
    apply IH; [done| |cbn in Hf; lia]. intros x Hx. apply Hno. set_solver.
Qed.

Lemma value_loop_ok os p a v : get os (JObj a) p = v -> v <> JUndefined ->
  forall l fuel c anc l2, ancestors os c anc -> c :: anc = l ++ a :: l2 -> (forall x, x ∈ l -> get os (JObj x) p = JUndefined) ->
  length l + 1 < fuel -> value_loop fuel os p (JObj c) JUndefined = Some v.
Proof.
  intros Hv Hd. induction l as [|x l IH]; intros fuel c anc l2 Ha E Hno Hf; (destruct fuel as [|[|f]]; [lia|lia|]).
  - cbn in E. injection E as -> ->. cbn [value_loop]. rewrite bool_decide_eq_true_2 by done. cbn [negb isNone andb].
    rewrite Hv, bool_decide_eq_false_2 by done. done.
  - cbn in E. injection E as -> ->. remember (S f) as f'. cbn [value_loop]. rewrite bool_decide_eq_true_2 by done. cbn [negb isNone andb].
    rewrite (Hno x) by set_solver. destruct (l ++ a :: l2) as [|q r] eqn:El; [by destruct l|].
    inversion Ha as [|? ? ? Eq Ha']; subst.
    rewrite Eq. eapply (IH (S f) q); [exact Ha'|by symmetry| |cbn in Hf; lia]. intros y Hy. apply Hno. set_solver.
Qed.

(** ** Properties *)

(** C25. The property that [nearest(key, macro)] makes is the macro of the value at [key] of
    the nearest ancestor that has its first name, when it is read first and, as long as the
    views stay in each other, whatever values properties take later; fuel for as many
    views as are passed is enough. *)
Theorem nearest_resolves fuel target key mac w p l1 a :
  find_defined w target (property_name key) = None ->
  is_nearest (objs w) target (p :: l1) a (first_word key) -> length (p :: l1) < fuel ->
  exists w', nearest_get fuel target key mac w = Some (Ok (w', default alias mac (getPath (objs w) (JObj a) key))) /\
    objs w' = objs w /\
    forall os' fuel', same_parents (objs w) os' ->
      nearest_get fuel' target key mac (World os' (defined w')) =
        Some (Ok (World os' (defined w'), default alias mac (getPath os' (JObj a) key))).
Proof.
  intros Hd Hn Hf. destruct (createProperty_ok fuel target (property_name key) key mac w l1 a p Hn Hf) as (path & Hc & base & Hp & Hb).
  eexists. unfold nearest_get, ensure_property. rewrite Hd, Hc. cbn [mbind option_bind outcome_bind].
  assert (Hr : forall os', same_parents (objs w) os' ->
    read_property (World os' ((target, property_name key, (default alias mac, path)) :: defined w)) target (property_name key) =
      default alias mac (getPath os' (JObj a) key)).
  { intros os' Hs. unfold read_property. rewrite find_defined_cons. cbn [objs]. by rewrite Hp, getPath_up, (Hb os' Hs). }
  rewrite (Hr (objs w)) by done. split; [done|]. split; [done|].
  intros os' fuel' Hs. cbn [defined]. rewrite find_defined_cons. cbn [mbind option_bind outcome_bind]. by rewrite (Hr os' Hs).
Qed.

(** Setting it sets the property of that ancestor, to nothing else, and the value that
    was set is read back. *)
Theorem nearest_set_roundtrip fuel target key value w p l1 a :
  find_defined w target (property_name key) = None -> str_elem dot key = false -> key <> "parentView" ->
  is_nearest (objs w) target (p :: l1) a key -> length (p :: l1) < fuel ->
  exists w', nearest_set fuel target key value w = Some (Ok (w', value)) /\
    objs w' = set_prop (objs w) a key value /\ get (objs w') (JObj a) key = value.
Proof.
  intros Hd Hk Hv Hn Hf. pose proof Hn as (_ & Hh & _).
  destruct (createProperty_ok fuel target (property_name key) key None w l1 a p) as (path & Hc & base & -> & Hb);
    [by rewrite first_word_name|done|].
  unfold nearest_set, ensure_property. rewrite Hd, Hc. cbn [mbind option_bind outcome_bind default].
  rewrite find_defined_cons. cbn [fmap option_fmap option_map snd or_throw outcome_bind objs].
  rewrite (setPath_up _ _ _ _ _ a) by (done || by apply Hb). cbn [outcome_bind].
  eexists (World _ _). split; [|split; [reflexivity|by apply get_set_same]].
  do 3 f_equal. 
  unfold read_property. cbn [defined]. rewrite find_defined_cons. cbn [objs].
  rewrite getPath_up, Hb by (intros i; by apply get_set_other).
  unfold getPath, alias, id. rewrite split_on_no_sep by done. unfold follow. cbn [foldl default]. rewrite get_set_same by done. done.
Qed.

(** A binding with [^] is connected to a path that, read from the view, gives what the
    rest of the path gives in the nearest ancestor that has the property, or a binding for
    it; a view without such an ancestor is refused. *)
Theorem caret_binding_resolves toString fuel os view p suffix l1 l2 :
  name_ok p -> suffix = "" \/ (exists r, suffix = String dot r) ->
  (forall x, x ∈ l1 -> ~ bound os p x) -> length (l1 ++ l2) < fuel -> ancestors os view (l1 ++ l2) ->
  match l2 with
  | [] => bindPrefixed toString fuel os view ("^" +:+ p +:+ suffix) = Some (Some (Throw (unresolved p)))
  | a :: _ => bound os p a ->
      exists path, bindPrefixed toString fuel os view ("^" +:+ p +:+ suffix) = Some (Some (Ok path)) /\
        getPath os (JObj view) path = getPath os (JObj a) (p +:+ suffix)
  end.
Proof.
  intros [Hp Hdot] Hs Hno Hf Ha.
  assert (Hpre : prefixed ("^" +:+ p +:+ suffix) = Some (Caret, p, suffix)).
  { change ("^" +:+ p +:+ suffix) with (String "^" (p +:+ suffix)). cbn [prefixed].
    rewrite decide_True by done. rewrite split_first_app by done. by rewrite bool_decide_eq_false_2. }
  unfold bindPrefixed. rewrite Hpre. unfold lookupPathToProperty.
  change [p; "parentView"] with (p :: replicate 1 "parentView"). destruct l2 as [|a l2].
  - rewrite app_nil_r in *. by rewrite (path_loop_none os p l1 fuel view _ Ha Hno Hf).
  - intros Hb. rewrite (path_loop_ok os p l1 fuel view 0 a) by (eauto || (rewrite length_app in Hf; cbn in Hf; lia)).
    cbn [mbind option_bind]. eexists. split; [reflexivity|].
    rewrite join_snoc by done. rewrite append_assoc. change (String dot p +:+ suffix) with ("." +:+ (p +:+ suffix)).
    rewrite getPath_up. f_equal. unfold getPath. rewrite split_join; [|done|].
    + apply (follow_up os l1 view a). eauto.
    + apply Forall_forall. intros x Hx. apply elem_of_replicate in Hx as [-> _]. done.
Qed.

(** A binding with [$] is connected to the path that the property holds in the view
    or in its nearest ancestor with a value for it, followed by the rest. *)
Theorem dollar_binding_resolves toString fuel os view p suffix anc l a l2 s :
  name_ok p -> suffix = "" \/ (exists r, suffix = String dot r) ->
  ancestors os view anc -> view :: anc = l ++ a :: l2 ->
  (forall x, x ∈ l -> get os (JObj x) p = JUndefined) -> get os (JObj a) p = JStr s -> length l + 1 < fuel ->
  bindPrefixed toString fuel os view ("$" +:+ p +:+ suffix) = Some (Some (Ok (s +:+ suffix))).
Proof.
  intros [Hp Hdot] Hs Ha E Hno Hv Hf.
  assert (Hpre : prefixed ("$" +:+ p +:+ suffix) = Some (Dollar, p, suffix)).
  { change ("$" +:+ p +:+ suffix) with (String "$" (p +:+ suffix)). cbn [prefixed].
    rewrite decide_False, decide_True by done. rewrite split_first_app by done. by rewrite bool_decide_eq_false_2. }
  unfold bindPrefixed. rewrite Hpre. unfold lookupValueOfProperty.
  by rewrite (value_loop_ok os p a (JStr s) Hv ltac:(done) l fuel view anc l2 Ha E Hno Hf).
Qed.

(** ** Witnesses *)

(** Views 1 to 4, each in the one before; object 9 is a controller. *)
Definition ex_objects : objects := Eval vm_compute in
  list_to_map [(1, list_to_map [("parentView", JNull); ("controller", JObj 9); ("title", JStr "top")]);
    (2, list_to_map [("parentView", JObj 1); ("controllerPath", JStr "App.main")]);
    (3, list_to_map [("parentView", JObj 2)]);
    (4, list_to_map [("parentView", JObj 3)]);
    (9, list_to_map [("name", JStr "n"); ("empty", JStr "")])].
Definition ex_world : world := World ex_objects [].

Lemma ex_ancestors4 : ancestors ex_objects 4 [3; 2; 1].
Proof. repeat (apply ancestors_cons; [reflexivity|]). apply no_ancestors. reflexivity. Defined.

Lemma ex_nearest k : has ex_objects 1 k = true -> has ex_objects 2 k = false -> has ex_objects 3 k = false ->
  is_nearest ex_objects 4 [3; 2] 1 k.
Proof.
  intros H1 H2 H3. split; [exists []; exact ex_ancestors4|]. split; [exact H1|]. intros x Hx.
  repeat (apply elem_of_cons in Hx as [->|Hx]; [assumption|]). by apply elem_of_nil in Hx.
Defined.

Definition ex_empty : macro := fun v => JBool (bool_decide (v = JStr "")).

Lemma nearest_resolves_witness :
  exists w', nearest_get 5 4 "controller.name" (Some ex_empty) ex_world = Some (Ok (w', JBool false)) /\
    nearest_get 5 4 "controller.name" (Some ex_empty) (World (set_prop ex_objects 9 "name" (JStr "")) (defined w')) =
      Some (Ok (World (set_prop ex_objects 9 "name" (JStr "")) (defined w'), JBool true)).
Proof.
  destruct (nearest_resolves 5 4 "controller.name" (Some ex_empty) ex_world 3 [2] 1) as (w' & H1 & _ & H2);
    [reflexivity|by apply ex_nearest|cbn; lia|].
  exists w'. split; [exact H1|]. apply H2. intros i. by apply get_set_other.
Defined.

Lemma nearest_set_roundtrip_witness :
  exists w', nearest_set 5 4 "title" (JStr "new") ex_world = Some (Ok (w', JStr "new")) /\
    get (objs w') (JObj 1) "title" = JStr "new".
Proof.
  destruct (nearest_set_roundtrip 5 4 "title" (JStr "new") ex_world 3 [2] 1) as (w' & H1 & _ & H2);
    [reflexivity|reflexivity|discriminate|by apply ex_nearest|cbn; lia|].
  exists w'. split; [exact H1|exact H2].
Defined.

Lemma caret_binding_resolves_witness :
  exists path, bindPrefixed (fun _ => "") 5 ex_objects 4 "^controller.name" = Some (Some (Ok path)) /\
    getPath ex_objects (JObj 4) path = JStr "n".
Proof.
  destruct (caret_binding_resolves (fun _ => "") 5 ex_objects 4 "controller" ".name" [3; 2] [1]) as (path & H1 & H2).
  - split; [discriminate|reflexivity].
  - right. by exists "name".
  - intros x Hx. repeat (apply elem_of_cons in Hx as [->|Hx]; [intros [H|H]; by apply H|]). by apply elem_of_nil in Hx.
  - cbn. lia.
  - exact ex_ancestors4.
  - left. discriminate.
  - exists path. split; [exact H1|exact H2].
Defined.

Lemma dollar_binding_resolves_witness :
  bindPrefixed (fun _ => "") 5 ex_objects 4 "$controllerPath.name" = Some (Some (Ok "App.main.name")).
Proof.
  apply (dollar_binding_resolves (fun _ => "") 5 ex_objects 4 "controllerPath" ".name" [3; 2; 1] [4; 3] 2 [1] "App.main").
  - split; [discriminate|reflexivity].
  - right. by exists "name".
  - exact ex_ancestors4.
  - reflexivity.
  - intros x Hx. repeat (apply elem_of_cons in Hx as [->|Hx]; [reflexivity|]). by apply elem_of_nil in Hx.
  - reflexivity.
  - cbn. lia.
Defined.

(** ** Departures *)

(** The property a view gets for a key does not depend on the macro: a second one for the
    same key reads the first one's. *)
Lemma second_macro_ignored :
  exists w', nearest_get 5 4 "controller.empty" (Some ex_empty) ex_world = Some (Ok (w', JBool true)) /\
    nearest_get 5 4 "controller.empty" None w' = Some (Ok (w', JBool true)) /\
    getPath ex_objects (JObj 1) "controller.empty" = JStr "".
Proof. eexists. split_and!; vm_compute; reflexivity. Qed.

(** Nor on whether a name is joined by dots or underscores. *)
Lemma joined_names_collide : property_name "foo.bar" = property_name "foo_bar".
Proof. reflexivity. Qed.

(** The value of a property is also looked for in the view itself, its path is not. *)
Lemma dollar_starts_at_the_view :
  bindPrefixed (fun _ => "") 5 ex_objects 2 "$controllerPath" = Some (Some (Ok "App.main")) /\
  bindPrefixed (fun _ => "") 5 ex_objects 2 "^controllerPath" = Some (Some (Throw (unresolved "controllerPath"))).
Proof. split; vm_compute; reflexivity. Qed.
