(* ===== verification/TableController.v ===== *)
(** * Table controllers (src/controllers/table_controller.js,
      src/controllers/data_table_controller.js, src/utils/table_cell.js)

    A table is described by two forests of headers.  Their leaves index the rows
    and columns of a grid of cells; a leaf is named from outside by its path (the
    ids from the root to it) and inside by its index.  [TableController] keeps
    the grid, translates paths to indexes, and accepts batches of cell values;
    [DataTableController] builds the headers and one batch from plain arrays. *)
From S2P Require Import Prelude.

Set Warnings "-register-all".
Open Scope string_scope.
Open Scope list_scope.

(** ** Data *)

(** A JavaScript object used as a plain record: its own properties. *)
Abbreviation obj := (gmap string jsval).

(** A header node: its own [id] (absent when the object has none), its other
    properties ([params], [label], ...), and its [children] (absent on a leaf,
    [hasOwnProperty('children')]). *)
Inductive header : Type :=
| Header (h_id : option Z) (h_props : obj) (h_children : option (list header)).

Definition h_id (h : header) : option Z := let 'Header i _ _ := h in i.
Definition h_props (h : header) : obj := let 'Header _ p _ := h in p.
Definition h_children (h : header) : option (list header) := let 'Header _ _ c := h in c.

(** A path is an array of ids; the entry of a leaf without an id is [undefined]. *)
Abbreviation path := (list (option Z)).

(** What [_getLeafs] records on a leaf. *)
Record leaf := Leaf {
  leaf_props : obj;
  leaf_path : path;
  leafIndex : nat
}.

Definition leaf_params (f : leaf) : jsval := default JUndefined (leaf_props f !! "params").

Record headers := Headers {
  rowHeaders : list header;
  columnHeaders : list header
}.

(** A cell value object of a batch. *)
Record cellData := CellData {
  cd_row : path;
  cd_column : path;
  cd_value : jsval;
  rowHeaderParams : jsval;
  columnHeaderParams : jsval
}.

(** A position of the grid: not loaded yet, a placeholder holding the attributes
    set before the cell is loaded, or a cell object. *)
Inductive slot : Type :=
| SNull
| SPending (pending : obj)
| SCell (cell : obj).

Record state := State {
  _headers : option headers;
  _data : list (list slot);
  dirtyCells : list (nat * nat);
  valuesOnRow : bool           (* [valuesOn === 'row'] *)
}.

(** ** Leaves *)

(** "Mark the leaf index" *)
Definition mark_leafs (l : list leaf) : list leaf :=
  imap (fun i f => Leaf (leaf_props f) (leaf_path f) i) l.

Fixpoint leafs_of_node (h : header) (p : path) {struct h} : list leaf :=
  match h with
  | Header i params (Some cs) =>
      let newPath := match i with Some _ => p ++ [i] | None => p end in
      mark_leafs (cs ≫= fun c => leafs_of_node c newPath)
  | Header i params None => [Leaf params (p ++ [i]) 0]
  end.

Definition _getLeafs (nodes : list header) (p : path) : list leaf :=
  mark_leafs (nodes ≫= fun n => leafs_of_node n p).

Definition rowLeafs (h : headers) : list leaf := _getLeafs (rowHeaders h) [].
Definition columnLeafs (h : headers) : list leaf := _getLeafs (columnHeaders h) [].

(** ** Paths as object keys

    An array used as a key becomes the comma-separated list of its elements, an
    [undefined] element becoming the empty string. *)
Definition comma : Ascii.ascii := ","%char.
Definition elem_str (i : option Z) : string :=
  match i with Some z => pretty z | None => "" end.
Definition path_key (p : path) : string := join comma (map elem_str p).

Abbreviation path_map := (gmap string (gmap string (nat * nat))).

Definition _indexFromPathMapping (h : headers) : path_map :=
  build_map (imap (fun i rowCell =>
    (path_key (leaf_path rowCell),
     build_map (imap (fun j colCell => (path_key (leaf_path colCell), (i, j)))
                     (columnLeafs h))))
    (rowLeafs h)).

(** [mapping[path.row][path.column]]: throws when the row is unknown, is
    [undefined] when only the column is. *)
Definition indexFromPath (h : headers) (p : path * path) : outcome (option (nat * nat)) :=
  match _indexFromPathMapping h !! path_key p.1 with
  | None => Throw TypeError
  | Some rowMapping => Ok (rowMapping !! path_key p.2)
  end.

Definition pathFromIndex (h : headers) (index : nat * nat) : outcome (path * path) :=
  (do! r <- or_throw (rowLeafs h !! index.1) TypeError;
   do! c <- or_throw (columnLeafs h !! index.2) TypeError;
   Ok (leaf_path r, leaf_path c))%flame.

(** ** Batches *)
Definition known_row (h : headers) (p : path) : bool :=
  bool_decide (is_Some (_indexFromPathMapping h !! path_key p)).

Definition _dataBatchIsForCurrentTable (h : headers) (batch : list cellData) : bool :=
  match batch, last batch with
  | first :: _, Some final => known_row h (cd_row first) && known_row h (cd_row final)
  | _, _ => false
  end.

Section controller.
(** [TableHeader#createCell], overridden by the application. *)
Context (createCell : leaf -> cellData -> outcome obj).

(** The loop body: which cell object goes where. *)
Definition resolve_cell (h : headers) (vrow : bool) (data : list (list slot)) (cd : cellData)
  : outcome ((nat * nat) * obj) :=
  (do! oindex <- indexFromPath h (cd_row cd, cd_column cd);
   do! index <- or_throw oindex TypeError;
   do! r <- or_throw (rowLeafs h !! index.1) TypeError;
   do! c <- or_throw (columnLeafs h !! index.2) TypeError;
   let cd' := CellData (cd_row cd) (cd_column cd) (cd_value cd) (leaf_params r) (leaf_params c) in
   do! cell <- createCell (if vrow then r else c) cd';
   do! row <- or_throw (data !! index.1) TypeError;
   let cell' := match row !! index.2 with
                | Some (SPending pending) => pending ∪ cell
                | _ => cell
                end in
   Ok (index, cell'))%flame.

(** [_data[i][j] = cell] *)
Definition set_cell (data : list (list slot)) (index : nat * nat) (cell : obj) : list (list slot) :=
  match data !! index.1 with
  | Some row => <[index.1 := js_array_set SNull index.2 (SCell cell) row]> data
  | None => data
  end.

(** The loop of [pushDataBatch]: [_data] is updated in place, so what was
    written before an exception stays; [dirtyCells] is a copy. *)
Fixpoint push_loop (h : headers) (vrow : bool) (batch : list cellData)
    (data : list (list slot)) (dirty : list (nat * nat))
  : list (list slot) * outcome (list (nat * nat)) :=
  match batch with
  | [] => (data, Ok dirty)
  | cd :: batch' =>
      match resolve_cell h vrow data cd with
      | Throw e => (data, Throw e)
      | Ok (index, cell) =>
          push_loop h vrow batch' (set_cell data index cell) (dirty ++ [index])
      end
  end.

Definition no_headers_msg : string := "Can't push data without first setting headers!".

Definition pushDataBatch (dataBatch : option (list cellData)) (s : state) : state * outcome unit :=
  match dataBatch with
  | None => (s, Ok tt)
  | Some batch =>
      match _headers s with
      | None => (s, Throw no_headers_msg)
      | Some h =>
          if _dataBatchIsForCurrentTable h batch then
            match push_loop h (valuesOnRow s) batch (_data s) (dirtyCells s) with
            | (data, Ok dirty) => (State (Some h) data dirty (valuesOnRow s), Ok tt)
            | (data, Throw e) => (State (Some h) data (dirtyCells s) (valuesOnRow s), Throw e)
            end
          else (s, Ok tt)
      end
  end.

(** A fresh grid of nulls, and no dirty cells. *)
Definition null_grid (h : headers) : list (list slot) :=
  replicate (length (rowLeafs h)) (replicate (length (columnLeafs h)) SNull).

Definition _headersDidChange (s : state) : state :=
  match _headers s with
  | Some h => State (Some h) (null_grid h) [] (valuesOnRow s)
  | None => s
  end.

(** Setting [_headers] fires the observer above. *)
Definition set_headers (h : option headers) (s : state) : state :=
  _headersDidChange (State h (_data s) (dirtyCells s) (valuesOnRow s)).

End controller.

(** ** DataTableController *)

(** Each header hash becomes a header object with its index as default id; the
    hash is applied last, so an id of its own wins. *)
Fixpoint wrap_header (i : nat) (h : header) : header :=
  match h with
  | Header oid params children =>
      Header (Some (default (Z.of_nat i) oid)) params
             (match children with
              | Some cs => Some ((fix wrap_all (j : nat) (cs : list header) :=
                                    match cs with
                                    | [] => []
                                    | c :: cs' => wrap_header j c :: wrap_all (S j) cs'
                                    end) 0 cs)
              | None => None
              end)
  end.

Definition _wrapHeaders (hs : list header) : list header := imap wrap_header hs.

Definition wrapped (rows columns : list header) : headers :=
  Headers (_wrapHeaders rows) (_wrapHeaders columns).

Definition index_path (i : nat) : path := [Some (Z.of_nat i)].

Definition _transformData (data : list (list jsval)) : list cellData :=
  concat (imap (fun i row =>
    imap (fun j v => CellData (index_path i) (index_path j) v JUndefined JUndefined) row) data).

Definition data_headersDidChange (createCell : leaf -> cellData -> outcome obj)
    (data : option (list (list jsval))) (s : state) : state * outcome unit :=
  let s' := _headersDidChange s in
  match data with
  | Some d => pushDataBatch createCell (Some (_transformData d)) s'
  | None => (s', Ok tt)
  end.

(** [TableCell]: the constructor copies the own properties of its argument. *)
Definition TableCell (opts : obj) : obj := opts ∪ {["value" := JNull]}.
Definition formattedValue (cell : obj) : jsval :=
  let v := default JUndefined (cell !! "value") in
  if decide (v = JNull) then JStr "" else v.

(** [headerClass#createCell] of [DataTableController]. *)
Definition data_createCell (_ : leaf) (cd : cellData) : outcome obj :=
  Ok (TableCell {["value" := cd_value cd]}).

(** ** Well-formed headers: every node has an id, siblings have different ids. *)
Inductive wf_forest : list header -> Prop :=
| WfForest hs :
    NoDup (map h_id hs) ->
    (forall h, h ∈ hs -> is_Some (h_id h)) ->
    (forall h cs, h ∈ hs -> h_children h = Some cs -> wf_forest cs) ->
    wf_forest hs.

Definition wf_headers (h : headers) : Prop :=
  wf_forest (rowHeaders h) /\ wf_forest (columnHeaders h).

(** The grid has the shape the headers give it and every dirty index is inside. *)
Definition shape_ok (h : headers) (data : list (list slot)) : Prop :=
  length data = length (rowLeafs h) /\
  Forall (fun row => length row = length (columnLeafs h)) data.

Definition index_ok (h : headers) (index : nat * nat) : Prop :=
  index.1 < length (rowLeafs h) /\ index.2 < length (columnLeafs h).

Definition state_ok (s : state) : Prop :=
  match _headers s with
  | None => True
  | Some h => shape_ok h (_data s) /\ Forall (index_ok h) (dirtyCells s)
  end.

(** ** Leaves and paths *)

(** The paths of the leaves below a node, without the bookkeeping. *)
Fixpoint node_paths (p : path) (h : header) {struct h} : list path :=
  match h with
  | Header i _ (Some cs) =>
      let newPath := match i with Some _ => p ++ [i] | None => p end in
      cs ≫= fun c => node_paths newPath c
  | Header i _ None => [p ++ [i]]
  end.

Lemma mark_leafs_path l : leaf_path <$> mark_leafs l = leaf_path <$> l.
Proof. unfold mark_leafs. by apply fmap_imap_noindex. Qed.

Lemma length_mark_leafs l : length (mark_leafs l) = length l.
Proof. apply length_imap. Qed.

Lemma fmap_bind_ext {A B C} (g : B -> C) (f : A -> list B) (f' : A -> list C) (l : list A) :
  (forall x, x ∈ l -> g <$> f x = f' x) -> g <$> (l ≫= f) = l ≫= f'.
Proof.
  induction l as [|x l IH]; intros H; csimpl; [done|].
  rewrite fmap_app, H, IH; [done| |]; set_solver.
Qed.

Fixpoint leafs_of_node_paths (h : header) : forall p,
  leaf_path <$> leafs_of_node h p = node_paths p h.
Proof.
  destruct h as [i params [cs|]]; intros p; [|done]. cbn [leafs_of_node node_paths].
  rewrite mark_leafs_path. generalize (match i with Some _ => p ++ [i] | None => p end).
  intros q. induction cs as [|c cs IH]; csimpl; [done|].
  rewrite fmap_app. f_equal; [apply leafs_of_node_paths|apply IH].
Qed.

Lemma getLeafs_paths hs p : leaf_path <$> _getLeafs hs p = hs ≫= node_paths p.
Proof.
  unfold _getLeafs. rewrite mark_leafs_path. apply fmap_bind_ext.
  intros h _. apply leafs_of_node_paths.
Qed.

(** Leaf [i] of the list carries index [i]. *)
Lemma getLeafs_index hs p i f : _getLeafs hs p !! i = Some f -> leafIndex f = i.
Proof. unfold _getLeafs, mark_leafs. rewrite lookup_imap_Some. by intros (? & ? & ->). Qed.

Definition id_path (p : path) : Prop := p <> [] /\ Forall is_Some p.

Lemma wf_forest_paths hs :
  wf_forest hs ->
  forall p, NoDup (hs ≫= node_paths p) /\
    forall q, q ∈ hs ≫= node_paths p ->
      exists h t, h ∈ hs /\ q = p ++ h_id h :: t /\ Forall is_Some (h_id h :: t).
Proof.
  induction 1 as [hs Hnd Hid Hcs IH]. intros p.
  assert (Hnode : forall h, h ∈ hs -> NoDup (node_paths p h) /\
    forall q, q ∈ node_paths p h ->
      exists t, q = p ++ h_id h :: t /\ Forall is_Some (h_id h :: t)).
  { intros h Hh. pose proof (Hid h Hh) as [z Hz]. specialize (IH h).
    destruct h as [oi params [cs|]]; simpl in *; subst oi.
    - destruct (IH cs Hh eq_refl (p ++ [Some z])) as [Hn Hq]. split; [done|].
      intros q (c & t & _ & -> & HF)%Hq. exists (h_id c :: t).
      rewrite <- app_assoc. split; [done|]. by constructor.
    - split; [apply NoDup_singleton|]. intros q ->%list_elem_of_singleton.
      exists []. split; [done|]. by repeat constructor. }
  split.
  - apply NoDup_bind.
    + intros h1 h2 q H1 H2 Hq1 Hq2.
      apply (Hnode h1 H1) in Hq1 as (t1 & -> & _).
      apply (Hnode h2 H2) in Hq2 as (t2 & [= E _]%app_inv_head & _).
      by apply (NoDup_fmap_elem h_id hs).
    + intros h Hh. by apply Hnode.
    + by apply (NoDup_fmap_1 h_id).
  - intros q (h & Hq & Hh)%list_elem_of_bind.
    apply (Hnode h Hh) in Hq as (t & -> & HF). by exists h, t.
Qed.

Lemma path_key_inj p q : id_path p -> id_path q -> path_key p = path_key q -> p = q.
Proof.
  intros [Np Fp] [Nq Fq] E. unfold path_key in E.
  assert (Hsep : forall r : path, Forall (fun x => str_elem comma x = false) (map elem_str r)).
  { intros r. apply Forall_fmap, Forall_true. intros [z|]; [|done].
    apply pretty_Z_no, comma_not_digit. }
  apply join_inj in E; [|by destruct p|by destruct q|apply Hsep|apply Hsep].
  clear Np Nq Hsep. revert q Fq E. induction Fp as [|x p [z ->] Fp IH]; intros q Fq E.
  - by destruct q.
  - destruct Fq as [|y q [z' ->] Fq]; [done|]. injection E as E1 E2.
    f_equal; [|by apply IH]. f_equal. by apply (inj pretty).
Qed.

Lemma getLeafs_keys_NoDup hs :
  wf_forest hs -> NoDup ((fun f => path_key (leaf_path f)) <$> _getLeafs hs []).
Proof.
  intros Hwf. destruct (wf_forest_paths hs Hwf []) as [Hnd Hq].
  rewrite (list_fmap_compose leaf_path path_key), getLeafs_paths.
  apply NoDup_fmap_on; [|done].
  assert (Hid : forall q, q ∈ hs ≫= node_paths [] -> id_path q).
  { intros q (h & t & _ & -> & HF)%Hq. by split. }
  intros q1 q2 H1 H2. apply path_key_inj; by apply Hid.
Qed.

Lemma mapping_row h i r :
  wf_headers h -> rowLeafs h !! i = Some r ->
  _indexFromPathMapping h !! path_key (leaf_path r) =
  Some (build_map (imap (fun j c => (path_key (leaf_path c), (i, j))) (columnLeafs h))).
Proof.
  intros [Hr _] Hi. unfold _indexFromPathMapping. apply build_map_lookup.
  - erewrite fmap_imap_noindex; [by apply getLeafs_keys_NoDup|done].
  - apply list_elem_of_lookup. exists i. by rewrite list_lookup_imap, Hi.
Qed.

Lemma indexFromPath_leafs h i j r c :
  wf_headers h -> rowLeafs h !! i = Some r -> columnLeafs h !! j = Some c ->
  indexFromPath h (leaf_path r, leaf_path c) = Ok (Some (i, j)).
Proof.
  intros Hwf Hi Hj. unfold indexFromPath. simpl. rewrite (mapping_row h i r) by done.
  f_equal. apply build_map_lookup.
  - erewrite fmap_imap_noindex; [by apply getLeafs_keys_NoDup, Hwf|done].
  - apply list_elem_of_lookup. exists j. by rewrite list_lookup_imap, Hj.
Qed.

(** Whatever the headers, an index that the mapping returns is inside the grid. *)
Lemma indexFromPath_ok h p index :
  indexFromPath h p = Ok (Some index) -> index_ok h index.
Proof.
  unfold indexFromPath. destruct (_indexFromPathMapping h !! _) as [rm|] eqn:Hrm; [|done].
  intros [= Hc]. apply build_map_elem in Hrm.
  apply list_elem_of_lookup in Hrm as [i Hi]. rewrite lookup_imap_Some in Hi.
  destruct Hi as (r & Hr & [= _ ->]). apply build_map_elem in Hc.
  apply list_elem_of_lookup in Hc as [j Hj]. rewrite lookup_imap_Some in Hj.
  destruct Hj as (c & Hc & [= _ ->]). split; simpl; by eapply lookup_lt_Some.
Qed.

(** ** The grid *)
Definition slot_at (data : list (list slot)) (index : nat * nat) : option slot :=
  data !! index.1 ≫= fun row => row !! index.2.

Lemma set_cell_shape h data index c :
  shape_ok h data -> index_ok h index -> shape_ok h (set_cell data index c).
Proof.
  intros [Hl HF] [Hi Hj]. unfold set_cell.
  destruct (data !! index.1) as [row|] eqn:Hrow; [|by split].
  pose proof (Forall_lookup_1 _ _ _ _ HF Hrow) as Hlen. simpl in Hlen.
  rewrite js_array_set_in by lia. split; [by rewrite length_insert|].
  apply Forall_insert; [done|]. by rewrite length_insert.
Qed.

Lemma set_cell_at h data index c :
  shape_ok h data -> index_ok h index ->
  slot_at (set_cell data index c) index = Some (SCell c).
Proof.
  intros [Hl HF] [Hi Hj]. unfold set_cell, slot_at.
  destruct (lookup_lt_is_Some_2 data index.1) as [row Hrow]; [lia|]. rewrite Hrow.
  pose proof (Forall_lookup_1 _ _ _ _ HF Hrow) as Hlen. simpl in Hlen.
  rewrite js_array_set_in by lia. rewrite list_lookup_insert_eq by lia. simpl.
  apply list_lookup_insert_eq. lia.
Qed.

Lemma set_cell_other h data index index' c :
  shape_ok h data -> index_ok h index -> index <> index' ->
  slot_at (set_cell data index c) index' = slot_at data index'.
Proof.
  intros [Hl HF] [Hi Hj] Hne. unfold set_cell, slot_at.
  destruct (data !! index.1) as [row|] eqn:Hrow; [|done].
  pose proof (Forall_lookup_1 _ _ _ _ HF Hrow) as Hlen. simpl in Hlen.
  rewrite js_array_set_in by lia. destruct index as [i j], index' as [i' j']; simpl in *.
  destruct (decide (i = i')) as [->|Hii].
  - rewrite list_lookup_insert_eq by lia. rewrite Hrow. simpl.
    apply list_lookup_insert_ne. congruence.
  - by rewrite list_lookup_insert_ne.
Qed.

Lemma replicate_grid_shape h : shape_ok h (null_grid h).
Proof.
  unfold shape_ok, null_grid. split; [by rewrite length_replicate|]. apply Forall_replicate. by rewrite length_replicate.
Qed.

Lemma slot_at_null_grid h index s :
  slot_at (null_grid h) index = Some s -> s = SNull.
Proof.
  unfold slot_at, null_grid. destruct (replicate _ _ !! index.1) as [row|] eqn:E; [|done].
  apply lookup_replicate in E as [-> _]. simpl. by intros [-> _]%lookup_replicate.
Qed.

#[export] Hint Resolve set_cell_shape replicate_grid_shape : flame.

Section push_facts.
Context (createCell : leaf -> cellData -> outcome obj).

Lemma resolve_cell_ok h vrow data cd index cell :
  resolve_cell createCell h vrow data cd = Ok (index, cell) -> index_ok h index.
Proof.
  unfold resolve_cell, outcome_bind, or_throw. intros H. repeat (case_match; simplify_eq/=).
  all: by eapply indexFromPath_ok.
Qed.

(** Resolution looks at the grid only at the index it returns. *)
Lemma resolve_cell_data h vrow data data' cd index cell :
  resolve_cell createCell h vrow data cd = Ok (index, cell) ->
  shape_ok h data -> shape_ok h data' ->
  slot_at data' index = slot_at data index ->
  resolve_cell createCell h vrow data' cd = Ok (index, cell).
Proof.
  intros H Hs [Hl' _] Hat. pose proof (resolve_cell_ok _ _ _ _ _ _ H) as [Hi _].
  unfold resolve_cell, outcome_bind, or_throw in *. 
  repeat (case_match; simplify_eq/=).
  all: unfold slot_at in Hat; simplify_option_eq; try congruence.
  all: match goal with E : ?d !! ?i = None, L : length ?d = _ |- _ => apply lookup_ge_None in E; lia end.
Qed.

Lemma push_loop_shape h vrow batch : forall data dirty data' r,
  push_loop createCell h vrow batch data dirty = (data', r) ->
  shape_ok h data -> Forall (index_ok h) dirty ->
  shape_ok h data' /\ match r with Ok dirty' => Forall (index_ok h) dirty' | Throw _ => True end.
Proof.
  induction batch as [|cd batch IH]; simpl; intros data dirty data' r H Hs Hd; [by simplify_eq|].
  destruct (resolve_cell _ _ _ _ _) as [[index cell]|e] eqn:E; [|by simplify_eq].
  apply resolve_cell_ok in E. eapply IH; [done|by auto with flame|].
  apply Forall_app. split; [done|]. by constructor.
Qed.

(** The loop writes exactly the resolved cells, in order. *)
Lemma push_loop_writes h vrow batch rest ics data dirty :
  shape_ok h data ->
  Forall2 (fun cd ic => resolve_cell createCell h vrow data cd = Ok ic) batch ics ->
  NoDup ics.*1 ->
  exists data', push_loop createCell h vrow (batch ++ rest) data dirty =
      push_loop createCell h vrow rest data' (dirty ++ ics.*1) /\
    shape_ok h data' /\
    (forall index c, (index, c) ∈ ics -> slot_at data' index = Some (SCell c)) /\
    (forall index, index ∉ ics.*1 -> slot_at data' index = slot_at data index).
Proof.
  intros Hs HF. revert data dirty Hs HF.
  induction batch as [|cd batch IH] in ics |- *; intros data dirty Hs HF Hnd; inv HF.
  - exists data. rewrite app_nil_r. split; [done|]. split; [done|]. split; [set_solver|done].
  - rename select (resolve_cell _ _ _ _ _ = _) into E. destruct y as [index cell]. simpl in *.
    rewrite E. apply NoDup_cons in Hnd as [Hni Hnd].
    pose proof (resolve_cell_ok _ _ _ _ _ _ E) as Hok.
    edestruct (IH l') as (data' & Hrun & Hs' & Hin & Hout).
    + by apply (set_cell_shape h data index cell).
    + eapply Forall2_impl_r; [done|]. simpl. intros cd' [index' c'] Hin' Hr.
      apply (list_elem_of_fmap_2 fst) in Hin'. simpl in Hin'.
      eapply resolve_cell_data; eauto with flame.
      apply (set_cell_other h); [done|done|by intros ->].
    + done.
    + exists data'. split; [rewrite Hrun; by rewrite <- app_assoc|]. split; [done|]. split.
      * intros i c [[= -> ->]|H]%elem_of_cons; [|by apply Hin].
        rewrite Hout by done. by apply (set_cell_at h).
      * intros i Hi. rewrite Hout by set_solver.
        apply (set_cell_other h); [done|done|set_solver].
Qed.

End push_facts.

(** ** DataTableController: headers from plain hashes *)

(** Header hashes that carry no id of their own. *)
Inductive no_ids : list header -> Prop :=
| NoIds hs :
    (forall h, h ∈ hs -> h_id h = None) ->
    (forall h cs, h ∈ hs -> h_children h = Some cs -> no_ids cs) ->
    no_ids hs.

Lemma wrap_header_eq i h :
  wrap_header i h = Header (Some (default (Z.of_nat i) (h_id h))) (h_props h)
                           (_wrapHeaders <$> h_children h).
Proof.
  destruct h as [oid params [cs|]]; [|done]. cbn [wrap_header h_id h_props h_children fmap option_fmap option_map].
  do 2 f_equal. unfold _wrapHeaders. 
  assert (forall k, (fix wrap_all (j : nat) (cs : list header) :=
            match cs with [] => [] | c :: cs' => wrap_header j c :: wrap_all (S j) cs' end) k cs
          = imap (fun j => wrap_header (k + j)) cs) as H; [|by rewrite H].
  induction cs as [|c cs IH]; intros k; [done|]. cbn [imap].
  rewrite Nat.add_0_r. f_equal. rewrite IH. apply imap_ext. intros. simpl. f_equal. lia.
Qed.

Lemma wrap_no_ids_wf hs : no_ids hs -> wf_forest (_wrapHeaders hs).
Proof.
  induction 1 as [hs Hid Hcs IH].
  assert (Hlook : forall i h', _wrapHeaders hs !! i = Some h' ->
    exists h, h ∈ hs /\ h_id h' = Some (Z.of_nat i) /\ h_children h' = _wrapHeaders <$> h_children h).
  { intros i h'. unfold _wrapHeaders. rewrite lookup_imap_Some. intros (h & Hh & ->).
    exists h. rewrite wrap_header_eq. simpl. apply list_elem_of_lookup_2 in Hh.
    by rewrite (Hid h). }
  constructor.
  - apply NoDup_alt. intros i j x. change (map h_id) with (fmap (M:=list) h_id).
    rewrite !list_lookup_fmap.
    destruct (_wrapHeaders hs !! i) as [a|] eqn:Ha; [|done].
    destruct (_wrapHeaders hs !! j) as [b|] eqn:Hb; [|done].
    apply Hlook in Ha as (? & _ & Ha & _). apply Hlook in Hb as (? & _ & Hb & _).
    simpl. intros [= <-] [= E]. rewrite Ha, Hb in E. by simplify_eq.
  - intros h [i Hi]%list_elem_of_lookup. apply Hlook in Hi as (? & _ & -> & _). by eexists.
  - intros h cs [i Hi]%list_elem_of_lookup Hcs'.
    apply Hlook in Hi as (h0 & Hh0 & _ & E). rewrite E in Hcs'.
    destruct (h_children h0) as [cs0|] eqn:Ec; simplify_eq/=. by eapply IH.
Qed.

(** Header hashes without children. *)
Definition flat (hs : list header) : Prop := Forall (fun h => h_id h = None /\ h_children h = None) hs.

Lemma flat_no_ids hs : flat hs -> no_ids hs.
Proof.
  unfold flat. rewrite Forall_forall. intros H. constructor; intros h.
  - by intros [? ?]%H.
  - intros cs [_ E]%H. congruence.
Qed.

Lemma flat_leafs hs :
  flat hs ->
  _getLeafs (_wrapHeaders hs) [] = imap (fun i h => Leaf (h_props h) (index_path i) i) hs.
Proof.
  intros Hf. unfold _getLeafs, mark_leafs, _wrapHeaders.
  assert (forall k, (imap (fun j => wrap_header (k + j)) hs ≫= fun n => leafs_of_node n [])
    = imap (fun j h => Leaf (h_props h) (index_path (k + j)) 0) hs) as H.
  { induction Hf as [|h hs [Hid Hc] Hf IH]; intros k; [done|]. csimpl.
    destruct h as [oid params cs]; simpl in *; subst. simpl. rewrite Nat.add_0_r. f_equal.
    specialize (IH (S k)). erewrite imap_ext; [rewrite IH|intros; simpl; f_equal; lia].
    apply imap_ext. intros. simpl. do 2 f_equal. f_equal. f_equal. lia. }
  pose proof (H 0 : (imap wrap_header hs ≫= fun n => leafs_of_node n []) =
    imap (fun j h => Leaf (h_props h) (index_path j) 0) hs) as H0. rewrite H0.
  apply list_eq. intros i. rewrite !list_lookup_imap. by destruct (hs !! i).
Qed.

Lemma roundtrip_at h index :
  wf_headers h -> index_ok h index ->
  exists p, pathFromIndex h index = Ok p /\ indexFromPath h p = Ok (Some index).
Proof.
  intros Hwf [Hi Hj]. destruct index as [i j]; simpl in *.
  apply lookup_lt_is_Some_2 in Hi as [r Hr]. apply lookup_lt_is_Some_2 in Hj as [c Hc].
  exists (leaf_path r, leaf_path c). unfold pathFromIndex, outcome_bind, or_throw. simpl.
  rewrite Hr, Hc. split; [done|]. by apply indexFromPath_leafs.
Qed.

(** *** One batch from a two-dimensional array *)

(** The entries of the array, row by row, with their positions. *)
Definition entries (k : nat) (data : list (list jsval)) : list (nat * nat * jsval) :=
  concat (imap (fun i row => imap (fun j v => (k + i, j, v)) row) data).

Lemma entries_cons k row data :
  entries k (row :: data) = imap (fun j v => (k, j, v)) row ++ entries (S k) data.
Proof.
  unfold entries. rewrite imap_cons. cbn [concat]. rewrite Nat.add_0_r. do 2 f_equal.
  apply imap_ext. intros i r _. apply imap_ext. intros. simpl. by rewrite Nat.add_succ_r.
Qed.

Lemma entries_elem k data i j v :
  (i, j, v) ∈ entries k data <-> k <= i /\ data !! (i - k) ≫= (fun row => row !! j) = Some v.
Proof.
  revert k. induction data as [|row data IH]; intros k; [set_solver|].
  rewrite entries_cons, elem_of_app, IH, list_elem_of_lookup.
  setoid_rewrite lookup_imap_Some. split.
  - intros [(j' & v' & Hv & [= -> -> ->])|[Hk Hv]].
    + rewrite Nat.sub_diag. by split; [lia|].
    + split; [lia|]. by replace (i - k) with (S (i - S k)) by lia.
  - intros [Hk Hv]. destruct (decide (i = k)) as [->|Hne].
    + rewrite Nat.sub_diag in Hv. left. by exists j, v.
    + right. split; [lia|]. by replace (i - k) with (S (i - S k)) in Hv by lia.
Qed.

Lemma entries_NoDup k data : NoDup (entries k data).*1.
Proof.
  revert k. induction data as [|row data IH]; intros k; [constructor|].
  rewrite entries_cons, fmap_app. apply NoDup_app. split_and!; [| |apply IH].
  - apply NoDup_alt. intros a b x. rewrite !list_lookup_fmap, !list_lookup_imap.
    destruct (row !! a), (row !! b); simpl; [|done..]. intros [= <-] [= ->]. done.
  - intros x ([[i j] v] & -> & H)%list_elem_of_fmap ([[i' j'] v'] & E & H')%list_elem_of_fmap.
    simpl in E. simplify_eq. apply entries_elem in H' as [? _].
    apply list_elem_of_lookup in H as [? H]. apply lookup_imap_Some in H as (? & ? & [= -> _ _]). lia.
Qed.

Lemma transformData_entries data :
  _transformData data =
  (fun '(i, j, v) => CellData (index_path i) (index_path j) v JUndefined JUndefined) <$> entries 0 data.
Proof.
  unfold _transformData, entries. induction data as [|row data IH] using rev_ind; [done|].
  rewrite !imap_app, !concat_app, fmap_app, <- IH. f_equal. simpl. rewrite !app_nil_r.
  apply list_eq. intros j. rewrite list_lookup_fmap, !list_lookup_imap. by destruct (row !! j).
Qed.

Section flat_table.
Context (rows columns : list header) (Hr : flat rows) (Hc : flat columns).
Let h : headers := wrapped rows columns.

Lemma flat_wf : wf_headers h.
Proof. split; by apply wrap_no_ids_wf, flat_no_ids. Qed.

Lemma flat_lengths :
  length (rowLeafs h) = length rows /\ length (columnLeafs h) = length columns.
Proof. unfold rowLeafs, columnLeafs. simpl. by rewrite !flat_leafs, !length_imap. Qed.

Lemma flat_indexFromPath i j :
  i < length rows -> j < length columns ->
  indexFromPath h (index_path i, index_path j) = Ok (Some (i, j)).
Proof.
  intros [r Er]%lookup_lt_is_Some_2 [c Ec]%lookup_lt_is_Some_2.
  apply (indexFromPath_leafs h i j (Leaf (h_props r) (index_path i) i)
           (Leaf (h_props c) (index_path j) j) flat_wf); unfold rowLeafs, columnLeafs; simpl.
  - by rewrite flat_leafs, list_lookup_imap, Er.
  - by rewrite flat_leafs, list_lookup_imap, Ec.
Qed.

Lemma flat_resolve vrow i j v :
  i < length rows -> j < length columns ->
  resolve_cell data_createCell h vrow (null_grid h)
    (CellData (index_path i) (index_path j) v JUndefined JUndefined) =
  Ok ((i, j), TableCell {["value" := v]}).
Proof.
  intros Hi Hj. unfold resolve_cell. simpl. rewrite flat_indexFromPath by done. simpl.
  destruct flat_lengths as [Lr Lc].
  destruct (lookup_lt_is_Some_2 (rowLeafs h) i) as [r Er]; [lia|].
  destruct (lookup_lt_is_Some_2 (columnLeafs h) j) as [c Ec]; [lia|].
  rewrite Er, Ec. simpl. unfold null_grid. rewrite lookup_replicate_2 by lia. simpl.
  by rewrite lookup_replicate_2 by lia.
Qed.

Lemma flat_current data :
  rows <> [] -> columns <> [] -> length data = length rows ->
  Forall (fun row => length row = length columns) data ->
  _dataBatchIsForCurrentTable h (_transformData data) = true.
Proof.
  intros Nr Nc Hl HF. 
  assert (Hk : forall cd, cd ∈ _transformData data -> known_row h (cd_row cd) = true).
  { intros cd. rewrite transformData_entries, list_elem_of_fmap.
    intros ([[i j] v] & -> & [_ Hv]%entries_elem). rewrite Nat.sub_0_r in Hv.
    apply bind_Some in Hv as (row & Hrow & Hv). unfold known_row. apply bool_decide_eq_true_2.
    pose proof (flat_indexFromPath i j) as H. unfold indexFromPath in H. simpl in *.
    destruct (_indexFromPathMapping h !! _); [by eexists|].
    apply lookup_lt_Some in Hrow as ?. apply lookup_lt_Some in Hv.
    rewrite Forall_lookup in HF. rewrite (HF _ _ Hrow) in Hv. discriminate H; lia. }
  unfold _dataBatchIsForCurrentTable. destruct (_transformData data) as [|cd l] eqn:E.
  - destruct data as [|[|v row] data]; [by destruct rows| |done].
    inv HF. by destruct columns.
  - rewrite Hk by set_solver. destruct (last (cd :: l)) as [cd'|] eqn:El.
    + rewrite Hk; [done|]. apply last_Some_elem_of in El. set_solver.
    + apply last_None in El. done.
Qed.

End flat_table.

(** The whole load, for [DataTableController] and its subclass. *)
Lemma load_grid rows columns data s :
  flat rows -> flat columns -> rows <> [] -> columns <> [] ->
  length data = length rows -> Forall (fun row => length row = length columns) data ->
  _headers s = Some (wrapped rows columns) ->
  exists s', data_headersDidChange data_createCell (Some data) s = (s', Ok tt) /\
    (forall i j v, data !! i ≫= (fun row => row !! j) = Some v ->
       exists cell, slot_at (_data s') (i, j) = Some (SCell cell) /\
         formattedValue cell = if decide (v = JNull) then JStr "" else v) /\
    dirtyCells s' = (entries 0 data).*1.
Proof.
  intros Hr Hc Nr Nc Hl HF Hh. unfold data_headersDidChange, _headersDidChange, pushDataBatch.
  rewrite Hh. simpl. rewrite flat_current by done.
  destruct (push_loop_writes data_createCell (wrapped rows columns) (valuesOnRow s)
    (_transformData data) [] ((fun '(i, j, v) => ((i, j), TableCell {["value" := v]})) <$> entries 0 data)
    (null_grid (wrapped rows columns)) []) as (data' & Hrun & _ & Hin & _).
  - apply replicate_grid_shape.
  - rewrite transformData_entries. apply Forall2_fmap_2, Forall_Forall2_diag, Forall_forall.
    intros [[i j] v] [_ Hv]%entries_elem. rewrite Nat.sub_0_r in Hv.
    apply bind_Some in Hv as (row & Hrow & Hv). apply lookup_lt_Some in Hrow as ?.
    apply lookup_lt_Some in Hv. rewrite Forall_lookup in HF. rewrite (HF _ _ Hrow) in Hv.
    apply flat_resolve; [done|done|lia|done].
  - rewrite <- list_fmap_compose. erewrite list_fmap_ext; [by apply entries_NoDup|].
    by intros ? [[i j] v] _.
  - rewrite app_nil_r in Hrun. rewrite Hrun. simpl. eexists. split; [done|]. simpl. split.
    + intros i j v Hv. eexists. split.
      * apply Hin, list_elem_of_fmap. exists (i, j, v). split; [done|].
        apply entries_elem. split; [lia|]. by rewrite Nat.sub_0_r.
      * done.
    + rewrite <- list_fmap_compose. apply list_fmap_ext. by intros ? [[i j] v] _.
Qed.

(** ** Theorems *)

(** Whatever a batch holds, and whether [pushDataBatch] returns or throws, the
    grid keeps the shape of the headers and dirty indexes stay inside it. *)
Theorem pushDataBatch_state_ok createCell batch s s' r :
  state_ok s -> pushDataBatch createCell batch s = (s', r) -> state_ok s'.
Proof.
  unfold pushDataBatch, state_ok. intros Hs H.
  destruct batch as [batch|]; [|by simplify_eq].
  destruct (_headers s) as [h|] eqn:Hh; [|by simplify_eq; rewrite Hh].
  destruct (_dataBatchIsForCurrentTable h batch); [|by simplify_eq; rewrite Hh].
  destruct (push_loop _ _ _ _ _ _) as [data r'] eqn:E. destruct Hs as [Hs Hd].
  apply push_loop_shape in E as [Hs' Hd']; [|done..].
  destruct r'; simplify_eq/=; by split.
Qed.

(** Translating an index of the grid to a path and back is the identity, for
    headers whose siblings have different ids, at any nesting depth. *)
Theorem index_path_roundtrip h index :
  wf_headers h -> index_ok h index ->
  exists p, pathFromIndex h index = Ok p /\ indexFromPath h p = Ok (Some index).
Proof. apply roundtrip_at. Qed.

(** C23. A batch that resolves is written in full: each cell object, with the
    attributes that were pending at its position, is where its path says, every
    other position is unchanged, and the indexes are queued as dirty in order. *)
Theorem pushDataBatch_writes createCell s h batch ics :
  _headers s = Some h -> state_ok s ->
  _dataBatchIsForCurrentTable h batch = true ->
  Forall2 (fun cd ic => resolve_cell createCell h (valuesOnRow s) (_data s) cd = Ok ic) batch ics ->
  NoDup ics.*1 ->
  exists s', pushDataBatch createCell (Some batch) s = (s', Ok tt) /\
    dirtyCells s' = dirtyCells s ++ ics.*1 /\
    (forall index c, (index, c) ∈ ics -> slot_at (_data s') index = Some (SCell c)) /\
    (forall index, index ∉ ics.*1 -> slot_at (_data s') index = slot_at (_data s) index).
Proof.
  intros Hh Hs Hcur HF Hnd. unfold pushDataBatch, state_ok in *. rewrite Hh in *.
  rewrite Hcur. destruct Hs as [Hs _].
  destruct (push_loop_writes createCell h (valuesOnRow s) batch [] ics (_data s) (dirtyCells s))
    as (data' & Hrun & _ & Hin & Hout); [done..|].
  rewrite app_nil_r in Hrun. rewrite Hrun. simpl. eexists. by split_and!.
Qed.

(** The check before a batch looks at rows only: when the first and last rows
    are known but some cell names a column that is gone, [pushDataBatch] throws
    half-way, with the cells before it already written and none of them queued as
    dirty. *)
Theorem pushDataBatch_stale_column createCell s h pre cd post ics :
  _headers s = Some h -> state_ok s ->
  _dataBatchIsForCurrentTable h (pre ++ cd :: post) = true ->
  Forall2 (fun cd ic => resolve_cell createCell h (valuesOnRow s) (_data s) cd = Ok ic) pre ics ->
  NoDup ics.*1 ->
  indexFromPath h (cd_row cd, cd_column cd) = Ok None ->
  exists s', pushDataBatch createCell (Some (pre ++ cd :: post)) s = (s', Throw TypeError) /\
    dirtyCells s' = dirtyCells s /\
    (forall index c, (index, c) ∈ ics -> slot_at (_data s') index = Some (SCell c)).
Proof.
  intros Hh Hs Hcur HF Hnd Hcd. unfold pushDataBatch, state_ok in *. rewrite Hh in *.
  rewrite Hcur. destruct Hs as [Hs _].
  destruct (push_loop_writes createCell h (valuesOnRow s) pre (cd :: post) ics (_data s) (dirtyCells s))
    as (data' & Hrun & _ & Hin & _); [done..|].
  rewrite Hrun. simpl. unfold resolve_cell. rewrite Hcd. simpl. eexists. by split_and!.
Qed.

(** Headers built by [DataTableController] from hashes without ids of their
    own always translate indexes and paths back and forth. *)
Theorem data_table_roundtrip rows columns index :
  no_ids rows -> no_ids columns -> index_ok (wrapped rows columns) index ->
  exists p, pathFromIndex (wrapped rows columns) index = Ok p /\
            indexFromPath (wrapped rows columns) p = Ok (Some index).
Proof. intros Hr Hc. apply roundtrip_at. split; by apply wrap_no_ids_wf. Qed.

(** For plain rows and columns, [DataTableController] loads the whole array:
    cell [(i, j)] of the grid shows [data[i][j]] (the empty string for null), and
    the cells are queued as dirty row by row. *)
Theorem data_table_loads rows columns data s :
  flat rows -> flat columns -> rows <> [] -> columns <> [] ->
  length data = length rows -> Forall (fun row => length row = length columns) data ->
  _headers s = Some (wrapped rows columns) ->
  exists s', data_headersDidChange data_createCell (Some data) s = (s', Ok tt) /\
    (forall i j v, data !! i ≫= (fun row => row !! j) = Some v ->
       exists cell, slot_at (_data s') (i, j) = Some (SCell cell) /\
         formattedValue cell = if decide (v = JNull) then JStr "" else v) /\
    dirtyCells s' = (entries 0 data).*1.
Proof. apply load_grid. Qed.

(** ** Witnesses *)
Definition ex_rows : list header :=
  [Header (Some 7%Z) ∅ (Some [Header (Some 1%Z) ∅ None; Header (Some 2%Z) ∅ None]);
   Header (Some 3%Z) ∅ None].
Definition ex_columns : list header := [Header (Some 1%Z) ∅ None; Header (Some 2%Z) ∅ None].
Definition ex_headers : headers := Headers ex_rows ex_columns.
Definition ex_state : state := set_headers (Some ex_headers) (State None [] [] false).
Definition ex_cell (r : path) (c : Z) (v : Z) : cellData :=
  CellData r [Some c] (JNum v) JUndefined JUndefined.
Definition ex_batch : list cellData :=
  [ex_cell [Some 7%Z; Some 2%Z] 1 10; ex_cell [Some 3%Z] 2 20].
Definition ex_ics : list ((nat * nat) * obj) :=
  [((1, 0), TableCell {["value" := JNum 10]}); ((2, 1), TableCell {["value" := JNum 20]})].

(** Decision of [wf_forest] on a concrete forest. *)
Ltac wf_concrete :=
  repeat lazymatch goal with
  | |- wf_forest _ => constructor
  | |- NoDup _ => vm_compute; repeat constructor; set_solver
  | |- forall h, h ∈ _ -> is_Some _ =>
      let h := fresh in let H := fresh in intros h H;
      repeat (apply elem_of_cons in H as [->|H]; [by eexists|]); by apply elem_of_nil in H
  | |- forall h cs, h ∈ _ -> _ -> wf_forest _ =>
      let h := fresh in let cs := fresh in let H := fresh in intros h cs H;
      repeat (apply elem_of_cons in H as [->|H]; [intros [= <-]|]); try by apply elem_of_nil in H
  end.

Lemma ex_state_ok : state_ok ex_state.
Proof. split; [apply replicate_grid_shape|constructor]. Qed.

Lemma pushDataBatch_state_ok_witness :
  state_ok (pushDataBatch data_createCell (Some ex_batch) ex_state).1.
Proof.
  apply (pushDataBatch_state_ok data_createCell (Some ex_batch) ex_state _
           (pushDataBatch data_createCell (Some ex_batch) ex_state).2).
  - apply ex_state_ok.
  - apply surjective_pairing.
Defined.

Lemma index_path_roundtrip_witness :
  exists p, pathFromIndex ex_headers (2, 1) = Ok p /\ indexFromPath ex_headers p = Ok (Some (2, 1)).
Proof.
  apply (index_path_roundtrip ex_headers (2, 1)).
  - split; simpl; wf_concrete.
  - split; vm_compute; lia.
Defined.

Lemma pushDataBatch_writes_witness :
  exists s', pushDataBatch data_createCell (Some ex_batch) ex_state = (s', Ok tt) /\
    dirtyCells s' = dirtyCells ex_state ++ ex_ics.*1 /\
    (forall index c, (index, c) ∈ ex_ics -> slot_at (_data s') index = Some (SCell c)) /\
    (forall index, index ∉ ex_ics.*1 -> slot_at (_data s') index = slot_at (_data ex_state) index).
Proof.
  apply (pushDataBatch_writes data_createCell ex_state ex_headers ex_batch ex_ics).
  - reflexivity.
  - apply ex_state_ok.
  - vm_compute; reflexivity.
  - repeat constructor; vm_compute; reflexivity.
  - vm_compute. repeat constructor; set_solver.
Defined.

(** The second cell of the batch names column 9, which the table does not have. *)
Lemma pushDataBatch_stale_column_witness :
  exists s', pushDataBatch data_createCell
      (Some ([ex_cell [Some 3%Z] 1 5] ++ [ex_cell [Some 3%Z] 9 6])) ex_state = (s', Throw TypeError) /\
    dirtyCells s' = dirtyCells ex_state /\
    (forall index c, (index, c) ∈ [((2, 0), TableCell {["value" := JNum 5]})] ->
       slot_at (_data s') index = Some (SCell c)).
Proof.
  apply (pushDataBatch_stale_column data_createCell ex_state ex_headers [ex_cell [Some 3%Z] 1 5]
           (ex_cell [Some 3%Z] 9 6) [] [((2, 0), TableCell {["value" := JNum 5]})]).
  - reflexivity.
  - apply ex_state_ok.
  - vm_compute; reflexivity.
  - repeat constructor; vm_compute; reflexivity.
  - vm_compute. repeat constructor; set_solver.
  - vm_compute; reflexivity.
Defined.

Definition plain (n : nat) : list header := replicate n (Header None ∅ None).

Lemma plain_no_ids n : no_ids (plain n).
Proof. apply flat_no_ids, Forall_replicate. by split. Qed.

Lemma data_table_roundtrip_witness :
  exists p, pathFromIndex (wrapped (plain 3) (plain 2)) (2, 1) = Ok p /\
            indexFromPath (wrapped (plain 3) (plain 2)) p = Ok (Some (2, 1)).
Proof.
  apply (data_table_roundtrip (plain 3) (plain 2) (2, 1)).
  - apply plain_no_ids.
  - apply plain_no_ids.
  - split; vm_compute; lia.
Defined.

Lemma data_table_loads_witness :
  exists s', data_headersDidChange data_createCell (Some [[JNum 1; JNull]; [JNum 3; JNum 4]])
      (State (Some (wrapped (plain 2) (plain 2))) [] [] false) = (s', Ok tt) /\
    (forall i j v, [[JNum 1; JNull]; [JNum 3; JNum 4]] !! i ≫= (fun row => row !! j) = Some v ->
       exists cell, slot_at (_data s') (i, j) = Some (SCell cell) /\
         formattedValue cell = if decide (v = JNull) then JStr "" else v) /\
    dirtyCells s' = (entries 0 [[JNum 1; JNull]; [JNum 3; JNum 4]]).*1.
Proof.
  apply (data_table_loads (plain 2) (plain 2)); try (by repeat constructor); reflexivity.
Defined.
