(* ===== verification/ArrayTableController.v ===== *)
(** * ArrayTableController (src/controllers/array_table_controller.js)

    A table over an array of objects: one row per object, one column per property.
    [headers] and [data] are computed from the content and the column hashes and
    handed to [DataTableController]; sorting replaces the content by a sorted
    copy.  Objects are references into a store of properties. *)
From S2P Require Import Prelude Arrays TableController.

Open Scope string_scope.
Open Scope list_scope.

(** [{property, label, renderWidth}] *)
Record column := Column {
  property : string;
  label : jsval;
  renderWidth : jsval
}.

Inductive sort_order := Asc | Desc.

Section array_table.
(** [object.get(propertyName)] *)
Context (get : nat -> string -> jsval).
(** [Ember.compare] *)
Context (compare : jsval -> jsval -> Z).

Definition row_header (headerProperty : string) (clickable : bool) (object : nat) : header :=
  Header None {["isClickable" := JBool clickable;
                "label" := get object headerProperty;
                "object" := JObj object]} None.

Definition column_header (c : column) : header :=
  let base := {["label" := label c; "property" := JStr (property c)]} : obj in
  Header None (if isNone (renderWidth c) then base
               else <["render_width" := renderWidth c]> base) None.

(** The computed property [headers], before [DataTableController] wraps them. *)
Definition array_headers (content : list nat) (columns : list column)
    (headerProperty : string) (clickable : bool) : list header * list header :=
  (map (row_header headerProperty clickable) content, map column_header columns).

(** The computed property [data]. *)
Definition array_data (content : list nat) (columns : list column) : list (list jsval) :=
  map (fun object => map (fun c => get object (property c)) columns) content.

(** The batch that the observer of one property pushes when it changes. *)
Definition cell_update (i j : nat) (value : jsval) : list cellData :=
  [CellData (index_path i) (index_path j) value JUndefined JUndefined].

Definition orderFactor (o : sort_order) : Z := match o with Desc => -1 | Asc => 1 end.

Definition sort_comparator (prop : string) (o : sort_order) : nat -> nat -> Z :=
  cmp_scale (orderFactor o) (cmp_on (fun object => get object prop) compare).

(** [sortContent]: the new content. *)
Definition sortContent (prop : string) (o : sort_order) (content : list nat) : list nat :=
  js_sort (sort_comparator prop o) content.

(** Setting up the table: wrap the headers, then load the data in one batch. *)
Definition array_table_load (content : list nat) (columns : list column)
    (headerProperty : string) (clickable : bool) : state * outcome unit :=
  let '(rows, cols) := array_headers content columns headerProperty clickable in
  data_headersDidChange data_createCell (Some (array_data content columns))
    (set_headers (Some (wrapped rows cols)) (State None [] [] false)).

(** ** Theorems *)

#[local] Instance sort_comparator_lawful prop o : Comparator compare -> Comparator (sort_comparator prop o).
Proof.
  intros H. unfold sort_comparator. destruct o; [|apply _].
  split; unfold cmp_scale, cmp_on; simpl.
  - intros x y. rewrite !Z.mul_1_l. apply cmp_opp.
  - intros x y z. rewrite !Z.mul_1_l. apply cmp_trans.
Qed.

Lemma sort_in_order prop o a b :
  not_greater (sort_comparator prop o) a b <->
  match o with
  | Asc => (compare (get a prop) (get b prop) <= 0)%Z
  | Desc => (compare (get a prop) (get b prop) >= 0)%Z
  end.
Proof. unfold not_greater, sort_comparator, cmp_scale, cmp_on. destruct o; simpl orderFactor; lia. Qed.

(** [sortContent] reorders the rows without losing or repeating one, puts the
    sort property in the requested direction, and keeps rows with equal values in
    their previous order, ascending or descending. *)
Theorem sortContent_correct (Hcmp : Comparator compare) prop o content :
  sortContent prop o content ≡ₚ content /\
  StronglySorted (fun a b => match o with
    | Asc => (compare (get a prop) (get b prop) <= 0)%Z
    | Desc => (compare (get a prop) (get b prop) >= 0)%Z
    end) (sortContent prop o content) /\
  (forall v, (compare v v <= 0)%Z ->
     filter (fun a => get a prop = v) (sortContent prop o content) =
     filter (fun a => get a prop = v) content).
Proof.
  split_and!.
  - apply js_sort_perm.
  - pose proof (js_sort_sorted (sort_comparator prop o) content) as H.
    eapply StronglySorted_mono; [|exact H]. intros a b. exact (proj1 (sort_in_order prop o a b)).
  - intros v Hv. apply (js_sort_stable (sort_comparator prop o)). intros a b Ha Hb. apply (proj2 (sort_in_order prop o a b)).
    rewrite Ha, Hb. pose proof (cmp_opp v v). destruct o; lia.
Qed.

(** After loading, cell [(i, j)] of the grid shows property [columns[j]] of
    object [content[i]]. *)
Theorem array_table_shows content columns hp clickable :
  content <> [] -> columns <> [] ->
  exists s, array_table_load content columns hp clickable = (s, Ok tt) /\
    forall i j object c, content !! i = Some object -> columns !! j = Some c ->
      exists cell, slot_at (_data s) (i, j) = Some (SCell cell) /\
        formattedValue cell =
          if decide (get object (property c) = JNull) then JStr "" else get object (property c).
Proof.
  intros Nc Nk. unfold array_table_load. cbn [array_headers].
  destruct (load_grid (map (row_header hp clickable) content) (map column_header columns)
    (array_data content columns)
    (set_headers (Some (wrapped (map (row_header hp clickable) content) (map column_header columns)))
       (State None [] [] false)))
    as (s & Hrun & Hcells & _).
  - apply Forall_fmap, Forall_true. done.
  - apply Forall_fmap, Forall_true. done.
  - by destruct content.
  - by destruct columns.
  - unfold array_data. by rewrite !length_map.
  - apply Forall_fmap, Forall_true. intros object. simpl. by rewrite !length_map.
  - done.
  - exists s. split; [exact Hrun|]. intros i j object c Hi Hj. apply Hcells.
    unfold array_data. change map with (fun A B => @fmap list _ A B). cbv beta.
    rewrite list_lookup_fmap, Hi. simpl. by rewrite list_lookup_fmap, Hj.
Qed.

End array_table.

(** ** Witnesses *)
Definition ex_get (object : nat) (_ : string) : jsval := JNum (Z.of_nat (object mod 3)).
Definition ex_compare (a b : jsval) : Z :=
  match a, b with
  | JNum x, JNum y => cmp_Z x y
  | JNum _, _ => -1
  | _, JNum _ => 1
  | _, _ => 0
  end.

Lemma ex_compare_lawful : Comparator ex_compare.
Proof.
  split.
  - intros [] []; simpl; unfold cmp_Z; lia.
  - intros [] [] []; simpl; unfold cmp_Z; lia.
Defined.

Lemma sortContent_correct_witness :
  sortContent ex_get ex_compare "p" Desc [4; 2; 1; 5] ≡ₚ [4; 2; 1; 5] /\
  StronglySorted (fun a b => (ex_compare (ex_get a "p") (ex_get b "p") >= 0)%Z)
    (sortContent ex_get ex_compare "p" Desc [4; 2; 1; 5]) /\
  (forall v, (ex_compare v v <= 0)%Z ->
     filter (fun a => ex_get a "p" = v) (sortContent ex_get ex_compare "p" Desc [4; 2; 1; 5]) =
     filter (fun a => ex_get a "p" = v) [4; 2; 1; 5]).
Proof. exact (sortContent_correct ex_get ex_compare ex_compare_lawful "p" Desc [4; 2; 1; 5]). Defined.

Example ex_sorted_desc : sortContent ex_get ex_compare "p" Desc [4; 2; 1; 5] = [2; 5; 4; 1].
Proof. reflexivity. Qed.

Lemma array_table_shows_witness :
  exists s, array_table_load ex_get [4; 2] [Column "p" JNull JUndefined] "h" true = (s, Ok tt) /\
    forall i j object c, [4; 2] !! i = Some object -> [Column "p" JNull JUndefined] !! j = Some c ->
      exists cell, slot_at (_data s) (i, j) = Some (SCell cell) /\
        formattedValue cell =
          if decide (ex_get object (property c) = JNull) then JStr "" else ex_get object (property c).
Proof. apply (array_table_shows ex_get [4; 2] [Column "p" JNull JUndefined] "h" true); done. Defined.
