(* ===== verification/ArrayTableUpdates.v ===== *)
(** * The observers of an array table ([controllers/array_table_controller.js])

    An array table observes the properties of its objects that it shows, and its content:
    a changed property is pushed to its cell, a changed header makes the table load again,
    an object that leaves the content is not observed any more.

    An observer is stored on the object under a name made of the name of the property, so
    that there is one observer per object and property.  The grid that
    [ArrayTableController] and [TableController] build of the data is represented by the
    values in it and the labels of the rows. *)

From S2P Require Import Prelude Arrays TableController ArrayTableController.
Open Scope string_scope.
Open Scope list_scope.
Open Scope flame_scope.

(** ** State *)

(** What the observer of a property does: it refreshes the headers, unless the value is
    the one they were made with, or it pushes the value to the cell. *)
Inductive observer := RefreshHeaders (originalValue : jsval) | PushCell (i j : nat).

Record table := Table {
  values : gmap (nat * string) jsval;          (* the properties of all objects *)
  content : list nat;
  observers : gmap (nat * string) observer;
  labels : list jsval;                         (* of the row headers *)
  cells : list (list jsval)
}.

Definition get (vs : gmap (nat * string) jsval) (o : nat) (p : string) : jsval := default JUndefined (vs !! (o, p)).

Definition set_values x t := Table x (content t) (observers t) (labels t) (cells t).
Definition set_content x t := Table (values t) x (observers t) (labels t) (cells t).
Definition set_observers x t := Table (values t) (content t) x (labels t) (cells t).

Section array_table.
Context (columns : list column) (headerProperty : string).
Context (passed : jsval -> jsval).           (* what Ember passes to an observer as the value *)

(** ** Observers *)

Definition _setPropertyObserver (kv : (nat * string) * observer) (m : gmap (nat * string) observer) : gmap (nat * string) observer :=
  <[kv.1 := kv.2]> m.

Definition _removePropertyObservers (o : nat) (m : gmap (nat * string) observer) : gmap (nat * string) observer :=
  base.filter (fun kv => kv.1.1 <> o) m.

(** What [headers] and [data] observe, in the order in which they do. *)
Definition header_observers (t : table) : list ((nat * string) * observer) :=
  (fun o => ((o, headerProperty), RefreshHeaders (get (values t) o headerProperty))) <$> content t.

Definition data_observers (t : table) : list ((nat * string) * observer) :=
  concat (imap (fun i o => imap (fun j c => ((o, property c), PushCell i j)) columns) (content t)).

Definition install (l : list ((nat * string) * observer)) (m : gmap (nat * string) observer) : gmap (nat * string) observer :=
  foldl (fun m kv => _setPropertyObserver kv m) m l.

(** [headers] is computed, then [data], when [headers] changes. *)
Definition load (t : table) : table :=
  let m := install (data_observers t) (install (header_observers t) (observers t)) in
  Table (values t) (content t) m
    ((fun o => get (values t) o headerProperty) <$> content t) (array_data (get (values t)) (content t) columns).

Definition refreshHeaders := load.

(** ** Events *)

Definition remove_all (l : list nat) (m : gmap (nat * string) observer) : gmap (nat * string) observer :=
  foldl (fun m o => _removePropertyObservers o m) m l.

(** [_contentArrayWillChange], the change, and the observers of [content.[]]. *)
Definition replaceContent (start removed : nat) (added : list nat) (t : table) : table :=
  let m := remove_all (take removed (drop start (content t))) (observers t) in
  load (set_content (array_replace start removed added (content t)) (set_observers m t)).

(** [_removeContentObserver], the change, [_setContentObserver] and the observers of
    [content]. *)
Definition setContent (l : list nat) (t : table) : table :=
  load (set_content l (set_observers (remove_all (content t) (observers t)) t)).

Definition push (i j : nat) (v : jsval) (t : table) : table :=
  Table (values t) (content t) (observers t) (labels t) (alter (fun row => <[j := v]> row) i (cells t)).

Definition setProperty (o : nat) (p : string) (v : jsval) (t : table) : table :=
  let t1 := set_values (<[(o, p) := v]> (values t)) t in
  match observers t !! (o, p) with
  | Some (RefreshHeaders orig) => if strict_eq (passed v) orig then t1 else refreshHeaders t1
  | Some (PushCell i j) => push i j (get (values t1) o p) t1
  | None => t1
  end.

Definition create (vs : gmap (nat * string) jsval) (l : list nat) : table := load (Table vs l ∅ [] []).

Inductive event :=
| ReplaceContent (start removed : nat) (added : list nat)
| SetContent (l : list nat)
| SetProperty (o : nat) (p : string) (v : jsval).

Definition step (ev : event) (t : table) : table :=
  match ev with
  | ReplaceContent a r l => replaceContent a r l t
  | SetContent l => setContent l t
  | SetProperty o p v => setProperty o p v t
  end.

Fixpoint run (evs : list event) (t : table) : table :=
  match evs with [] => t | ev :: evs' => run evs' (step ev t) end.

(** ** Specification *)

(** The table shows the objects as they are. *)
Definition shows (t : table) : Prop :=
  labels t = ((fun o => get (values t) o headerProperty) <$> content t) /\
  cells t = array_data (get (values t)) (content t) columns.

(** The observers that there should be. *)
Definition wanted (t : table) (o : nat) (p : string) (b : observer) : Prop :=
  exists i, content t !! i = Some o /\
    (p = headerProperty /\ b = RefreshHeaders (get (values t) o headerProperty) \/
     exists j c, columns !! j = Some c /\ p = property c /\ b = PushCell i j).

Definition observed (t : table) : Prop := forall o p b, observers t !! (o, p) = Some b <-> wanted t o p b.

(** No object is twice in the content, and no property is shown twice. *)
Definition distinct (l : list nat) : Prop := NoDup l.
Definition properties_distinct : Prop := NoDup (headerProperty :: (property <$> columns)).

Definition keeps_distinct (ev : event) (t : table) : Prop :=
  match ev with
  | ReplaceContent a r l => distinct (array_replace a r l (content t))
  | SetContent l => distinct l
  | SetProperty _ _ _ => True
  end.

Fixpoint all_distinct (evs : list event) (t : table) : Prop :=
  match evs with [] => True | ev :: evs' => keeps_distinct ev t /\ all_distinct evs' (step ev t) end.

(** ** Lemmas *)

Lemma install_lookup l : forall m k b, NoDup l.*1 ->
  install l m !! k = Some b <-> (k, b) ∈ l \/ k ∉ l.*1 /\ m !! k = Some b.
Proof.
  induction l as [|[k0 b0] l IH]; intros m k b Hl; cbn [install foldl fmap list_fmap].
  { split; [intros H; right; split; [set_solver|done]|]. intros [H|[_ H]]; [set_solver|done]. }
  cbn in Hl. apply NoDup_cons in Hl as [Hk0 Hl]. fold (install l (_setPropertyObserver (k0, b0) m)). rewrite (IH _ k b Hl).
  unfold _setPropertyObserver. cbn [fst snd]. rewrite lookup_insert_Some. rewrite not_elem_of_cons, elem_of_cons. split.
  - intros [?|(H1 & [[-> ->]|[H2 H3]])]; [by left; right|by left; left|]. right. by split_and!.
  - intros [[[= -> ->]|?]|((H1 & H2) & H3)]; [|by left|].
    + right. split; [done|]. by left.
    + right. split; [done|]. right. by split.
Qed.

Lemma remove_all_lookup l : forall m o p, remove_all l m !! (o, p) = if bool_decide (o ∈ l) then None else m !! (o, p).
Proof.
  induction l as [|x l IH]; intros m o p; cbn [remove_all foldl]; [done|].
  fold (remove_all l (_removePropertyObservers x m)). rewrite IH. unfold _removePropertyObservers.
  destruct (decide (o = x)) as [->|Hx].
  - rewrite (bool_decide_eq_true_2 (x ∈ x :: l)) by set_solver. case_bool_decide; [done|].
    apply map_lookup_filter_None. right. intros b _ Hf. by apply Hf.
  - rewrite (bool_decide_ext (o ∈ x :: l) (o ∈ l)) by set_solver. case_bool_decide; [done|].
    destruct (m !! (o, p)) as [b|] eqn:E.
    + apply map_lookup_filter_Some. by split.
    + apply map_lookup_filter_None. by left.
Qed.

Lemma elem_of_concat_imap {A B} (f : nat -> A -> list B) l x :
  x ∈ concat (imap f l) <-> exists i a, l !! i = Some a /\ x ∈ f i a.
Proof.
  revert f. induction l as [|a l IH]; intros f; cbn.
  - split; [set_solver|]. by intros (? & ? & ? & _).
  - rewrite elem_of_app, IH. split.
    + intros [H|(i & a' & H1 & H2)]; [by exists 0, a|by exists (S i), a'].
    + intros ([|i] & a' & H1 & H2); cbn in H1; [injection H1 as ->; by left|right; by exists i, a'].
Qed.

Lemma elem_header k b t : (k, b) ∈ header_observers t <->
  k.2 = headerProperty /\ k.1 ∈ content t /\ b = RefreshHeaders (get (values t) k.1 headerProperty).
Proof.
  unfold header_observers. rewrite list_elem_of_fmap. split.
  - intros (o & [= -> ->] & H). done.
  - destruct k as [o p]. cbn. intros (-> & H & ->). by exists o.
Qed.

Lemma elem_data k b t : (k, b) ∈ data_observers t <->
  exists i j c, content t !! i = Some k.1 /\ columns !! j = Some c /\ k.2 = property c /\ b = PushCell i j.
Proof.
  unfold data_observers. rewrite elem_of_concat_imap. split.
  - intros (i & o & Ho & H). apply elem_of_lookup_imap in H as (j & c & [= -> ->] & Hc). exists i, j, c. done.
  - destruct k as [o p]. cbn. intros (i & j & c & Hi & Hj & -> & ->). exists i, o. split; [done|].
    apply elem_of_lookup_imap. by exists j, c.
Qed.

Lemma NoDup_pairs {B} (ps : list string) (f : nat -> nat -> string -> B) (l : list nat) : NoDup ps -> NoDup l -> forall n,
  NoDup (concat (imap (fun i o => imap (fun j p => ((o, p), f (n + i) j p)) ps) l)).*1.
Proof.
  intros Hps Hl. induction Hl as [|o l Ho _ IH]; intros n; [constructor|]. cbn. rewrite fmap_app. apply NoDup_app. split_and!.
  - assert ((imap (fun j p => ((o, p), f (n + 0) j p)) ps).*1 = (fun p => (o, p)) <$> ps) as ->.
    { rewrite fmap_imap. clear. apply list_eq. intros i. rewrite list_lookup_imap, list_lookup_fmap. by destruct (ps !! i). }
    apply NoDup_fmap_2; [|done]. by intros ? ? [= ->].
  - intros k H1 H2. apply list_elem_of_fmap in H1 as ([k1 b1] & -> & H1). cbn in H2.
    apply elem_of_lookup_imap in H1 as (j & p & [= -> _] & _).
    apply list_elem_of_fmap in H2 as ([k2 b2] & E & H2). cbn in E. subst k2.
    apply elem_of_concat_imap in H2 as (i & o2 & Hi & H2). apply elem_of_lookup_imap in H2 as (? & ? & [= -> _ _] & _).
    apply Ho. by apply (list_elem_of_lookup_2 _ i).
  - specialize (IH (S n)). erewrite imap_ext; [exact IH|]. intros i o' _. cbn. by rewrite Nat.add_succ_r.
Qed.

Lemma observers_NoDup t : properties_distinct -> distinct (content t) ->
  NoDup (header_observers t).*1 /\ NoDup (data_observers t).*1 /\
  forall k, k ∈ (data_observers t).*1 -> k.2 <> headerProperty.
Proof.
  unfold properties_distinct, distinct. intros Hp Hd. apply NoDup_cons in Hp as [Hh Hp]. split_and!.
  - unfold header_observers. rewrite <- list_fmap_compose. apply NoDup_fmap_2; [|done]. by intros ? ? [= ->].
  - pose proof (NoDup_pairs (property <$> columns) (fun i j _ => PushCell i j) (content t) Hp Hd 0) as H.
    unfold data_observers. erewrite imap_ext; [exact H|]. intros i o _. cbn. apply list_eq. intros j.
    rewrite !list_lookup_imap, list_lookup_fmap. by destruct (columns !! j).
  - intros k Hk. apply list_elem_of_fmap in Hk as ([k' b] & -> & Hk). apply elem_data in Hk as (i & j & c & _ & Hj & E & _).
    cbn. rewrite E. intros Heq. apply Hh. rewrite <- Heq. apply list_elem_of_fmap. exists c. split; [done|].
    by apply (list_elem_of_lookup_2 _ j).
Qed.

(** Loading puts everything right, if nothing else is observed. *)
Lemma load_ok t : properties_distinct -> distinct (content t) ->
  (forall o p, is_Some (observers t !! (o, p)) -> exists b, wanted t o p b) ->
  shows (load t) /\ observed (load t).
Proof.
  intros Hp Hd Hobs. split; [done|]. intros o p b. unfold load. cbn [observers].
  destruct (observers_NoDup t Hp Hd) as (N1 & N2 & N3). rewrite install_lookup, install_lookup, elem_data, elem_header by done.
  change (wanted (Table _ _ _ _ _) o p b) with (wanted t o p b). cbn [fst snd]. split.
  - intros [(i & j & c & Hi & Hj & -> & ->)|(Hn & [(-> & Hin & ->)|(Hn' & E)])].
    + exists i. split; [done|]. right. by exists j, c.
    + apply list_elem_of_lookup_1 in Hin as [i Hi]. exists i. split; [done|]. by left.
    + exfalso. destruct (Hobs o p (mk_is_Some _ _ E)) as (b' & i & Hi & [(-> & Hb)|(j & c & Hj & -> & Hb)]).
      * apply Hn', list_elem_of_fmap. exists ((o, headerProperty), b'). split; [done|]. apply elem_header. cbn. split_and!; [done| |done].
        by apply (list_elem_of_lookup_2 _ i).
      * apply Hn, list_elem_of_fmap. exists ((o, property c), b'). split; [done|]. apply elem_data. by exists i, j, c.
  - intros (i & Hi & [(-> & ->)|(j & c & Hj & -> & ->)]).
    + right. split; [intros Hk; by apply N3 in Hk|]. left. split_and!; [done| |done]. by apply (list_elem_of_lookup_2 _ i).
    + left. by exists i, j, c.
Qed.

Lemma wanted_content t t' o p b : (forall x, x ∈ content t -> x ∈ content t') -> wanted t o p b -> exists b', wanted t' o p b'.
Proof.
  intros Hc (i & Hi & H). apply list_elem_of_lookup_2, Hc, list_elem_of_lookup_1 in Hi as [i' Hi'].
  destruct H as [(-> & _)|(j & c & Hj & -> & _)].
  - eexists. exists i'. split; [done|]. left. done.
  - eexists. exists i'. split; [done|]. right. by exists j, c.
Qed.

Lemma elem_of_array_replace {A} start removed (added l : list A) x :
  x ∈ array_replace start removed added l <-> x ∈ take start l \/ x ∈ added \/ x ∈ drop removed (drop start l).
Proof. unfold array_replace. rewrite !elem_of_app, drop_drop. done. Qed.

Lemma replace_ok a r l t : properties_distinct -> distinct (array_replace a r l (content t)) -> observed t ->
  shows (replaceContent a r l t) /\ observed (replaceContent a r l t).
Proof.
  intros Hp Hd Ho. unfold replaceContent. apply load_ok; [done|done|]. cbn [observers set_content set_observers]. intros o p [b E].
  rewrite remove_all_lookup in E. case_bool_decide as Hin; [done|]. apply Ho in E as (i & Hi & Hw).
  assert (o ∈ array_replace a r l (content t)) as Hn.
  { apply list_elem_of_lookup_2 in Hi. rewrite <- (take_drop a (content t)), elem_of_app in Hi.
    rewrite elem_of_array_replace. rewrite <- (take_drop r (drop a (content t))), elem_of_app in Hi. tauto. }
  apply list_elem_of_lookup_1 in Hn as [i' Hi']. destruct Hw as [(-> & _)|(j & c & Hj & -> & _)].
  - eexists. exists i'. split; [exact Hi'|]. left. done.
  - eexists. exists i'. split; [exact Hi'|]. right. by exists j, c.
Qed.

Lemma set_content_ok l t : properties_distinct -> distinct l -> observed t ->
  shows (setContent l t) /\ observed (setContent l t).
Proof.
  intros Hp Hd Ho. unfold setContent. apply load_ok; [done|done|]. cbn [observers set_content set_observers]. intros o p [b E].
  rewrite remove_all_lookup in E. case_bool_decide as Hin; [done|]. apply Ho in E as (i & Hi & _).
  by apply list_elem_of_lookup_2 in Hi.
Qed.

Lemma get_set vs o p v o' p' : get (<[(o, p) := v]> vs) o' p' = if decide ((o', p') = (o, p)) then v else get vs o' p'.
Proof.
  unfold get. case_decide as E; [injection E as -> ->; by rewrite lookup_insert_eq|]. by rewrite lookup_insert_ne.
Qed.

(** A change of a property that is not shown, or to the value it has. *)
Lemma unseen_ok vs t : shows t -> observed t ->
  (forall o, o ∈ content t -> get vs o headerProperty = get (values t) o headerProperty) ->
  (forall o c, o ∈ content t -> c ∈ columns -> get vs o (property c) = get (values t) o (property c)) ->
  shows (set_values vs t) /\ observed (set_values vs t).
Proof.
  intros [Hl Hc] Ho Eh Ec. split.
  - split; cbn.
    + rewrite Hl. apply list_fmap_ext. intros i o Hi. symmetry. apply Eh. by apply (list_elem_of_lookup_2 _ i).
    + rewrite Hc. unfold array_data. apply map_ext_in. intros o Hin%list_elem_of_In. apply map_ext_in. intros c Hcin%list_elem_of_In.
      symmetry. by apply Ec.
  - intros o p b. cbn. rewrite (Ho o p b). unfold wanted. cbn. split; intros (i & Hi & H); exists i; (split; [done|]);
      (destruct H as [(-> & ->)|H]; [left; split; [done|]|by right]); rewrite Eh; try done; by apply (list_elem_of_lookup_2 _ i).
Qed.

Lemma array_data_lookup vs l i : array_data (get vs) l columns !! i = (fun o => map (fun c => get vs o (property c)) columns) <$> l !! i.
Proof. unfold array_data. rewrite <- list_lookup_fmap. reflexivity. Qed.

Lemma columns_lookup vs o j : map (fun c => get vs o (property c)) columns !! j = (fun c => get vs o (property c)) <$> columns !! j.
Proof. rewrite <- list_lookup_fmap. reflexivity. Qed.

Lemma push_ok o i j c v t : properties_distinct -> distinct (content t) -> shows t -> observed t ->
  content t !! i = Some o -> columns !! j = Some c ->
  let t' := push i j v (set_values (<[(o, property c) := v]> (values t)) t) in
  shows t' /\ observed t'.
Proof.
  intros Hp Hd [Hl Hc] Ho Hi Hj. unfold properties_distinct in Hp. apply NoDup_cons in Hp as [Hh Hp].
  assert (headerProperty <> property c) as Hne.
  { intros Heq. apply Hh. rewrite Heq. apply list_elem_of_fmap. exists c. split; [done|]. by apply (list_elem_of_lookup_2 _ j). }
  split; [split|]; cbn [push set_values labels values content cells observers].
  - rewrite Hl. apply list_fmap_ext. intros k x _. rewrite get_set, decide_False; [done|]. by intros [= _ E].
  - rewrite Hc. apply list_eq. intros k. destruct (decide (k = i)) as [->|Hk].
    + rewrite list_lookup_alter_eq, !array_data_lookup, Hi. cbn. f_equal. apply list_eq. intros k'.
      destruct (decide (k' = j)) as [->|Hk'].
      * rewrite list_lookup_insert_eq, columns_lookup, Hj; [cbn; by rewrite get_set, decide_True|].
        rewrite length_map. by apply lookup_lt_Some in Hj.
      * rewrite list_lookup_insert_ne, !columns_lookup by done. destruct (columns !! k') as [c'|] eqn:E; [|done]. cbn.
        rewrite get_set, decide_False; [done|]. intros [= Heq]. apply Hk'.
        apply (NoDup_lookup (property <$> columns) k' j (property c')); [done| |]; rewrite list_lookup_fmap, ?E, ?Hj; cbn; congruence.
    + rewrite list_lookup_alter_ne, !array_data_lookup by done. destruct (content t !! k) as [o'|] eqn:E; [|done]. cbn. f_equal.
      apply map_ext. intros c'. rewrite get_set, decide_False; [done|]. intros [= -> _]. apply Hk.
      by apply (NoDup_lookup (content t) k i o).
  - intros o' p b. cbn [push set_values observers]. rewrite (Ho o' p b). unfold wanted. cbn [push set_values values content].
    assert (forall x, get (<[(o, property c) := v]> (values t)) x headerProperty = get (values t) x headerProperty) as Hg.
    { intros x. rewrite get_set, decide_False; [done|]. by intros [= _ E]. }
    by setoid_rewrite Hg.
Qed.

Lemma set_property_ok o p v t : (forall x orig, x <> orig -> strict_eq (passed x) orig = false) ->
  properties_distinct -> distinct (content t) -> shows t -> observed t ->
  shows (setProperty o p v t) /\ observed (setProperty o p v t).
Proof.
  intros Hpass Hp Hd Hs Ho. unfold setProperty. set (t1 := set_values _ t).
  destruct (observers t !! (o, p)) as [[orig|i j]|] eqn:E.
  - apply Ho in E as E'. destruct E' as (i & Hi & [(-> & [= ->])|(j & c & _ & _ & [=])]).
    destruct (strict_eq (passed v) (get (values t) o headerProperty)) eqn:Eq.
    + assert (v = get (values t) o headerProperty) as Hv.
      { destruct (decide (v = get (values t) o headerProperty)) as [?|Hv]; [done|]. apply Hpass in Hv. congruence. }
      apply unseen_ok; [done|done|..]; intros; rewrite get_set; case_decide as Hk; [|done| |done]; injection Hk; congruence.
    + apply load_ok; [done|done|]. unfold t1. cbn. intros o' p' [b Hb]. apply Ho in Hb.
      by apply (wanted_content t _ o' p' b).
  - apply Ho in E. destruct E as (i' & Hi & [(_ & [=])|(j' & c & Hj & -> & [= <- <-])]).
    replace (get (values t1) o (property c)) with v by (unfold t1; cbn; by rewrite get_set, decide_True).
    by apply push_ok.
  - assert (forall b, ~ wanted t o p b) as Hno by (intros b Hb%Ho; congruence).
    apply unseen_ok; [done|done|..].
    + intros o' Hin. rewrite get_set. case_decide as Hk; [|done]. injection Hk as -> <-. exfalso.
      apply list_elem_of_lookup_1 in Hin as [i Hi]. eapply Hno. exists i. split; [exact Hi|]. by left.
    + intros o' c Hin Hc. rewrite get_set. case_decide as Hk; [|done]. injection Hk as -> <-. exfalso.
      apply list_elem_of_lookup_1 in Hin as [i Hi]. apply list_elem_of_lookup_1 in Hc as [j Hj].
      eapply Hno. exists i. split; [exact Hi|]. right. by exists j, c.
Qed.

Lemma step_content ev t : keeps_distinct ev t -> distinct (content t) -> distinct (content (step ev t)).
Proof.
  destruct ev as [a r l|l|o p v]; cbn; [done|done|]. intros _. unfold setProperty.
  destruct (observers t !! (o, p)) as [[orig|i j]|]; [|done..]. by destruct (strict_eq _ _).
Qed.

(** ** Properties *)

End array_table.

(** ** Witnesses and departures *)

Definition ex_columns : list column := [Column "age" (JStr "Age") JUndefined; Column "city" (JStr "City") JUndefined].
Definition ex_values : gmap (nat * string) jsval :=
  {[(1, "name") := JStr "Ann"; (1, "age") := JNum 30; (1, "city") := JStr "Oulu";
    (2, "name") := JStr "Bo"; (2, "age") := JNum 40; (2, "city") := JStr "Turku"]}.

Lemma passed_same x orig : x <> orig -> strict_eq x orig = false.
Proof. intros H. destruct x, orig; cbn; try apply bool_decide_eq_false_2; done. Qed.

Definition ex_events : list event :=
  [SetProperty 2 "age" (JNum 41); ReplaceContent 0 1 [3]; SetProperty 3 "name" (JStr "Cy"); SetProperty 1 "age" (JNum 31)].


(** An object that is twice in the content: its first row is not updated, and when one of
    them goes the other is not updated either. *)
Lemma object_twice :
  let start := create ex_columns "name" ex_values [1; 1] in
  cells (run ex_columns "name" id [SetProperty 1 "age" (JNum 31)] start) =
    [[JNum 30; JStr "Oulu"]; [JNum 31; JStr "Oulu"]].
Proof. vm_compute. reflexivity. Qed.

(** A column that shows the property of the row headers: its observer replaces the other,
    and the header stays as it was. *)
Lemma header_property_as_column :
  labels (run ex_columns "age" id [SetProperty 1 "age" (JNum 31)] (create ex_columns "age" ex_values [1])) = [JNum 30].
Proof. vm_compute. reflexivity. Qed.

(** Two tables with the same object: loading the second one replaces the observers of the
    first, which are stored on the object by the same names. *)
Lemma second_table_takes_over :
  let first := create ex_columns "name" ex_values [2; 1] in
  let second := load ex_columns "name" (set_content [1] first) in
  observers first !! (1, "age") = Some (PushCell 1 0) /\ observers second !! (1, "age") = Some (PushCell 0 0).
Proof. vm_compute. done. Qed.

(** If observers are not passed a value, a header without a label never gets one. *)
Lemma undefined_header_stays :
  labels (run ex_columns "name" (fun _ => JUndefined) [SetProperty 3 "name" (JStr "Cy")] (create ex_columns "name" ex_values [3])) = [JUndefined].
Proof. vm_compute. reflexivity. Qed.
