(* ===== verification/TableSorting.v ===== *)
(** * Sorting a table by its column headers ([mixins/table_sort_support.js])

    A click on the header of a column opens a menu with the two orders; choosing one sorts the
    content of the array table, which is then loaded again.  The order is that of
    [ArrayTableController], the table and its observers are those of [ArrayTableUpdates]. *)

From S2P Require Import Prelude Arrays TableController ArrayTableController.
From S2P Require Import ArrayTableUpdates.
Open Scope string_scope.
Open Scope list_scope.
Open Scope flame_scope.

Section sorting.
Context (columns : list column) (headerProperty : string).
Context (compare : jsval -> jsval -> Z).                 (* [Ember.compare] *)
Context (sortAscendingCaption sortDescendingCaption : string).

(** ** The menu *)

(** An item of the menu: its title, and the header and order that are its value. *)
Record sort_item := SortItem { sort_title : string; sort_header : header; sort_order_of : sort_order }.

Definition header_isLeaf (h : header) : bool := match h_children h with None => true | Some _ => false end.

Definition _sortMenuOptions (h : header) : list sort_item :=
  [SortItem sortAscendingCaption h Asc; SortItem sortDescendingCaption h Desc].

(** What a click on the header of a column shows, if anything. *)
Definition columnHeaderClicked (h : header) : option (list sort_item) :=
  if header_isLeaf h then Some (_sortMenuOptions h) else None.

(** [header.get('property')]; a header without it sorts by a property no object has. *)
Definition header_property (h : header) : string :=
  match h_props h !! "property" with Some (JStr p) => p | _ => "undefined" end.

(** The action of the menu, [sortContent] of the controller. *)
Definition sortTable (x : sort_item) (t : table) : table :=
  setContent columns headerProperty (sortContent (get (values t)) compare (header_property (sort_header x)) (sort_order_of x) (content t)) t.

(** A click on a header, and what the user chooses in the menu, by its place. *)
Definition click_and_choose (h : header) (choice : option nat) (t : table) : table :=
  match columnHeaderClicked h with
  | Some items =>
      match choice ≫= fun i => items !! i with
      | Some x => sortTable x t
      | None => t
      end
  | None => t
  end.

(** ** Properties *)
Notation shows := (shows columns headerProperty).
Notation observed := (observed columns headerProperty).

Definition in_order (o : sort_order) (a b : jsval) : Prop :=
  match o with Asc => (compare a b <= 0)%Z | Desc => (compare a b >= 0)%Z end.

(** C19. Choosing an order in the menu of the header of column [j] shows the same objects in the
    order of that column's values: the column of cells is in order, rows with equal values stay
    as they were, every row shows one of the objects, and the objects are still observed. *)
Theorem chosen_order_is_shown (Hcmp : Comparator compare) j c o t :
  properties_distinct columns headerProperty -> distinct (content t) -> shows t -> observed t ->
  columns !! j = Some c ->
  let t' := click_and_choose (column_header c) (Some (match o with Asc => 0 | Desc => 1 end)) t in
  content t' ≡ₚ content t /\ shows t' /\ observed t' /\
  StronglySorted (in_order o) (omap (.!! j) (cells t')) /\
  length (omap (.!! j) (cells t')) = length (content t) /\
  forall v, (compare v v <= 0)%Z ->
    filter (fun a => get (values t) a (property c) = v) (content t') =
    filter (fun a => get (values t) a (property c) = v) (content t).
Proof.
  intros Hp Hd Hs Ho Hj. cbv zeta.
  assert (click_and_choose (column_header c) (Some (match o with Asc => 0 | Desc => 1 end)) t =
    setContent columns headerProperty (sortContent (get (values t)) compare (property c) o (content t)) t) as ->.
  { unfold click_and_choose, columnHeaderClicked, column_header, header_isLeaf. cbn [h_children].
    assert (forall m, sortTable (SortItem m (column_header c) o) t = setContent columns headerProperty (sortContent (get (values t)) compare (property c) o (content t)) t) as H.
    { intros m. unfold sortTable, header_property, column_header. cbn [h_props sort_header sort_order_of].
      destruct (isNone (renderWidth c)); [done|]. by rewrite lookup_insert_ne. }
    destruct o; apply H. }
  set (l := sortContent _ _ _ _ _). destruct (sortContent_correct (get (values t)) compare Hcmp (property c) o (content t)) as (Hperm & Hsort & Hstable).
  fold l in Hperm, Hsort, Hstable.
  assert (distinct l) as Hl by (unfold distinct in *; by rewrite Hperm).
  destruct (set_content_ok columns headerProperty l t Hp Hl Ho) as [Hs' Ho']. split_and!; [exact Hperm|done|done| | |exact Hstable].
  all: assert (omap (.!! j) (cells (setContent columns headerProperty l t)) = (fun a => get (values t) a (property c)) <$> l) as ->.
  1, 3: destruct Hs' as [_ ->]; change (content (setContent columns headerProperty l t)) with l;
    change (values (setContent columns headerProperty l t)) with (values t); clear -Hj;
    induction l as [|a l IH]; [done|]; cbn [array_data map omap list_omap];
    rewrite columns_lookup, Hj; cbn [fmap option_fmap option_map list_fmap]; f_equal; exact IH.
  - clear -Hsort. induction Hsort as [|a l _ IH H]; [constructor|]. cbn [fmap list_fmap]. constructor; [exact IH|].
    apply Forall_fmap. eapply Forall_impl; [exact H|]. intros b Hb. exact Hb.
  - by rewrite length_fmap, Hperm.
Qed.
End sorting.

(** ** Witness *)

Definition ex_table : table := create ex_columns "name" ex_values [1; 2; 3].

Lemma chosen_order_is_shown_witness :
  let t' := click_and_choose ex_columns "name" ex_compare "Sort ascending..." "Sort descending..." (column_header (Column "age" (JStr "Age") JUndefined)) (Some 1) ex_table in
  content t' ≡ₚ [1; 2; 3] /\ StronglySorted (in_order ex_compare Desc) (omap (.!! 0) (cells t')).
Proof.
  destruct (chosen_order_is_shown ex_columns "name" ex_compare "Sort ascending..." "Sort descending..." ex_compare_lawful 0
    (Column "age" (JStr "Age") JUndefined) Desc ex_table) as (H1 & _ & _ & H2 & _).
  - repeat constructor; set_solver.
  - repeat constructor; set_solver.
  - apply (load_ok ex_columns "name"); [repeat constructor; set_solver|repeat constructor; set_solver|]. cbn. intros o p [b Hb]. by rewrite lookup_empty in Hb.
  - apply (load_ok ex_columns "name"); [repeat constructor; set_solver|repeat constructor; set_solver|]. cbn. intros o p [b Hb]. by rewrite lookup_empty in Hb.
  - reflexivity.
  - split; [exact H1|exact H2].
Defined.
