(* ===== verification/SortingArrayProxy.v ===== *)
(** * SortingArrayProxy (src/utils/sorting_array_proxy.js)

    A proxy shows the items of a source array in the order of a sort key.  It keeps
    two arrays, [source] and the sorted [content], each observed so that a change
    of one is carried over to the other, and one observer per item that re-sorts
    when the key of the item changes.  The observers call mutations that fire
    observers again; the flag [_suppressObservers] stops the recursion.

    Items are references into a store.  Ember's arrays announce a [replace] to
    their observers before and after it happens; [replacers n] is that protocol
    with at most [n] nested announcements, and [replacers_depth] shows that two
    are always enough. *)
From S2P Require Import Prelude Arrays.

Section proxy.
(** Sort keys; [None] is [undefined].  [Ember.compare] is lawful on them. *)
Context {K : Type} `{!EqDecision K} (zero : K) (compare : option K -> option K -> Z).

Record item := Item {
  key : option K;             (* item.get(sortKey) *)
  lastPosition : option K;    (* item.lastPosition *)
  observers : nat;            (* how many observers of this proxy listen to the key *)
  observerKey : bool          (* item[observerKey] is set *)
}.

Record proxy := Proxy {
  store : gmap nat item;
  source : list nat;
  content : list nat;
  _suppressObservers : bool;
  contentObserved : bool;     (* content.addArrayObserver was called *)
  sourceObserved : bool       (* source.addArrayObserver was called *)
}.

Definition set_store m s := Proxy m (source s) (content s) (_suppressObservers s) (contentObserved s) (sourceObserved s).
Definition set_source_array l s := Proxy (store s) l (content s) (_suppressObservers s) (contentObserved s) (sourceObserved s).
Definition set_content l s := Proxy (store s) (source s) l (_suppressObservers s) (contentObserved s) (sourceObserved s).
Definition set_suppress b s := Proxy (store s) (source s) (content s) b (contentObserved s) (sourceObserved s).
Definition set_observed c r s := Proxy (store s) (source s) (content s) (_suppressObservers s) c r.

Definition key_of (m : gmap nat item) (o : nat) : option K := m !! o ≫= key.
Definition get_key (s : proxy) (o : nat) : option K := key_of (store s) o.

(** ** Observers of single items *)

Definition _addSortIndexObserverAndRegisterForRemoval (o : nat) (s : proxy) : proxy :=
  set_store (alter (fun it => Item (key it) (key it) (S (observers it)) true) o (store s)) s.

Definition _removeSortIndexObserverFor (o : nat) (s : proxy) : proxy :=
  set_store (alter (fun it => if observerKey it
                              then Item (key it) (lastPosition it) (pred (observers it)) false
                              else it) o (store s)) s.

(** ** Sorting *)
Definition order (s : proxy) : nat -> nat -> Z := cmp_on (get_key s) compare.
Definition _sort (array : list nat) (s : proxy) : list nat := js_sort (order s) array.

Definition _withObserversSuppressed (func : proxy -> proxy) (s : proxy) : proxy :=
  if _suppressObservers s then s else set_suppress false (func (set_suppress true s)).

Definition replacer : Type := nat -> nat -> list nat -> proxy -> proxy.

Definition _sortAndReplaceContent (content_replace : replacer) (newContent : list nat) (s : proxy) : proxy :=
  let sorted := _sort newContent s in
  _withObserversSuppressed (fun s => content_replace 0 (length (content s)) sorted s) s.

Definition _indexChanged (content_replace : replacer) (o : nat) (s : proxy) : proxy :=
  match store s !! o with
  | None => s
  | Some it =>
      if bool_decide (lastPosition it = key it) || _suppressObservers s then s
      else _sortAndReplaceContent content_replace (content s) s
  end.

(** [Ember.set(item, sortKey, k)]: the observers run when the key changes. *)
Definition set_key (content_replace : replacer) (o : nat) (k : option K) (s : proxy) : proxy :=
  match store s !! o with
  | None => s
  | Some it =>
      if decide (key it = k) then s
      else
        let s' := set_store (<[o := Item k (lastPosition it) (observers it) (observerKey it)]> (store s)) s in
        Nat.iter (observers it) (_indexChanged content_replace o) s'
  end.

(** ** Keys of a reordered content *)

(** An item without a key takes the key of the item before it, the first one zero. *)
Fixpoint fill_keys (prev : K) (keys : list (option K)) : list K :=
  match keys with
  | [] => []
  | Some k :: keys' => k :: fill_keys k keys'
  | None :: keys' => prev :: fill_keys prev keys'
  end.

Definition new_keys (s : proxy) (array : list nat) : list (option K) :=
  js_sort compare (Some <$> fill_keys zero (get_key s <$> array)).

Definition _reAssignSortKeys (content_replace : replacer) (array : list nat) (s : proxy) : proxy :=
  foldl (fun s oi => set_key content_replace oi.1 oi.2 s) s (zip array (new_keys s array)).

(** [removeObject]: from the end, [replace(loc, 1)] at every occurrence. *)
Fixpoint removeObject_loop (array : proxy -> list nat) (replace : replacer) (o : nat) (n : nat) (s : proxy) : proxy :=
  match n with
  | 0 => s
  | S loc =>
      let s' := if decide (array s !! loc = Some o) then replace loc 1 [] s else s in
      removeObject_loop array replace o loc s'
  end.
Definition content_removeObject (cr : replacer) (o : nat) (s : proxy) : proxy :=
  removeObject_loop content cr o (length (content s)) s.
Definition source_removeObject (sr : replacer) (o : nat) (s : proxy) : proxy :=
  removeObject_loop source sr o (length (source s)) s.

(** [for (i = start; i < start + count; i++) ... array.objectAt(i)] *)
Definition for_range (array : list nat) (start count : nat) (f : proxy -> nat -> proxy) (s : proxy) : proxy :=
  foldl (fun s i => match array !! i with Some o => f s o | None => s end) s (seq start count).

(** ** Array observers *)

Definition _sourceArrayWillChange (cr : replacer) (start removeCount : nat) (s : proxy) : proxy :=
  _withObserversSuppressed (fun s =>
    if (start =? 0) && (removeCount =? length (content s)) then
      let s1 := cr 0 removeCount [] s in
      foldl (fun s o => _removeSortIndexObserverFor o s) s1 (content s1)
    else
      for_range (source s) start removeCount (fun s o =>
        _removeSortIndexObserverFor o (content_removeObject cr o s)) s) s.

Definition _sourceArrayDidChange (cr : replacer) (start addCount : nat) (s : proxy) : proxy :=
  if 0 <? addCount then
    let added := take addCount (drop start (source s)) in
    let s1 := for_range (source s) start addCount (fun s o =>
                _addSortIndexObserverAndRegisterForRemoval o s) s in
    _sortAndReplaceContent cr (content s ++ added) s1
  else s.

Definition _contentArrayWillChange (sr : replacer) (start removeCount : nat) (s : proxy) : proxy :=
  _withObserversSuppressed (fun s =>
    for_range (content s) start removeCount (fun s o =>
      _removeSortIndexObserverFor o (source_removeObject sr o s)) s) s.

Definition _contentArrayDidChange (cr sr : replacer) (start addCount : nat) (s : proxy) : proxy :=
  if 0 <? addCount then
    _withObserversSuppressed (fun s =>
      let s1 := _reAssignSortKeys cr (content s) s in
      for_range (content s1) start addCount (fun s o =>
        let s' := _addSortIndexObserverAndRegisterForRemoval o s in
        sr (length (source s')) 0 [o] s') s1) s
  else s.

(** ** Mutations with their announcements *)
Definition raw_content : replacer := fun start rc added s =>
  set_content (array_replace start rc added (content s)) s.
Definition raw_source : replacer := fun start rc added s =>
  set_source_array (array_replace start rc added (source s)) s.

Fixpoint replacers (n : nat) : replacer * replacer :=
  match n with
  | 0 => (raw_content, raw_source)
  | S n' =>
      let '(cr, sr) := replacers n' in
      ((fun start rc added s =>
          let s1 := if contentObserved s then _contentArrayWillChange sr start rc s else s in
          let s2 := raw_content start rc added s1 in
          if contentObserved s2 then _contentArrayDidChange cr sr start (length added) s2 else s2),
       (fun start rc added s =>
          let s1 := if sourceObserved s then _sourceArrayWillChange cr start rc s else s in
          let s2 := raw_source start rc added s1 in
          if sourceObserved s2 then _sourceArrayDidChange cr start (length added) s2 else s2))
  end.

Definition content_replace : replacer := (replacers 2).1.
Definition source_replace : replacer := (replacers 2).2.

(** ** Operations *)

(** A key changed from outside the proxy. *)
Definition change_key (o : nat) (k : option K) (s : proxy) : proxy := set_key content_replace o k s.

Definition startMoving (s : proxy) : proxy := set_suppress true s.
Definition endMoving (s : proxy) : proxy :=
  let s1 := set_suppress false s in
  _withObserversSuppressed (fun s => _reAssignSortKeys content_replace (content s) s) s1.

(** The protocol of a move: [startMoving], [removeAt], [insertAt], [endMoving]. *)
Definition move (i j : nat) (s : proxy) : proxy :=
  match content s !! i with
  | None => s
  | Some o =>
      endMoving (content_replace j 0 [o] (content_replace i 1 [] (startMoving s)))
  end.

(** The observers of the property [source]. *)
Definition _sourceWillChange (s : proxy) : proxy :=
  set_observed (contentObserved s) false
    (foldl (fun s o => _removeSortIndexObserverFor o s) s (source s)).

Definition _sourceDidChange (s : proxy) : proxy :=
  let s1 := content_replace 0 (length (content s)) (_sort (source s) s) s in
  let s2 := foldl (fun s o => _addSortIndexObserverAndRegisterForRemoval o s) s1 (content s1) in
  set_observed (contentObserved s2) true s2.

Definition set_source (l : list nat) (s : proxy) : proxy :=
  _sourceDidChange (set_source_array l (_sourceWillChange s)).

(** [SortingArrayProxy.create({source: l})] over the items of [m]. *)
Definition create (m : gmap nat item) (l : list nat) : proxy :=
  let s := _sourceDidChange (Proxy m l [] false false false) in
  set_observed true (sourceObserved s) s.

(** ** Under suppression *)
#[local] Abbreviation sup := _suppressObservers.

(** Two replacers that do the same while the observers are suppressed. *)
Definition agree (r r' : replacer) : Prop :=
  forall start rc added s, sup s = true ->
    r start rc added s = r' start rc added s /\ sup (r' start rc added s) = true.

Lemma suppressed_noop f s : sup s = true -> _withObserversSuppressed f s = s.
Proof. unfold _withObserversSuppressed. by intros ->. Qed.

Lemma suppressed_run f g s :
  (forall s, sup s = true -> f s = g s) ->
  _withObserversSuppressed f s = _withObserversSuppressed g s.
Proof. intros H. unfold _withObserversSuppressed. destruct (sup s); [done|]. by rewrite H. Qed.

Lemma foldl_agree {A} (f g : proxy -> A -> proxy) l s :
  (forall s x, sup s = true -> f s x = g s x /\ sup (g s x) = true) ->
  sup s = true -> foldl f s l = foldl g s l /\ sup (foldl g s l) = true.
Proof.
  intros H. revert s. induction l as [|x l IH]; simpl; intros s Hs; [done|].
  destruct (H s x Hs) as [-> ?]. by apply IH.
Qed.

Lemma for_range_agree array start count f g s :
  (forall s o, sup s = true -> f s o = g s o /\ sup (g s o) = true) ->
  sup s = true ->
  for_range array start count f s = for_range array start count g s /\
  sup (for_range array start count g s) = true.
Proof. intros H. apply foldl_agree. intros s' i Hs'. destruct (array !! i); [by apply H|done]. Qed.

Lemma for_range_foldl array start count f s :
  for_range array start count f s = foldl f s (take count (drop start array)).
Proof.
  unfold for_range. revert start s. induction count as [|count IH]; intros start s; [done|].
  cbn [seq foldl]. rewrite IH. destruct (array !! start) as [o|] eqn:E.
  - by rewrite (drop_S array o start E).
  - apply lookup_ge_None in E. rewrite !drop_ge by lia. by rewrite !take_nil.
Qed.

Lemma removeObject_loop_agree array r r' o n s :
  agree r r' -> sup s = true ->
  removeObject_loop array r o n s = removeObject_loop array r' o n s /\
  sup (removeObject_loop array r' o n s) = true.
Proof.
  intros Hr. revert s. induction n as [|loc IH]; simpl; intros s Hs; [done|].
  case_decide; [|by apply IH]. destruct (Hr loc 1 [] s Hs) as [-> ?]. by apply IH.
Qed.

Lemma sup_raw_content start rc added s : sup (raw_content start rc added s) = sup s.
Proof. done. Qed.

Lemma content_agree_raw n : agree (replacers n).1 raw_content.
Proof.
  intros start rc added s Hs. split; [|done]. destruct n as [|n]; [done|].
  cbn [replacers]. destruct (replacers n) as [cr sr]. cbn [fst].
  assert (forall b : bool, (if b then _contentArrayWillChange sr start rc s else s) = s) as ->.
  { intros []; [|done]. by apply suppressed_noop. }
  destruct (contentObserved _); [|done]. unfold _contentArrayDidChange.
  destruct (0 <? _); [|done]. by apply suppressed_noop.
Qed.

(** A mutation of the source while the observers are suppressed: the observers of
    the added items are registered, and nothing else happens. *)
Definition suppressed_source : replacer := fun start rc added s =>
  let s2 := raw_source start rc added s in
  if sourceObserved s && (0 <? length added) then
    for_range (source s2) start (length added) (fun s o =>
      _addSortIndexObserverAndRegisterForRemoval o s) s2
  else s2.

Lemma source_agree_suppressed n : agree (replacers (S n)).2 suppressed_source.
Proof.
  intros start rc added s Hs. unfold suppressed_source.
  assert (Hfold : forall a st c s', sup s' = true ->
    sup (for_range a st c (fun s o => _addSortIndexObserverAndRegisterForRemoval o s) s') = true).
  { intros a st c s' Hs'. by apply (for_range_agree a st c
      (fun s o => _addSortIndexObserverAndRegisterForRemoval o s)
      (fun s o => _addSortIndexObserverAndRegisterForRemoval o s) s' (fun s o H => conj eq_refl H)). }
  split.
  - cbn [replacers]. destruct (replacers n) as [cr sr]. cbn [snd].
    assert (forall b : bool, (if b then _sourceArrayWillChange cr start rc s else s) = s) as ->.
    { intros []; [|done]. by apply suppressed_noop. }
    change (sourceObserved (raw_source start rc added s)) with (sourceObserved s).
    destruct (sourceObserved s); [|done]. unfold _sourceArrayDidChange. simpl.
    destruct (0 <? length added); [|done]. apply suppressed_noop. by apply Hfold.
  - destruct (_ && _); [|done]. by apply Hfold.
Qed.

Lemma set_key_agree cr cr' o k s :
  sup s = true -> set_key cr o k s = set_key cr' o k s /\ sup (set_key cr' o k s) = true.
Proof.
  intros Hs. unfold set_key. destruct (store s !! o) as [it|]; [|done].
  case_decide; [done|].
  assert (Hn : forall c n s', sup s' = true -> Nat.iter n (_indexChanged c o) s' = s').
  { intros c n s' Hs'. induction n as [|n IH]; [done|]. simpl. rewrite IH.
    unfold _indexChanged. destruct (store s' !! o); [|done]. by rewrite Hs', orb_true_r. }
  by rewrite !Hn.
Qed.

Section handlers.
Context (cr cr' sr sr' : replacer) (Hcr : agree cr cr') (Hsr : agree sr sr').

Lemma sourceWill_agree start rc s :
  _sourceArrayWillChange cr start rc s = _sourceArrayWillChange cr' start rc s.
Proof.
  apply suppressed_run. intros s' Hs'. destruct (_ && _).
  - destruct (Hcr 0 rc [] s' Hs') as [-> _]. done.
  - apply for_range_agree; [|done]. intros s2 o Hs2.
    destruct (removeObject_loop_agree content cr cr' o (length (content s2)) s2 Hcr Hs2) as [E H].
    unfold content_removeObject. by rewrite E.
Qed.

Lemma sourceDid_agree start n s :
  _sourceArrayDidChange cr start n s = _sourceArrayDidChange cr' start n s.
Proof.
  unfold _sourceArrayDidChange. destruct (0 <? n); [|done].
  apply suppressed_run. intros s' Hs'. by apply Hcr.
Qed.

Lemma contentWill_agree start rc s :
  _contentArrayWillChange sr start rc s = _contentArrayWillChange sr' start rc s.
Proof.
  apply suppressed_run. intros s' Hs'. apply for_range_agree; [|done]. intros s2 o Hs2.
  destruct (removeObject_loop_agree source sr sr' o (length (source s2)) s2 Hsr Hs2) as [E H].
  unfold source_removeObject. by rewrite E.
Qed.

Lemma contentDid_agree start n s :
  _contentArrayDidChange cr sr start n s = _contentArrayDidChange cr' sr' start n s.
Proof.
  unfold _contentArrayDidChange. destruct (0 <? n); [|done].
  apply suppressed_run. intros s' Hs'.
  destruct (foldl_agree (fun s oi => set_key cr oi.1 oi.2 s) (fun s oi => set_key cr' oi.1 oi.2 s)
    (zip (content s') (new_keys s' (content s'))) s') as [E1 E2]; [|done|].
  { intros s2 oi Hs2. by apply set_key_agree. }
  unfold _reAssignSortKeys. rewrite E1. apply for_range_agree; [|done].
  intros s2 o Hs2. by apply Hsr.
Qed.
End handlers.

Lemma agree_trans_sym r r' t : agree r t -> agree r' t -> agree r r'.
Proof.
  intros H H' start rc added s Hs. destruct (H start rc added s Hs) as [-> ?].
  by destruct (H' start rc added s Hs) as [-> ?].
Qed.

(** ** The invariant *)

Definition sorted_by (f : nat -> option K) (l : list nat) : Prop :=
  StronglySorted (not_greater (cmp_on f compare)) l.

(** Between operations, the content holds the items of the source in key order. *)
Record proxy_ok (s : proxy) : Prop := {
  ok_idle : sup s = false;
  ok_content_observed : contentObserved s = true;
  ok_source_observed : sourceObserved s = true;
  ok_nodup : NoDup (source s);
  ok_perm : content s ≡ₚ source s;
  ok_items : forall o, o ∈ source s -> is_Some (store s !! o);
  ok_sorted : sorted_by (get_key s) (content s)
}.

(** Same keys, whatever the observers. *)
Definition same_keys (s s' : proxy) : Prop :=
  forall o, get_key s' o = get_key s o /\ (is_Some (store s' !! o) <-> is_Some (store s !! o)).

Lemma same_keys_refl s : same_keys s s.
Proof. done. Qed.

Lemma same_keys_trans s1 s2 s3 : same_keys s1 s2 -> same_keys s2 s3 -> same_keys s1 s3.
Proof. intros H1 H2 o. destruct (H1 o) as [A B], (H2 o) as [C D]. split; [congruence|]. by rewrite D. Qed.

Lemma sorted_by_ext (f g : nat -> option K) l :
  (forall o, f o = g o) -> sorted_by f l -> sorted_by g l.
Proof.
  intros H. apply StronglySorted_mono. intros x y. unfold not_greater, cmp_on. by rewrite !H.
Qed.

Lemma alter_same_keys f o s :
  (forall it, key (f it) = key it) -> same_keys s (set_store (alter f o (store s)) s).
Proof.
  intros Hf o'. unfold get_key, key_of. simpl. rewrite lookup_alter. case_decide; [|done].
  subst. destruct (store s !! o') as [it|]; simpl; [|done]. rewrite Hf. split; [done|].
  split; by eexists.
Qed.

Lemma add_same_keys o s : same_keys s (_addSortIndexObserverAndRegisterForRemoval o s).
Proof. by apply alter_same_keys. Qed.

Lemma remove_same_keys o s : same_keys s (_removeSortIndexObserverFor o s).
Proof. apply alter_same_keys. intros it. by destruct (observerKey it). Qed.

(** Everything but the observers of the items. *)
Definition same_arrays (s s' : proxy) : Prop :=
  source s' = source s /\ content s' = content s /\ sup s' = sup s /\
  contentObserved s' = contentObserved s /\ sourceObserved s' = sourceObserved s.

Lemma foldl_observers (f : nat -> proxy -> proxy) l s :
  (forall o s, same_keys s (f o s) /\ same_arrays s (f o s)) ->
  same_keys s (foldl (fun s o => f o s) s l) /\ same_arrays s (foldl (fun s o => f o s) s l).
Proof.
  intros Hf. revert s. induction l as [|o l IH]; intros s; simpl; [done|].
  destruct (Hf o s) as [H1 (A1 & B1 & C1 & D1 & E1)].
  destruct (IH (f o s)) as [H2 (A2 & B2 & C2 & D2 & E2)].
  split; [by eapply same_keys_trans|]. unfold same_arrays. by rewrite A2, B2, C2, D2, E2.
Qed.

Lemma foldl_add l s :
  same_keys s (foldl (fun s o => _addSortIndexObserverAndRegisterForRemoval o s) s l) /\
  same_arrays s (foldl (fun s o => _addSortIndexObserverAndRegisterForRemoval o s) s l).
Proof. apply foldl_observers. intros o s'. split; [apply add_same_keys|done]. Qed.

(** [removeObject] on the raw content. *)
Lemma removeObject_raw o n s :
  n <= length (content s) ->
  removeObject_loop content raw_content o n s =
  set_content (array_removeObject o (take n (content s)) ++ drop n (content s)) s.
Proof.
  revert s. induction n as [|loc IH]; intros s Hn.
  - simpl. by destruct s.
  - destruct (lookup_lt_is_Some_2 (content s) loc) as [x Hx]; [lia|].
    cbn [removeObject_loop]. rewrite (take_S_r _ _ x Hx). unfold array_removeObject.
    rewrite filter_app, filter_cons, Hx.
    rewrite (decide_ext (Some x = Some o) (x = o)) by (split; congruence).
    destruct (decide (x = o)) as [->|Hne].
    + rewrite decide_False by (intros H; by apply H). rewrite IH.
      * unfold raw_content, array_replace, array_removeObject. simpl.
        rewrite take_app_le by (rewrite length_take; lia). rewrite take_take, Nat.min_id.
        rewrite drop_app_length' by (rewrite length_take; lia).
        rewrite app_nil_r. by rewrite Nat.add_1_r.
      * unfold raw_content, array_replace. simpl. rewrite length_app, length_take, length_drop. lia.
    + rewrite decide_True by done. rewrite IH by lia. f_equal.
      unfold array_removeObject. rewrite <- app_assoc. simpl. by rewrite (drop_S _ x).
Qed.

Lemma content_removeObject_sup cr o s :
  agree cr raw_content -> sup s = true ->
  content_removeObject cr o s = set_content (array_removeObject o (content s)) s.
Proof.
  intros Hcr Hs. unfold content_removeObject.
  destruct (removeObject_loop_agree content cr raw_content o (length (content s)) s Hcr Hs) as [-> _].
  rewrite removeObject_raw by done. by rewrite take_ge, drop_ge, app_nil_r by lia.
Qed.

Lemma remove_loop cr l s :
  agree cr raw_content -> sup s = true ->
  let s' := foldl (fun s o => _removeSortIndexObserverFor o (content_removeObject cr o s)) s l in
  same_keys s s' /\ source s' = source s /\ content s' = filter (fun o => o ∉ l) (content s) /\
  sup s' = true /\ contentObserved s' = contentObserved s /\ sourceObserved s' = sourceObserved s.
Proof.
  intros Hcr. revert s. induction l as [|o l IH]; intros s Hs; cbn [foldl].
  - split_and!; try done. symmetry. rewrite list_filter_all; [done|].
    apply Forall_true. set_solver.
  - rewrite content_removeObject_sup by done.
    set (s1 := _removeSortIndexObserverFor o (set_content _ s)).
    destruct (IH s1) as (A & B & C & D & E & F); [done|]. split_and!; try done.
    + eapply same_keys_trans; [|exact A].
      exact (remove_same_keys o (set_content (array_removeObject o (content s)) s)).
    + rewrite C. unfold s1. simpl. unfold array_removeObject. rewrite list_filter_filter.
      apply list_filter_iff. intros x. rewrite not_elem_of_cons. naive_solver.
Qed.

(** What [_sourceArrayWillChange] does: the removed items leave the content. *)
Lemma sourceWill_spec cr start rc s :
  agree cr raw_content -> proxy_ok s -> start + rc <= length (source s) ->
  let s' := _sourceArrayWillChange cr start rc s in
  same_keys s s' /\ source s' = source s /\
  content s' = filter (fun o => o ∉ take rc (drop start (source s))) (content s) /\
  sup s' = false /\ contentObserved s' = true /\ sourceObserved s' = true.
Proof.
  intros Hcr [Hidle Hco Hso Hnd Hperm Hitems Hsort] Hlen.
  unfold _sourceArrayWillChange, _withObserversSuppressed. rewrite Hidle.
  destruct ((start =? 0) && (rc =? length (content (set_suppress true s)))) eqn:Emass.
  - apply andb_true_iff in Emass as [E1%Nat.eqb_eq E2%Nat.eqb_eq]. subst start. simpl in E2.
    destruct (Hcr 0 rc [] (set_suppress true s)) as [-> _]; [done|].
    assert (content (raw_content 0 rc [] (set_suppress true s)) = []) as ->.
    { simpl. unfold array_replace. simpl. by rewrite drop_ge by lia. }
    simpl. split_and!; try done. unfold array_replace. simpl. rewrite drop_ge by lia.
    rewrite drop_0, take_ge by (rewrite <- (Permutation_length Hperm); lia).
    symmetry. apply list_filter_none, Forall_forall. intros o Ho Hn. apply Hn. by rewrite <- Hperm.
  - rewrite for_range_foldl.
    destruct (remove_loop cr (take rc (drop start (source (set_suppress true s))))
      (set_suppress true s) Hcr eq_refl) as (A & B & C & D & E & F).
    split_and!; [exact A|exact B|exact C|done|exact (eq_trans E Hco)|exact (eq_trans F Hso)].
Qed.

(** What [_sourceArrayDidChange] does: the added items join the content, sorted. *)
Lemma sourceDid_spec cr start added s :
  agree cr raw_content -> sup s = false ->
  take (length added) (drop start (source s)) = added ->
  let s' := _sourceArrayDidChange cr start (length added) s in
  same_keys s s' /\ source s' = source s /\
  content s' = (if 0 <? length added then js_sort (order s) (content s ++ added) else content s) /\
  sup s' = false /\ contentObserved s' = contentObserved s /\ sourceObserved s' = sourceObserved s.
Proof.
  intros Hcr Hidle Hadd. unfold _sourceArrayDidChange. rewrite Hadd.
  destruct (0 <? length added); [|by split_and!].
  rewrite for_range_foldl, Hadd.
  destruct (foldl_add added s) as [A (B & C & D & E & F)].
  set (s1 := foldl _ s added) in *. unfold _sortAndReplaceContent, _withObserversSuppressed.
  rewrite D, Hidle.
  match goal with |- context [cr 0 ?n ?l (set_suppress true s1)] =>
    destruct (Hcr 0 n l (set_suppress true s1) eq_refl) as [-> _] end.
  simpl. split_and!; try done. unfold array_replace. simpl.
  rewrite drop_ge, app_nil_r by done. unfold _sort.
  assert (Hext : forall x y, order s1 x y = order s x y).
  { intros x y. unfold order, cmp_on. by rewrite (proj1 (A x)), (proj1 (A y)). }
  clear -Hext. unfold js_sort. 
  assert (Hins : forall x l, js_insert (order s1) x l = js_insert (order s) x l).
  { intros x l. induction l as [|y l IH]; simpl; [done|]. by rewrite Hext, IH. }
  generalize (@nil nat). induction (content s ++ added) as [|x l IH]; intros acc; simpl; [done|].
  by rewrite Hins, IH.
Qed.

Lemma source_replace_unfold n start rc added s :
  sourceObserved s = true ->
  sourceObserved (_sourceArrayWillChange (replacers n).1 start rc s) = true ->
  (replacers (S n)).2 start rc added s =
  _sourceArrayDidChange (replacers n).1 start (length added)
    (raw_source start rc added (_sourceArrayWillChange (replacers n).1 start rc s)).
Proof.
  intros H1 H2. cbn [replacers].
  destruct (replacers n) as [cr sr]. cbn [fst snd] in *. rewrite H1.
  change (sourceObserved (raw_source ?a ?b ?c ?x)) with (sourceObserved x). by rewrite H2.
Qed.

Lemma sorted_by_filter f (P : nat -> Prop) `{!forall o, Decision (P o)} l :
  sorted_by f l -> sorted_by f (filter P l).
Proof. apply StronglySorted_filter. Qed.

Lemma filter_middle (a b c : list nat) :
  NoDup (a ++ b ++ c) -> filter (fun o => o ∉ b) (a ++ b ++ c) = a ++ c.
Proof.
  rewrite !NoDup_app, !filter_app. intros (_ & Hd1 & _ & Hd2 & _).
  rewrite (list_filter_all _ a), (list_filter_none _ b), (list_filter_all _ c); [done|..];
    apply Forall_forall; intros o Ho Hn.
  - by apply (Hd2 o).
  - done.
  - apply (Hd1 o Ho). set_solver.
Qed.

(** The content without the removed items, against the source without them. *)
Lemma removed_perm start rc (c l : list nat) :
  NoDup l -> c ≡ₚ l ->
  filter (fun o => o ∉ take rc (drop start l)) c ≡ₚ take start l ++ drop (start + rc) l.
Proof.
  intros Hnd ->.
  assert (Hl : l = take start l ++ take rc (drop start l) ++ drop (start + rc) l).
  { rewrite <- drop_drop. by rewrite !take_drop. }
  set (a := take start l) in *. set (b := take rc (drop start l)) in *.
  set (d := drop (start + rc) l) in *. clearbody a b d. subst l. by rewrite filter_middle.
Qed.

(** However deep the announcements of nested mutations are allowed to go,
    nothing changes beyond two levels: the flag [_suppressObservers] stops the
    observers from calling each other for ever. *)
Theorem replacers_depth n start rc added s :
  (replacers (2 + n)).1 start rc added s = content_replace start rc added s /\
  (replacers (2 + n)).2 start rc added s = source_replace start rc added s.
Proof.
  unfold content_replace, source_replace.
  assert (Hc : agree (replacers (S n)).1 (replacers 1).1)
    by exact (agree_trans_sym _ _ _ (content_agree_raw (S n)) (content_agree_raw 1)).
  assert (Hs : agree (replacers (S n)).2 (replacers 1).2)
    by exact (agree_trans_sym _ _ _ (source_agree_suppressed n) (source_agree_suppressed 0)).
  cbn [Nat.add]. remember (S n) as k. remember 1 as k'. cbn [replacers].
  destruct (replacers k) as [cr sr], (replacers k') as [cr' sr']. simpl in *.
  split.
  - rewrite (contentWill_agree sr sr') by done. by rewrite (contentDid_agree cr cr' sr sr').
  - rewrite (sourceWill_agree cr cr') by done. by rewrite (sourceDid_agree cr cr').
Qed.

(** ** Reassigning keys *)
Definition with_key (k : option K) (it : item) : item :=
  Item k (lastPosition it) (observers it) (observerKey it).
Definition assign (l : list (nat * option K)) (m : gmap nat item) : gmap nat item :=
  foldl (fun m oi => alter (with_key oi.2) oi.1 m) m l.

Lemma set_key_sup cr o k s :
  sup s = true -> set_key cr o k s = set_store (alter (with_key k) o (store s)) s.
Proof.
  intros Hs.
  assert (Hid : forall f, (forall it, store s !! o = Some it -> f it = it) -> alter f o (store s) = store s).
  { intros f Hf. apply map_eq. intros o'. rewrite lookup_alter. case_decide; [|done]. subst.
    destruct (store s !! o') as [it|]; simpl; [|done]. by rewrite Hf. }
  unfold set_key. destruct (store s !! o) as [it|] eqn:Ho.
  - case_decide as Hk.
    + rewrite Hid; [by destruct s|]. intros it' [= <-]. destruct it. simpl in *. by subst.
    + assert (alter (with_key k) o (store s) =
        <[o:=Item k (lastPosition it) (observers it) (observerKey it)]> (store s)) as ->.
      { apply map_eq. intros o'. rewrite lookup_alter, lookup_insert. case_decide; [|done].
        subst. by rewrite Ho. }
      generalize (observers it) at 1. intros n. induction n as [|n IH]; [done|]. simpl. rewrite IH.
      unfold _indexChanged. destruct (store (set_store _ s) !! o); [|done]. simpl. by rewrite Hs, orb_true_r.
  - rewrite Hid; [by destruct s|done].
Qed.

Lemma assign_keys_sup cr l s :
  sup s = true ->
  foldl (fun s oi => set_key cr oi.1 oi.2 s) s l = set_store (assign l (store s)) s.
Proof.
  revert s. induction l as [|[o k] l IH]; simpl; intros s Hs; [by destruct s|].
  rewrite set_key_sup by done. by rewrite IH.
Qed.

Lemma key_of_alter o k m o' :
  is_Some (m !! o) -> key_of (alter (with_key k) o m) o' = if decide (o = o') then k else key_of m o'.
Proof.
  intros [it Hit]. unfold key_of. rewrite lookup_alter. case_decide; [|done]. subst. by rewrite Hit.
Qed.

Lemma assign_is_Some l m o : is_Some (assign l m !! o) <-> is_Some (m !! o).
Proof.
  revert m. induction l as [|[o' k] l IH]; intros m; [done|]. simpl. rewrite IH, lookup_alter.
  case_decide; [|done]. subst. by rewrite fmap_is_Some.
Qed.

Lemma assign_keys arr ks m :
  NoDup arr -> length ks = length arr -> (forall o, o ∈ arr -> is_Some (m !! o)) ->
  key_of (assign (zip arr ks) m) <$> arr = ks /\
  (forall o, o ∉ arr -> key_of (assign (zip arr ks) m) o = key_of m o).
Proof.
  intros Hnd. revert ks m. induction Hnd as [|o arr Ho Hnd IH]; intros [|k ks] m Hl Hin; try done.
  simpl in Hl. destruct (IH ks (alter (with_key k) o m)) as [E1 E2]; [lia| |].
  { intros o' Ho'. rewrite lookup_alter. case_decide; [subst; by apply fmap_is_Some, Hin; left|].
    apply Hin. by right. }
  assert (Hi : is_Some (m !! o)) by (apply Hin; left).
  change (assign (zip (o :: arr) (k :: ks)) m) with (assign (zip arr ks) (alter (with_key k) o m)).
  split.
  - rewrite fmap_cons. f_equal; [|done]. rewrite E2 by done. rewrite key_of_alter by done.
    by rewrite decide_True.
  - intros o' Ho'. rewrite E2 by set_solver. rewrite key_of_alter by done.
    rewrite decide_False; [done|set_solver].
Qed.

Lemma length_fill_keys prev keys : length (fill_keys prev keys) = length keys.
Proof. revert prev. induction keys as [|[k|] keys IH]; simpl; intros prev; [done|f_equal; apply IH..]. Qed.

Lemma fill_keys_all prev keys : Forall is_Some keys -> Some <$> fill_keys prev keys = keys.
Proof.
  intros H. revert prev. induction H as [|k keys [k' ->] H IH]; intros prev; [done|].
  cbn [fill_keys]. rewrite fmap_cons. by rewrite IH.
Qed.

Lemma length_new_keys s arr : length (new_keys s arr) = length arr.
Proof. unfold new_keys. by rewrite length_js_sort, length_fmap, length_fill_keys, length_fmap. Qed.

(** What [_reAssignSortKeys] does under suppression. *)
Lemma reassign_spec cr arr s :
  sup s = true -> NoDup arr -> (forall o, o ∈ arr -> is_Some (store s !! o)) ->
  let s' := _reAssignSortKeys cr arr s in
  same_arrays s s' /\ get_key s' <$> arr = new_keys s arr /\
  (forall o, is_Some (store s' !! o) <-> is_Some (store s !! o)).
Proof.
  intros Hs Hnd Hin. unfold _reAssignSortKeys. rewrite assign_keys_sup by done.
  split; [done|]. split.
  - exact (proj1 (assign_keys arr _ (store s) Hnd (length_new_keys s arr) Hin)).
  - intros o. apply assign_is_Some.
Qed.

Section lawful.
Context `{!Comparator compare}.

Lemma order_lawful s : Comparator (order s).
Proof. apply _. Qed.

(** C4. Whatever part of the source is replaced by new items, the content is again
    the source in key order: removed items are gone from it, added ones are at
    their sorted place, and the proxy has not touched the source itself. *)
Theorem source_replace_ok start rc added s :
  proxy_ok s -> start + rc <= length (source s) ->
  NoDup added -> (forall o, o ∈ added -> o ∉ source s /\ is_Some (store s !! o)) ->
  proxy_ok (source_replace start rc added s) /\
  source (source_replace start rc added s) = array_replace start rc added (source s) /\
  same_keys s (source_replace start rc added s).
Proof.
  intros Hok Hlen Hnd Hadd. pose proof Hok as [Hidle Hco Hso Hnds Hperm Hitems Hsort].
  pose proof (content_agree_raw 1) as Hcr.
  destruct (sourceWill_spec _ start rc s Hcr Hok Hlen) as (K1 & S1 & C1 & D1 & E1 & F1).
  unfold source_replace. rewrite source_replace_unfold by done.
  set (s1 := _sourceArrayWillChange _ start rc s) in *.
  destruct (sourceDid_spec (replacers 1).1 start added (raw_source start rc added s1))
    as (K2 & S2 & C2 & D2 & E2 & F2); [done|exact D1|simpl; apply take_drop_replaced; rewrite S1; lia|].
  set (s3 := _sourceArrayDidChange _ start _ _) in *. simpl in S2, C2, E2, F2. rewrite S1 in S2.
  assert (Hkeys : same_keys s s3) by (by eapply same_keys_trans).
  assert (Hp : content s3 ≡ₚ source s3).
  { rewrite C2, S2, C1. pose proof (removed_perm start rc _ _ Hnds Hperm) as Hr.
    unfold array_replace. destruct added as [|o added]; simpl; [done|].
    rewrite js_sort_perm, Hr, <- app_assoc. apply Permutation_app_head, Permutation_app_comm. }
  assert (Hout : forall o, o ∈ source s3 -> o ∈ source s \/ o ∈ added).
  { intros o. rewrite S2. unfold array_replace. rewrite !elem_of_app.
    intros [H|[H|H]]; [left|by right|left].
    - by apply (subseteq_take start).
    - by apply (subseteq_drop (start + rc)). }
  split; [|by split]. constructor; try done.
  - by rewrite E2.
  - by rewrite F2.
  - rewrite S2. unfold array_replace. eapply NoDup_replace; [done|done|]. intros o Ho. by apply Hadd.
  - intros o Ho. apply (proj2 (Hkeys o)). destruct (Hout o Ho); [by apply Hitems|by apply Hadd].
  - rewrite C2. destruct (0 <? length added).
    + eapply sorted_by_ext; [|exact (js_sort_sorted (order (raw_source start rc added s1)) _)].
      intros o. simpl. by rewrite (proj1 (K2 o)).
    + rewrite C1. eapply sorted_by_ext; [|apply sorted_by_filter, Hsort].
      intros o. by rewrite (proj1 (Hkeys o)).
Qed.

(** Keys handed out by [_reAssignSortKeys] put the array in order. *)
Lemma reassigned_sorted s' s arr :
  get_key s' <$> arr = new_keys s arr -> sorted_by (get_key s') arr.
Proof.
  intros H. unfold sorted_by. apply (StronglySorted_map (get_key s') (not_greater compare)).
  rewrite H. exact (js_sort_sorted compare _).
Qed.

Lemma new_keys_perm s arr :
  (forall o, o ∈ arr -> is_Some (get_key s o)) -> new_keys s arr ≡ₚ get_key s <$> arr.
Proof.
  intros H. unfold new_keys. rewrite js_sort_perm, fill_keys_all; [done|].
  apply Forall_fmap, Forall_forall. exact H.
Qed.

Lemma move_perm i j o (l : list nat) :
  l !! i = Some o -> array_insertAt j o (array_removeAt i l) ≡ₚ l.
Proof.
  intros Hi. unfold array_insertAt, array_removeAt, array_replace. simpl.
  rewrite Nat.add_0_r, Nat.add_1_r.
  assert (Hl : o :: (take i l ++ drop (S i) l) ≡ₚ l).
  { rewrite Permutation_middle. by rewrite take_drop_middle. }
  etransitivity; [|exact Hl]. set (r := take i l ++ drop (S i) l).
  rewrite <- Permutation_middle. by rewrite take_drop.
Qed.

(** The move protocol (startMoving, removeAt, insertAt, endMoving): the
    content is rearranged as asked, the source array is not written at all, the
    keys are handed out again so that they follow the new order, and when every
    item has a key they are the same keys as before. *)
Theorem move_ok i j o s :
  proxy_ok s -> content s !! i = Some o ->
  let s' := move i j s in
  proxy_ok s' /\ source s' = source s /\
  content s' = array_insertAt j o (array_removeAt i (content s)) /\
  ((forall x, x ∈ content s -> is_Some (get_key s x)) ->
   get_key s' <$> content s' ≡ₚ get_key s <$> content s).
Proof.
  intros [Hidle Hco Hso Hnd Hperm Hitems Hsort] Hi. unfold move. rewrite Hi.
  set (s1 := content_replace j 0 [o] _).
  assert (s1 = set_content (array_insertAt j o (array_removeAt i (content s))) (set_suppress true s)) as ->.
  { unfold s1, content_replace.
    destruct (content_agree_raw 2 i 1 [] (startMoving s)) as [-> H1]; [done|].
    by destruct (content_agree_raw 2 j 0 [o] _ H1) as [-> _]. }
  pose proof (move_perm i j o _ Hi) as Hmp. set (arr := array_insertAt j o _) in *.
  unfold endMoving, _withObserversSuppressed. simpl.
  set (s2 := set_suppress true _).
  destruct (reassign_spec content_replace arr s2) as ((A & B & C & D & E) & Hk & Hst); [done| | |].
  - by rewrite Hmp, Hperm.
  - intros x Hx. apply Hitems. by rewrite <- Hperm, <- Hmp.
  - change (content s2) with arr. set (s3 := _reAssignSortKeys _ _ _) in *. simpl in *. split_and!.
    + constructor; simpl; [done|congruence|congruence|by rewrite A| | |].
      * by rewrite A, B, Hmp.
      * intros x. rewrite A. intros Hx. apply Hst. by apply Hitems.
      * rewrite B. by apply (reassigned_sorted s3 s2).
    + done.
    + done.
    + intros Hkeys. rewrite B. change (get_key (set_suppress false s3)) with (get_key s3).
      rewrite Hk, new_keys_perm; [by rewrite Hmp|]. intros x Hx. apply (Hkeys x). by rewrite <- Hmp.
Qed.

(** Announcing the insertion of one item into the content. *)
Lemma content_insert_unfold j o s :
  sup s = false -> contentObserved s = true -> j <= length (content s) ->
  content_replace j 0 [o] s =
  set_suppress false
    (let s1 := _reAssignSortKeys (replacers 1).1 (array_insertAt j o (content s))
                 (set_suppress true (set_content (array_insertAt j o (content s)) s)) in
     let s2 := _addSortIndexObserverAndRegisterForRemoval o s1 in
     (replacers 1).2 (length (source s2)) 0 [o] s2).
Proof.
  intros Hidle Hco Hj. unfold content_replace. 
  change (replacers 2) with (let '(cr, sr) := replacers 1 in
      ((fun start rc added s =>
          let s1 := if contentObserved s then _contentArrayWillChange sr start rc s else s in
          let s2 := raw_content start rc added s1 in
          if contentObserved s2 then _contentArrayDidChange cr sr start (length added) s2 else s2),
       (fun start rc added s =>
          let s1 := if sourceObserved s then _sourceArrayWillChange cr start rc s else s in
          let s2 := raw_source start rc added s1 in
          if sourceObserved s2 then _sourceArrayDidChange cr start (length added) s2 else s2))).
  destruct (replacers 1) as [cr sr]. cbn [fst snd]. rewrite Hco.
  assert (_contentArrayWillChange sr j 0 s = s) as ->.
  { unfold _contentArrayWillChange, _withObserversSuppressed. rewrite Hidle.
    destruct s. simpl in *. by subst. }
  change (contentObserved (raw_content j 0 [o] s)) with (contentObserved s). rewrite Hco.
  unfold _contentArrayDidChange, _withObserversSuppressed. simpl (0 <? _).
  change (sup (raw_content j 0 [o] s)) with (sup s). rewrite Hidle. f_equal.
  rewrite for_range_foldl.
  set (s1 := _reAssignSortKeys cr _ _).
  assert (content s1 = array_insertAt j o (content s)) as ->.
  { unfold s1, _reAssignSortKeys. by rewrite assign_keys_sup by done. }
  unfold array_insertAt. rewrite (take_drop_replaced j 0 [o]) by done. done.
Qed.

(** Inserting an item into the proxy adds it to the end of the source and
    gives it a key that fits its place; the proxy stays in order. *)
Theorem content_insert_ok j o s :
  proxy_ok s -> o ∉ source s -> is_Some (store s !! o) -> j <= length (content s) ->
  let s' := content_replace j 0 [o] s in
  proxy_ok s' /\ source s' = source s ++ [o] /\ content s' = array_insertAt j o (content s).
Proof.
  intros [Hidle Hco Hso Hnd Hperm Hitems Hsort] Ho Hst Hj. cbv zeta.
  rewrite content_insert_unfold by done. set (arr := array_insertAt j o (content s)).
  assert (Harr : arr ≡ₚ o :: source s).
  { unfold arr, array_insertAt, array_replace. rewrite Nat.add_0_r. simpl.
    by rewrite <- Permutation_middle, take_drop, Hperm. }
  set (s0 := set_suppress true _).
  destruct (reassign_spec (replacers 1).1 arr s0) as ((A & B & C & D & E) & Hk & Hx); [done| | |].
  { rewrite Harr. by constructor. }
  { intros x. rewrite Harr. intros [->|Hx]%elem_of_cons; [done|by apply Hitems]. }
  set (s1 := _reAssignSortKeys _ _ _) in *. cbv zeta.
  set (s2 := _addSortIndexObserverAndRegisterForRemoval o s1).
  assert (H2 : sup s2 = true) by exact C.
  destruct (source_agree_suppressed 0 (length (source s2)) 0 [o] s2 H2) as [-> _].
  unfold suppressed_source. change (sourceObserved s2) with (sourceObserved s1).
  rewrite E. change (sourceObserved s0) with (sourceObserved s). rewrite Hso. simpl (true && _).
  cbv iota. rewrite for_range_foldl.
  change (source s2) with (source s1). rewrite A. change (source s0) with (source s).
  assert (Hsrc : source (raw_source (length (source s)) 0 [o] s2) = source s ++ [o]).
  { simpl. rewrite A. simpl. unfold array_replace. by rewrite Nat.add_0_r, firstn_all, drop_all, app_nil_r. }
  destruct (foldl_add (take (length [o]) (drop (length (source s)) (source (raw_source (length (source s)) 0 [o] s2))))
    (raw_source (length (source s)) 0 [o] s2)) as [K1 (A1 & B1 & C1 & D1 & E1)].
  set (s3 := foldl _ _ _) in *.
  assert (Hkeys : same_keys s1 s3).
  { eapply same_keys_trans; [apply (add_same_keys o)|]. exact K1. }
  assert (Hcont : content s3 = arr) by (rewrite B1; simpl; rewrite B; done).
  simpl. rewrite A1, Hsrc, Hcont. split; [|done]. constructor; simpl; try done.
  - rewrite D1. simpl. by rewrite D.
  - rewrite E1. simpl. by rewrite E.
  - rewrite A1, Hsrc. apply NoDup_app. split_and!; [done| |apply NoDup_singleton]. set_solver.
  - rewrite Hcont, A1, Hsrc, Harr. apply Permutation_cons_append.
  - rewrite A1, Hsrc. intros x Hin. apply (proj2 (Hkeys x)), Hx.
    apply elem_of_app in Hin as [Hin| ->%list_elem_of_singleton]; [by apply Hitems|done].
  - rewrite Hcont. eapply sorted_by_ext; [|by apply (reassigned_sorted s1 s0)].
    intros x. exact (eq_sym (proj1 (Hkeys x))).
Qed.

(** A new proxy shows its source in key order. *)
Lemma create_ok m l :
  NoDup l -> (forall o, o ∈ l -> is_Some (m !! o)) ->
  proxy_ok (create m l) /\ source (create m l) = l.
Proof.
  intros Hnd Hm. unfold create, _sourceDidChange. cbv zeta.
  set (s0 := Proxy m l [] false false false).
  assert (content_replace 0 (length (content s0)) (_sort (source s0) s0) s0 =
    set_content (_sort l s0) s0) as ->.
  { unfold content_replace, s0. simpl. unfold raw_content, array_replace. simpl. by rewrite app_nil_r. }
  destruct (foldl_add (content (set_content (_sort l s0) s0)) (set_content (_sort l s0) s0))
    as [Hk (A & B & C & D & E)].
  set (s1 := foldl _ _ _) in *. simpl in *. split; [|done]. constructor; simpl; try done.
  - by rewrite A.
  - rewrite A, B. apply js_sort_perm.
  - intros o. rewrite A. intros Ho. apply (proj2 (Hk o)). simpl. by apply Hm.
  - rewrite B. eapply sorted_by_ext; [|exact (js_sort_sorted (order s0) l)].
    intros o. exact (eq_sym (proj1 (Hk o))).
Qed.

(** When every item is removed from the source at once, the content is
    emptied before the items are walked to remove their observers, so no item is
    visited: the store of items, observers included, is left as it was. *)
Theorem mass_removal_keeps_observers s :
  proxy_ok s ->
  let s' := source_replace 0 (length (source s)) [] s in
  source s' = [] /\ content s' = [] /\ store s' = store s.
Proof.
  intros Hok. pose proof Hok as [Hidle Hco Hso Hnd Hperm Hitems Hsort]. cbv zeta.
  unfold source_replace.
  assert (Hw : forall n, _sourceArrayWillChange (replacers n).1 0 (length (source s)) s = set_content [] s).
  { intros n. unfold _sourceArrayWillChange, _withObserversSuppressed. rewrite Hidle. simpl.
    rewrite (Permutation_length Hperm), Nat.eqb_refl.
    destruct (content_agree_raw n 0 (length (source s)) [] (set_suppress true s)) as [-> _]; [done|].
    assert (content (raw_content 0 (length (source s)) [] (set_suppress true s)) = []) as ->.
    { simpl. unfold array_replace. simpl. apply drop_ge. by rewrite (Permutation_length Hperm). }
    unfold raw_content, array_replace. simpl.
    rewrite drop_ge by (by rewrite (Permutation_length Hperm)).
    destruct s. simpl in *. by subst. }
  rewrite source_replace_unfold; [|done|by rewrite Hw].
  rewrite Hw. simpl. unfold array_replace. simpl. by rewrite drop_all.
Qed.

End lawful.

End proxy.

(** ** Witnesses and concrete runs *)
Definition ex_cmp (a b : option Z) : Z :=
  match a, b with
  | Some x, Some y => cmp_Z x y
  | None, Some _ => -1
  | Some _, None => 1
  | None, None => 0
  end.

Lemma ex_cmp_lawful : Comparator ex_cmp.
Proof.
  split.
  - intros [x|] [y|]; simpl; unfold cmp_Z; lia.
  - intros [x|] [y|] [z|]; simpl; unfold cmp_Z; lia.
Defined.

Definition ex_item (k : option Z) : item := Item k None 0 false.
Definition ex_store : gmap nat (@item Z) :=
  list_to_map [(1, ex_item (Some 5%Z)); (2, ex_item (Some 3%Z)); (3, ex_item (Some 4%Z)); (4, ex_item None)].
Definition ex_proxy : @proxy Z := create 0%Z ex_cmp ex_store [1; 2; 3].

Lemma ex_proxy_ok : proxy_ok ex_cmp ex_proxy.
Proof.
  assert (Comparator ex_cmp) by exact ex_cmp_lawful.
  apply (create_ok 0%Z ex_cmp ex_store [1; 2; 3]).
  - repeat constructor; set_solver.
  - intros o Ho. repeat (apply elem_of_cons in Ho as [->|Ho]; [by eexists|]). by apply elem_of_nil in Ho.
Defined.

Lemma source_replace_ok_witness :
  let s' := source_replace 0%Z ex_cmp 1 1 [4] ex_proxy in
  proxy_ok ex_cmp s' /\ source s' = array_replace 1 1 [4] (source ex_proxy) /\ same_keys ex_proxy s'.
Proof.
  assert (Comparator ex_cmp) by exact ex_cmp_lawful.
  apply (source_replace_ok 0%Z ex_cmp 1 1 [4] ex_proxy).
  - exact ex_proxy_ok.
  - vm_compute; lia.
  - repeat constructor; set_solver.
  - intros o ->%list_elem_of_singleton. vm_compute. split; [set_solver|by eexists].
Defined.

Lemma move_ok_witness :
  let s' := move 0%Z ex_cmp 0 2 ex_proxy in
  proxy_ok ex_cmp s' /\ source s' = source ex_proxy /\
  content s' = array_insertAt 2 2 (array_removeAt 0 (content ex_proxy)) /\
  ((forall x, x ∈ content ex_proxy -> is_Some (get_key ex_proxy x)) ->
   get_key s' <$> content s' ≡ₚ get_key ex_proxy <$> content ex_proxy).
Proof.
  assert (Comparator ex_cmp) by exact ex_cmp_lawful.
  apply (move_ok 0%Z ex_cmp 0 2 2 ex_proxy); [exact ex_proxy_ok|vm_compute; reflexivity].
Defined.

Lemma content_insert_ok_witness :
  let s' := content_replace 0%Z ex_cmp 1 0 [4] ex_proxy in
  proxy_ok ex_cmp s' /\ source s' = source ex_proxy ++ [4] /\
  content s' = array_insertAt 1 4 (content ex_proxy).
Proof.
  assert (Comparator ex_cmp) by exact ex_cmp_lawful.
  apply (content_insert_ok 0%Z ex_cmp 1 4 ex_proxy).
  - exact ex_proxy_ok.
  - vm_compute. set_solver.
  - vm_compute. by eexists.
  - vm_compute. lia.
Defined.

Lemma mass_removal_keeps_observers_witness :
  let s' := source_replace 0%Z ex_cmp 0 (length (source ex_proxy)) [] ex_proxy in
  source s' = [] /\ content s' = [] /\ store s' = store ex_proxy.
Proof. apply (mass_removal_keeps_observers 0%Z ex_cmp ex_proxy), ex_proxy_ok. Defined.

(** A key that changes and changes back: [lastPosition] still holds the old value,
    so the second change is taken for no change and the content stays in the order
    of the first. *)
Lemma key_restored_not_resorted :
  let s := change_key 0%Z ex_cmp 1 (Some 5%Z) (change_key 0%Z ex_cmp 1 (Some 1%Z) ex_proxy) in
  content s = [1; 2; 3] /\ get_key s <$> content s = [Some 5%Z; Some 3%Z; Some 4%Z] /\
  content ex_proxy = [2; 3; 1] /\ get_key s <$> [1; 2; 3; 4] = get_key ex_proxy <$> [1; 2; 3; 4].
Proof. vm_compute. split_and!; reflexivity. Qed.

(** Giving an existing proxy another source: the content observers take the refill
    of the content for an edit and write it back into the new source. *)
Lemma set_source_rewrites_the_source :
  let s := set_source 0%Z ex_cmp [1; 4] ex_proxy in
  source s = [4; 4; 1] /\ content s = [4; 1].
Proof. vm_compute. split; reflexivity. Qed.

(** Inserting into the proxy registers the observer of the new item twice, and
    removing the item takes only one of them away. *)
Lemma insert_registers_twice :
  let s := content_replace 0%Z ex_cmp 1 0 [4] ex_proxy in
  (observers <$> store s !! 4) = Some 2 /\
  (observers <$> store (source_replace 0%Z ex_cmp 3 1 [] s) !! 4) = Some 1.
Proof. vm_compute. split; reflexivity. Qed.
