(* ===== verification/TableAdapter.v ===== *)
(** * The header rows of a table ([utils/table_view_content_adapter.js])

    [columnHeaderRows] and [rowHeaderRows] lay the header trees out as rows of
    cells with their spans.  Headers are shared objects: the rows hold references
    and the attributes [depth], [dataIndex], [colspan] and [rowspan] are written
    on the referenced objects, so the model threads a store of attributes next to
    the rows. *)

From S2P Require Import Prelude.

(** ** Data *)

(** A header object: its reference and its [children], if it has any. *)
Inductive hnode : Type :=
| HNode (ref : nat) (children : option (list hnode)).

Definition ref (h : hnode) : nat := let 'HNode o _ := h in o.

Inductive header_type := HColumns | HRows.

(** The attributes [_processHeader] and its callers write on a header. *)
Record attrs := Attrs {
  depth : nat;
  dataIndex : nat;
  colspan : option nat;
  rowspan : option nat
}.

Record hstate := HState {
  headerRows : list (list nat);
  store : gmap nat attrs
}.

Definition with_colspan (n : nat) (a : attrs) : attrs := Attrs (depth a) (dataIndex a) (Some n) (rowspan a).
Definition with_rowspan (n : nat) (a : attrs) : attrs := Attrs (depth a) (dataIndex a) (colspan a) (Some n).

(** ** Operations *)

(** [headerRows[depth].push(header)], after the row is created if need be. *)
Definition push_at (d : nat) (o : nat) (rows : list (list nat)) : list (list nat) :=
  if bool_decide (d < length rows) then alter (.++ [o]) d rows
  else rows ++ replicate (d - length rows) [] ++ [[o]].

(** [if (!isFirst) headerRows.push([]); headerRows[headerRows.length - 1].push(header)] *)
Definition push_row (isFirst : bool) (o : nat) (rows : list (list nat)) : list (list nat) :=
  let rows := if isFirst then rows else rows ++ [[]] in
  alter (.++ [o]) (length rows - 1) rows.

Definition place (type : header_type) (d : nat) (isFirst : bool) (o : nat) (rows : list (list nat)) :=
  match type with
  | HColumns => push_at d o rows
  | HRows => push_row isFirst o rows
  end.

(** The first lines: [depth] and [dataIndex] are written, the header is placed.  An
    earlier pass may have left spans on the object; they stay. *)
Definition enter (type : header_type) (o d : nat) (isFirst : bool) (index : nat) (s : hstate) : hstate :=
  let old := store s !! o in
  HState (place type d isFirst o (headerRows s))
         (<[o := Attrs (S d) index (old ≫= colspan) (old ≫= rowspan)]> (store s)).

(** The last lines: the count of leaves becomes the span. *)
Definition set_span (type : header_type) (o count : nat) (s : hstate) : hstate :=
  HState (headerRows s)
         (alter (match type with HColumns => with_colspan count | HRows => with_rowspan count end) o (store s)).

Fixpoint _processHeader (type : header_type) (h : hnode) (d : nat) (isFirst : bool) (index : nat)
    (s : hstate) {struct h} : hstate * nat :=
  match h with
  | HNode o cs =>
      let s1 := enter type o d isFirst index s in
      let '(s2, count) :=
        match cs with
        | Some children =>
            (fix loop (l : list hnode) (i count : nat) (s : hstate) : hstate * nat :=
               match l with
               | [] => (s, count)
               | child :: l' =>
                   let '(s', n) := _processHeader type child (S d) (i =? 0) index s in
                   loop l' (S i) (count + n) s'
               end) children 0 0 s1
        | None => (s1, 1)
        end in
      (set_span type o count s2, count)
  end.

(** The callers' loop over the top-level headers. *)
Fixpoint process_all (type : header_type) (hs : list hnode) (i : nat) (s : hstate) : hstate :=
  match hs with
  | [] => s
  | h :: hs' =>
      let isFirst := match type with HColumns => false | HRows => i =? 0 end in
      process_all type hs' (S i) (_processHeader type h 0 isFirst i s).1
  end.

(** [mapBy('depth')]; every leaf has been given a depth. *)
Definition depth_of (m : gmap nat attrs) (o : nat) : nat := default 0 (depth <$> m !! o).
Definition maxDepth (m : gmap nat attrs) (leafs : list nat) : nat :=
  foldr max 0 (depth_of m <$> leafs).

Definition leaf_spans (type : header_type) (leafs : list nat) (m : gmap nat attrs) : gmap nat attrs :=
  let md := maxDepth m leafs in
  foldl (fun m o =>
    alter (match type with HColumns => with_rowspan | HRows => with_colspan end
             (md - depth_of m o + 1)) o m) m leafs.

Definition columnHeaderRows (columnHeaders : list hnode) (columnLeafs : list nat) (m : gmap nat attrs) : hstate :=
  let s := process_all HColumns columnHeaders 0 (HState [] m) in
  HState (headerRows s) (leaf_spans HColumns columnLeafs (store s)).

Definition rowHeaderRows (rowHeaders : list hnode) (rowLeafs : list nat) (m : gmap nat attrs) : hstate :=
  let s := process_all HRows rowHeaders 0 (HState [[]] m) in
  HState (headerRows s) (leaf_spans HRows rowLeafs (store s)).

(** ** Specification *)

(** The leaves of a header in order, and all its headers in preorder. *)
Fixpoint leaf_refs (h : hnode) : list nat :=
  match h with
  | HNode o None => [o]
  | HNode o (Some cs) => cs ≫= leaf_refs
  end.

Fixpoint all_refs (h : hnode) : list nat :=
  match h with
  | HNode o None => [o]
  | HNode o (Some cs) => o :: (cs ≫= all_refs)
  end.

Definition set_spans (type : header_type) (along : nat) (a : attrs) : attrs :=
  match type with HColumns => with_colspan along a | HRows => with_rowspan along a end.
Definition span_along (type : header_type) (a : attrs) : nat :=
  default 1 (match type with HColumns => colspan a | HRows => rowspan a end).
Definition span_across (type : header_type) (a : attrs) : nat :=
  default 1 (match type with HColumns => rowspan a | HRows => colspan a end).

(** A cell reaches from its own level over as many levels as it spans. *)
Definition covers (type : header_type) (d : nat) (a : attrs) : bool :=
  bool_decide (depth a <= d < depth a + span_across type a).

(** The width of the cells that cover level [d]. *)
Definition level_width (type : header_type) (d : nat) (m : gmap nat attrs) (refs : list nat) : nat :=
  sum_list ((fun o => match m !! o with
                      | Some a => if covers type d a then span_along type a else 0
                      | None => 0
                      end) <$> refs).

(** Headers at level [k] (from 0). *)
Fixpoint level_refs (k : nat) (h : hnode) {struct h} : list nat :=
  match h, k with
  | HNode o _, 0 => [o]
  | HNode o None, S _ => []
  | HNode o (Some cs), S k => cs ≫= level_refs k
  end.

(** The lines of the row headers: the first child continues its parent's line. *)
Definition glue (l : list nat) (ls : list (list nat)) : list (list nat) :=
  match ls with
  | [] => [l]
  | l' :: ls' => (l ++ l') :: ls'
  end.

Fixpoint row_lines (h : hnode) : list (list nat) :=
  match h with
  | HNode o None => [[o]]
  | HNode o (Some cs) => glue [o] (cs ≫= row_lines)
  end.

(** Every header of the tree at depth [d] and below has been given attributes
    that satisfy [P]. *)
Inductive laid (P : nat -> hnode -> attrs -> Prop) (m : gmap nat attrs) : nat -> hnode -> Prop :=
| laid_node d o cs a :
    m !! o = Some a -> P d (HNode o cs) a ->
    (forall c, c ∈ default [] cs -> laid P m (S d) c) ->
    laid P m d (HNode o cs).

(** A header with a [children] array has children. *)
Inductive bushy : hnode -> Prop :=
| bushy_leaf o : bushy (HNode o None)
| bushy_node o cs : cs <> [] -> (forall c, c ∈ cs -> bushy c) -> bushy (HNode o (Some cs)).

(** ** Lemmas *)

Section hnode_induction.
  Context (P : hnode -> Prop).
  Context (Hleaf : forall o, P (HNode o None)).
  Context (Hnode : forall o cs, (forall c, c ∈ cs -> P c) -> P (HNode o (Some cs))).

Lemma hnode_nested_ind : forall h, P h.
Proof.
  fix IH 1. intros [o [cs|]]; [|apply Hleaf]. apply Hnode.
  enough (H : Forall P cs) by exact (proj1 (Forall_forall P cs) H).
  induction cs as [|c cs IHcs]; constructor; [apply IH|exact IHcs].
Qed.
End hnode_induction.

(** The inner loop of [_processHeader] by name. *)
Fixpoint children_loop (type : header_type) (d index : nat) (l : list hnode) (i count : nat) (s : hstate) : hstate * nat :=
  match l with
  | [] => (s, count)
  | child :: l' =>
      let '(s', n) := _processHeader type child (S d) (i =? 0) index s in
      children_loop type d index l' (S i) (count + n) s'
  end.

Lemma processHeader_node type o cs d f i s :
  _processHeader type (HNode o (Some cs)) d f i s =
  let '(s2, count) := children_loop type d i cs 0 0 (enter type o d f i s) in
  (set_span type o count s2, count).
Proof.
  simpl. set (s1 := enter type o d f i s). clearbody s1.
  enough (forall k count, (fix loop (l : list hnode) (i0 count0 : nat) (s0 : hstate) {struct l} : hstate * nat :=
      match l with
      | [] => (s0, count0)
      | child :: l' => let '(s', n) := _processHeader type child (S d) (i0 =? 0) i s0 in
          loop l' (S i0) (count0 + n) s'
      end) cs k count s1 = children_loop type d i cs k count s1) as -> by done.
  revert s1. induction cs as [|c cs IH]; intros s1 k count; [done|]. simpl.
  destruct (_processHeader _ _ _ _ _ _) as [s' n]. apply IH.
Qed.

Definition after_process (type : header_type) (index d : nat) (h : hnode) (a : attrs) : Prop :=
  a = set_spans type (length (leaf_refs h)) (Attrs (S d) index None None).

Lemma laid_ext P m m' d h :
  (forall o, o ∈ all_refs h -> m' !! o = m !! o) -> laid P m d h -> laid P m' d h.
Proof.
  revert d. induction h as [o|o cs IH] using hnode_nested_ind; intros d Hm Hl; inversion Hl; subst.
  - econstructor; [|done|by intros c Hc%elem_of_nil]. rewrite Hm; [done|]. simpl. set_solver.
  - econstructor; [|done|].
    + rewrite Hm; [done|]. simpl. set_solver.
    + simpl. intros c Hc. apply IH; [done| |eauto]. intros x Hx. apply Hm. simpl.
      apply elem_of_cons. right. apply list_elem_of_bind. eauto.
Qed.

Lemma laid_mono (P Q : nat -> hnode -> attrs -> Prop) m d h :
  (forall d h a, P d h a -> Q d h a) -> laid P m d h -> laid Q m d h.
Proof.
  intros HPQ. revert d. induction h as [o|o cs IH] using hnode_nested_ind; intros d Hl; inversion Hl; subst.
  - econstructor; [done|by apply HPQ|by intros c Hc%elem_of_nil].
  - econstructor; [done|by apply HPQ|]. simpl. intros c Hc. apply IH; eauto.
Qed.

Lemma store_set_span type o n s o' : o' <> o -> store (set_span type o n s) !! o' = store s !! o'.
Proof. intros. simpl. by rewrite lookup_alter_ne. Qed.

Definition processed (type : header_type) (index d : nat) (hs : list hnode) (s s' : hstate) : Prop :=
  (forall o, o ∉ (hs ≫= all_refs) -> store s' !! o = store s !! o) /\
  (forall h, h ∈ hs -> laid (after_process type index) (store s') d h).

Lemma children_loop_spec type d index cs :
  (forall c, c ∈ cs -> forall d f i s, NoDup (all_refs c) ->
     (forall o, o ∈ all_refs c -> store s !! o = None) ->
     let '(s', n) := _processHeader type c d f i s in
     n = length (leaf_refs c) /\ processed type i d [c] s s') ->
  forall k count s, NoDup (cs ≫= all_refs) ->
  (forall o, o ∈ (cs ≫= all_refs) -> store s !! o = None) ->
  let '(s', n) := children_loop type d index cs k count s in
  n = count + length (cs ≫= leaf_refs) /\ processed type index (S d) cs s s'.
Proof.
  induction cs as [|c cs IHcs]; intros IH k count s Hnd Hs.
  - simpl. split; [lia|]. split; [done|]. intros h Hh. by apply elem_of_nil in Hh.
  - cbn [children_loop]. cbn in Hnd, Hs. apply NoDup_app in Hnd as (Hc & Hdis & Hcs).
    specialize (IH c) as IHc. destruct (_processHeader type c (S d) (k =? 0) index s) as [s1 n] eqn:E.
    pose proof (IHc ltac:(set_solver) (S d) (k =? 0) index s Hc) as H1. rewrite E in H1.
    destruct H1 as [-> [Hk Hl]]; [set_solver|].
    assert (Hs1 : forall o, o ∈ (cs ≫= all_refs) -> store s1 !! o = None).
    { intros o Ho. rewrite Hk; [set_solver|]. simpl. rewrite app_nil_r. intros Ho'. by apply (Hdis o). }
    specialize (IHcs ltac:(set_solver) (S k) (count + length (leaf_refs c)) s1 Hcs Hs1).
    destruct (children_loop _ _ _ _ _ _ _) as [s2 n2]. destruct IHcs as [-> [Hk2 Hl2]].
    split; [cbn; rewrite length_app; lia|]. split.
    + intros o Ho. cbn in Ho. rewrite Hk2, Hk; [done| |]; cbn; set_solver.
    + intros h [->|Hh]%elem_of_cons; [|by apply Hl2].
      eapply laid_ext; [|apply Hl; set_solver]. intros o Ho. apply Hk2. intros Ho'. by apply (Hdis o).
Qed.

Lemma processHeader_spec type h : forall d f i s, NoDup (all_refs h) ->
  (forall o, o ∈ all_refs h -> store s !! o = None) ->
  let '(s', n) := _processHeader type h d f i s in
  n = length (leaf_refs h) /\ processed type i d [h] s s'.
Proof.
  induction h as [o|o cs IH] using hnode_nested_ind; intros d f i s Hnd Hs.
  - assert (Ho : store s !! o = None) by (apply Hs; simpl; set_solver).
    cbn [_processHeader]. unfold enter. rewrite Ho. split; [done|]. split.
    + cbn. intros o' Ho'. rewrite lookup_alter_ne, lookup_insert_ne by set_solver. done.
    + intros h ->%list_elem_of_singleton. econstructor; [| |by intros c Hc%elem_of_nil].
      * simpl. by rewrite lookup_alter_eq, lookup_insert_eq.
      * by destruct type.
  - rewrite processHeader_node. cbn in Hnd, Hs. apply NoDup_cons in Hnd as [Ho Hnd].
    pose proof (children_loop_spec type d i cs IH 0 0 (enter type o d f i s) Hnd) as H.
    destruct (children_loop _ _ _ _ _ _ _) as [s2 n]. destruct H as [-> [Hk Hl]].
    { intros o' Ho'. simpl. rewrite lookup_insert_ne by set_solver. apply Hs. set_solver. }
    split; [done|]. split.
    + cbn. intros o' Ho'. rewrite lookup_alter_ne by set_solver. rewrite Hk by set_solver.
      simpl. rewrite lookup_insert_ne by set_solver. done.
    + intros h ->%list_elem_of_singleton. econstructor.
      * cbn. rewrite lookup_alter_eq, Hk by done. unfold enter. rewrite (Hs o) by set_solver.
        simpl. by rewrite lookup_insert_eq.
      * simpl. by destruct type.
      * simpl. intros c Hc. eapply laid_ext; [|by apply Hl]. intros o' Ho'.
        cbn. rewrite lookup_alter_ne; [done|]. intros ->. apply Ho. apply list_elem_of_bind. eauto.
Qed.

(** What a pass leaves on a header, before and after the leaves are stretched. *)
Definition spanned (type : header_type) (d : nat) (h : hnode) (a : attrs) : Prop :=
  depth a = S d /\ span_along type a = length (leaf_refs h) /\ span_across type a = 1.

Definition is_leaf (h : hnode) : bool := match h with HNode _ None => true | _ => false end.

Definition stretched (type : header_type) (md d : nat) (h : hnode) (a : attrs) : Prop :=
  depth a = S d /\ span_along type a = length (leaf_refs h) /\
  span_across type a = if is_leaf h then md - S d + 1 else 1.

Lemma process_all_spec type hs : forall i s,
  NoDup (hs ≫= all_refs) -> (forall o, o ∈ (hs ≫= all_refs) -> store s !! o = None) ->
  let s' := process_all type hs i s in
  (forall o, o ∉ (hs ≫= all_refs) -> store s' !! o = store s !! o) /\
  (forall h, h ∈ hs -> laid (spanned type) (store s') 0 h).
Proof.
  induction hs as [|h hs IH]; intros i s Hnd Hs; cbv zeta.
  { split; [done|]. intros h Hh. by apply elem_of_nil in Hh. }
  cbn [process_all]. cbn in Hnd, Hs. apply NoDup_app in Hnd as (Hh & Hdis & Hhs).
  set (f := match type with HColumns => false | HRows => i =? 0 end).
  pose proof (processHeader_spec type h 0 f i s Hh) as H.
  destruct (_processHeader type h 0 f i s) as [s1 n]. cbn [fst].
  destruct H as [_ [Hk Hl]]; [set_solver|]. cbn in Hk. rewrite app_nil_r in Hk.
  destruct (IH (S i) s1 Hhs) as [Hk2 Hl2].
  { intros o Ho. rewrite Hk; [set_solver|]. intros Ho'. by apply (Hdis o). }
  split.
  - intros o Ho. cbn in Ho. rewrite Hk2, Hk; [done| |]; set_solver.
  - intros h' [->|Hh']%elem_of_cons; [|by apply Hl2].
    eapply laid_ext; [|eapply laid_mono; [|apply Hl; set_solver]].
    + intros o Ho. apply Hk2. intros Ho'. by apply (Hdis o).
    + intros d h' a ->. by destruct type.
Qed.

Definition across (type : header_type) (n : nat) : attrs -> attrs :=
  match type with HColumns => with_rowspan n | HRows => with_colspan n end.

Lemma leaf_spans_lookup type leafs m o : NoDup leafs ->
  leaf_spans type leafs m !! o =
  (if bool_decide (o ∈ leafs) then across type (maxDepth m leafs - depth_of m o + 1) <$> m !! o else m !! o).
Proof.
  unfold leaf_spans. generalize (maxDepth m leafs). intros md. revert m.
  induction leafs as [|l leafs IH]; intros m Hnd; [done|]. apply NoDup_cons in Hnd as [Hl Hnd].
  cbn [foldl]. rewrite IH by done.
  set (m1 := alter _ l m).
  assert (Hd : depth_of m1 o = depth_of m o).
  { unfold m1, depth_of. destruct (decide (l = o)) as [->|Hne]; [|by rewrite lookup_alter_ne].
    rewrite lookup_alter_eq. destruct (m !! o); [|done]. by destruct type. }
  rewrite Hd. unfold m1. destruct (decide (l = o)) as [->|Hne].
  - rewrite !bool_decide_eq_false_2, (bool_decide_eq_true_2 (o ∈ o :: leafs)) by set_solver.
    rewrite lookup_alter_eq. by destruct type.
  - rewrite lookup_alter_ne by done. destruct (decide (o ∈ leafs)).
    + by rewrite !bool_decide_eq_true_2 by set_solver.
    + by rewrite !bool_decide_eq_false_2 by set_solver.
Qed.

Fixpoint inner_refs (h : hnode) : list nat :=
  match h with
  | HNode o None => []
  | HNode o (Some cs) => o :: (cs ≫= inner_refs)
  end.

Lemma bind_perm {A B} (f g k : A -> list B) l :
  (forall x, x ∈ l -> f x ≡ₚ g x ++ k x) -> l ≫= f ≡ₚ (l ≫= g) ++ (l ≫= k).
Proof.
  induction l as [|x l IH]; intros H; [done|]. cbn. rewrite (H x) by set_solver.
  rewrite IH by (intros y Hy; apply H; by apply elem_of_cons; right).
  rewrite <- !app_assoc. f_equiv. rewrite !app_assoc. f_equiv. apply Permutation_app_comm.
Qed.

Lemma all_refs_perm h : all_refs h ≡ₚ inner_refs h ++ leaf_refs h.
Proof.
  induction h as [x|x cs IH] using hnode_nested_ind; [done|]. simpl. constructor. by apply bind_perm.
Qed.

Lemma forest_refs_perm hs : hs ≫= all_refs ≡ₚ (hs ≫= inner_refs) ++ (hs ≫= leaf_refs).
Proof. apply bind_perm. intros. apply all_refs_perm. Qed.

(** The references of the inner headers and of the leaves are disjoint. *)
Lemma laid_stretch type m leafs d h :
  NoDup leafs -> (forall o, o ∈ leaf_refs h -> o ∈ leafs) -> (forall o, o ∈ inner_refs h -> o ∉ leafs) ->
  laid (spanned type) m d h -> laid (stretched type (maxDepth m leafs)) (leaf_spans type leafs m) d h.
Proof.
  intros Hnd. revert d. induction h as [o|o cs IH] using hnode_nested_ind;
    intros d Hleaf Hinner H; inversion H as [? ? ? a Ha HP Hcs]; subst.
  - econstructor; [| |by intros c Hc%elem_of_nil].
    + rewrite leaf_spans_lookup by done. rewrite bool_decide_eq_true_2, Ha; [done|].
      apply Hleaf; simpl; set_solver.
    + destruct HP as (Hd & Hal & Hac). unfold depth_of. rewrite Ha. cbn [default option_fmap option_map fmap].
      unfold stretched. destruct type; cbn in *; rewrite Hd; done.
  - econstructor.
    + rewrite leaf_spans_lookup by done. rewrite bool_decide_eq_false_2; [done|].
      apply Hinner. simpl. set_solver.
    + by destruct HP as (? & ? & ?).
    + simpl in *. intros c Hc. apply IH; [done| | |by apply Hcs]; intros x Hx.
      * apply Hleaf, list_elem_of_bind. eauto.
      * apply Hinner. apply elem_of_cons. right. apply list_elem_of_bind. eauto.
Qed.

(** ** The cells tile the levels *)
Lemma level_width_bind {A} type D m (f : A -> list nat) l :
  level_width type D m (l ≫= f) = sum_list ((fun x => level_width type D m (f x)) <$> l).
Proof.
  unfold level_width. induction l as [|x l IH]; [done|]. cbn. rewrite fmap_app, sum_list_app. by f_equal.
Qed.

Lemma bind_length_sum {A B} (f : A -> list B) l : length (l ≫= f) = sum_list ((fun x => length (f x)) <$> l).
Proof. induction l as [|x l IH]; [done|]. cbn. rewrite length_app. by f_equal. Qed.

Lemma sum_list_ext {A} (f g : A -> nat) l : (forall x, x ∈ l -> f x = g x) -> sum_list (f <$> l) = sum_list (g <$> l).
Proof. induction l as [|x l IH]; intros H; [done|]. cbn. rewrite H, IH by set_solver. done. Qed.

Lemma sum_list_zero {A} (l : list A) : sum_list ((fun _ => 0) <$> l) = 0.
Proof. by induction l. Qed.

Lemma level_width_below type md m d h D :
  laid (stretched type md) m d h -> D <= d -> level_width type D m (all_refs h) = 0.
Proof.
  revert d. induction h as [o|o cs IH] using hnode_nested_ind;
    intros d H HD; inversion H as [? ? ? a Ha (Hd & Hal & Hac) Hcs]; subst.
  - unfold level_width. simpl. rewrite Ha. unfold covers. rewrite bool_decide_eq_false_2; lia.
  - cbn [all_refs]. unfold level_width. rewrite fmap_cons. cbn [sum_list sum_list_with]. rewrite Ha.
    unfold covers at 1. rewrite bool_decide_eq_false_2 by lia.
    change (level_width type D m (cs ≫= all_refs) = 0). rewrite level_width_bind.
    rewrite (sum_list_ext _ (fun _ => 0)); [apply sum_list_zero|].
    intros c Hc. apply (IH c Hc (S d)); [by apply Hcs|lia].
Qed.

Lemma level_width_tree type md m d h D :
  laid (stretched type md) m d h -> d < D <= md -> level_width type D m (all_refs h) = length (leaf_refs h).
Proof.
  revert d. induction h as [o|o cs IH] using hnode_nested_ind;
    intros d H HD; inversion H as [? ? ? a Ha (Hd & Hal & Hac) Hcs]; subst.
  - unfold level_width. simpl in *. rewrite Ha. unfold covers. rewrite Hac, Hal.
    rewrite bool_decide_eq_true_2; lia.
  - cbn [all_refs]. unfold level_width. rewrite fmap_cons. cbn [sum_list sum_list_with]. rewrite Ha.
    change (sum_list _) with (level_width type D m (cs ≫= all_refs)).
    cbn [leaf_refs]. simpl in Hac, Hal, Hcs. unfold covers at 1. rewrite Hac, Hal, Hd.
    rewrite level_width_bind. destruct (decide (D = S d)) as [->|Hne].
    + rewrite bool_decide_eq_true_2 by lia.
      rewrite (sum_list_ext _ (fun _ => 0)); [|intros c Hc; eapply level_width_below; [by apply Hcs|lia]].
      rewrite sum_list_zero. unfold id. lia.
    + rewrite bool_decide_eq_false_2 by lia. rewrite bind_length_sum. apply sum_list_ext.
      intros c Hc. apply (IH c Hc (S d)); [by apply Hcs|lia].
Qed.

Lemma level_width_forest type md m hs D :
  (forall h, h ∈ hs -> laid (stretched type md) m 0 h) -> 1 <= D <= md ->
  level_width type D m (hs ≫= all_refs) = length (hs ≫= leaf_refs).
Proof.
  intros H HD. rewrite level_width_bind, bind_length_sum. apply sum_list_ext.
  intros h Hh. apply (level_width_tree type md m 0); [by apply H|lia].
Qed.

(** The maximal depth is not changed by the stretching. *)
Lemma maxDepth_stretched type leafs m : NoDup leafs -> maxDepth (leaf_spans type leafs m) leafs = maxDepth m leafs.
Proof.
  intros Hnd. unfold maxDepth at 1 2. f_equal. apply list_fmap_ext. intros i o Ho. unfold depth_of.
  rewrite leaf_spans_lookup by done. rewrite bool_decide_eq_true_2 by (by eapply list_elem_of_lookup_2).
  destruct (m !! o); [|done]. by destruct type.
Qed.

(** ** The rows of the column headers *)

(** Row [k] after a subtree placed at depth [d]. *)
Definition rows_grown (d : nat) (hs : list hnode) (rows rows' : list (list nat)) : Prop :=
  length rows <= length rows' /\
  (Forall (fun r => r <> []) rows -> Forall (fun r => r <> []) rows') /\
  (forall k, default [] (rows' !! k) =
     default [] (rows !! k) ++ if d <=? k then hs ≫= level_refs (k - d) else []).

Lemma push_at_grown d o rows : d <= length rows ->
  d < length (push_at d o rows) /\ length rows <= length (push_at d o rows) /\
  (Forall (fun r => r <> []) rows -> Forall (fun r => r <> []) (push_at d o rows)) /\
  (forall k, default [] (push_at d o rows !! k) = default [] (rows !! k) ++ if k =? d then [o] else []).
Proof.
  intros Hd. unfold push_at. case_bool_decide as H.
  - rewrite length_alter. split_and!; [done|done| |].
    + intros HF. apply Forall_alter; [done|]. intros r Hr _. by destruct r.
    + intros k. destruct (Nat.eqb_spec k d) as [->|Hne].
      * rewrite list_lookup_alter_eq. destruct (lookup_lt_is_Some_2 rows d) as [r ->]; done.
      * rewrite list_lookup_alter_ne by done. by rewrite app_nil_r.
  - replace (d - length rows) with 0 by lia. simpl. rewrite length_app. simpl. split_and!; [lia|lia| |].
    + intros HF. apply Forall_app. split; [done|]. by constructor.
    + intros k. destruct (Nat.eqb_spec k d) as [->|Hne].
      * rewrite lookup_app_r by lia. replace (d - length rows) with 0 by lia.
        rewrite (lookup_ge_None_2 rows d) by lia. done.
      * rewrite app_nil_r. destruct (decide (k < length rows)).
        -- by rewrite lookup_app_l.
        -- rewrite lookup_app_r, (lookup_ge_None_2 rows) by lia. destruct (k - length rows) eqn:E; [lia|done].
Qed.

Lemma bind_one {A B} (f : A -> list B) x : [x] ≫= f = f x.
Proof. cbn. by rewrite app_nil_r. Qed.

Lemma columns_loop_rows d index cs :
  (forall c, c ∈ cs -> forall d f i s, d <= length (headerRows s) ->
     rows_grown d [c] (headerRows s) (headerRows (_processHeader HColumns c d f i s).1)) ->
  forall k count s, S d <= length (headerRows s) ->
  rows_grown (S d) cs (headerRows s) (headerRows (children_loop HColumns d index cs k count s).1).
Proof.
  induction cs as [|c cs IHcs]; intros IH k count s Hs.
  - simpl. split_and!; [done|done|]. intros k'. cbn. destruct k'; [by rewrite app_nil_r|].
    destruct (_ <=? _); by rewrite app_nil_r.
  - cbn [children_loop]. pose proof (IH c ltac:(set_solver) (S d) (k =? 0) index s Hs) as (L1 & F1 & R1).
    destruct (_processHeader _ _ _ _ _ _) as [s1 n]. cbn [fst] in *.
    destruct (IHcs ltac:(set_solver) (S k) (count + n) s1 ltac:(lia)) as (L2 & F2 & R2).
    split_and!; [lia|auto|]. intros j. rewrite R2, R1. rewrite <- app_assoc. f_equal.
    destruct (S d <=? j); [|done]. cbn. by rewrite app_nil_r.
Qed.

Lemma processHeader_columns_rows h : forall d f i s, d <= length (headerRows s) ->
  rows_grown d [h] (headerRows s) (headerRows (_processHeader HColumns h d f i s).1).
Proof.
  induction h as [o|o cs IH] using hnode_nested_ind; intros d f i s Hd.
  - simpl. destruct (push_at_grown d o (headerRows s) Hd) as (L & L' & F & R).
    split_and!; [done|done|]. intros k. rewrite R. f_equal. cbn. rewrite app_nil_r.
    destruct (Nat.eqb_spec k d) as [->|Hne].
    + by rewrite Nat.leb_refl, Nat.sub_diag.
    + destruct (Nat.leb_spec d k); [|done]. destruct (k - d) eqn:E; [lia|done].
  - rewrite processHeader_node. pose proof (columns_loop_rows d i cs IH 0 0 (enter HColumns o d f i s)) as H.
    destruct (children_loop _ _ _ _ _ _ _) as [s2 n]. cbn [fst headerRows set_span enter place] in *.
    destruct (push_at_grown d o (headerRows s) Hd) as (L & L' & F & R).
    destruct H as (L2 & F2 & R2); [lia|]. split_and!; [lia|auto|].
    intros k. rewrite R2, R, <- app_assoc, bind_one. f_equal.
    destruct (Nat.eqb_spec k d) as [->|Hne].
    + rewrite Nat.leb_refl, Nat.sub_diag. by destruct (Nat.leb_spec (S d) d); [lia|].
    + destruct (Nat.leb_spec d k), (Nat.leb_spec (S d) k); try lia; [|done].
      replace (k - d) with (S (k - S d)) by lia. done.
Qed.

Lemma process_all_columns_rows hs : forall i s,
  rows_grown 0 hs (headerRows s) (headerRows (process_all HColumns hs i s)).
Proof.
  induction hs as [|h hs IH]; intros i s.
  - split_and!; [done|done|]. intros k. by rewrite app_nil_r.
  - cbn [process_all]. destruct (processHeader_columns_rows h 0 false i s ltac:(lia)) as (L1 & F1 & R1).
    destruct (_processHeader _ _ _ _ _ _) as [s1 n]. cbn [fst] in *.
    destruct (IH (S i) s1) as (L2 & F2 & R2). split_and!; [lia|auto|].
    intros k. rewrite R2, R1, <- app_assoc. f_equal. cbn. by rewrite app_nil_r.
Qed.

(** ** The rows of the row headers *)
Lemma glue_app l ls ls' : glue l (ls ++ ls') = match ls with [] => glue l ls' | _ => glue l ls ++ ls' end.
Proof. by destruct ls. Qed.

Lemma glue_glue l l' ls : glue l (glue l' ls) = glue (l ++ l') ls.
Proof. destruct ls; simpl; [done|]. by rewrite app_assoc. Qed.

Lemma row_lines_cons h : exists l ls, row_lines h = l :: ls.
Proof. destruct h as [o [cs|]]; simpl; [|eauto]. destruct (cs ≫= row_lines); simpl; eauto. Qed.

Lemma alter_last {A} (f : A -> A) (init : list A) x : alter f (length (init ++ [x]) - 1) (init ++ [x]) = init ++ [f x].
Proof.
  rewrite length_app. simpl. replace (length init + 1 - 1) with (length init + 0) by lia.
  rewrite alter_app_r. done.
Qed.

(** Where a header goes: on the last row when it is a first child, else on a new one. *)
Definition rows_from (f : bool) (rows : list (list nat)) (init : list (list nat)) (last : list nat) : Prop :=
  (if f then rows else rows ++ [[]]) = init ++ [last].

Lemma rows_loop_rows d index cs :
  (forall c, c ∈ cs -> forall d f i s init last, rows_from f (headerRows s) init last ->
     headerRows (_processHeader HRows c d f i s).1 = init ++ glue last (row_lines c)) ->
  forall k count s init last, headerRows s = init ++ [last] ->
  headerRows (children_loop HRows d index cs k count s).1 =
  if k =? 0 then init ++ glue last (cs ≫= row_lines) else headerRows s ++ (cs ≫= row_lines).
Proof.
  induction cs as [|c cs IHcs]; intros IH k count s init last Hs.
  - cbn. rewrite app_nil_r, Hs. by destruct (k =? 0).
  - cbn [children_loop]. destruct (row_lines_cons c) as (l & ls & Hc).
    assert (Hb : rows_from (k =? 0) (headerRows s) (if k =? 0 then init else headerRows s) (if k =? 0 then last else [])).
    { unfold rows_from. by destruct (k =? 0). }
    pose proof (IH c ltac:(set_solver) (S d) (k =? 0) index s _ _ Hb) as H1.
    destruct (_processHeader _ _ _ _ _ _) as [s1 n]. cbn [fst] in *.
    rewrite Hc in H1. cbn [glue] in H1.
    assert (exists i' l', headerRows s1 = i' ++ [l']) as (i' & l' & Hs1).
    { rewrite H1. destruct (exists_last (l := ((if k =? 0 then last else []) ++ l) :: ls)) as (i2 & l2 & E2); [discriminate|].
      exists ((if k =? 0 then init else headerRows s) ++ i2), l2. by rewrite E2, app_assoc. }
    rewrite (IHcs ltac:(set_solver) (S k) (count + n) s1 i' l' Hs1). cbn [Nat.eqb].
    rewrite H1. cbn. rewrite Hc. cbn. rewrite <- app_assoc. by destruct (k =? 0).
Qed.

Lemma processHeader_rows_rows h : forall d f i s init last, rows_from f (headerRows s) init last ->
  headerRows (_processHeader HRows h d f i s).1 = init ++ glue last (row_lines h).
Proof.
  induction h as [o|o cs IH] using hnode_nested_ind; intros d f i s init last Hb.
  - simpl. unfold push_row. unfold rows_from in Hb. rewrite Hb. apply (alter_last (.++ [o])).
  - rewrite processHeader_node. pose proof (rows_loop_rows d i cs IH 0 0 (enter HRows o d f i s)) as H.
    destruct (children_loop _ _ _ _ _ _ _) as [s2 n]. cbn [fst headerRows set_span enter place] in *.
    rewrite (H init (last ++ [o])); [|unfold push_row; unfold rows_from in Hb; rewrite Hb; apply (alter_last (.++ [o]))].
    simpl. by rewrite glue_glue.
Qed.

Lemma process_all_rows_rows hs : forall i s init last, headerRows s = init ++ [last] ->
  headerRows (process_all HRows hs i s) =
  if i =? 0 then init ++ glue last (hs ≫= row_lines) else headerRows s ++ (hs ≫= row_lines).
Proof.
  induction hs as [|h hs IH]; intros i s init last Hs.
  - cbn. rewrite app_nil_r, Hs. by destruct (i =? 0).
  - cbn [process_all]. destruct (row_lines_cons h) as (l & ls & Hh).
    assert (Hb : rows_from (i =? 0) (headerRows s) (if i =? 0 then init else headerRows s) (if i =? 0 then last else [])).
    { unfold rows_from. by destruct (i =? 0). }
    pose proof (processHeader_rows_rows h 0 (i =? 0) i s _ _ Hb) as H1.
    destruct (_processHeader _ _ _ _ _ _) as [s1 n]. cbn [fst] in *. rewrite Hh in H1. cbn [glue] in H1.
    destruct (exists_last (l := ((if i =? 0 then last else []) ++ l) :: ls)) as (i2 & l2 & E2); [done|].
    rewrite (IH (S i) s1 ((if i =? 0 then init else headerRows s) ++ i2) l2);
      [|by rewrite H1, E2, app_assoc]. cbn [Nat.eqb].
    rewrite H1. cbn. rewrite Hh. cbn. rewrite <- app_assoc. by destruct (i =? 0).
Qed.

Lemma length_glue l ls : ls <> [] -> length (glue l ls) = length ls.
Proof. by destruct ls. Qed.

Lemma length_row_lines h : bushy h -> length (row_lines h) = length (leaf_refs h).
Proof.
  induction h as [o|o cs IH] using hnode_nested_ind; intros Hb; [done|].
  inversion Hb as [|? ? Hne Hcs]; subst. cbn [row_lines leaf_refs]. rewrite length_glue.
  - rewrite !bind_length_sum. apply sum_list_ext. auto.
  - destruct cs as [|c cs]; [done|]. cbn. destruct (row_lines_cons c) as (? & ? & ->). done.
Qed.

(** The headers of one pass are pairwise different objects that no pass has
    touched yet. *)
Definition fresh_forest (hs : list hnode) (m : gmap nat attrs) : Prop :=
  NoDup (hs ≫= all_refs) /\ forall o, o ∈ (hs ≫= all_refs) -> m !! o = None.

Lemma fresh_laid type hs m rows :
  fresh_forest hs m ->
  let s := process_all type hs 0 (HState rows m) in
  let leafs := hs ≫= leaf_refs in
  NoDup leafs /\
  forall h, h ∈ hs -> laid (stretched type (maxDepth (store s) leafs)) (leaf_spans type leafs (store s)) 0 h.
Proof.
  intros [Hnd Hm]. cbv zeta.
  destruct (process_all_spec type hs 0 (HState rows m) Hnd Hm) as [_ Hl].
  rewrite forest_refs_perm in Hnd. apply NoDup_app in Hnd as (_ & Hdis & Hleafs).
  split; [done|]. intros h Hh. apply laid_stretch; [done| | |by apply Hl].
  - intros o Ho. apply list_elem_of_bind. eauto.
  - intros o Ho. apply Hdis, list_elem_of_bind. eauto.
Qed.

(** ** Properties *)

(** C9. The rows of the column headers hold, level by level and left to right, the
    headers of that level and nothing else, and the cells tile the rectangle: at
    every level down to the deepest leaf the column spans of the cells that reach
    over that level, counting the row spans given to the leaves, add up to the
    number of leaves. *)
Theorem columnHeaderRows_tile hs m :
  fresh_forest hs m ->
  let leafs := hs ≫= leaf_refs in
  let s := columnHeaderRows hs leafs m in
  (forall k, default [] (headerRows s !! k) = hs ≫= level_refs k) /\
  Forall (fun r => r <> []) (headerRows s) /\
  (forall d, 1 <= d <= maxDepth (store s) leafs ->
     level_width HColumns d (store s) (hs ≫= all_refs) = length leafs).
Proof.
  intros Hf. cbv zeta. destruct (fresh_laid HColumns hs m [] Hf) as [Hnd Hl].
  destruct (process_all_columns_rows hs 0 (HState [] m)) as (_ & F & R).
  unfold columnHeaderRows. cbn [headerRows store]. split_and!.
  - intros k. rewrite R. cbn. by rewrite Nat.sub_0_r.
  - by apply F.
  - intros d. rewrite maxDepth_stretched by done. intros Hd. by eapply level_width_forest.
Qed.

(** The row headers of a table whose headers with a [children] array have
    children come out as one line per leaf, each line holding the headers that
    start there, and the row spans of the cells that reach over a level add up to
    the number of lines. *)
Theorem rowHeaderRows_tile hs m :
  fresh_forest hs m -> hs <> [] -> (forall h, h ∈ hs -> bushy h) ->
  let leafs := hs ≫= leaf_refs in
  let s := rowHeaderRows hs leafs m in
  headerRows s = hs ≫= row_lines /\
  length (headerRows s) = length leafs /\
  (forall d, 1 <= d <= maxDepth (store s) leafs ->
     level_width HRows d (store s) (hs ≫= all_refs) = length leafs).
Proof.
  intros Hf Hne Hb. cbv zeta. destruct (fresh_laid HRows hs m [[]] Hf) as [Hnd Hl].
  assert (Hr : headerRows (process_all HRows hs 0 (HState [[]] m)) = hs ≫= row_lines).
  { rewrite (process_all_rows_rows hs 0 (HState [[]] m) [] []) by done. cbn.
    destruct hs as [|h hs]; [done|]. cbn. by destruct (row_lines_cons h) as (? & ? & ->). }
  unfold rowHeaderRows. cbn [headerRows store]. rewrite Hr. split_and!; [done| |].
  - rewrite !bind_length_sum. apply sum_list_ext. intros h Hh. by apply length_row_lines, Hb.
  - intros d. rewrite maxDepth_stretched by done. intros Hd. by eapply level_width_forest.
Qed.

(** ** Witnesses *)
Definition ex_tree : list hnode :=
  [HNode 1 (Some [HNode 2 None; HNode 3 (Some [HNode 4 None; HNode 5 None])]); HNode 6 None].

Lemma ex_tree_fresh : fresh_forest ex_tree ∅.
Proof. split; [|done]. vm_compute. repeat constructor; set_solver. Defined.

Lemma ex_tree_bushy h : h ∈ ex_tree -> bushy h.
Proof.
  unfold ex_tree. intros Hh.
  repeat (apply elem_of_cons in Hh as [->|Hh]; [repeat first [constructor; [done|intros ?c ?Hc] |
    match goal with H : _ ∈ _ :: _ |- _ => apply elem_of_cons in H as [->|H] end |
    match goal with H : _ ∈ [] |- _ => by apply elem_of_nil in H end | constructor]|]).
  by apply elem_of_nil in Hh.
Defined.

Lemma columnHeaderRows_tile_witness :
  let leafs := ex_tree ≫= leaf_refs in
  let s := columnHeaderRows ex_tree leafs ∅ in
  (forall k, default [] (headerRows s !! k) = ex_tree ≫= level_refs k) /\
  Forall (fun r => r <> []) (headerRows s) /\
  (forall d, 1 <= d <= maxDepth (store s) leafs ->
     level_width HColumns d (store s) (ex_tree ≫= all_refs) = length leafs).
Proof. exact (columnHeaderRows_tile ex_tree ∅ ex_tree_fresh). Defined.

Lemma rowHeaderRows_tile_witness :
  let leafs := ex_tree ≫= leaf_refs in
  let s := rowHeaderRows ex_tree leafs ∅ in
  headerRows s = ex_tree ≫= row_lines /\ length (headerRows s) = length leafs /\
  (forall d, 1 <= d <= maxDepth (store s) leafs ->
     level_width HRows d (store s) (ex_tree ≫= all_refs) = length leafs).
Proof. exact (rowHeaderRows_tile ex_tree ∅ ex_tree_fresh ltac:(discriminate) ex_tree_bushy). Defined.

Lemma ex_tree_rows :
  headerRows (rowHeaderRows ex_tree [2; 4; 5; 6] ∅) = [[1; 2]; [3; 4]; [5]; [6]] /\
  headerRows (columnHeaderRows ex_tree [2; 4; 5; 6] ∅) = [[1; 6]; [2; 3]; [4; 5]].
Proof. split; vm_compute; reflexivity. Qed.
