(* ===== verification/Statechart.v ===== *)
(** * State machines of views ([statechart.js])

    The mixin keeps one current state per view.  [gotoFlameState] runs the exit
    hook of the old state and the enter hook of the new one; the proxy methods
    installed at [init] forward a call on the view to the method of the current
    state.  What a view provides to the mixin is the class [Chart]. *)

From S2P Require Import Prelude.
Open Scope string_scope.
Open Scope list_scope.
Open Scope flame_scope.

(** ** What a view provides *)

Record hooks (O : Type) := Hooks {
  enterState : option (O -> O);
  exitState : option (O -> O)
}.
Arguments Hooks {O} _ _.
Arguments enterState {O} _.
Arguments exitState {O} _.

(** What [this.get(name)] finds under a name: nothing, an instance of [State], or
    something else. *)
Inductive property (O : Type) :=
| PUndefined
| PState (h : hooks O)
| POther.
Arguments PUndefined {O}.
Arguments PState {O} h.
Arguments POther {O}.

Class Chart (O : Type) := {
  currentFlameState : O -> option string;
  set_currentFlameState : string -> O -> O;
  lookup_state : string -> property O
}.

(** Setting the current state sets it, and the hooks of the states leave it to
    the mixin. *)
Class ChartLaws (O : Type) `{Chart O} : Prop := {
  current_set n o : currentFlameState (set_currentFlameState n o) = Some n;
  enter_current n h f o :
    lookup_state n = PState h -> enterState h = Some f -> currentFlameState (f o) = currentFlameState o;
  exit_current n h f o :
    lookup_state n = PState h -> exitState h = Some f -> currentFlameState (f o) = currentFlameState o
}.

(** ** Transitions *)

Section transitions.
Context {O : Type} `{Chart O}.

Definition run_hook (f : option (O -> O)) (o : O) : O :=
  match f with Some f => f o | None => o end.

Definition hooks_of (n : string) : hooks O :=
  match lookup_state n with PState h => h | _ => Hooks None None end.

Definition not_a_state (n : string) : string := n +:+ " is not a state!".

(** The states are made one per name, so that the test
    [currentFlameState === newState] compares names; before the first transition
    both sides can be [undefined]. *)
Definition gotoFlameState (stateName : string) (o : O) : outcome O :=
  match lookup_state stateName, currentFlameState o with
  | PUndefined, None => Ok o
  | PUndefined, Some _ | POther, _ => Throw (not_a_state stateName)
  | PState h, None => Ok (run_hook (enterState h) (set_currentFlameState stateName o))
  | PState h, Some c =>
      if bool_decide (c = stateName) then Ok o
      else
        let o1 := run_hook (exitState (hooks_of c)) o in
        let o2 := set_currentFlameState stateName o1 in
        Ok (run_hook (enterState h) o2)
  end.

(** ** Methods of the states *)

(** A state class: its own methods in enumeration order, and what it inherits. *)
Definition method : Type := list jsval -> O -> outcome (O * jsval).

Record state_class := StateClass {
  own_methods : list (string * method);
  inherited : string -> option method
}.

Fixpoint find_method (n : string) (l : list (string * method)) : option method :=
  match l with
  | [] => None
  | (n', m) :: l' => if String.eqb n n' then Some m else find_method n l'
  end.

(** [state[methodName]] *)
Definition state_method (c : state_class) (n : string) : option method :=
  match find_method n (own_methods c) with
  | Some m => Some m
  | None => inherited c n
  end.

(** The names a view answers to: [present] are the names under which it has a
    truthy property, the proxies are added to them one by one. *)
Definition _setupProxyMethods (present : string -> bool) (proxies : list string) (c : state_class) : list string :=
  foldl (fun ps '(n, _) =>
    if negb (present n || bool_decide (n ∈ ps)) && negb (bool_decide (n = "enterState"))
       && negb (bool_decide (n = "exitState"))
    then ps ++ [n] else ps) proxies (own_methods c).

(** The loop of [init] over [flameStates], then the first transition. *)
Definition init_proxies (present : string -> bool) (classes : list state_class) : list string :=
  foldl (_setupProxyMethods present) [] classes.

Definition init (present : string -> bool) (classes : list state_class) (initialFlameState : string) (o : O) :
    outcome (list string * O) :=
  do! o' <- gotoFlameState initialFlameState o ; Ok (init_proxies present classes, o').

(** A proxy method: the current state's method, or the special case of [keyDown]. *)
Definition invokeStateMethod (class_of : string -> option state_class) (_handleKeyEvent : method)
    (methodName : string) (args : list jsval) (o : O) : outcome (O * jsval) :=
  match currentFlameState o ≫= class_of with
  | None => Throw TypeError
  | Some c =>
      match state_method c methodName with
      | Some m => m args o
      | None =>
          if String.eqb methodName "keyDown" then
            do! r <- _handleKeyEvent (JStr methodName :: args) o ;
            Ok (r.1, JBool (negb (truthy r.2)))
          else Ok (o, JUndefined)
      end
  end.

(** ** Lemmas *)

Lemma goto_same n h o :
  lookup_state n = PState h -> currentFlameState o = Some n -> gotoFlameState n o = Ok o.
Proof. unfold gotoFlameState. intros -> ->. by rewrite bool_decide_eq_true_2. Qed.

Lemma goto_other n c h o :
  lookup_state n = PState h -> currentFlameState o = Some c -> c <> n ->
  gotoFlameState n o =
    Ok (run_hook (enterState h) (set_currentFlameState n (run_hook (exitState (hooks_of c)) o))).
Proof. unfold gotoFlameState. intros -> -> ?. by rewrite bool_decide_eq_false_2. Qed.

Lemma setup_proxies_elem present c : forall ps n,
  n ∈ _setupProxyMethods present ps c <->
  n ∈ ps \/ (present n = false /\ n <> "enterState" /\ n <> "exitState" /\ n ∈ (own_methods c).*1).
Proof.
  unfold _setupProxyMethods. induction (own_methods c) as [|[n' m] l IH]; intros ps n.
  - cbn. set_solver.
  - cbn [foldl]. rewrite IH. rewrite fmap_cons, elem_of_cons. cbn [fst].
    destruct (present n') eqn:Hp, (decide (n' ∈ ps)) as [Hin|Hin],
      (decide (n' = "enterState")) as [He|He], (decide (n' = "exitState")) as [Hx|Hx]; cbn;
      repeat first [rewrite (bool_decide_eq_true_2 _ Hin) | rewrite (bool_decide_eq_false_2 _ Hin)
        | rewrite (bool_decide_eq_true_2 _ He) | rewrite (bool_decide_eq_false_2 _ He)
        | rewrite (bool_decide_eq_true_2 _ Hx) | rewrite (bool_decide_eq_false_2 _ Hx)]; cbn;
      rewrite ?elem_of_app, ?list_elem_of_singleton; naive_solver congruence.
Qed.

Section laws.
Context `{!ChartLaws O}.

Lemma run_enter_current n h o :
  lookup_state n = PState h -> currentFlameState (run_hook (enterState h) o) = currentFlameState o.
Proof. intros Hn. unfold run_hook. destruct (enterState h) eqn:E; [|done]. by eapply enter_current. Qed.

(** Every outcome of a transition. *)
Lemma goto_cases n o :
  match gotoFlameState n o with
  | Ok o' =>
      (lookup_state n = PUndefined /\ currentFlameState o = None /\ o' = o) \/
      (exists h, lookup_state n = PState h /\ currentFlameState o' = Some n)
  | Throw e => e = not_a_state n /\ forall h, lookup_state n <> PState h
  end.
Proof.
  unfold gotoFlameState. destruct (lookup_state n) as [|h|] eqn:E, (currentFlameState o) as [c|] eqn:Ec;
    try (by split); try (by left).
  - case_bool_decide as Hc; right; exists h; (split; [done|]); [by subst|].
    rewrite (run_enter_current n) by done. apply current_set.
  - right. exists h. split; [done|]. rewrite (run_enter_current n) by done. apply current_set.
Qed.
End laws.
End transitions.

Arguments StateClass {O} _ _.

(** ** Properties *)

(** A transition to a state leaves the view in that state, and going there
    again changes nothing and runs no hook. *)
Theorem gotoFlameState_reaches {O} `{ChartLaws O} n h (o : O) :
  lookup_state n = PState h ->
  exists o', gotoFlameState n o = Ok o' /\ currentFlameState o' = Some n /\ gotoFlameState n o' = Ok o'.
Proof.
  intros Hn. pose proof (goto_cases n o) as Hc. destruct (gotoFlameState n o) as [o'|e].
  - destruct Hc as [(Hu & _)|(h' & _ & Hcur)]; [congruence|].
    exists o'. split_and!; [done|done|by eapply goto_same].
  - destruct Hc as [_ Hc]. by apply Hc in Hn.
Qed.

(** After [init] a view answers, besides its own properties, to exactly the
    methods that the classes of its states define themselves, the two hooks
    excepted; each is proxied once. *)
Theorem init_proxies_complete {O} present (classes : list (@state_class O)) :
  NoDup (init_proxies present classes) /\
  forall n, n ∈ init_proxies present classes <->
    present n = false /\ n <> "enterState" /\ n <> "exitState" /\
    exists c, c ∈ classes /\ n ∈ (own_methods c).*1.
Proof.
  unfold init_proxies.
  enough (forall ps, NoDup ps -> NoDup (foldl (_setupProxyMethods present) ps classes) /\
    forall n, n ∈ foldl (_setupProxyMethods present) ps classes <-> n ∈ ps \/
      (present n = false /\ n <> "enterState" /\ n <> "exitState" /\
       exists c, c ∈ classes /\ n ∈ (own_methods c).*1)) as Hg.
  { destruct (Hg [] ltac:(constructor)) as [? Hg']. split; [done|]. intros n. rewrite Hg'. set_solver. }
  induction classes as [|c classes IH]; intros ps Hps; cbn [foldl].
  { split; [done|]. intros n. set_solver. }
  destruct (IH (_setupProxyMethods present ps c)) as [IH1 IH2].
  { unfold _setupProxyMethods. clear IH. revert ps Hps.
    induction (own_methods c) as [|[n m] l IHl]; intros ps Hps; [done|]. cbn [foldl].
    apply IHl. destruct (_ && _) eqn:E; [|done]. apply NoDup_app. split_and!; [done| |apply NoDup_singleton].
    intros x Hx ->%list_elem_of_singleton. rewrite (bool_decide_eq_true_2 _ Hx), orb_true_r in E. done. }
  split; [done|]. intros n. rewrite IH2, setup_proxies_elem. split; [|set_solver]. set_solver.
Qed.

(** ** Witness *)
Module Example.
#[local] Instance chart : Chart (option string) := {
  currentFlameState := id;
  set_currentFlameState n _ := Some n;
  lookup_state n := if bool_decide (n = "on") then PState (Hooks None None) else PUndefined
}.

#[local] Instance chart_laws : ChartLaws (option string).
Proof.
  split; [done| |]; intros n h f o; cbn; (case_bool_decide; [|discriminate]);
    intros [= <-]; discriminate.
Defined.

Lemma gotoFlameState_reaches_witness :
  exists o', gotoFlameState "on" (None : option string) = Ok o' /\ currentFlameState o' = Some "on" /\
    gotoFlameState "on" o' = Ok o'.
Proof. apply (gotoFlameState_reaches "on" (Hooks None None)). reflexivity. Defined.

(** A mistyped initial state goes unnoticed: both sides of the comparison are
    [undefined], so nothing is thrown. *)
Lemma init_typo_unnoticed classes present :
  init present classes "off" (None : option string) = Ok (init_proxies present classes, None).
Proof. reflexivity. Qed.
End Example.
