(* ===== verification/ButtonView.v ===== *)
(** * Buttons ([views/button_view.js], [mixins/action_support.js])

    A button is a statechart of four states.  Mouse and touch events arrive as
    method calls that the statechart forwards to the current state; a simulated
    click leaves work on a timer.  [fireAction] calls the application's action,
    which is a parameter here: a function on the button's state. *)

From S2P Require Import Prelude Statechart.
Open Scope string_scope.
Open Scope list_scope.
Open Scope flame_scope.

(** ** Firing actions *)
Module ActionSupport.
Section action.
Context (get : string -> jsval) (get_global : string -> jsval).
Context {F : Type} (function_of : nat -> string -> option F).

(** An action is a method name of the target or a function. *)
Inductive action := ANone | AName (s : string) | AFunction (f : F).

(** The call that [fireAction] makes. *)
Record action_call := Call { call_function : F; call_target : jsval; call_payload : jsval }.

(** The loop [while (typeof target === 'string')]; [None] when the fuel runs out. *)
Fixpoint resolve_target (fuel : nat) (target : jsval) : option jsval :=
  match target with
  | JStr s =>
      match fuel with
      | 0 => None
      | S n =>
          resolve_target n
            (match s with
             | String c path => if bool_decide (c = "."%char) then get path else get_global s
             | EmptyString => get_global s
             end)
      end
  | _ => Some target
  end.

Definition no_action : string := "Target does not have action".

(** [self] is the view; [target], [action_], [payload] are its properties and
    [action_arg], [payload_arg] the arguments ([ANone] and [JUndefined] when absent).
    The result is the call made, or none when there is no action. *)
Definition fireAction (fuel : nat) (self : nat) (target : jsval) (action_ : action) (payload : jsval)
    (action_arg : option action) (payload_arg : jsval) : option (outcome (option action_call)) :=
  target ← resolve_target fuel (if truthy target then target else JObj self);
  let action := default action_ action_arg in
  let payload1 := if isNone payload_arg then payload else payload_arg in
  let actualPayload := if isNone payload1 then JObj self else payload1 in
  Some
    match action with
    | ANone => Ok None
    | AFunction f => Ok (Some (Call f target actualPayload))
    | AName "" => Ok None
    | AName n =>
        match target with
        | JObj o =>
            match function_of o n with
            | Some f => Ok (Some (Call f target actualPayload))
            | None => Throw no_action
            end
        | _ => Throw no_action
        end
    end.

(** A chain of paths that ends at [v]. *)
Inductive resolves : nat -> jsval -> jsval -> Prop :=
| resolves_done v : (forall s, v <> JStr s) -> resolves 0 v v
| resolves_relative n path v : resolves n (get path) v -> resolves (S n) (JStr (String "." path)) v
| resolves_global n s v :
    (forall path, s <> String "." path) -> resolves n (get_global s) v -> resolves (S n) (JStr s) v.

Lemma resolve_target_enough n target v : resolves n target v -> forall fuel, n <= fuel -> resolve_target fuel target = Some v.
Proof.
  induction 1 as [v Hv|n path v Hr IH|n s v Hs Hr IH]; intros fuel Hf.
  - destruct fuel, v; try done; by destruct (Hv s).
  - destruct fuel as [|fuel]; [lia|]. cbn. apply IH. lia.
  - destruct fuel as [|fuel]; [lia|]. cbn. destruct s as [|c path]; [apply IH; lia|].
    case_bool_decide as Hc; [by subst; destruct (Hs path)|]. apply IH. lia.
Qed.

(** When the target is a path, or a path to a path and so on, that ends at an
    object, firing calls that object's action with the payload given, else the
    payload property, else the view itself, whatever the number of hops. *)
Theorem fireAction_calls n fuel self target name f payload payload_arg o :
  truthy target = true ->
  resolves n target (JObj o) -> n <= fuel -> name <> "" -> function_of o name = Some f ->
  fireAction fuel self target (AName name) payload None payload_arg =
  Some (Ok (Some (Call f (JObj o)
    (if negb (isNone payload_arg) then payload_arg else if negb (isNone payload) then payload else JObj self)))).
Proof.
  intros Ht Hr Hf Hname Hfun. unfold fireAction. rewrite Ht.
  rewrite (resolve_target_enough _ _ _ Hr) by done. cbn. destruct name as [|c name]; [done|].
  rewrite Hfun. by destruct payload_arg, payload.
Qed.
End action.
Arguments AName {F} s.
Arguments AFunction {F} f.
Arguments ANone {F}.
Arguments Call {F} _ _ _.

Lemma fireAction_calls_witness :
  fireAction (fun _ => JStr "App.controller") (fun _ => JObj 7) (fun _ _ => Some 42) 3 1
    (JStr ".parentView.controller") (AName "save") JUndefined None JUndefined =
  Some (Ok (Some (Call 42 (JObj 7) (JObj 1)))).
Proof.
  apply (fireAction_calls (fun _ => JStr "App.controller") (fun _ => JObj 7) (fun _ _ => Some 42)
    2 3 1 (JStr ".parentView.controller") "save" 42 JUndefined JUndefined 7); try done; [|lia].
  apply resolves_relative, resolves_global; [done|]. by apply resolves_done.
Defined.
End ActionSupport.

(** ** The button *)

(** Work left on a timer by [Ember.run.later]. *)
Inductive task := UpAndLeave | Up.

Record button := Button {
  current : option string;
  isHovered : bool;
  isActive : bool;
  isSelected : bool;
  isDisabled : bool;
  isSticky : bool;
  isDestroyed : bool;
  fired : nat;                (* calls of the action so far *)
  timers : list task
}.

Definition set_state n b := Button (Some n) (isHovered b) (isActive b) (isSelected b) (isDisabled b) (isSticky b) (isDestroyed b) (fired b) (timers b).
Definition set_hovered v b := Button (current b) v (isActive b) (isSelected b) (isDisabled b) (isSticky b) (isDestroyed b) (fired b) (timers b).
Definition set_active v b := Button (current b) (isHovered b) v (isSelected b) (isDisabled b) (isSticky b) (isDestroyed b) (fired b) (timers b).
Definition set_selected v b := Button (current b) (isHovered b) (isActive b) v (isDisabled b) (isSticky b) (isDestroyed b) (fired b) (timers b).
Definition set_disabled v b := Button (current b) (isHovered b) (isActive b) (isSelected b) v (isSticky b) (isDestroyed b) (fired b) (timers b).
Definition set_timers l b := Button (current b) (isHovered b) (isActive b) (isSelected b) (isDisabled b) (isSticky b) (isDestroyed b) (fired b) l.
Definition count_fired b := Button (current b) (isHovered b) (isActive b) (isSelected b) (isDisabled b) (isSticky b) (isDestroyed b) (S (fired b)) (timers b).

Definition hover_exit (b : button) : button := if isDestroyed b then b else set_hovered false b.

Definition button_states (n : string) : property button :=
  match n with
  | "idle" => PState (Hooks None None)
  | "hover" => PState (Hooks (Some (set_hovered true)) (Some hover_exit))
  | "mouseDownInside" => PState (Hooks (Some (set_active true)) (Some (set_active false)))
  | "mouseDownOutside" => PState (Hooks None None)
  | _ => PUndefined
  end.

#[export] Instance button_chart : Chart button := {
  currentFlameState := current;
  set_currentFlameState := set_state;
  lookup_state := button_states
}.

Definition initial (disabled sticky : bool) : button :=
  Button None false false false disabled sticky false 0 [].

Section button.
Context (action : button -> button).

(** [gotoFlameState] of a state that the view declares. *)
Definition goto (n : string) (b : button) : outcome button := gotoFlameState n b.

Definition _handleClick (b : button) : button :=
  let b1 := action (count_fired b) in
  if isSticky b1 then set_selected (negb (isSelected b1)) b1 else b1.

(** *** The methods of the states; [None] stands for [undefined]. *)

Definition idle_mouseEnter : method (O := button) := fun _ b => do! b' <- goto "hover" b ; Ok (b', JBool true).
Definition idle_touchStart : method (O := button) := fun _ b => do! b' <- goto "mouseDownInside" b ; Ok (b', JBool true).
Definition hover_mouseLeave : method (O := button) := fun _ b => do! b' <- goto "idle" b ; Ok (b', JBool true).
Definition hover_mouseDown : method (O := button) := fun _ b =>
  do! b' <- (if isDisabled b then Ok b else goto "mouseDownInside" b) ; Ok (b', JBool true).
Definition hover_simulateClick : method (O := button) := fun args b =>
  do! r <- hover_mouseDown args b ; Ok (set_timers (timers r.1 ++ [Up]) r.1, JUndefined).
Definition inside_mouseUp : method (O := button) := fun _ b =>
  do! b' <- goto "hover" (_handleClick b) ; Ok (b', JBool true).
Definition inside_touchEnd : method (O := button) := fun _ b =>
  do! b' <- goto "idle" (_handleClick b) ; Ok (b', JBool true).
Definition inside_mouseLeave : method (O := button) := fun _ b => do! b' <- goto "mouseDownOutside" b ; Ok (b', JBool true).
Definition outside_mouseUp : method (O := button) := fun _ b => do! b' <- goto "idle" b ; Ok (b', JBool true).
Definition outside_mouseEnter : method (O := button) := fun _ b => do! b' <- goto "mouseDownInside" b ; Ok (b', JBool true).

Definition hover_class : state_class := StateClass
  [("mouseLeave", hover_mouseLeave); ("mouseDown", hover_mouseDown); ("simulateClick", hover_simulateClick)]
  (fun _ => None).

(** [simulateClick] of [idle] goes through the owner's proxy, which by then finds
    the state [hover]. *)
Definition idle_simulateClick : method (O := button) := fun args b =>
  do! b1 <- goto "hover" b ;
  do! r <- match current b1 with
           | Some "hover" => hover_mouseDown args b1
           | _ => Ok (b1, JUndefined)
           end ;
  Ok (set_timers (timers r.1 ++ [UpAndLeave]) r.1, JUndefined).

Definition idle_class : state_class := StateClass
  [("mouseEnter", idle_mouseEnter); ("touchStart", idle_touchStart); ("simulateClick", idle_simulateClick)]
  (fun _ => None).
Definition inside_class : state_class := StateClass
  [("_handleClick", fun _ b => Ok (_handleClick b, JUndefined)); ("mouseUp", inside_mouseUp);
   ("touchEnd", inside_touchEnd); ("mouseLeave", inside_mouseLeave)]
  (fun _ => None).
Definition outside_class : state_class := StateClass
  [("mouseUp", outside_mouseUp); ("mouseEnter", outside_mouseEnter)] (fun _ => None).

Definition class_of (n : string) : option state_class :=
  match n with
  | "idle" => Some idle_class
  | "hover" => Some hover_class
  | "mouseDownInside" => Some inside_class
  | "mouseDownOutside" => Some outside_class
  | _ => None
  end.

(** A call on the view: forwarded by the statechart.  None of the modelled calls is
    [keyDown], whose handling is the event manager's. *)
Definition call (name : string) (b : button) : outcome (button * jsval) :=
  invokeStateMethod class_of (fun _ b => Ok (b, JUndefined)) name [] b.

Definition insertSpace (b : button) : outcome (button * jsval) :=
  do! r <- call "simulateClick" b ; Ok (r.1, JBool true).

Definition run_task (t : task) (b : button) : outcome button :=
  do! r <- call "mouseUp" b ;
  match t with
  | Up => Ok r.1
  | UpAndLeave => do! r' <- call "mouseLeave" r.1 ; Ok r'.1
  end.

(** *** Events *)
Inductive event :=
| MouseEnter | MouseLeave | MouseDown | MouseUp | TouchStart | TouchEnd
| SimulateClick | InsertSpace
| Timer (i : nat)               (* the [i]-th pending task comes due *)
| SetDisabled (v : bool).       (* a binding changes [isDisabled] *)

Definition step (e : event) (b : button) : outcome button :=
  match e with
  | MouseEnter => do! r <- call "mouseEnter" b ; Ok r.1
  | MouseLeave => do! r <- call "mouseLeave" b ; Ok r.1
  | MouseDown => do! r <- call "mouseDown" b ; Ok r.1
  | MouseUp => do! r <- call "mouseUp" b ; Ok r.1
  | TouchStart => do! r <- call "touchStart" b ; Ok r.1
  | TouchEnd => do! r <- call "touchEnd" b ; Ok r.1
  | SimulateClick => do! r <- call "simulateClick" b ; Ok r.1
  | InsertSpace => do! r <- insertSpace b ; Ok r.1
  | Timer i =>
      match timers b !! i with
      | Some t => run_task t (set_timers (delete i (timers b)) b)
      | None => Ok b
      end
  | SetDisabled v => Ok (set_disabled v b)
  end.

Fixpoint run (es : list event) (b : button) : outcome button :=
  match es with
  | [] => Ok b
  | e :: es' => do! b' <- step e b ; run es' b'
  end.

(** ** Specification: the automaton of a push button *)
Inductive astate := AIdle | AHover | AInside | AOutside.

Definition state_name (c : astate) : string :=
  match c with
  | AIdle => "idle" | AHover => "hover" | AInside => "mouseDownInside" | AOutside => "mouseDownOutside"
  end.

(** The state after an event and the number of times the action fires. *)
Definition anext1 (disabled : bool) (c : astate) (e : event) : astate * nat :=
  match e, c with
  | MouseEnter, AIdle => (AHover, 0)
  | MouseEnter, AOutside => (AInside, 0)
  | MouseLeave, AHover => (AIdle, 0)
  | MouseLeave, AInside => (AOutside, 0)
  | MouseDown, AHover => (if disabled then AHover else AInside, 0)
  | MouseUp, AInside => (AHover, 1)
  | MouseUp, AOutside => (AIdle, 0)
  | TouchStart, AIdle => (AInside, 0)
  | TouchEnd, AInside => (AIdle, 1)
  | (SimulateClick | InsertSpace), (AIdle | AHover) => (if disabled then AHover else AInside, 0)
  | _, _ => (c, 0)
  end.

Definition anext (b : button) (c : astate) (e : event) : astate * nat :=
  let d := isDisabled b in
  match e with
  | Timer i =>
      match timers b !! i with
      | Some Up => anext1 d c MouseUp
      | Some UpAndLeave =>
          let '(c1, n1) := anext1 d c MouseUp in
          let '(c2, n2) := anext1 d c1 MouseLeave in (c2, n1 + n2)
      | None => (c, 0)
      end
  | _ => anext1 d c e
  end.

(** The button is in state [c] and shows it. *)
Record shows (c : astate) (b : button) : Prop := {
  shows_current : current b = Some (state_name c);
  shows_hovered : isHovered b = bool_decide (state_name c = "hover");
  shows_active : isActive b = bool_decide (state_name c = "mouseDownInside");
  shows_alive : isDestroyed b = false
}.

(** The presses an event makes: what a click is made of. *)
Definition presses (e : event) : nat :=
  match e with MouseDown | TouchStart | SimulateClick | InsertSpace => 1 | _ => 0 end.
Definition held (c : astate) : nat := match c with AInside | AOutside => 1 | _ => 0 end.

(** The application's action leaves the button's own state to the button. *)
Class ActionLaws : Prop := {
  action_current b : current (action b) = current b;
  action_hovered b : isHovered (action b) = isHovered b;
  action_active b : isActive (action b) = isActive b;
  action_disabled b : isDisabled (action b) = isDisabled b;
  action_destroyed b : isDestroyed (action b) = isDestroyed b;
  action_fired b : fired (action b) = fired b
}.

(** ** Lemmas *)

Definition frame (b b' : button) : Prop := isDisabled b' = isDisabled b /\ fired b' = fired b /\ timers b' = timers b.

Lemma goto_ok c c' b : shows c b ->
  exists b', goto (state_name c') b = Ok b' /\ shows c' b' /\ frame b b'.
Proof.
  intros [Hc Hh Ha Hd]. unfold goto, gotoFlameState. cbn [lookup_state currentFlameState button_chart].
  rewrite Hc. destruct b as [cur hov act sel dis sti des fi ti]. cbn in *. subst.
  destruct c, c'; cbn; eexists; repeat split.
Qed.

Lemma shows_timers c b l : shows c b -> shows c (set_timers l b).
Proof. intros [? ? ? ?]. by split. Qed.
Lemma shows_disabled c b v : shows c b -> shows c (set_disabled v b).
Proof. intros [? ? ? ?]. by split. Qed.

Section laws.
Context (Hact : ActionLaws).

Lemma handleClick_ok c b : shows c b ->
  shows c (_handleClick b) /\ fired (_handleClick b) = S (fired b) /\ isDisabled (_handleClick b) = isDisabled b.
Proof.
  intros [Hc Hh Ha Hd]. unfold _handleClick. cbv zeta.
  set (b1 := action (count_fired b)).
  assert (shows c b1 /\ fired b1 = S (fired b) /\ isDisabled b1 = isDisabled b) as (Hs & Hf & Hdi).
  { unfold b1. split_and!; [split| |]; rewrite ?action_current, ?action_hovered, ?action_active,
      ?action_destroyed, ?action_fired, ?action_disabled; done. }
  destruct (isSticky b1); [|done]. destruct Hs. by repeat split.
Qed.

#[local] Arguments goto : simpl never.
#[local] Arguments _handleClick : simpl never.

Ltac go_state n :=
  match constr:(Set) with
  | _ => let _ := match goal with _ => unify n (state_name AIdle) end in constr:(AIdle)
  | _ => let _ := match goal with _ => unify n (state_name AHover) end in constr:(AHover)
  | _ => let _ := match goal with _ => unify n (state_name AInside) end in constr:(AInside)
  | _ => let _ := match goal with _ => unify n (state_name AOutside) end in constr:(AOutside)
  end.

Ltac unfold_methods :=
  unfold idle_mouseEnter, idle_touchStart, idle_simulateClick, hover_mouseLeave, hover_simulateClick,
    hover_mouseDown, inside_mouseUp, inside_touchEnd, inside_mouseLeave, outside_mouseUp, outside_mouseEnter; cbn.

(** Runs the transitions of the goal one by one. *)
Ltac run_goto :=
  repeat match goal with
  | |- context [goto ?n (_handleClick ?b)] =>
      match goal with Hs : shows _ b |- _ =>
        let H := fresh in pose proof (handleClick_ok _ _ Hs) as H;
        destruct H as (? & ? & ?); generalize dependent (_handleClick b); intros
      end
  | Hs : shows _ ?b |- context [goto ?n ?b] =>
      let c' := go_state n in
      let b' := fresh "b" in let Hg := fresh "Hg" in
      destruct (goto_ok _ c' _ Hs) as (b' & Hg & ? & (? & ? & ?)); cbn [state_name] in Hg; rewrite Hg; clear Hg; cbn
  | Hs : shows ?c ?b |- context [current ?b] => rewrite (shows_current _ _ Hs); cbn
  | |- context [if isDisabled ?b then _ else _] => destruct (isDisabled b) eqn:?; cbn
  end.

Ltac finish_call :=
  eexists _, _; split_and!; [reflexivity|solve [assumption|apply shows_timers; assumption]|cbn; congruence || lia|cbn; congruence].

Lemma call_basic name e c b :
  shows c b ->
  (name, e) ∈ [("mouseEnter", MouseEnter); ("mouseLeave", MouseLeave); ("mouseDown", MouseDown);
               ("mouseUp", MouseUp); ("touchStart", TouchStart); ("touchEnd", TouchEnd);
               ("simulateClick", SimulateClick)] ->
  exists b' v, call name b = Ok (b', v) /\ shows (anext1 (isDisabled b) c e).1 b' /\
    fired b' = fired b + (anext1 (isDisabled b) c e).2 /\ isDisabled b' = isDisabled b.
Proof.
  intros Hs Hin. unfold call, invokeStateMethod. cbn [currentFlameState button_chart].
  rewrite (shows_current _ _ Hs). cbn [option_bind mbind].
  repeat match type of Hin with _ ∈ _ :: _ => apply elem_of_cons in Hin as [Hin|Hin] end;
    [..|by apply elem_of_nil in Hin];
    injection Hin as -> ->; (destruct c; cbn; unfold_methods; run_goto; first [congruence|finish_call]).
Qed.

Lemma call_ok name e c b :
  shows c b ->
  (name, e) ∈ [("mouseEnter", MouseEnter); ("mouseLeave", MouseLeave); ("mouseDown", MouseDown);
               ("mouseUp", MouseUp); ("touchStart", TouchStart); ("touchEnd", TouchEnd);
               ("simulateClick", SimulateClick)] ->
  exists b', (do! r <- call name b ; Ok r.1) = Ok b' /\ shows (anext1 (isDisabled b) c e).1 b' /\
    fired b' = fired b + (anext1 (isDisabled b) c e).2 /\ isDisabled b' = isDisabled b.
Proof.
  intros Hs Hin. destruct (call_basic name e c b Hs Hin) as (b' & v & -> & ?). cbn. eauto.
Qed.

Lemma run_task_ok t c b : shows c b ->
  let next := match t with
              | Up => anext1 (isDisabled b) c MouseUp
              | UpAndLeave =>
                  let '(c1, n1) := anext1 (isDisabled b) c MouseUp in
                  let '(c2, n2) := anext1 (isDisabled b) c1 MouseLeave in (c2, n1 + n2)
              end in
  exists b', run_task t b = Ok b' /\ shows next.1 b' /\ fired b' = fired b + next.2 /\ isDisabled b' = isDisabled b.
Proof.
  intros Hs. cbv zeta. unfold run_task.
  destruct (call_basic "mouseUp" MouseUp c b Hs ltac:(set_solver)) as (b1 & v & -> & Hs1 & Hf1 & Hd1).
  cbn [outcome_bind fst]. destruct t; [|by eauto].
  destruct (call_basic "mouseLeave" MouseLeave _ b1 Hs1 ltac:(set_solver)) as (b2 & v' & -> & Hs2 & Hf2 & Hd2).
  cbn [outcome_bind fst]. rewrite Hd1 in *. exists b2.
  destruct (anext1 (isDisabled b) c MouseUp) as [c1 n1]. cbn [fst snd] in *.
  destruct (anext1 (isDisabled b) c1 MouseLeave) as [c2 n2]. cbn [fst snd] in *.
  split_and!; [done|done|lia|done].
Qed.

Lemma step_ok e c b : shows c b ->
  exists b', step e b = Ok b' /\ shows (anext b c e).1 b' /\ fired b' = fired b + (anext b c e).2 /\
    (isDisabled b' = match e with SetDisabled v => v | _ => isDisabled b end).
Proof.
  intros Hs. destruct e; unfold step, anext; cbv zeta;
    try (eapply call_ok; [exact Hs|set_solver]).
  - unfold insertSpace. destruct (call_basic "simulateClick" SimulateClick c b Hs ltac:(set_solver)) as (b1 & v & -> & H).
    exists b1. cbn. by destruct c.
  - destruct (timers b !! i) as [t|]; [|exists b; rewrite Nat.add_0_r; done].
    destruct (run_task_ok t c (set_timers (delete i (timers b)) b) (shows_timers _ _ _ Hs)) as (b' & H).
    exists b'. by destruct t.
  - eexists. split; [done|]. split_and!; [by apply shows_disabled|cbn; lia|done].
Qed.
End laws.

Lemma anext1_held d c e : held (anext1 d c e).1 + (anext1 d c e).2 <= held c + presses e.
Proof. destruct e, c, d; cbn; lia. Qed.

Lemma anext_held b c e : held (anext b c e).1 + (anext b c e).2 <= held c + presses e.
Proof.
  pose proof (anext1_held (isDisabled b)) as H. destruct e; try apply H. unfold anext.
  destruct (timers b !! i) as [[]|]; [|apply (H c MouseUp)|cbn; lia].
  pose proof (H c MouseUp) as H1. destruct (anext1 _ c MouseUp) as [c1 n1].
  pose proof (H c1 MouseLeave) as H2. destruct (anext1 _ c1 MouseLeave) as [c2 n2]. cbn in *. lia.
Qed.

Lemma run_ok (Hact : ActionLaws) es : forall c b, shows c b ->
  exists b' c', run es b = Ok b' /\ shows c' b' /\ fired b' + held c' <= fired b + held c + sum_list (presses <$> es).
Proof.
  induction es as [|e es IH]; intros c b Hs; [exists b, c; cbn; split_and!; [done|done|lia]|].
  destruct (step_ok Hact e c b Hs) as (b1 & He & Hs1 & Hf & _). destruct (IH _ _ Hs1) as (b' & c' & Hr & Hs' & Hle).
  exists b', c'. cbn [run]. rewrite He. cbn. split_and!; [done|done|].
  pose proof (anext_held b c e). cbn in *. lia.
Qed.

Definition quiet (e : event) : Prop :=
  match e with TouchStart | SetDisabled _ => False | _ => True end.

Lemma anext1_disabled c e : held c = 0 -> quiet e -> held (anext1 true c e).1 = 0 /\ (anext1 true c e).2 = 0.
Proof. destruct c, e; cbn; done || lia. Qed.

Lemma anext_disabled b c e : isDisabled b = true -> held c = 0 -> quiet e ->
  held (anext b c e).1 = 0 /\ (anext b c e).2 = 0.
Proof.
  intros Hd Hc He. unfold anext. rewrite Hd. destruct e; try by apply anext1_disabled.
  destruct (timers b !! i) as [[]|]; [|by apply anext1_disabled|done].
  destruct c; cbn in *; done || lia.
Qed.

(** A property that the primitive updates preserve is preserved by every event. *)
Section preserved.
Context (P : button -> Prop) (Hact : ActionLaws).
Context (Pstate : forall n b, P b -> P (set_state n b)) (Phover : forall v b, P b -> P (set_hovered v b))
  (Pactive : forall v b, P b -> P (set_active v b)) (Ptimers : forall l b, P b -> P (set_timers l b))
  (Pdisabled : forall v b, P b -> P (set_disabled v b)) (Pclick : forall b, P b -> P (_handleClick b)).

Lemma hook_preserved n f b : P b -> button_states n = PState f -> P (run_hook (enterState f) b) /\ P (run_hook (exitState f) b).
Proof.
  intros Hb. unfold button_states. repeat case_match; try discriminate; intros [= <-]; cbn; auto.
  split; [auto|]. unfold hover_exit. case_match; auto.
Qed.

Lemma goto_preserved n b b' : P b -> goto n b = Ok b' -> P b'.
Proof.
  intros Hb. unfold goto, gotoFlameState. cbn [lookup_state currentFlameState set_currentFlameState button_chart].
  assert (Hx : forall c, P (run_hook (exitState (hooks_of c)) b)).
  { intros c. unfold hooks_of. cbn [lookup_state button_chart].
    destruct (button_states c) eqn:E; try exact Hb. by eapply hook_preserved. }
  destruct (button_states n) eqn:E, (current b) as [c|]; intros H; try discriminate H.
  - by injection H as <-.
  - case_bool_decide; injection H as <-; [done|]. eapply hook_preserved; [|exact E]. auto.
  - injection H as <-. eapply hook_preserved; [|exact E]. auto.
Qed.

Lemma bind_preserved (m : outcome button) (v : jsval) b' v' :
  (do! b <- m ; Ok (b, v)) = Ok (b', v') -> m = Ok b'.
Proof. destruct m; cbn; [by intros [= -> _]|discriminate]. Qed.

Lemma mouseDown_preserved args b b' v : P b -> hover_mouseDown args b = Ok (b', v) -> P b'.
Proof.
  unfold hover_mouseDown. intros Hb Hm%bind_preserved. destruct (isDisabled b); [by injection Hm as <-|].
  by eapply goto_preserved.
Qed.

Lemma simulateClick_preserved args b b' v :
  P b -> (idle_simulateClick args b = Ok (b', v) \/ hover_simulateClick args b = Ok (b', v)) -> P b'.
Proof.
  intros Hb [H|H].
  - unfold idle_simulateClick in H. destruct (goto "hover" b) as [b1|] eqn:E; [|discriminate].
    cbn [outcome_bind] in H. apply goto_preserved in E; [|done].
    enough (forall m : outcome (button * jsval), (forall r w, m = Ok (r, w) -> P r) ->
      (do! r <- m ; Ok (set_timers (timers r.1 ++ [UpAndLeave]) r.1, JUndefined)) = Ok (b', v) -> P b') as Hg.
    { eapply Hg; [|exact H]. intros r w Hr. repeat case_match; try (by injection Hr as <- _);
        by eapply mouseDown_preserved. }
    intros [[r w]|] Hr; cbn; [|discriminate]. intros [= <- _]. by eapply Ptimers, Hr.
  - unfold hover_simulateClick in H. destruct (hover_mouseDown args b) as [[r w]|] eqn:E; [|discriminate].
    injection H as <- _. apply Ptimers. by eapply mouseDown_preserved.
Qed.

Lemma call_preserved name b b' v : P b -> call name b = Ok (b', v) -> P b'.
Proof.
  intros Hb. unfold call, invokeStateMethod. destruct (currentFlameState b ≫= class_of) as [c|] eqn:Ec; [|discriminate].
  assert (Hc : c ∈ [idle_class; hover_class; inside_class; outside_class]).
  { destruct (currentFlameState b) as [n|]; [|done]. cbn in Ec. unfold class_of in Ec.
    repeat case_match; try discriminate; injection Ec as <-; set_solver. }
  unfold state_method. destruct (find_method name (own_methods c)) as [mth|] eqn:Em.
  - intros Hm. repeat (apply elem_of_cons in Hc as [->|Hc]; [cbn in Em|]); [..|by apply elem_of_nil in Hc];
      repeat (case_match; [injection Em as <-|]); try discriminate Em;
      try (apply bind_preserved in Hm; eapply goto_preserved; [|exact Hm]; by auto);
      try (by eapply mouseDown_preserved); try (eapply simulateClick_preserved; by eauto).
    injection Hm as <- _. auto.
  - assert (inherited c name = None) as ->.
    { repeat (apply elem_of_cons in Hc as [->|Hc]; [done|]). by apply elem_of_nil in Hc. }
    destruct (name =? "keyDown")%string; intros [= <- _]; done.
Qed.

Lemma step_preserved e b b' : P b -> step e b = Ok b' -> P b'.
Proof.
  intros Hb.
  assert (Hcall : forall n b b1, P b -> (do! r <- call n b ; Ok r.1) = Ok b1 -> P b1).
  { intros n b0 b1 Hb0. destruct (call n b0) as [[r v]|] eqn:E; [|discriminate]. intros [= <-].
    by eapply call_preserved. }
  destruct e; unfold step; try (by apply Hcall).
  - unfold insertSpace. destruct (call _ b) as [[r v]|] eqn:E; [|discriminate]. intros [= <-].
    by eapply call_preserved.
  - destruct (timers b !! i) as [t|]; [|by intros [= <-]]. unfold run_task.
    destruct (call "mouseUp" _) as [[r v]|] eqn:E; [|discriminate].
    apply call_preserved in E; [|by apply Ptimers]. cbn. destruct t; [by apply Hcall|by intros [= <-]].
  - intros [= <-]. auto.
Qed.

Lemma run_preserved es : forall b b', P b -> run es b = Ok b' -> P b'.
Proof.
  induction es as [|e es IH]; intros b b' Hb; cbn; [by intros [= <-]|].
  destruct (step e b) as [b1|] eqn:E; [|discriminate]. cbn. apply IH. by eapply step_preserved.
Qed.
End preserved.
End button.

(** ** Properties *)

(** C18. Every event, timers included, moves the button as the automaton of a push
    button does: it never throws, ends in the automaton's state with exactly
    [isHovered] and [isActive] shown accordingly, and fires the action as often as
    the automaton says. *)
Theorem button_refines action (Hact : ActionLaws action) e c b :
  shows c b ->
  exists b', step action e b = Ok b' /\ shows (anext b c e).1 b' /\ fired b' = fired b + (anext b c e).2.
Proof.
  intros Hs. destruct (step_ok action Hact e c b Hs) as (b' & He & Hs' & Hf & _). eauto.
Qed.

(** From its initial state a button handles every sequence of events without
    throwing, and it has fired at most once per press, a press still held down
    not counted. *)
Theorem button_runs action (Hact : ActionLaws action) disabled sticky es :
  exists b0 b c, gotoFlameState "idle" (initial disabled sticky) = Ok b0 /\
    run action es b0 = Ok b /\ shows c b /\ fired b + held c <= sum_list (presses <$> es).
Proof.
  eexists. edestruct (run_ok action Hact es AIdle) as (b & c & Hr & Hs & Hle).
  2: { exists b, c. split; [reflexivity|]. split; [exact Hr|]. split; [done|]. cbn in Hle. lia. }
  by split.
Qed.

(** A disabled button that is not held down never fires, whatever the mouse,
    the keyboard and the timers do. *)
Theorem button_disabled action (Hact : ActionLaws action) es c b :
  shows c b -> held c = 0 -> isDisabled b = true -> Forall quiet es ->
  exists b', run action es b = Ok b' /\ fired b' = fired b /\ isDisabled b' = true.
Proof.
  intros Hs Hc Hd Hes. revert c b Hs Hc Hd.
  induction Hes as [|e es He Hes IH]; intros c b Hs Hc Hd; [by exists b|].
  destruct (step_ok action Hact e c b Hs) as (b1 & Hst & Hs1 & Hf & Hd1).
  destruct (anext_disabled b c e Hd Hc He) as [Hh Hn].
  destruct (IH _ b1 Hs1 Hh) as (b' & Hr & Hfb & Hdb); [by destruct e; cbn in *; rewrite ?Hd1|].
  exists b'. cbn [run]. rewrite Hst. cbn. split_and!; [done|lia|done].
Qed.

(** When the application's action leaves [isSelected] and [isSticky] alone, a
    sticky button has toggled once per firing, and one that is not sticky keeps
    its selection. *)
Theorem button_selection action (Hact : ActionLaws action) es b b' :
  (forall b, isSelected (action b) = isSelected b) -> (forall b, isSticky (action b) = isSticky b) ->
  run action es b = Ok b' ->
  isSelected b' = xorb (isSelected b) (isSticky b && xorb (Nat.odd (fired b')) (Nat.odd (fired b))).
Proof.
  intros Hsel Hsti Hr.
  set (P := fun b' : button => isSticky b' = isSticky b /\
    isSelected b' = xorb (isSelected b) (isSticky b && xorb (Nat.odd (fired b')) (Nat.odd (fired b)))).
  enough (P b') as [_ ?] by done.
  assert (P b) as Hb.
  { split; [done|]. rewrite xorb_nilpotent, andb_false_r. by destruct (isSelected b). }
  refine (run_preserved action P Hact _ _ _ _ _ _ es b b' Hb Hr); try (by intros ? ? [? ?]).
  intros b1 [Hs1 Hp1]. unfold _handleClick. cbv zeta. unfold P. rewrite Hsti. cbn [isSticky count_fired].
  assert (Hfa : fired (action (count_fired b1)) = S (fired b1)) by (by rewrite (action_fired action)).
  destruct (isSticky b1) eqn:E; cbn [set_selected isSticky isSelected fired];
    rewrite ?Hsel, ?Hsti, ?Hfa; cbn [count_fired isSelected isSticky]; rewrite Hp1, <- Hs1;
    (split; [done|]); cbn [andb]; [|done]. rewrite Nat.odd_succ, <- Nat.negb_odd.
  by destruct (isSelected b), (Nat.odd (fired b1)), (Nat.odd (fired b)).
Qed.

(** ** Witnesses *)
Lemma id_action_laws : ActionLaws id.
Proof. by split. Defined.

Definition ex_idle : button := Button (Some "idle") false false false false true false 0 [].
Definition ex_disabled : button := Button (Some "idle") false false false true false false 0 [].

Lemma ex_idle_shows : shows AIdle ex_idle.
Proof. by split. Defined.
Lemma ex_disabled_shows : shows AIdle ex_disabled.
Proof. by split. Defined.

Lemma button_refines_witness :
  exists b', step id SimulateClick ex_idle = Ok b' /\ shows AInside b' /\ fired b' = 0.
Proof. exact (button_refines id id_action_laws SimulateClick AIdle ex_idle ex_idle_shows). Defined.

Lemma button_runs_witness :
  exists b0 b c, gotoFlameState "idle" (initial false true) = Ok b0 /\
    run id [MouseEnter; MouseDown; MouseLeave; MouseEnter; MouseUp; SimulateClick; Timer 0] b0 = Ok b /\
    shows c b /\ fired b + held c <= 2.
Proof.
  exact (button_runs id id_action_laws false true
    [MouseEnter; MouseDown; MouseLeave; MouseEnter; MouseUp; SimulateClick; Timer 0]).
Defined.

Lemma button_disabled_witness :
  exists b', run id [MouseEnter; MouseDown; MouseUp; InsertSpace; Timer 0] ex_disabled = Ok b' /\
    fired b' = 0 /\ isDisabled b' = true.
Proof.
  apply (button_disabled id id_action_laws _ AIdle ex_disabled); [exact ex_disabled_shows|done|done|].
  repeat constructor.
Defined.

Lemma button_selection_witness :
  exists b', run id [InsertSpace; Timer 0; MouseEnter; MouseDown] ex_idle = Ok b' /\
  isSelected b' = xorb false (true && xorb (Nat.odd (fired b')) false).
Proof.
  eexists. split; [vm_compute; reflexivity|].
  apply (button_selection id id_action_laws [InsertSpace; Timer 0; MouseEnter; MouseDown] ex_idle); try done.
Defined.

(** A touch presses a disabled button: [touchStart] of the idle state does not look
    at [isDisabled], as [mouseDown] of the hover state does. *)
Lemma disabled_touch_fires :
  (run id [TouchStart; TouchEnd] ex_disabled = Ok (count_fired ex_disabled)) /\
  (run id [MouseEnter; MouseDown; MouseUp; MouseLeave] ex_disabled = Ok ex_disabled).
Proof. by vm_compute. Qed.
