(* ===== verification/EventManager.v ===== *)
(** * Mouse and key events ([mixins/event_manager.js])

    Views form a tree.  Mouse events bubble from the view under the pointer to the
    first ancestor whose handler accepts them, which then captures the mouse until
    the button is released; key events go to the top of a stack of key responders
    and bubble from there.

    Handlers and life-cycle hooks belong to the views: they are parameters,
    functions on the whole state.  Methods recur along the parents with fuel; the
    theorems give the fuel that is enough. *)

From S2P Require Import Prelude.
From stdpp Require Import gmap.
Open Scope string_scope.
Open Scope list_scope.
Open Scope flame_scope.

(** ** Data *)

(** The properties of a view, or of another object on the responder stack, that
    the event manager reads. *)
Record vinfo := VInfo {
  parentView : option nat;
  isFlame : bool;                (* has [becomeKeyResponder] *)
  isView : bool;                 (* [instanceof Ember.View] *)
  hasSet : bool;                 (* has [set] *)
  acceptsKeyResponder : bool;
  isDisabled : bool;
  isVisible : bool;
  isDestroyed : bool;
  inDOM : bool                   (* [_state === 'inDOM'] *)
}.

Record world (A : Type) := World {
  app : A;                       (* the state of the application *)
  views : gmap nat vinfo;
  _stack : list nat;             (* the key responders, the current one first *)
  mouseResponder : option nat;
  focused : gset nat             (* the objects with [isFocused] *)
}.
Arguments World {A} _ _ _ _ _.
Arguments app {A} _.
Arguments views {A} _.
Arguments _stack {A} _.
Arguments mouseResponder {A} _.
Arguments focused {A} _.

(** What a handler returns: [true], [false] or nothing, or the marker
    [ALLOW_BROWSER_DEFAULT_HANDLING]. *)
Inductive result := Handled | Passed | AllowBrowserDefault.

#[export] Instance result_eq_dec : EqDecision result.
Proof. solve_decision. Defined.

Inductive key_event_type := EKeyDown | EKeyPress | EOther.
Record ui_event := UIEvent { event_type : key_event_type; keyCode : Z; shiftKey : bool }.

Definition KEY_BINDINGS (code : Z) : option string :=
  match code with
  | 8 => Some "deleteBackward" | 9 => Some "insertTab" | 13 => Some "insertNewline"
  | 27 => Some "cancel" | 32 => Some "insertSpace"
  | 37 => Some "moveLeft" | 38 => Some "moveUp" | 39 => Some "moveRight" | 40 => Some "moveDown"
  | 46 => Some "deleteForward"
  | _ => None
  end%Z.

Definition MODIFIED_KEY_BINDINGS (code : Z) : option string :=
  match code with
  | 8 => Some "deleteForward" | 9 => Some "insertBacktab"
  | 37 => Some "moveLeftAndModifySelection" | 38 => Some "moveUpAndModifySelection"
  | 39 => Some "moveRightAndModifySelection" | 40 => Some "moveDownAndModifySelection"
  | _ => None
  end%Z.

Section events.
Context {A : Type}.
Abbreviation state := (world A).
Context (handler : nat -> string -> option (ui_event -> nat -> state -> state * result)).
Context (hook : nat -> string -> option (state -> state)).

Definition set_stack l (w : state) : state := World (app w) (views w) l (mouseResponder w) (focused w).
Definition set_mouse m (w : state) : state := World (app w) (views w) (_stack w) m (focused w).
Definition set_focused f (w : state) : state := World (app w) (views w) (_stack w) (mouseResponder w) f.

Definition info (w : state) (v : nat) : vinfo :=
  default (VInfo None false false false false false false false false) (views w !! v).

(** [if (view.hook) view.hook()] *)
Definition call_hook (v : nat) (name : string) (w : state) : state :=
  match hook v name with Some f => f w | None => w end.

(** ** The stack of key responders *)

Definition current (w : state) : option nat := head (_stack w).

Definition focus (v : nat) (on : bool) (w : state) : state :=
  if hasSet (info w v) && negb (isDestroyed (info w v))
  then set_focused (if on then {[v]} ∪ focused w else focused w ∖ {[v]}) w
  else w.

Definition push (view : option nat) (w : state) : state :=
  match view with
  | None => w
  | Some v =>
      let w1 := call_hook v "willBecomeKeyResponder" w in
      let w2 := focus v true w1 in
      let w3 := set_stack (v :: _stack w2) w2 in
      call_hook v "didBecomeKeyResponder" w3
  end.

(** The stack is popped after the hook of the current responder has run; were the
    hook to empty it, the next line would read a property of [undefined]. *)
Definition pop (w : state) : outcome (state * option nat) :=
  match current w with
  | None => Ok (w, None)
  | Some c =>
      let w1 := call_hook c "willLoseKeyResponder" w in
      match _stack w1 with
      | [] => Throw TypeError
      | v :: rest =>
          let w2 := focus v false (set_stack rest w1) in
          Ok (call_hook v "didLoseKeyResponder" w2, Some v)
      end
  end.

Definition replace (view : nat) (w : state) : outcome state :=
  match current w with
  | Some c =>
      if bool_decide (c = view) then Ok w
      else
        let w1 := if isView (info w c) then w else call_hook c "blur" w in
        do! r <- pop w1 ; Ok (push (Some view) r.1)
  | None => do! r <- pop w ; Ok (push (Some view) r.1)
  end.

(** [None] when the fuel runs out. *)
Fixpoint becomeKeyResponder (fuel : nat) (rep : option bool) (v : nat) (w : state) : option (outcome state) :=
  match fuel with
  | 0 => None
  | S n =>
      let i := info w v in
      if acceptsKeyResponder i && negb (isDisabled i) then
        match rep with
        | None | Some true => Some (replace v w)
        | Some false => Some (Ok (push (Some v) w))
        end
      else
        match parentView i with
        | Some p => if isFlame (info w p) then becomeKeyResponder n rep p w else Some (Ok w)
        | None => Some (Ok w)
        end
  end.

Definition resignKeyResponder (w : state) : outcome state := do! r <- pop w ; Ok r.1.

(** ** Mouse events *)

Fixpoint _dispatch (fuel : nat) (name : string) (ev : ui_event) (v : nat) (w : state) : option (state * option nat) :=
  match fuel with
  | 0 => None
  | S n =>
      let '(w1, r) :=
        match handler v name with
        | Some h => let '(w', r) := h ev v w in (w', Some r)
        | None => (w, None)
        end in
      match r with
      | Some AllowBrowserDefault => Some (w1, None)
      | Some Handled => Some (w1, Some v)
      | Some Passed | None =>
          match parentView (info w1 v) with
          | Some p => _dispatch n name ev p w1
          | None => Some (w1, None)
          end
      end
  end.

(** The event handlers return whether the browser may go on with the event. *)
Definition mouseDown (fuel : nat) (ev : ui_event) (v : nat) (w : state) : option (outcome (state * bool)) :=
  b ← becomeKeyResponder fuel None v w;
  match b with
  | Throw e => Some (Throw e)
  | Ok w1 =>
      r ← _dispatch fuel "mouseDown" ev v (set_mouse None w1);
      let '(w2, handlingView) := r in
      Some (Ok (match handlingView with Some h => set_mouse (Some h) w2 | None => w2 end,
                bool_decide (handlingView = None)))
  end.

Definition dispatched (r : state * option nat) : state * bool := (r.1, bool_decide (r.2 = None)).

Definition mouseUp (fuel : nat) (ev : ui_event) (v : nat) (w : state) : option (state * bool) :=
  match mouseResponder w with
  | Some m =>
      if inDOM (info w m) then dispatched <$> _dispatch fuel "mouseUp" ev m (set_mouse None w)
      else Some (w, true)
  | None => dispatched <$> _dispatch fuel "mouseUp" ev v w
  end.

Definition mouseMove (fuel : nat) (ev : ui_event) (v : nat) (w : state) : option (state * bool) :=
  match mouseResponder w with
  | Some m =>
      if inDOM (info w m) then dispatched <$> _dispatch fuel "mouseMove" ev m w
      else Some (w, true)
  | None => dispatched <$> _dispatch fuel "mouseMove" ev v w
  end.

Definition doubleClick (fuel : nat) (ev : ui_event) (v : nat) (w : state) : option (state * bool) :=
  dispatched <$> _dispatch fuel "doubleClick" ev (default v (mouseResponder w)) w.

(** The handler on the window, for a button released outside of any view. *)
Definition window_mouseup (fuel : nat) (ev : ui_event) (w : state) : option (state * bool) :=
  match mouseResponder w with
  | Some m =>
      if inDOM (info w m) then dispatched <$> _dispatch fuel "mouseUp" ev m (set_mouse None w)
      else Some (w, true)
  | None => Some (w, true)
  end.

(** ** Key events *)

Definition interpretKeyEvents (ev : ui_event) (v : nat) (w : state) : state * result :=
  match (if shiftKey ev then MODIFIED_KEY_BINDINGS else KEY_BINDINGS) (keyCode ev) with
  | Some eventName =>
      match handler v eventName with
      | Some h => h ev v w
      | None => (w, Passed)
      end
  | None => (w, Passed)
  end.

(** [handleKeyEvent] with its [_handleKeyEvent] inlined where it recurs. *)
Fixpoint handleKeyEvent (fuel : nat) (ev : ui_event) (v : nat) (w : state) : option (state * bool) :=
  match fuel with
  | 0 => None
  | S n =>
      let emberEvent := match event_type ev with
                        | EKeyDown => Some "keyDown" | EKeyPress => Some "keyPress" | EOther => None
                        end in
      match emberEvent ≫= handler v with
      | Some h =>
          (* called on the current key responder, whichever view it was found on *)
          let '(w1, r) := h ev (default v (current w)) w in
          Some (w1, match r with Passed => true | _ => false end)
      | None =>
          let '(w1, r) := match event_type ev with
                          | EKeyDown => interpretKeyEvents ev v w
                          | _ => (w, Passed)
                          end in
          match r with
          | AllowBrowserDefault => Some (w1, true)
          | Handled => Some (w1, false)
          | Passed =>
              match parentView (info w1 v) with
              | Some p => handleKeyEvent n ev p w1
              | None => Some (w1, true)
              end
          end
      end
  end.

(** [keyDown] and [keyPress] of the event manager and the handler on the document. *)
Definition document_key (fuel : nat) (ev : ui_event) (w : state) : option (state * bool) :=
  match current w with
  | Some c =>
      if isView (info w c) && isVisible (info w c) then handleKeyEvent fuel ev c w else Some (w, true)
  | None => Some (w, true)
  end.

(** ** Specification *)

(** The view and its ancestors. *)
Inductive chain (m : gmap nat vinfo) : nat -> list nat -> Prop :=
| chain_root v : m !! v ≫= parentView = None -> chain m v [v]
| chain_up v p l : m !! v ≫= parentView = Some p -> chain m p l -> chain m v (v :: l).

(** An event visits the views of a list in order until one accepts it. *)
Inductive bubbles (name : string) (ev : ui_event) : list nat -> state -> state -> option nat -> Prop :=
| bubbles_nobody w : bubbles name ev [] w w None
| bubbles_handled v l h w w' :
    handler v name = Some h -> h ev v w = (w', Handled) -> bubbles name ev (v :: l) w w' (Some v)
| bubbles_browser v l h w w' :
    handler v name = Some h -> h ev v w = (w', AllowBrowserDefault) -> bubbles name ev (v :: l) w w' None
| bubbles_passed v l h w w' w'' r :
    handler v name = Some h -> h ev v w = (w', Passed) -> bubbles name ev l w' w'' r ->
    bubbles name ev (v :: l) w w'' r
| bubbles_missing v l w w' r :
    handler v name = None -> bubbles name ev l w w' r -> bubbles name ev (v :: l) w w' r.

(** The name under which a key press reaches the views that bind single keys. *)
Definition binding (ev : ui_event) : option string :=
  match event_type ev with
  | EKeyDown => (if shiftKey ev then MODIFIED_KEY_BINDINGS else KEY_BINDINGS) (keyCode ev)
  | _ => None
  end.

Definition key_event_name (ev : ui_event) : option string :=
  match event_type ev with EKeyDown => Some "keyDown" | EKeyPress => Some "keyPress" | EOther => None end.

(** A key event stops at the first view that has a handler for the event itself,
    and on its way visits the handlers of the bound action. *)
Inductive key_bubbles (ev : ui_event) : list nat -> state -> state -> bool -> Prop :=
| key_nobody w : key_bubbles ev [] w w true
| key_event v l h w w' r :
    key_event_name ev ≫= handler v = Some h -> h ev (default v (current w)) w = (w', r) ->
    key_bubbles ev (v :: l) w w' (bool_decide (r = Passed))
| key_action v l h w w' r :
    key_event_name ev ≫= handler v = None -> binding ev ≫= handler v = Some h -> h ev v w = (w', r) ->
    r <> Passed -> key_bubbles ev (v :: l) w w' (bool_decide (r = AllowBrowserDefault))
| key_passed v l h w w' w'' b :
    key_event_name ev ≫= handler v = None -> binding ev ≫= handler v = Some h -> h ev v w = (w', Passed) ->
    key_bubbles ev l w' w'' b -> key_bubbles ev (v :: l) w w'' b
| key_missing v l w w' b :
    key_event_name ev ≫= handler v = None -> binding ev ≫= handler v = None ->
    key_bubbles ev l w w' b -> key_bubbles ev (v :: l) w w' b.

(** Handlers leave the tree of views and the captured mouse alone. *)
Class HandlerLaws : Prop := {
  handler_views v n h ev x w : handler v n = Some h -> views (h ev x w).1 = views w;
  handler_mouse v n h ev x w : handler v n = Some h -> mouseResponder (h ev x w).1 = mouseResponder w
}.

(** Hooks leave the tree, the stack and the focus marks alone. *)
Class HookLaws : Prop := {
  hook_views v n f w : hook v n = Some f -> views (f w) = views w;
  hook_stack v n f w : hook v n = Some f -> _stack (f w) = _stack w;
  hook_focus v n f w : hook v n = Some f -> focused (f w) = focused w
}.

(** A responder that can be marked is marked exactly when it is on the stack. *)
Record focus_ok (w : state) : Prop := {
  stack_nodup : NoDup (_stack w);
  focus_iff v : hasSet (info w v) = true -> isDestroyed (info w v) = false ->
    v ∈ focused w <-> v ∈ _stack w
}.

(** ** Lemmas *)

Lemma parent_info (w : state) v : parentView (info w v) = views w !! v ≫= parentView.
Proof. unfold info. by destruct (views w !! v). Qed.

Lemma bubbles_det name ev l w w1 w2 r1 r2 :
  bubbles name ev l w w1 r1 -> bubbles name ev l w w2 r2 -> w1 = w2 /\ r1 = r2.
Proof. intros H. revert w2 r2. induction H; intros ? ? H2; inversion H2; subst;
    repeat match goal with
    | H1 : ?x = Some _, H2 : ?x = _ |- _ => rewrite H1 in H2; injection H2 as <- || discriminate H2
    | H1 : ?x = (_, _), H2 : ?x = (_, _) |- _ => rewrite H1 in H2; simplify_eq
    | _ => congruence
    end; auto.
Qed.

Section handler_laws.
Context (Hh : HandlerLaws).

Lemma dispatch_bubbles name ev fuel : forall v l w,
  chain (views w) v l -> length l <= fuel ->
  exists w' r, _dispatch fuel name ev v w = Some (w', r) /\ bubbles name ev l w w' r /\
    views w' = views w /\ mouseResponder w' = mouseResponder w.
Proof.
  induction fuel as [|fuel IH]; intros v l w Hc Hl; [inversion Hc; subst; cbn in Hl; lia|].
  cbn [_dispatch].
  assert (Hnext : forall w1, views w1 = views w -> forall l', l = v :: l' ->
    (forall w' r, bubbles name ev l' w1 w' r -> bubbles name ev l w w' r) ->
    mouseResponder w1 = mouseResponder w ->
    exists w' r, match parentView (info w1 v) with
      | Some p => _dispatch fuel name ev p w1 | None => Some (w1, None) end = Some (w', r) /\
      bubbles name ev l w w' r /\ views w' = views w /\ mouseResponder w' = mouseResponder w).
  { intros w1 Hv l' -> Hb Hm. rewrite parent_info, Hv. inversion Hc as [? Hp|? p ? Hp Hc']; subst; rewrite Hp.
    - exists w1, None. split_and!; [done|apply Hb; constructor|done|done].
    - destruct (IH p l' w1) as (w' & r & -> & Hbu & Hv' & Hm'); [by rewrite Hv|cbn in Hl; lia|].
      exists w', r. split_and!; [done|auto|congruence|congruence]. }
  assert (exists l', l = v :: l') as [l' ->] by (inversion Hc; eauto).
  destruct (handler v name) as [h|] eqn:E.
  - destruct (h ev v w) as [w1 r] eqn:Er. cbn.
    assert (Hv : views w1 = views w) by (pose proof (handler_views v name h ev v w E) as X; by rewrite Er in X).
    assert (Hm : mouseResponder w1 = mouseResponder w)
      by (pose proof (handler_mouse v name h ev v w E) as X; by rewrite Er in X).
    destruct r.
    + exists w1, (Some v). split_and!; [done|by eapply bubbles_handled|done|done].
    + apply (Hnext w1 Hv l' eq_refl); [|done]. intros. by eapply bubbles_passed.
    + exists w1, None. split_and!; [done|by eapply bubbles_browser|done|done].
  - apply (Hnext w eq_refl l' eq_refl); [|done]. intros. by apply bubbles_missing.
Qed.

Lemma key_event_bubbles ev fuel : forall v l w,
  chain (views w) v l -> length l <= fuel ->
  exists w' b, handleKeyEvent fuel ev v w = Some (w', b) /\ key_bubbles ev l w w' b.
Proof.
  induction fuel as [|fuel IH]; intros v l w Hc Hl; [inversion Hc; subst; cbn in Hl; lia|].
  cbn [handleKeyEvent]. fold (key_event_name ev).
  assert (exists l', l = v :: l') as [l' ->] by (inversion Hc; eauto).
  destruct (key_event_name ev ≫= handler v) as [h|] eqn:Ee.
  { destruct (h ev _ w) as [w1 r] eqn:Er. exists w1, (bool_decide (r = Passed)).
    split; [by destruct r|]. by eapply key_event. }
  assert (Hnext : forall w1, views w1 = views w ->
    (forall w' b, key_bubbles ev l' w1 w' b -> key_bubbles ev (v :: l') w w' b) ->
    exists w' b, match parentView (info w1 v) with
      | Some p => handleKeyEvent fuel ev p w1 | None => Some (w1, true) end = Some (w', b) /\
      key_bubbles ev (v :: l') w w' b).
  { intros w1 Hv Hb. rewrite parent_info, Hv. inversion Hc as [? Hp|? p ? Hp Hc']; subst; rewrite Hp.
    - exists w1, true. split; [done|]. apply Hb. constructor.
    - destruct (IH p l' w1) as (w' & b & -> & Hbu); [by rewrite Hv|cbn in Hl; lia|]. eauto. }
  assert (Hact : (match event_type ev with EKeyDown => interpretKeyEvents ev v w | _ => (w, Passed) end) =
    match binding ev ≫= handler v with Some h => h ev v w | None => (w, Passed) end).
  { unfold binding, interpretKeyEvents. destruct (event_type ev); [|done|done].
    by destruct ((if shiftKey ev then _ else _) _). }
  rewrite Hact. destruct (binding ev ≫= handler v) as [h|] eqn:Eb.
  - destruct (h ev v w) as [w1 r] eqn:Er.
    assert (Hv : views w1 = views w).
    { destruct (binding ev) as [n|]; [|done]. pose proof (handler_views v n h ev v w Eb) as X. by rewrite Er in X. }
    destruct r.
    + exists w1, false. split; [done|]. by eapply (key_action ev v l' h w w1 Handled).
    + apply (Hnext w1 Hv). intros. by eapply key_passed.
    + exists w1, true. split; [done|]. by eapply (key_action ev v l' h w w1 AllowBrowserDefault).
  - apply (Hnext w eq_refl). intros. by eapply key_missing.
Qed.
End handler_laws.

Section hook_laws.
Context (Hk : HookLaws).

Lemma call_hook_frame v n w :
  views (call_hook v n w) = views w /\ _stack (call_hook v n w) = _stack w /\ focused (call_hook v n w) = focused w.
Proof.
  unfold call_hook. destruct (hook v n) as [f|] eqn:E; [|done].
  by rewrite (hook_views v n f w E), (hook_stack v n f w E), (hook_focus v n f w E).
Qed.

Lemma focus_frame v b w : views (focus v b w) = views w /\ _stack (focus v b w) = _stack w.
Proof. unfold focus. by destruct (_ && _). Qed.

Lemma info_ext (w w' : state) v : views w' = views w -> info w' v = info w v.
Proof. unfold info. by intros ->. Qed.

Lemma focus_elem v b w x :
  x ∈ focused (focus v b w) <->
  if hasSet (info w v) && negb (isDestroyed (info w v)) && bool_decide (x = v) then b = true else x ∈ focused w.
Proof.
  clear Hk; clear handler hook.
  unfold focus. destruct (_ && _); cbn; [|done]. case_bool_decide as Hx; destruct b; cbn; set_solver.
Qed.

(** What [push] and [pop] do to the stack and the marks. *)
Lemma push_frame v w :
  views (push (Some v) w) = views w /\ _stack (push (Some v) w) = v :: _stack w /\
  forall x, x ∈ focused (push (Some v) w) <-> x ∈ focused (focus v true w).
Proof.
  clear handler.
  unfold push. destruct (call_hook_frame v "willBecomeKeyResponder" w) as (V1 & S1 & F1).
  set (w1 := call_hook v "willBecomeKeyResponder" w) in *. destruct (focus_frame v true w1) as (V2 & S2).
  destruct (call_hook_frame v "didBecomeKeyResponder" (set_stack (v :: _stack (focus v true w1)) (focus v true w1)))
    as (V3 & S3 & F3).
  rewrite V3, S3, F3. cbn. split_and!; [congruence|congruence|]. intros x.
  rewrite !focus_elem, F1, !(info_ext w w1) by done. done.
Qed.

Lemma pop_frame w v rest : _stack w = v :: rest ->
  exists w', pop w = Ok (w', Some v) /\ views w' = views w /\ _stack w' = rest /\
  forall x, x ∈ focused w' <-> x ∈ focused (focus v false w).
Proof.
  clear handler.
  intros Hs. unfold pop, current. rewrite Hs. cbn [head].
  destruct (call_hook_frame v "willLoseKeyResponder" w) as (V1 & S1 & F1).
  set (w1 := call_hook v "willLoseKeyResponder" w) in *. rewrite S1, Hs.
  destruct (focus_frame v false (set_stack rest w1)) as (V2 & S2).
  destruct (call_hook_frame v "didLoseKeyResponder" (focus v false (set_stack rest w1))) as (V3 & S3 & F3).
  eexists. split; [done|]. rewrite V3, S3, F3. cbn in *. split_and!; [congruence|done|]. intros x.
  rewrite !focus_elem. cbn. rewrite F1, !(info_ext w (set_stack rest w1)) by done. done.
Qed.

Lemma push_focus_ok v w : focus_ok w -> v ∉ _stack w -> focus_ok (push (Some v) w).
Proof.
  clear handler.
  intros [Hnd Hf] Hv. destruct (push_frame v w) as (V & S & F). split.
  - rewrite S. by apply NoDup_cons.
  - intros x. rewrite (info_ext w) by done. intros Hset Hd. rewrite F, S, focus_elem, elem_of_cons.
    case_bool_decide as Hx; [subst; rewrite Hset, Hd; cbn; naive_solver|].
    rewrite andb_false_r. rewrite Hf by done. naive_solver.
Qed.

Lemma pop_focus_ok w v rest w' : focus_ok w -> _stack w = v :: rest -> pop w = Ok (w', Some v) -> focus_ok w'.
Proof.
  clear handler.
  intros [Hnd Hf] Hs Hp. destruct (pop_frame w v rest Hs) as (w1 & Hp1 & V & S & F).
  rewrite Hp1 in Hp. injection Hp as <-. rewrite Hs in Hnd. apply NoDup_cons in Hnd as [Hv Hnd]. split.
  - by rewrite S.
  - intros x. rewrite (info_ext w) by done. intros Hset Hd. rewrite F, S, focus_elem.
    case_bool_decide as Hx; [subst; rewrite Hset, Hd; cbn; naive_solver|].
    rewrite andb_false_r. rewrite Hf by done. rewrite Hs, elem_of_cons. naive_solver.
Qed.
End hook_laws.

(** ** Properties *)

(** C37. An event dispatched to a view visits the view and its ancestors in order,
    calling the handlers of that name, and stops at the first one that accepts it
    or leaves it to the browser; fuel for as many views is enough. *)
Theorem dispatch_nearest (Hh : HandlerLaws) name ev fuel v l w :
  chain (views w) v l -> length l <= fuel ->
  exists w' r, _dispatch fuel name ev v w = Some (w', r) /\ bubbles name ev l w w' r.
Proof. intros Hc Hl. destruct (dispatch_bubbles Hh name ev fuel v l w Hc Hl) as (w' & r & ? & ? & _). eauto. Qed.

(** A view that accepts the mouse going down captures the mouse: as long as it
    is in the document, moves of the mouse and its release are dispatched from that
    view, whichever view they happen over, inside the window or not, and the
    release ends the capture. *)
Theorem mouse_capture (Hh : HandlerLaws) ev fuel x y l v w w0 w1 lv :
  becomeKeyResponder fuel None x w = Some (Ok w0) ->
  chain (views w0) x l -> length l <= fuel -> bubbles "mouseDown" ev l (set_mouse None w0) w1 (Some v) ->
  inDOM (info w0 v) = true -> chain (views w0) v lv -> length lv <= fuel ->
  exists w2, mouseDown fuel ev x w = Some (Ok (w2, false)) /\ mouseResponder w2 = Some v /\
    mouseMove fuel ev y w2 = dispatched <$> _dispatch fuel "mouseMove" ev v w2 /\
    exists w3 r, bubbles "mouseUp" ev lv (set_mouse None w2) w3 r /\
      mouseUp fuel ev y w2 = Some (w3, bool_decide (r = None)) /\
      window_mouseup fuel ev w2 = Some (w3, bool_decide (r = None)) /\
      mouseResponder w3 = None.
Proof.
  intros Hb Hc Hl Hbu Hdom Hcv Hlv. unfold mouseDown. rewrite Hb. cbn [mbind option_bind].
  destruct (dispatch_bubbles Hh "mouseDown" ev fuel x l (set_mouse None w0) Hc Hl) as (w2 & r & -> & Hb2 & Hv2 & _).
  destruct (bubbles_det _ _ _ _ _ _ _ _ Hb2 Hbu) as [-> ->]. cbn [mbind option_bind].
  exists (set_mouse (Some v) w1). split; [by rewrite bool_decide_eq_false_2|]. split; [done|].
  assert (Hi : info (set_mouse (Some v) w1) v = info w0 v) by (unfold info; cbn; by rewrite Hv2).
  split; [unfold mouseMove; cbn [mouseResponder set_mouse]; by rewrite Hi, Hdom|].
  destruct (dispatch_bubbles Hh "mouseUp" ev fuel v lv (set_mouse None (set_mouse (Some v) w1)))
    as (w3 & r & Hd & Hb3 & _ & Hm); [cbn; by rewrite Hv2|done|].
  exists w3, r. split; [done|]. unfold mouseUp, window_mouseup. cbn [mouseResponder set_mouse] in *.
  rewrite Hi, Hdom. cbn in Hd |- *. by rewrite Hd.
Qed.

(** A key event that reaches the current key responder, a visible view, visits
    it and its ancestors: the first one with a handler for the event itself takes
    it, and before that the handlers of the action that the key is bound to (by
    the other table when shift is down) may take it or leave it to the browser. *)
Theorem key_events_bubble (Hh : HandlerLaws) ev fuel c l w :
  current w = Some c -> isView (info w c) = true -> isVisible (info w c) = true ->
  chain (views w) c l -> length l <= fuel ->
  exists w' b, document_key fuel ev w = Some (w', b) /\ key_bubbles ev l w w' b.
Proof.
  intros Hcur Hv Hvis Hc Hl. unfold document_key. rewrite Hcur, Hv, Hvis. by apply key_event_bubbles.
Qed.

(** Opening a modal element over the current responder and closing it again
    restores the stack with the previous responder on top, and neither step breaks
    the correspondence between marks and stack. *)
Theorem responder_stack_lifo (Hk : HookLaws) v w :
  focus_ok w -> v ∉ _stack w ->
  let w1 := push (Some v) w in
  current w1 = Some v /\ focus_ok w1 /\
  exists w2, pop w1 = Ok (w2, Some v) /\ _stack w2 = _stack w /\ focus_ok w2 /\
    forall x, x <> v -> x ∈ focused w2 <-> x ∈ focused w.
Proof.
  clear handler.
  intros Hok Hv. cbv zeta. destruct (push_frame Hk v w) as (V & S & F).
  pose proof (push_focus_ok Hk v w Hok Hv) as Hok1.
  split; [unfold current; by rewrite S|]. split; [done|].
  destruct (pop_frame Hk (push (Some v) w) v (_stack w) S) as (w2 & Hp & V2 & S2 & F2).
  exists w2. split_and!; [done|done|by eapply pop_focus_ok|].
  intros x Hx. rewrite F2, focus_elem, bool_decide_eq_false_2, andb_false_r by done.
  by rewrite F, focus_elem, bool_decide_eq_false_2, andb_false_r by done.
Qed.

(** Taking the focus by replacement makes the view the only change to the
    stack: the previous responder loses its mark, the new one is on top with its
    mark, those below stay. *)
Theorem replace_takes_focus (Hk : HookLaws) v c rest w :
  focus_ok w -> _stack w = c :: rest -> v ∉ _stack w ->
  exists w', replace v w = Ok w' /\ _stack w' = v :: rest /\ focus_ok w'.
Proof.
  clear handler.
  intros Hok Hs Hv. unfold replace, current. rewrite Hs. cbn [head].
  rewrite bool_decide_eq_false_2 by (rewrite Hs in Hv; set_solver).
  set (w1 := if isView (info w c) then w else call_hook c "blur" w).
  assert (Hw1 : views w1 = views w /\ _stack w1 = c :: rest /\ focused w1 = focused w).
  { unfold w1. destruct (isView _); [done|]. destruct (call_hook_frame Hk c "blur" w) as (? & -> & ?). done. }
  destruct Hw1 as (V1 & S1 & F1).
  assert (Hok1 : focus_ok w1).
  { destruct Hok as [Hnd Hf]. split; [by rewrite S1, <- Hs|]. intros x. rewrite (info_ext w), F1, S1, <- Hs by done.
    apply Hf. }
  destruct (pop_frame Hk w1 c rest S1) as (w2 & Hp & V2 & S2 & F2). rewrite Hp. cbn [outcome_bind fst].
  eexists. split; [done|]. destruct (push_frame Hk v w2) as (V3 & S3 & F3). rewrite S3, S2.
  split; [done|]. apply push_focus_ok; [done|by eapply pop_focus_ok|]. rewrite S2. rewrite Hs in Hv. set_solver.
Qed.
End events.

(** ** Witnesses *)
Definition ex_view (p : option nat) : vinfo := VInfo p true true true true false true false true.
Definition ex_views : gmap nat vinfo :=
  list_to_map [(1, ex_view None); (2, ex_view (Some 1)); (3, ex_view (Some 2)); (4, ex_view (Some 1))].
Definition ex_world (stack : list nat) : world nat := World 0 ex_views stack None (list_to_set stack).

(** View 2 accepts the mouse and the tab key; the others pass. *)
Definition ex_handler (v : nat) (name : string) : option (ui_event -> nat -> world nat -> world nat * result) :=
  if bool_decide (v = 2) && bool_decide (name ∈ ["mouseDown"; "insertTab"])
  then Some (fun _ _ w => (World (S (app w)) (views w) (_stack w) (mouseResponder w) (focused w), Handled))
  else None.
Definition ex_hook (v : nat) (name : string) : option (world nat -> world nat) := None.

Lemma ex_handler_laws : HandlerLaws ex_handler.
Proof. split; intros v n h ev x w; unfold ex_handler; destruct (_ && _); intros [= <-]; done. Defined.
Lemma ex_hook_laws : HookLaws ex_hook.
Proof. by split. Defined.

Lemma ex_chain3 : chain ex_views 3 [3; 2; 1].
Proof. eapply chain_up; [reflexivity|]. eapply chain_up; [reflexivity|]. by apply chain_root. Defined.
Lemma ex_chain2 : chain ex_views 2 [2; 1].
Proof. eapply chain_up; [reflexivity|]. by apply chain_root. Defined.

Definition ex_tab : ui_event := UIEvent EKeyDown 9 false.

Lemma ex_focus_ok stack : NoDup stack -> focus_ok (ex_world stack).
Proof. intros. split; [done|]. intros. cbn. by rewrite elem_of_list_to_set. Defined.

Lemma dispatch_nearest_witness :
  exists w' r, _dispatch ex_handler 3 "mouseDown" ex_tab 3 (ex_world []) = Some (w', r) /\
    bubbles ex_handler "mouseDown" ex_tab [3; 2; 1] (ex_world []) w' r.
Proof. apply (dispatch_nearest ex_handler ex_handler_laws); [exact ex_chain3|done]. Defined.

Lemma mouse_capture_witness :
  exists w2, mouseDown ex_handler ex_hook 3 ex_tab 3 (ex_world [3]) = Some (Ok (w2, false)) /\ mouseResponder w2 = Some 2 /\
    mouseMove ex_handler 3 ex_tab 4 w2 = dispatched <$> _dispatch ex_handler 3 "mouseMove" ex_tab 2 w2 /\
    exists w3 r, bubbles ex_handler "mouseUp" ex_tab [2; 1] (set_mouse None w2) w3 r /\
      mouseUp ex_handler 3 ex_tab 4 w2 = Some (w3, bool_decide (r = None)) /\
      window_mouseup ex_handler 3 ex_tab w2 = Some (w3, bool_decide (r = None)) /\
      mouseResponder w3 = None.
Proof.
  eapply (mouse_capture ex_handler ex_hook ex_handler_laws ex_tab 3 3 4 [3; 2; 1] 2 (ex_world [3])).
  - reflexivity.
  - exact ex_chain3.
  - done.
  - apply bubbles_missing; [reflexivity|]. eapply bubbles_handled; reflexivity.
  - reflexivity.
  - exact ex_chain2.
  - repeat constructor.
Defined.

Lemma key_events_bubble_witness :
  exists w' b, document_key ex_handler 3 ex_tab (ex_world [3]) = Some (w', b) /\
    key_bubbles ex_handler ex_tab [3; 2; 1] (ex_world [3]) w' b.
Proof.
  apply (key_events_bubble ex_handler ex_handler_laws ex_tab 3 3); try reflexivity. exact ex_chain3.
Defined.

Lemma responder_stack_lifo_witness :
  let w1 := push ex_hook (Some 4) (ex_world [3; 2]) in
  current w1 = Some 4 /\ focus_ok w1 /\
  exists w2, pop ex_hook w1 = Ok (w2, Some 4) /\ _stack w2 = [3; 2] /\ focus_ok w2 /\
    forall x, x <> 4 -> x ∈ focused w2 <-> x ∈ focused (ex_world [3; 2]).
Proof.
  apply (responder_stack_lifo ex_hook ex_hook_laws 4 (ex_world [3; 2])).
  - apply ex_focus_ok. repeat constructor; set_solver.
  - cbn. set_solver.
Defined.

Lemma replace_takes_focus_witness :
  exists w', replace ex_hook 4 (ex_world [3; 2]) = Ok w' /\ _stack w' = [4; 2] /\ focus_ok w'.
Proof.
  apply (replace_takes_focus ex_hook ex_hook_laws 4 3 [2] (ex_world [3; 2])); [|done|cbn; set_solver].
  apply ex_focus_ok. repeat constructor; set_solver.
Defined.

(** A responder that takes the focus again while a modal element is over it is on
    the stack twice; closing the modal element pops one entry and removes the mark,
    although the view is the current responder. *)
Lemma focus_lost_on_top :
  exists w1 w2, replace ex_hook 3 (push ex_hook (Some 4) (ex_world [3])) = Ok w1 /\
    resignKeyResponder ex_hook w1 = Ok w2 /\ current w2 = Some 3 /\ 3 ∉ focused w2.
Proof.
  eexists _, _. split; [vm_compute; reflexivity|]. split; [vm_compute; reflexivity|].
  split; [reflexivity|]. vm_compute. set_solver.
Qed.

(** A responder removed from the document keeps the mouse: moves and releases over
    any other view are ignored until the next press. *)
Lemma removed_responder_keeps_mouse {A} handler fuel ev y v (w : world A) :
  mouseResponder w = Some v -> inDOM (info w v) = false ->
  mouseUp handler fuel ev y w = Some (w, true) /\ mouseMove handler fuel ev y w = Some (w, true).
Proof. intros Hm Hd. unfold mouseUp, mouseMove. by rewrite Hm, Hd. Qed.
