(* ===== verification/Focus.v ===== *)
(** * Key responders and the focus of the browser ([mixins/focus_support.js])

    A text field that becomes the key responder asks the browser for the focus, later,
    and gives it up when it stops being one; when the browser moves the focus by itself
    the field becomes or resigns as key responder.  The two sides call each other.

    The document is part of the state: the element that has its focus, and the callbacks
    given to [Ember.run.next].  What the browser does when the focus moves is written out
    as the specification of the document has it: the element that loses the focus is
    told first, at a moment when no element has it. *)

From S2P Require Import Prelude.
From S2P Require Import EventManager.
Open Scope string_scope.
Open Scope list_scope.
Open Scope flame_scope.

(** ** The document *)

Record doc := Doc {
  activeElement : option nat;    (* elements are those of the views with [FocusSupport] *)
  pending : list nat;            (* what [run.next] has been given, oldest first *)
  thrown : bool                  (* an exception in a handler *)
}.

Abbreviation page := (world doc).

Definition put_app d (w : page) : page := World d (views w) (_stack w) (mouseResponder w) (focused w).
Definition set_active a (w : page) : page := put_app (Doc a (pending (app w)) (thrown (app w))) w.
Definition set_pending l (w : page) : page := put_app (Doc (activeElement (app w)) l (thrown (app w))) w.
Definition set_thrown (w : page) : page := put_app (Doc (activeElement (app w)) (pending (app w)) true) w.

Definition settle (r : outcome page) (w : page) : page :=
  match r with Ok w' => w' | Throw _ => set_thrown w end.

Section focus.
Context (isField : nat -> bool).          (* the view has [FocusSupport] *)

(** ** The mixin *)

Definition didBecomeKeyResponder (v : nat) (w : page) : page := set_pending (pending (app w) ++ [v]) w.

(** [hk] are the hooks that run when the stack is popped. *)
Definition focusOut (hk : nat -> string -> option (page -> page)) (hasFocus : bool) (v : nat) (w : page) : page :=
  match current w with
  | Some c => if decide (c = v) then if hasFocus then settle (resignKeyResponder hk w) w else w else w
  | None => w
  end.

(** The element is told that it loses the focus. *)
Definition lose (hk : nat -> string -> option (page -> page)) (v : nat) (w : page) : page :=
  focusOut hk true v (set_active None w).

Definition didLoseKeyResponder (hk : nat -> string -> option (page -> page)) (v : nat) (w : page) : page :=
  if decide (activeElement (app w) = Some v) then lose hk v w else w.

(** The hooks call each other through the stack; no element has the focus when
    [didLoseKeyResponder] is reached again, so two levels are all there are. *)
Fixpoint hooks (n : nat) (v : nat) (name : string) : option (page -> page) :=
  if isField v then
    if decide (name = "didBecomeKeyResponder") then Some (didBecomeKeyResponder v)
    else if decide (name = "didLoseKeyResponder") then
      Some (match n with
            | 0 => fun w => w
            | S n' => didLoseKeyResponder (hooks n') v
            end)
    else None
  else None.

Definition hook := hooks 2.

Definition become (rep : option bool) (v : nat) (w : page) : page :=
  match becomeKeyResponder hook (S (size (views w))) rep v w with
  | Some r => settle r w
  | None => set_thrown w
  end.

Definition focusIn (v : nat) (w : page) : page :=
  match current w with
  | Some c => if decide (c = v) then w else become None v w
  | None => become None v w
  end.

(** ** The browser *)

Definition browser_blur (w : page) : page :=
  match activeElement (app w) with Some u => lose hook u w | None => w end.

Definition browser_focus (v : nat) (w : page) : page :=
  if decide (activeElement (app w) = Some v) then w
  else focusIn v (set_active (Some v) (browser_blur w)).

(** ** Events *)

Inductive event :=
| Become (rep : option bool) (v : nat)  (* a call of [becomeKeyResponder] *)
| Resign                                (* a call of [resignKeyResponder] *)
| UserFocus (v : nat)                   (* the browser moves the focus to a field *)
| UserBlur                              (* or away from all *)
| LeaveWindow                           (* the window loses the focus, its document keeps it *)
| EnterWindow.

Definition step (ev : event) (w : page) : page :=
  match ev with
  | Become rep v => become rep v w
  | Resign => settle (resignKeyResponder hook w) w
  | UserFocus v => browser_focus v w
  | UserBlur => browser_blur w
  | LeaveWindow => match activeElement (app w) with Some u => focusOut hook false u w | None => w end
  | EnterWindow => match activeElement (app w) with Some u => focusIn u w | None => w end
  end.

(** The callbacks run in their order; those they add run the next time. *)
Definition run_next (w : page) : page := foldl (fun w v => browser_focus v w) (set_pending [] w) (pending (app w)).

(** ** Specification *)

(** A view that takes the key events itself. *)
Definition willing (w : page) (v : nat) : Prop :=
  acceptsKeyResponder (info w v) = true /\ isDisabled (info w v) = false.

Record at_rest (w : page) : Prop := {
  rest_pending : pending (app w) = [];
  rest_thrown : thrown (app w) = false;
  rest_active u : activeElement (app w) = Some u -> isField u = true;
  rest_fields v : isField v = true -> willing w v
}.

(** The field that gets the keys of the application is the one that gets them from the
    browser. *)
Definition in_step (w : page) : Prop :=
  forall v, isField v = true -> current w = Some v <-> activeElement (app w) = Some v.

Definition below (w : page) : option nat := head (tail (_stack w)).

(** What this file shows to be kept in step.  Left out are the modal elements: they are
    pushed over a field, and popped from one. *)
Definition allowed (ev : event) (w : page) : Prop :=
  match ev with
  | Become (Some false) v => isField v = true
  | Become _ v => willing w v
  | UserFocus v => isField v = true
  | Resign | UserBlur => forall u, below w = Some u -> isField u = false
  | LeaveWindow | EnterWindow => True
  end.

Definition becomes (ev : event) : option nat :=
  match ev with Become _ v | UserFocus v => Some v | _ => None end.

(** ** What the operations do *)

(** All of a page but the marks of the views. *)
Definition parts (w : page) := (views w, _stack w, app w).

Lemma focus_parts v b (w : page) : parts (EventManager.focus v b w) = parts w.
Proof. unfold EventManager.focus. by destruct (_ && _). Qed.

(** The stack after [pop]: a field with the focus that is on it twice in a row is told
    twice. *)
Definition popped (w : page) : list nat :=
  match _stack w with
  | [] => []
  | c :: rest =>
      if bool_decide (activeElement (app w) = Some c /\ isField c = true /\ head rest = Some c) then tail rest else rest
  end.

Definition given_up (w : page) : option nat :=
  match current w with
  | Some c => if bool_decide (activeElement (app w) = Some c /\ isField c = true) then None else activeElement (app w)
  | None => activeElement (app w)
  end.

Lemma hooks_will n c : hooks n c "willLoseKeyResponder" = None /\ hooks n c "willBecomeKeyResponder" = None /\ hooks n c "blur" = None.
Proof. destruct n; cbn; by destruct (isField c). Qed.

Lemma hooks_become n c :
  hooks n c "didBecomeKeyResponder" = if isField c then Some (didBecomeKeyResponder c) else None.
Proof. by destruct n. Qed.

Lemma hooks_lose n c :
  hooks n c "didLoseKeyResponder" =
    if isField c then Some (match n with 0 => fun w => w | S n' => didLoseKeyResponder (hooks n') c end) else None.
Proof. by destruct n. Qed.

Lemma parts_inj (w : page) v s a : parts w = (v, s, a) -> views w = v /\ _stack w = s /\ app w = a.
Proof. unfold parts. by intros [= -> -> ->]. Qed.

(** [pop] up to the hook of the view that is popped. *)
Lemma pop_hook n w c rest : _stack w = c :: rest ->
  exists w2, parts w2 = (views w, rest, app w) /\
    pop (hooks n) w = Ok (call_hook (hooks n) c "didLoseKeyResponder" w2, Some c).
Proof.
  intros Hs. assert (call_hook (hooks n) c "willLoseKeyResponder" w = w) as Hw.
  { unfold call_hook. by rewrite (proj1 (hooks_will n c)). }
  unfold pop, current. rewrite Hs. cbn [head]. rewrite Hw, Hs. eexists. split; [|reflexivity].
  exact (focus_parts c false (set_stack rest w)).
Qed.

(** A view without the focus of the browser is just taken off the stack. *)
Lemma pop_inert n w c rest : _stack w = c :: rest -> ~ (activeElement (app w) = Some c /\ isField c = true) ->
  exists w', resignKeyResponder (hooks n) w = Ok w' /\ parts w' = (views w, rest, app w).
Proof.
  intros Hs Ha. destruct (pop_hook n w c rest Hs) as (w2 & H2 & E). unfold resignKeyResponder. rewrite E. cbn.
  eexists. split; [reflexivity|]. unfold call_hook. rewrite hooks_lose. destruct (isField c) eqn:Hc; [|done].
  destruct n as [|n]; [done|].
  unfold didLoseKeyResponder. apply parts_inj in H2 as H2'. destruct H2' as (_ & _ & ->). by rewrite decide_False by naive_solver.
Qed.

Lemma resign_parts w :
  exists w', resignKeyResponder hook w = Ok w' /\
    parts w' = (views w, popped w, Doc (given_up w) (pending (app w)) (thrown (app w))).
Proof.
  unfold popped, given_up, current. destruct (_stack w) as [|c rest] eqn:Hs; cbn [head].
  { exists w. unfold resignKeyResponder, pop, current, parts. rewrite Hs. cbn. split; [done|]. by destruct w as [[? ? ?] ? ? ? ?]. }
  destruct (decide (activeElement (app w) = Some c /\ isField c = true)) as [[Ha Hc]|Hn].
  2: { destruct (pop_inert 2 w c rest Hs Hn) as (w' & E & P). exists w'. split; [done|]. rewrite P.
       case_bool_decide; [naive_solver|]. case_bool_decide; [naive_solver|]. by destruct (app w). }
  destruct (pop_hook 2 w c rest Hs) as (w2 & H2 & E). unfold resignKeyResponder, hook. rewrite E. cbn [outcome_bind fst].
  eexists. split; [reflexivity|].
  rewrite (bool_decide_eq_true_2 (activeElement (app w) = Some c /\ isField c = true)) by done.
  unfold call_hook. rewrite hooks_lose, Hc.
  apply parts_inj in H2 as (V2 & S2 & A2). unfold didLoseKeyResponder. rewrite A2, decide_True by done.
  unfold lose, focusOut, current. cbn [set_active put_app _stack]. rewrite S2.
  destruct rest as [|d rest']; cbn [head tail].
  { rewrite bool_decide_eq_false_2 by naive_solver. unfold parts. cbn. by rewrite V2, S2, A2. }
  destruct (decide (d = c)) as [->|Hd].
  - rewrite bool_decide_eq_true_2 by done.
    destruct (pop_inert 1 (set_active None w2) c rest') as (w' & E' & P'); [done|cbn; naive_solver|].
    rewrite E'. cbn [settle]. rewrite P'. cbn. by rewrite V2, A2.
  - rewrite bool_decide_eq_false_2 by naive_solver. unfold parts. cbn. by rewrite V2, S2, A2.
Qed.

Lemma push_parts v w :
  parts (push hook (Some v) w) =
    (views w, v :: _stack w,
     Doc (activeElement (app w)) (pending (app w) ++ if isField v then [v] else []) (thrown (app w))).
Proof.
  unfold push, call_hook, hook. rewrite (proj1 (proj2 (hooks_will 2 v))), hooks_become.
  pose proof (parts_inj _ _ _ _ (focus_parts v true w)) as (V & S & A).
  destruct (isField v); unfold parts; cbn; rewrite V, S, A; [done|]. rewrite app_nil_r. by destruct (app w).
Qed.

Lemma replace_parts v w : current w <> Some v ->
  exists w', replace hook v w = Ok w' /\
    parts w' = (views w, v :: popped w, Doc (given_up w) (pending (app w) ++ if isField v then [v] else []) (thrown (app w))).
Proof.
  intros Hv. destruct (resign_parts w) as (w1 & E1 & P1). unfold resignKeyResponder in E1.
  assert (replace hook v w = do! r <- pop hook w ; Ok (push hook (Some v) r.1)) as ->.
  { unfold replace. destruct (current w) as [c|] eqn:Hc; [|done]. rewrite bool_decide_eq_false_2 by naive_solver.
    assert (call_hook hook c "blur" w = w) as ->. { unfold call_hook, hook. by rewrite (proj2 (proj2 (hooks_will 2 c))). }
    by destruct (isView (info w c)). }
  destruct (pop hook w) as [[w1' o]|]; [|done]. cbn [outcome_bind fst] in E1 |- *. injection E1 as ->. eexists. split; [reflexivity|].
  cbn [fst]. rewrite push_parts. apply parts_inj in P1 as (-> & -> & ->). done.
Qed.

Lemma become_parts rep v w : willing w v ->
  parts (become rep v w) =
    match rep with
    | Some false => (views w, v :: _stack w, Doc (activeElement (app w)) (pending (app w) ++ if isField v then [v] else []) (thrown (app w)))
    | _ => if decide (current w = Some v) then parts w
           else (views w, v :: popped w, Doc (given_up w) (pending (app w) ++ if isField v then [v] else []) (thrown (app w)))
    end.
Proof.
  intros [Ha Hd]. unfold become. cbn [becomeKeyResponder]. rewrite Ha, Hd. cbn [negb andb].
  assert (parts (settle (replace hook v w) w) =
    if decide (current w = Some v) then parts w
    else (views w, v :: popped w, Doc (given_up w) (pending (app w) ++ if isField v then [v] else []) (thrown (app w)))) as Hr.
  { case_decide as Hc.
    - unfold replace. rewrite Hc, bool_decide_eq_true_2 by done. done.
    - destruct (replace_parts v w Hc) as (w' & -> & P). done. }
  destruct rep as [[]|]; cbn [settle]; [done|apply push_parts|done].
Qed.

(** The stack once the element with the focus has been told that it loses it. *)
Definition lost (w : page) : list nat :=
  match activeElement (app w) with
  | Some u => if decide (current w = Some u) then tail (_stack w) else _stack w
  | None => _stack w
  end.

Lemma browser_blur_parts w : parts (browser_blur w) = (views w, lost w, Doc None (pending (app w)) (thrown (app w))).
Proof.
  unfold browser_blur, lost. destruct (activeElement (app w)) as [u|] eqn:Ha.
  2: { unfold parts. rewrite <- Ha. by destruct (app w). }
  unfold lose, focusOut. change (current (set_active None w)) with (current w).
  destruct (current w) as [c|] eqn:Hc; [|by rewrite decide_False by done].
  destruct (decide (c = u)) as [->|Hcu]; [|by rewrite decide_False by naive_solver].
  rewrite decide_True by done. destruct (resign_parts (set_active None w)) as (w' & -> & P). cbn [settle]. rewrite P.
  unfold popped, given_up, current in *. cbn. destruct (_stack w) as [|x rest]; [done|]. cbn in Hc |- *. injection Hc as ->.
  by rewrite !bool_decide_eq_false_2 by naive_solver.
Qed.

Lemma willing_views w w' v : views w' = views w -> willing w v -> willing w' v.
Proof. unfold willing, info. by intros ->. Qed.

Lemma browser_focus_parts v w :
  activeElement (app w) <> Some v -> willing w v -> isField v = true ->
  parts (browser_focus v w) =
    if decide (head (lost w) = Some v) then (views w, lost w, Doc (Some v) (pending (app w)) (thrown (app w)))
    else (views w, v :: tail (lost w), Doc (Some v) (pending (app w) ++ [v]) (thrown (app w))).
Proof.
  intros Ha Hw Hv. unfold browser_focus. rewrite decide_False by done.
  pose proof (parts_inj _ _ _ _ (browser_blur_parts w)) as (V & S & A).
  set (w2 := set_active (Some v) (browser_blur w)).
  assert (parts w2 = (views w, lost w, Doc (Some v) (pending (app w)) (thrown (app w)))) as P2.
  { unfold w2, parts. cbn. by rewrite V, S, A. }
  pose proof (parts_inj _ _ _ _ P2) as (V2 & S2 & A2).
  assert (current w2 = head (lost w)) as Hc by (unfold current; by rewrite S2).
  assert (current w2 <> Some v -> parts (become None v w2) =
    (views w, v :: tail (lost w), Doc (Some v) (pending (app w) ++ [v]) (thrown (app w)))) as Hb.
  { intros Hn. rewrite (become_parts None v w2 (willing_views _ _ v V2 Hw)), decide_False by done.
    unfold popped, given_up. rewrite V2, S2, A2, Hc, Hv. cbn. destruct (lost w) as [|c rest]; [done|]. cbn in Hc |- *.
    by rewrite !bool_decide_eq_false_2 by naive_solver. }
  unfold focusIn. rewrite Hc in *. destruct (head (lost w)) as [c|].
  - destruct (decide (c = v)) as [->|Hcv]; [by rewrite decide_True by done|].
    rewrite decide_False by naive_solver. apply Hb. naive_solver.
  - rewrite decide_False by done. by apply Hb.
Qed.

(** ** Keeping in step *)

Lemma in_step_given_up w u : in_step w -> (forall v, activeElement (app w) = Some v -> isField v = true) ->
  given_up w <> Some u.
Proof.
  intros Hi Hf. unfold given_up. destruct (current w) as [c|] eqn:Hc.
  - case_bool_decide as Hb; [done|]. intros Hu. apply Hb. specialize (Hf _ Hu). apply (Hi _ Hf) in Hu as Hc'.
    rewrite Hc in Hc'. by injection Hc' as ->.
  - intros Hu. apply (Hi _ (Hf _ Hu)) in Hu. congruence.
Qed.

Lemma run_next_nothing w : pending (app w) = [] -> parts (run_next w) = parts w.
Proof. intros Hp. unfold run_next. rewrite Hp. unfold parts. cbn. rewrite <- Hp. by destruct (app w). Qed.

(** What is left to do is to give the focus to the current field. *)
Lemma run_next_focus w v : pending (app w) = [v] -> current w = Some v -> isField v = true -> willing w v ->
  parts (run_next w) = (views w, _stack w, Doc (Some v) [] (thrown (app w))).
Proof.
  intros Hp Hc Hv Hw. unfold run_next. rewrite Hp. cbn [foldl].
  destruct (decide (activeElement (app w) = Some v)) as [Ha|Ha].
  - unfold browser_focus. cbn [set_pending put_app app activeElement]. rewrite decide_True by done. unfold parts. cbn. by rewrite Ha.
  - rewrite browser_focus_parts by done.
    assert (lost (set_pending [] w) = _stack w) as ->.
    { unfold lost. cbn. change (current (set_pending [] w)) with (current w). rewrite Hc.
      destruct (activeElement (app w)); [|done]. rewrite decide_False by naive_solver. done. }
    by rewrite decide_True by done.
Qed.

Lemma rested w w' : at_rest w -> views w' = views w -> pending (app w') = [] -> thrown (app w') = false ->
  (forall u, activeElement (app w') = Some u -> isField u = true) -> at_rest w'.
Proof.
  intros [_ _ _ Hw] V Hp Ht Ha. split; [done..|]. intros v Hv. exact (willing_views w w' v V (Hw v Hv)).
Qed.

(** The two ways in which a step ends. *)
Lemma settled_at_once w w1 : at_rest w -> views w1 = views w -> pending (app w1) = [] -> thrown (app w1) = false ->
  (forall u, activeElement (app w1) = Some u -> isField u = true) -> in_step w1 ->
  at_rest (run_next w1) /\ in_step (run_next w1) /\ current (run_next w1) = current w1.
Proof.
  intros Hr V Hp Ht Ha Hi. pose proof (parts_inj _ _ _ _ (run_next_nothing w1 Hp)) as (V' & S' & A').
  split; [|split].
  - apply (rested w); [done|congruence|by rewrite A'..|by rewrite A'].
  - intros u Hu. unfold current. rewrite S', A'. by apply Hi.
  - unfold current. by rewrite S'.
Qed.

Lemma settled_by_focus w w1 v : at_rest w -> views w1 = views w -> pending (app w1) = [v] -> thrown (app w1) = false ->
  isField v = true -> current w1 = Some v ->
  at_rest (run_next w1) /\ in_step (run_next w1) /\ current (run_next w1) = Some v.
Proof.
  intros Hr V Hp Ht Hv Hc.
  pose proof (run_next_focus w1 v Hp Hc Hv (willing_views w w1 v V (rest_fields w Hr v Hv))) as P.
  apply parts_inj in P as (V' & S' & A'). split; [|split].
  - apply (rested w); [done|congruence|by rewrite A'|by rewrite A'|]. intros u. rewrite A'. cbn. intros [= <-]. done.
  - intros u Hu. unfold current in *. rewrite S', A', Hc. done.
  - unfold current in *. by rewrite S'.
Qed.

Lemma become_in_step rep v w :
  rep <> Some false -> at_rest w -> in_step w -> willing w v ->
  let w' := run_next (become rep v w) in at_rest w' /\ in_step w' /\ current w' = Some v.
Proof.
  intros Hrep Hr Hi Hw. pose proof Hr as [Hp Ht Hf _]. pose proof (become_parts rep v w Hw) as P.
  assert (parts (become rep v w) = if decide (current w = Some v) then parts w
    else (views w, v :: popped w, Doc (given_up w) (pending (app w) ++ if isField v then [v] else []) (thrown (app w)))) as P'.
  { destruct rep as [[]|]; [done|done|done]. }
  clear P. case_decide as Hc.
  - apply parts_inj in P' as (V & S & A).
    destruct (settled_at_once w (become rep v w)) as (H1 & H2 & H3); [done|done|by rewrite A..| |].
    { unfold in_step, current. rewrite S, A. exact Hi. }
    split; [done|]. split; [done|]. rewrite H3. unfold current. by rewrite S.
  - rewrite Hp, app_nil_l in P'. apply parts_inj in P' as (V & S & A). destruct (isField v) eqn:Hv.
    + apply (settled_by_focus w); rewrite ?A; [done..|]. unfold current. by rewrite S.
    + destruct (settled_at_once w (become rep v w)) as (H1 & H2 & H3); rewrite ?A; [done..| | |].
      * cbn. intros u Hu. by apply in_step_given_up in Hu.
      * intros u Hu. unfold current. rewrite S, A. cbn. split; [intros [= ->]; congruence|].
        intros H. by apply in_step_given_up in H.
      * split; [done|]. split; [done|]. rewrite H3. unfold current. by rewrite S.
Qed.

Lemma lost_in_step w : in_step w -> (forall u, activeElement (app w) = Some u -> isField u = true) ->
  lost w = if activeElement (app w) then tail (_stack w) else _stack w.
Proof.
  intros Hi Hf. unfold lost. destruct (activeElement (app w)) as [u|] eqn:Ha; [|done].
  rewrite decide_True; [done|]. by apply (Hi _ (Hf _ eq_refl)).
Qed.

(** Nobody has the focus, and no field is the current responder. *)
Lemma in_step_nobody (w : page) l :
  _stack w = l -> activeElement (app w) = None -> (forall u, head l = Some u -> isField u = false) -> in_step w.
Proof.
  intros S A Hl u Hu. unfold current. rewrite S, A. split; [|done]. intros H. apply Hl in H. congruence.
Qed.

Lemma resign_in_step w :
  at_rest w -> in_step w -> allowed Resign w ->
  let w' := run_next (step Resign w) in at_rest w' /\ in_step w'.
Proof.
  intros Hr Hi Hb. pose proof Hr as [Hp Ht Hf _]. cbn [step].
  destruct (resign_parts w) as (w1 & -> & P). cbn [settle]. apply parts_inj in P as (V & S & A).
  assert (given_up w = None) as Hg.
  { destruct (given_up w) as [u|] eqn:Hg; [|done]. by apply in_step_given_up in Hg. }
  destruct (settled_at_once w w1) as (H1 & H2 & _); rewrite ?A; [done..| | |done].
  - cbn. by rewrite Hg.
  - apply (in_step_nobody _ _ S); [by rewrite A|]. intros u. unfold popped. destruct (_stack w) as [|c rest] eqn:Hs; [done|].
    case_bool_decide as H; [|intros Hu; apply Hb; unfold below; by rewrite Hs].
    destruct H as (_ & Hc & Hd). specialize (Hb c). unfold below in Hb. rewrite Hs in Hb. specialize (Hb Hd). congruence.
Qed.

Lemma blur_in_step w :
  at_rest w -> in_step w -> allowed UserBlur w ->
  let w' := run_next (step UserBlur w) in at_rest w' /\ in_step w'.
Proof.
  intros Hr Hi Hb. pose proof Hr as [Hp Ht Hf _]. cbn [step].
  pose proof (browser_blur_parts w) as P. rewrite Hp, Ht in P. apply parts_inj in P as (V & S & A).
  destruct (settled_at_once w (browser_blur w)) as (H1 & H2 & _); rewrite ?A; [done..| |done].
  rewrite (lost_in_step w Hi Hf) in S. destruct (activeElement (app w)) as [a|] eqn:Ha.
  - apply (in_step_nobody _ _ S); [by rewrite A|]. exact Hb.
  - intros u Hu. unfold current. rewrite S, A. cbn. fold (current w). rewrite (Hi u Hu). by rewrite Ha.
Qed.

Lemma user_focus_in_step v w :
  at_rest w -> in_step w -> isField v = true ->
  let w' := run_next (step (UserFocus v) w) in at_rest w' /\ in_step w' /\ current w' = Some v.
Proof.
  intros Hr Hi Hv. pose proof Hr as [Hp Ht Hf Hw]. cbn [step].
  destruct (decide (activeElement (app w) = Some v)) as [Ha|Ha].
  { unfold browser_focus. rewrite decide_True by done.
    destruct (settled_at_once w w) as (H1 & H2 & H3); [done..|]. split; [done|]. split; [done|]. rewrite H3. by apply (Hi v Hv). }
  pose proof (browser_focus_parts v w Ha (Hw v Hv) Hv) as P. case_decide as Hh.
  - apply parts_inj in P as (V & S & A).
    destruct (settled_at_once w (browser_focus v w)) as (H1 & H2 & H3); rewrite ?A; [done..| | |].
    + cbn. intros u [= <-]. done.
    + intros u Hu. unfold current. by rewrite S, A, Hh.
    + split; [done|]. split; [done|]. rewrite H3. unfold current. by rewrite S, Hh.
  - rewrite Hp, Ht in P. apply parts_inj in P as (V & S & A).
    apply (settled_by_focus w); rewrite ?A; [done..|]. unfold current. by rewrite S.
Qed.

(** ** Properties *)


(** ** Departures *)

(** Two fields that become key responders before the callbacks run: each callback moves
    the focus to its own field, which makes it the key responder and leaves a callback. *)
Definition caught (a b : nat) (w : page) : Prop :=
  _stack w = [b] /\ activeElement (app w) <> Some a /\ pending (app w) = [a; b] /\ willing w a /\ willing w b.

Lemma caught_again a b w : a <> b -> isField a = true -> isField b = true -> caught a b w -> caught a b (run_next w).
Proof.
  intros Hab Fa Fb (S & A & P & Wa & Wb). unfold run_next. rewrite P. cbn [foldl].
  set (w0 := set_pending [] w).
  assert (head (lost w0) <> Some a /\ tail (lost w0) = []) as [L0 T0].
  { unfold lost, current. cbn. rewrite S. destruct (activeElement (app w)); [case_decide|]; cbn; split; congruence. }
  pose proof (browser_focus_parts a w0 A Wa Fa) as P1.
  rewrite decide_False, T0 in P1 by done. set (w1 := browser_focus a w0) in *. apply parts_inj in P1 as (V1 & S1 & A1).
  assert (lost w1 = []) as L1 by (unfold lost, current; rewrite A1, S1; cbn; by rewrite decide_True).
  pose proof (browser_focus_parts b w1) as P2. rewrite A1, L1 in P2. cbn [activeElement pending thrown head] in P2.
  specialize (P2 ltac:(naive_solver) (willing_views w w1 b V1 Wb) Fb).
  rewrite decide_False in P2 by done. apply parts_inj in P2 as (V2 & S2 & A2).
  assert (views (browser_focus b w1) = views w) as V by (by rewrite V2, V1).
  unfold caught. rewrite S2, A2. cbn. split_and!; [done|naive_solver|done|exact (willing_views w _ a V Wa)|exact (willing_views w _ b V Wb)].
Qed.

(** However often the callbacks run, two are left, and the focus goes on changing. *)
Lemma two_fields_never_rest a b w n :
  a <> b -> isField a = true -> isField b = true -> at_rest w -> _stack w = [] -> activeElement (app w) = None ->
  caught a b (Nat.iter n run_next (become None b (become None a w))).
Proof.
  intros Hab Fa Fb [Hp Ht Hf Hw] S A. induction n as [|n IH]; [|by apply caught_again].
  cbn [Nat.iter nat_rect]. pose proof (become_parts None a w (Hw a Fa)) as P. unfold current, popped, given_up, current in P.
  rewrite S, A, Hp, Fa in P. cbn in P. apply parts_inj in P as (V1 & S1 & A1).
  set (w1 := become None a w) in *.
  pose proof (become_parts None b w1 (willing_views w w1 b V1 (Hw b Fb))) as P. unfold current, popped, given_up, current in P.
  rewrite S1, A1, Fb in P. cbn in P. rewrite decide_False in P by naive_solver. rewrite !bool_decide_eq_false_2 in P by naive_solver.
  apply parts_inj in P as (V2 & S2 & A2).
  assert (views (become None b w1) = views w) as V by (by rewrite V2, V1).
  unfold caught. rewrite S2, A2. cbn. split_and!; [done|done|done|exact (willing_views w _ a V (Hw a Fa))|exact (willing_views w _ b V (Hw b Fb))].
Qed.
End focus.

(** ** Witnesses and departures *)

(** Fields 1 and 2, an ordinary view 3 that takes key events. *)
Definition ex_field (v : nat) : bool := bool_decide (v = 1 \/ v = 2).
Definition ex_page (stack : list nat) (active : option nat) : page :=
  World (Doc active [] false)
    {[1 := VInfo None true true true true false true false true; 2 := VInfo None true true true true false true false true;
      3 := VInfo None true true true true false true false true]} stack None (list_to_set stack).

Lemma ex_at_rest stack active : (forall u, active = Some u -> ex_field u = true) -> at_rest ex_field (ex_page stack active).
Proof.
  intros Ha. split; [done..|]. intros v Hv. unfold ex_field in Hv. apply bool_decide_eq_true in Hv as [-> | ->]; by vm_compute.
Qed.


(** The user goes from field to field without a mouse, under a panel that has been pushed
    over view 3: the first field resigns and the second one replaces view 3, which is no
    longer there when the panel is closed. *)
Lemma tabbing_drops_responder :
  _stack (run_next ex_field (step ex_field (UserFocus 2) (ex_page [1; 3] (Some 1)))) = [2].
Proof. vm_compute. reflexivity. Qed.

(** A panel, view 3, pushed over a field and closed after another of its fields had the
    focus: the field is the key responder again, but does not get the focus back. *)
Lemma focus_not_given_back :
  let w := run_next ex_field (step ex_field Resign (ex_page [2; 1] (Some 2))) in
  current w = Some 1 /\ activeElement (app w) = None.
Proof. vm_compute. done. Qed.

(** A panel pushed over a field takes the key events, the field keeps the focus. *)
Lemma focus_kept_below :
  let w := run_next ex_field (step ex_field (Become (Some false) 3) (ex_page [1] (Some 1))) in
  current w = Some 3 /\ activeElement (app w) = Some 1.
Proof. vm_compute. done. Qed.
