(* ===== verification/SplitView.v ===== *)
(** * Split views ([views/split_view.js], [vertical_split_view.js],
    [horizontal_split_view.js], [split_view_divider_view_base.js])

    The vertical and the horizontal split view are the same code with other
    property names.  The common part is written once, for a first and a second view
    along an axis ([leftView] and [rightView], or [topView] and [bottomView]); the
    modules [Vertical] and [Horizontal] instantiate it.

    Setting a width fires the observer [_updateLayout] when the value changes, and
    [_updateLayout] sets both widths: it calls itself, to a depth that the model
    bounds; a deeper recursion throws the engine's [RangeError]. *)

From S2P Require Import Prelude Statechart.
Open Scope string_scope.
Open Scope list_scope.
Open Scope flame_scope.

(** ** Data *)

(** A width: [undefined], [NaN] or a number of pixels. *)
Inductive dim := Undef | NaN | Num (z : Z).
#[export] Instance dim_eq_dec : EqDecision dim.
Proof. solve_decision. Defined.

Definition same (a b : dim) : bool :=
  match a, b with NaN, NaN => false | _, _ => bool_decide (a = b) end.
Definition is_undef (a : dim) : bool := match a with Undef => true | _ => false end.
Definition dim_add (a b : dim) : dim := match a, b with Num x, Num y => Num (x + y) | _, _ => NaN end.
Definition dim_sub (a b : dim) : dim := match a, b with Num x, Num y => Num (x - y) | _, _ => NaN end.
(** [typeof a === 'number' && a < m] *)
Definition below (a : dim) (m : Z) : bool := match a with Num x => (x <? m)%Z | _ => false end.

(** A property of a layout: never set, the empty string, or a width. *)
Inductive lval := LUnset | LBlank | LDim (d : dim).
Record layout := Layout { l_left : lval; l_width : lval; l_right : lval; l_top : lval; l_height : lval; l_bottom : lval }.

Inductive axis := AxisX | AxisY.

Record split := Split {
  flexSecond : bool;             (* [flex === 'right'] or ['bottom']: the first width is fixed *)
  first : dim;                   (* [leftWidth], [topHeight] *)
  second : dim;
  minFirst : Z;
  minSecond : Z;
  total : option Z;              (* the inner width of the element, [null] when it has none *)
  dividerThickness : Z;
  allowResizing : bool;
  unCollapsedFirst : dim;
  unCollapsedSecond : dim;
  resizeStart : dim;             (* [_resizeStartX] *)
  resizeStartFirst : dim;
  resizeStartSecond : dim;
  firstLayout : layout;
  dividerLayout : layout;
  secondLayout : layout
}.

Definition with_first v s := Split (flexSecond s) v (second s) (minFirst s) (minSecond s) (total s) (dividerThickness s) (allowResizing s) (unCollapsedFirst s) (unCollapsedSecond s) (resizeStart s) (resizeStartFirst s) (resizeStartSecond s) (firstLayout s) (dividerLayout s) (secondLayout s).
Definition with_second v s := Split (flexSecond s) (first s) v (minFirst s) (minSecond s) (total s) (dividerThickness s) (allowResizing s) (unCollapsedFirst s) (unCollapsedSecond s) (resizeStart s) (resizeStartFirst s) (resizeStartSecond s) (firstLayout s) (dividerLayout s) (secondLayout s).
Definition with_uncollapsed u v s := Split (flexSecond s) (first s) (second s) (minFirst s) (minSecond s) (total s) (dividerThickness s) (allowResizing s) u v (resizeStart s) (resizeStartFirst s) (resizeStartSecond s) (firstLayout s) (dividerLayout s) (secondLayout s).
Definition with_start x u v s := Split (flexSecond s) (first s) (second s) (minFirst s) (minSecond s) (total s) (dividerThickness s) (allowResizing s) (unCollapsedFirst s) (unCollapsedSecond s) x u v (firstLayout s) (dividerLayout s) (secondLayout s).
Definition with_layouts a b c s := Split (flexSecond s) (first s) (second s) (minFirst s) (minSecond s) (total s) (dividerThickness s) (allowResizing s) (unCollapsedFirst s) (unCollapsedSecond s) (resizeStart s) (resizeStartFirst s) (resizeStartSecond s) a b c.

(** [init]: the flexible width starts out undefined. *)
Definition init_split (s : split) : split :=
  if flexSecond s then with_second Undef s else with_first Undef s.

Section split.
Context (ax : axis).

(** ** Operations *)

Definition _setDimensions (start size end_ : lval) (l : layout) : layout :=
  match ax with
  | AxisX => Layout start size end_ (LDim (Num 0)) (l_height l) (LDim (Num 0))
  | AxisY => Layout (LDim (Num 0)) (l_width l) (LDim (Num 0)) start size end_
  end.

(** The widths that [_updateLayout] computes before it sets anything. *)
Definition widths (s : split) : dim * dim :=
  let l := if flexSecond s then first s else Undef in
  let r := if flexSecond s then Undef else second s in
  let t := Num (dividerThickness s) in
  let measured := match total s with Some T => negb (T =? 0)%Z | None => false end in
  let T := match total s with Some T => Num T | None => NaN end in
  let l := if is_undef l && negb (is_undef r) && measured
           then dim_sub (dim_sub T r) t else l in
  let r := if is_undef r && negb (is_undef l) && measured
           then dim_sub (dim_sub T l) t else r in
  let '(l, r) := if below l (minFirst s) then (Num (minFirst s), dim_add r (dim_sub l (Num (minFirst s)))) else (l, r) in
  if below r (minSecond s) then (dim_add l (dim_sub r (Num (minSecond s))), Num (minSecond s)) else (l, r).

(** The dimensions given to the three views. *)
Definition set_layouts (l r : dim) (s : split) : split :=
  let t := Num (dividerThickness s) in
  let zero := LDim (Num 0) in
  if flexSecond s then
    with_layouts (_setDimensions zero (LDim l) LBlank (firstLayout s))
                 (_setDimensions (LDim l) (LDim t) LBlank (dividerLayout s))
                 (_setDimensions (LDim (dim_add l t)) LBlank zero (secondLayout s)) s
  else
    with_layouts (_setDimensions zero LBlank (LDim (dim_add r t)) (firstLayout s))
                 (_setDimensions LBlank (LDim t) (LDim r) (dividerLayout s))
                 (_setDimensions LBlank (LDim r) zero (secondLayout s)) s.

Definition RangeError : string := "RangeError".

Fixpoint _updateLayout (depth : nat) (s : split) : outcome split :=
  match depth with
  | 0 => Throw RangeError
  | S n =>
      let '(l, r) := widths s in
      do! s1 <- (if same l (first s) then Ok s else _updateLayout n (with_first l s)) ;
      do! s2 <- (if same r (second s1) then Ok s1 else _updateLayout n (with_second r s1)) ;
      Ok (set_layouts l r s2)
  end.

Context (depth : nat).

(** [this.set('leftWidth', v)] and its observer. *)
Definition set_first (v : dim) (s : split) : outcome split :=
  if same v (first s) then Ok s else _updateLayout depth (with_first v s).
Definition set_second (v : dim) (s : split) : outcome split :=
  if same v (second s) then Ok s else _updateLayout depth (with_second v s).

Definition didInsertElement (s : split) : outcome split := _updateLayout depth s.

Definition toggleCollapse (s : split) : outcome split :=
  if negb (allowResizing s) then Ok s
  else if flexSecond s then
    if same (first s) (Num (minFirst s)) && negb (is_undef (unCollapsedFirst s))
    then set_first (unCollapsedFirst s) s
    else set_first (Num (minFirst s)) (with_uncollapsed (first s) (unCollapsedSecond s) s)
  else
    if same (second s) (Num (minSecond s)) && negb (is_undef (unCollapsedSecond s))
    then set_second (unCollapsedSecond s) s
    else set_second (Num (minSecond s)) (with_uncollapsed (unCollapsedFirst s) (second s) s).

Definition startResize (x : Z) (s : split) : split := with_start (Num x) (first s) (second s) s.

Definition resize (x : Z) (s : split) : outcome split :=
  if flexSecond s
  then set_first (dim_add (resizeStartFirst s) (dim_sub (Num x) (resizeStart s))) s
  else set_second (dim_sub (resizeStartSecond s) (dim_sub (Num x) (resizeStart s))) s.

Fixpoint drag (xs : list Z) (s : split) : outcome split :=
  match xs with
  | [] => Ok s
  | x :: xs' => do! s' <- resize x s ; drag xs' s'
  end.

(** ** Specification *)

(** The pixels a view covers along the axis of an element of [T] pixels. *)
Definition extent (T : Z) (l : layout) : option (Z * Z) :=
  match (match ax with AxisX => (l_left l, l_width l, l_right l) | AxisY => (l_top l, l_height l, l_bottom l) end) with
  | (LDim (Num a), LDim (Num w), LBlank) => Some (a, a + w)%Z
  | (LDim (Num a), LBlank, LDim (Num b)) => Some (a, T - b)%Z
  | (LBlank, LDim (Num w), LDim (Num b)) => Some (T - b - w, T - b)%Z
  | _ => None
  end.

(** The first width asked for, and the one given: at least the first minimum if the
    second minimum leaves room for it. *)
Definition wanted (T : Z) (s : split) : option Z :=
  match (if flexSecond s then first s else second s) with
  | Num z => Some (if flexSecond s then z else T - z - dividerThickness s)%Z
  | _ => None
  end.
Definition granted (T f : Z) (s : split) : Z :=
  Z.min (Z.max f (minFirst s)) (T - dividerThickness s - minSecond s).

Definition settled (T : Z) (s : split) : Prop :=
  exists f, first s = Num f /\ second s = Num (T - dividerThickness s - f) /\ f = granted T f s.

Definition tiled (T : Z) (s : split) : Prop :=
  exists f, first s = Num f /\
    extent T (firstLayout s) = Some (0, f)%Z /\
    extent T (dividerLayout s) = Some (f, f + dividerThickness s)%Z /\
    extent T (secondLayout s) = Some (f + dividerThickness s, T)%Z.

(** What a layout pass does not change. *)
Definition config (s : split) :=
  (flexSecond s, minFirst s, minSecond s, total s, dividerThickness s, allowResizing s,
   (unCollapsedFirst s, unCollapsedSecond s), (resizeStart s, resizeStartFirst s, resizeStartSecond s)).

(** ** Lemmas *)

Lemma same_true a b : same a b = true -> a = b.
Proof. destruct a, b; cbn; intros H; try discriminate; by apply bool_decide_eq_true in H. Qed.
Lemma same_num x y : same (Num x) (Num y) = (x =? y)%Z.
Proof. cbn. destruct (Z.eqb_spec x y) as [->|H]; [by apply bool_decide_eq_true_2|]. apply bool_decide_eq_false_2. congruence. Qed.

Lemma granted_idem T f s : granted T (granted T f s) s = granted T f s.
Proof. unfold granted. lia. Qed.

#[local] Arguments Z.ltb : simpl never.
#[local] Arguments Z.eqb : simpl never.
#[local] Arguments Z.max : simpl never.
#[local] Arguments Z.min : simpl never.
#[local] Arguments Z.add : simpl never.
#[local] Arguments Z.sub : simpl never.

Lemma num_pair a b c d : a = c -> b = d -> (Num a, Num b) = (Num c, Num d).
Proof. by intros -> ->. Qed.

Lemma widths_spec T f s : total s = Some T -> T <> 0%Z -> wanted T s = Some f ->
  widths s = (Num (granted T f s), Num (T - dividerThickness s - granted T f s)).
Proof.
  intros HT H0 Hw. unfold wanted in Hw. unfold widths, granted. rewrite HT.
  rewrite (proj2 (Z.eqb_neq T 0)) by done. cbn [negb].
  destruct (flexSecond s) eqn:Ef.
  - destruct (first s) as [| |z] eqn:E; try discriminate. injection Hw as ->. cbn.
    zcases; cbn; zcases; cbn; apply num_pair; lia.
  - destruct (second s) as [| |z] eqn:E; try discriminate. injection Hw as <-. cbn.
    zcases; cbn; zcases; cbn; apply num_pair; lia.
Qed.

Section settle.
Context (T : Z) (HT0 : T <> 0%Z).

(** States from which a pass computes the first width [g]. *)
Definition heads_for (g : Z) (s : split) : Prop :=
  total s = Some T /\ exists f, wanted T s = Some f /\ g = granted T f s.

Lemma heads_widths g s : heads_for g s -> widths s = (Num g, Num (T - dividerThickness s - g)).
Proof. intros (HT & f & Hw & ->). by apply widths_spec. Qed.

Lemma heads_first g s : heads_for g s -> heads_for g (with_first (Num g) s).
Proof.
  intros (HT & f & Hw & Hg). split; [done|]. unfold wanted in *. cbn. destruct (flexSecond s).
  - exists g. split; [done|]. change (granted T g (with_first (Num g) s)) with (granted T g s).
    by rewrite Hg, granted_idem.
  - exists f. done.
Qed.

Lemma heads_second g s : heads_for g s -> heads_for g (with_second (Num (T - dividerThickness s - g)) s).
Proof.
  intros (HT & f & Hw & Hg). split; [done|]. unfold wanted in *. cbn. destruct (flexSecond s).
  - exists f. done.
  - exists g. split; [f_equal; lia|]. 
    change (granted T g (with_second (Num (T - dividerThickness s - g)) s)) with (granted T g s).
    by rewrite Hg, granted_idem.
Qed.

Lemma same_refl_num z : same (Num z) (Num z) = true.
Proof. by apply bool_decide_eq_true_2. Qed.

Definition done_at (g : Z) (s0 s : split) : Prop :=
  config s = config s0 /\ first s = Num g /\ second s = Num (T - dividerThickness s0 - g) /\ tiled T s.

Lemma set_layouts_done g s :
  first s = Num g -> second s = Num (T - dividerThickness s - g) ->
  done_at g s (set_layouts (Num g) (Num (T - dividerThickness s - g)) s).
Proof.
  intros Hf Hs. unfold set_layouts. destruct (flexSecond s) eqn:E.
  - split_and!; [done|done|done|]. exists g. split; [done|].
    unfold extent, _setDimensions. destruct ax; cbn; split_and!; f_equal; f_equal; lia.
  - split_and!; [done|done|done|]. exists g. split; [done|].
    unfold extent, _setDimensions. destruct ax; cbn; split_and!; f_equal; apply pair_equal_spec; lia.
Qed.

Lemma done_trans g s0 s1 s2 : config s1 = config s0 -> done_at g s1 s2 -> done_at g s0 s2.
Proof.
  intros Hc (H1 & H2 & H3 & H4). split_and!; [congruence|done| |done].
  unfold config in Hc. injection Hc. intros. congruence.
Qed.

Lemma set_layouts_frame l r s :
  config (set_layouts l r s) = config s /\ first (set_layouts l r s) = first s /\ second (set_layouts l r s) = second s.
Proof. unfold set_layouts. by destruct (flexSecond s). Qed.

Lemma set_layouts_done_at g s0 s1 :
  config s1 = config s0 -> first s1 = Num g -> second s1 = Num (T - dividerThickness s0 - g) ->
  done_at g s0 (set_layouts (Num g) (Num (T - dividerThickness s0 - g)) s1).
Proof.
  intros Hc Hf Hs. assert (Hth : dividerThickness s1 = dividerThickness s0) by (unfold config in Hc; by injection Hc).
  rewrite <- Hth in *. apply (done_trans g s0 s1); [done|]. by apply set_layouts_done.
Qed.

Lemma update_settled n g s : heads_for g s -> first s = Num g -> second s = Num (T - dividerThickness s - g) ->
  _updateLayout (S n) s = Ok (set_layouts (Num g) (Num (T - dividerThickness s - g)) s).
Proof.
  intros Hh Hf Hs. cbn [_updateLayout]. rewrite (heads_widths g s Hh), Hf, same_refl_num. cbn [outcome_bind].
  by rewrite Hs, same_refl_num.
Qed.

Lemma update_first_set n g s : heads_for g s -> first s = Num g ->
  exists s', _updateLayout (S (S n)) s = Ok s' /\ done_at g s s'.
Proof.
  intros Hh Hf. remember (S n) as k. cbn [_updateLayout]. rewrite (heads_widths g s Hh), Hf, same_refl_num.
  cbn [outcome_bind]. destruct (same _ (second s)) eqn:Es.
  - apply same_true in Es. eexists. split; [done|]. by apply set_layouts_done.
  - subst k. rewrite (update_settled n g) by (try apply heads_second; done). cbn [outcome_bind].
    eexists. split; [done|]. set (s1 := with_second _ s).
    destruct (set_layouts_frame (Num g) (Num (T - dividerThickness s1 - g)) s1) as (E1 & E2 & E3).
    apply set_layouts_done_at; [by rewrite E1|by rewrite E2|by rewrite E3].
Qed.

Lemma update_done n g s : heads_for g s ->
  exists s', _updateLayout (S (S (S n))) s = Ok s' /\ done_at g s s'.
Proof.
  intros Hh. remember (S (S n)) as k. cbn [_updateLayout]. rewrite (heads_widths g s Hh).
  destruct (same _ (first s)) eqn:Ef.
  - apply same_true in Ef. cbn [outcome_bind]. destruct (same _ (second s)) eqn:Es.
    + apply same_true in Es. eexists. split; [done|]. by apply set_layouts_done.
    + subst k. rewrite (update_settled (S n) g) by (try apply heads_second; done). cbn [outcome_bind].
      eexists. split; [done|]. set (s1 := with_second _ s).
      destruct (set_layouts_frame (Num g) (Num (T - dividerThickness s1 - g)) s1) as (E1 & E2 & E3).
      apply set_layouts_done_at; [by rewrite E1|by rewrite E2|by rewrite E3].
  - subst k. destruct (update_first_set n g (with_first (Num g) s)) as (s1 & -> & H1);
      [by apply heads_first|done|]. cbn [outcome_bind].
    destruct H1 as (Hc1 & Hf1 & Hs1 & Ht1). cbn in Hs1. rewrite Hs1, same_refl_num. cbn [outcome_bind].
    eexists. split; [done|].
    by apply set_layouts_done_at.
Qed.
End settle.

(** The two widths asked for through the setters. *)
Lemma set_first_done T g v s : T <> 0%Z -> 3 <= depth -> settled T s -> tiled T s -> total s = Some T ->
  flexSecond s = true -> v = Num g ->
  exists s', set_first v s = Ok s' /\ done_at T (granted T g s) s s'.
Proof.
  intros HT0 Hd (f & Hf & Hs & Hg) Ht HT Hfl ->. unfold set_first. rewrite Hf, same_num.
  destruct (Z.eqb_spec g f) as [->|Hne].
  - exists s. split; [done|]. rewrite <- Hg. by split_and!.
  - destruct depth as [|[|[|n]]]; try lia.
    destruct (update_done T HT0 n (granted T g s) (with_first (Num g) s)) as (s' & -> & H).
    { split; [done|]. exists g. split; [|done]. unfold wanted. cbn. by rewrite Hfl. }
    exists s'. split; [done|]. destruct H as (Hc & ? & ? & ?). split_and!; [|done|done|done]. by rewrite Hc.
Qed.

Lemma set_second_done T g v s : T <> 0%Z -> 3 <= depth -> settled T s -> tiled T s -> total s = Some T ->
  flexSecond s = false -> v = Num g ->
  exists s', set_second v s = Ok s' /\ done_at T (granted T (T - g - dividerThickness s) s) s s'.
Proof.
  intros HT0 Hd (f & Hf & Hs & Hg) Ht HT Hfl ->. unfold set_second. rewrite Hs, same_num.
  destruct (Z.eqb_spec g (T - dividerThickness s - f)) as [->|Hne].
  - exists s. split; [done|]. replace (T - (T - dividerThickness s - f) - dividerThickness s)%Z with f by lia.
    rewrite <- Hg. by split_and!.
  - destruct depth as [|[|[|n]]]; try lia.
    destruct (update_done T HT0 n (granted T (T - g - dividerThickness s) s) (with_second (Num g) s)) as (s' & -> & H).
    { split; [done|]. eexists. split; [|done]. unfold wanted. cbn. by rewrite Hfl. }
    exists s'. split; [done|]. destruct H as (Hc & ? & ? & ?). split_and!; [|done|done|done]. by rewrite Hc.
Qed.

Lemma settled_done T g s0 s : done_at T (granted T g s0) s0 s -> settled T s /\ tiled T s /\ config s = config s0.
Proof.
  intros (Hc & Hf & Hs & Ht). split_and!; [|done|done]. exists (granted T g s0).
  unfold config in Hc. injection Hc as E1 E2 E3 E4 E5 E6 E7 E8 E9 E10 E11.
  assert (forall z, granted T z s = granted T z s0) as Hg by (intros; unfold granted; by rewrite E2, E3, E5).
  by rewrite Hg, granted_idem, Hs, E5.
Qed.

Lemma config_total s s' : config s = config s' -> total s = total s'.
Proof. unfold config. intros H. by injection H. Qed.

(** One mouse move during a drag. *)
Lemma resize_done T s x x0 f0 : T <> 0%Z -> 3 <= depth -> settled T s -> tiled T s -> total s = Some T ->
  resizeStart s = Num x0 -> resizeStartFirst s = Num f0 -> resizeStartSecond s = Num (T - dividerThickness s - f0) ->
  exists s', resize x s = Ok s' /\ done_at T (granted T (f0 + (x - x0)) s) s s'.
Proof.
  intros HT0 Hd Hst Hti HT Hx Hf Hs. unfold resize. rewrite Hx, Hf, Hs. cbn [dim_add dim_sub].
  destruct (flexSecond s) eqn:E.
  - by apply set_first_done.
  - destruct (set_second_done T (T - dividerThickness s - f0 - (x - x0)) _ s HT0 Hd Hst Hti HT E eq_refl) as (s' & H1 & H2).
    exists s'. split; [done|]. by replace (f0 + (x - x0))%Z with
      (T - (T - dividerThickness s - f0 - (x - x0)) - dividerThickness s)%Z by lia.
Qed.

Lemma drag_done T x0 f0 xs : forall s x, T <> 0%Z -> 3 <= depth -> settled T s -> tiled T s -> total s = Some T ->
  resizeStart s = Num x0 -> resizeStartFirst s = Num f0 -> resizeStartSecond s = Num (T - dividerThickness s - f0) ->
  exists s', drag (xs ++ [x]) s = Ok s' /\ settled T s' /\ tiled T s' /\ config s' = config s /\
    first s' = Num (granted T (f0 + (x - x0)) s).
Proof.
  induction xs as [|y xs IH]; intros s x HT0 Hd Hst Hti HT Hx Hf Hs; cbn [app drag].
  - destruct (resize_done T s x x0 f0) as (s' & -> & H); try done. cbn.
    destruct (settled_done _ _ _ _ H) as (? & ? & ?). destruct H as (_ & H & _). exists s'. by split_and!.
  - destruct (resize_done T s y x0 f0) as (s1 & -> & H); try done. cbn [outcome_bind].
    destruct (settled_done _ _ _ _ H) as (Hst1 & Hti1 & Hc).
    pose proof Hc as Hc'. unfold config in Hc'. injection Hc' as E1 E2 E3 E4 E5 E6 E7 E8 E9 E10 E11.
    destruct (IH s1 x HT0 Hd Hst1 Hti1) as (s' & Hdr & Hst' & Hti' & Hc2 & Hf2); try congruence.
    exists s'. split_and!; [done|done|done|congruence|]. rewrite Hf2. unfold granted. by rewrite E2, E3, E5.
Qed.

(** ** Properties *)

(** C38. A layout pass of an element with a size ends, whatever widths it starts
    from: the fixed view gets the width asked for, as far as the minimum of the first
    view and, above it, the minimum of the second allow; and the three views tile
    the element without gap or overlap.  Three nested passes are enough. *)
Theorem updateLayout_correct T f s :
  T <> 0%Z -> total s = Some T -> wanted T s = Some f -> 3 <= depth ->
  exists s', didInsertElement s = Ok s' /\ first s' = Num (granted T f s) /\
    settled T s' /\ tiled T s' /\ config s' = config s.
Proof.
  intros HT0 HT Hw Hd. unfold didInsertElement. destruct depth as [|[|[|n]]]; try lia.
  destruct (update_done T HT0 n (granted T f s) s) as (s' & -> & H); [split; [done|]; by exists f|].
  destruct (settled_done _ _ _ _ H) as (? & ? & ?). destruct H as (_ & ? & _). exists s'. by split_and!.
Qed.

(** Where a drag of the divider ends depends on where it started and on the last
    position of the pointer only, not on the positions in between: the divider
    moves by the distance of the pointer within the limits of the two minima. *)
Theorem drag_ends_at T s f0 x0 xs x :
  T <> 0%Z -> total s = Some T -> settled T s -> tiled T s -> first s = Num f0 -> 3 <= depth ->
  exists s', drag (xs ++ [x]) (startResize x0 s) = Ok s' /\
    first s' = Num (granted T (f0 + (x - x0)) s) /\ settled T s' /\ tiled T s'.
Proof.
  intros HT0 HT Hst Hti Hf Hd.
  destruct (drag_done T x0 f0 xs (startResize x0 s) x) as (s' & ? & ? & ? & ? & ?); try done.
  - destruct Hst as (f & Hf' & Hs & Hg). cbn. congruence.
  - by exists s'.
Qed.

(** Collapsing a split view that is not collapsed and expanding it again gives
    the widths it had, when the element has room for both minima. *)
Theorem toggle_roundtrip T s f :
  T <> 0%Z -> total s = Some T -> settled T s -> tiled T s -> first s = Num f -> 3 <= depth ->
  allowResizing s = true -> (minFirst s + minSecond s + dividerThickness s <= T)%Z ->
  (if flexSecond s then minFirst s < f else minSecond s < T - dividerThickness s - f)%Z ->
  exists s1 s2, toggleCollapse s = Ok s1 /\ toggleCollapse s1 = Ok s2 /\
    first s1 = Num (if flexSecond s then minFirst s else T - dividerThickness s - minSecond s) /\
    first s2 = first s /\ second s2 = second s.
Proof.
  intros HT0 HT Hst Hti Hf Hd Ha Hroom Hopen. unfold toggleCollapse at 1. rewrite Ha. cbn [negb].
  pose proof Hst as (f' & Hf' & Hs & Hg). rewrite Hf in Hf'. injection Hf' as <-.
  destruct (flexSecond s) eqn:E.
  - rewrite Hf, same_num. destruct (Z.eqb_spec f (minFirst s)); [lia|]. cbn [andb].
    set (s0 := with_uncollapsed (Num f) (unCollapsedSecond s) s).
    destruct (set_first_done T (minFirst s) _ s0 HT0 Hd Hst Hti HT E eq_refl) as (s1 & H1 & D1).
    destruct (settled_done _ _ _ _ D1) as (Hst1 & Hti1 & Hc). destruct D1 as (_ & Hf1 & Hs1 & _).
    pose proof Hc as Hc'. unfold config in Hc'. injection Hc' as E1 E2 E3 E4 E5 E6 E7 E8 E9 E10 E11. cbn in *.
    assert (Hgm : granted T (minFirst s) s0 = minFirst s) by (unfold granted; cbn; lia).
    rewrite Hgm in Hf1. exists s1.
    destruct (set_first_done T f (unCollapsedFirst s1) s1 HT0 Hd Hst1 Hti1) as (s2 & H2 & D2); try congruence.
    destruct D2 as (_ & Hf2 & Hs2 & _). assert (Hgf : granted T f s1 = f) by (rewrite Hg at 2; unfold granted; congruence).
    exists s2. split_and!; [done| |done|congruence|rewrite Hs2, Hgf; congruence].
    unfold toggleCollapse. rewrite E6, Ha, E1, E, Hf1, E2, same_num, Z.eqb_refl, E7. cbn. by rewrite E7 in H2.
  - rewrite Hs, same_num. destruct (Z.eqb_spec (T - dividerThickness s - f) (minSecond s)); [lia|]. cbn [andb].
    set (s0 := with_uncollapsed (unCollapsedFirst s) (Num (T - dividerThickness s - f)) s).
    destruct (set_second_done T (minSecond s) _ s0 HT0 Hd Hst Hti HT E eq_refl) as (s1 & H1 & D1).
    destruct (settled_done _ _ _ _ D1) as (Hst1 & Hti1 & Hc). destruct D1 as (_ & Hf1 & Hs1 & _).
    pose proof Hc as Hc'. unfold config in Hc'. injection Hc' as E1 E2 E3 E4 E5 E6 E7 E8 E9 E10 E11. cbn in *.
    assert (Hgm : granted T (T - minSecond s - dividerThickness s) s0 = (T - dividerThickness s - minSecond s)%Z)
      by (unfold granted; cbn; lia).
    rewrite Hgm in Hf1, Hs1. exists s1.
    destruct (set_second_done T (T - dividerThickness s - f) (unCollapsedSecond s1) s1 HT0 Hd Hst1 Hti1)
      as (s2 & H2 & D2); try congruence.
    destruct D2 as (_ & Hf2 & Hs2 & _).
    assert (Hgf : granted T (T - (T - dividerThickness s - f) - dividerThickness s1) s1 = f).
    { rewrite E5. replace (T - (T - dividerThickness s - f) - dividerThickness s)%Z with f by lia.
      rewrite Hg at 2. unfold granted. congruence. }
    exists s2. split_and!; [done| |done|congruence|rewrite Hs2, Hgf; congruence].
    unfold toggleCollapse. rewrite E6, Ha, E1, E, Hs1, E3, same_num.
    replace (T - dividerThickness s - (T - dividerThickness s - minSecond s))%Z with (minSecond s) by lia.
    rewrite Z.eqb_refl, E8. cbn. by rewrite E8 in H2.
Qed.
End split.

(** ** The divider *)
Module Divider.
Record divider := D { dstate : option string; parent : split }.

#[export] Instance divider_chart : Chart divider := {
  currentFlameState := dstate;
  set_currentFlameState n d := D (Some n) (parent d);
  lookup_state n := match n with "idle" | "resizing" => PState (Hooks None None) | _ => PUndefined end
}.

Section divider.
Context (ax : axis) (depth : nat).

(** The first argument of a handler is the event, here the position of the pointer. *)
Definition pageX (args : list jsval) : Z := match args with JNum x :: _ => x | _ => 0 end.

Definition idle_mouseDown : method (O := divider) := fun args d =>
  if negb (allowResizing (parent d)) then Ok (d, JBool false)
  else do! d' <- gotoFlameState "resizing" (D (dstate d) (startResize (pageX args) (parent d))) ; Ok (d', JBool true).
Definition divider_touchStart : method (O := divider) := fun args d =>
  do! r <- idle_mouseDown args d ; Ok (r.1, JBool true).
Definition idle_doubleClick : method (O := divider) := fun args d =>
  if negb (allowResizing (parent d)) then Ok (d, JBool false)
  else do! p <- toggleCollapse ax depth (parent d) ; Ok (D (dstate d) p, JBool true).
Definition resizing_mouseMove : method (O := divider) := fun args d =>
  do! p <- resize ax depth (pageX args) (parent d) ; Ok (D (dstate d) p, JBool true).
Definition resizing_touchMove : method (O := divider) := fun args d =>
  do! r <- resizing_mouseMove args d ; Ok (r.1, JBool true).
(** [State.gotoFlameState('idle')] *)
Definition goto_idle : method (O := divider) := fun _ d => do! d' <- gotoFlameState "idle" d ; Ok (d', JBool true).

Definition divider_class (n : string) : option state_class :=
  match n with
  | "idle" => Some (StateClass [("mouseDown", idle_mouseDown); ("touchStart", divider_touchStart);
                                ("doubleClick", idle_doubleClick)] (fun _ => None))
  | "resizing" => Some (StateClass [("mouseMove", resizing_mouseMove); ("touchMove", resizing_touchMove);
                                    ("mouseUp", goto_idle); ("touchEnd", goto_idle)] (fun _ => None))
  | _ => None
  end.

Definition divider_call (name : string) (x : Z) (d : divider) : outcome divider :=
  do! r <- invokeStateMethod divider_class (fun _ d => Ok (d, JUndefined)) name [JNum x] d ; Ok r.1.

Fixpoint moves (xs : list Z) (d : divider) : outcome divider :=
  match xs with
  | [] => Ok d
  | x :: xs' => do! d' <- divider_call "mouseMove" x d ; moves xs' d'
  end.

Lemma moves_drag xs : forall p p', drag ax depth xs p = Ok p' ->
  moves xs (D (Some "resizing") p) = Ok (D (Some "resizing") p').
Proof.
  induction xs as [|x xs IH]; intros p p'; cbn [drag moves]; [by intros [= ->]|].
  destruct (resize ax depth x p) as [p1|] eqn:E; [|discriminate]. cbn [outcome_bind]. intros H.
  unfold divider_call, invokeStateMethod. cbn. unfold resizing_mouseMove. cbn. rewrite E. cbn. by apply IH.
Qed.

Lemma moves_idle xs p : moves xs (D (Some "idle") p) = Ok (D (Some "idle") p).
Proof. by induction xs. Qed.

(** Pressing the divider, moving the pointer and releasing it drags the split
    view, when it allows resizing; moves before the press and after the release
    change nothing, and a view that does not allow resizing is never changed. *)
Theorem divider_drags T s f0 x0 xs x before after :
  T <> 0%Z -> total s = Some T -> settled T s -> tiled ax T s -> first s = Num f0 -> 3 <= depth ->
  exists s',
    (do! d1 <- moves before (D (Some "idle") s) ;
     do! d2 <- divider_call "mouseDown" x0 d1 ;
     do! d3 <- moves (xs ++ [x]) d2 ;
     do! d4 <- divider_call "mouseUp" x d3 ;
     moves after d4) = Ok (D (Some "idle") s') /\
    first s' = (if allowResizing s then Num (granted T (f0 + (x - x0)) s) else first s) /\ tiled ax T s'.
Proof.
  intros HT0 HT Hst Hti Hf Hd. rewrite moves_idle. cbn [outcome_bind].
  destruct (allowResizing s) eqn:Ha.
  - assert (divider_call "mouseDown" x0 (D (Some "idle") s) = Ok (D (Some "resizing") (startResize x0 s))) as ->.
    { unfold divider_call, invokeStateMethod. cbn. unfold idle_mouseDown. cbn. by rewrite Ha. }
    cbn [outcome_bind].
    destruct (drag_done ax depth T x0 f0 xs (startResize x0 s) x) as (s' & Hdr & ? & Hti' & ? & Hf'); try done.
    { destruct Hst as (f & Hf' & Hs & Hg). cbn. congruence. }
    rewrite (moves_drag _ _ _ Hdr). exists s'. split; [apply moves_idle|done].
  - assert (divider_call "mouseDown" x0 (D (Some "idle") s) = Ok (D (Some "idle") s)) as ->.
    { unfold divider_call, invokeStateMethod. cbn. unfold idle_mouseDown. cbn. by rewrite Ha. }
    cbn [outcome_bind]. exists s. rewrite moves_idle. split; [apply moves_idle|done].
Qed.
End divider.
End Divider.

(** ** The two orientations *)

(** [leftView], [rightView]: widths along the horizontal axis. *)
Module Vertical.
Definition _updateLayout := SplitView._updateLayout AxisX.
Definition toggleCollapse := SplitView.toggleCollapse AxisX.
Definition resize := SplitView.resize AxisX.
Definition _setDimensions := SplitView._setDimensions AxisX.
End Vertical.

(** [topView], [bottomView]: heights along the vertical axis. *)
Module Horizontal.
Definition _updateLayout := SplitView._updateLayout AxisY.
Definition toggleCollapse := SplitView.toggleCollapse AxisY.
Definition resize := SplitView.resize AxisY.
Definition _setDimensions := SplitView._setDimensions AxisY.
End Horizontal.

(** ** Witnesses *)
Definition blank : layout := Layout LUnset LUnset LUnset LUnset LUnset LUnset.
Definition ex_split (flexSecond : bool) : split :=
  Split flexSecond (if flexSecond then Num 100 else Undef) (if flexSecond then Undef else Num 100)
    50 60 (Some 307%Z) 7 true Undef Undef Undef Undef Undef blank blank blank.
(** The same view after its first layout pass. *)
Definition ex_laid (flexSecond : bool) : split :=
  match didInsertElement AxisX 3 (ex_split flexSecond) with Ok s => s | Throw _ => ex_split flexSecond end.

Lemma ex_laid_settled b : settled 307 (ex_laid b).
Proof. exists (if b then 100 else 200)%Z. destruct b; vm_compute; auto. Defined.
Lemma ex_laid_tiled b : tiled AxisX 307 (ex_laid b).
Proof. exists (if b then 100 else 200)%Z. destruct b; vm_compute; auto. Defined.

Lemma updateLayout_correct_witness :
  exists s', didInsertElement AxisX 3 (ex_split false) = Ok s' /\ first s' = Num 200 /\
    settled 307 s' /\ tiled AxisX 307 s' /\ config s' = config (ex_split false).
Proof. apply (updateLayout_correct AxisX 3 307 200 (ex_split false)); [discriminate|reflexivity|reflexivity|lia]. Defined.

Lemma drag_ends_at_witness :
  exists s', drag AxisX 3 ([400; 20]%Z ++ [15%Z]) (startResize 100 (ex_laid true)) = Ok s' /\
    first s' = Num 50 /\ settled 307 s' /\ tiled AxisX 307 s'.
Proof.
  apply (drag_ends_at AxisX 3 307 (ex_laid true) 100 100 [400; 20]%Z 15); [discriminate|reflexivity| | |reflexivity|lia].
  - exact (ex_laid_settled true).
  - exact (ex_laid_tiled true).
Defined.

Lemma toggle_roundtrip_witness :
  exists s1 s2, toggleCollapse AxisX 3 (ex_laid true) = Ok s1 /\ toggleCollapse AxisX 3 s1 = Ok s2 /\
    first s1 = Num 50 /\ first s2 = first (ex_laid true) /\ second s2 = second (ex_laid true).
Proof.
  apply (toggle_roundtrip AxisX 3 307 (ex_laid true) 100); try reflexivity; try discriminate.
  - exact (ex_laid_settled true).
  - exact (ex_laid_tiled true).
Defined.

Lemma divider_drags_witness :
  exists s',
    (do! d1 <- Divider.moves AxisX 3 [5; 6]%Z (Divider.D (Some "idle") (ex_laid true)) ;
     do! d2 <- Divider.divider_call AxisX 3 "mouseDown" 100 d1 ;
     do! d3 <- Divider.moves AxisX 3 ([400]%Z ++ [130]%Z) d2 ;
     do! d4 <- Divider.divider_call AxisX 3 "mouseUp" 130 d3 ;
     Divider.moves AxisX 3 [1]%Z d4) = Ok (Divider.D (Some "idle") s') /\
    first s' = Num 130 /\ tiled AxisX 307 s'.
Proof.
  apply (Divider.divider_drags AxisX 3 307 (ex_laid true) 100 100 [400]%Z 130); try reflexivity; try discriminate.
  - exact (ex_laid_settled true).
  - exact (ex_laid_tiled true).
Defined.
