(* ===== verification/Layout.v ===== *)
(** * Layouts and layout managers ([mixins/layout_support.js], [layout_manager.js],
    [layout_managers/vertical_stack_layout_manager.js])

    Every view has a layout, a hash of properties that is written to its element as
    CSS.  A view with a layout manager positions its children: changing the layout of
    a view notifies its parent, whose manager recomputes the positions, which changes
    the layouts of the children and of the parent itself, whose parent is notified in
    turn.  A flag per view stops the notifications that a manager causes itself.

    [Ember.assert] is left out: it is removed from production builds. *)

From S2P Require Import Prelude.
From stdpp Require Import gmap.
Open Scope string_scope.
Open Scope list_scope.
Open Scope flame_scope.

(** ** Numbers in strings *)
Definition is_digit (c : ascii) : bool := bool_decide (48 <= nat_of_ascii c <= 57).

Fixpoint digits (acc : Z) (s : string) : Z :=
  match s with
  | String c s' => if is_digit c then digits (10 * acc + Z.of_nat (nat_of_ascii c - 48)) s' else acc
  | EmptyString => acc
  end.

Definition unsigned (s : string) : option Z :=
  match s with
  | String c _ => if is_digit c then Some (digits 0 s) else None
  | EmptyString => None
  end.

(** [parseInt(s, 10)]; [None] is [NaN].  Leading white space is a space here. *)
Fixpoint parseInt (s : string) : option Z :=
  match s with
  | String " " s' => parseInt s'
  | String "-" s' => Z.opp <$> unsigned s'
  | String "+" s' => unsigned s'
  | _ => unsigned s
  end.

(** [parseInt(s, 10).toString() === s] *)
Definition is_integer_string (s : string) : bool :=
  match parseInt s with
  | Some z => bool_decide (pretty z = s)
  | None => bool_decide (s = "NaN")
  end.

(** ** Data *)

(** The value of a layout property: a number of pixels or a string ("50%", a number,
    or the path of a property that holds the value). *)
Inductive lval := LNum (z : Z) | LStr (s : string) | LNaN.
#[export] Instance lval_eq_dec : EqDecision lval.
Proof. solve_decision. Defined.

Record layout := Layout {
  props : gmap string lval;      (* left, right, top, bottom, width, height, maxHeight *)
  centerX : option Z;
  centerY : option Z;
  topMargin : option Z;
  topPadding : option Z;
  bottomPadding : option Z;
  overflow : option string;
  _bindingsResolved : bool
}.

(** A CSS value: pixels, in halves since centring divides by two, or text. *)
Inductive css_value := CPx (halves : Z) | CText (s : string).

(** The settings of a [VerticalStackLayoutManager]. *)
Record manager := Manager { m_topMargin : Z; m_bottomMargin : Z; m_spacing : Z }.

Record view := View {
  v_layout : layout;
  parentView : option nat;
  childViews : list nat;
  layoutManager : option manager;
  _layoutChangeInProgress : bool;
  isVisible : option bool;       (* [null] at first *)
  ignoreLayoutManager : bool;
  useAbsolutePosition : bool;
  element : option (gmap string css_value);  (* the style of the element, once there is one *)
  _layoutObservers : list string
}.

Abbreviation state := (gmap nat view).

Definition set_props m (l : layout) : layout := Layout m (centerX l) (centerY l) (topMargin l) (topPadding l) (bottomPadding l) (overflow l) (_bindingsResolved l).
Definition set_layout l (v : view) : view := View l (parentView v) (childViews v) (layoutManager v) (_layoutChangeInProgress v) (isVisible v) (ignoreLayoutManager v) (useAbsolutePosition v) (element v) (_layoutObservers v).
Definition set_progress b (v : view) : view := View (v_layout v) (parentView v) (childViews v) (layoutManager v) b (isVisible v) (ignoreLayoutManager v) (useAbsolutePosition v) (element v) (_layoutObservers v).
Definition set_element e (v : view) : view := View (v_layout v) (parentView v) (childViews v) (layoutManager v) (_layoutChangeInProgress v) (isVisible v) (ignoreLayoutManager v) (useAbsolutePosition v) e (_layoutObservers v).
Definition set_observers l (v : view) : view := View (v_layout v) (parentView v) (childViews v) (layoutManager v) (_layoutChangeInProgress v) (isVisible v) (ignoreLayoutManager v) (useAbsolutePosition v) (element v) l.

(** ** Defaults *)
Definition _initLayoutSupport (defaultWidth defaultHeight : option lval) (l : layout) : layout :=
  let p := props l in
  let p := match p !! "width", p !! "right", defaultWidth with
           | None, None, Some w => <["width" := w]> p
           | _, _, _ => p
           end in
  let p := match p !! "height", p !! "top", p !! "bottom", defaultHeight with
           | None, None, _, Some h | None, _, None, Some h => <["height" := h]> p
           | _, _, _, _ => p
           end in
  set_props p l.

(** ** Bindings in layouts *)
Definition _layoutProperties : list string := ["left"; "right"; "top"; "bottom"; "width"; "height"; "maxHeight"].

Definition is_path (v : lval) : bool :=
  match v with
  | LStr s => negb (bool_decide (s = "")) && match parseInt s with None => true | Some _ => false end
  | _ => false
  end.

Section layout.
Context (get : nat -> string -> option lval).   (* [this.get(path)] on a view *)

Definition set_or_remove (p : string) (v : option lval) (m : gmap string lval) : gmap string lval :=
  match v with Some v => <[p := v]> m | None => delete p m end.

Definition _resolveLayoutBindings (o : nat) (v : view) : view :=
  let l := v_layout v in
  if _bindingsResolved l then v
  else
    let '(m, obs) := foldl (fun '(m, obs) prop =>
        match m !! prop with
        | Some (LStr path) =>
            if is_path (LStr path) then (set_or_remove prop (get o path) m, obs ++ [path]) else (m, obs)
        | _ => (m, obs)
        end) (props l, []) _layoutProperties in
    set_observers obs
      (set_layout (Layout m (centerX l) (centerY l) (topMargin l) (topPadding l) (bottomPadding l) (overflow l) true) v).

(** ** CSS *)

(** A number, or a string of just a number, is given the unit of pixels. *)
Definition css_of (v : lval) : css_value :=
  match v with
  | LNum z => CPx (2 * z)
  | LNaN => CText "NaNpx"
  | LStr s => if is_integer_string s then CText (s +:+ "px") else CText s
  end.

(** [(-((size || 0) / 2) + center) + 'px'] *)
Definition centred (size : option lval) (center : Z) : css_value :=
  match size with
  | None | Some LNaN | Some (LStr "") => CPx (2 * center)
  | Some (LNum z) => CPx (2 * center - z)
  | Some (LStr s) =>
      match parseInt s with
      | Some z => if bool_decide (pretty z = s) then CPx (2 * center - z) else CText "NaNpx"
      | None => CText "NaNpx"
      end
  end.

Definition put (p : string) (v : option css_value) (m : gmap string css_value) : gmap string css_value :=
  match v with Some v => <[p := v]> m | None => m end.

Definition _translateLayout (l : layout) : gmap string css_value :=
  let p := props l in
  let css : gmap string css_value := ∅ in
  let css := match p !! "maxHeight", overflow l with
             | Some _, None => <["overflow" := CText "auto"]> css
             | _, _ => css
             end in
  let css := match overflow l with
             | Some "" | None => css
             | Some o => <["overflow" := CText o]> css
             end in
  let css := put "width" (css_of <$> p !! "width") css in
  let css := match centerX l with
             | None => put "right" (css_of <$> p !! "right") (put "left" (css_of <$> p !! "left") css)
             | Some c => <["margin-left" := centred (p !! "width") c]> (<["left" := CText "50%"]> css)
             end in
  let css := put "height" (css_of <$> p !! "height") css in
  match centerY l with
  | None => put "bottom" (css_of <$> p !! "bottom") (put "top" (css_of <$> p !! "top") css)
  | Some c => <["margin-top" := centred (p !! "height") c]> (<["top" := CText "50%"]> css)
  end.

(** ** Changing a layout *)

Definition write_css (o : nat) (s : state) : state :=
  alter (fun v =>
    if useAbsolutePosition v then
      match element v with
      | Some style => set_element (Some (_translateLayout (v_layout v) ∪ style)) v
      | None => v
      end
    else v) o s.

Definition prop_of (s : state) (o : nat) (p : string) : option lval := s !! o ≫= fun v => props (v_layout v) !! p.
Definition set_prop (o : nat) (p : string) (v : lval) (s : state) : state :=
  alter (fun vw => set_layout (set_props (<[p := v]> (props (v_layout vw))) (v_layout vw)) vw) o s.

(** [oldValue !== newValue]; [NaN] differs from itself. *)
Definition differs (old : option lval) (new : lval) : bool :=
  match new with LNaN => true | _ => negb (bool_decide (old = Some new)) end.

(** A setter of one layout property, [None] when the fuel runs out. *)
Definition adjuster : Type := nat -> string -> lval -> state -> option state.

(** *** The vertical stack *)

Definition affected (s : state) (o : nat) : bool :=
  match s !! o with
  | Some v => negb (ignoreLayoutManager v) && match isVisible v with Some false => false | _ => true end
  | None => false
  end.

Definition getAffectedChildViews (s : state) (o : nat) : list nat :=
  filter (fun c => affected s c = true) (match s !! o with Some v => childViews v | None => [] end).

Definition num_add (a : option Z) (b : Z) : option Z := (fun x => x + b)%Z <$> a.
Definition lval_of (a : option Z) : lval := match a with Some z => LNum z | None => LNaN end.

(** The height of a child as a number; [inl] when it has none. *)
Definition height_of (h : option lval) : unit + option Z :=
  match h with
  | None => inl tt
  | Some (LNum z) => inr (Some z)
  | Some (LStr s) => inr (parseInt s)
  | Some LNaN => inr None
  end.

(** The loop over the children: the next position, whether a child is fluid. *)
Fixpoint stack_children (adjust : adjuster) (m : manager) (first : bool) (cs : list nat)
    (top : option Z) (fluid : bool) (s : state) : option (option Z * bool * state) :=
  match cs with
  | [] => Some (top, fluid, s)
  | c :: cs' =>
      let top := if first then top else num_add top (m_spacing m) in
      let s1 := alter (_resolveLayoutBindings c) c s in
      match s1 !! c with
      | None => None
      | Some v =>
          let l := v_layout v in
          let top := num_add top (default 0%Z (topMargin l)) in
          s2 ← adjust c "top" (lval_of top) s1;
          let top := num_add top (default 0%Z (topPadding l) + default 0%Z (bottomPadding l)) in
          match height_of (prop_of s2 c "height") with
          | inl _ => stack_children adjust m false cs' top true s2
          | inr h => stack_children adjust m false cs' (a ← top; b ← h; Some (a + b)%Z) fluid s2
          end
      end
  end.

(** [top > maxHeight]; a string that is not a number compares as [NaN]. *)
Definition max_height (h : lval) : option Z :=
  match h with LNum z => Some z | LStr s => if is_integer_string s then parseInt s else None | LNaN => None end.

Definition setupLayout (adjust : adjuster) (m : manager) (o : nat) (s : state) : option state :=
  let maxHeight := prop_of s o "maxHeight" in
  r ← stack_children adjust m true (getAffectedChildViews s o) (Some (m_topMargin m)) false s;
  let '(top, fluid, s1) := (r : option Z * bool * state) in
  let top := if fluid then top else num_add top (m_bottomMargin m) in
  let height := match maxHeight, top with
                | Some h, Some t => match max_height h with
                                    | Some max => if (max <? t)%Z then h else LNum t
                                    | None => LNum t
                                    end
                | _, _ => lval_of top
                end in
  if negb fluid || bool_decide (maxHeight <> None) then adjust o "height" height s1 else Some s1.

Definition consultLayoutManager (adjust : adjuster) (o : nat) (s : state) : option state :=
  match s !! o with
  | None => Some s
  | Some v =>
      match layoutManager v with
      | None => Some s
      | Some m =>
          if _layoutChangeInProgress v then Some s
          else
            s' ← setupLayout adjust m o (alter (set_progress true) o s);
            Some (alter (set_progress false) o s')
      end
  end.

(** [updateLayout], and [layoutDidChangeFor] of the parent. *)
Definition updateLayout (adjust : adjuster) (o : nat) (s : state) : option state :=
  let s1 := write_css o s in
  match s1 !! o ≫= parentView with
  | Some p => consultLayoutManager adjust p s1
  | None => Some s1
  end.

Fixpoint adjustLayout (fuel : nat) (o : nat) (p : string) (v : lval) (s : state) : option state :=
  match fuel with
  | 0 => None
  | S n =>
      if differs (prop_of s o p) v then
        s1 ← updateLayout (adjustLayout n) o (set_prop o p v s);
        if bool_decide (p = "maxHeight") then consultLayoutManager (adjustLayout n) o s1 else Some s1
      else Some s
  end.

Definition no_value_msg : string := "Give either a new value or an increment!".

(** The public form, with a value or an increment (a string is concatenated). *)
Definition adjusted_value (old : option lval) (value increment : option lval) : outcome lval :=
  match value, increment with
  | Some v, _ => Ok v
  | None, Some inc =>
      Ok match old, inc with
         | Some (LNum a), LNum b => LNum (a + b)
         | Some (LStr a), LStr b => LStr (a +:+ b)
         | Some (LStr a), LNum b => LStr (a +:+ pretty b)
         | Some (LNum a), LStr b => LStr (pretty a +:+ b)
         | _, _ => LNaN
         end
  | None, None => Throw no_value_msg
  end.

Definition adjust (fuel : nat) (o : nat) (p : string) (value increment : option lval) (s : state) : outcome (option state) :=
  do! v <- adjusted_value (prop_of s o p) value increment ; Ok (adjustLayout fuel o p v s).

(** ** Specification of the vertical stack *)

Definition layout_of (s : state) (c : nat) : option layout := v_layout <$> s !! c.
Definition margin_of (f : layout -> option Z) (s : state) (c : nat) : Z := default 0%Z (layout_of s c ≫= f).
Definition height_num (s : state) (c : nat) : Z :=
  match prop_of s c "height" with Some (LNum h) => h | _ => 0 end.

(** The positions of the children one below the other and the end of the last one. *)
Fixpoint stack (m : manager) (s : state) (first : bool) (cs : list nat) (top : Z) : list (nat * Z) * Z :=
  match cs with
  | [] => ([], top)
  | c :: cs' =>
      let t := ((if first then top else top + m_spacing m) + margin_of topMargin s c)%Z in
      let r := stack m s false cs'
                 (t + (margin_of topPadding s c + margin_of bottomPadding s c) + height_num s c)%Z in
      ((c, t) :: r.1, r.2)
  end.

Definition positions (m : manager) (s : state) (o : nat) : list (nat * Z) * Z :=
  stack m s true (getAffectedChildViews s o) (m_topMargin m).

(** The children of [o] are where the manager wants them, and so is the lower edge. *)
Definition stacked (m : manager) (s : state) (o : nat) : Prop :=
  Forall (fun ct => prop_of s ct.1 "top" = Some (LNum ct.2)) (positions m s o).1 /\
  prop_of s o "height" = Some (LNum ((positions m s o).2 + m_bottomMargin m)).

Definition managed (s : state) (o : nat) (m : manager) : Prop := s !! o ≫= layoutManager = Some m.

(** The tree of views is consistent, the children of a managed view have a numeric
    height and no unresolved bindings, and a managed view has no [maxHeight]. *)
Record well_formed (s : state) : Prop := {
  wf_children o v : s !! o = Some v -> NoDup (childViews v) /\
    forall c, c ∈ childViews v -> s !! c ≫= parentView = Some o;
  wf_managed o m : managed s o m -> prop_of s o "maxHeight" = None /\
    forall c, c ∈ getAffectedChildViews s o ->
      (exists h, prop_of s c "height" = Some (LNum h)) /\ _bindingsResolved <$> layout_of s c = Some true
}.

(** A view and its ancestors, none of them twice. *)
Inductive chain (s : state) : nat -> list nat -> Prop :=
| chain_root o : s !! o ≫= parentView = None -> chain s o [o]
| chain_up o p l : s !! o ≫= parentView = Some p -> o ∉ l -> chain s p l -> chain s o (o :: l).

Definition flag (s : state) (o : nat) : bool := match s !! o with Some v => _layoutChangeInProgress v | None => false end.

(** What managers leave alone: all of a view but its [top], its [height], its
    style and its flag. *)
Definition erase (v : view) : view :=
  set_element None (set_progress false (set_layout
    (set_props (delete "top" (delete "height" (props (v_layout v)))) (v_layout v)) v)).
Definition frame (s s' : state) : Prop := erase <$> s' = erase <$> s.

(** ** Lemmas *)

Lemma frame_refl s : frame s s.
Proof. done. Qed.
Lemma frame_trans s1 s2 s3 : frame s1 s2 -> frame s2 s3 -> frame s1 s3.
Proof. unfold frame. congruence. Qed.

Lemma frame_alter f o s : (forall v, erase (f v) = erase v) -> frame s (alter f o s).
Proof.
  intros Hf. unfold frame. apply map_eq. intros i. rewrite !lookup_fmap.
  destruct (decide (o = i)) as [->|Hne]; [|by rewrite lookup_alter_ne].
  rewrite lookup_alter_eq. destruct (s !! i); cbn; [by rewrite Hf|done].
Qed.

Lemma frame_lookup s s' o : frame s s' -> erase <$> s' !! o = erase <$> s !! o.
Proof. unfold frame. intros H. by rewrite <- !lookup_fmap, H. Qed.

(** A projection that [erase] keeps is the same on both sides of a frame. *)
Lemma frame_proj {B} (f : view -> option B) s s' o :
  (forall v, f (erase v) = f v) -> frame s s' -> s' !! o ≫= f = s !! o ≫= f.
Proof.
  intros Hf H. pose proof (frame_lookup s s' o H) as Ho.
  destruct (s' !! o) as [v'|], (s !! o) as [v|]; cbn in *; try done.
  apply (inj Some) in Ho. by rewrite <- (Hf v'), Ho, Hf.
Qed.

Lemma frame_parent s s' o : frame s s' -> s' !! o ≫= parentView = s !! o ≫= parentView.
Proof. by apply frame_proj. Qed.

Lemma frame_managed s s' o m : frame s s' -> managed s' o m <-> managed s o m.
Proof. intros H. unfold managed. by rewrite (frame_proj layoutManager s s' o). Qed.

Lemma frame_affected s s' o : frame s s' -> getAffectedChildViews s' o = getAffectedChildViews s o.
Proof.
  intros H. unfold getAffectedChildViews.
  assert (match s' !! o with Some v => childViews v | None => [] end =
          match s !! o with Some v => childViews v | None => [] end) as ->.
  { pose proof (frame_lookup s s' o H) as Ho. destruct (s' !! o), (s !! o); cbn in *; try done.
    apply (inj Some) in Ho. exact (f_equal childViews Ho). }
  apply list_filter_iff. intros c. unfold affected.
  pose proof (frame_lookup s s' c H) as Hc. destruct (s' !! c), (s !! c); cbn in *; try done.
  apply (inj Some) in Hc. pose proof (f_equal isVisible Hc) as E1. pose proof (f_equal ignoreLayoutManager Hc) as E2.
  cbn in E1, E2. by rewrite E1, E2.
Qed.

Lemma frame_prop s s' o p : frame s s' -> p <> "top" -> p <> "height" -> prop_of s' o p = prop_of s o p.
Proof.
  intros H Ht Hh. unfold prop_of. apply (frame_proj (fun v => props (v_layout v) !! p)); [|done].
  intros v. cbn. by rewrite !lookup_delete_ne.
Qed.

Lemma frame_margin f s s' c : (forall v, f (v_layout (erase v)) = f (v_layout v)) -> frame s s' -> margin_of f s' c = margin_of f s c.
Proof.
  intros Hf H. unfold margin_of, layout_of. pose proof (frame_proj (fun v => f (v_layout v)) s s' c Hf H) as Hc.
  destruct (s' !! c), (s !! c); cbn in *; first [done|by rewrite Hc|by rewrite <- Hc].
Qed.

Lemma frame_resolved s s' c : frame s s' -> _bindingsResolved <$> layout_of s' c = _bindingsResolved <$> layout_of s c.
Proof.
  intros H. pose proof (frame_proj (fun v => Some (_bindingsResolved (v_layout v))) s s' c (fun _ => eq_refl) H) as Hc.
  unfold layout_of. by destruct (s' !! c), (s !! c).
Qed.

Lemma frame_chain s s' o l : frame s s' -> chain s o l -> chain s' o l.
Proof.
  intros H. induction 1 as [o Hp|o p l Hp Hl Hc IH].
  - apply chain_root. by rewrite (frame_parent s s').
  - eapply chain_up; [by rewrite (frame_parent s s')|done|done].
Qed.

(** The stack depends on the children's margins and heights only. *)
Lemma stack_ext m s s' cs : frame s s' -> (forall c, c ∈ cs -> height_num s' c = height_num s c) ->
  forall first top, stack m s' first cs top = stack m s first cs top.
Proof.
  intros Hf. induction cs as [|c cs IH]; intros Hh first top; [done|]. cbn [stack].
  rewrite (frame_margin topMargin s s'), (frame_margin topPadding s s'), (frame_margin bottomPadding s s') by done.
  rewrite Hh by (by left). rewrite IH by (intros; apply Hh; by right). done.
Qed.

Lemma stack_fst m s cs : forall first top, (stack m s first cs top).1.*1 = cs.
Proof. induction cs as [|c cs IH]; intros; cbn; [done|]. by rewrite IH. Qed.

Lemma well_formed_frame s s' : frame s s' -> well_formed s ->
  (forall c, (exists h, prop_of s c "height" = Some (LNum h)) -> exists h, prop_of s' c "height" = Some (LNum h)) ->
  well_formed s'.
Proof.
  intros Hf [Hc Hm] Hh. split.
  - intros o v Ho. pose proof (frame_lookup s s' o Hf) as Hl. rewrite Ho in Hl.
    destruct (s !! o) as [v0|] eqn:E; [|done]. apply (inj Some) in Hl.
    pose proof (f_equal childViews Hl) as E3. cbn in E3. rewrite E3. destruct (Hc o v0 E) as [Hnd Hp]. split; [done|]. intros c Hin.
    rewrite (frame_parent s s') by done. auto.
  - intros o m Hmg. apply (frame_managed s s') in Hmg; [|done]. destruct (Hm o m Hmg) as [Hx Hcs].
    split; [by rewrite (frame_prop s s')|]. intros c. rewrite (frame_affected s s') by done. intros Hin.
    destruct (Hcs c Hin) as [Hc1 Hc2]. split; [auto|]. by rewrite (frame_resolved s s').
Qed.

(** *** Primitive updates *)

Lemma flag_alter f o s x : (forall v, _layoutChangeInProgress (f v) = _layoutChangeInProgress v) ->
  flag (alter f o s) x = flag s x.
Proof.
  intros Hf. unfold flag. destruct (decide (o = x)) as [->|]; [|by rewrite lookup_alter_ne].
  rewrite lookup_alter_eq. destruct (s !! x); cbn; auto.
Qed.

Lemma prop_alter f o s x p : (forall v, props (v_layout (f v)) = props (v_layout v)) ->
  prop_of (alter f o s) x p = prop_of s x p.
Proof.
  intros Hf. unfold prop_of. destruct (decide (o = x)) as [->|]; [|by rewrite lookup_alter_ne].
  rewrite lookup_alter_eq. destruct (s !! x); cbn; [by rewrite Hf|done].
Qed.

Lemma write_css_facts o s :
  frame s (write_css o s) /\ (forall x, flag (write_css o s) x = flag s x) /\
  (forall x p, prop_of (write_css o s) x p = prop_of s x p).
Proof.
  unfold write_css. split_and!; [apply frame_alter|intros; apply flag_alter|intros; apply prop_alter];
    intros v; by destruct (useAbsolutePosition v), (element v).
Qed.

Lemma set_prop_facts o p v s : p = "top" \/ p = "height" ->
  frame s (set_prop o p v s) /\ (forall x, flag (set_prop o p v s) x = flag s x) /\
  (forall x q, prop_of (set_prop o p v s) x q =
     if bool_decide (x = o /\ q = p /\ is_Some (s !! o)) then Some v else prop_of s x q).
Proof.
  intros Hp. unfold set_prop. split_and!.
  - apply frame_alter. intros w. unfold erase, set_layout, set_props, set_progress, set_element. cbn. f_equal. f_equal.
    destruct Hp as [->| ->]; [rewrite delete_insert_ne by done|]; by rewrite delete_insert_eq.
  - intros x. by apply flag_alter.
  - intros x q. unfold prop_of. destruct (decide (o = x)) as [->|Hne].
    + rewrite lookup_alter_eq. destruct (s !! x) eqn:E; cbn.
      * destruct (decide (p = q)) as [->|Hpq].
        -- rewrite lookup_insert_eq. by rewrite bool_decide_eq_true_2 by eauto.
        -- rewrite lookup_insert_ne by done. by rewrite bool_decide_eq_false_2 by naive_solver.
      * rewrite bool_decide_eq_false_2; [done|]. intros (_ & _ & [? ?]). congruence.
    + rewrite lookup_alter_ne by done. by rewrite bool_decide_eq_false_2 by naive_solver.
Qed.

Lemma progress_facts b o s :
  frame s (alter (set_progress b) o s) /\
  (forall x, flag (alter (set_progress b) o s) x = if bool_decide (x = o /\ is_Some (s !! o)) then b else flag s x) /\
  (forall x p, prop_of (alter (set_progress b) o s) x p = prop_of s x p).
Proof.
  split_and!; [by apply frame_alter| |intros; by apply prop_alter].
  intros x. unfold flag. destruct (decide (o = x)) as [->|Hne].
  - rewrite lookup_alter_eq. destruct (s !! x) eqn:E; cbn.
    + by rewrite bool_decide_eq_true_2 by eauto.
    + rewrite bool_decide_eq_false_2; [done|]. intros (_ & [? ?]). congruence.
  - rewrite lookup_alter_ne by done. by rewrite bool_decide_eq_false_2 by naive_solver.
Qed.

(** A property of [o] set and written out. *)
Definition assigned (o : nat) (p : string) (v : lval) (s : state) : state := write_css o (set_prop o p v s).

Lemma assigned_facts o p v s : p = "top" \/ p = "height" ->
  frame s (assigned o p v s) /\ (forall x, flag (assigned o p v s) x = flag s x) /\
  (forall x q, prop_of (assigned o p v s) x q =
     if bool_decide (x = o /\ q = p /\ is_Some (s !! o)) then Some v else prop_of s x q).
Proof.
  intros Hp. destruct (set_prop_facts o p v s Hp) as (F1 & G1 & P1).
  destruct (write_css_facts o (set_prop o p v s)) as (F2 & G2 & P2). unfold assigned.
  split_and!; [by eapply frame_trans|intros; by rewrite G2, G1|intros; by rewrite P2, P1].
Qed.

(** A manager at work moves a child: nothing but the child's [top] changes. *)
Definition moved (c : nat) (t : Z) (s : state) : state :=
  if differs (prop_of s c "top") (LNum t) then assigned c "top" (LNum t) s else s.

Lemma moved_facts c t s : is_Some (s !! c) ->
  frame s (moved c t s) /\ (forall x, flag (moved c t s) x = flag s x) /\
  (forall x q, prop_of (moved c t s) x q = if bool_decide (x = c /\ q = "top") then Some (LNum t) else prop_of s x q).
Proof.
  intros Hc. unfold moved. destruct (differs _ _) eqn:E.
  - destruct (assigned_facts c "top" (LNum t) s (or_introl eq_refl)) as (F & G & P).
    split_and!; [done|done|]. intros x q. rewrite P.
    by rewrite (bool_decide_ext (x = c /\ q = "top" /\ is_Some (s !! c)) (x = c /\ q = "top")) by naive_solver.
  - split_and!; [done|done|]. intros x q. case_bool_decide as Hx; [|done]. destruct Hx as [-> ->].
    unfold differs in E. apply negb_false_iff in E. by apply bool_decide_eq_true in E.
Qed.

Lemma adjust_child n p c t s : s !! c ≫= parentView = Some p -> flag s p = true ->
  adjustLayout (S n) c "top" (LNum t) s = Some (moved c t s).
Proof.
  intros Hp Hf. cbn [adjustLayout]. unfold moved. destruct (differs _ _); [|done].
  unfold updateLayout. fold (assigned c "top" (LNum t) s).
  destruct (assigned_facts c "top" (LNum t) s (or_introl eq_refl)) as (F & G & P).
  rewrite (frame_parent _ _ _ F), Hp. unfold consultLayoutManager.
  pose proof (G p) as Gp. rewrite Hf in Gp. unfold flag in Gp.
  destruct (assigned c "top" (LNum t) s !! p) as [v|]; [|discriminate]. rewrite Gp.
  by destruct (layoutManager v).
Qed.

Definition move_all (ps : list (nat * Z)) (s : state) : state := foldl (fun s ct => moved ct.1 ct.2 s) s ps.

Lemma move_all_facts ps : forall s, (forall c, c ∈ ps.*1 -> is_Some (s !! c)) -> NoDup ps.*1 ->
  frame s (move_all ps s) /\ (forall x, flag (move_all ps s) x = flag s x) /\
  (forall c t, (c, t) ∈ ps -> prop_of (move_all ps s) c "top" = Some (LNum t)) /\
  (forall x q, q <> "top" \/ x ∉ ps.*1 -> prop_of (move_all ps s) x q = prop_of s x q).
Proof.
  induction ps as [|[c t] ps IH]; intros s Hs Hnd; [split_and!; try done; intros ? ? Hin; by apply elem_of_nil in Hin|].
  cbn [move_all foldl]. cbn in Hnd. apply NoDup_cons in Hnd as [Hc Hnd].
  destruct (moved_facts c t s) as (F & G & P); [apply Hs; cbn; set_solver|].
  destruct (IH (moved c t s)) as (F2 & G2 & T2 & P2); [|done|].
  { intros c' Hc'. assert (is_Some (s !! c')) as [v Hv] by (apply Hs; cbn; set_solver).
    pose proof (frame_lookup _ _ c' F) as Hl. rewrite Hv in Hl. destruct (moved c t s !! c'); [eauto|done]. }
  split_and!.
  - by eapply frame_trans.
  - intros x. by rewrite G2, G.
  - intros c' t' [[= -> ->]|Hin]%elem_of_cons; [|by apply T2].
    rewrite P2 by (by right). rewrite P. by rewrite bool_decide_eq_true_2.
  - intros x q Hq. rewrite P2 by (cbn in Hq; set_solver). rewrite P.
    rewrite bool_decide_eq_false_2; [done|]. intros [-> ->]. destruct Hq as [?|Hq]; [done|]. apply Hq. cbn. set_solver.
Qed.

Lemma alter_same {A} (f : A -> A) (o : nat) (m : gmap nat A) x : m !! o = Some x -> f x = x -> alter f o m = m.
Proof.
  intros Hx Hf. apply map_eq. intros i. destruct (decide (o = i)) as [<-|]; [|by rewrite lookup_alter_ne].
  by rewrite lookup_alter_eq, Hx; cbn; rewrite Hf.
Qed.

(** The loop of [setupLayout]. *)
Lemma stack_children_ok n m p cs : forall first top s,
  flag s p = true -> NoDup cs ->
  (forall c, c ∈ cs -> s !! c ≫= parentView = Some p /\
     (exists h, prop_of s c "height" = Some (LNum h)) /\ _bindingsResolved <$> layout_of s c = Some true) ->
  stack_children (adjustLayout (S n)) m first cs (Some top) false s =
  Some (Some (stack m s first cs top).2, false, move_all (stack m s first cs top).1 s).
Proof.
  induction cs as [|c cs IH]; intros first top s Hf Hnd Hcs; [done|].
  apply NoDup_cons in Hnd as [Hc Hnd].
  destruct (Hcs c ltac:(set_solver)) as (Hp & [h Hh] & Hr).
  cbn [stack_children stack].
  assert (exists v, s !! c = Some v /\ _bindingsResolved (v_layout v) = true) as (v & Hv & Hvr).
  { unfold layout_of in Hr. destruct (s !! c) as [v|]; [|done]. cbn in Hr. exists v. split; [done|congruence]. }
  rewrite (alter_same _ _ _ v Hv) by (unfold _resolveLayoutBindings; by rewrite Hvr). rewrite Hv.
  set (t := ((if first then top else top + m_spacing m) + margin_of topMargin s c)%Z).
  assert (num_add (if first then Some top else num_add (Some top) (m_spacing m)) (default 0%Z (topMargin (v_layout v))) = Some t) as ->.
  { unfold t, margin_of, layout_of. rewrite Hv. by destruct first. }
  cbn [lval_of]. rewrite (adjust_child n p) by done. cbn [mbind option_bind].
  destruct (moved_facts c t s) as (F & G & P); [by eexists|]. cbn [num_add fmap option_fmap option_map].
  rewrite P, bool_decide_eq_false_2, Hh by naive_solver. cbn [height_of mbind option_bind].
  rewrite IH; [|by rewrite G|done|].
  - assert (height_num s c = h) as -> by (unfold height_num; by rewrite Hh).
    assert (margin_of topPadding s c = default 0%Z (topPadding (v_layout v)) /\
            margin_of bottomPadding s c = default 0%Z (bottomPadding (v_layout v))) as [-> ->].
    { unfold margin_of, layout_of. by rewrite Hv. }
    rewrite !(stack_ext m s (moved c t s)); [done|done|..].
    intros x _. unfold height_num. rewrite P. by rewrite bool_decide_eq_false_2 by naive_solver.
  - intros x Hx. destruct (Hcs x ltac:(set_solver)) as (Hp' & Hh' & Hr').
    rewrite (frame_parent _ _ _ F), (frame_resolved _ _ _ F), P.
    by rewrite bool_decide_eq_false_2 by naive_solver.
Qed.

Lemma affected_child s o c : well_formed s -> c ∈ getAffectedChildViews s o -> s !! c ≫= parentView = Some o.
Proof.
  intros Hwf. unfold getAffectedChildViews. intros [_ Hc]%list_elem_of_filter.
  destruct (s !! o) as [v|] eqn:E; [|by apply elem_of_nil in Hc].
  by apply (wf_children s Hwf o v E).
Qed.

Lemma affected_NoDup s o : well_formed s -> NoDup (getAffectedChildViews s o).
Proof.
  intros Hwf. apply NoDup_filter. destruct (s !! o) as [v|] eqn:E; [|constructor].
  by apply (wf_children s Hwf o v E).
Qed.

Lemma stacked_ext m s s' w : frame s s' ->
  (forall c, c ∈ getAffectedChildViews s w ->
     prop_of s' c "top" = prop_of s c "top" /\ prop_of s' c "height" = prop_of s c "height") ->
  prop_of s' w "height" = prop_of s w "height" -> stacked m s w -> stacked m s' w.
Proof.
  intros Hf Hc Hh [Ht Hw]. unfold stacked, positions. rewrite (frame_affected s s') by done.
  rewrite (stack_ext m s s') by (try done; intros c Hin; unfold height_num; by rewrite (proj2 (Hc c Hin))).
  split; [|by rewrite Hh]. fold (positions m s w). rewrite Forall_forall in Ht |- *. intros ct Hin.
  assert (Hin' : ct.1 ∈ getAffectedChildViews s w).
  { rewrite <- (stack_fst m s (getAffectedChildViews s w) true (m_topMargin m)). by apply list_elem_of_fmap_2. }
  rewrite (proj1 (Hc ct.1 Hin')). by apply Ht.
Qed.

(** A state in which the manager of [o] has done its work. *)
Record laid_out (m : manager) (o : nat) (s s' : state) : Prop := {
  lo_frame : frame s s';
  lo_tops c t : (c, t) ∈ (positions m s o).1 -> prop_of s' c "top" = Some (LNum t);
  lo_height : prop_of s' o "height" = Some (LNum ((positions m s o).2 + m_bottomMargin m));
  lo_rest x q : (q <> "top" \/ x ∉ getAffectedChildViews s o) -> (x <> o \/ q <> "height") -> prop_of s' x q = prop_of s x q
}.

Lemma laid_out_stacked m o s s' : well_formed s -> s !! o ≫= parentView <> Some o -> laid_out m o s s' ->
  stacked m s' o /\ well_formed s' /\
  forall w m', w <> o -> stacked m' s w ->
    (s !! o ≫= parentView <> Some w \/ prop_of s o "height" = prop_of s' o "height") -> stacked m' s' w.
Proof.
  intros Hwf Hself [Hf Ht Hh Hr].
  assert (Hch : forall c, c ∈ getAffectedChildViews s o -> prop_of s' c "height" = prop_of s c "height").
  { intros c Hc. apply Hr; [by left|]. left. intros ->. by apply Hself, affected_child. }
  assert (Hpos : positions m s' o = positions m s o).
  { unfold positions. rewrite (frame_affected s s') by done. apply stack_ext; [done|].
    intros c Hc. unfold height_num. by rewrite Hch. }
  split_and!.
  - split; rewrite Hpos; [|done]. apply Forall_forall. intros [c t] Hin. by apply Ht.
  - apply (well_formed_frame s); [done|done|]. intros c [h Hc].
    destruct (decide (c = o)) as [->|Hne]; [eauto|]. exists h. rewrite Hr; auto.
  - intros w m' Hw Hst Hor. apply (stacked_ext m' s); [done| | |done].
    + intros c Hc. assert (Hcp := affected_child s w c Hwf Hc). split.
      * apply Hr; [|by right]. right. intros Hco. apply affected_child in Hco; [|done]. congruence.
      * destruct (decide (c = o)) as [->|Hne]; [|by apply Hr; [left|left]].
        destruct Hor as [Hor|Hor]; congruence.
    + apply Hr; [by left|by left].
Qed.

(** The positions computed and the children moved. *)
Lemma setup_children n m o s : well_formed s -> managed s o m -> s !! o ≫= parentView <> Some o ->
  let s0 := alter (set_progress true) o s in
  let s1 := move_all (positions m s o).1 s0 in
  stack_children (adjustLayout (S n)) m true (getAffectedChildViews s0 o) (Some (m_topMargin m)) false s0 =
    Some (Some (positions m s o).2, false, s1) /\
  frame s s1 /\ (forall x, flag s1 x = bool_decide (x = o) || flag s x) /\
  (forall c t, (c, t) ∈ (positions m s o).1 -> prop_of s1 c "top" = Some (LNum t)) /\
  (forall x q, (q <> "top" \/ x ∉ getAffectedChildViews s o) -> prop_of s1 x q = prop_of s x q).
Proof.
  intros Hwf Hm Hself. cbv zeta. destruct (progress_facts true o s) as (F0 & G0 & P0).
  set (s0 := alter (set_progress true) o s) in *.
  assert (Hso : is_Some (s !! o)) by (unfold managed in Hm; destruct (s !! o); [eauto|done]).
  assert (Hpos : forall first top, stack m s0 first (getAffectedChildViews s o) top = stack m s first (getAffectedChildViews s o) top).
  { intros. apply stack_ext; [done|]. intros c _. unfold height_num. by rewrite P0. }
  assert (Hfst : (positions m s o).1.*1 = getAffectedChildViews s o) by apply stack_fst.
  rewrite (frame_affected s s0) by done. rewrite (stack_children_ok n m o).
  - rewrite Hpos. fold (positions m s o). split; [done|].
    destruct (move_all_facts (positions m s o).1 s0) as (F1 & G1 & T1 & P1).
    + rewrite Hfst. intros c Hc. apply affected_child in Hc; [|done].
      destruct (s !! c) as [v|] eqn:E; [|done]. pose proof (frame_lookup _ _ c F0) as Hl. rewrite E in Hl.
      destruct (s0 !! c); [eauto|done].
    + rewrite Hfst. by apply affected_NoDup.
    + split_and!; [by eapply frame_trans| |done|].
      * intros x. rewrite G1, G0. destruct (decide (x = o)) as [->|Hx].
        -- by rewrite !bool_decide_eq_true_2.
        -- by rewrite !bool_decide_eq_false_2 by naive_solver.
      * intros x q Hq. rewrite P1, P0; [done|]. by rewrite Hfst.
  - rewrite G0. by rewrite bool_decide_eq_true_2.
  - by apply affected_NoDup.
  - intros c Hc. destruct (wf_managed s Hwf o m Hm) as [_ Hcs]. destruct (Hcs c Hc) as [Hh Hr].
    rewrite (frame_parent s s0), (frame_resolved s s0), P0 by done. split_and!; [by apply affected_child|done|done].
Qed.

Definition all_stacked_but (x : option nat) (s : state) : Prop :=
  forall w m, Some w <> x -> managed s w m -> stacked m s w.

Lemma bool_decide_Some (x o : nat) : bool_decide (Some x = Some o) = bool_decide (x = o).
Proof. apply bool_decide_ext. split; congruence. Qed.
Lemma bool_decide_Some_None on (x : nat) : on = None -> bool_decide (Some x = on) = false.
Proof. intros ->. by apply bool_decide_eq_false_2. Qed.

(** What consulting a manager achieves from a state in which the others have done
    their work; [on] is a view whose flag is still up. *)
Definition restacks (on : option nat) (s s' : state) : Prop :=
  frame s s' /\ (forall x, flag s' x = bool_decide (Some x = on) || flag s x) /\ well_formed s' /\
  all_stacked_but None s' /\
  (forall x, s !! x ≫= layoutManager = None -> prop_of s' x "height" = prop_of s x "height").

Lemma parent_not_self s o l : chain s o l -> s !! o ≫= parentView <> Some o.
Proof.
  intros Hc Ho. inversion Hc as [? Hp|? p l' Hp Hl Hc']; subst; [congruence|].
  rewrite Ho in Hp. injection Hp as <-. apply Hl. inversion Hc'; set_solver.
Qed.

Lemma same_props_stacked s s' x : frame s s' -> (forall x p, prop_of s' x p = prop_of s x p) ->
  well_formed s -> all_stacked_but x s -> well_formed s' /\ all_stacked_but x s'.
Proof.
  intros Hf Hp Hwf Hst. split.
  - apply (well_formed_frame s); [done|done|]. intros c. by rewrite Hp.
  - intros w m Hw Hm. apply (stacked_ext m s); [done|by intros; rewrite !Hp|by rewrite Hp|].
    apply Hst; [done|]. by apply (frame_managed s s').
Qed.

Lemma restacks_reset o s s' : flag s o = false -> restacks (Some o) s s' -> restacks None s (alter (set_progress false) o s').
Proof.
  intros Hfl (F & G & W & A & H). destruct (progress_facts false o s') as (F2 & G2 & P2).
  destruct (same_props_stacked s' (alter (set_progress false) o s') None F2 P2 W A) as [W2 A2].
  split_and!; [by eapply frame_trans| |done|done|intros; rewrite P2; by apply H].
  intros x. rewrite G2, G. destruct (decide (x = o)) as [->|Hx].
  - rewrite Hfl. case_bool_decide as Hs; [done|].
    specialize (G o). rewrite bool_decide_eq_true_2 in G by done. unfold flag in G.
    destruct (s' !! o) eqn:E; [|done]. exfalso. apply Hs. eauto.
  - rewrite bool_decide_Some, (bool_decide_Some_None None), !bool_decide_eq_false_2 by naive_solver. done.
Qed.

(** The end of [setupLayout]: the height of the view, and its parent's turn. *)
Lemma setup_height n m o s s1 (l : list nat) :
  well_formed s -> managed s o m -> s !! o ≫= parentView <> Some o -> all_stacked_but (Some o) s ->
  frame s s1 -> (forall x, flag s1 x = bool_decide (x = o) || flag s x) ->
  (forall c t, (c, t) ∈ (positions m s o).1 -> prop_of s1 c "top" = Some (LNum t)) ->
  (forall x q, (q <> "top" \/ x ∉ getAffectedChildViews s o) -> prop_of s1 x q = prop_of s x q) ->
  (forall p s2, s !! o ≫= parentView = Some p -> frame s s2 -> (forall x, flag s2 x = flag s1 x) ->
     well_formed s2 -> all_stacked_but (Some p) s2 ->
     exists s3, consultLayoutManager (adjustLayout n) p s2 = Some s3 /\ restacks None s2 s3) ->
  exists s3, adjustLayout (S n) o "height" (LNum ((positions m s o).2 + m_bottomMargin m)) s1 = Some s3 /\
    restacks (Some o) s s3.
Proof.
  intros Hwf Hm Hself Hst F1 G1 T1 R1 IH. set (H := ((positions m s o).2 + m_bottomMargin m)%Z).
  cbn [adjustLayout]. destruct (differs _ _) eqn:Ed.
  - destruct (assigned_facts o "height" (LNum H) s1 (or_intror eq_refl)) as (F2 & G2 & P2).
    set (s2 := assigned o "height" (LNum H) s1) in *.
    assert (Hlo : laid_out m o s s2).
    { split; [by eapply frame_trans| | |].
      - intros c t Hin. rewrite P2, bool_decide_eq_false_2 by naive_solver. by apply T1.
      - rewrite P2, bool_decide_eq_true_2; [done|]. split_and!; [done|done|].
        unfold managed in Hm. pose proof (frame_lookup _ _ o F1) as Hl. destruct (s1 !! o); [eauto|].
        by destruct (s !! o).
      - intros x q Hq Hor. rewrite P2, bool_decide_eq_false_2 by naive_solver. by apply R1. }
    destruct (laid_out_stacked m o s s2 Hwf Hself Hlo) as (Hso & Hwf2 & Hoth).
    assert (Hst2 : all_stacked_but (s !! o ≫= parentView) s2).
    { intros w m' Hw Hm'. apply (frame_managed s s2) in Hm'; [|apply Hlo].
      destruct (decide (w = o)) as [->|Hwo]; [unfold managed in *; congruence|].
      apply Hoth; [done|apply Hst; [congruence|done]|left; congruence]. }
    unfold updateLayout. fold (assigned o "height" (LNum H) s1). fold s2.
    rewrite (frame_parent s s2) by apply Hlo.
    destruct (s !! o ≫= parentView) as [p|] eqn:Hp.
    + destruct (IH p s2 eq_refl (lo_frame _ _ _ _ Hlo) G2 Hwf2 Hst2) as (s3 & -> & F3 & G3 & W3 & A3 & H3).
      exists s3. split; [done|]. split_and!; [eapply frame_trans; [apply Hlo|done]| |done|done|].
      * intros x. by rewrite G3, G2, G1, bool_decide_Some, (bool_decide_Some_None None).
      * intros x Hx. rewrite H3 by (by rewrite (frame_proj layoutManager s s2) by (done || apply Hlo)).
        apply Hlo; [by left|]. left. intros ->. unfold managed in Hm. congruence.
    + exists s2. split; [done|]. split_and!; [apply Hlo| |done|done|].
      * intros x. by rewrite G2, G1, bool_decide_Some.
      * intros x Hx. apply Hlo; [by left|]. left. intros ->. unfold managed in Hm. congruence.
  - exists s1. split; [done|]. unfold differs in Ed. apply negb_false_iff, bool_decide_eq_true in Ed.
    assert (Hlo : laid_out m o s s1) by (split; auto).
    destruct (laid_out_stacked m o s s1 Hwf Hself Hlo) as (Hso & Hwf2 & Hoth).
    split_and!; [done| |done| |].
    + intros x. by rewrite G1, bool_decide_Some.
    + intros w m' _ Hm'. apply (frame_managed s s1) in Hm'; [|done].
      destruct (decide (w = o)) as [->|Hwo]; [unfold managed in *; congruence|].
      apply Hoth; [done|apply Hst; [congruence|done]|right]. rewrite R1; [done|by left].
    + intros x Hx. apply R1. by left.
Qed.

Lemma consult_ok l : forall o s n,
  chain s o l -> length l <= n -> well_formed s -> (forall a, a ∈ l -> flag s a = false) ->
  all_stacked_but (Some o) s ->
  exists s', consultLayoutManager (adjustLayout n) o s = Some s' /\ restacks None s s'.
Proof.
  induction l as [|o0 l IH]; intros o s n Hch Hn Hwf Hfl Hst; [inversion Hch|].
  assert (o0 = o) as -> by (inversion Hch; done).
  assert (Hnone : s !! o ≫= layoutManager = None -> restacks None s s).
  { intros Hno. split_and!; try done. intros w m _ Hm. apply Hst; [|done].
    intros [= ->]. unfold managed in Hm. congruence. }
  unfold consultLayoutManager. destruct (s !! o) as [v|] eqn:Hv; [|exists s; auto].
  destruct (layoutManager v) as [m|] eqn:Hlm; [|exists s; auto].
  assert (Hm : managed s o m) by (unfold managed; by rewrite Hv).
  assert (Hfo : flag s o = false) by (apply Hfl; set_solver).
  pose proof Hfo as Hvf. unfold flag in Hvf. rewrite Hv in Hvf. rewrite Hvf.
  destruct n as [|n]; [cbn in Hn; lia|].
  pose proof (parent_not_self s o _ Hch) as Hself.
  destruct (setup_children n m o s Hwf Hm Hself) as (Hsc & F1 & G1 & T1 & R1).
  destruct (wf_managed s Hwf o m Hm) as [Hmax _].
  destruct (progress_facts true o s) as (F0 & G0 & P0).
  unfold setupLayout. rewrite P0, Hmax, Hsc.
  cbn [mbind option_bind negb orb num_add fmap option_fmap option_map lval_of].
  destruct (setup_height n m o s _ l Hwf Hm Hself Hst F1 G1 T1 R1) as (s3 & -> & Hr).
  - intros p s2 Hp F2 G2 Hwf2 Hst2.
    inversion Hch as [? Hp'|? p' l' Hp' Hol Hch']; subst; [congruence|].
    rewrite Hp in Hp'. injection Hp' as <-.
    apply IH; [by eapply frame_chain|cbn in Hn; lia|done| |done].
    intros a Ha. rewrite G2, G1, bool_decide_eq_false_2 by (by intros ->). apply Hfl. by right.
  - eexists. split; [done|]. by apply restacks_reset.
Qed.

(** ** Properties *)

(** Consulting the manager of a view, all other managed views being stacked,
    ends with every managed view stacked: the children of each one stand one below
    the other at the positions its margins and spacing ask for, and its height
    reaches to the last one.  The changes travel up the ancestors as far as heights
    change; fuel for as many views is enough, and nothing but tops, heights and
    styles is touched. *)
Theorem consult_stacks l o s n :
  chain s o l -> length l <= n -> well_formed s -> (forall a, a ∈ l -> flag s a = false) ->
  all_stacked_but (Some o) s ->
  exists s', consultLayoutManager (adjustLayout n) o s = Some s' /\ frame s s' /\
    (forall w m, managed s w m -> stacked m s' w).
Proof.
  intros Hc Hn Hwf Hfl Hst. destruct (consult_ok l o s n Hc Hn Hwf Hfl Hst) as (s' & Hs & F & _ & _ & A & _).
  exists s'. split_and!; [done|done|]. intros w m Hm. apply A; [done|]. by apply (frame_managed s s').
Qed.

(** The height of a view without a manager changes: its ancestors are stacked again, and
    no other view without a manager gets another height. *)
Lemma height_change_ok l c p h s n :
  s !! c ≫= parentView = Some p -> chain s p l -> length l <= n -> well_formed s ->
  (forall a, a ∈ l -> flag s a = false) -> all_stacked_but None s -> s !! c ≫= layoutManager = None ->
  exists s', adjustLayout (S n) c "height" (LNum h) s = Some s' /\ frame s s' /\
    (forall x, flag s' x = flag s x) /\ well_formed s' /\ all_stacked_but None s' /\
    prop_of s' c "height" = Some (LNum h) /\
    (forall x, x <> c -> s !! x ≫= layoutManager = None -> prop_of s' x "height" = prop_of s x "height").
Proof.
  intros Hp Hc Hn Hwf Hfl Hst Hlm. cbn [adjustLayout]. destruct (differs _ _) eqn:Ed.
  2: { exists s. unfold differs in Ed. apply negb_false_iff, bool_decide_eq_true in Ed. by split_and!. }
  destruct (assigned_facts c "height" (LNum h) s (or_intror eq_refl)) as (F & G & P).
  unfold updateLayout. fold (assigned c "height" (LNum h) s). set (s1 := assigned c "height" (LNum h) s) in *.
  rewrite (frame_parent s s1), Hp by done.
  assert (Hwf1 : well_formed s1).
  { apply (well_formed_frame s); [done|done|]. intros x Hx. rewrite P. case_bool_decide; eauto. }
  assert (Hst1 : all_stacked_but (Some p) s1).
  { intros w m Hw Hm. apply (frame_managed s s1) in Hm; [|done]. apply (stacked_ext m s); [done| | |by apply Hst].
    - intros x Hx. rewrite !P, !bool_decide_eq_false_2; [done|..].
      + intros (-> & _). apply affected_child in Hx; [|done]. congruence.
      + by intros (_ & ? & _).
    - rewrite P, bool_decide_eq_false_2; [done|]. intros (-> & _). unfold managed in Hm. congruence. }
  destruct (consult_ok l p s1 n) as (s' & -> & F' & G' & W' & A & H); [by eapply frame_chain|done|done| |done|].
  { intros a Ha. rewrite G. auto. }
  assert (forall x, s !! x ≫= layoutManager = None -> prop_of s' x "height" = prop_of s1 x "height") as Hkeep.
  { intros x Hx. apply H. by rewrite (frame_proj layoutManager s s1). }
  exists s'. split; [done|]. split_and!; [by eapply frame_trans| |done|done| |].
  - intros x. by rewrite G', G.
  - rewrite (Hkeep c Hlm), P, bool_decide_eq_true_2; [done|]. split_and!; [done|done|]. destruct (s !! c); [eauto|done].
  - intros x Hx Hxl. rewrite (Hkeep x Hxl), P, bool_decide_eq_false_2 by naive_solver. done.
Qed.

(** C10. When the height of a view without a manager of its own is adjusted, it gets
    that height and every managed view is stacked again. *)
Theorem height_change_restacks l c p h s n :
  s !! c ≫= parentView = Some p -> chain s p l -> length l <= n -> well_formed s ->
  (forall a, a ∈ l -> flag s a = false) -> all_stacked_but None s -> s !! c ≫= layoutManager = None ->
  exists s', adjustLayout (S n) c "height" (LNum h) s = Some s' /\ frame s s' /\
    prop_of s' c "height" = Some (LNum h) /\ (forall w m, managed s w m -> stacked m s' w).
Proof.
  intros Hp Hc Hn Hwf Hfl Hst Hlm.
  destruct (height_change_ok l c p h s n Hp Hc Hn Hwf Hfl Hst Hlm) as (s' & -> & F & _ & _ & A & Hh & _).
  exists s'. split_and!; [done..|]. intros w m Hm. apply A; [done|]. by apply (frame_managed s s').
Qed.
End layout.

(** ** Witnesses *)
Module Example.
Definition lay (top height : Z) : layout :=
  Layout (list_to_map [("top", LNum top); ("height", LNum height)]) None None None None None None true.
Definition mgr : manager := Manager 5 6 2.
Definition vw l p cs m : view := View l p cs m false None false true (Some ∅) [].

(** A stack of two views inside a stack. *)
Definition entries : list (nat * view) :=
  [(1, vw (lay 0 54) None [2] (Some mgr)); (2, vw (lay 5 43) (Some 1) [3; 4] (Some mgr));
   (3, vw (lay 5 10) (Some 2) [] None); (4, vw (lay 17 20) (Some 2) [] None)].
Definition tree : gmap nat view := list_to_map entries.


Ltac cases H := repeat (apply elem_of_cons in H as [H|H]; [injection H as -> ->|]); [..|by apply elem_of_nil in H].

Lemma tree_lookup o v : tree !! o = Some v -> (o, v) ∈ entries.
Proof. apply elem_of_list_to_map_2. Defined.

Lemma tree_managed o m : managed tree o m -> (o = 1 \/ o = 2) /\ m = mgr.
Proof.
  unfold managed. destruct (tree !! o) as [v|] eqn:E; [|discriminate]. apply tree_lookup in E. intros H.
  cases E; cbn in H; try discriminate; injection H as <-; auto.
Defined.

Lemma tree_wf : well_formed tree.
Proof.
  split.
  - intros o v Hv%tree_lookup. cases Hv; (split; [repeat constructor; set_solver|]); intros c Hc; cbn in Hc;
      repeat (apply elem_of_cons in Hc as [->|Hc]; [reflexivity|]); by apply elem_of_nil in Hc.
  - intros o m Hm. apply tree_managed in Hm as [[-> | ->] _]; (split; [reflexivity|]); intros c Hc;
      vm_compute in Hc; repeat (apply elem_of_cons in Hc as [->|Hc]; [split; [by eexists|reflexivity]|]);
      by apply elem_of_nil in Hc.
Defined.

Lemma tree_stacked : all_stacked_but None tree.
Proof.
  intros w m _ Hm. apply tree_managed in Hm as [[-> | ->] ->]; (split; [|reflexivity]);
    repeat constructor.
Defined.

Lemma tree_chain : chain tree 2 [2; 1].
Proof. eapply chain_up; [reflexivity|set_solver|]. by apply chain_root. Defined.

Lemma height_change_restacks_witness :
  exists s', adjustLayout (fun _ _ => None) 3 4 "height" (LNum 25) tree = Some s' /\ frame tree s' /\
    prop_of s' 4 "height" = Some (LNum 25) /\ (forall w m, managed tree w m -> stacked m s' w).
Proof.
  apply (height_change_restacks (fun _ _ => None) [2; 1] 4 2 25 tree 2).
  - reflexivity.
  - exact tree_chain.
  - done.
  - exact tree_wf.
  - intros a Ha. repeat (apply elem_of_cons in Ha as [->|Ha]; [reflexivity|]). by apply elem_of_nil in Ha.
  - exact tree_stacked.
  - reflexivity.
Defined.

Lemma consult_stacks_witness :
  exists s', consultLayoutManager (fun _ _ => None) (adjustLayout (fun _ _ => None) 2) 2 tree = Some s' /\ frame tree s' /\
    (forall w m, managed tree w m -> stacked m s' w).
Proof.
  apply (consult_stacks (fun _ _ => None) [2; 1] 2 tree 2).
  - exact tree_chain.
  - done.
  - exact tree_wf.
  - intros a Ha. repeat (apply elem_of_cons in Ha as [->|Ha]; [reflexivity|]). by apply elem_of_nil in Ha.
  - intros w m _ Hm. by apply tree_stacked.
Defined.
End Example.
