(* ===== verification/Lifecycle.v ===== *)
(** * The life of a view ([mixins/view_support.js], [layout_support.js])

    What a view observes from its creation to its end: the properties that it is rendered
    again for, and the properties whose paths are given in its layout.  The layout itself is
    that of [Layout].

    [addObserver] is a list of observers of the view; what Ember makes of [removeObserver]
    without a function is a parameter. *)

From S2P Require Import Prelude.
From S2P Require Import Arrays.
From S2P Require Import Layout.
From stdpp Require Import gmap.
Open Scope string_scope.
Open Scope list_scope.
Open Scope flame_scope.

(** ** Data *)

(** An observer: the view's [rerender], the one of a layout property that is given as a path,
    or one of other code. *)
Inductive observer := Rerender | Bound (prop path : string) | Foreign (id : nat).
#[export] Instance observer_eq_dec : EqDecision observer.
Proof. solve_decision. Defined.

Record lview := LView {
  vals : gmap string lval;                 (* the properties of the view *)
  displayProperties : list string;
  classNames : list string;
  zIndex : option string;                  (* of the layout *)
  backgroundColor : option string;
  observers : list (string * observer);
  rerenders : nat;                         (* how often [rerender] was called *)
  views : state                            (* all views, with their layouts *)
}.

Definition set_vals x s := LView x (displayProperties s) (classNames s) (zIndex s) (backgroundColor s) (observers s) (rerenders s) (views s).
Definition set_classNames x s := LView (vals s) (displayProperties s) x (zIndex s) (backgroundColor s) (observers s) (rerenders s) (views s).
Definition put_observers x s := LView (vals s) (displayProperties s) (classNames s) (zIndex s) (backgroundColor s) x (rerenders s) (views s).
Definition count_rerender s := LView (vals s) (displayProperties s) (classNames s) (zIndex s) (backgroundColor s) (observers s) (S (rerenders s)) (views s).
Definition set_views x s := LView (vals s) (displayProperties s) (classNames s) (zIndex s) (backgroundColor s) (observers s) (rerenders s) x.

Section view.
Context (o : nat).                                    (* the view *)
Context (defaultWidth defaultHeight : option lval).
Context (fuel : nat).
(** The properties of the other views. *)
Context (others : nat -> string -> option lval).

Definition getter (s : lview) (v : nat) (path : string) : option lval := if decide (v = o) then vals s !! path else others v path.

Definition consult (s : lview) : option lview :=
  w ← consultLayoutManager (getter s) (adjustLayout (getter s) fuel) o (views s); Some (set_views w s).
Definition update (s : lview) : option lview :=
  w ← updateLayout (getter s) (adjustLayout (getter s) fuel) o (views s); Some (set_views w s).

(** ** Creation *)

(** [init] of the view support. *)
Definition viewSupport_init (s : lview) : lview :=
  put_observers (observers s ++ ((fun p => (p, Rerender)) <$> displayProperties s)) s.

(** [init] of the layout support, which calls the former. *)
Definition layoutSupport_init (s : lview) : option lview :=
  let absolute := match views s !! o with Some v => useAbsolutePosition v | None => false end in
  let s1 := viewSupport_init (if absolute then set_classNames (classNames s ++ ["flame-view"]) s else s) in
  s2 ← consult (set_views (alter (fun v => set_layout (_initLayoutSupport defaultWidth defaultHeight (v_layout v)) v) o (views s1)) s1);
  update s2.

(** ** Rendering *)

(** The observers of [_resolveLayoutBindings]. *)
Definition bound_observers (l : layout) : list (string * observer) :=
  omap (fun prop =>
    match props l !! prop with
    | Some (LStr path) => if is_path (LStr path) then Some (path, Bound prop path) else None
    | _ => None
    end) _layoutProperties.

Definition put_text (p : string) (x : option string) (m : gmap string css_value) : gmap string css_value :=
  match x with Some t => <[p := CText t]> m | None => m end.

(** [beforeRender]: the attributes of a new element. *)
Definition _renderElementAttributes (s : lview) : lview :=
  match views s !! o with
  | Some v =>
      if useAbsolutePosition v then
        let v1 := _resolveLayoutBindings (getter s) o v in
        let style := put_text "background-color" (backgroundColor s) (put_text "z-index" (zIndex s) (_translateLayout (v_layout v1))) in
        put_observers (observers s ++ (if _bindingsResolved (v_layout v) then [] else bound_observers (v_layout v)))
          (set_views (<[o := set_element (Some style) v1]> (views s)) s)
      else s
  | None => s
  end.

(** When the element is in the document, and when child views come or go, the layout manager
    is asked. *)
Definition didInsertElement (s : lview) : option lview := consult s.
Definition childViewsDidChange (s : lview) : option lview := consult s.

(** ** Changes *)

Definition notify (path : string) (ob : observer) (s : lview) : outcome (option lview) :=
  match ob with
  | Rerender => Ok (Some (count_rerender s))
  | Bound prop value =>
      do! r <- adjust (getter s) fuel o prop (vals s !! value) None (views s) ;
      Ok ((fun w => set_views w s) <$> r)
  | Foreign _ => Ok (Some s)
  end.

Fixpoint notify_all (path : string) (obs : list (string * observer)) (s : lview) : outcome (option lview) :=
  match obs with
  | [] => Ok (Some s)
  | (p, ob) :: obs' =>
      if decide (p = path) then
        do! r <- notify path ob s ;
        match r with Some s' => notify_all path obs' s' | None => Ok None end
      else notify_all path obs' s
  end.

(** A property is set; observers are called when it changes, first the one that all views
    have for [isVisible]. *)
Definition set (path : string) (v : option lval) (s : lview) : outcome (option lview) :=
  if bool_decide (vals s !! path = v) then Ok (Some s)
  else
    let s1 := set_vals (match v with Some x => <[path := x]> (vals s) | None => delete path (vals s) end) s in
    match (if decide (path = "isVisible") then update s1 else Some s1) with
    | Some s2 => notify_all path (observers s2) s2
    | None => Ok None
    end.

(** ** The end *)

(** Ember's [removeObserver] with a path only. *)
Definition remover : Type := string -> list (string * observer) -> list (string * observer).

Definition remove_all (removeObserver : remover) (paths : list string) (s : lview) : lview :=
  put_observers (foldl (fun l p => removeObserver p l) (observers s) paths) s.

(** [willDestroy] of the layout support, after that of the view support. *)
Definition viewSupport_willDestroy (removeObserver : remover) (s : lview) : lview := remove_all removeObserver (displayProperties s) s.
Definition willDestroy (removeObserver : remover) (s : lview) : lview :=
  let s1 := viewSupport_willDestroy removeObserver s in
  match views s1 !! o with Some v => remove_all removeObserver (_layoutObservers v) s1 | None => s1 end.

(** What happens to a view in the document. *)
Inductive op := Render | Set_ (path : string) (v : option lval) | Inserted | ChildViewsChange.

Definition step (x : op) (s : lview) : outcome (option lview) :=
  match x with
  | Render => Ok (Some (_renderElementAttributes s))
  | Set_ path v => set path v s
  | Inserted => Ok (didInsertElement s)
  | ChildViewsChange => Ok (childViewsDidChange s)
  end.

Fixpoint run (l : list op) (s : lview) : outcome (option lview) :=
  match l with
  | [] => Ok (Some s)
  | x :: l' => do! r <- step x s ; match r with Some s' => run l' s' | None => Ok None end
  end.

(** ** Lemmas *)

(** A view that no layout manager has a say in. *)
Definition free_view (v : view) : Prop := parentView v = None /\ layoutManager v = None /\ useAbsolutePosition v = true.
Definition free (s : state) : Prop := exists v, s !! o = Some v /\ free_view v.

(** The style of the element contains the layout. *)
Definition shown (v : view) : Prop :=
  match element v with Some style => _translateLayout (v_layout v) ⊆ style | None => False end.

Lemma put_lookup_ne p q x m : p <> q -> put p x m !! q = m !! q.
Proof. intros H. destruct x; [by apply lookup_insert_ne|done]. Qed.

Lemma translate_none q l : q ∉ ["overflow"; "width"; "left"; "right"; "margin-left"; "height"; "top"; "bottom"; "margin-top"] ->
  _translateLayout l !! q = None.
Proof.
  intros Hq. rewrite !not_elem_of_cons in Hq. destruct_and!. unfold _translateLayout.
  repeat case_match; repeat first [rewrite put_lookup_ne by done | rewrite lookup_insert_ne by done]; apply lookup_empty.
Qed.

Lemma put_text_subseteq q x m m' : m !! q = None -> m ⊆ m' -> m ⊆ put_text q x m'.
Proof. intros Hq H. destruct x as [t|]; [|done]. by apply insert_subseteq_r. Qed.

Lemma free_consult s : free (views s) -> consult s = Some s.
Proof.
  intros (v & Hv & _ & Hm & _). unfold consult, consultLayoutManager. rewrite Hv, Hm. cbn. by destruct s.
Qed.

Lemma free_update s : free (views s) -> update s = Some (set_views (write_css o (views s)) s).
Proof.
  intros (v & Hv & Hp & _ & Ha). unfold update, updateLayout, write_css. rewrite lookup_alter_eq, Hv. cbn. rewrite Ha.
  destruct (element v); cbn; by rewrite Hp.
Qed.

(** A layout property of a free view is set. *)
Lemma free_adjust g n p x w v : w !! o = Some v -> free_view v ->
  exists v', adjust g (S n) o p (Some x) None w = Ok (Some (<[o := v']> w)) /\ free_view v' /\
    props (v_layout v') = <[p := x]> (props (v_layout v)) /\ _bindingsResolved (v_layout v') = _bindingsResolved (v_layout v) /\
    _layoutObservers v' = _layoutObservers v /\ (shown v -> shown v').
Proof.
  intros Hv (Hp & Hm & Ha). unfold adjust. cbn [adjusted_value outcome_bind adjustLayout].
  destruct (differs (prop_of w o p) x) eqn:Hd.
  - set (l' := set_props (<[p := x]> (props (v_layout v))) (v_layout v)).
    set (v' := match element v with Some st => set_element (Some (_translateLayout l' ∪ st)) (set_layout l' v) | None => set_layout l' v end).
    exists v'. assert (write_css o (set_prop o p x w) = <[o := v']> w) as Hw.
    { apply map_eq. intros q. unfold write_css, set_prop. destruct (decide (q = o)) as [->|Hq].
      - rewrite !lookup_alter_eq, lookup_insert_eq, Hv. cbn. rewrite Ha. unfold v', l'. by destruct (element v).
      - by rewrite !lookup_alter_ne, lookup_insert_ne. }
    split; [|unfold v', shown; destruct (element v); cbn; split_and!; try done; intros _; apply map_union_subseteq_l].
    unfold updateLayout. cbn zeta. rewrite Hw, lookup_insert_eq. cbn [mbind option_bind].
    assert (parentView v' = None) as -> by (unfold v'; by destruct (element v)). cbn [mbind option_bind].
    case_bool_decide; [|done]. unfold consultLayoutManager. rewrite lookup_insert_eq.
    assert (layoutManager v' = None) as -> by (unfold v'; by destruct (element v)). done.
  - exists v. rewrite insert_id by done. split_and!; try done.
    unfold prop_of in Hd. rewrite Hv in Hd. cbn in Hd. destruct x; try done; cbn in Hd;
      apply negb_false_iff, bool_decide_eq_true in Hd; by rewrite insert_id.
Qed.

Definition entry_ok (x : string * observer) : Prop := match x.2 with Bound _ value => value = x.1 | _ => True end.
Definition rerender_count (path : string) (obs : list (string * observer)) : nat :=
  length (base.filter (fun x => x = (path, Rerender)) obs).

Lemma notify_all_ok n path x obs : fuel = S n -> Forall entry_ok obs -> forall s v,
  vals s !! path = Some x -> views s !! o = Some v -> free_view v ->
  exists s' v', notify_all path obs s = Ok (Some s') /\ vals s' = vals s /\ observers s' = observers s /\
    displayProperties s' = displayProperties s /\
    rerenders s' = rerenders s + rerender_count path obs /\ views s' !! o = Some v' /\ free_view v' /\ (shown v -> shown v') /\
    _bindingsResolved (v_layout v') = _bindingsResolved (v_layout v) /\ _layoutObservers v' = _layoutObservers v /\
    forall prop, props (v_layout v') !! prop = if bool_decide ((path, Bound prop path) ∈ obs) then Some x else props (v_layout v) !! prop.
Proof.
  intros Hn. induction 1 as [|[p ob] obs Hx _ IH]; intros s v Hval Hv Hfree.
  { exists s, v. by split_and!. }
  unfold rerender_count. cbn [notify_all]. rewrite filter_cons. destruct (decide (p = path)) as [->|Hp].
  - match goal with |- ?G => assert (forall s1 v1, notify path ob s = Ok (Some s1) -> vals s1 = vals s -> observers s1 = observers s -> displayProperties s1 = displayProperties s ->
      rerenders s1 = rerenders s + (if decide ((path, ob) = (path, Rerender)) then 1 else 0) ->
      views s1 !! o = Some v1 -> free_view v1 -> (shown v -> shown v1) -> _bindingsResolved (v_layout v1) = _bindingsResolved (v_layout v) ->
      _layoutObservers v1 = _layoutObservers v ->
      (forall prop, props (v_layout v1) !! prop = if decide (ob = Bound prop path) then Some x else props (v_layout v) !! prop) -> G) as Hgo end;
      [|destruct ob as [|prop value|i]].
    + intros s1 v1 E E1 E2 E2' E3 E4 E5 E6 E7 E8 E9. rewrite E. cbn [outcome_bind].
      destruct (IH s1 v1) as (s' & v' & F & F1 & F2 & F2' & F3 & F4 & F5 & F6 & F7 & F8 & F9); [by rewrite E1|done|done|].
      exists s', v'. split_and!; try congruence; try tauto.
      * rewrite F3, E3. unfold rerender_count. destruct (decide _); cbn; lia.
      * intros prop. rewrite F9, E9. destruct (decide (ob = Bound prop path)) as [->|Hob].
        -- rewrite (bool_decide_true (_ ∈ _ :: _)) by apply list_elem_of_here. by case_bool_decide.
        -- rewrite (bool_decide_ext (_ ∈ _ :: _) ((path, Bound prop path) ∈ obs)); [done|]. rewrite elem_of_cons. naive_solver.
    + refine (Hgo (count_rerender s) v _ _ _ _ _ _ _ _ _ _ _); try done. rewrite decide_True by done. cbn. lia.
    + cbn in Hx. subst value. destruct (free_adjust (getter s) n prop x (views s) v Hv Hfree) as (v1 & E & E1 & E2 & E3 & E4 & E5).
      refine (Hgo (set_views (<[o := v1]> (views s)) s) v1 _ _ _ _ _ _ _ _ _ _ _); try done.
      * cbn [notify]. rewrite Hn, Hval, E. done.
      * rewrite decide_False by congruence. cbn. lia.
      * cbn. by rewrite lookup_insert_eq.
      * intros prop'. rewrite E2. destruct (decide (Bound prop path = Bound prop' path)) as [Hb|Hne]; [injection Hb as ->; by rewrite lookup_insert_eq|]. by rewrite lookup_insert_ne by congruence.
    + refine (Hgo s v _ _ _ _ _ _ _ _ _ _ _); try done. rewrite decide_False by congruence. lia.
  - destruct (IH s v Hval Hv Hfree) as (s' & v' & F & F1 & F2 & F2' & F3 & F4 & F5 & F6 & F7 & F8 & F9).
    exists s', v'. split_and!; try done.
    + rewrite F3. unfold rerender_count. by rewrite decide_False by congruence.
    + intros prop. rewrite F9. rewrite (bool_decide_ext (_ ∈ _ :: _) ((path, Bound prop path) ∈ obs)); [done|]. rewrite elem_of_cons. naive_solver.
Qed.

(** The observers of a layout: for each property that is given as a path one, in order. *)
Definition bound_ok (bound : list (string * observer)) : Prop :=
  Forall (fun x => exists prop, x.2 = Bound prop x.1) bound /\
  forall p1 p2 prop, (p1, Bound prop p1) ∈ bound -> (p2, Bound prop p2) ∈ bound -> p1 = p2.

Lemma bound_observers_elem l path ob : (path, ob) ∈ bound_observers l ->
  exists prop, ob = Bound prop path /\ prop ∈ _layoutProperties /\ props l !! prop = Some (LStr path) /\ is_path (LStr path) = true.
Proof.
  unfold bound_observers. intros (prop & Hp & H)%list_elem_of_omap. exists prop.
  destruct (props l !! prop) as [[z|s|]|] eqn:E; try done. destruct (is_path (LStr s)) eqn:Es; [|done]. injection H as -> <-. done.
Qed.

Lemma bound_observers_ok l : bound_ok (bound_observers l).
Proof.
  split.
  - apply Forall_forall. intros [path ob] H. apply bound_observers_elem in H as (prop & -> & _). by exists prop.
  - intros p1 p2 prop (q1 & [= <-] & _ & H1 & _)%bound_observers_elem (q2 & [= <-] & _ & H2 & _)%bound_observers_elem. congruence.
Qed.

(** What holds of a view that was rendered once: other code has the observers [obs0]. *)
Record alive (obs0 bound : list (string * observer)) (s : lview) : Prop := {
  al_view : exists v, views s !! o = Some v /\ free_view v /\ shown v /\ _bindingsResolved (v_layout v) = true /\
    _layoutObservers v = bound.*1 /\
    forall path prop, (path, Bound prop path) ∈ bound -> props (v_layout v) !! prop = vals s !! path;
  al_observers : observers s = obs0 ++ bound
}.

Lemma put_text_shown z b st l : _translateLayout l ⊆ st -> _translateLayout l ⊆ put_text "background-color" b (put_text "z-index" z st).
Proof. intros H. apply put_text_subseteq; [apply translate_none; set_solver|]. apply put_text_subseteq; [apply translate_none; set_solver|done]. Qed.

Lemma set_alive n obs0 bound path x s : fuel = S n -> bound_ok bound -> Forall entry_ok obs0 ->
  (forall y prop value, (y, Bound prop value) ∉ obs0) -> alive obs0 bound s ->
  exists s', set path (Some x) s = Ok (Some s') /\ alive obs0 bound s' /\ vals s' !! path = Some x /\ displayProperties s' = displayProperties s /\
    rerenders s' = rerenders s + (if bool_decide (vals s !! path = Some x) then 0 else rerender_count path (observers s)).
Proof.
  intros Hn [Hb1 Hb2] Hob Hno [(v & Hv & Hf & Hsh & Hr & Hlo & Hp) Ho]. unfold set. case_bool_decide as Hx.
  { exists s. split_and!; try done. split; [|done]. exists v. by split_and!. }
  set (s0 := set_vals (<[path := x]> (vals s)) s).
  assert (exists s1 v1, (if decide (path = "isVisible") then update s0 else Some s0) = Some s1 /\ vals s1 = vals s0 /\
    observers s1 = observers s /\ displayProperties s1 = displayProperties s /\ rerenders s1 = rerenders s /\
    views s1 !! o = Some v1 /\ free_view v1 /\ shown v1 /\ v_layout v1 = v_layout v /\ _layoutObservers v1 = _layoutObservers v)
    as (s1 & v1 & -> & Ev & Eo & Ed & Er & Hv1 & Hf1 & Hsh1 & El & Elo).
  { destruct (decide (path = "isVisible")); [|by exists s0, v]. rewrite free_update by (by exists v).
    exists (set_views (write_css o (views s0)) s0). cbn [views set_views]. unfold write_css, s0. cbn [views set_vals]. rewrite lookup_alter_eq, Hv. destruct Hf as (? & ? & Ha). cbn. rewrite Ha.
    unfold shown in Hsh. destruct (element v) as [st|] eqn:E; [|done]. eexists. split_and!; try done. unfold shown. cbn. apply map_union_subseteq_l. }
  destruct (notify_all_ok n path x (observers s1) Hn) with (s := s1) (v := v1)
    as (s' & v' & E & E1 & E2 & E2' & E3 & E4 & E5 & E6 & E7 & E8 & E9).
  { rewrite Eo, Ho. apply Forall_app. split; [done|]. eapply Forall_impl; [exact Hb1|]. intros [p ob] [prop H]. cbn in H. by subst. }
  { rewrite Ev. cbn. by rewrite lookup_insert_eq. }
  { done. } { done. }
  rewrite Eo in E3, E9. rewrite El in E7, E9. rewrite Ev in E1. rewrite Er in E3. rewrite Elo in E8. rewrite Ed in E2'. rewrite Eo in E2. specialize (E6 Hsh1).
  exists s'. split_and!; try done; [|rewrite E1; cbn; by rewrite lookup_insert_eq].
  split; [|by rewrite E2]. exists v'. split_and!; try done; [congruence|congruence|].
  intros q prop Hq. rewrite E9, E1. cbn. rewrite Ho. destruct (decide (q = path)) as [->|Hqp].
  - rewrite lookup_insert_eq, bool_decide_true; [done|]. apply elem_of_app. by right.
  - rewrite lookup_insert_ne by done. rewrite bool_decide_false; [by apply Hp|]. intros [H|H]%elem_of_app; [by apply Hno in H|].
    apply Hqp. by apply (Hb2 q path prop).
Qed.

(** ** The first rendering *)

Lemma resolve_fold g ps : forall m obs, NoDup ps ->
  let r := foldl (fun '(m, obs) prop =>
        match m !! prop with
        | Some (LStr path) =>
            if is_path (LStr path) then (set_or_remove prop (g path) m, obs ++ [path]) else (m, obs)
        | _ => (m, obs)
        end) (m, obs) ps in
  r.2 = obs ++ omap (fun prop => match m !! prop with Some (LStr path) => if is_path (LStr path) then Some path else None | _ => None end) ps /\
  forall prop, r.1 !! prop = match m !! prop with
    | Some (LStr path) => if bool_decide (prop ∈ ps) && is_path (LStr path) then g path else Some (LStr path)
    | x => x
    end.
Proof.
  induction ps as [|q ps IH]; intros m obs Hnd; cbn [foldl].
  { split; [cbn; by rewrite app_nil_r|]. intros prop. cbn. by destruct (m !! prop) as [[]|]. }
  apply NoDup_cons in Hnd as [Hq Hnd].
  set (here := match m !! q with Some (LStr path) => if is_path (LStr path) then Some path else None | _ => None end).
  assert (exists m', (match m !! q with
        | Some (LStr path) => if is_path (LStr path) then (set_or_remove q (g path) m, obs ++ [path]) else (m, obs)
        | _ => (m, obs)
        end) = (m', obs ++ option_list here) /\ (forall p, p <> q -> m' !! p = m !! p) /\ m' !! q = match here with Some path => g path | None => m !! q end) as (m' & -> & Hm' & Hmq).
  { unfold here. destruct (m !! q) as [[z|path|]|] eqn:E; try (exists m; by rewrite app_nil_r, E).
    destruct (is_path (LStr path)); [|exists m; by rewrite app_nil_r, E]. exists (set_or_remove q (g path) m). split; [done|]. unfold set_or_remove.
    destruct (g path); (split; [intros p Hp; by rewrite ?lookup_insert_ne, ?lookup_delete_ne by done|by rewrite ?lookup_insert_eq, ?lookup_delete_eq]). }
  destruct (IH m' (obs ++ option_list here) Hnd) as [H1 H2]. split.
  - rewrite H1, <- app_assoc. f_equal. cbn [omap list_omap]. fold here.
    assert (forall l, l ⊆ ps -> omap (fun prop => match m' !! prop with Some (LStr path) => if is_path (LStr path) then Some path else None | _ => None end) l =
      omap (fun prop => match m !! prop with Some (LStr path) => if is_path (LStr path) then Some path else None | _ => None end) l) as Ho.
    { induction l as [|p l IHl]; intros Hl; [done|]. cbn [omap list_omap]. rewrite Hm' by set_solver. by rewrite IHl by set_solver. }
    rewrite Ho by done. by destruct here.
  - intros prop. rewrite H2. destruct (decide (prop = q)) as [->|Hp].
    + rewrite Hmq. rewrite (bool_decide_true (q ∈ q :: ps)) by apply list_elem_of_here. rewrite (bool_decide_false (q ∈ ps)) by done. unfold here.
      destruct (m !! q) as [[z|path|]|]; try done. cbn [andb]. destruct (is_path (LStr path)); [|done]. by destruct (g path) as [[]|].
    + rewrite Hm' by done. by rewrite (bool_decide_ext (prop ∈ q :: ps) (prop ∈ ps)) by set_solver.
Qed.

Lemma properties_NoDup : NoDup _layoutProperties.
Proof. unfold _layoutProperties. repeat (apply NoDup_cons; split; [set_solver|]). apply NoDup_nil_2. Qed.

Lemma bound_paths l : (bound_observers l).*1 =
  omap (fun prop => match props l !! prop with Some (LStr path) => if is_path (LStr path) then Some path else None | _ => None end) _layoutProperties.
Proof.
  unfold bound_observers. induction _layoutProperties as [|p ps IH]; [done|]. cbn [omap list_omap].
  destruct (props l !! p) as [[z|path|]|]; try done. destruct (is_path (LStr path)); [|done]. cbn. by f_equal.
Qed.

Lemma first_render s v : views s !! o = Some v -> free_view v -> _bindingsResolved (v_layout v) = false ->
  alive (observers s) (bound_observers (v_layout v)) (_renderElementAttributes s) /\
  vals (_renderElementAttributes s) = vals s /\ displayProperties (_renderElementAttributes s) = displayProperties s /\
  rerenders (_renderElementAttributes s) = rerenders s.
Proof.
  intros Hv (Hp & Hm & Ha) Hr. unfold _renderElementAttributes. rewrite Hv, Ha, Hr. split; [|done].
  split; [|done]. cbn [views set_views put_observers]. rewrite lookup_insert_eq. eexists. split; [reflexivity|].
  unfold _resolveLayoutBindings. rewrite Hr. destruct (resolve_fold (getter s o) _layoutProperties (props (v_layout v)) [] properties_NoDup) as [H1 H2].
  destruct (foldl _ _ _layoutProperties) as [m obs]. cbn [fst snd] in H1, H2. split_and!; try done.
  - unfold shown. cbn. by apply put_text_shown.
  - rewrite bound_paths. exact H1.
  - intros path prop (prop' & [= <-] & Hin & Hl & Hpath)%bound_observers_elem. cbn. rewrite H2, Hl, Hpath, bool_decide_true by done. cbn.
    unfold getter. by rewrite decide_True.
Qed.

Lemma later_render obs0 bound s : alive obs0 bound s -> alive obs0 bound (_renderElementAttributes s) /\
  vals (_renderElementAttributes s) = vals s /\ displayProperties (_renderElementAttributes s) = displayProperties s /\
  rerenders (_renderElementAttributes s) = rerenders s.
Proof.
  intros [(v & Hv & (Hp & Hm & Ha) & Hsh & Hr & Hlo & Hb) Ho]. unfold _renderElementAttributes. rewrite Hv, Ha, Hr. split; [|done].
  split; [|cbn; by rewrite app_nil_r]. cbn [views set_views put_observers]. rewrite lookup_insert_eq. eexists. split; [reflexivity|].
  unfold _resolveLayoutBindings. rewrite Hr. split_and!; try done. unfold shown. cbn. by apply put_text_shown.
Qed.

Definition given (x : op) : Prop := match x with Set_ _ v => is_Some v | _ => True end.

Lemma run_alive n obs0 bound ops : fuel = S n -> bound_ok bound -> Forall entry_ok obs0 ->
  (forall y prop value, (y, Bound prop value) ∉ obs0) -> Forall given ops -> forall s, alive obs0 bound s ->
  exists s', run ops s = Ok (Some s') /\ alive obs0 bound s' /\ displayProperties s' = displayProperties s.
Proof.
  intros Hn Hb Hob Hno Hops. induction Hops as [|x ops Hx _ IH]; intros s Hs; [by exists s|].
  assert (exists s1, step x s = Ok (Some s1) /\ alive obs0 bound s1 /\ displayProperties s1 = displayProperties s) as (s1 & E & Hs1 & Ed).
  { destruct x as [|path v| |]; cbn [step].
    - destruct (later_render obs0 bound s Hs) as (H & _ & E & _). eauto.
    - destruct Hx as [x ->]. destruct (set_alive n obs0 bound path x s Hn Hb Hob Hno Hs) as (s1 & E & H & _ & Ed & _). eauto.
    - destruct (al_view _ _ _ Hs) as (v & Hv & Hf & _). unfold didInsertElement. rewrite free_consult by (by exists v). eauto.
    - destruct (al_view _ _ _ Hs) as (v & Hv & Hf & _). unfold childViewsDidChange. rewrite free_consult by (by exists v). eauto. }
  destruct (IH s1 Hs1) as (s' & E' & H & Ed'). exists s'. cbn [run]. rewrite E. split_and!; [done|done|congruence].
Qed.

Lemma init_free s v : views s !! o = Some v -> free_view v ->
  exists s1 v1, layoutSupport_init s = Some s1 /\ views s1 !! o = Some v1 /\ free_view v1 /\
    v_layout v1 = _initLayoutSupport defaultWidth defaultHeight (v_layout v) /\ vals s1 = vals s /\
    displayProperties s1 = displayProperties s /\ rerenders s1 = rerenders s /\
    observers s1 = observers s ++ ((fun p => (p, Rerender)) <$> displayProperties s) /\ classNames s1 = classNames s ++ ["flame-view"].
Proof.
  intros Hv (Hp & Hm & Ha). unfold layoutSupport_init. rewrite Hv, Ha. set (s0 := viewSupport_init _).
  set (v0 := set_layout (_initLayoutSupport defaultWidth defaultHeight (v_layout v)) v).
  assert (views (set_views (alter (fun v => set_layout (_initLayoutSupport defaultWidth defaultHeight (v_layout v)) v) o (views s0)) s0) !! o = Some v0) as Hv0
    by (cbn; by rewrite lookup_alter_eq, Hv).
  rewrite free_consult by (by exists v0). cbn [mbind option_bind]. rewrite free_update by (by exists v0).
  eexists _, _. split; [reflexivity|]. cbn [views set_views] in Hv0 |- *. split; [unfold write_css; by rewrite lookup_alter_eq, Hv0|].
  cbn. rewrite Ha. by destruct (element v).
Qed.

Lemma init_resolved dw dh l : _bindingsResolved (_initLayoutSupport dw dh l) = _bindingsResolved l.
Proof. done. Qed.

(** ** Properties *)

(** The layout of a view once it has been created. *)
Definition initial_layout (s : lview) : layout :=
  match views s !! o with Some v => _initLayoutSupport defaultWidth defaultHeight (v_layout v) | None => Layout ∅ None None None None None None true end.


Lemma foldl_remove (removeObserver : remover) : (forall p l, removeObserver p l = base.filter (fun x => x.1 <> p) l) ->
  forall paths l, foldl (fun l p => removeObserver p l) l paths = base.filter (fun x => x.1 ∉ paths) l.
Proof.
  intros Hrem paths. induction paths as [|p paths IH]; intros l; cbn [foldl].
  - induction l as [|x l IHl]; [done|]. rewrite filter_cons_True by set_solver. by f_equal.
  - rewrite IH, Hrem, list_filter_filter. apply list_filter_iff. intros x. set_solver.
Qed.

(** At the end of its life a view leaves none of its observers behind, provided that
    [removeObserver] without a function removes the observers of a path. *)
Theorem no_observer_is_left (removeObserver : remover) n s v ops s1 s2 :
  (forall p l, removeObserver p l = base.filter (fun x => x.1 <> p) l) ->
  fuel = S n -> views s !! o = Some v -> free_view v -> _bindingsResolved (v_layout v) = false ->
  Forall entry_ok (observers s) -> (forall y prop value, (y, Bound prop value) ∉ observers s) -> Forall given ops ->
  layoutSupport_init s = Some s1 -> run ops (_renderElementAttributes s1) = Ok (Some s2) ->
  observers (willDestroy removeObserver s2) =
    base.filter (fun x => x.1 ∉ displayProperties s ++ (bound_observers (initial_layout s)).*1) (observers s).
Proof.
  intros Hrem Hn Hv Hf Hr Hob Hno Hops E1 E2. destruct (init_free s v Hv Hf) as (s1' & v1 & E1' & Hv1 & Hf1 & El & _ & Ed & _ & Eo & _).
  rewrite E1 in E1'. injection E1' as <-.
  assert (initial_layout s = v_layout v1) as Hl by (unfold initial_layout; by rewrite Hv, El).
  destruct (first_render s1 v1 Hv1 Hf1 ltac:(by rewrite El)) as (Ha & _ & Ed1 & _).
  destruct (run_alive n (observers s1) (bound_observers (v_layout v1)) ops Hn (bound_observers_ok _)) with (s := _renderElementAttributes s1)
    as (s2' & E2' & [(v2 & Hv2 & _ & _ & _ & Hlo & _) Ho] & Ed2); [| |done|done|].
  - rewrite Eo. apply Forall_app. split; [done|]. apply Forall_fmap, Forall_true. done.
  - intros y prop value. rewrite Eo. intros [H|H]%elem_of_app; [by apply Hno in H|]. by apply list_elem_of_fmap in H as (? & [=] & _).
  - rewrite E2 in E2'. injection E2' as <-. unfold willDestroy, viewSupport_willDestroy. cbn [views remove_all put_observers]. rewrite Hv2, Hlo, Hl.
    cbn [remove_all put_observers observers]. rewrite !(foldl_remove _ Hrem), list_filter_filter, Ho, Eo, <- app_assoc, !filter_app.
    rewrite Ed2, Ed1, Ed. rewrite (list_filter_none _ (_ <$> _)), (list_filter_none _ (bound_observers _)), !app_nil_r.
    + apply list_filter_iff. intros x. set_solver.
    + apply Forall_forall. intros [p ob] H [Hx _]. apply Hx. apply list_elem_of_fmap. by exists (p, ob).
    + apply Forall_fmap, Forall_forall. intros p H [_ Hx]. by apply Hx.
Qed.
End view.

(** ** Departures *)

(** A bound property may be undefined when the view is rendered, but when it becomes
    undefined later the change of the property throws. *)
Example undefined_binding_throws :
  exists s : lview,
    let s' := _renderElementAttributes 0 (fun _ _ => None) s in
    is_ok (or_throw (consult 0 1 (fun _ _ => None) s') "") = true /\
    set 0 1 (fun _ _ => None) "offset" None s' = Throw no_value_msg.
Proof.
  exists (LView {["offset" := LNum 10]} [] [] None None [] 0
    {[0 := View (Layout {["left" := LStr "offset"]} None None None None None None false) None [] None false None false true None []]}).
  vm_compute. split; reflexivity.
Qed.

(** ** The properties at a concrete view *)

(** A view whose position is bound to a property and that shows its title. *)
Definition titled : lview :=
  LView {["offset" := LNum 10; "title" := LStr "One"]} ["title"] [] (Some "5") None [("data", Foreign 1)] 0
    {[0 := View (Layout {["left" := LStr "offset"; "top" := LNum 3]} None None None None None None false) None [] None false None false true None []]}.
Definition titled_life : list op :=
  [Inserted; Set_ "offset" (Some (LNum 20)); Set_ "title" (Some (LStr "Two")); Render; ChildViewsChange; Set_ "isVisible" (Some (LNum 0))].

Lemma titled_free : free_view (View (Layout {["left" := LStr "offset"; "top" := LNum 3]} None None None None None None false) None [] None false None false true None []).
Proof. done. Qed.
Lemma titled_entries : Forall entry_ok (observers titled) /\ (forall y prop value, (y, Bound prop value) ∉ observers titled) /\ Forall given titled_life.
Proof.
  split_and!.
  - by repeat constructor.
  - intros y prop value H. apply list_elem_of_singleton in H. discriminate.
  - unfold titled_life, given. repeat constructor; by eexists.
Qed.

Definition without_path (p : string) (l : list (string * observer)) : list (string * observer) := base.filter (fun x => x.1 <> p) l.


Lemma no_observer_is_left_witness :
  exists s1 s2, layoutSupport_init 0 None None 1 (fun _ _ => None) titled = Some s1 /\
    run 0 1 (fun _ _ => None) titled_life (_renderElementAttributes 0 (fun _ _ => None) s1) = Ok (Some s2) /\
    observers (willDestroy 0 without_path s2) = [("data", Foreign 1)].
Proof.
  eexists _, _. split; [vm_compute; reflexivity|]. split; [vm_compute; reflexivity|].
  refine (eq_trans (no_observer_is_left 0 None None 1 (fun _ _ => None) without_path 0 titled _ titled_life _ _ (fun _ _ => eq_refl) eq_refl eq_refl titled_free eq_refl
    (proj1 titled_entries) (proj1 (proj2 titled_entries)) (proj2 (proj2 titled_entries)) _ _) _).
  - vm_compute. reflexivity.
  - vm_compute. reflexivity.
  - vm_compute. reflexivity.
Defined.
