(* ===== verification/Labels.v ===== *)
(** * Labels, disclosure views, inputs and search fields in the tree of views
    ([views/label_view.js], [disclosure_view.js], [text_area_view.js],
    [search_text_field_view.js], [text_field_view.js], [tree_item_view.js])

    Small views whose logic is in which events they accept.  They are put into the tree of
    [EventManager]: what they do not handle themselves is left to the other handlers of the
    application, which are parameters, as is the action of a label.  The second part is the
    line height of labels, with the layouts of [Layout]. *)

From S2P Require Import Prelude.
From stdpp Require Import gmap.
From S2P Require Import EventManager.
From S2P Require Layout.
Open Scope string_scope.
Open Scope list_scope.
Open Scope flame_scope.

(** ** Data *)

Inductive kind :=
| Label
| Disclosure                  (* [DisclosureView] *)
| TreeToggle                  (* the disclosure view of a tree item *)
| Input                       (* the input of a text field *)
| TextArea                    (* the text area of a text area view *)
| SearchField
| Other.

#[export] Instance kind_eq_dec : EqDecision kind.
Proof. solve_decision. Defined.

(** The state of the small views; [rest] is that of the application. *)
Record small (B : Type) := Small {
  value : gmap nat string;              (* of search fields *)
  visibilityTarget : gmap nat bool;     (* of disclosure views *)
  rest : B
}.
Arguments Small {B} _ _ _.
Arguments value {B} _.
Arguments visibilityTarget {B} _.
Arguments rest {B} _.

Definition put_app {A} (a : A) (w : world A) : world A := World a (views w) (_stack w) (mouseResponder w) (focused w).

Section labels.
Context {B : Type}.
Abbreviation state := (world (small B)).
Context (kinds : nat -> kind).
(** [fireAction], which has the result of the action. *)
Context (fireAction : nat -> state -> state * bool).
(** All other handlers. *)
Context (other : nat -> string -> option (ui_event -> nat -> state -> state * result)).

(** ** Handlers *)

Definition presses : list string := ["mouseDown"; "touchStart"].
Definition releases : list string := ["mouseUp"; "touchEnd"].

Definition is_open (v : nat) (w : state) : bool := default false (visibilityTarget (app w) !! v).
Definition text_of (v : nat) (w : state) : string := default "" (value (app w) !! v).

(** [toggleProperty('visibilityTarget')] *)
Definition toggle (v : nat) (w : state) : state :=
  put_app (Small (value (app w)) (<[v := negb (is_open v w)]> (visibilityTarget (app w))) (rest (app w))) w.
Definition clear (v : nat) (w : state) : state :=
  put_app (Small (<[v := ""]> (value (app w))) (visibilityTarget (app w)) (rest (app w))) w.

(** The action of a label view and what it returns. *)
Definition action_of (v : nat) (w : state) : state * bool :=
  match kinds v with
  | Disclosure => (toggle v w, true)
  | TreeToggle => (w, false)
  | _ => fireAction v w
  end.

Definition label_mouseDown (ev : ui_event) (v : nat) (w : state) : state * result :=
  let '(w', b) := action_of v w in (w', if b then Handled else Passed).
Definition label_mouseUp (ev : ui_event) (v : nat) (w : state) : state * result := (w, Handled).

Definition input_mouse (ev : ui_event) (v : nat) (w : state) : state * result := (w, AllowBrowserDefault).
Definition input_cancel (ev : ui_event) (v : nat) (w : state) : state * result := (w, Passed).
Definition area_keyDown (ev : ui_event) (v : nat) (w : state) : state * result := (w, Passed).

Definition search_cancel (ev : ui_event) (v : nat) (w : state) : state * result :=
  if bool_decide (text_of v w = "") then (w, Passed) else (clear v w, Handled).
(** Whether the button that clears the field is shown. *)
Definition clear_isVisible (v : nat) (w : state) : bool := negb (bool_decide (text_of v w = "")).

Definition is_label (v : nat) : bool := bool_decide (kinds v ∈ [Label; Disclosure; TreeToggle]).

Definition handler (v : nat) (n : string) : option (ui_event -> nat -> state -> state * result) :=
  if is_label v && bool_decide (n ∈ presses) then Some label_mouseDown
  else if is_label v && bool_decide (n ∈ releases) then Some label_mouseUp
  else if bool_decide (kinds v = Input) && bool_decide (n ∈ ["mouseDown"; "mouseMove"; "mouseUp"]) then Some input_mouse
  else if bool_decide (kinds v = Input) && bool_decide (n = "cancel") then Some input_cancel
  else if bool_decide (kinds v = TextArea) && bool_decide (n = "keyDown") then Some area_keyDown
  else if bool_decide (kinds v = SearchField) && bool_decide (n = "cancel") then Some search_cancel
  else other v n.

(** ** Lemmas *)

(** Actions leave the tree of views and the captured mouse alone, as the other handlers do. *)
Class ActionLaws : Prop := {
  action_views v w : views (fireAction v w).1 = views w;
  action_mouse v w : mouseResponder (fireAction v w).1 = mouseResponder w
}.

Context (Ha : ActionLaws) (Ho : HandlerLaws other).

Lemma action_frame v w : views (action_of v w).1 = views w /\ mouseResponder (action_of v w).1 = mouseResponder w.
Proof. unfold action_of. destruct (kinds v); try done; by rewrite action_views, action_mouse. Qed.

Lemma handler_frame v n h ev x w : handler v n = Some h -> views (h ev x w).1 = views w /\ mouseResponder (h ev x w).1 = mouseResponder w.
Proof.
  unfold handler. intros H. repeat match type of H with (if ?b then _ else _) = _ => destruct b end; try (injection H as <-); try done.
  - unfold label_mouseDown. pose proof (action_frame x w). by destruct (action_of x w).
  - unfold search_cancel. by case_bool_decide.
  - destruct Ho as [H1 H2]. split; [by apply (H1 v n)|by apply (H2 v n)].
Qed.

Lemma handler_laws : HandlerLaws handler.
Proof. split; intros v n h ev x w H; by apply (handler_frame v n h ev x w). Qed.

Lemma label_press v n : is_label v = true -> n ∈ presses -> handler v n = Some label_mouseDown.
Proof. intros Hv Hn. unfold handler. by rewrite Hv, bool_decide_true. Qed.

Lemma label_release v n : is_label v = true -> n ∈ releases -> handler v n = Some label_mouseUp.
Proof.
  intros Hv Hn. assert (n = "mouseUp" \/ n = "touchEnd") as [-> | ->] by (clear -Hn; unfold releases in Hn; set_solver);
    unfold handler; rewrite Hv; reflexivity.
Qed.

Lemma dispatch_label n ev f v w : is_label v = true -> n ∈ releases -> _dispatch handler (S f) n ev v w = Some (w, Some v).
Proof. intros Hv Hn. cbn [_dispatch]. by rewrite (label_release v n Hv Hn). Qed.

(** A list of views that an event visits can be cut after a view that accepts it. *)
Lemma bubbles_cut name ev pre v post h w w' r : handler v name = Some h -> (forall w, (h ev v w).2 = Handled) ->
  bubbles handler name ev (pre ++ v :: post) w w' r -> bubbles handler name ev (pre ++ [v]) w w' r.
Proof.
  intros Hh Hr. revert w w' r. induction pre as [|x pre IH]; cbn [app]; intros w w' r H.
  - inversion H as [|? ? h' ? ? H1 H2|? ? h' ? ? H1 H2|? ? h' ? ? ? ? H1 H2|? ? ? ? ? H1]; subst; rewrite Hh in H1; try discriminate;
      injection H1 as <-; specialize (Hr w); rewrite H2 in Hr; try discriminate. by eapply bubbles_handled.
  - inversion H; subst; [by eapply bubbles_handled|by eapply bubbles_browser|eapply bubbles_passed; eauto|eapply bubbles_missing; eauto].
Qed.

(** ** Properties of labels *)

(** A release of the mouse that no view has captured never passes a label: it visits the
    views from the one under the pointer up to the label, and not the ancestors of the label. *)
Theorem label_stops_release ev fuel x pre v post w :
  is_label v = true -> mouseResponder w = None -> chain (views w) x (pre ++ v :: post) -> length (pre ++ v :: post) <= fuel ->
  exists w' r, mouseUp handler fuel ev x w = Some (w', bool_decide (r = None)) /\ bubbles handler "mouseUp" ev (pre ++ [v]) w w' r.
Proof.
  intros Hv Hm Hc Hl. destruct (dispatch_bubbles handler handler_laws "mouseUp" ev fuel x _ w Hc Hl) as (w' & r & E & Hbu & _).
  exists w', r. unfold mouseUp. rewrite Hm, E. split; [done|]. eapply (bubbles_cut _ _ _ _ _ label_mouseUp); [|done|exact Hbu].
  apply label_release; [done|apply list_elem_of_here].
Qed.

Section hooks.
Context (hook : nat -> string -> option (state -> state)).

(** The press of the mouse on a label runs its action, after the label, or the next view
    that accepts to, has become the key responder.  If the action returns true, no other view
    learns of the press or of the release, wherever that happens while the label is in the
    document; otherwise the press goes on to the ancestors. *)
Theorem label_click ev fuel v up w w0 :
  is_label v = true -> becomeKeyResponder hook fuel None v w = Some (Ok w0) ->
  chain (views w0) v (v :: up) -> length (v :: up) <= fuel ->
  let '(w1, b) := action_of v (set_mouse None w0) in
  if b then mouseDown handler hook fuel ev v w = Some (Ok (set_mouse (Some v) w1, false)) /\
            (inDOM (info w0 v) = true -> forall y ev', mouseUp handler fuel ev' y (set_mouse (Some v) w1) = Some (set_mouse None w1, false))
  else exists w2 r, bubbles handler "mouseDown" ev up w1 w2 r /\
            mouseDown handler hook fuel ev v w = Some (Ok (match r with Some h => set_mouse (Some h) w2 | None => w2 end, bool_decide (r = None))).
Proof.
  intros Hv Hb Hc Hl. destruct fuel as [|f]; [cbn in Hl; lia|]. unfold mouseDown. rewrite Hb. cbn [mbind option_bind].
  pose proof (label_press v "mouseDown" Hv ltac:(apply list_elem_of_here)) as Hd.
  destruct (dispatch_bubbles handler handler_laws "mouseDown" ev (S f) v (v :: up) (set_mouse None w0) Hc Hl) as (w2 & r & -> & Hbu & Hvw & _).
  destruct (action_of v (set_mouse None w0)) as [w1 b] eqn:Ea. pose proof (action_frame v (set_mouse None w0)) as [Hf1 Hf2]. rewrite Ea in Hf1, Hf2.
  assert (label_mouseDown ev v (set_mouse None w0) = (w1, if b then Handled else Passed)) as Hld by (unfold label_mouseDown; by rewrite Ea).
  inversion Hbu as [|? ? h ? ? H1 H2|? ? h ? ? H1 H2|? ? h ? ? ? ? H1 H2 H3|? ? ? ? ? H1]; subst; rewrite Hd in H1; try discriminate;
    injection H1 as <-; rewrite Hld in H2; destruct b; try discriminate; injection H2 as <-.
  - cbn [mbind option_bind]. rewrite bool_decide_false by done. split; [done|]. intros Hdom y ev'. unfold mouseUp. cbn [mouseResponder set_mouse].
    assert (info (set_mouse (Some v) w1) v = info w0 v) as -> by (unfold info; cbn in *; by rewrite Hf1). rewrite Hdom.
    rewrite dispatch_label by (done || apply list_elem_of_here). reflexivity.
  - exists w2, r. split; [done|]. done.
Qed.

(** A click on a disclosure view, whatever its ancestors do and wherever the mouse is
    released, turns the visibility of what it shows and hides, and that of nothing else. *)
Theorem disclosure_click_toggles ev ev' fuel v up w w0 y :
  kinds v = Disclosure -> becomeKeyResponder hook fuel None v w = Some (Ok w0) ->
  chain (views w0) v (v :: up) -> length (v :: up) <= fuel -> inDOM (info w0 v) = true ->
  exists w1 w2, mouseDown handler hook fuel ev v w = Some (Ok (w1, false)) /\ mouseUp handler fuel ev' y w1 = Some (w2, false) /\
    mouseResponder w2 = None /\ is_open v w2 = negb (is_open v w0) /\
    (forall v', v' <> v -> is_open v' w2 = is_open v' w0) /\ value (app w2) = value (app w0) /\ rest (app w2) = rest (app w0).
Proof.
  intros Hk Hb Hc Hl Hdom. assert (is_label v = true) as Hv by (unfold is_label; rewrite Hk; by apply bool_decide_true; clear; set_solver).
  destruct fuel as [|f]; [cbn in Hl; lia|].
  assert (_dispatch handler (S f) "mouseDown" ev v (set_mouse None w0) = Some (toggle v (set_mouse None w0), Some v)) as Hd.
  { cbn [_dispatch]. rewrite (label_press v "mouseDown" Hv) by apply list_elem_of_here. unfold label_mouseDown, action_of. by rewrite Hk. }
  exists (set_mouse (Some v) (toggle v (set_mouse None w0))), (toggle v (set_mouse None w0)).
  unfold mouseDown, mouseUp. rewrite Hb. cbn [mbind option_bind]. rewrite Hd. cbn [mbind option_bind mouseResponder set_mouse].
  change (info (set_mouse (Some v) (toggle v (set_mouse None w0))) v) with (info w0 v). rewrite Hdom.
  rewrite dispatch_label by (done || apply list_elem_of_here). split_and!; try done.
  - unfold is_open. cbn. by rewrite lookup_insert_eq.
  - intros v' Hne. unfold is_open. cbn. by rewrite lookup_insert_ne.
Qed.

(** The mouse over an input is left to the browser: no ancestor learns of its press, moves
    and release, whatever handlers it has, and nobody captures it.  And keys that are pressed
    in a text area are left to the browser, whatever handlers the area and its ancestors have. *)
Theorem input_keeps_events ev fuel v w : 0 < fuel ->
  (kinds v = Input ->
    (forall w0, becomeKeyResponder hook fuel None v w = Some (Ok w0) ->
      mouseDown handler hook fuel ev v w = Some (Ok (set_mouse None w0, true))) /\
    (mouseResponder w = None -> mouseMove handler fuel ev v w = Some (w, true) /\ mouseUp handler fuel ev v w = Some (w, true))) /\
  (kinds v = TextArea -> current w = Some v -> event_type ev = EKeyDown -> document_key handler fuel ev w = Some (w, true)).
Proof.
  intros Hf. destruct fuel as [|f]; [lia|]. split.
  - intros Hk. assert (forall n, n ∈ ["mouseDown"; "mouseMove"; "mouseUp"] -> forall w, _dispatch handler (S f) n ev v w = Some (w, None)) as Hd.
    { intros n Hn w'. cbn [_dispatch]. unfold handler, is_label. rewrite Hk. cbn [andb negb]. rewrite !(bool_decide_false (Input ∈ _)) by (clear; set_solver).
      cbn [andb]. rewrite (bool_decide_true (Input = Input)), (bool_decide_true (n ∈ _)) by done. done. }
    split.
    + intros w0 Hb. unfold mouseDown. rewrite Hb. cbn [mbind option_bind]. by rewrite Hd by (clear; set_solver).
    + intros Hm. unfold mouseMove, mouseUp. rewrite Hm. by rewrite !Hd by (clear; set_solver).
  - intros Hk Hc He. unfold document_key. rewrite Hc. destruct (_ && _); [|done]. cbn [handleKeyEvent]. rewrite He. cbn [mbind option_bind].
    unfold handler, is_label. rewrite Hk. by rewrite !(bool_decide_false (TextArea ∈ _)) by (clear; set_solver).
Qed.

End hooks.

(** ** Properties of search fields *)

(** The escape key. *)
Definition escape : ui_event := UIEvent EKeyDown 27 false.

Lemma cancel_search f : kinds f = SearchField -> handler f "cancel" = Some search_cancel.
Proof. intros Hk. unfold handler, is_label. rewrite Hk. by rewrite !(bool_decide_false (SearchField ∈ _)) by (clear; set_solver). Qed.

Lemma cancel_input c : kinds c = Input -> handler c "cancel" = Some input_cancel.
Proof. intros Hk. unfold handler, is_label. rewrite Hk. by rewrite !(bool_decide_false (Input ∈ _)) by (clear; set_solver). Qed.

Lemma other_keyDown v : kinds v = SearchField \/ kinds v = Input -> handler v "keyDown" = other v "keyDown".
Proof.
  intros Hk. unfold handler, is_label. destruct Hk as [-> | ->]; [rewrite !(bool_decide_false (SearchField ∈ _)) by (clear; set_solver)|rewrite !(bool_decide_false (Input ∈ _)) by (clear; set_solver)]; reflexivity.
Qed.

(** The escape key in a search field that has a text clears the field and reaches no other
    view; pressed again, it reaches the ancestors of the field, in their order, such as the
    panel that it closes.  The button for clearing is shown just before the first press. *)
Theorem escape_clears_then_passes fuel c f up w :
  kinds c = Input -> kinds f = SearchField -> other c "keyDown" = None -> other f "keyDown" = None ->
  current w = Some c -> isView (info w c) && isVisible (info w c) = true ->
  chain (views w) c (c :: f :: up) -> length (c :: f :: up) <= fuel -> clear_isVisible f w = true ->
  document_key handler fuel escape w = Some (clear f w, false) /\ clear_isVisible f (clear f w) = false /\
  (forall f', f' <> f -> text_of f' (clear f w) = text_of f' w) /\
  exists w' b, document_key handler fuel escape (clear f w) = Some (w', b) /\ key_bubbles handler escape up (clear f w) w' b.
Proof.
  intros Hc Hf Hoc Hof Hcur Hvis Hch Hl Hv. unfold clear_isVisible in Hv. apply negb_true_iff, bool_decide_eq_false in Hv.
  assert (forall w1, text_of f (clear f w1) = "") as Hcl by (intros w1; unfold text_of; cbn; by rewrite lookup_insert_eq).
  pose proof (other_keyDown c ltac:(auto)) as Kc. pose proof (other_keyDown f ltac:(auto)) as Kf. rewrite Hoc in Kc. rewrite Hof in Kf.
  assert (forall w1 w2 b, key_bubbles handler escape (c :: f :: up) w1 w2 b ->
    if bool_decide (text_of f w1 = "") then key_bubbles handler escape up w1 w2 b else w2 = clear f w1 /\ b = false) as Hkb.
  { intros w1 w2 b H.
    inversion H as [|? ? h ? ? ? H1 H2|? ? h ? ? ? H1 H2 H3 H4|? ? h ? ? ? ? H1 H2 H3 H4|? ? ? ? ? H1 H2 H3]; subst; cbn in H1; try congruence;
      cbn in H2; rewrite (cancel_input c Hc) in H2; try discriminate; injection H2 as <-; injection H3 as <-; try congruence.
    clear H. rename H4 into H.
    inversion H as [|? ? h ? ? ? H5 H6|? ? h ? ? ? H5 H6 H7 H8|? ? h ? ? ? ? H5 H6 H7 H8|? ? ? ? ? H5 H6 H7]; subst; cbn in H5; try congruence;
      cbn in H6; rewrite (cancel_search f Hf) in H6; try discriminate; injection H6 as <-; unfold search_cancel in H7;
      case_bool_decide; simplify_eq; done. }
  assert (forall w1, views w1 = views w -> _stack w1 = _stack w -> exists w2 b, document_key handler fuel escape w1 = Some (w2, b) /\
    key_bubbles handler escape (c :: f :: up) w1 w2 b) as Hdk.
  { intros w1 Hw Hs. unfold document_key. assert (current w1 = Some c) as -> by (unfold current; by rewrite Hs).
    assert (info w1 c = info w c) as -> by (unfold info; by rewrite Hw). rewrite Hvis.
    apply (key_event_bubbles handler handler_laws); [by rewrite Hw|done]. }
  split_and!.
  - destruct (Hdk w eq_refl eq_refl) as (w2 & b & E & Hb). apply Hkb in Hb. rewrite bool_decide_false in Hb by done. destruct Hb as [-> ->]. exact E.
  - unfold clear_isVisible. by rewrite Hcl, bool_decide_true.
  - intros f' Hne. unfold text_of. cbn. by rewrite lookup_insert_ne.
  - destruct (Hdk (clear f w) eq_refl eq_refl) as (w2 & b & E & Hb). apply Hkb in Hb. rewrite bool_decide_true in Hb by apply Hcl. eauto.
Qed.
End labels.

(** ** The line height of labels *)

Import Layout.

Definition px (h : lval) : string :=
  match h with LNum z => pretty z +:+ "px" | LStr s => s +:+ "px" | LNaN => "NaNpx" end.

(** [line-height], set before the bindings of the layout are resolved. *)
Definition line_height (allowWrapping : bool) (v : view) : option string :=
  if useAbsolutePosition v && negb allowWrapping then px <$> props (v_layout v) !! "height" else None.

(** [if (x) buffer.style(p, x)] *)
Definition put_style (p : string) (x : option string) (m : gmap string css_value) : gmap string css_value :=
  match x with Some "" | None => m | Some t => <[p := CText t]> m end.

(** [beforeRender] of a label; the rest is that of all views. *)
Definition label_beforeRender (get : nat -> string -> option lval) (o : nat) (allowWrapping : bool) (textOverflow whiteSpace : option string)
    (v : view) : gmap string css_value :=
  let own := put_style "white-space" whiteSpace (put_style "text-overflow" textOverflow (put_style "line-height" (line_height allowWrapping v) ∅)) in
  if useAbsolutePosition v then _translateLayout (v_layout (_resolveLayoutBindings get o v)) ∪ own else own.

(** How a value is written in a style; pixels are counted in halves. *)
Definition css_text (c : css_value) : string := match c with CPx h => pretty (h / 2)%Z +:+ "px" | CText s => s end.

Lemma put_other_style p q x (m : gmap string css_value) : p <> q -> put p x m !! q = m !! q.
Proof. intros H. destruct x; [by apply lookup_insert_ne|done]. Qed.

Lemma translate_line_height l : _translateLayout l !! "line-height" = None.
Proof.
  unfold _translateLayout. repeat case_match; repeat first [rewrite put_other_style by done | rewrite lookup_insert_ne by done]; apply lookup_empty.
Qed.

Lemma translate_height l h : props l !! "height" = Some h -> _translateLayout l !! "height" = Some (css_of h).
Proof.
  intros H. unfold _translateLayout. rewrite H. cbn [fmap option_fmap option_map].
  repeat case_match; repeat first [rewrite put_other_style by done | rewrite lookup_insert_ne by done]; apply lookup_insert_eq.
Qed.

Lemma append_longer (s t : string) : t <> "" -> s <> s +:+ t.
Proof. intros Ht H%(f_equal String.length). rewrite append_length in H. destruct t; [done|]. cbn in H. lia. Qed.

Lemma px_not_empty h : px h <> "".
Proof. assert (forall s, s +:+ "px" <> "") as H by (by intros []). destruct h; cbn; [apply H|apply H|done]. Qed.

(** The line of a label that does not wrap is as high as the label, in every rendering for
    which the bindings of the layout have been resolved: if, and only if, its height is not
    given in another unit than pixels, as a percentage is. *)
Theorem line_is_as_high_as_label get o textOverflow whiteSpace v h :
  useAbsolutePosition v = true -> _bindingsResolved (v_layout v) = true -> props (v_layout v) !! "height" = Some h ->
  let style := label_beforeRender get o false textOverflow whiteSpace v in
  css_text <$> style !! "line-height" = css_text <$> style !! "height" <-> (forall s, h = LStr s -> is_integer_string s = true).
Proof.
  intros Ha Hr Hh. cbv zeta. unfold label_beforeRender, _resolveLayoutBindings. rewrite Ha, Hr.
  assert (forall p x q (m : gmap string css_value), p <> q -> put_style p x m !! q = m !! q) as Hput.
  { intros p [[|c s]|] q m Hpq; try done. by apply lookup_insert_ne. }
  rewrite lookup_union_r by apply translate_line_height. rewrite !Hput by done.
  rewrite (lookup_union_Some_l _ _ _ _ (translate_height _ _ Hh)).
  assert (put_style "line-height" (line_height false v) ∅ !! "line-height" = Some (CText (px h))) as ->.
  { unfold line_height. rewrite Ha, Hh. cbn [andb negb fmap option_fmap option_map]. pose proof (px_not_empty h). unfold put_style.
    destruct (px h) as [|c s] eqn:E; [done|]. apply lookup_insert_eq. }
  cbn [fmap option_fmap option_map css_text]. destruct h as [z|s|]; cbn [px css_of].
  - cbn [css_text]. rewrite (Z.mul_comm 2 z), Z.div_mul by done. split; [by intros _|done].
  - destruct (is_integer_string s) eqn:E; cbn [css_text].
    + split; [by intros _ s' [= <-]|done].
    + split; [|intros H; specialize (H s eq_refl); congruence]. intros [= H]. by destruct (append_longer s "px" ltac:(done)).
  - split; [by intros _|done].
Qed.

(** ** Witnesses *)

(** Root 1 with a panel 2, which has a label 3, a disclosure view 4, a search field 5 with
    its input 6, and a text area 7. *)
Definition ex_small_views : gmap nat vinfo :=
  list_to_map [(1, ex_view None); (2, ex_view (Some 1)); (3, ex_view (Some 2)); (4, ex_view (Some 2)); (5, ex_view (Some 2)); (6, ex_view (Some 5)); (7, ex_view (Some 2))].
Definition ex_kinds (v : nat) : kind :=
  match v with 3 => Label | 4 => Disclosure | 5 => SearchField | 6 => Input | 7 => TextArea | _ => Other end.
Definition ex_small (stack : list nat) : world (small nat) := World (Small {[5 := "query"]} ∅ 0) ex_small_views stack None (list_to_set stack).
(** The action of the label counts and returns true. *)
Definition ex_fire (v : nat) (w : world (small nat)) : world (small nat) * bool :=
  (put_app (Small (value (app w)) (visibilityTarget (app w)) (S (rest (app w)))) w, true).
(** The panel handles the escape key and the mouse. *)
Definition ex_other (v : nat) (name : string) : option (ui_event -> nat -> world (small nat) -> world (small nat) * result) :=
  if bool_decide (v = 2) && bool_decide (name ∈ ["cancel"; "mouseDown"; "mouseUp"])
  then Some (fun _ _ w => (put_app (Small (value (app w)) (visibilityTarget (app w)) (100 + rest (app w))) w, Handled)) else None.
Definition ex_no_hook (v : nat) (name : string) : option (world (small nat) -> world (small nat)) := None.

Lemma ex_action_laws : ActionLaws ex_fire.
Proof. by split. Defined.
Lemma ex_other_laws : HandlerLaws ex_other.
Proof. split; intros v n h ev x w; unfold ex_other; destruct (_ && _); intros [= <-]; done. Defined.

Lemma small_chain v p : ex_small_views !! v ≫= EventManager.parentView = Some p -> p = 2 -> EventManager.chain ex_small_views v [v; 2; 1].
Proof. intros Hv ->. eapply EventManager.chain_up; [exact Hv|]. eapply EventManager.chain_up; [reflexivity|]. by apply EventManager.chain_root. Defined.
Lemma ex_chain_input : EventManager.chain ex_small_views 6 [6; 5; 2; 1].
Proof. eapply EventManager.chain_up; [reflexivity|]. by apply (small_chain 5 2). Defined.
Definition ex_click : ui_event := UIEvent EOther 0 false.

Lemma label_click_witness :
  mouseDown (handler ex_kinds ex_fire ex_other) ex_no_hook 3 ex_click 3 (ex_small [3]) =
    Some (Ok (set_mouse (Some 3) (ex_fire 3 (ex_small [3])).1, false)).
Proof.
  exact (proj1 (label_click ex_kinds ex_fire ex_other ex_action_laws ex_other_laws ex_no_hook ex_click 3 3 [2; 1] (ex_small [3]) (ex_small [3])
    eq_refl eq_refl (small_chain 3 2 eq_refl eq_refl) ltac:(cbn; lia))).
Defined.

Lemma label_stops_release_witness :
  exists w' r, mouseUp (handler ex_kinds ex_fire ex_other) 3 ex_click 3 (ex_small []) = Some (w', bool_decide (r = None)) /\
    bubbles (handler ex_kinds ex_fire ex_other) "mouseUp" ex_click [3] (ex_small []) w' r.
Proof.
  exact (label_stops_release ex_kinds ex_fire ex_other ex_action_laws ex_other_laws ex_click 3 3 [] 3 [2; 1] (ex_small [])
    eq_refl eq_refl (small_chain 3 2 eq_refl eq_refl) ltac:(cbn; lia)).
Defined.

Lemma disclosure_click_toggles_witness :
  exists w1 w2, mouseDown (handler ex_kinds ex_fire ex_other) ex_no_hook 3 ex_click 4 (ex_small [4]) = Some (Ok (w1, false)) /\
    mouseUp (handler ex_kinds ex_fire ex_other) 3 ex_click 2 w1 = Some (w2, false) /\ is_open 4 w2 = true.
Proof.
  destruct (disclosure_click_toggles ex_kinds ex_fire ex_other ex_no_hook ex_click ex_click 3 4 [2; 1] (ex_small [4]) (ex_small [4]) 2
    eq_refl eq_refl (small_chain 4 2 eq_refl eq_refl) ltac:(cbn; lia) eq_refl) as (w1 & w2 & E1 & E2 & _ & H & _).
  exists w1, w2. split; [exact E1|]. split; [exact E2|]. rewrite H. reflexivity.
Defined.

Lemma input_keeps_events_witness :
  mouseDown (handler ex_kinds ex_fire ex_other) ex_no_hook 4 ex_click 6 (ex_small [6]) = Some (Ok (ex_small [6], true)) /\
  document_key (handler ex_kinds ex_fire ex_other) 4 escape (ex_small [7]) = Some (ex_small [7], true).
Proof.
  split.
  - exact (proj1 (proj1 (input_keeps_events ex_kinds ex_fire ex_other ex_no_hook ex_click 4 6 (ex_small [6]) ltac:(lia)) eq_refl) (ex_small [6]) eq_refl).
  - exact (proj2 (input_keeps_events ex_kinds ex_fire ex_other ex_no_hook escape 4 7 (ex_small [7]) ltac:(lia)) eq_refl eq_refl eq_refl).
Defined.

Lemma escape_clears_then_passes_witness :
  document_key (handler ex_kinds ex_fire ex_other) 4 escape (ex_small [6]) = Some (clear 5 (ex_small [6]), false).
Proof.
  exact (proj1 (escape_clears_then_passes ex_kinds ex_fire ex_other ex_action_laws ex_other_laws 4 6 5 [2; 1] (ex_small [6])
    eq_refl eq_refl eq_refl eq_refl eq_refl eq_refl ex_chain_input ltac:(cbn; lia) eq_refl)).
Defined.

Definition a_label (h : lval) (resolved : bool) : view :=
  View (Layout {["height" := h]} None None None None None None resolved) None [] None false None false true None [].

Lemma line_is_as_high_as_label_witness :
  label_beforeRender (fun _ _ => None) 0 false None None (a_label (LNum 22) true) !! "line-height" = Some (CText "22px") /\
  css_text <$> label_beforeRender (fun _ _ => None) 0 false None None (a_label (LNum 22) true) !! "height" = Some "22px".
Proof.
  split; [reflexivity|]. etrans; [symmetry; apply (line_is_as_high_as_label (fun _ _ => None) 0 None None (a_label (LNum 22) true) (LNum 22)); done|reflexivity].
Defined.

(** ** Departures *)

(** The line height is taken from the layout before its bindings are resolved: in the first
    rendering it is the path of a bound height. *)
Lemma bound_height_line :
  let style := label_beforeRender (fun _ _ => Some (LNum 30)) 0 false None None (a_label (LStr "rowHeight") false) in
  style !! "height" = Some (CPx 60) /\ style !! "line-height" = Some (CText "rowHeightpx").
Proof. split; reflexivity. Qed.

(** The press on a label whose action returns nothing is passed on to the ancestors, which act
    on it a second time; the release of the same click is stopped at the label. *)
Lemma press_and_release_differ :
  exists w1 w2, mouseDown (handler ex_kinds (fun v w => ((ex_fire v w).1, false)) ex_other) ex_no_hook 3 ex_click 3 (ex_small [3]) = Some (Ok (w1, false)) /\
    rest (app w1) = 101 /\ mouseResponder w1 = Some 2 /\
    mouseUp (handler ex_kinds (fun v w => ((ex_fire v w).1, false)) ex_other) 3 ex_click 3 (set_mouse None w1) = Some (w2, false) /\ rest (app w2) = 101.
Proof. eexists _, _. vm_compute. split_and!; reflexivity. Qed.
