(* ===== verification/Measure.v ===== *)
(** * Measuring strings ([utils/string_measurement.js])

    Strings are measured in an element outside of the visible part of the page, which is
    made for the first measurement and used for all others. *)

From S2P Require Import Prelude.
Open Scope string_scope.
Open Scope list_scope.
Open Scope flame_scope.

(** The measuring element and the class of its parent. *)
Record mel := Mel { parentClass : string; className : string; cssText : string; innerHTML : string }.

(** The measuring elements in the page, and the one that is known by
    [metricsCalculationElement]. *)
Record page := Page { mels : list mel; metricsCalculationElement : option nat }.

Definition set_styles (pc ec css : string) (e : mel) : mel := Mel pc ec css (innerHTML e).
Definition set_html (h : string) (e : mel) : mel := Mel (parentClass e) (className e) (cssText e) h.

(** A string, or strings one below the other. *)
Inductive text := OneLine (s : string) | Lines (l : list string).

Definition fixed_style : string := "position:absolute; left: 0; top: 0; bottom: auto; right: auto; width: auto; height: auto;".

(** Arguments that are not given. *)
Definition or_empty (s : option string) : string := default "" s.

Definition setupStringMeasurement (parentClasses elementClasses additionalStyles : option string) (p : page) : page * nat :=
  let '(els, i) := match metricsCalculationElement p with
                   | Some i => (mels p, i)
                   | None => (mels p ++ [Mel "" "" "" ""], length (mels p))
                   end in
  (Page (alter (set_styles (or_empty parentClasses) (or_empty elementClasses) (fixed_style +:+ or_empty additionalStyles)) i els) (Some i), i).

Section measure.
Context (escape : string -> string).             (* [Handlebars.Utils.escapeExpression] *)
(** What the browser says of the width and height of an element. *)
Context (client : mel -> Z * Z).

Definition measuredString (t : text) : string :=
  match t with
  | OneLine s => escape s
  | Lines l => foldl (fun acc s => acc +:+ escape s +:+ "<br>") "" l
  end.

Definition measureString (t : text) (parentClasses elementClasses additionalStyles : option string) (p : page) : page * option (Z * Z) :=
  let '(p1, i) := setupStringMeasurement parentClasses elementClasses additionalStyles p in
  let els := alter (set_html (measuredString t)) i (mels p1) in
  (Page els (metricsCalculationElement p1), client <$> els !! i).

(** ** Properties *)

Record request := Request { r_text : text; r_parent : option string; r_element : option string; r_styles : option string }.

Fixpoint measure_all (l : list request) (p : page) : page * list (option (Z * Z)) :=
  match l with
  | [] => (p, [])
  | r :: l' =>
      let '(p1, x) := measureString (r_text r) (r_parent r) (r_element r) (r_styles r) p in
      let '(p2, xs) := measure_all l' p1 in (p2, x :: xs)
  end.

(** What a measurement says when nothing was measured before. *)
Definition measured (t : text) (parentClasses elementClasses additionalStyles : option string) : Z * Z :=
  client (Mel (or_empty parentClasses) (or_empty elementClasses) (fixed_style +:+ or_empty additionalStyles) (measuredString t)).

(** Nothing was measured yet, or there is the one element. *)
Definition one_element (p : page) : Prop :=
  p = Page [] None \/ exists e, p = Page [e] (Some 0).

Lemma measure_ok t pc ec st p : one_element p ->
  measureString t pc ec st p =
    (Page [Mel (or_empty pc) (or_empty ec) (fixed_style +:+ or_empty st) (measuredString t)] (Some 0), Some (measured t pc ec st)).
Proof. by intros [-> | [e ->]]. Qed.

(** Measurements do not depend on each other: each one gives what it would give as the
    first, and however many there are, one element is in the page for them. *)
Theorem measurements_independent l :
  (measure_all l (Page [] None)).2 = (fun r => Some (measured (r_text r) (r_parent r) (r_element r) (r_styles r))) <$> l /\
  length (mels (measure_all l (Page [] None)).1) = Nat.min 1 (length l).
Proof.
  assert (forall p, one_element p ->
    (measure_all l p).2 = (fun r => Some (measured (r_text r) (r_parent r) (r_element r) (r_styles r))) <$> l /\
    one_element (measure_all l p).1 /\ (metricsCalculationElement (measure_all l p).1 = None -> l = [])) as H.
  { induction l as [|r l IH]; intros p Hp; [done|]. cbn [measure_all]. rewrite (measure_ok _ _ _ _ p Hp).
    set (p1 := Page [_] _). destruct (IH p1) as (H1 & H2 & H3); [right; by eexists|].
    destruct (measure_all l p1) as [p2 xs] eqn:E. cbn in *. subst xs. split_and!; [done|done|].
    intros Hn. exfalso. rewrite (H3 Hn) in E. injection E as <-. done. }
  destruct (H (Page [] None)) as (H1 & H2 & H3); [by left|]. split; [done|].
  unfold one_element in H2. destruct H2 as [E|[e E]]; rewrite E in *; cbn in *; [by rewrite (H3 eq_refl)|].
  destruct l as [|r l]; [discriminate E|]. done.
Qed.
End measure.
