(* ===== verification/Validations.v ===== *)
(** * On-the-fly validation of models ([validations.js])

    A validatable object has a hash of validations.  The first question about
    validity creates one [...IsValid] property per validation, observes the
    validated properties and validates them all; from then on every change of a
    property re-validates it and the properties coupled to it.

    Validators are functions supplied by the application, of the object's
    properties, the validated key and its value. *)

From S2P Require Import Prelude.
From stdpp Require Import gmap.
Open Scope string_scope.
Open Scope list_scope.
Open Scope flame_scope.

(** ** Data *)

Abbreviation values := (gmap string jsval).

(** A [Validator] object reads the property itself, a function is given its value;
    an entry may also be [null]. *)
Inductive validator :=
| ValidatorObject (validate : values -> string -> jsval)
| ValidatorFunction (f : values -> jsval -> jsval)
| NoValidator.

Inductive coupled := NotCoupled | CoupledTo (keys : list string) | CoupledToNonArray.

(** What a key of the hash [validations] holds: one validator or an array of them
    (a single one is wrapped into an array), and the coupled properties. *)
Record validation := Validation { validators : list validator; coupledProperties : coupled }.

Record model := Model {
  props : values;
  validations : list (string * validation);
  _propertyValidity : gmap string jsval;
  created : gset string;          (* keys whose [...IsValid] property is defined *)
  observed : gset string;         (* keys observed by [validateProperty] *)
  _objectIsValid : jsval          (* [null] until initialised *)
}.

Definition set_props v m := Model v (validations m) (_propertyValidity m) (created m) (observed m) (_objectIsValid m).
Definition set_validations v m := Model (props m) v (_propertyValidity m) (created m) (observed m) (_objectIsValid m).
Definition set_validity v m := Model (props m) (validations m) v (created m) (observed m) (_objectIsValid m).
Definition set_created c m := Model (props m) (validations m) (_propertyValidity m) c (observed m) (_objectIsValid m).
Definition set_observed o m := Model (props m) (validations m) (_propertyValidity m) (created m) o (_objectIsValid m).
Definition set_objectIsValid v m := Model (props m) (validations m) (_propertyValidity m) (created m) (observed m) v.

Fixpoint assoc {A} (k : string) (l : list (string * A)) : option A :=
  match l with
  | [] => None
  | (k', a) :: l' => if bool_decide (k = k') then Some a else assoc k l'
  end.

Definition get (m : model) (k : string) : jsval := default JUndefined (props m !! k).
Definition keys (m : model) : list string := (validations m).*1.

(** ** Running validators *)

Definition _validate (v : validator) (m : model) (key : string) (value : jsval) : jsval :=
  match v with
  | ValidatorObject f => f (props m) key
  | ValidatorFunction f => f (props m) value
  | NoValidator => JNull
  end.

(** The loop that stops at the first validator that fails. *)
Fixpoint run_validators (vs : list validator) (m : model) (key : string) (value : jsval) (isValid : jsval) : jsval :=
  match vs with
  | [] => isValid
  | v :: vs' =>
      let isValid := _validate v m key value in
      if truthy isValid then run_validators vs' m key value isValid else isValid
  end.

(** A property without a validation is validated by [undefined], which gives [null]. *)
Definition verdict (m : model) (key : string) (value : jsval) : jsval :=
  match assoc key (validations m) with
  | Some v => run_validators (validators v) m key value JUndefined
  | None => JNull
  end.

(** The setter of an [...IsValid] property: [undefined] does nothing. *)
Definition store (key : string) (v : jsval) (m : model) : model :=
  match v with JUndefined => m | _ => set_validity (<[key := v]> (_propertyValidity m)) m end.

Definition validity (m : model) (key : string) : jsval := default JUndefined (_propertyValidity m !! key).

(** ** When all the [...IsValid] properties exist *)

Definition check_created (m : model) : bool := forallb (fun k => strict_eq (validity m k) (JBool true)) (keys m).

Definition validate_alone (key : string) (m : model) : model :=
  let m1 := store key (verdict m key (get m key)) m in
  set_objectIsValid (JBool (check_created m1)) m1.

Definition coupled_msg : string := "Hint: coupledProperties must be an array!".

Definition validate_created (key : string) (value : jsval) (m : model) : outcome model :=
  let value := match value with JUndefined => get m key | _ => value end in
  let m1 := store key (verdict m key value) m in
  do! m2 <- (match coupledProperties <$> assoc key (validations m) with
             | Some (CoupledTo ks) =>
                 Ok (foldl (fun m k => if bool_decide (k = key) then m else validate_alone k m) m1 ks)
             | Some CoupledToNonArray => Throw coupled_msg
             | _ => Ok m1
             end) ;
  Ok (set_objectIsValid (JBool (check_created m2)) m2).

Fixpoint validate_all (ks : list string) (m : model) : outcome model :=
  match ks with
  | [] => Ok m
  | k :: ks' =>
      do! m' <- validate_created k JUndefined (set_observed ({[k]} ∪ observed m) m) ;
      validate_all ks' m'
  end.

Definition _createIsValidProperties (m : model) : outcome model :=
  validate_all (keys m) (set_created (list_to_set (keys m) ∪ created m) m).

(** ** On demand *)

(** [this.get(key + 'IsValid')], through [unknownProperty] the first time. *)
Definition get_validity (key : string) (m : model) : outcome (model * jsval) :=
  if bool_decide (key ∈ created m) || negb (bool_decide (key ∈ keys m)) then Ok (m, validity m key)
  else do! m' <- _createIsValidProperties m ; Ok (m', validity m' key).

(** [this.set(key + 'IsValid', v)], through [setUnknownProperty] the first time. *)
Definition set_valid (key : string) (v : jsval) (m : model) : outcome model :=
  if bool_decide (key ∈ created m) || negb (bool_decide (key ∈ keys m)) then Ok (store key v m)
  else do! m' <- _createIsValidProperties m ; Ok (store key v m').

Fixpoint check_keys (ks : list string) (m : model) : outcome (model * bool) :=
  match ks with
  | [] => Ok (m, true)
  | k :: ks' =>
      do! r <- get_validity k m ;
      if strict_eq r.2 (JBool true) then check_keys ks' r.1 else Ok (r.1, false)
  end.

(** [_checkValidity()] *)
Definition _checkValidity (m : model) : outcome (model * bool) := check_keys (keys m) m.

Fixpoint validate_coupled (key : string) (ks : list string) (m : model) : outcome model :=
  match ks with
  | [] => Ok m
  | k :: ks' =>
      if bool_decide (k = key) then validate_coupled key ks' m
      else
        do! m1 <- set_valid k (verdict m k (get m k)) m ;
        do! r <- _checkValidity m1 ;
        validate_coupled key ks' (set_objectIsValid (JBool r.2) r.1)
  end.

(** [validateProperty]; its recursion ignores the coupled properties. *)
Definition validateProperty (key : string) (value : jsval) (m : model) : outcome model :=
  let value := match value with JUndefined => get m key | _ => value end in
  do! m1 <- set_valid key (verdict m key value) m ;
  do! m2 <- (match coupledProperties <$> assoc key (validations m) with
             | Some (CoupledTo ks) => validate_coupled key ks m1
             | Some CoupledToNonArray => Throw coupled_msg
             | _ => Ok m1
             end) ;
  do! r <- _checkValidity m2 ;
  Ok (set_objectIsValid (JBool r.2) r.1).

(** [this.get('isValid')] *)
Definition isValid (m : model) : outcome (model * jsval) :=
  match _objectIsValid m with
  | JNull =>
      do! r <- _checkValidity m ;
      Ok (set_objectIsValid (JBool r.2) r.1, JBool r.2)
  | v => Ok (m, v)
  end.

Fixpoint invalid_among (ks : list string) (m : model) : outcome (model * list string) :=
  match ks with
  | [] => Ok (m, [])
  | k :: ks' =>
      do! r <- get_validity k m ;
      do! r' <- invalid_among ks' r.1 ;
      Ok (r'.1, if strict_eq r.2 (JBool true) then r'.2 else k :: r'.2)
  end.
Definition invalidProperties (m : model) : outcome (model * list string) := invalid_among (keys m) m.

(** [this.set(key, value)] on a validated property: the observer runs when the
    value changes. *)
Definition set_property (key : string) (value : jsval) (m : model) : outcome model :=
  if strict_eq (get m key) value then Ok m
  else
    let m1 := set_props (<[key := value]> (props m)) m in
    if bool_decide (key ∈ observed m) then validateProperty key JUndefined m1 else Ok m1.

Fixpoint update {A} (k : string) (a : A) (l : list (string * A)) : list (string * A) :=
  match l with
  | [] => [(k, a)]
  | (k', a') :: l' => if bool_decide (k = k') then (k, a) :: l' else (k', a') :: update k a l'
  end.

Definition setValidationFor (key : string) (v : validation) (m : model) : outcome model :=
  let m1 := set_validations (update key v (validations m)) m in
  let m2 := set_created ({[key]} ∪ created m1) m1 in
  validateProperty key JUndefined (set_observed ({[key]} ∪ observed m2) m2).

(** ** Specification *)

(** Every [...IsValid] property exists and holds the verdict on the current
    properties, and [isValid] is their conjunction. *)
Record up_to_date (m : model) : Prop := {
  utd_created : list_to_set (keys m) ⊆ created m;
  utd_observed : list_to_set (keys m) ⊆ observed m;
  utd_verdicts k : k ∈ keys m -> validity m k = verdict m k (get m k);
  utd_object : _objectIsValid m = JBool (check_created m)
}.

(** Validators answer, and the hash is one, without coupling mistakes. *)
Record proper (m : model) : Prop := {
  keys_nodup : NoDup (keys m);
  verdicts_defined k p : k ∈ keys m -> verdict (set_props p m) k (default JUndefined (p !! k)) <> JUndefined;
  coupled_arrays k v : (k, v) ∈ validations m -> coupledProperties v <> CoupledToNonArray
}.

(** The verdict on [k] does not look at the property [k0]. *)
Definition independent (m : model) (k0 k : string) : Prop :=
  forall p v, verdict (set_props (<[k0 := v]> p) m) k (default JUndefined (<[k0 := v]> p !! k)) =
              verdict (set_props p m) k (default JUndefined (p !! k)).

Definition coupled_keys (m : model) (k : string) : list string :=
  match coupledProperties <$> assoc k (validations m) with Some (CoupledTo ks) => ks | _ => [] end.

(** ** Lemmas *)

(** What validation does not touch. *)
Definition same_object (m m' : model) : Prop :=
  props m' = props m /\ validations m' = validations m /\ created m' = created m /\ observed m' = observed m.

Lemma same_object_refl m : same_object m m.
Proof. done. Qed.
Lemma same_object_trans m1 m2 m3 : same_object m1 m2 -> same_object m2 m3 -> same_object m1 m3.
Proof. unfold same_object. intuition congruence. Qed.

Lemma same_object_verdict m m' k v : same_object m m' -> verdict m' k v = verdict m k v.
Proof.
  intros (Hp & Hv & _). unfold verdict. rewrite Hv. destruct (assoc k (validations m)) as [vl|]; [|done].
  generalize JUndefined. induction (validators vl) as [|f vs IH]; intros acc; cbn; [done|].
  assert (_validate f m' k v = _validate f m k v) as -> by (destruct f; cbn; by rewrite ?Hp).
  destruct (truthy _); [apply IH|done].
Qed.

Lemma same_object_get m m' k : same_object m m' -> get m' k = get m k.
Proof. intros (Hp & _). unfold get. by rewrite Hp. Qed.
Lemma same_object_keys m m' : same_object m m' -> keys m' = keys m.
Proof. intros (_ & Hv & _). unfold keys. by rewrite Hv. Qed.

Lemma store_facts k v m : same_object m (store k v m) /\ _objectIsValid (store k v m) = _objectIsValid m /\
  (v <> JUndefined -> forall k', validity (store k v m) k' = if bool_decide (k' = k) then v else validity m k').
Proof.
  split_and!; [by destruct v|by destruct v|]. intros Hv k'. unfold validity.
  assert (_propertyValidity (store k v m) = <[k := v]> (_propertyValidity m)) as -> by (by destruct v).
  case_bool_decide as E; [by subst; rewrite lookup_insert_eq|by rewrite lookup_insert_ne by congruence].
Qed.

Definition current (m : model) (k : string) : jsval := verdict m k (get m k).

Lemma same_object_current m m' k : same_object m m' -> current m' k = current m k.
Proof. intros H. unfold current. by rewrite (same_object_get m m'), (same_object_verdict m m'). Qed.

Lemma current_defined m k : proper m -> current m k <> JUndefined.
Proof.
  intros Hp. unfold current. destruct (decide (k ∈ keys m)) as [Hk|Hk].
  - pose proof (verdicts_defined m Hp k (props m) Hk) as H. by destruct m.
  - unfold verdict. assert (assoc k (validations m) = None) as ->; [|done].
    unfold keys in Hk. induction (validations m) as [|[k' v] l IH]; [done|]. cbn in *.
    rewrite bool_decide_eq_false_2 by set_solver. apply IH. set_solver.
Qed.

Lemma set_object_facts v m : same_object m (set_objectIsValid v m) /\ (forall k, validity (set_objectIsValid v m) k = validity m k).
Proof. done. Qed.

Lemma validate_alone_facts k m : current m k <> JUndefined ->
  same_object m (validate_alone k m) /\
  forall k', validity (validate_alone k m) k' = if bool_decide (k' = k) then current m k else validity m k'.
Proof.
  intros Hd. unfold validate_alone. destruct (store_facts k (verdict m k (get m k)) m) as (F & _ & V).
  split; [done|]. intros k'. by apply V.
Qed.

Lemma validate_alone_foldl key ks : forall m, (forall k, current m k <> JUndefined) ->
  let m' := foldl (fun m k => if bool_decide (k = key) then m else validate_alone k m) m ks in
  same_object m m' /\
  forall k, validity m' k = if bool_decide (k ∈ ks /\ k <> key) then current m k else validity m k.
Proof.
  induction ks as [|k0 ks IH]; intros m Hd; cbv zeta; cbn [foldl].
  { split; [done|]. intros k. by rewrite bool_decide_eq_false_2 by set_solver. }
  destruct (decide (k0 = key)) as [->|Hne].
  - rewrite bool_decide_eq_true_2 by done. destruct (IH m Hd) as [F V]. split; [done|]. intros k. rewrite V.
    by rewrite (bool_decide_ext (k ∈ key :: ks /\ k <> key) (k ∈ ks /\ k <> key)) by set_solver.
  - rewrite bool_decide_eq_false_2 by done. destruct (validate_alone_facts k0 m (Hd k0)) as [F0 V0].
    destruct (IH (validate_alone k0 m)) as [F V]; [intros k; by rewrite (same_object_current m)|].
    split; [by eapply same_object_trans|]. intros k. rewrite V, (same_object_current m) by done.
    destruct (decide (k ∈ ks /\ k <> key)) as [Hk|Hk].
    + rewrite !bool_decide_eq_true_2 by set_solver. done.
    + rewrite (bool_decide_eq_false_2 (k ∈ ks /\ k <> key)), V0 by done.
      destruct (decide (k = k0)) as [->|Hk0].
      * by rewrite !bool_decide_eq_true_2 by set_solver.
      * by rewrite !bool_decide_eq_false_2 by set_solver.
Qed.

(** What one validation does to the validity of every key. *)
Lemma validate_created_ok key m : proper m ->
  exists m', validate_created key JUndefined m = Ok m' /\ same_object m m' /\
    _objectIsValid m' = JBool (check_created m') /\
    forall k, validity m' k = if bool_decide (k = key \/ k ∈ coupled_keys m key) then current m k else validity m k.
Proof.
  intros Hp. unfold validate_created.
  destruct (store_facts key (verdict m key (get m key)) m) as (F1 & _ & V1).
  specialize (V1 (current_defined m key Hp)). set (m1 := store _ _ m) in *.
  enough (exists m2, (match coupledProperties <$> assoc key (validations m) with
     | Some (CoupledTo ks) => Ok (foldl (fun m k => if bool_decide (k = key) then m else validate_alone k m) m1 ks)
     | Some CoupledToNonArray => Throw coupled_msg | _ => Ok m1 end) = Ok m2 /\ same_object m m2 /\
     forall k, validity m2 k = if bool_decide (k = key \/ k ∈ coupled_keys m key) then current m k else validity m k)
    as (m2 & -> & F2 & V2).
  { cbn [outcome_bind]. eexists. split; [done|]. by split_and!. }
  unfold coupled_keys. destruct (assoc key (validations m)) as [[vs c]|] eqn:E; cbn [fmap option_fmap option_map coupledProperties].
  - destruct c as [|ks|].
    + exists m1. split_and!; [done|done|]. intros k. rewrite V1.
      destruct (decide (k = key)) as [->|]; [by rewrite !bool_decide_eq_true_2 by auto|].
      by rewrite !bool_decide_eq_false_2 by set_solver.
    + eexists. split; [done|].
      destruct (validate_alone_foldl key ks m1) as [F2 V2].
      { intros k. rewrite (same_object_current m) by done. by apply current_defined. }
      split; [by eapply same_object_trans|]. intros k. rewrite V2, (same_object_current m), V1 by done.
      destruct (decide (k = key)) as [->|Hk].
      * rewrite bool_decide_eq_false_2 by naive_solver. by rewrite !bool_decide_eq_true_2 by auto.
      * rewrite (bool_decide_eq_false_2 (k = key)) by done.
        by rewrite (bool_decide_ext (k ∈ ks /\ k <> key) (k = key \/ k ∈ ks)) by naive_solver.
    + exfalso. refine (coupled_arrays m Hp key (Validation vs CoupledToNonArray) _ eq_refl).
      clear -E. induction (validations m) as [|[k v] l IH]; [done|]. cbn in E.
      case_bool_decide as Hk; [injection E as ->; subst; by left|right; auto].
  - exists m1. split_and!; [done|done|]. intros k. rewrite V1.
    destruct (decide (k = key)) as [->|]; [by rewrite !bool_decide_eq_true_2 by auto|].
    by rewrite !bool_decide_eq_false_2 by set_solver.
Qed.

(** When the properties exist, the on-demand forms do nothing more. *)
Section all_created.
Context (m : model) (Hall : list_to_set (keys m) ⊆ created m).

Lemma get_validity_created k m' : same_object m m' -> get_validity k m' = Ok (m', validity m' k).
Proof.
  intros F. unfold get_validity. destruct (decide (k ∈ created m')) as [H|H]; [by rewrite bool_decide_eq_true_2|].
  rewrite (bool_decide_eq_false_2 (k ∈ keys m')); [by rewrite orb_true_r|].
  rewrite (same_object_keys m m') by done. destruct F as (_ & _ & Hc & _). rewrite Hc in H. set_solver.
Qed.

Lemma set_valid_created k v m' : same_object m m' -> set_valid k v m' = Ok (store k v m').
Proof.
  intros F. unfold set_valid. destruct (decide (k ∈ created m')) as [H|H]; [by rewrite bool_decide_eq_true_2|].
  rewrite (bool_decide_eq_false_2 (k ∈ keys m')); [by rewrite orb_true_r|].
  rewrite (same_object_keys m m') by done. destruct F as (_ & _ & Hc & _). rewrite Hc in H. set_solver.
Qed.

Lemma check_keys_created ks m' : same_object m m' ->
  check_keys ks m' = Ok (m', forallb (fun k => strict_eq (validity m' k) (JBool true)) ks).
Proof.
  intros F. induction ks as [|k ks IH]; [done|]. cbn [check_keys]. rewrite get_validity_created by done. cbn.
  destruct (strict_eq _ _); [by rewrite IH|done].
Qed.

Lemma check_created_ok m' : same_object m m' -> _checkValidity m' = Ok (m', check_created m').
Proof. intros F. unfold _checkValidity. by rewrite check_keys_created. Qed.

Lemma validate_coupled_created key ks : forall m', same_object m m' ->
  validate_coupled key ks m' =
  Ok (foldl (fun m k => if bool_decide (k = key) then m else validate_alone k m) m' ks).
Proof.
  induction ks as [|k ks IH]; intros m' F; [done|]. cbn [validate_coupled foldl]. case_bool_decide; [by apply IH|].
  rewrite set_valid_created by done. cbn [outcome_bind].
  destruct (store_facts k (verdict m' k (get m' k)) m') as (F1 & _).
  rewrite check_created_ok by (by eapply same_object_trans). cbn [outcome_bind fst snd].
  rewrite IH; [done|]. by eapply same_object_trans.
Qed.

Lemma validateProperty_created key m' : same_object m m' -> proper m' ->
  validateProperty key JUndefined m' = validate_created key JUndefined m'.
Proof.
  intros F Hp. unfold validateProperty, validate_created. rewrite set_valid_created by done. cbn [outcome_bind].
  destruct (store_facts key (verdict m' key (get m' key)) m') as (F1 & _).
  assert (Hgo : forall m2, same_object m' m2 ->
    (do! r <- _checkValidity m2 ; Ok (set_objectIsValid (JBool r.2) r.1)) = Ok (set_objectIsValid (JBool (check_created m2)) m2)).
  { intros m2 F2. rewrite check_created_ok; [done|]. by eapply same_object_trans. }
  destruct (coupledProperties <$> assoc key (validations m')) as [[|ks|]|]; cbn [outcome_bind];
    [by apply Hgo| |done|by apply Hgo].
  rewrite validate_coupled_created by (by eapply same_object_trans). cbn [outcome_bind]. apply Hgo.
  destruct (validate_alone_foldl key ks (store key (verdict m' key (get m' key)) m')) as [F2 _].
  { intros k. rewrite (same_object_current m') by done. by apply current_defined. }
  by eapply same_object_trans.
Qed.
End all_created.

Lemma verdict_ext m m' k v : props m' = props m -> validations m' = validations m -> verdict m' k v = verdict m k v.
Proof.
  intros Hp Hv. unfold verdict. rewrite Hv. destruct (assoc k (validations m)) as [vl|]; [|done].
  generalize JUndefined. induction (validators vl) as [|f vs IH]; intros acc; cbn; [done|].
  assert (_validate f m' k v = _validate f m k v) as -> by (destruct f; cbn; by rewrite ?Hp).
  destruct (truthy _); [apply IH|done].
Qed.

Lemma proper_ext m m' : validations m' = validations m -> proper m -> proper m'.
Proof.
  intros Hv [H1 H2 H3]. split.
  - unfold keys. by rewrite Hv.
  - intros k p Hk. unfold keys in *. rewrite Hv in Hk.
    rewrite (verdict_ext (set_props p m)) by (cbn; done). by apply H2.
  - intros k v. rewrite Hv. apply H3.
Qed.

Lemma current_ext m m' k : props m' = props m -> validations m' = validations m -> current m' k = current m k.
Proof. intros Hp Hv. unfold current, get. rewrite Hp. by apply verdict_ext. Qed.

(** Validating all the keys one after the other. *)
Lemma validate_all_ok ks : forall m, proper m ->
  exists m', validate_all ks m = Ok m' /\ props m' = props m /\ validations m' = validations m /\
    created m' = created m /\ observed m' = list_to_set ks ∪ observed m /\
    (ks = [] -> m' = m) /\ (ks <> [] -> _objectIsValid m' = JBool (check_created m')) /\
    forall k, (k ∈ ks -> validity m' k = current m k) /\ (validity m' k = current m k \/ validity m' k = validity m k).
Proof.
  induction ks as [|k ks IH]; intros m Hp.
  { exists m. split_and!; try done; [set_solver|]. intros k. split; [set_solver|by right]. }
  cbn [validate_all]. set (m0 := set_observed ({[k]} ∪ observed m) m).
  destruct (validate_created_ok k m0) as (m1 & -> & (P1 & V1 & C1 & O1) & Ho1 & Va1); [by apply (proper_ext m)|].
  cbn [outcome_bind]. destruct (IH m1) as (m2 & -> & P2 & V2 & C2 & O2 & Hnil & Ho2 & Va2).
  { apply (proper_ext m); [by rewrite V1|done]. }
  assert (Hcur : forall x, current m1 x = current m x) by (intros; apply current_ext; done).
  assert (Hcur0 : forall x, current m0 x = current m x) by (intros; apply current_ext; done).
  exists m2. split_and!; [done|by rewrite P2, P1|by rewrite V2, V1|by rewrite C2, C1|rewrite O2, O1; cbn; set_solver|done| |].
  - intros _. destruct (decide (ks = [])) as [E|E]; [by rewrite (Hnil E)|by apply Ho2].
  - intros x. destruct (Va2 x) as [H1 H2]. rewrite Hcur in *. specialize (Va1 x). rewrite Hcur0 in Va1. split.
    + intros [->|Hx]%elem_of_cons; [|by apply H1]. rewrite bool_decide_eq_true_2 in Va1 by auto.
      destruct H2; congruence.
    + destruct H2 as [H2|H2]; [by left|]. case_bool_decide; [left|right]; rewrite H2, Va1; done.
Qed.

Lemma model_create_ok m : proper m -> keys m <> [] ->
  exists m', _createIsValidProperties m = Ok m' /\ up_to_date m' /\
    props m' = props m /\ validations m' = validations m.
Proof.
  intros Hp Hne. unfold _createIsValidProperties. set (m0 := set_created _ m).
  destruct (validate_all_ok (keys m) m0) as (m' & Hm & P & V & C & O & _ & Ho & Va); [by apply (proper_ext m)|].
  exists m'. split; [done|]. split; [|done]. assert (Hk : keys m' = keys m) by (unfold keys; by rewrite V).
  split.
  - rewrite Hk, C. cbn. set_solver.
  - rewrite Hk, O. set_solver.
  - intros k Hin. rewrite Hk in Hin. rewrite (proj1 (Va k) Hin). symmetry. by apply current_ext.
  - by apply Ho.
Qed.

Lemma check_current m : up_to_date m -> check_created m = forallb (fun k => strict_eq (current m k) (JBool true)) (keys m).
Proof.
  intros [_ _ Hv _]. unfold check_created. revert Hv. generalize (keys m) as ks. induction ks as [|k ks IH]; intros Hv; [done|].
  cbn. rewrite (Hv k) by set_solver. rewrite IH by (intros; apply Hv; set_solver). done.
Qed.

Lemma up_to_date_object m b : up_to_date m -> b = check_created m -> up_to_date (set_objectIsValid (JBool b) m).
Proof.
  intros [U1 U2 U3 U4] ->. split; [done|done| |done]. intros k Hk.
  change (validity m k = verdict (set_objectIsValid (JBool (check_created m)) m) k (get m k)).
  rewrite (same_object_verdict m) by done. by apply U3.
Qed.

(** ** Properties *)

(** Asking a fresh object with validations for [isValid] creates the
    [...IsValid] properties, after which all of them are up to date, and answers
    whether every validation gives [true] on the current properties. *)
Theorem isValid_on_demand m :
  proper m -> keys m <> [] -> created m = ∅ -> _objectIsValid m = JNull ->
  exists m', isValid m = Ok (m', JBool (forallb (fun k => strict_eq (current m k) (JBool true)) (keys m))) /\
    up_to_date m' /\ props m' = props m.
Proof.
  intros Hp Hne Hc Ho. unfold isValid, _checkValidity. rewrite Ho.
  destruct (model_create_ok m Hp Hne) as (m1 & Hm1 & Hu & P & V).
  assert (Hk : keys m1 = keys m) by (unfold keys; by rewrite V).
  assert (Hcur : forall k, current m1 k = current m k) by (intros; by apply current_ext).
  assert (Hbs : check_keys (keys m) m = Ok (m1, forallb (fun k => strict_eq (current m k) (JBool true)) (keys m))).
  { destruct (keys m) as [|k ks] eqn:E; [done|]. cbn [check_keys]. unfold get_validity.
    rewrite Hc, bool_decide_eq_false_2, E, (bool_decide_eq_true_2 (k ∈ k :: ks)) by set_solver. cbn [orb negb].
    rewrite Hm1. cbn [outcome_bind fst snd].
    assert (Hvk : validity m1 k = current m k).
    { rewrite <- Hcur. apply (utd_verdicts m1 Hu). rewrite Hk. set_solver. }
    rewrite Hvk. cbn [forallb]. destruct (strict_eq _ _); [|done].
    rewrite (check_keys_created m1 (utd_created m1 Hu) ks m1 (same_object_refl m1)). cbn. f_equal. f_equal.
    assert (Hks : forall x, x ∈ ks -> validity m1 x = current m x).
    { intros x Hx. rewrite <- Hcur. apply (utd_verdicts m1 Hu). rewrite Hk. set_solver. }
    clear -Hks. induction ks as [|x ks IH]; [done|]. cbn. rewrite (Hks x) by set_solver.
    rewrite IH by (intros; apply Hks; set_solver). done. }
  rewrite Hbs. cbn [outcome_bind fst snd]. eexists. split; [done|]. split; [|done].
  apply up_to_date_object; [done|]. rewrite (check_current m1) by done. rewrite Hk.
  clear -Hcur. induction (keys m) as [|k ks IH]; [done|]. cbn. by rewrite Hcur, IH.
Qed.

(** C16. Setting a property of an up-to-date object leaves it up to date, as long as
    every validation that looks at the property is the property's own or that of a
    coupled property. *)
Theorem set_property_up_to_date m key value :
  proper m -> up_to_date m ->
  (forall k, k ∈ keys m -> k <> key -> k ∉ coupled_keys m key -> independent m key k) ->
  exists m', set_property key value m = Ok m' /\ up_to_date m' /\
    get m' key = value /\ (forall k, k <> key -> get m' k = get m k) /\ validations m' = validations m.
Proof.
  intros Hp Hu Hind. unfold set_property. destruct (strict_eq (get m key) value) eqn:Es.
  { exists m. split_and!; try done. destruct (get m key), value; cbn in Es; try done;
      by apply bool_decide_eq_true in Es. }
  set (m1 := set_props (<[key := value]> (props m)) m).
  assert (Hp1 : proper m1) by (by apply (proper_ext m)).
  assert (Hget : get m1 key = value /\ forall k, k <> key -> get m1 k = get m k).
  { unfold get, m1. cbn. split; [by rewrite lookup_insert_eq|]. intros k Hk. by rewrite lookup_insert_ne. }
  assert (Hcur : forall k, k ∈ keys m -> k <> key -> k ∉ coupled_keys m key -> validity m k = current m1 k).
  { intros k Hk Hne Hnc. rewrite (utd_verdicts m Hu) by done. symmetry.
    pose proof (Hind k Hk Hne Hnc (props m) value) as H. destruct m. exact H. }
  destruct (decide (key ∈ observed m)) as [Ho|Ho].
  - rewrite bool_decide_eq_true_2 by done.
    rewrite (validateProperty_created m1) by (done || apply Hu).
    destruct (validate_created_ok key m1 Hp1) as (m' & -> & F & Hob & Hv).
    exists m'. split; [done|]. destruct F as (P & V & C & O). split_and!.
    + split.
      * unfold keys. rewrite V, C. apply Hu.
      * unfold keys. rewrite V, O. apply Hu.
      * intros k Hk. unfold keys in Hk. rewrite V in Hk. rewrite Hv.
        change (verdict m' k (get m' k)) with (current m' k). rewrite (current_ext m1 m') by done.
        case_bool_decide as Hc; [done|]. apply Hcur; [done|naive_solver|naive_solver].
      * done.
    + unfold get. rewrite P. apply Hget.
    + intros k Hk. unfold get. rewrite P. by apply Hget.
    + done.
  - rewrite bool_decide_eq_false_2 by done. exists m1. split; [done|]. split_and!; [|by apply Hget|by apply Hget|done].
    assert (Hnk : key ∉ keys m) by (intros Hk; apply Ho; apply (utd_observed m Hu); set_solver).
    split; [apply Hu|apply Hu| |apply Hu]. intros k Hk. change (validity m k = current m1 k).
    apply Hcur; [done|by intros ->|]. unfold coupled_keys.
    assert (assoc key (validations m) = None) as ->; [|set_solver].
    unfold keys in Hnk. clear -Hnk. induction (validations m) as [|[k' v] l IH]; [done|]. cbn in *.
    rewrite bool_decide_eq_false_2 by set_solver. apply IH. set_solver.
Qed.

(** On an up-to-date object [invalidProperties] lists exactly the validated
    properties whose validation does not give [true], in order, and [isValid] is
    [true] exactly when there are none. *)
Theorem invalidProperties_correct m :
  up_to_date m ->
  let invalid := filter (fun k => current m k <> JBool true) (keys m) in
  invalidProperties m = Ok (m, invalid) /\
  isValid m = Ok (m, JBool (bool_decide (invalid = []))).
Proof.
  intros Hu. cbv zeta. split.
  - unfold invalidProperties.
    enough (forall ks, (forall k, k ∈ ks -> validity m k = current m k) ->
      invalid_among ks m = Ok (m, filter (fun k => current m k <> JBool true) ks)) as Hg by (apply Hg, Hu).
    induction ks as [|k ks IH]; intros Hv; [done|]. cbn [invalid_among].
    rewrite (get_validity_created m (utd_created m Hu)) by done. cbn [outcome_bind fst snd].
    rewrite IH by (intros; apply Hv; set_solver). cbn [outcome_bind fst snd].
    rewrite (Hv k) by set_solver. rewrite filter_cons.
    assert (strict_eq (current m k) (JBool true) = bool_decide (current m k = JBool true)) as ->
      by (by destruct (current m k)).
    destruct (decide (current m k = JBool true)) as [E|E].
    + rewrite bool_decide_eq_true_2, decide_False by (done || intros H; by apply H). done.
    + by rewrite bool_decide_eq_false_2, decide_True by done.
  - unfold isValid. rewrite (utd_object m Hu). f_equal. f_equal. f_equal. rewrite check_current by done.
    induction (keys m) as [|k ks IH]; [done|]. cbn [forallb]. rewrite filter_cons, IH.
    assert (strict_eq (current m k) (JBool true) = bool_decide (current m k = JBool true)) as ->
      by (by destruct (current m k)).
    destruct (decide (current m k = JBool true)) as [E|E].
    + rewrite bool_decide_eq_true_2, decide_False by (done || intros H; by apply H). done.
    + rewrite bool_decide_eq_false_2, decide_True by done. done.
Qed.

(** ** Witnesses *)

(** A password that must not be blank, and its repetition. *)
Definition ex_password : validation :=
  Validation [ValidatorFunction (fun _ v => JBool (truthy v))] (CoupledTo ["check"]).
Definition ex_check : validation :=
  Validation [ValidatorFunction (fun p v => JBool (strict_eq v (default JUndefined (p !! "password"))))] NotCoupled.
Definition ex_validations : list (string * validation) := [("password", ex_password); ("check", ex_check)].
Definition ex_model : model :=
  Model (list_to_map [("password", JStr "a"); ("check", JStr "a")]) ex_validations ∅ ∅ ∅ JNull.
Definition ex_valid : model :=
  match isValid ex_model with Ok (m, _) => m | Throw _ => ex_model end.

Lemma ex_proper m : validations m = ex_validations -> proper m.
Proof.
  intros Hv. apply (proper_ext ex_model); [done|]. split.
  - repeat constructor; set_solver.
  - intros k p Hk. unfold keys, ex_model, ex_validations in Hk. cbn in Hk. unfold verdict.
    apply elem_of_cons in Hk as [->|Hk]; [|apply list_elem_of_singleton in Hk as ->].
    + change (assoc "password" (validations (set_props p ex_model))) with (Some ex_password).
      cbn. by destruct (truthy _).
    + change (assoc "check" (validations (set_props p ex_model))) with (Some ex_check).
      cbn. by destruct (strict_eq _ _).
  - intros k v Hk. unfold ex_model, ex_validations in Hk. cbn in Hk.
    apply elem_of_cons in Hk as [[= -> ->]|Hk]; [done|]. by apply list_elem_of_singleton in Hk as [= -> ->].
Defined.

Lemma isValid_on_demand_witness :
  exists m', isValid ex_model = Ok (m', JBool true) /\ up_to_date m' /\ props m' = props ex_model.
Proof. apply (isValid_on_demand ex_model); [by apply ex_proper|discriminate|reflexivity|reflexivity]. Defined.

Lemma ex_valid_up_to_date : up_to_date ex_valid.
Proof.
  split; [vm_compute; set_solver|vm_compute; set_solver| |reflexivity].
  intros k Hk. unfold keys in Hk. cbn in Hk.
  apply elem_of_cons in Hk as [->|Hk]; [reflexivity|]. apply list_elem_of_singleton in Hk as ->. reflexivity.
Defined.

Lemma set_property_up_to_date_witness :
  exists m', set_property "password" (JStr "b") ex_valid = Ok m' /\ up_to_date m' /\
    get m' "password" = JStr "b" /\ (forall k, k <> "password" -> get m' k = get ex_valid k) /\
    validations m' = validations ex_valid.
Proof.
  apply (set_property_up_to_date ex_valid "password" (JStr "b")).
  - by apply ex_proper.
  - exact ex_valid_up_to_date.
  - intros k Hk Hne Hc. exfalso. unfold keys in Hk. cbn in Hk.
    apply elem_of_cons in Hk as [->|Hk]; [done|]. apply list_elem_of_singleton in Hk as ->.
    apply Hc. vm_compute. set_solver.
Defined.

Lemma invalidProperties_correct_witness :
  invalidProperties ex_valid = Ok (ex_valid, filter (fun k => current ex_valid k <> JBool true) (keys ex_valid)) /\
  isValid ex_valid = Ok (ex_valid, JBool (bool_decide (filter (fun k => current ex_valid k <> JBool true) (keys ex_valid) = []))).
Proof. exact (invalidProperties_correct ex_valid ex_valid_up_to_date). Defined.

(** A validation function that returns nothing for a bad value leaves the validity
    of the value before: the setter of the [...IsValid] property ignores
    [undefined]. *)
Definition ex_lax : model :=
  Model {["name" := JStr "a"]}
    [("name", Validation [ValidatorFunction (fun _ v => if truthy v then JBool true else JUndefined)] NotCoupled)]
    ∅ ∅ ∅ JNull.

Lemma undefined_verdict_keeps_valid :
  exists m1 m2, isValid ex_lax = Ok (m1, JBool true) /\ set_property "name" (JStr "") m1 = Ok m2 /\
    isValid m2 = Ok (m2, JBool true) /\ current m2 "name" = JUndefined.
Proof.
  eexists _, _. split; [vm_compute; reflexivity|]. split; [vm_compute; reflexivity|]. split; vm_compute; reflexivity.
Qed.
