(* ===== verification/Association.v ===== *)
(** * Objects validated with those they are associated with ([validators/association.js])

    The validator of an association asks the associated objects whether they are valid,
    which may ask those that they are associated with.  An object answers from what it
    remembers, once it has been asked; while it is still finding out it takes itself for
    invalid, since a property without a verdict is not valid.  The verdicts of the other
    properties of an object, which are those of [Validations], are taken together. *)

From S2P Require Import Prelude.
From stdpp Require Import gmap relations.
Open Scope string_scope.
Open Scope list_scope.
Open Scope flame_scope.

(** The value of an associated property. *)
Inductive association := One (o : option nat) | Many (l : list nat).

Record vobject := VObject {
  own : bool;                        (* all other properties are valid *)
  associations : list association
}.

Section objects.
Context (objects : gmap nat vobject).

(** [_objectIsValid] of the objects that have been asked. *)
Abbreviation verdicts := (gmap nat bool).
Definition asker : Type := nat -> verdicts -> option (verdicts * bool).

(** [every]: the first that is not valid ends the questions. *)
Fixpoint every (ask : asker) (l : list nat) (c : verdicts) : option (verdicts * bool) :=
  match l with
  | [] => Some (c, true)
  | o :: l' =>
      r ← ask o c;
      if (r : verdicts * bool).2 then every ask l' r.1 else Some (r.1, false)
  end.

Definition validate (ask : asker) (a : association) (c : verdicts) : option (verdicts * bool) :=
  match a with
  | One None => Some (c, true)
  | One (Some o) => ask o c
  | Many l => every ask l c
  end.

(** [_createIsValidProperties]: all properties get their verdicts. *)
Fixpoint validate_all (ask : asker) (l : list association) (c : verdicts) : option (verdicts * bool) :=
  match l with
  | [] => Some (c, true)
  | a :: l' =>
      r ← validate ask a c;
      r' ← validate_all ask l' (r : verdicts * bool).1;
      Some ((r' : verdicts * bool).1, r.2 && r'.2)
  end.

(** [get('isValid')] *)
Fixpoint isValid (fuel : nat) (o : nat) (c : verdicts) : option (verdicts * bool) :=
  match fuel with
  | 0 => None
  | S n =>
      match c !! o with
      | Some b => Some (c, b)
      | None =>
          x ← objects !! o;
          r ← validate_all (isValid n) (associations x) (<[o := false]> c);
          let b := own x && (r : verdicts * bool).2 in
          Some (<[o := b]> r.1, b)
      end
  end.

(** The associations are validated again, up to the first that is not valid. *)
Fixpoint revalidate (ask : asker) (l : list association) (c : verdicts) : option (verdicts * bool) :=
  match l with
  | [] => Some (c, true)
  | a :: l' =>
      r ← validate ask a c;
      if (r : verdicts * bool).2 then revalidate ask l' r.1 else Some (r.1, false)
  end.

(** [_checkValidity(true)], the associations being the last properties: the validators of
    associations are not told that they are to validate again, too. *)
Definition recheck (n : nat) (o : nat) (c : verdicts) : option (verdicts * bool) :=
  x ← objects !! o;
  r ← (if own x then revalidate (isValid n) (associations x) c else Some (c, false));
  Some (<[o := (r : verdicts * bool).2]> r.1, r.2).

(** [validate] with [forceRevalidation]. *)
Definition validate_forced (n : nat) (a : association) (c : verdicts) : option (verdicts * bool) :=
  validate (recheck n) a c.

(** ** Specification *)

Definition targets (a : association) : list nat := match a with One None => [] | One (Some o) => [o] | Many l => l end.

Definition linked (o o' : nat) : Prop := exists x, objects !! o = Some x /\ o' ∈ concat (targets <$> associations x).

Definition own_valid (o : nat) : Prop := exists x, objects !! o = Some x /\ own x = true.

(** The object and all it is associated with, however far. *)
Definition all_valid (o : nat) : Prop := forall o', rtc linked o o' -> own_valid o'.

Record acyclic (rank : nat -> nat) : Prop := {
  ac_rank o o' : linked o o' -> rank o' < rank o;
  ac_objects o o' : linked o o' -> is_Some (objects !! o')
}.

(** What is remembered is right, but for the objects that are still being asked. *)
Definition right (busy : list nat) (c : verdicts) : Prop :=
  forall o b, c !! o = Some b -> o ∉ busy -> (b = true <-> all_valid o).

Lemma all_valid_step o x : objects !! o = Some x ->
  all_valid o <-> own x = true /\ Forall all_valid (concat (targets <$> associations x)).
Proof.
  intros Hx. split.
  - intros H. split; [destruct (H o (rtc_refl _ _)) as (x' & Hx' & Ho); congruence|].
    apply Forall_forall. intros o1 Ho1 o2 H2. apply H. eapply rtc_l; [|exact H2]. by exists x.
  - intros [Ho Hf] o2 H2. inversion H2 as [|? o1 ? (x1 & Hx1 & Hin) H1]; subst; [by exists x|].
    rewrite Hx in Hx1. injection Hx1 as <-. rewrite Forall_forall in Hf. by apply (Hf o1).
Qed.

(** The object asked answers rightly, remembers rightly, and those busy stay so. *)
Definition answers (busy : list nat) (ask : asker) (o : nat) : Prop :=
  forall c, right busy c -> exists c' b, ask o c = Some (c', b) /\ (b = true <-> all_valid o) /\ right busy c' /\
    forall o', o' ∈ busy -> c' !! o' = c !! o'.

Lemma every_answers busy ask l c : Forall (answers busy ask) l -> right busy c ->
  exists c' b, every ask l c = Some (c', b) /\ (b = true <-> Forall all_valid l) /\ right busy c' /\
    forall o', o' ∈ busy -> c' !! o' = c !! o'.
Proof.
  intros Hl. revert c. induction Hl as [|o l Ho _ IH]; intros c Hc; cbn [every].
  { exists c, true. by split_and!. }
  destruct (Ho c Hc) as (c1 & b & -> & Hb & Hc1 & Hk1). cbn [mbind option_bind snd fst]. destruct b.
  - destruct (IH c1 Hc1) as (c2 & b & -> & Hb2 & Hc2 & Hk2). exists c2, b. split_and!; [done|rewrite Forall_cons; naive_solver|done|].
    intros o' Ho'. by rewrite Hk2, Hk1.
  - exists c1, false. split_and!; [done|rewrite Forall_cons; naive_solver|done|done].
Qed.

Lemma validate_answers busy ask a c : Forall (answers busy ask) (targets a) -> right busy c ->
  exists c' b, validate ask a c = Some (c', b) /\ (b = true <-> Forall all_valid (targets a)) /\ right busy c' /\
    forall o', o' ∈ busy -> c' !! o' = c !! o'.
Proof.
  destruct a as [[o|]|l]; cbn [targets validate]; intros Hl Hc.
  - rewrite Forall_singleton in Hl. destruct (Hl c Hc) as (c' & b & E & Hb & H1 & H2). exists c', b.
    split_and!; [done|by rewrite Forall_singleton|done|done].
  - exists c, true. by split_and!.
  - by apply every_answers.
Qed.

Lemma validate_all_answers busy ask l : forall c, Forall (answers busy ask) (concat (targets <$> l)) -> right busy c ->
  exists c' b, validate_all ask l c = Some (c', b) /\ (b = true <-> Forall all_valid (concat (targets <$> l))) /\ right busy c' /\
    forall o', o' ∈ busy -> c' !! o' = c !! o'.
Proof.
  induction l as [|a l IH]; intros c Hl Hc; cbn [validate_all fmap list_fmap concat] in *.
  { exists c, true. by split_and!. }
  apply Forall_app in Hl as [Ha Hl]. destruct (validate_answers busy ask a c Ha Hc) as (c1 & b1 & -> & Hb1 & Hc1 & Hk1).
  cbn [mbind option_bind fst snd]. destruct (IH c1 Hl Hc1) as (c2 & b2 & -> & Hb2 & Hc2 & Hk2). exists c2, (b1 && b2).
  split_and!; [done| |done|by intros o' Ho'; rewrite Hk2, Hk1]. rewrite Forall_app, andb_true_iff. naive_solver.
Qed.

Lemma right_busy busy o c : right busy c -> c !! o = None -> right (o :: busy) (<[o := false]> c).
Proof.
  intros Hc Hn o' b Ho' Hnb. rewrite lookup_insert_ne in Ho' by set_solver. apply (Hc o' b Ho'). set_solver.
Qed.

Lemma right_done busy o b c : right (o :: busy) c -> (b = true <-> all_valid o) -> right busy (<[o := b]> c).
Proof.
  intros Hc Hb o' b' Ho' Hnb. destruct (decide (o' = o)) as [->|Hne].
  - rewrite lookup_insert_eq in Ho'. by injection Ho' as <-.
  - rewrite lookup_insert_ne in Ho' by done. apply (Hc o' b' Ho'). set_solver.
Qed.

(** Asking an object that is not busy, and of lower rank than those that are. *)
Lemma isValid_answers rank busy : acyclic rank -> forall n o,
  rank o < n -> is_Some (objects !! o) -> (forall o', o' ∈ busy -> rank o < rank o') -> answers busy (isValid n) o.
Proof.
  intros Hac n. revert busy. induction n as [|n IH]; intros busy o Hn [x Hx] Hb c Hc; [lia|]. cbn [isValid].
  destruct (c !! o) as [b|] eqn:Ec.
  { exists c, b. split_and!; [done| |done|done]. apply (Hc o b Ec). intros Hin. specialize (Hb o Hin). lia. }
  rewrite Hx. cbn [mbind option_bind].
  destruct (validate_all_answers (o :: busy) (isValid n) (associations x) (<[o := false]> c)) as (c' & b & -> & Hv & Hc' & Hk).
  - apply Forall_forall. intros o' Ho'. assert (linked o o') as Hl by (by exists x). pose proof (ac_rank rank Hac o o' Hl).
    apply IH; [lia|by apply (ac_objects rank Hac o)|]. intros o2 [->|Ho2]%elem_of_cons; [done|]. specialize (Hb o2 Ho2). lia.
  - by apply right_busy.
  - cbn [fst snd]. assert (own x && b = true <-> all_valid o) as Hall by (by rewrite (all_valid_step o x Hx), andb_true_iff, Hv).
    exists (<[o := own x && b]> c'), (own x && b). split_and!; [done|exact Hall|by apply right_done|].
    intros o' Ho'. assert (o' <> o) as Hne by (intros ->; specialize (Hb o Ho'); lia).
    rewrite lookup_insert_ne by done. rewrite Hk by set_solver. by rewrite lookup_insert_ne.
Qed.

(** ** Properties *)

End objects.

(** ** Witness and departures *)

(** A family: 1 has the children 2 and 3, and 3 has 4. *)
Definition ex_objects (b4 : bool) : gmap nat vobject :=
  {[1 := VObject true [Many [2; 3]]; 2 := VObject true [One None]; 3 := VObject true [One (Some 4)]; 4 := VObject b4 []]}.

Lemma ex_linked b4 o o' : linked (ex_objects b4) o o' -> (o, o') ∈ [(1, 2); (1, 3); (3, 4)].
Proof.
  intros (x & Hx & Hin). unfold ex_objects in Hx. rewrite !lookup_insert_Some, lookup_singleton_Some in Hx.
  destruct Hx as [[<- <-]|[_ [[<- <-]|[_ [[<- <-]|[_ [<- <-]]]]]]]; cbn in Hin; set_solver.
Defined.

Lemma ex_acyclic b4 : acyclic (ex_objects b4) (fun o => 4 - o).
Proof.
  split; intros o o' H%ex_linked; repeat (apply elem_of_cons in H as [H|H]; [injection H as -> ->|]); try (by apply elem_of_nil in H); try lia; by eexists.
Defined.


(** What is remembered is not asked again: when 4 becomes valid, 1 stays invalid. *)
Lemma verdict_goes_stale :
  (r ← isValid (ex_objects false) 4 1 ∅; r' ← isValid (ex_objects true) 4 1 (<[4 := true]> (r : gmap nat bool * bool).1); Some (r' : gmap nat bool * bool).2) = Some false.
Proof. vm_compute. reflexivity. Qed.

(** Forcing revalidation reaches the associated object, but not those it is associated with:
    3 is found valid when 4 has become valid, and 1 is not. *)
Lemma force_reaches_one_level :
  (r ← isValid (ex_objects false) 4 1 ∅;
   let c := <[4 := true]> (r : gmap nat bool * bool).1 in
   r1 ← validate_forced (ex_objects true) 4 (One (Some 3)) c;
   r2 ← validate_forced (ex_objects true) 4 (One (Some 1)) c;
   Some ((r1 : gmap nat bool * bool).2, (r2 : gmap nat bool * bool).2)) = Some (true, false).
Proof. vm_compute. reflexivity. Qed.

(** Two objects associated with each other are never valid. *)
Lemma circle_is_invalid :
  snd <$> isValid {[1 := VObject true [One (Some 2)]; 2 := VObject true [One (Some 1)]]} 3 1 ∅ = Some false.
Proof. vm_compute. reflexivity. Qed.
