(* ===== verification/Validators.v ===== *)
(** * The validators of single values ([validators/email.js], [number.js], [not_blank.js])

    Validators that test a value by a regular expression, as a number or for being blank.
    Regular expressions are matched by derivatives; the matching is proved to be that of the
    language they denote.  How validators are run is in [Validations]. *)

From S2P Require Import Prelude.
From S2P Require Import Validations.
Open Scope list_scope.
Open Scope flame_scope.

(** ** Regular expressions *)

Abbreviation char := Ascii.ascii.

Inductive re :=
| Nothing
| Eps
| Chr (p : char -> bool)
| Seq (r1 r2 : re)
| Alt (r1 r2 : re)
| Star (r : re).

Fixpoint nullable (r : re) : bool :=
  match r with
  | Nothing | Chr _ => false
  | Eps | Star _ => true
  | Seq r1 r2 => nullable r1 && nullable r2
  | Alt r1 r2 => nullable r1 || nullable r2
  end.

Fixpoint deriv (c : char) (r : re) : re :=
  match r with
  | Nothing | Eps => Nothing
  | Chr p => if p c then Eps else Nothing
  | Seq r1 r2 => if nullable r1 then Alt (Seq (deriv c r1) r2) (deriv c r2) else Seq (deriv c r1) r2
  | Alt r1 r2 => Alt (deriv c r1) (deriv c r2)
  | Star r => Seq (deriv c r) (Star r)
  end.

(** An expression between [^] and [$]. *)
Fixpoint test (r : re) (s : list char) : bool :=
  match s with [] => nullable r | c :: s' => test (deriv c r) s' end.

(** The language of an expression. *)
Inductive matches : re -> list char -> Prop :=
| m_eps : matches Eps []
| m_chr p c : p c = true -> matches (Chr p) [c]
| m_seq r1 r2 s1 s2 : matches r1 s1 -> matches r2 s2 -> matches (Seq r1 r2) (s1 ++ s2)
| m_alt_l r1 r2 s : matches r1 s -> matches (Alt r1 r2) s
| m_alt_r r1 r2 s : matches r2 s -> matches (Alt r1 r2) s
| m_star_nil r : matches (Star r) []
| m_star_cons r s1 s2 : matches r s1 -> matches (Star r) s2 -> matches (Star r) (s1 ++ s2).

Definition plus (r : re) : re := Seq r (Star r).
Definition opt (r : re) : re := Alt Eps r.

(** [r{lo,hi}] *)
Fixpoint at_most (n : nat) (r : re) : re := match n with 0 => Eps | S n' => opt (Seq r (at_most n' r)) end.
Fixpoint exactly (n : nat) (r : re) : re := match n with 0 => Eps | S n' => Seq r (exactly n' r) end.
Definition between (lo hi : nat) (r : re) : re := Seq (exactly lo r) (at_most (hi - lo) r).

Lemma nullable_ok r : nullable r = true <-> matches r [].
Proof.
  induction r as [| |p|r1 IH1 r2 IH2|r1 IH1 r2 IH2|r IH]; cbn [nullable].
  - split; [done|inversion 1].
  - split; [constructor|done].
  - split; [done|inversion 1].
  - rewrite andb_true_iff, IH1, IH2. split.
    + intros [H1 H2]. apply (m_seq r1 r2 [] [] H1 H2).
    + inversion 1 as [| |? ? s1 s2 H1 H2| | | |]; subst. by destruct s1, s2.
  - rewrite orb_true_iff, IH1, IH2. split; [intros [?|?]; [by apply m_alt_l|by apply m_alt_r]|]. inversion 1; auto.
  - split; [constructor|done].
Qed.

Lemma star_cons_inv r c s : matches (Star r) (c :: s) -> exists s1 s2, s = s1 ++ s2 /\ matches r (c :: s1) /\ matches (Star r) s2.
Proof.
  intros H. remember (Star r) as r0 eqn:Er. remember (c :: s) as t eqn:Et. revert c s Et.
  induction H as [| | | | | |r' s1 s2 H1 _ H2 IH2]; intros ch t0 Et; try discriminate Er; [discriminate Et|]. injection Er as ->.
  destruct s1 as [|a s1]; cbn in Et; [by apply IH2|]. injection Et as -> <-. by exists s1, s2.
Qed.

Lemma deriv_ok c r : forall s, matches (deriv c r) s <-> matches r (c :: s).
Proof.
  induction r as [| |p|r1 IH1 r2 IH2|r1 IH1 r2 IH2|r IH]; intros s; cbn [deriv].
  - split; inversion 1.
  - split; inversion 1.
  - destruct (p c) eqn:E; split; inversion 1; subst; try congruence; by constructor.
  - assert (matches (Seq (deriv c r1) r2) s <-> exists s1 s2, s = s1 ++ s2 /\ matches r1 (c :: s1) /\ matches r2 s2) as Hs.
    { split.
      - inversion 1 as [| |? ? s1 s2 H1 H2 E Hs| | | |]; subst. exists s1, s2. by rewrite <- IH1.
      - intros (s1 & s2 & -> & H1 & H2). constructor; [by apply IH1|done]. }
    assert (matches (Seq r1 r2) (c :: s) <-> (exists s1 s2, s = s1 ++ s2 /\ matches r1 (c :: s1) /\ matches r2 s2) \/ (matches r1 [] /\ matches r2 (c :: s))) as Hq.
    { split.
      - inversion 1 as [| |? ? s1 s2 H1 H2 E Hs'| | | |]; subst. destruct s1 as [|a s1]; cbn in *.
        + right. by subst.
        + left. injection Hs' as -> <-. by exists s1, s2.
      - intros [(s1 & s2 & -> & H1 & H2)|[H1 H2]]; [exact (m_seq r1 r2 (c :: s1) s2 H1 H2)|exact (m_seq r1 r2 [] (c :: s) H1 H2)]. }
    rewrite Hq. destruct (nullable r1) eqn:En.
    + apply nullable_ok in En. split.
      * inversion 1; subst; [left; by apply Hs|right; split; [done|by apply IH2]].
      * intros [H|[_ H]]; [apply m_alt_l; by apply Hs|apply m_alt_r; by apply IH2].
    + rewrite Hs. split; [by left|]. intros [H|[H _]]; [done|]. apply nullable_ok in H. congruence.
  - split.
    + inversion 1; subst; [apply m_alt_l; by apply IH1|apply m_alt_r; by apply IH2].
    + inversion 1; subst; [apply m_alt_l; by apply IH1|apply m_alt_r; by apply IH2].
  - split.
    + inversion 1 as [| |? ? s1 s2 H1 H2 E Hs| | | |]; subst. apply IH in H1. exact (m_star_cons r (c :: s1) s2 H1 H2).
    + intros (s1 & s2 & -> & H1 & H2)%star_cons_inv. constructor; [by apply IH|done].
Qed.

Lemma test_ok r s : test r s = true <-> matches r s.
Proof. revert r. induction s as [|c s IH]; intros r; cbn [test]; [apply nullable_ok|]. by rewrite IH, deriv_ok. Qed.

Lemma matches_chr p s : matches (Chr p) s <-> exists c, s = [c] /\ p c = true.
Proof. split; [inversion 1; subst; eauto|]. intros (c & -> & H). by constructor. Qed.

Lemma matches_seq r1 r2 s : matches (Seq r1 r2) s <-> exists s1 s2, s = s1 ++ s2 /\ matches r1 s1 /\ matches r2 s2.
Proof. split; [inversion 1; subst; eauto 6|]. intros (s1 & s2 & -> & H1 & H2). by constructor. Qed.

Lemma matches_alt r1 r2 s : matches (Alt r1 r2) s <-> matches r1 s \/ matches r2 s.
Proof. split; [inversion 1; subst; auto|]. intros [H|H]; [by apply m_alt_l|by apply m_alt_r]. Qed.

Lemma matches_eps s : matches Eps s <-> s = [].
Proof. split; [by inversion 1|]. intros ->. constructor. Qed.

Lemma star_chars p s : matches (Star (Chr p)) s <-> Forall (fun c => p c = true) s.
Proof.
  split.
  - induction s as [|c s IH]; [done|]. intros (s1 & s2 & -> & (c' & E & Hc)%matches_chr & H2)%star_cons_inv.
    injection E as -> ->. constructor; [done|]. by apply IH.
  - induction 1 as [|c s Hc _ IH]; [constructor|]. apply (m_star_cons _ [c] s); [by constructor|done].
Qed.

Lemma plus_chars p s : matches (plus (Chr p)) s <-> Forall (fun c => p c = true) s /\ s <> [].
Proof.
  unfold plus. rewrite matches_seq. split.
  - intros (s1 & s2 & -> & (c & -> & Hc)%matches_chr & H2%star_chars). by split; [constructor|].
  - intros [H Hn]. destruct s as [|c s]; [done|]. apply Forall_cons in H as [Hc H].
    exists [c], s. split; [done|]. split; [by constructor|by apply star_chars].
Qed.

Lemma between_chars lo hi p s :
  lo <= hi -> matches (between lo hi (Chr p)) s <-> Forall (fun c => p c = true) s /\ lo <= length s <= hi.
Proof.
  intros Hle. assert (forall n s, matches (exactly n (Chr p)) s <-> Forall (fun c => p c = true) s /\ length s = n) as He.
  { clear. induction n as [|n IH]; intros s; cbn [exactly].
    - rewrite matches_eps. destruct s; cbn; (split; [try done|intros [_ ?]; try done; lia]).
    - rewrite matches_seq. setoid_rewrite matches_chr. setoid_rewrite IH. split.
      + intros (s1 & s2 & -> & (c & -> & Hc) & H2 & <-). split; [by constructor|done].
      + intros [H Hl]. destruct s as [|c s]; [done|]. apply Forall_cons in H as [Hc H]. injection Hl as <-. exists [c], s. split_and!; eauto. }
  assert (forall n s, matches (at_most n (Chr p)) s <-> Forall (fun c => p c = true) s /\ length s <= n) as Ha.
  { clear. induction n as [|n IH]; intros s; cbn [at_most].
    - rewrite matches_eps. destruct s; cbn; (split; [try done|intros [_ ?]; try done; lia]).
    - unfold opt. rewrite matches_alt, matches_eps, matches_seq. setoid_rewrite matches_chr. setoid_rewrite IH. split.
      + intros [->|(s1 & s2 & -> & (c & -> & Hc) & H2 & Hl)]; [by split; [constructor|cbn; lia]|]. split; [by constructor|cbn; lia].
      + intros [H Hl]. destruct s as [|c s]; [by left|]. right. apply Forall_cons in H as [Hc H]. exists [c], s. cbn in Hl. split_and!; eauto with lia. }
  unfold between. rewrite matches_seq. setoid_rewrite He. setoid_rewrite Ha. split.
  - intros (s1 & s2 & -> & [H1 L1] & H2 & L2). rewrite Forall_app, length_app. split; [done|lia].
  - intros [H Hl]. exists (take lo s), (drop lo s). rewrite take_drop, length_take, length_drop.
    split; [done|]. split; split; [by apply Forall_take|lia|by apply Forall_drop|lia].
Qed.

(** All characters of the words of an expression. *)
Fixpoint within (p : char -> bool) (r : re) : Prop :=
  match r with
  | Nothing | Eps => True
  | Chr q => forall c, q c = true -> p c = true
  | Seq r1 r2 | Alt r1 r2 => within p r1 /\ within p r2
  | Star r => within p r
  end.

Lemma within_ok p r s : within p r -> matches r s -> Forall (fun c => p c = true) s.
Proof.
  intros Hw H. induction H; cbn [within] in Hw; try constructor; rewrite ?Forall_app; naive_solver.
Qed.

Lemma star_concat r l : Forall (matches r) l -> matches (Star r) (concat l).
Proof. induction 1; cbn; by constructor. Qed.

(** A word begins with a word of the expression: the matching of [parseFloat]. *)
Fixpoint begins (r : re) (s : list char) : bool :=
  nullable r || match s with [] => false | c :: s' => begins (deriv c r) s' end.

Lemma begins_ok r s : begins r s = true <-> exists s1 s2, s = s1 ++ s2 /\ matches r s1.
Proof.
  revert r. induction s as [|c s IH]; intros r; cbn [begins]; rewrite orb_true_iff, nullable_ok.
  - split; [intros [H|]; [by exists [], []|done]|]. intros (s1 & s2 & E & H). left. by destruct s1.
  - rewrite IH. split.
    + intros [H|(s1 & s2 & -> & H%deriv_ok)]; [by exists [], (c :: s)|by exists (c :: s1), s2].
    + intros ([|a s1] & s2 & E & H); [by left|]. right. injection E as -> ->. exists s1, s2. by rewrite deriv_ok.
Qed.

(** ** Characters *)

Definition in_range (a b : char) (c : char) : bool :=
  (Ascii.nat_of_ascii a <=? Ascii.nat_of_ascii c)%nat && (Ascii.nat_of_ascii c <=? Ascii.nat_of_ascii b)%nat.
Definition is_char (a c : char) : bool := bool_decide (a = c).
Definition letter (c : char) : bool := in_range "a" "z" c || in_range "A" "Z" c.
Definition digit (c : char) : bool := in_range "0" "9" c.
Definition alnum (c : char) : bool := letter c || digit c.
Definition word_char (c : char) : bool := alnum c || is_char "_" c.   (* [\w] *)
Definition ch (a : char) : re := Chr (is_char a).

Fixpoint literal (l : list char) : re := match l with [] => Eps | c :: l' => Seq (ch c) (literal l') end.
Definition text (s : string) : list char := String.list_ascii_of_string s.

(** ** An e-mail address *)

Definition local_part : re :=
  Seq (Star (Alt (Seq (plus (Chr alnum)) (plus (ch "_")))
            (Alt (Seq (plus (Chr alnum)) (plus (ch "-")))
            (Alt (Seq (plus (Chr alnum)) (plus (ch ".")))
                 (Seq (plus (Chr alnum)) (plus (ch "+")))))))
      (plus (Chr (fun c => alnum c || is_char "-" c))).

Definition host_part : re :=
  Seq (Star (Alt (Seq (plus (Chr word_char)) (plus (ch "-"))) (Seq (plus (Chr word_char)) (ch "."))))
      (between 1 63 (Chr word_char)).

Definition pattern : re := Seq local_part (Seq (ch "@") (Seq host_part (Seq (ch ".") (between 2 63 (Chr letter))))).

(** ** Numbers *)

Definition line_space : list nat := [9; 10; 11; 12; 13; 32; 160].
Definition space (c : char) : bool := existsb (Nat.eqb (Ascii.nat_of_ascii c)) line_space.
Definition sign : re := opt (Chr (fun c => is_char "+" c || is_char "-" c)).
Definition digits : re := plus (Chr digit).
Definition exponent : re := Seq (Chr (fun c => is_char "e" c || is_char "E" c)) (Seq sign digits).

(** [StrDecimalLiteral] *)
Definition decimal : re :=
  Seq sign (Alt (literal (text "Infinity"))
           (Alt (Seq digits (Seq (opt (Seq (ch ".") (Star (Chr digit)))) (opt exponent)))
                (Seq (ch ".") (Seq digits (opt exponent))))).

Definition hex_digit (c : char) : bool := digit c || in_range "a" "f" c || in_range "A" "F" c.
Definition prefixed (lower upper : char) (p : char -> bool) : re :=
  Seq (ch "0") (Seq (Chr (fun c => is_char lower c || is_char upper c)) (plus (Chr p))).

Definition numeral : re :=
  Alt decimal (Alt (prefixed "x" "X" hex_digit) (Alt (prefixed "o" "O" (in_range "0" "7")) (prefixed "b" "B" (in_range "0" "1")))).

(** The text that converts to a number. *)
Definition numeric : re := Seq (Star (Chr space)) (Seq (opt numeral) (Star (Chr space))).

(** The text at whose beginning [parseFloat] finds a number. *)
Definition leading_number : re := Seq (Star (Chr space)) decimal.

Section validators.
(** What the language makes of an object: a primitive number or the like, and a text. *)
Context (object_value : nat -> jsval) (object_text : nat -> string).
(** [Ember.isBlank] *)
Context (isBlank : jsval -> bool).

Definition String_of (v : jsval) : string :=
  match v with
  | JUndefined => "undefined"
  | JNull => "null"
  | JBool b => if b then "true" else "false"
  | JNaN => "NaN"
  | JNum z => pretty z
  | JStr s => s
  | JObj o => object_text o
  end.

Definition primitive_isNaN (v : jsval) : bool :=
  match v with
  | JUndefined | JNaN | JObj _ => true
  | JNull | JBool _ | JNum _ => false
  | JStr s => negb (test numeric (text s))
  end.

Definition isNaN (v : jsval) : bool := primitive_isNaN (match v with JObj o => object_value o | _ => v end).
Definition parseFloat_isNaN (v : jsval) : bool := negb (begins leading_number (text (String_of v))).

(** [validators/email.js] *)
Definition email : validator :=
  ValidatorObject (fun target key => JBool (test pattern (text (String_of (default JUndefined (target !! key)))))).

(** [validators/number.js] *)
Definition number : validator :=
  ValidatorObject (fun target key =>
    let value := default JUndefined (target !! key) in
    JBool (strict_eq value (JStr "") || negb (isNaN value || parseFloat_isNaN value))).

(** [validators/not_blank.js] *)
Definition not_blank : validator :=
  ValidatorObject (fun target key => JBool (negb (isBlank (default JUndefined (target !! key))))).

(** ** What is accepted *)

Abbreviation accepts v m key := (truthy (_validate v m key (get m key)) = true).

Definition local_char (c : char) : bool := alnum c || is_char "_" c || is_char "-" c || is_char "." c || is_char "+" c.
Definition host_char (c : char) : bool := word_char c || is_char "-" c || is_char "." c.

Lemma local_ok s : matches local_part s ->
  Forall (fun c => local_char c = true) s /\ exists s' c, s = s' ++ [c] /\ (alnum c || is_char "-" c) = true.
Proof.
  intros H. split.
  - refine (within_ok _ _ _ _ H). unfold local_part, plus, ch, local_char. cbn [within].
    repeat split; intros c Hc; rewrite ?orb_true_iff in *; tauto.
  - apply matches_seq in H as (s1 & s2 & -> & _ & [H Hn]%plus_chars).
    destruct (exists_last Hn) as (s' & c & ->). exists (s1 ++ s'), c. rewrite app_assoc. split; [done|].
    apply Forall_app in H as [_ H]. by rewrite Forall_singleton in H.
Qed.

Lemma host_ok s : matches host_part s ->
  Forall (fun c => host_char c = true) s /\ exists s1 s2, s = s1 ++ s2 /\ Forall (fun c => word_char c = true) s2 /\ 1 <= length s2 <= 63.
Proof.
  intros (s1 & s2 & -> & H1 & H2)%matches_seq. apply between_chars in H2 as [H2 L]; [|lia].
  split; [|by exists s1, s2]. apply Forall_app. split.
  - refine (within_ok _ _ _ _ H1). unfold plus, ch, host_char. cbn [within].
    repeat split; intros c Hc; rewrite ?orb_true_iff in *; tauto.
  - eapply Forall_impl; [exact H2|]. intros c Hc. unfold host_char. by rewrite Hc.
Qed.

Lemma ch_ok a s : matches (ch a) s <-> s = [a].
Proof.
  unfold ch. rewrite matches_chr. split; [intros (c & -> & H%bool_decide_eq_true); by subst|].
  intros ->. exists a. split; [done|]. by apply bool_decide_eq_true.
Qed.

(** A text that is accepted as an e-mail address has the parts of one: before the only
    ["@"] a name of letters, digits and [_ - . +] that ends in a letter, a digit or [-], after it
    a host of letters, digits and [_ - .] whose last label has at most 63 characters, and after
    the last dot a domain of 2 to 63 letters. *)
Theorem email_shape m key s (Hs : get m key = JStr s) (Ha : accepts email m key) :
  exists name host domain,
    text s = name ++ "@"%char :: host ++ "."%char :: domain
    /\ Forall (fun c => local_char c = true) name
    /\ (exists name' c, name = name' ++ [c] /\ (alnum c || is_char "-" c) = true)
    /\ Forall (fun c => host_char c = true) host
    /\ (exists labels label, host = labels ++ label /\ Forall (fun c => word_char c = true) label /\ 1 <= length label <= 63)
    /\ Forall (fun c => letter c = true) domain /\ 2 <= length domain <= 63.
Proof.
  revert Ha. unfold _validate, email. unfold get in Hs. rewrite Hs. cbn [String_of truthy]. rewrite test_ok.
  intros (name & r & E & (Hn & Hn')%local_ok & (a & r' & -> & ->%ch_ok & (host & r'' & -> & (Hh & Hh')%host_ok & (b & domain & -> & ->%ch_ok & Hd)%matches_seq)%matches_seq)%matches_seq)%matches_seq.
  apply between_chars in Hd as [Hd Ld]; [|lia]. by exists name, host, domain.
Qed.

Definition words (p : char -> bool) (ws : list (list char)) : Prop := Forall (fun w => w <> [] /\ Forall (fun c => p c = true) w) ws.
Definition dotted (ws : list (list char)) : list char := concat (map (fun w => w ++ ["."%char]) ws).

Lemma dotted_ok p r ws :
  words p ws -> (forall w, matches (Seq (plus (Chr p)) (ch ".")) w -> matches r w) -> matches (Star r) (dotted ws).
Proof.
  intros Hws Hr. apply star_concat, Forall_map. eapply Forall_impl; [exact Hws|].
  intros w [Hn Hw]. apply Hr. constructor; [by apply plus_chars|by apply ch_ok].
Qed.

(** Dotted words of letters and digits before ["@"], after it dotted labels of at most 63
    such characters and [_], and a domain of 2 to 63 letters are accepted. *)
Theorem ordinary_email_accepted m key s names name labels label domain
  (Hs : get m key = JStr s)
  (Ht : text s = dotted names ++ name ++ "@"%char :: dotted labels ++ label ++ "."%char :: domain)
  (Hn : words alnum (name :: names)) (Hl : words word_char (label :: labels)) (Hlen : length label <= 63)
  (Hd : Forall (fun c => letter c = true) domain) (Ld : 2 <= length domain <= 63) :
  accepts email m key.
Proof.
  unfold _validate, email. unfold get in Hs. rewrite Hs. cbn [String_of truthy]. apply test_ok. rewrite Ht.
  apply Forall_cons in Hn as [[Hn Hn'] Hns]. apply Forall_cons in Hl as [[Hl Hl'] Hls].
  rewrite app_assoc. constructor; [constructor|].
  - apply (dotted_ok alnum); [done|]. intros w (w1 & w2 & -> & H1 & ->%ch_ok)%matches_seq.
    apply m_alt_r, m_alt_r, m_alt_l. constructor; [done|]. apply (m_seq _ _ ["."%char] []); [by apply ch_ok|constructor].
  - apply plus_chars. split; [|done]. eapply Forall_impl; [exact Hn'|]. intros c Hc. cbn in Hc |- *. by rewrite Hc.
  - apply (m_seq _ _ ["@"%char]); [by apply ch_ok|]. rewrite app_assoc. constructor; [constructor|].
    + apply (dotted_ok word_char); [done|]. intros w. apply m_alt_r.
    + apply between_chars; [lia|]. split; [done|]. destruct label; [done|]. cbn in *. lia.
    + apply (m_seq _ _ ["."%char]); [by apply ch_ok|]. apply between_chars; [lia|done].
Qed.

(** ** Numbers *)

Abbreviation spaces := (Forall (fun c => space c = true)).

Lemma decimal_no_space s : matches decimal s -> Forall (fun c => negb (space c) = true) s /\ s <> [].
Proof.
  intros H. split.
  - refine (within_ok _ _ _ _ H). unfold decimal, sign, exponent, digits, plus, opt, ch, literal. cbn [within text String.list_ascii_of_string].
    repeat split; intros c; destruct c as [[] [] [] [] [] [] [] []]; vm_compute; congruence.
  - intros ->. apply nullable_ok in H. vm_compute in H. discriminate.
Qed.

Lemma zero_is_decimal : matches decimal ["0"%char].
Proof. apply test_ok. vm_compute. reflexivity. Qed.

Lemma numeral_leads s : matches numeral s -> exists s1 s2, s = s1 ++ s2 /\ matches decimal s1.
Proof.
  unfold numeral, prefixed. rewrite !matches_alt. intros [H|H]; [exists s, []; by rewrite app_nil_r|].
  assert (exists r, matches (Seq (ch "0") r) s) as [r (s1 & s2 & -> & ->%ch_ok & _)%matches_seq] by naive_solver.
  exists ["0"%char], s2. split; [done|apply zero_is_decimal].
Qed.

Lemma numeric_ok s : matches numeric s <->
  exists w1 n w2, s = w1 ++ n ++ w2 /\ spaces w1 /\ spaces w2 /\ (n = [] \/ matches numeral n).
Proof.
  unfold numeric, opt. rewrite matches_seq. setoid_rewrite matches_seq. setoid_rewrite star_chars. split.
  - intros (w1 & r & -> & H1 & n & w2 & -> & Hn & H2). exists w1, n, w2. by rewrite matches_alt, matches_eps in Hn.
  - intros (w1 & n & w2 & -> & H1 & H2 & Hn). exists w1, (n ++ w2). split_and!; [done|done|].
    exists n, w2. by rewrite matches_alt, matches_eps.
Qed.

Lemma leading_ok s : begins leading_number s = true <->
  exists w n r, s = w ++ n ++ r /\ spaces w /\ matches decimal n.
Proof.
  rewrite begins_ok. split.
  - intros (s1 & r & -> & (w & n & -> & Hw%star_chars & Hn)%matches_seq). exists w, n, r. by rewrite <- app_assoc.
  - intros (w & n & r & -> & Hw & Hn). exists (w ++ n), r. split; [by rewrite <- app_assoc|].
    constructor; [by apply star_chars|done].
Qed.

(** C28. A text is accepted as a number exactly if it is empty, or a numeral of the language
    (a decimal one with sign, fraction and exponent, [Infinity], or a hexadecimal, octal or
    binary one), with white space around it.  Neither check of the validator is enough alone. *)
Theorem number_exact m key s (Hs : get m key = JStr s) :
  accepts number m key <->
  s = "" \/ exists w1 n w2, text s = w1 ++ n ++ w2 /\ spaces w1 /\ spaces w2 /\ matches numeral n.
Proof.
  unfold _validate, number. unfold get in Hs. rewrite Hs. cbn [String_of truthy isNaN primitive_isNaN].
  unfold isNaN, parseFloat_isNaN. cbn [String_of primitive_isNaN strict_eq].
  rewrite orb_true_iff, negb_orb, !negb_involutive, andb_true_iff, bool_decide_eq_true, test_ok, numeric_ok, leading_ok.
  split; (intros [E|H]; [left; congruence|]).
  - right. destruct H as [(w1 & n & w2 & E & H1 & H2 & [->|Hn]) (w & d & r & E' & Hw & [Hd Hd']%decimal_no_space)].
    + exfalso. destruct d as [|c d]; [done|]. apply Forall_cons in Hd as [Hc _].
      assert (spaces (text s)) as Hsp by (rewrite E; by apply Forall_app).
      rewrite E', Forall_app, Forall_app in Hsp. destruct Hsp as [_ [[Hc' _]%Forall_cons _]]. by rewrite Hc' in Hc.
    + by exists w1, n, w2.
  - right. destruct H as (w1 & n & w2 & E & H1 & H2 & Hn). split.
    + exists w1, n, w2. auto.
    + destruct (numeral_leads n Hn) as (d & r & -> & Hd). exists w1, d, (r ++ w2). rewrite E, <- app_assoc. auto.
Qed.

Lemma pretty_N_go_digit x s : (0 < x)%N -> exists c t, pretty_N_go x s = String c t /\ digit c = true.
Proof.
  revert s. induction (N.lt_wf_0 x) as [x _ IH]; intros s Hx. rewrite pretty_N_go_step by done.
  destruct (decide (x / 10 = 0)%N) as [->|Hd].
  - rewrite pretty_N_go_0. eexists _, _. split; [done|].
    unfold pretty_N_char. repeat case_match; reflexivity.
  - apply IH; [by apply N.div_lt|by apply N.neq_0_lt_0].
Qed.

Lemma pretty_N_digit (x : N) : exists c t, pretty x = String c t /\ digit c = true.
Proof.
  unfold pretty, pretty_N. destruct (decide (x = 0)%N) as [->|Hx]; [by eexists _, _|]. apply pretty_N_go_digit. lia.
Qed.

Lemma digit_is_decimal c sg : digit c = true -> sg = [] \/ sg = ["-"%char] -> matches decimal (sg ++ [c]).
Proof. intros H [-> | ->]; apply test_ok; destruct c as [[] [] [] [] [] [] [] []]; try discriminate H; vm_compute; reflexivity. Qed.

(** A number leads its text. *)
Lemma number_leads (z : Z) : begins leading_number (text (pretty z)) = true.
Proof.
  apply leading_ok. destruct z as [|p|p].
  - exists [], ["0"%char], []. split_and!; [done|constructor|apply zero_is_decimal].
  - destruct (pretty_N_digit (N.pos p)) as (c & t & E & Hc). exists [], ([] ++ [c]), (text t).
    change (pretty (Z.pos p)) with (pretty (N.pos p)). rewrite E.
    split_and!; [done|constructor|apply digit_is_decimal; auto].
  - destruct (pretty_N_digit (N.pos p)) as (c & t & E & Hc). exists [], (["-"%char] ++ [c]), (text t).
    change (pretty (Z.neg p)) with ("-" +:+ pretty (N.pos p)). rewrite E.
    split_and!; [done|constructor|apply digit_is_decimal; auto].
Qed.

(** Of the values that are no texts, the numbers are accepted, and those the language would
    convert to one are not, because [parseFloat] reads them as texts. *)
Lemma other_values_as_numbers m key :
  match get m key with
  | JNum _ => accepts number m key
  | JUndefined | JNull | JBool _ | JNaN => ~ accepts number m key
  | JStr _ | JObj _ => True
  end.
Proof.
  unfold _validate, number, get. destruct (default JUndefined (props m !! key)) as [| |b| |z|s|o]; try done.
  - destruct b; vm_compute; congruence.
  - cbn [truthy]. unfold parseFloat_isNaN. cbn [String_of]. by rewrite number_leads.
Qed.

(** ** Departures *)

Definition with_text (s : string) : model := Model {["value" := JStr s]} [] ∅ ∅ ∅ JNull.

(** [Infinity] is a number, two dots in a row are part of an address, a name that ends in
    an underscore or a plus sign is not. *)
Lemma infinity_is_number : accepts number (with_text "-Infinity") "value".
Proof. vm_compute. reflexivity. Qed.

Lemma dots_in_a_row : accepts email (with_text "a..b@example.org") "value".
Proof. vm_compute. reflexivity. Qed.

Lemma name_ends_in_underscore : ~ accepts email (with_text "a_@example.org") "value".
Proof. vm_compute. congruence. Qed.

End validators.

(** ** Witnesses *)

Lemma email_shape_witness :
  truthy (_validate (email (fun _ => "")) (with_text "Jo.e+x@mail.example.org") "value" JUndefined) = true
  /\ exists name host domain, text "Jo.e+x@mail.example.org" = name ++ "@"%char :: host ++ "."%char :: domain.
Proof.
  split; [vm_compute; reflexivity|].
  destruct (email_shape (fun _ => "") (with_text "Jo.e+x@mail.example.org") "value" "Jo.e+x@mail.example.org") as (n & h & d & H & _);
    [reflexivity|vm_compute; reflexivity|eauto].
Defined.

Lemma ordinary_email_accepted_witness :
  truthy (_validate (email (fun _ => "")) (with_text "jo.e@mail.example.org") "value" (JStr "jo.e@mail.example.org")) = true.
Proof.
  apply (ordinary_email_accepted (fun _ => "") (with_text "jo.e@mail.example.org") "value" "jo.e@mail.example.org"
           [text "jo"] (text "e") [text "mail"] (text "example") (text "org"));
    try reflexivity; unfold words; try (cbn; lia);
    repeat (apply Forall_cons; split); repeat split; try discriminate;
    repeat (apply Forall_cons; split); try reflexivity; try constructor.
Defined.

Lemma number_exact_witness :
  truthy (_validate (number (fun _ => JUndefined) (fun _ => "")) (with_text " -1.5e3 ") "value" (JStr " -1.5e3 ")) = true
  /\ (" -1.5e3 " = "" \/ exists w1 n w2, text " -1.5e3 " = w1 ++ n ++ w2 /\ matches numeral n)
  /\ truthy (_validate (number (fun _ => JUndefined) (fun _ => "")) (with_text "1,5") "value" (JStr "1,5")) = false.
Proof.
  split; [vm_compute; reflexivity|]. split; [|vm_compute; reflexivity].
  destruct (proj1 (number_exact (fun _ => JUndefined) (fun _ => "") (with_text " -1.5e3 ") "value" " -1.5e3 " eq_refl))
    as [H|(w1 & n & w2 & E & _ & _ & Hn)]; [vm_compute; reflexivity|by left|right; eauto].
Defined.
