(* ===== verification/LazyList.v ===== *)
(** * Lazily rendered lists ([views/lazy_list_view.js])

    Only the rows near the visible part of the scroll view have an item view.  When
    the list scrolls, views whose row has left the range to render are put into a
    pool, by the class of their item, and taken from it again for the rows that
    have entered the range.

    The rows are a parameter of the operations: the content of a list, or the
    flattened tree of [LazyTree].  Rendering callbacks ([afterRender]) are run at
    once; item views are numbered in the order of their creation. *)

From S2P Require Import Prelude.
From stdpp Require Import gmap list_numbers.
Open Scope string_scope.
Open Scope list_scope.
Open Scope flame_scope.

(** ** Data *)
Record item_view := ItemView {
  contentIndex : option Z;
  content : option nat;
  isVisible : bool;
  isSelected : bool;
  isDragged : bool;
  isExpanded : bool;
  translateY : Z                (* the position of the element *)
}.

Record state := State {
  childViews : list item_view;
  _recycledViews : gmap string (list nat);   (* the last one put in comes first *)
  selection : option nat;
  _lastScrollHeight : Z;
  _lastScrollTop : Z
}.

Definition set_views l s := State l (_recycledViews s) (selection s) (_lastScrollHeight s) (_lastScrollTop s).
Definition set_recycled r s := State (childViews s) r (selection s) (_lastScrollHeight s) (_lastScrollTop s).
Definition set_selection x s := State (childViews s) (_recycledViews s) x (_lastScrollHeight s) (_lastScrollTop s).
Definition set_scroll h t s := State (childViews s) (_recycledViews s) (selection s) h t.

Definition set_index i v := ItemView i (content v) (isVisible v) (isSelected v) (isDragged v) (isExpanded v) (translateY v).
Definition set_visible b v := ItemView (contentIndex v) (content v) b (isSelected v) (isDragged v) (isExpanded v) (translateY v).
Definition set_selected b v := ItemView (contentIndex v) (content v) (isVisible v) b (isDragged v) (isExpanded v) (translateY v).
Definition set_expanded b v := ItemView (contentIndex v) (content v) (isVisible v) (isSelected v) (isDragged v) b (translateY v).
Definition set_position r y v := ItemView (Some r) (content v) (isVisible v) (isSelected v) (isDragged v) (isExpanded v) y.

Section lazy.
Context (item_class : nat -> string).      (* [item.constructor.toString()] *)
Context (itemHeight bufferSize : Z).

(** ** Rows to render *)

Definition itemForRow (rows : list nat) (row : Z) : option nat :=
  if (row <? 0)%Z then None else rows !! Z.to_nat row.

(** [_rowsToRenderRange]; the buffer size is even, as the default is: with an odd one
    the rows computed here are fractions and have no item. *)
Definition _rowsToRenderRange (inDocument : bool) (offsetFromParent : Z) (length : Z) (scrollHeight scrollTop : Z) : Z * Z :=
  if negb inDocument then (0, -1)%Z
  else
    let normalizedScrollTop := Z.max 0 (scrollTop - offsetFromParent) in
    let topRow := Z.quot normalizedScrollTop itemHeight in
    let desiredRows := (Z.quot scrollHeight itemHeight + bufferSize)%Z in
    let start := (topRow - bufferSize / 2)%Z in
    let end_ := Z.min (length - 1) (start + desiredRows) in
    (Z.max 0 (end_ - desiredRows), end_)%Z.

(** ** The pool of views *)

Definition pool (s : state) (c : string) : list nat := default [] (_recycledViews s !! c).

(** [_recycleView] reads the class of the view's content, which a view with a row has. *)
Definition _recycleView (id : nat) (s : state) : state :=
  match childViews s !! id with
  | None => s
  | Some v =>
      let s1 := set_views (alter (fun v => set_selected false (set_index None v)) id (childViews s)) s in
      match content v with
      | None => s1
      | Some item => set_recycled (<[item_class item := id :: pool s (item_class item)]> (_recycledViews s)) s1
      end
  end.

Definition hide_pooled (l : list item_view) (ids : list nat) : list item_view :=
  foldl (fun l id => alter (set_visible false) id l) l ids.

Definition _hideRecycledViews (s : state) : state :=
  set_views (hide_pooled (childViews s) (concat (map_to_list (_recycledViews s)).*2)) s.

(** The view as [viewForRow] leaves it. *)
Definition show (row : Z) (item : nat) (sel : option nat) (v : item_view) : item_view :=
  ItemView (Some row) (Some item) true (bool_decide (sel = Some item)) (isDragged v) (isExpanded v) (row * itemHeight).

Definition fresh_view (expanded : bool) : item_view := ItemView None None false false false expanded 0.

(** [viewForRow] with the attributes of a new view; the view's number is returned. *)
Definition viewForRow (rows : list nat) (expanded : bool) (row : Z) (s : state) : outcome (state * nat) :=
  match itemForRow rows row with
  | None => Throw TypeError
  | Some item =>
      let c := item_class item in
      match pool s c with
      | id :: rest =>
          Ok (set_recycled (<[c := rest]> (_recycledViews s))
                (set_views (alter (show row item (selection s)) id (childViews s)) s), id)
      | [] =>
          Ok (set_views (childViews s ++ [show row item (selection s) (fresh_view expanded)]) s, length (childViews s))
      end
  end.

Fixpoint views_for_rows (rows : list nat) (l : list Z) (s : state) : outcome state :=
  match l with
  | [] => Ok s
  | row :: l' => do! r <- viewForRow rows false row s ; views_for_rows rows l' r.1
  end.

(** ** Scrolling *)

Definition outside (range : Z * Z) (i : Z) : bool := (i <? range.1)%Z || (range.2 <? i)%Z.

(** The loop over the child views: what leaves the range is recycled, of the rest
    the smallest and the largest row are kept. *)
Definition scan (range : Z * Z) (s : state) : state * Z * Z :=
  foldl (fun '(s, mn, mx) id =>
    match childViews s !! id ≫= contentIndex with
    | None => (s, mn, mx)
    | Some i =>
        if outside range i then
          (if match childViews s !! id with Some v => isDragged v | None => false end then s else _recycleView id s, mn, mx)
        else (s, Z.min mn i, Z.max mx i)
    end) (s, range.2, range.1) (seq 0 (length (childViews s))).

(** The rows missing above and below, in the order in which they get their views. *)
Definition gap_rows (range : Z * Z) (mn mx : Z) : list Z :=
  let mn := if (mn =? range.2)%Z then (mn + 1)%Z else mn in
  seqZ range.1 (mn - range.1) ++
  (if (mx =? range.1)%Z then [] else reverse (seqZ (mx + 1) (range.2 - mx))).

Definition render_range (rows : list nat) (range : Z * Z) (s : state) : outcome state :=
  let '(s1, mn, mx) := scan range s in
  do! s2 <- views_for_rows rows (gap_rows range mn mx) s1 ;
  Ok (_hideRecycledViews s2).

Definition didScroll (inDocument : bool) (offset : Z) (rows : list nat) (scrollHeight scrollTop : Z) (s : state) : outcome state :=
  render_range rows (_rowsToRenderRange inDocument offset (Z.of_nat (length rows)) scrollHeight scrollTop)
    (set_scroll scrollHeight scrollTop s).

Definition recycle_all (s : state) : state :=
  foldl (fun s id => match childViews s !! id ≫= contentIndex with Some _ => _recycleView id s | None => s end)
    s (seq 0 (length (childViews s))).

Definition fullRerender (inDocument : bool) (offset : Z) (rows : list nat) (s : state) : outcome state :=
  didScroll inDocument offset rows (_lastScrollHeight s) (_lastScrollTop s) (recycle_all s).

Definition arrayDidChange (suppressed inDocument : bool) (offset : Z) (rows : list nat) (s : state) : outcome state :=
  if suppressed then Ok s else fullRerender inDocument offset rows s.

(** ** Selection *)

Definition rowForItem (rows : list nat) (item : option nat) : option Z :=
  i ← item; Z.of_nat <$> (fst <$> list_find (.= i) rows).

Definition selectIndex (allowSelection : bool) (rows : list nat) (row : Z) (s : state) : state * bool :=
  if negb allowSelection then (s, false)
  else match itemForRow rows row with
       | Some item => (set_selection (Some item) s, true)
       | None => (set_selection None s, true)
       end.

(** [null + direction] counts from 0. *)
Fixpoint change_loop (fuel : nat) (allow : bool) (rows : list nat) (direction row : Z) (s : state) : option (state * bool) :=
  match fuel with
  | 0 => None
  | S n =>
      if (0 <=? row)%Z && (row <? Z.of_nat (length rows))%Z then
        let '(s', ok) := selectIndex allow rows row s in
        if ok then Some (s', true) else change_loop n allow rows direction (row + direction) s'
      else Some (s, false)
  end.
Definition changeSelection (fuel : nat) (allow : bool) (rows : list nat) (direction : Z) (s : state) : option (state * bool) :=
  change_loop fuel allow rows direction (default 0%Z (rowForItem rows (selection s)) + direction) s.

(** [findBy('contentIndex', row)]; looking for [undefined] finds a view in the pool. *)
Definition childViewForIndex (s : state) (row : option Z) : option nat :=
  fst <$> list_find (fun v => contentIndex v = row) (childViews s).

(** The row of an item that is not there is [null], which no view has. *)
Definition _setIsSelectedStatus (rows : list nat) (item : option nat) (status : bool) (s : state) : state :=
  match rowForItem rows item with
  | Some row =>
      match childViewForIndex s (Some row) with
      | Some id => set_views (alter (set_selected status) id (childViews s)) s
      | None => s
      end
  | None => s
  end.

(** ** Specification *)

(** A view that has a row shows the item of the row at its place. *)
Definition view_ok (rows : list nat) (s : state) (v : item_view) : Prop :=
  match contentIndex v with
  | Some r => exists item, itemForRow rows r = Some item /\ content v = Some item /\ isVisible v = true /\
                isSelected v = bool_decide (selection s = Some item) /\ translateY v = (r * itemHeight)%Z
  | None => True
  end.

(** The pool holds exactly the views without a row, each of them once. *)
Record pool_ok (s : state) : Prop := {
  pool_nodup c : NoDup (pool s c);
  pool_disjoint c c' id : id ∈ pool s c -> id ∈ pool s c' -> c = c';
  pool_free id v : childViews s !! id = Some v -> contentIndex v = None <-> exists c, id ∈ pool s c;
  pool_bound c id : id ∈ pool s c -> is_Some (childViews s !! id)
}.

Record list_ok (rows : list nat) (s : state) : Prop := {
  lo_pool : pool_ok s;
  lo_views v : v ∈ childViews s -> view_ok rows s v;
  lo_still v : v ∈ childViews s -> isDragged v = false
}.

Definition shown_rows (s : state) : list Z := omap contentIndex (childViews s).

(** ** Lemmas *)

Lemma alter_middle {A} (f : A -> A) (l : list A) i x :
  l !! i = Some x -> exists l1 l2, l = l1 ++ x :: l2 /\ length l1 = i /\ alter f i l = l1 ++ f x :: l2.
Proof.
  intros Hx. exists (take i l), (drop (S i) l). split_and!.
  - symmetry. by apply take_drop_middle.
  - apply length_take_le. apply lookup_lt_Some in Hx. lia.
  - rewrite <- (take_drop_middle l i x Hx) at 1.
    assert (length (take i l) = i) as Hl by (apply length_take_le; apply lookup_lt_Some in Hx; lia).
    rewrite <- Hl at 1. rewrite <- (Nat.add_0_r (length (take i l))). by rewrite alter_app_r.
Qed.

Lemma pool_insert c c' l s : pool (set_recycled (<[c := l]> (_recycledViews s)) s) c' = if bool_decide (c' = c) then l else pool s c'.
Proof.
  unfold pool. cbn. case_bool_decide as E; [by subst; rewrite lookup_insert_eq|by rewrite lookup_insert_ne by congruence].
Qed.

(** A view leaves its row and goes to the pool. *)
Lemma recycle_pool_ok s id v i : pool_ok s -> childViews s !! id = Some v -> contentIndex v = Some i -> is_Some (content v) ->
  pool_ok (_recycleView id s) /\ selection (_recycleView id s) = selection s /\
  childViews (_recycleView id s) = alter (fun v => set_selected false (set_index None v)) id (childViews s).
Proof.
  intros [Pn Pd Pf Pb] Hid Hi [item Hc]. unfold _recycleView. rewrite Hid.
  rewrite Hc. cbn [set_recycled childViews selection]. split_and!; [|done|done].
  assert (Hnot : forall c, id ∉ pool s c).
  { intros c Hcin. assert (contentIndex v = None) by (apply (Pf id v Hid); eauto). congruence. }
  assert (Hpool : forall c, pool (set_recycled (<[item_class item := id :: pool s (item_class item)]> (_recycledViews s))
      (set_views (alter (fun v => set_selected false (set_index None v)) id (childViews s)) s)) c =
      if bool_decide (c = item_class item) then id :: pool s c else pool s c).
  { intros c. unfold pool. cbn. case_bool_decide as E; [by subst; rewrite lookup_insert_eq|by rewrite lookup_insert_ne by congruence]. }
  split; cbn [childViews set_recycled set_views].
  - intros c. rewrite Hpool. case_bool_decide; [|done]. by constructor.
  - intros c c' x. rewrite !Hpool. repeat case_bool_decide; subst; rewrite ?elem_of_cons; try naive_solver.
  - intros x w. rewrite list_lookup_alter. destruct (decide (id = x)) as [->|Hne].
    + rewrite Hid. intros [= <-]. split; [|done]. intros _. exists (item_class item). rewrite Hpool.
      rewrite bool_decide_eq_true_2 by done. by left.
    + intros Hx. rewrite (Pf x w Hx). split; intros [c Hcx]; exists c; revert Hcx; rewrite Hpool;
        case_bool_decide; rewrite ?elem_of_cons; naive_solver.
  - intros c x Hx. rewrite list_lookup_alter. destruct (decide (id = x)) as [<-|Hne]; [by rewrite Hid|].
    apply (Pb c). rewrite Hpool in Hx. case_bool_decide; [|done]. set_solver.
Qed.

Lemma recycle_ok rows s id v i : list_ok rows s -> childViews s !! id = Some v -> contentIndex v = Some i ->
  list_ok rows (_recycleView id s) /\ selection (_recycleView id s) = selection s /\
  childViews (_recycleView id s) = alter (fun v => set_selected false (set_index None v)) id (childViews s).
Proof.
  intros [Hp Hv Hs] Hid Hi.
  assert (Hin : v ∈ childViews s) by (by eapply list_elem_of_lookup_2).
  pose proof (Hv v Hin) as Hok. unfold view_ok in Hok. rewrite Hi in Hok. destruct Hok as (item & _ & Hc & _).
  destruct (recycle_pool_ok s id v i Hp Hid Hi (mk_is_Some _ _ Hc)) as (Hp' & Hsel & Hcv).
  split_and!; [|done|done].
  destruct (alter_middle (fun v => set_selected false (set_index None v)) (childViews s) id v Hid) as (l1 & l2 & Hl & Hlen & Hal).
  split; [done| |]; rewrite Hcv, Hal; intros w Hw;
    (assert (w ∈ childViews s \/ w = set_selected false (set_index None v)) as [Hw'| ->] by (rewrite Hl; set_solver)).
  - specialize (Hv w Hw'). unfold view_ok in *. by rewrite Hsel.
  - done.
  - by apply Hs.
  - cbn. by apply Hs.
Qed.

(** Changing nothing but what a view is marked with keeps the list as it is. *)
Lemma mark_ok rows s id (f : item_view -> item_view) :
  (forall v, contentIndex (f v) = contentIndex v /\ content (f v) = content v /\ isVisible (f v) = isVisible v /\
     isSelected (f v) = isSelected v /\ isDragged (f v) = isDragged v /\ translateY (f v) = translateY v) ->
  list_ok rows s ->
  list_ok rows (set_views (alter f id (childViews s)) s) /\
  shown_rows (set_views (alter f id (childViews s)) s) = shown_rows s.
Proof.
  intros Hf [[Pn Pd Pf Pb] Hv Hs].
  assert (Hinv : forall x w, alter f id (childViews s) !! x = Some w -> exists v, childViews s !! x = Some v /\
    contentIndex w = contentIndex v /\ content w = content v /\ isVisible w = isVisible v /\
    isSelected w = isSelected v /\ isDragged w = isDragged v /\ translateY w = translateY v).
  { intros x w. rewrite list_lookup_alter. destruct (decide (id = x)) as [<-|]; [|intros; exists w; by split_and!].
    destruct (childViews s !! id) as [v|]; [|done]. cbn. intros [= <-]. exists v. split; [done|apply Hf]. }
  split; [split; [split|..]; cbn|].
  - exact Pn.
  - exact Pd.
  - intros x w Hx. destruct (Hinv x w Hx) as (v & Hx' & -> & _). by apply (Pf x).
  - intros c x Hx. rewrite list_lookup_alter. destruct (Pb c x Hx) as [w Hw]. destruct (decide (id = x)) as [->|]; rewrite Hw; cbn; eauto.
  - intros w (x & Hx)%list_elem_of_lookup. destruct (Hinv x w Hx) as (v & Hx' & H1 & H2 & H3 & H4 & _ & H6).
    unfold view_ok. cbn. rewrite H1, H2, H3, H4, H6. apply Hv. by eapply list_elem_of_lookup_2.
  - intros w (x & Hx)%list_elem_of_lookup. destruct (Hinv x w Hx) as (v & Hx' & _ & _ & _ & _ & -> & _).
    apply Hs. by eapply list_elem_of_lookup_2.
  - unfold shown_rows. cbn. generalize (childViews s). intros l. revert id Hinv. clear -Hf.
    intros id _. revert id. induction l as [|v l IH]; intros [|id]; cbn; [done..| |].
    + by rewrite (proj1 (Hf v)).
    + by rewrite IH.
Qed.

(** A row gets its view, a pooled one or a new one. *)
Lemma viewForRow_ok rows s row item exp : list_ok rows s -> itemForRow rows row = Some item ->
  exists s' id, viewForRow rows exp row s = Ok (s', id) /\ list_ok rows s' /\ selection s' = selection s /\
    shown_rows s' ≡ₚ row :: shown_rows s.
Proof.
  intros [[Pn Pd Pf Pb] Hv Hs] Hitem. unfold viewForRow. rewrite Hitem.
  assert (Hshow : forall v, view_ok rows s (show row item (selection s) v)).
  { intros v. exists item. by split_and!. }
  destruct (pool s (item_class item)) as [|id rest] eqn:Ep.
  - eexists _, _. split; [done|]. split_and!; [|done|].
    + split.
      * split; cbn [childViews set_views].
        -- apply Pn.
        -- apply Pd.
        -- intros x w Hx. apply lookup_app_Some in Hx as [Hx|[Hlen Hx]]; [by apply Pf|].
           apply list_lookup_singleton_Some in Hx as [Hx0 <-]. split; [done|]. intros [c Hc].
           apply Pb in Hc. apply lookup_lt_is_Some in Hc. lia.
        -- intros c x Hx. apply Pb in Hx as [w Hw]. exists w. by apply lookup_app_l_Some.
      * cbn. intros w [Hw|Hw%list_elem_of_singleton]%elem_of_app; [by apply Hv|subst; apply Hshow].
      * cbn. intros w [Hw|Hw%list_elem_of_singleton]%elem_of_app; [by apply Hs|by subst].
    + unfold shown_rows. cbn. rewrite omap_app. cbn. symmetry. apply Permutation_cons_append.
  - assert (Hidp : id ∈ pool s (item_class item)) by (rewrite Ep; by left).
    destruct (Pb _ _ Hidp) as [v Hid].
    assert (Hnone : contentIndex v = None) by (apply (Pf id v Hid); eauto).
    destruct (alter_middle (show row item (selection s)) (childViews s) id v Hid) as (l1 & l2 & Hl & Hlen & Hal).
    assert (Hpool : forall c, pool (set_recycled (<[item_class item := rest]> (_recycledViews s))
        (set_views (alter (show row item (selection s)) id (childViews s)) s)) c =
        if bool_decide (c = item_class item) then rest else pool s c).
    { intros c. unfold pool. cbn. case_bool_decide as E; [by subst; rewrite lookup_insert_eq|by rewrite lookup_insert_ne by congruence]. }
    assert (Hnd : NoDup (id :: rest)) by (rewrite <- Ep; apply Pn). apply NoDup_cons in Hnd as [Hnotin Hnd].
    assert (Hsub : forall c x, x ∈ (if bool_decide (c = item_class item) then rest else pool s c) <-> x ∈ pool s c /\ x <> id).
    { intros c x. case_bool_decide as E.
      - subst c. rewrite Ep, elem_of_cons. split; [intros Hx; split; [by right|by intros ->]|]. intros [[->|Hx] ?]; done.
      - split; [|naive_solver]. intros Hx. split; [done|]. intros ->. apply E. by apply (Pd c (item_class item) id). }
    eexists _, _. split; [done|]. split_and!; [|done|].
    + split.
      * split; cbn [childViews set_views set_recycled].
        -- intros c. rewrite Hpool. case_bool_decide; [done|apply Pn].
        -- intros c c' x. rewrite !Hpool, !Hsub. intros [H1 _] [H2 _]. by eapply Pd.
        -- intros x w. rewrite list_lookup_alter. destruct (decide (id = x)) as [<-|Hne].
           ++ rewrite Hid. intros [= <-]. split; [done|]. intros [c Hc]. rewrite Hpool, Hsub in Hc. naive_solver.
           ++ intros Hx. rewrite (Pf x w Hx). split; intros [c Hc]; exists c; [|]; revert Hc; rewrite Hpool, Hsub; naive_solver.
        -- intros c x Hc. rewrite Hpool, Hsub in Hc. destruct Hc as [Hc Hne]. rewrite list_lookup_alter.
           destruct (decide (id = x)); [congruence|]. by eapply Pb.
      * cbn. rewrite Hal. intros w [Hw|[->|Hw]%elem_of_cons]%elem_of_app; [apply Hv; rewrite Hl; set_solver|apply Hshow|].
        apply Hv. rewrite Hl. set_solver.
      * cbn. rewrite Hal. intros w [Hw|[->|Hw]%elem_of_cons]%elem_of_app; [apply Hs; rewrite Hl; set_solver| |].
        -- cbn. apply Hs. rewrite Hl. set_solver.
        -- apply Hs. rewrite Hl. set_solver.
    + unfold shown_rows. cbn [childViews set_recycled set_views]. rewrite Hal. rewrite Hl at 1.
      rewrite !omap_app. cbn. rewrite Hnone. symmetry. apply Permutation_middle.
Qed.

Lemma views_for_rows_ok rows l : forall s, list_ok rows s -> Forall (fun r => is_Some (itemForRow rows r)) l ->
  exists s', views_for_rows rows l s = Ok s' /\ list_ok rows s' /\ selection s' = selection s /\
    shown_rows s' ≡ₚ l ++ shown_rows s.
Proof.
  induction l as [|r l IH]; intros s Hok Hl; [by exists s|]. apply Forall_cons in Hl as [[item Hr] Hl].
  cbn [views_for_rows]. destruct (viewForRow_ok rows s r item false Hok Hr) as (s1 & id & -> & Hok1 & Hsel1 & Hp1).
  cbn [outcome_bind fst]. destruct (IH s1 Hok1 Hl) as (s2 & -> & Hok2 & Hsel2 & Hp2).
  exists s2. split_and!; [done|done|congruence|]. rewrite Hp2, Hp1. cbn. symmetry. apply Permutation_middle.
Qed.

(** *** The scan of the child views *)
Definition clear_outside (range : Z * Z) (v : item_view) : item_view :=
  match contentIndex v with
  | Some i => if outside range i then set_selected false (set_index None v) else v
  | None => v
  end.

Definition inside (range : Z * Z) (l : list Z) : list Z := filter (fun i => outside range i = false) l.

Lemma inside_app range l1 l2 : inside range (l1 ++ l2) = inside range l1 ++ inside range l2.
Proof. apply filter_app. Qed.

Lemma scan_suffix range rows suf : forall pre s mn mx,
  childViews s = pre ++ suf -> list_ok rows s ->
  exists s', foldl (fun '(s, mn, mx) id =>
    match childViews s !! id ≫= contentIndex with
    | None => (s, mn, mx)
    | Some i =>
        if outside range i then
          (if match childViews s !! id with Some v => isDragged v | None => false end then s else _recycleView id s, mn, mx)
        else (s, Z.min mn i, Z.max mx i)
    end) (s, mn, mx) (seq (length pre) (length suf)) =
    (s', foldl Z.min mn (inside range (omap contentIndex suf)), foldl Z.max mx (inside range (omap contentIndex suf))) /\
  childViews s' = pre ++ (clear_outside range <$> suf) /\ list_ok rows s' /\ selection s' = selection s.
Proof.
  induction suf as [|v suf IH]; intros pre s mn mx Hcv Hok.
  - exists s. cbn. by rewrite Hcv.
  - assert (Hlk : childViews s !! length pre = Some v) by (rewrite Hcv; by apply list_lookup_middle).
    cbn [length seq foldl]. rewrite Hlk. cbn [mbind option_bind].
    assert (Hlen : S (length pre) = length (pre ++ [v])) by (rewrite length_app; cbn; lia).
    destruct (contentIndex v) as [i|] eqn:Ei.
    + assert (Hdr : isDragged v = false) by (apply (lo_still _ _ Hok); rewrite Hcv; set_solver).
      destruct (outside range i) eqn:Eo.
      * rewrite Hdr. destruct (recycle_ok rows s (length pre) v i Hok Hlk Ei) as (Hok1 & Hsel1 & Hcv1).
        set (s1 := _recycleView (length pre) s) in *.
        assert (Hcv1' : childViews s1 = (pre ++ [set_selected false (set_index None v)]) ++ suf).
        { rewrite Hcv1, Hcv. rewrite <- (Nat.add_0_r (length pre)), alter_app_r. cbn. by rewrite <- app_assoc. }
        destruct (IH _ s1 mn mx Hcv1' Hok1) as (s' & Hf & Hcv' & Hok' & Hsel').
        rewrite Hlen. rewrite (length_app pre [v]). rewrite (length_app pre [_]) in Hf. cbn [length] in *. rewrite Hf.
        exists s'. split_and!; [|rewrite Hcv'; cbn; unfold clear_outside at 2; by rewrite Ei, Eo, <- app_assoc|done|congruence].
        cbn. rewrite Ei. unfold inside. rewrite filter_cons, decide_False by congruence. done.
      * destruct (IH (pre ++ [v]) s (Z.min mn i) (Z.max mx i)) as (s' & Hf & Hcv' & Hok' & Hsel');
          [by rewrite Hcv, <- app_assoc|done|].
        rewrite Hlen, Hf. exists s'.
        split_and!; [|rewrite Hcv'; cbn; unfold clear_outside at 2; by rewrite Ei, Eo, <- app_assoc|done|congruence].
        cbn. rewrite Ei. unfold inside. rewrite filter_cons, decide_True by done. done.
    + destruct (IH (pre ++ [v]) s mn mx) as (s' & Hf & Hcv' & Hok' & Hsel'); [by rewrite Hcv, <- app_assoc|done|].
      rewrite Hlen, Hf. exists s'.
      split_and!; [|rewrite Hcv'; cbn; unfold clear_outside at 2; by rewrite Ei, <- app_assoc|done|congruence].
      cbn. by rewrite Ei.
Qed.

Lemma omap_clear range l : omap contentIndex (clear_outside range <$> l) = inside range (omap contentIndex l).
Proof.
  induction l as [|v l IH]; [done|]. cbn. rewrite IH. unfold clear_outside.
  destruct (contentIndex v) as [i|] eqn:Ei; [|by rewrite Ei]. unfold inside. rewrite filter_cons.
  destruct (outside range i) eqn:Eo; cbn; [by rewrite decide_False by congruence|by rewrite Ei, decide_True].
Qed.

Lemma scan_ok range rows s : list_ok rows s ->
  exists s', scan range s = (s', foldl Z.min range.2 (inside range (shown_rows s)), foldl Z.max range.1 (inside range (shown_rows s))) /\
    list_ok rows s' /\ selection s' = selection s /\ shown_rows s' = inside range (shown_rows s).
Proof.
  intros Hok. destruct (scan_suffix range rows (childViews s) [] s range.2 range.1 eq_refl Hok) as (s' & Hf & Hcv & Hok' & Hsel).
  exists s'. split_and!; [exact Hf|done|done|]. unfold shown_rows. rewrite Hcv. cbn [app]. by rewrite omap_clear.
Qed.

Lemma foldl_min_perm l l' m : l ≡ₚ l' -> foldl Z.min m l = foldl Z.min m l'.
Proof. intros H. revert m. induction H; intros m; cbn; auto; [f_equal; lia|etrans; eauto]. Qed.
Lemma foldl_max_perm l l' m : l ≡ₚ l' -> foldl Z.max m l = foldl Z.max m l'.
Proof. intros H. revert m. induction H; intros m; cbn; auto; [f_equal; lia|etrans; eauto]. Qed.

Lemma foldl_min_seqZ n : forall a m, (a <= m)%Z -> foldl Z.min m (seqZ a (Z.of_nat (S n))) = a.
Proof.
  induction n as [|n IH]; intros a m Ha.
  - rewrite seqZ_cons, seqZ_nil by lia. cbn [foldl]. lia.
  - rewrite seqZ_cons by lia. cbn [foldl]. replace (Z.pred (Z.of_nat (S (S n)))) with (Z.of_nat (S n)) by lia.
    rewrite Z.min_r by lia.
    assert (forall k b m, (m <= b)%Z -> foldl Z.min m (seqZ b (Z.of_nat k)) = m) as Hg; [|apply Hg; lia].
    clear. induction k as [|k IH]; intros b m Hb; [done|]. rewrite seqZ_cons by lia. cbn [foldl].
    rewrite Z.min_l by lia. replace (Z.pred (Z.of_nat (S k))) with (Z.of_nat k) by lia. apply IH. lia.
Qed.

Lemma foldl_max_seqZ n : forall a m, (m <= a)%Z -> foldl Z.max m (seqZ a (Z.of_nat (S n))) = (a + Z.of_nat n)%Z.
Proof.
  induction n as [|n IH]; intros a m Ha.
  - rewrite seqZ_cons, seqZ_nil by lia. cbn [foldl]. lia.
  - rewrite seqZ_cons by lia. cbn [foldl]. replace (Z.pred (Z.of_nat (S (S n)))) with (Z.of_nat (S n)) by lia.
    rewrite Z.max_r by lia. rewrite IH by lia. lia.
Qed.

(** The rows of the range that still have a view are consecutive and leave the last
    and the first row of the range out when there are others. *)
Definition contiguous (range : Z * Z) (rows : list Z) : Prop :=
  rows = [] \/ exists a b, (range.1 <= a <= b)%Z /\ (b <= range.2)%Z /\ (a < range.2)%Z /\ (range.1 < b)%Z /\
    rows ≡ₚ seqZ a (b - a + 1).

Lemma gap_rows_fill range l : (range.1 <= range.2)%Z -> contiguous range l ->
  gap_rows range (foldl Z.min range.2 l) (foldl Z.max range.1 l) ++ l ≡ₚ seqZ range.1 (range.2 - range.1 + 1).
Proof.
  destruct range as [st en]. cbn. intros Hle [->|(a & b & Ha & Hb & Hae & Hsb & Hp)]; cbn in *.
  - cbn. unfold gap_rows. cbn. rewrite !Z.eqb_refl, !app_nil_r. by replace (en + 1 - st)%Z with (en - st + 1)%Z by lia.
  - rewrite (foldl_min_perm _ _ _ Hp), (foldl_max_perm _ _ _ Hp).
    replace (b - a + 1)%Z with (Z.of_nat (S (Z.to_nat (b - a)))) by lia.
    rewrite foldl_min_seqZ, foldl_max_seqZ by lia. replace (a + Z.of_nat (Z.to_nat (b - a)))%Z with b by lia.
    unfold gap_rows. cbn. rewrite (proj2 (Z.eqb_neq a en)), (proj2 (Z.eqb_neq b st)) by lia.
    rewrite Hp, reverse_Permutation.
    replace (en - st + 1)%Z with ((a - st) + ((b - a + 1) + (en - b)))%Z by lia.
    rewrite !seqZ_app by lia. rewrite <- app_assoc. f_equiv.
    replace (st + (a - st))%Z with a by lia. replace (a + (b - a + 1))%Z with (b + 1)%Z by lia.
    apply Permutation_app_comm.
Qed.

Lemma gap_rows_inside range mn mx : Forall (fun r => range.1 <= r <= range.2)%Z (gap_rows range (Z.min range.2 mn) (Z.max range.1 mx)).
Proof.
  destruct range as [st en]. unfold gap_rows. cbn. apply Forall_app. split.
  - apply Forall_forall. intros r. rewrite elem_of_seqZ. destruct (Z.eqb_spec (Z.min en mn) en); lia.
  - destruct (Z.eqb_spec (Z.max st mx) st) as [E|E]; [constructor|]. apply Forall_forall. intros r. rewrite elem_of_reverse, elem_of_seqZ. lia.
Qed.

Lemma foldl_min_le l : forall m, exists k, foldl Z.min m l = Z.min m k.
Proof.
  induction l as [|x l IH]; intros m; cbn; [exists m; lia|]. destruct (IH (Z.min m x)) as [k ->]. exists (Z.min x k). lia.
Qed.
Lemma foldl_max_ge l : forall m, exists k, foldl Z.max m l = Z.max m k.
Proof.
  induction l as [|x l IH]; intros m; cbn; [exists m; lia|]. destruct (IH (Z.max m x)) as [k ->]. exists (Z.max x k). lia.
Qed.

(** *** Hiding the pool *)
Lemma hide_pooled_lookup ids : forall l i,
  hide_pooled l ids !! i = (fun v => if bool_decide (i ∈ ids) then set_visible false v else v) <$> l !! i.
Proof.
  induction ids as [|x ids IH]; intros l i; cbn [hide_pooled foldl].
  - rewrite bool_decide_eq_false_2 by set_solver. by destruct (l !! i).
  - change (foldl _ (alter (set_visible false) x l) ids) with (hide_pooled (alter (set_visible false) x l) ids).
    rewrite IH, list_lookup_alter. destruct (decide (x = i)) as [->|Hne].
    + rewrite (bool_decide_eq_true_2 (i ∈ i :: ids)) by set_solver. destruct (l !! i); cbn; [|done].
      by case_bool_decide.
    + assert (bool_decide (i ∈ x :: ids) = bool_decide (i ∈ ids)) as -> by (apply bool_decide_ext; set_solver). done.
Qed.

Lemma pooled_elem s id : id ∈ concat (map_to_list (_recycledViews s)).*2 <-> exists c, id ∈ pool s c.
Proof.
  rewrite list_elem_of_In, List.in_concat. split.
  - intros (l & Hl & Hin). apply list_elem_of_In in Hl, Hin. apply list_elem_of_fmap in Hl as ([c l'] & -> & Hc).
    apply elem_of_map_to_list in Hc. exists c. unfold pool. by rewrite Hc.
  - intros [c Hc]. unfold pool in Hc. destruct (_recycledViews s !! c) as [l|] eqn:E; [|by apply elem_of_nil in Hc].
    exists l. rewrite <- list_elem_of_In. split; [|by apply list_elem_of_In]. apply list_elem_of_fmap. exists (c, l). split; [done|].
    by apply elem_of_map_to_list.
Qed.

Lemma omap_indices (l : list item_view) : omap contentIndex l = omap id (contentIndex <$> l).
Proof. induction l as [|v l IH]; [done|]. cbn. by rewrite IH. Qed.

Lemma hide_ok rows s : list_ok rows s ->
  list_ok rows (_hideRecycledViews s) /\ shown_rows (_hideRecycledViews s) = shown_rows s /\
  forall v, v ∈ childViews (_hideRecycledViews s) -> isVisible v = bool_decide (is_Some (contentIndex v)).
Proof.
  intros [[Pn Pd Pf Pb] Hv Hs]. unfold _hideRecycledViews. set (ids := concat _).
  set (s' := set_views (hide_pooled (childViews s) ids) s).
  assert (Hlk : forall i, childViews s' !! i = (fun v => if bool_decide (i ∈ ids) then set_visible false v else v) <$> childViews s !! i)
    by apply hide_pooled_lookup.
  assert (Hids : forall i, i ∈ ids <-> exists c, i ∈ pool s c) by apply pooled_elem.
  assert (Hcase : forall i v', childViews s' !! i = Some v' -> exists v, childViews s !! i = Some v /\
    contentIndex v' = contentIndex v /\ isDragged v' = isDragged v /\
    (contentIndex v = None /\ isVisible v' = false \/ is_Some (contentIndex v) /\ v' = v)).
  { intros i v' Hi. rewrite Hlk in Hi. destruct (childViews s !! i) as [v|] eqn:E; [|done]. cbn in Hi. injection Hi as <-.
    exists v. split; [done|]. case_bool_decide as Hin.
    - rewrite Hids in Hin. apply (Pf i v E) in Hin. cbn. rewrite Hin. auto.
    - split_and!; [done|done|]. right. split; [|done]. destruct (contentIndex v) eqn:Ec; [eauto|].
      exfalso. apply Hin. rewrite Hids. by apply (Pf i v E). }
  split_and!.
  - split.
    + split; [done|done| |].
      * intros id v' Hi. destruct (Hcase id v' Hi) as (v & Hv0 & -> & _). by apply Pf.
      * intros c id Hc. rewrite Hlk. destruct (Pb c id Hc) as [v ->]. eauto.
    + intros v' (i & Hi)%list_elem_of_lookup. destruct (Hcase i v' Hi) as (v & Hv0 & Hci & _ & [[Hn _]|[_ ->]]).
      * unfold view_ok. by rewrite Hci, Hn.
      * apply Hv. by eapply list_elem_of_lookup_2.
    + intros v' (i & Hi)%list_elem_of_lookup. destruct (Hcase i v' Hi) as (v & Hv0 & _ & -> & _).
      apply Hs. by eapply list_elem_of_lookup_2.
  - unfold shown_rows. assert (contentIndex <$> childViews s' = contentIndex <$> childViews s) as Heq.
    { apply list_eq. intros i. rewrite !list_lookup_fmap, Hlk. destruct (childViews s !! i); cbn; [|done].
      by case_bool_decide. }
    rewrite (omap_indices (childViews s')), (omap_indices (childViews s)). by rewrite Heq.
  - intros v' (i & Hi)%list_elem_of_lookup. destruct (Hcase i v' Hi) as (v & Hv0 & Hci & _ & [[Hn ->]|[Hsm ->]]).
    + rewrite Hci, Hn. by rewrite bool_decide_eq_false_2 by (intros [? ?]; done).
    + assert (Hok : view_ok rows s v) by (apply Hv; by eapply list_elem_of_lookup_2).
      destruct Hsm as [r Hr]. unfold view_ok in Hok. rewrite Hr in Hok |- *. destruct Hok as (? & _ & _ & -> & _).
      by rewrite bool_decide_eq_true_2 by eauto.
Qed.

Lemma range_bounds offset (rows : list nat) height top :
  (0 < itemHeight)%Z -> (0 <= bufferSize)%Z -> (0 <= height)%Z -> rows <> [] ->
  let range := _rowsToRenderRange true offset (Z.of_nat (length rows)) height top in
  (0 <= range.1)%Z /\ (range.1 <= range.2)%Z /\ (range.2 < Z.of_nat (length rows))%Z.
Proof.
  intros Hh Hb Hht Hne. cbv zeta. unfold _rowsToRenderRange. cbn [negb fst snd].
  assert (0 < length rows) by (destruct rows; [done|cbn; lia]).
  pose proof (Z.quot_pos (Z.max 0 (top - offset)) itemHeight ltac:(lia) Hh).
  pose proof (Z.quot_pos height itemHeight Hht Hh).
  pose proof (Z.div_le_upper_bound bufferSize 2 bufferSize ltac:(lia) ltac:(lia)). lia.
Qed.

(** ** Properties *)

(** The rows to render lie in the list, and every row of the list of which a
    pixel is visible is among them: an even buffer of at least two rows makes up for
    the rows cut by both edges of the visible part. *)
Theorem range_covers_viewport offset n height top r :
  (0 < itemHeight)%Z -> (2 <= bufferSize)%Z -> Z.even bufferSize = true -> (0 <= height)%Z -> (0 < n)%Z ->
  let range := _rowsToRenderRange true offset n height top in
  let first_pixel := Z.max 0 (top - offset) in
  (0 <= range.1)%Z /\ (range.2 < n)%Z /\
  ((0 <= r < n)%Z -> (first_pixel < (r + 1) * itemHeight)%Z -> (r * itemHeight < first_pixel + height)%Z ->
   (range.1 <= r <= range.2)%Z).
Proof.
  intros Hh Hb Hev Hht Hn. cbv zeta. unfold _rowsToRenderRange. cbn [negb fst snd].
  set (t := Z.max 0 (top - offset)). rewrite !Z.quot_div_nonneg by lia.
  apply Z.even_spec in Hev as [k ->]. replace (2 * k / 2)%Z with k by (rewrite Z.mul_comm, Z.div_mul; lia).
  pose proof (Z.mul_div_le t itemHeight Hh) as Ht1. pose proof (Z.mul_succ_div_gt t itemHeight Hh) as Ht2.
  pose proof (Z.mul_succ_div_gt height itemHeight Hh) as Hq2.
  set (q := (t / itemHeight)%Z) in *. set (d := (height / itemHeight)%Z) in *.
  split_and!; [lia|lia|]. intros Hr Hlo Hhi.
  assert (q <= r)%Z by nia. assert (r <= q + d + 1)%Z by nia. lia.
Qed.

(** Rendering a range: what the rows that keep their views leave out is filled. *)
Lemma render_range_ok rows range s :
  (0 <= range.1)%Z -> (range.1 <= range.2)%Z -> (range.2 < Z.of_nat (length rows))%Z -> list_ok rows s ->
  contiguous range (inside range (shown_rows s)) ->
  exists s', render_range rows range s = Ok s' /\ list_ok rows s' /\
    shown_rows s' ≡ₚ seqZ range.1 (range.2 - range.1 + 1) /\
    forall v, v ∈ childViews s' -> isVisible v = bool_decide (is_Some (contentIndex v)).
Proof.
  intros H0 H1 H2 Hok Hcont. unfold render_range. destruct (scan_ok range rows s Hok) as (s1 & -> & Hok1 & _ & Hsh1).
  pose proof (gap_rows_fill range _ H1 Hcont) as Hfill.
  destruct (views_for_rows_ok rows (gap_rows range (foldl Z.min range.2 (inside range (shown_rows s)))
    (foldl Z.max range.1 (inside range (shown_rows s)))) s1 Hok1) as (s2 & Hv2 & Hok2 & _ & Hp2).
  { destruct (foldl_min_le (inside range (shown_rows s)) range.2) as [k1 ->].
    destruct (foldl_max_ge (inside range (shown_rows s)) range.1) as [k2 ->].
    eapply Forall_impl; [apply gap_rows_inside|]. cbn. intros x Hx. unfold itemForRow.
    destruct (Z.ltb_spec x 0); [lia|]. apply lookup_lt_is_Some. lia. }
  rewrite Hv2. cbn [outcome_bind]. destruct (hide_ok rows s2 Hok2) as (Hok3 & Hsh3 & Hvis).
  eexists. split; [done|]. split_and!; [done| |done].
  rewrite Hsh3, Hp2, Hsh1. exact Hfill.
Qed.

Lemma set_scroll_ok rows h t s : list_ok rows s -> list_ok rows (set_scroll h t s).
Proof. intros [[]]. split; [by split|done|done]. Qed.

End lazy.

(** ** Witnesses *)
Definition ex_class (_ : nat) : string := "Item".
Definition ex_rows : list nat := seq 0 100.
Definition ex_empty : state := State [] ∅ (Some 3) 200 0.

Lemma ex_empty_ok : list_ok 25 ex_rows ex_empty.
Proof.
  split; [|intros v Hv; by apply elem_of_nil in Hv|intros v Hv; by apply elem_of_nil in Hv].
  split; [intros c; constructor|intros c c' id Hid; by apply elem_of_nil in Hid|done|].
  intros c id Hid. by apply elem_of_nil in Hid.
Defined.

Lemma range_covers_viewport_witness :
  let range := _rowsToRenderRange 25 10 true 0 100 200 1000 in
  (0 <= range.1)%Z /\ (range.2 < 100)%Z /\
  ((0 <= 47 < 100)%Z -> (1000 < (47 + 1) * 25)%Z -> (47 * 25 < 1000 + 200)%Z -> (range.1 <= 47 <= range.2)%Z).
Proof. apply (range_covers_viewport 25 10 0 100 200 1000 47); [lia|lia|reflexivity|lia|lia]. Defined.


(** The rows shown after two scrolls of a list of 25 pixels per row in a view of 200. *)
Definition after_scrolls (top1 top2 : Z) : outcome (list Z) :=
  do! s1 <- didScroll ex_class 25 10 true 0 ex_rows 200 top1 ex_empty ;
  do! s2 <- didScroll ex_class 25 10 true 0 ex_rows 200 top2 s1 ;
  Ok (shown_rows s2).

(** Scrolling down by exactly the rows that are rendered: the row that keeps its view
    is the first of the new range, the code takes it for a range without views at
    the bottom, and the other rows stay empty. *)
Lemma scroll_down_leaves_gap : after_scrolls 250 700 = Ok [23%Z].
Proof. vm_compute. reflexivity. Qed.

(** Scrolling up by as much: the row that keeps its view is the last one, and gets
    another view on top. *)
Lemma scroll_up_duplicates : match after_scrolls 700 250 with Ok l => length (filter (.= 23%Z) l) = 2 | Throw _ => False end.
Proof. vm_compute. reflexivity. Qed.
