(* ===== verification/LazyScroll.v ===== *)
(** * The life of a lazy list in the document ([views/lazy_list_view.js])

    What a lazy list does when its content changes, when its element comes into the
    document, becomes visible or leaves it, and how high it is.  The scrolling itself is in
    [LazyList]. *)

From S2P Require Import Prelude.
From S2P Require Import LazyList.
Open Scope string_scope.
Open Scope list_scope.
Open Scope flame_scope.
Open Scope Z_scope.

Record lazy_view := LazyView {
  list_state : state;
  rows : list nat;                          (* the content *)
  layout_height : option Z;
  css_height : option Z;
  heightScheduled : bool                    (* [_updateHeight] is to run after rendering *)
}.

Definition put_list s v := LazyView s (rows v) (layout_height v) (css_height v) (heightScheduled v).

Section lazy.
Context (item_class : nat -> string) (itemHeight bufferSize offset : Z).
Context (useAbsolutePosition : bool).
Notation didScroll := (didScroll item_class itemHeight bufferSize).
Notation fullRerender := (fullRerender item_class itemHeight bufferSize).
Notation recycle_all := (recycle_all item_class).
Notation list_ok := (list_ok itemHeight).

(** ** Height *)

Definition numberOfRows (v : lazy_view) : Z := Z.of_nat (length (rows v)).

(** With absolute positions [adjustLayout] changes the layout and the element; otherwise
    the element is changed if there is one, and then the layout. *)
Definition _updateHeight (hasElement : bool) (v : lazy_view) : lazy_view :=
  let height := numberOfRows v * itemHeight in
  LazyView (list_state v) (rows v) (Some height)
    (if useAbsolutePosition || hasElement then Some height else css_height v) (heightScheduled v).

Definition numberOfRowsChanged (v : lazy_view) : lazy_view :=
  LazyView (list_state v) (rows v) (layout_height v) (css_height v) true.

Definition after_render (hasElement : bool) (v : lazy_view) : lazy_view :=
  if heightScheduled v then
    let v1 := _updateHeight hasElement v in
    LazyView (list_state v1) (rows v1) (layout_height v1) (css_height v1) false
  else v.

(** ** Events *)

(** The element of the scroll view: its height and how far it is scrolled. *)
Definition _updateScrollPosition (inDocument : bool) (element : option (Z * Z)) (v : lazy_view) : outcome lazy_view :=
  match element with
  | Some (offsetHeight, scrollTop) =>
      do! s <- didScroll inDocument offset (rows v) offsetHeight scrollTop (list_state v) ; Ok (put_list s v)
  | None => Ok v
  end.

Definition didInsertElement := _updateScrollPosition.
Definition becameVisible := _updateScrollPosition.

Definition willDestroyElement (v : lazy_view) : lazy_view := put_list (recycle_all (list_state v)) v.

(** [arrayDidChange], for any change of the content. *)
Definition contentDidChange (inDocument suppressed : bool) (rows' : list nat) (v : lazy_view) : outcome lazy_view :=
  let v1 := LazyView (list_state v) rows' (layout_height v) (css_height v) (heightScheduled v) in
  if suppressed then Ok v1
  else
    do! s <- fullRerender inDocument offset rows' (list_state v1) ;
    Ok (numberOfRowsChanged (put_list s v1)).

(** ** Lemmas *)

Lemma recycle_loop_ok rws n s : list_ok rws s -> (n <= length (childViews s))%nat ->
  let s' := foldl (fun s id => match childViews s !! id ≫= contentIndex with Some _ => _recycleView item_class id s | None => s end)
    s (seq 0 n) in
  list_ok rws s' /\ length (childViews s') = length (childViews s) /\ selection s' = selection s /\
  _lastScrollHeight s' = _lastScrollHeight s /\ _lastScrollTop s' = _lastScrollTop s /\
  forall id v, (id < n)%nat -> childViews s' !! id = Some v -> contentIndex v = None.
Proof.
  intros Hok. induction n as [|n IH]; intros Hn; cbv zeta.
  { split_and!; [done..|]. intros id v Hid. lia. }
  rewrite seq_S, foldl_app. destruct IH as (Hok1 & Hlen & Hsel & Hh & Ht & Hnone); [lia|].
  set (s1 := foldl _ s (seq 0 n)) in *. cbn [foldl Nat.add].
  destruct (childViews s1 !! n) as [v|] eqn:Ev; cbn [mbind option_bind].
  2: { apply lookup_ge_None in Ev. lia. }
  destruct (contentIndex v) as [i|] eqn:Ei.
  - destruct (recycle_ok item_class itemHeight rws s1 n v i Hok1 Ev Ei) as (Hok2 & Hsel2 & Hcv).
    assert (_lastScrollHeight (_recycleView item_class n s1) = _lastScrollHeight s1 /\
      _lastScrollTop (_recycleView item_class n s1) = _lastScrollTop s1) as [Hh2 Ht2].
    { unfold _recycleView. rewrite Ev. by destruct (content v). }
    rewrite Hsel2, Hh2, Ht2, Hcv, length_alter. split_and!; [done..|].
    intros id w Hid Hw. destruct (decide (id = n)) as [->|Hne].
    + rewrite list_lookup_alter_eq, Ev in Hw. cbn in Hw. by injection Hw as <-.
    + rewrite list_lookup_alter_ne in Hw by done. apply (Hnone id w); [lia|done].
  - split_and!; [done..|]. intros id w Hid Hw. destruct (decide (id = n)) as [->|Hne]; [congruence|]. apply (Hnone id w); [lia|done].
Qed.

(** All views in the pool: there is nothing that a new content could contradict. *)
Lemma recycle_all_ok rws rws' s : list_ok rws s ->
  list_ok rws' (recycle_all s) /\ shown_rows (recycle_all s) = [] /\
  _lastScrollHeight (recycle_all s) = _lastScrollHeight s /\ _lastScrollTop (recycle_all s) = _lastScrollTop s.
Proof.
  intros Hok. destruct (recycle_loop_ok rws (length (childViews s)) s Hok) as ([Hp Hv Hs] & Hlen & _ & Hh & Ht & Hnone); [lia|].
  fold (recycle_all s) in *.
  assert (forall v, v ∈ childViews (recycle_all s) -> contentIndex v = None) as Hall.
  { intros v (id & Hid)%list_elem_of_lookup. apply (Hnone id v); [|done]. apply lookup_lt_Some in Hid. lia. }
  split; [split; [done| |done]|].
  - intros v Hin. unfold view_ok. by rewrite (Hall v Hin).
  - split; [|done]. unfold shown_rows. clear -Hall. induction (childViews (recycle_all s)) as [|v l IH]; [done|].
    cbn. rewrite (Hall v) by set_solver. apply IH. set_solver.
Qed.

(** The rows that should be on the screen for a position of the scroll view. *)
Definition rendered (rws : list nat) (height top : Z) (s : state) : Prop :=
  list_ok rws s /\
  (let range := _rowsToRenderRange itemHeight bufferSize true offset (Z.of_nat (length rws)) height top in
   shown_rows s ≡ₚ seqZ range.1 (range.2 - range.1 + 1)) /\
  forall v, v ∈ childViews s -> isVisible v = bool_decide (is_Some (contentIndex v)).

Lemma empty_range height top : 0 < itemHeight -> 0 <= bufferSize -> 0 <= height ->
  _rowsToRenderRange itemHeight bufferSize true offset (Z.of_nat (length (@nil nat))) height top = (0, -1).
Proof.
  intros Hh Hb Hht. unfold _rowsToRenderRange. cbn [negb length].
  pose proof (Z.quot_pos (Z.max 0 (top - offset)) itemHeight ltac:(lia) Hh).
  pose proof (Z.quot_pos height itemHeight Hht Hh).
  pose proof (Z.div_le_upper_bound bufferSize 2 bufferSize ltac:(lia) ltac:(lia)).
  f_equal; lia.
Qed.

Lemma render_from_pool rws height top s :
  0 < itemHeight -> 0 <= bufferSize -> 0 <= height -> list_ok rws s -> shown_rows s = [] ->
  exists s', didScroll true offset rws height top s = Ok s' /\ rendered rws height top s'.
Proof.
  intros Hh Hb Hht Hok Hnone. unfold didScroll, rendered. cbv zeta.
  assert (Hok' : list_ok rws (set_scroll height top s)) by (by apply set_scroll_ok).
  destruct rws as [|r rws].
  - set (range := _rowsToRenderRange _ _ _ _ _ _ _). assert (range = (0, -1)) as Hrange.
    { apply empty_range; lia. }
    rewrite Hrange. unfold render_range. destruct (scan_ok item_class itemHeight (0, -1) [] _ Hok') as (s1 & -> & Hok1 & _ & Hsh1).
    assert (shown_rows (set_scroll height top s) = []) as E by exact Hnone. rewrite E in *. cbn in Hsh1 |- *.
    destruct (hide_ok item_class itemHeight [] s1 Hok1) as (Hok3 & Hsh3 & Hvis). eexists. split; [reflexivity|].
    split; [done|]. split; [|done]. by rewrite Hsh3, Hsh1.
  - destruct (range_bounds itemHeight bufferSize offset (r :: rws) height top Hh Hb Hht) as (H0 & H1 & H2); [done|].
    destruct (render_range_ok item_class itemHeight (r :: rws) _ _ H0 H1 H2 Hok') as (s' & E & Hok2 & Hp & Hvis).
    + assert (shown_rows (set_scroll height top s) = []) as -> by exact Hnone. by left.
    + exists s'. split; [exact E|]. by split_and!.
Qed.

(** ** Properties *)

Lemma full_rerender_ok rws rws' s : 0 < itemHeight -> 0 <= bufferSize -> 0 <= _lastScrollHeight s -> list_ok rws s ->
  exists s', fullRerender true offset rws' s = Ok s' /\ rendered rws' (_lastScrollHeight s) (_lastScrollTop s) s'.
Proof.
  intros Hh Hb Hht Hok. destruct (recycle_all_ok rws rws' s Hok) as (Hok' & Hnone & _).
  by apply render_from_pool.
Qed.


(** A list whose element leaves the document has all its views in the pool; coming back, with
    whatever rows and wherever the scroll view is by then, it shows the rows of that
    position. *)
Theorem back_in_document rws' height top v :
  0 < itemHeight -> 0 <= bufferSize -> 0 <= height -> list_ok (rows v) (list_state v) ->
  let gone := willDestroyElement v in
  shown_rows (list_state gone) = [] /\
  exists v', didInsertElement true (Some (height, top)) (LazyView (list_state gone) rws' (layout_height v) (css_height v) (heightScheduled v)) = Ok v' /\
    rendered rws' height top (list_state v').
Proof.
  intros Hh Hb Hht Hok. cbv zeta. destruct (recycle_all_ok (rows v) rws' (list_state v) Hok) as (Hok' & Hnone & _).
  split; [exact Hnone|]. unfold didInsertElement, _updateScrollPosition. cbn [list_state rows willDestroyElement put_list].
  destruct (render_from_pool rws' height top _ Hh Hb Hht Hok' Hnone) as (s' & -> & Hr). eexists. split; [reflexivity|exact Hr].
Qed.
End lazy.

(** ** Witnesses *)
Definition ex_lazy : lazy_view := LazyView ex_empty ex_rows None None false.


Lemma back_in_document_witness :
  let gone := willDestroyElement ex_class ex_lazy in
  shown_rows (list_state gone) = [] /\
  exists v', didInsertElement ex_class 25 10 0 true (Some (200, 500)) (LazyView (list_state gone) ex_rows None None false) = Ok v' /\
    rendered 25 10 0 ex_rows 200 500 (list_state v').
Proof. apply (back_in_document ex_class 25 10 0 ex_rows 200 500 ex_lazy); [lia|lia|lia|exact ex_empty_ok]. Defined.
