(* ===== verification/Controls.v ===== *)
(** * Scroll views and radio buttons ([views/scroll_view.js], [views/radio_button_view.js])

    A scroll view tells its child views where it is scrolled to, at most once per frame of the
    animation; the radio buttons of a group share the value that one of them stands for. *)

From S2P Require Import Prelude.
Open Scope string_scope.
Open Scope list_scope.
Open Scope flame_scope.

(** ** Scroll views *)

(** The element of a scroll view: its height and how far it is scrolled. *)
Record scroll_element := ScrollElement { offsetHeight : Z; scrollTop : Z }.

(** A child view that implements [didScroll] knows what it was told last; others do not
    listen. *)
Inductive child := Deaf | Told (last : option (Z * Z)).

Record scroll_view := ScrollView {
  lastScrollY : Z;
  isScrolling : bool;
  frames : nat;                           (* the animation frames asked for and not come yet *)
  scroll_el : option scroll_element;
  scroll_children : list child
}.

Definition tell (height top : Z) (c : child) : child :=
  match c with Deaf => Deaf | Told _ => Told (Some (height, top)) end.

Definition set_el e s := ScrollView (lastScrollY s) (isScrolling s) (frames s) e (scroll_children s).
Definition set_frames n s := ScrollView (lastScrollY s) (isScrolling s) n (scroll_el s) (scroll_children s).

(** [_update]; without an element a property of null is read. *)
Definition _update (s : scroll_view) : outcome scroll_view :=
  match scroll_el s with
  | None => Throw TypeError
  | Some e => Ok (ScrollView (lastScrollY s) false (frames s) (scroll_el s) (tell (offsetHeight e) (lastScrollY s) <$> scroll_children s))
  end.

(** [didScroll], the handler of the element's scroll events. *)
Definition didScroll (s : scroll_view) : outcome scroll_view :=
  match scroll_el s with
  | None => Throw TypeError
  | Some e => Ok (ScrollView (scrollTop e) true (if isScrolling s then frames s else S (frames s)) (scroll_el s) (scroll_children s))
  end.

Inductive scroll_event :=
| UserScroll (top : Z)
| Resize (height : Z)
| Frame                                   (* an animation frame *)
| Inserted (height : Z)                   (* a new element, which is not scrolled *)
| Destroyed.

(** What happens to a scroll view: no scroll event comes without an element, nor a frame that
    was not asked for. *)
Definition scroll_step (ev : scroll_event) (s : scroll_view) : outcome scroll_view :=
  match ev, scroll_el s with
  | UserScroll top, Some e => didScroll (set_el (Some (ScrollElement (offsetHeight e) top)) s)
  | Resize h, Some e => Ok (set_el (Some (ScrollElement h (scrollTop e))) s)
  | Frame, _ => match frames s with S n => _update (set_frames n s) | O => Ok s end
  | Inserted h, None => _update (set_el (Some (ScrollElement h 0)) s)
  | Destroyed, _ => Ok (set_el None s)
  | _, _ => Ok s
  end.

Fixpoint scroll_run (evs : list scroll_event) (s : scroll_view) : outcome scroll_view :=
  match evs with [] => Ok s | ev :: evs' => do! s' <- scroll_step ev s ; scroll_run evs' s' end.

(** *** Specification *)

Definition knows (top : Z) (c : child) : Prop := match c with Deaf => True | Told l => snd <$> l = Some top end.

Definition in_page (ev : scroll_event) : Prop := match ev with Inserted _ | Destroyed => False | _ => True end.

Record scroll_ok (s : scroll_view) : Prop := {
  so_frames : frames s = if isScrolling s then 1 else 0;
  so_known : exists e, scroll_el s = Some e /\ lastScrollY s = scrollTop e;
  so_told : isScrolling s = false -> Forall (knows (lastScrollY s)) (scroll_children s)
}.

Lemma tell_knows h top l : Forall (knows top) (tell h top <$> l).
Proof. induction l as [|c l IH]; constructor; [by destruct c|done]. Qed.

Lemma scroll_event_ok ev s : in_page ev -> scroll_ok s -> exists s', scroll_step ev s = Ok s' /\ scroll_ok s'.
Proof.
  intros Hev [Hf (e & He & Hl) Ht]. unfold scroll_step. rewrite He. destruct ev as [top|h| | |]; [| | |done|done].
  - eexists. split; [reflexivity|]. split; cbn; [by rewrite Hf; destruct (isScrolling s)|by eexists|done].
  - eexists. split; [reflexivity|]. split; cbn; [done|by eexists|done].
  - destruct (frames s) as [|n] eqn:En; [exists s; split; [done|split; [congruence|by eexists|done]]|].
    unfold _update. cbn [scroll_el set_frames]. rewrite He. eexists. split; [reflexivity|].
    split; cbn; [destruct (isScrolling s); congruence|by eexists|]. intros _. apply tell_knows.
Qed.

(** Once a scroll view is in the page, however it is scrolled and resized and whenever
    frames come, nothing throws, at most one frame is awaited at a time, and whenever none is,
    all child views that listen have been told where the element is scrolled to; while one is
    awaited, that frame will do so. *)
Theorem children_learn_scrolling evs h cs n :
  Forall in_page evs ->
  exists s0 s e, scroll_step (Inserted h) (ScrollView 0 false 0 None cs) = Ok s0 /\ scroll_run evs s0 = Ok s /\
    scroll_el s = Some e /\ frames s <= 1 /\
    (frames s = n -> exists s', scroll_run (repeat Frame n) s = Ok s' /\ frames s' = 0 /\
       Forall (knows (scrollTop e)) (scroll_children s')).
Proof.
  intros Hevs. eexists. assert (forall s0, scroll_ok s0 -> exists s, scroll_run evs s0 = Ok s /\ scroll_ok s) as Hrun.
  { induction Hevs as [|ev evs Hev _ IH]; intros s0 H0; [by eexists|]. destruct (scroll_event_ok ev s0 Hev H0) as (s1 & E & H1).
    cbn [scroll_run]. rewrite E. by apply IH. }
  set (s0 := ScrollView 0 false 0 (Some (ScrollElement h 0)) (tell h 0 <$> cs)).
  destruct (Hrun s0) as (s & Es & [Hf (e & He & Hl) Ht]).
  { split; cbn; [done|by eexists|]. intros _. apply tell_knows. }
  exists s, e. split; [reflexivity|]. split; [exact Es|]. split; [done|]. split; [rewrite Hf; destruct (isScrolling s); lia|].
  intros <-. rewrite Hf. destruct (isScrolling s) eqn:Ei; cbn [repeat scroll_run].
  - unfold scroll_step. rewrite Hf. unfold _update. cbn [scroll_el set_frames]. rewrite He. eexists. split; [reflexivity|].
    split; [done|]. rewrite <- Hl. apply tell_knows.
  - exists s. split; [done|]. split; [done|]. rewrite <- Hl. by apply Ht.
Qed.

(** ** Radio buttons *)

Record radio := Radio { r_value : jsval; r_isDisabled : bool }.
Record radio_group := Group { targetValue : jsval; radios : list radio }.

(** The computed property [isSelected], which setting it does not change. *)
Definition radio_isSelected (g : radio_group) (r : radio) : bool :=
  if bool_decide (r_value r = JUndefined) || bool_decide (targetValue g = JUndefined) then false
  else strict_eq (r_value r) (targetValue g).

(** A click on a button that is not disabled performs its [action]; that radio buttons are
    sticky makes no difference. *)
Definition radio_click (i : nat) (g : radio_group) : radio_group :=
  match radios g !! i with
  | Some r => if r_isDisabled r then g else Group (r_value r) (radios g)
  | None => g
  end.

Definition selected_radios (g : radio_group) : list nat :=
  fst <$> base.filter (fun ir => radio_isSelected g ir.2 = true) (imap pair (radios g)).

(** The values tell the buttons apart. *)
Definition radios_ok (l : list radio) : Prop :=
  NoDup (r_value <$> l) /\ Forall (fun r => r_value r <> JUndefined /\ r_value r <> JNaN) l.

Definition enabled_at (l : list radio) (i : nat) : bool :=
  match l !! i with Some r => negb (r_isDisabled r) | None => false end.

Lemma clicks_radios clk g : radios (foldl (fun g i => radio_click i g) g clk) = radios g.
Proof.
  revert g. induction clk as [|i l IH]; intros g; [done|]. cbn [foldl]. rewrite IH. unfold radio_click.
  destruct (radios g !! i) as [r|]; [|done]. by destruct (r_isDisabled r).
Qed.

Lemma selected_one l i r : radios_ok l -> l !! i = Some r -> selected_radios (Group (r_value r) l) = [i].
Proof.
  intros [Hnd Hv] Hi. unfold selected_radios. cbn [radios].
  assert (forall k l1 l2, l = l1 ++ l2 -> length l1 = k ->
    fst <$> base.filter (fun ir => radio_isSelected (Group (r_value r) l) ir.2 = true) (imap (fun j x => (k + j, x)) l2) =
    if decide (k <= i) then [i] else []) as H.
  2: { specialize (H 0 [] l eq_refl eq_refl). cbn in H. rewrite decide_True in H by lia. exact H. }
  intros k l1 l2. revert k l1. induction l2 as [|x l2 IH]; intros k l1 -> Hk.
  { rewrite decide_False; [done|]. apply lookup_lt_Some in Hi. rewrite app_nil_r in Hi. lia. }
  cbn [imap]. rewrite Nat.add_0_r. assert (imap ((fun j x => (k + j, x)) ∘ S) l2 = imap (fun j x => (S k + j, x)) l2) as ->.
  { apply imap_ext. intros j y _. cbn. f_equal. lia. }
  specialize (IH (S k) (l1 ++ [x])). rewrite <- app_assoc, length_app in IH. specialize (IH eq_refl ltac:(cbn; lia)).
  assert (radio_isSelected (Group (r_value r) (l1 ++ x :: l2)) x = bool_decide (k = i)) as Hx.
  { unfold radio_isSelected. cbn [targetValue]. rewrite Forall_forall in Hv.
    destruct (Hv r) as [Hr1 Hr2]; [by eapply list_elem_of_lookup_2|]. destruct (Hv x) as [Hx1 Hx2]; [set_solver|].
    rewrite !bool_decide_eq_false_2 by done. cbn [orb].
    assert (strict_eq (r_value x) (r_value r) = bool_decide (r_value x = r_value r)) as -> by (by destruct (r_value x), (r_value r)).
    apply bool_decide_ext. split; [|intros <-].
    - intros E. apply (NoDup_lookup (r_value <$> (l1 ++ x :: l2)) k i (r_value x) Hnd).
      + by rewrite list_lookup_fmap, list_lookup_middle by lia.
      + by rewrite list_lookup_fmap, Hi, E.
    - rewrite list_lookup_middle in Hi by lia. by injection Hi as ->. }
  rewrite filter_cons. cbn [snd]. rewrite Hx. case_bool_decide as Hki.
  - rewrite decide_True by done. cbn [fmap list_fmap fst]. rewrite IH, decide_False by lia. by rewrite decide_True, Hki by lia.
  - rewrite decide_False by done. rewrite IH. destruct (decide (S k <= i)), (decide (k <= i)); done || lia.
Qed.

(** After clicks on the buttons of a group whose values tell them apart, exactly the button
    clicked last of those that are not disabled is selected; if there was no such click, the
    group is as it was. *)
Theorem last_click_is_selected clk g :
  radios_ok (radios g) ->
  let g' := foldl (fun g i => radio_click i g) g clk in
  match last (base.filter (fun i => enabled_at (radios g) i = true) clk) with
  | Some i => selected_radios g' = [i]
  | None => g' = g
  end.
Proof.
  intros Hok. cbv zeta. induction clk as [|i clk IH] using rev_ind; [done|]. rewrite foldl_app, filter_app. cbn [foldl].
  pose proof (clicks_radios clk g) as Hr. set (g1 := foldl _ g clk) in *. rewrite filter_cons, filter_nil.
  unfold radio_click. rewrite Hr. assert (enabled_at (radios g) i = match radios g !! i with Some r => negb (r_isDisabled r) | None => false end) as -> by done.
  destruct (radios g !! i) as [r|] eqn:Ei.
  - destruct (r_isDisabled r); cbn [negb]; [by rewrite decide_False, app_nil_r by done|]. rewrite decide_True by done.
    rewrite last_snoc. by apply selected_one.
  - by rewrite decide_False, app_nil_r by done.
Qed.

(** ** Witnesses and departures *)

Definition ex_events : list scroll_event := [UserScroll 10; UserScroll 20; Resize 90; Frame; UserScroll 30].

Lemma children_learn_scrolling_witness :
  exists s0 s e, scroll_step (Inserted 100) (ScrollView 0 false 0 None [Told None; Deaf]) = Ok s0 /\ scroll_run ex_events s0 = Ok s /\
    scroll_el s = Some e /\ frames s <= 1 /\
    (frames s = 1 -> exists s', scroll_run (repeat Frame 1) s = Ok s' /\ frames s' = 0 /\ Forall (knows (scrollTop e)) (scroll_children s')).
Proof. apply (children_learn_scrolling ex_events 100 [Told None; Deaf] 1). repeat constructor. Defined.

Definition ex_group : radio_group := Group JUndefined [Radio (JStr "a") false; Radio (JStr "b") true; Radio (JStr "c") false].

Lemma last_click_is_selected_witness : selected_radios (foldl (fun g i => radio_click i g) ex_group [2; 0; 1]) = [0].
Proof.
  apply (last_click_is_selected [2; 0; 1] ex_group). split.
  - cbn. repeat constructor; set_solver.
  - repeat constructor; discriminate.
Defined.

(** A scroll view that comes back into the page has a new element, which is not scrolled, but
    tells its child views the position it had when it left. *)
Lemma stale_position :
  match scroll_run [Inserted 100; UserScroll 500; Frame; Destroyed; Inserted 100] (ScrollView 0 false 0 None [Told None]) with
  | Ok s => scroll_children s = [Told (Some (100, 500)%Z)] /\ (scrollTop <$> scroll_el s) = Some 0%Z
  | Throw _ => False
  end.
Proof. vm_compute. done. Qed.

(** A frame that was awaited when the element was destroyed comes all the same. *)
Lemma frame_after_destruction :
  scroll_run [Inserted 100; UserScroll 500; Destroyed; Frame] (ScrollView 0 false 0 None [Told None]) = Throw TypeError.
Proof. vm_compute. reflexivity. Qed.
