(* ===== verification/Progress.v ===== *)
(** * Progress bars ([views/progress_view.js])

    The width of the bar as a share of the width of the view.  Numbers are those of
    JavaScript: a quotient of doubles need not be a number, and it is rounded.  The rounding is
    a parameter of which the text of the standard is used: it keeps the order of numbers, and
    integers of at most 53 bits are what they are. *)

From S2P Require Import Prelude.
From Stdlib Require Import QArith Qround.
Open Scope string_scope.
Open Scope list_scope.
Open Scope flame_scope.
Open Scope Z_scope.

(** ** Data *)

(** What [value] and [maximum] may be. *)
Inductive amount := Undefined | Null | Number (z : Z).
#[export] Instance amount_eq_dec : EqDecision amount.
Proof. solve_decision. Defined.

(** As a number; [None] is [NaN]. *)
Definition to_number (a : amount) : option Z := match a with Undefined => None | Null => Some 0 | Number z => Some z end.

Inductive double := NaN | PosInfinity | NegInfinity | Finite (q : Q).

(** The width in pixels that is set; with infinite ones there is no such width. *)
Inductive width_value := Pixels (z : Z) | NoWidth.
#[export] Instance width_value_eq_dec : EqDecision width_value.
Proof. solve_decision. Defined.

Section progress.
Context (round : Q -> Q).

(** [value / maximum] *)
Definition quotient (value maximum : amount) : double :=
  match to_number value, to_number maximum with
  | Some v, Some m =>
      if m =? 0 then if v =? 0 then NaN else if 0 <? v then PosInfinity else NegInfinity
      else Finite (round (inject_Z v / inject_Z m))
  | _, _ => NaN
  end.

(** [Math.floor(width * progress) - 4] *)
Definition floor_minus_4 (width : Z) (q : Q) : width_value := Pixels (Qfloor (round (inject_Z width * q)) - 4).

Definition size (value maximum : amount) (width : Z) : width_value :=
  match quotient value maximum with
  | NaN => Pixels 0
  | PosInfinity => floor_minus_4 width 1
  | NegInfinity => NoWidth
  | Finite q => floor_minus_4 width (if Qle_bool q 1 then q else 1%Q)
  end.

(** ** The bar in the document *)

Record bar := Bar {
  value : amount;
  maximum : amount;
  width : Z;                       (* of the layout *)
  inDOM : bool;
  scheduled : nat;                 (* callbacks after rendering *)
  css : width_value                (* of the element of the bar *)
}.

Definition current (b : bar) : width_value := size (value b) (maximum b) (width b).

(** Rendering writes the width into the element. *)
Definition render (b : bar) : bar := Bar (value b) (maximum b) (width b) true (scheduled b) (current b).

Definition sizeDidChange (b : bar) : bar := Bar (value b) (maximum b) (width b) (inDOM b) (S (scheduled b)) (css b).

Definition set_value (v : amount) (b : bar) : bar :=
  if bool_decide (value b = v) then b else sizeDidChange (Bar v (maximum b) (width b) (inDOM b) (scheduled b) (css b)).
Definition set_maximum (m : amount) (b : bar) : bar :=
  if bool_decide (maximum b = m) then b else sizeDidChange (Bar (value b) m (width b) (inDOM b) (scheduled b) (css b)).

(** A callback sets the width to the size there is by then. *)
Definition callback (b : bar) : bar :=
  if inDOM b then Bar (value b) (maximum b) (width b) (inDOM b) (scheduled b) (current b) else b.
Definition afterRender (b : bar) : bar :=
  Nat.iter (scheduled b) callback (Bar (value b) (maximum b) (width b) (inDOM b) 0 (css b)).

Inductive change := Value (v : amount) | Maximum (m : amount) | Flush.
Definition step (b : bar) (c : change) : bar :=
  match c with Value v => set_value v b | Maximum m => set_maximum m b | Flush => afterRender b end.

(** ** Properties *)

Context (round_mono : forall p q, Qle p q -> Qle (round p) (round q)).
Context (round_exact : forall z, Z.abs z <= 2 ^ 53 -> Qeq (round (inject_Z z)) (inject_Z z)).

Lemma round_between (a b : Z) (q : Q) : Z.abs a <= 2 ^ 53 -> Z.abs b <= 2 ^ 53 -> Qle (inject_Z a) q -> Qle q (inject_Z b) ->
  Qle (inject_Z a) (round q) /\ Qle (round q) (inject_Z b).
Proof.
  intros Ha Hb H1 H2. split.
  - rewrite <- (round_exact a Ha). by apply round_mono.
  - rewrite <- (round_exact b Hb). by apply round_mono.
Qed.

Lemma share_nonneg v m : 0 <= v -> 0 < m -> Qle 0 (inject_Z v / inject_Z m).
Proof. intros Hv Hm. apply Qle_shift_div_l; [by change 0%Q with (inject_Z 0); rewrite <- Zlt_Qlt|]. rewrite Qmult_0_l. change 0%Q with (inject_Z 0). by rewrite <- Zle_Qle. Qed.

Lemma share_mono v v' m : v <= v' -> 0 < m -> Qle (inject_Z v / inject_Z m) (inject_Z v' / inject_Z m).
Proof.
  intros Hv Hm. unfold Qdiv. apply Qmult_le_compat_r; [by rewrite <- Zle_Qle|]. apply Qinv_le_0_compat. change 0%Q with (inject_Z 0). rewrite <- Zle_Qle. lia.
Qed.

(** What is multiplied with the width. *)
Definition share (v m : Z) : Q := let q := round (inject_Z v / inject_Z m) in if Qle_bool q 1 then q else 1%Q.

Lemma share_bounds v m : 0 <= v -> 0 < m -> Qle 0 (share v m) /\ Qle (share v m) 1.
Proof.
  intros Hv Hm. unfold share. cbv zeta. destruct (Qle_bool _ 1) eqn:E.
  - apply Qle_bool_iff in E. split; [|done]. rewrite <- (round_exact 0) by done. apply round_mono. by apply share_nonneg.
  - split; [done|apply Qle_refl].
Qed.

Lemma share_full v m : m <= v -> 0 < m -> Qeq (share v m) 1.
Proof.
  intros Hv Hm. unfold share. cbv zeta.
  assert (Qle 1 (round (inject_Z v / inject_Z m))) as H.
  { rewrite <- (round_exact 1) by done. apply round_mono. apply Qle_shift_div_l; [by change 0%Q with (inject_Z 0); rewrite <- Zlt_Qlt|].
    rewrite Qmult_1_l. by rewrite <- Zle_Qle. }
  destruct (Qle_bool _ 1) eqn:E; [|done]. apply Qle_bool_iff in E. by apply Qle_antisym.
Qed.

Lemma share_le v v' m : v <= v' -> 0 < m -> Qle (share v m) (share v' m).
Proof.
  intros Hv Hm. unfold share. cbv zeta. pose proof (round_mono _ _ (share_mono v v' m Hv Hm)) as H.
  destruct (Qle_bool (round (inject_Z v / _)) 1) eqn:E; destruct (Qle_bool (round (inject_Z v' / _)) 1) eqn:E'; try done.
  - by apply Qle_bool_iff.
  - apply Qle_bool_iff in E'. assert (Qle_bool (round (inject_Z v / inject_Z m)) 1 = true) as C by (apply Qle_bool_iff; by eapply Qle_trans). congruence.
Qed.

Lemma size_share v m w : 0 < m -> size (Number v) (Number m) w = floor_minus_4 w (share v m).
Proof. intros Hm. unfold size, quotient. cbn [to_number]. destruct (Z.eqb_spec m 0); [lia|]. done. Qed.

Lemma scaled_mono w p q : 0 <= w -> Qle p q -> Qle (inject_Z w * p) (inject_Z w * q).
Proof.
  intros Hw H. rewrite !(Qmult_comm (inject_Z w)). apply Qmult_le_compat_r; [done|]. change 0%Q with (inject_Z 0). by rewrite <- Zle_Qle.
Qed.

Lemma floor_bounds w q : 0 <= w <= 2 ^ 53 -> Qle 0 q -> Qle q 1 -> 0 <= Qfloor (round (inject_Z w * q)) <= w.
Proof.
  intros Hw H0 H1. destruct (round_between 0 w (inject_Z w * q)) as [L U]; [done|lia| | |].
  - rewrite <- (Qmult_0_r (inject_Z w)). apply scaled_mono; [lia|done].
  - rewrite <- (Qmult_1_r (inject_Z w)) at 2. apply scaled_mono; [lia|done].
  - apply Qfloor_resp_le in L, U. by rewrite !Qfloor_Z in L, U.
Qed.

Lemma floor_one w q : 0 <= w <= 2 ^ 53 -> Qeq q 1 -> Qfloor (round (inject_Z w * q)) = w.
Proof.
  intros Hw Hq. assert (Qle (inject_Z w) (round (inject_Z w * q)) /\ Qle (round (inject_Z w * q)) (inject_Z w)) as [L U].
  { apply round_between; [lia|lia|..]; rewrite Hq, Qmult_1_r; apply Qle_refl. }
  apply Qfloor_resp_le in L, U. rewrite Qfloor_Z in L, U. lia.
Qed.

(** For a maximum that is positive and a value that is not negative the bar is at least
    empty and at most full, whatever the rounding of the computer; it is full exactly from
    the maximum on, does not get shorter when the value grows, and a value that is too large
    or a missing value does no harm.  (Four pixels belong to the frame.) *)
Theorem bar_stays_in_frame v v' m w : 0 < m -> 0 <= v -> v <= v' -> 0 <= w <= 2 ^ 53 ->
  exists z z', size (Number v) (Number m) w = Pixels z /\ size (Number v') (Number m) w = Pixels z' /\
    -4 <= z /\ z <= z' /\ z' <= w - 4 /\ (m <= v' -> z' = w - 4) /\
    size Null (Number m) w = size (Number 0) (Number m) w /\ size Undefined (Number m) w = Pixels 0.
Proof.
  intros Hm Hv Hvv Hw. rewrite !size_share by done. unfold floor_minus_4. eexists _, _. split; [reflexivity|]. split; [reflexivity|].
  destruct (share_bounds v m Hv Hm) as [L U]. destruct (share_bounds v' m ltac:(lia) Hm) as [L' U'].
  pose proof (floor_bounds w _ Hw L U). pose proof (floor_bounds w _ Hw L' U').
  pose proof (Qfloor_resp_le _ _ (round_mono _ _ (scaled_mono w _ _ (proj1 Hw) (share_le v v' m Hvv Hm)))).
  split_and!; try lia; try done; [|exact (size_share 0 m w Hm)]. intros Hf. rewrite (floor_one w _ Hw (share_full v' m Hf Hm)). lia.
Qed.

Lemma callback_frame b : value (callback b) = value b /\ maximum (callback b) = maximum b /\ width (callback b) = width b /\
  inDOM (callback b) = inDOM b /\ scheduled (callback b) = scheduled b.
Proof. unfold callback. by destruct (inDOM b) eqn:E; rewrite ?E. Qed.

Lemma iter_frame n b : value (Nat.iter n callback b) = value b /\ maximum (Nat.iter n callback b) = maximum b /\
  width (Nat.iter n callback b) = width b /\ inDOM (Nat.iter n callback b) = inDOM b /\ scheduled (Nat.iter n callback b) = scheduled b.
Proof.
  induction n as [|n (E1 & E2 & E3 & E4 & E5)]; [done|]. destruct (callback_frame (Nat.iter n callback b)) as (F1 & F2 & F3 & F4 & F5).
  cbn [Nat.iter nat_rect]. unfold Nat.iter in *. cbn [nat_rect] in *. split_and!; congruence.
Qed.

(** The callbacks after rendering leave the bar with the current size. *)
Lemma afterRender_ok b : inDOM b = true -> (scheduled b = 0%nat -> css b = current b) ->
  inDOM (afterRender b) = true /\ css (afterRender b) = current (afterRender b) /\ scheduled (afterRender b) = 0%nat.
Proof.
  intros Hd Hc. unfold afterRender. destruct (scheduled b) as [|n]; [by split_and!; [|apply Hc|]|].
  set (y := Bar (value b) (maximum b) (width b) (inDOM b) 0 (css b)). destruct (iter_frame (S n) y) as (E1 & E2 & E3 & E4 & E5).
  destruct (iter_frame n y) as (F1 & F2 & F3 & F4 & F5). rewrite E4, E5. unfold current. rewrite E1, E2, E3. split_and!; [done| |done].
  change (Nat.iter (S n) callback y) with (callback (Nat.iter n callback y)). unfold callback at 1. rewrite F4. unfold y at 1. cbn [inDOM]. rewrite Hd.
  cbn [css]. unfold current. by rewrite F1, F2, F3.
Qed.

(** After any changes of value and maximum, once the callbacks have run, the bar in the
    document has the width of the current size. *)
Theorem bar_follows_size b cs : inDOM b = true -> css b = current b -> scheduled b = 0%nat ->
  let b' := afterRender (foldl step b cs) in inDOM b' = true /\ css b' = current b'.
Proof.
  intros Hd Hc Hs. cbv zeta.
  assert (forall x, inDOM x = true /\ (scheduled x = 0%nat -> css x = current x) ->
    inDOM (foldl step x cs) = true /\ (scheduled (foldl step x cs) = 0%nat -> css (foldl step x cs) = current (foldl step x cs))) as Hrun.
  { induction cs as [|c cs IH]; [done|]. intros x [Hx Hcx]. cbn [foldl]. apply IH.
    destruct c as [v|m|]; cbn [step]; [unfold set_value|unfold set_maximum|destruct (afterRender_ok x Hx Hcx) as (? & ? & _); by split]; by case_bool_decide. }
  destruct (Hrun b (conj Hd (fun _ => Hc))) as [H1 H2]. by destruct (afterRender_ok _ H1 H2) as (? & ? & _).
Qed.
End progress.

(** ** At a concrete bar *)

Lemma bar_stays_in_frame_witness :
  exists z z', size id (Number 29) (Number 100) 100 = Pixels z /\ size id (Number 120) (Number 100) 100 = Pixels z' /\ z = 25 /\ z' = 96.
Proof.
  destruct (bar_stays_in_frame id (fun _ _ H => H) (fun _ _ => Qeq_refl _) 29 120 100 100 ltac:(lia) ltac:(lia) ltac:(lia) ltac:(lia))
    as (z & z' & E & E' & _ & _ & _ & H & _).
  exists z, z'. split_and!; [exact E|exact E'|vm_compute in E; congruence|]. apply H. lia.
Defined.

Lemma bar_follows_size_witness :
  let b := render id (Bar (Number 0) (Number 4) 104 false 0 NoWidth) in
  css (afterRender id (foldl (step id) b [Value (Number 1); Value (Number 2); Flush; Maximum (Number 8)])) = Pixels 22.
Proof.
  intros b. etrans; [exact (proj2 (bar_follows_size id b [Value (Number 1); Value (Number 2); Flush; Maximum (Number 8)] eq_refl eq_refl eq_refl))|].
  vm_compute. reflexivity.
Defined.

(** ** Departures *)

(** An empty bar is rendered with a width of -4 pixels, which browsers ignore; without a value
    it has a width of 0. *)
Lemma empty_bar : css (render id (Bar (Number 0) (Number 4) 104 false 0 NoWidth)) = Pixels (-4) /\
  css (render id (Bar Undefined (Number 4) 104 false 0 NoWidth)) = Pixels 0.
Proof. split; reflexivity. Qed.
