(* ===== verification/LazyTree.v ===== *)
(** * Lazily rendered trees ([views/lazy_tree_view.js], [views/lazy_tree_item_view.js])

    A tree is shown as a lazy list of the rows that the expanded items leave
    visible.  The view keeps caches from rows to items, items to rows, levels and
    parents, rebuilt whenever an item is expanded, collapsed or moved. *)

From S2P Require Import Prelude Arrays LazyList.
From stdpp Require Import gmap list_numbers.
Open Scope string_scope.
Open Scope list_scope.
Open Scope flame_scope.

(** ** Data *)

(** The items: the content of the tree and the [treeItemChildren] of each item. *)
Record items := Items { roots : list nat; treeItemChildren : gmap nat (list nat) }.

(** The caches; the number of cached rows is the length of the first. *)
Record cache := Cache {
  _rowToItemCache : list nat;
  _itemToRowCache : gmap nat nat;
  _itemToLevelCache : gmap nat Z;
  _itemToParentCache : gmap nat nat
}.
Definition no_cache : cache := Cache [] ∅ ∅ ∅.

Record tree := Tree {
  tree_items : items;
  _expandedItems : gset nat;
  tree_cache : cache;
  list_state : LazyList.state;
  indentation : gmap nat Z;          (* [_indentationLevel] of the item views *)
  levelClasses : gmap nat (list Z);  (* their level classes, by the level *)
  _suppressObservers : bool
}.

Definition set_items x t := Tree x (_expandedItems t) (tree_cache t) (list_state t) (indentation t) (levelClasses t) (_suppressObservers t).
Definition set_expandedItems x t := Tree (tree_items t) x (tree_cache t) (list_state t) (indentation t) (levelClasses t) (_suppressObservers t).
Definition set_cache x t := Tree (tree_items t) (_expandedItems t) x (list_state t) (indentation t) (levelClasses t) (_suppressObservers t).
Definition set_list x t := Tree (tree_items t) (_expandedItems t) (tree_cache t) x (indentation t) (levelClasses t) (_suppressObservers t).
Definition set_levels i c t := Tree (tree_items t) (_expandedItems t) (tree_cache t) (list_state t) i c (_suppressObservers t).
Definition set_suppressed b t := Tree (tree_items t) (_expandedItems t) (tree_cache t) (list_state t) (indentation t) (levelClasses t) b.

Definition children_of (i : items) (item : nat) : list nat := default [] (treeItemChildren i !! item).

(** ** The row caches *)

Definition cache_item (item : nat) (level : Z) (parent : option nat) (c : cache) : cache :=
  Cache (_rowToItemCache c ++ [item])
        (<[item := length (_rowToItemCache c)]> (_itemToRowCache c))
        (<[item := level]> (_itemToLevelCache c))
        (match parent with Some p => <[item := p]> (_itemToParentCache c) | None => _itemToParentCache c end).

Section caching.
Context (its : items) (expanded : gset nat).

(** [None] when the fuel runs out before the depth of the tree. *)
Fixpoint loadItemIntoCache (fuel : nat) (item : nat) (level : Z) (parent : option nat) (c : cache) : option cache :=
  match fuel with
  | 0 => None
  | S n =>
      let c1 := cache_item item level parent c in
      if bool_decide (item ∈ expanded) then
        (fix loop (l : list nat) (c : cache) : option cache :=
           match l with
           | [] => Some c
           | x :: l' => c' ← loadItemIntoCache n x (level + 1)%Z (Some item) c; loop l' c'
           end) (children_of its item) c1
      else Some c1
  end.

Fixpoint load_items (fuel : nat) (l : list nat) (level : Z) (parent : option nat) (c : cache) : option cache :=
  match l with
  | [] => Some c
  | x :: l' => c' ← loadItemIntoCache fuel x level parent c; load_items fuel l' level parent c'
  end.

Definition loadCache (fuel : nat) : option cache := load_items fuel (roots its) 0 None no_cache.
End caching.

Definition numberOfRows (t : tree) : nat := length (_rowToItemCache (tree_cache t)).
Definition itemForRow (t : tree) (row : Z) : option nat := LazyList.itemForRow (_rowToItemCache (tree_cache t)) row.
Definition rowForItem (t : tree) (item : option nat) : option Z :=
  i ← item; Z.of_nat <$> _itemToRowCache (tree_cache t) !! i.
(** The level of no item is -1; of an item that is not cached [undefined]. *)
Definition levelForItem (t : tree) (item : option nat) : option Z :=
  match item with None => Some (-1)%Z | Some i => _itemToLevelCache (tree_cache t) !! i end.

(** [getAncestors] follows the parents of the cache up to the root; the last
    ancestor is [null]. *)
Fixpoint ancestors_loop (fuel : nat) (t : tree) (item : option nat) : list (option nat) :=
  match fuel, item with
  | S n, Some i => Some i :: ancestors_loop n t (_itemToParentCache (tree_cache t) !! i)
  | _, _ => []
  end.
Definition getAncestors (t : tree) (item : option nat) : list (option nat) :=
  match item with
  | Some _ => ancestors_loop (S (numberOfRows t)) t item ++ [None]
  | None => [None; None]
  end.

(** ** The level classes of a view *)

(** The class of the old level is removed if the old level is truthy. *)
Definition ensureCorrectLevelClass (id : nat) (level : option Z) (t : tree) : tree :=
  match level with
  | None => t
  | Some l =>
      match indentation t !! id with
      | Some old =>
          if (old =? l)%Z then t
          else
            let classes := default [] (levelClasses t !! id) in
            let classes := if (old =? 0)%Z then classes else filter (fun x => x <> old) classes in
            set_levels (<[id := l]> (indentation t)) (<[id := classes ++ [l]]> (levelClasses t)) t
      | None =>
          set_levels (<[id := l]> (indentation t)) (<[id := default [] (levelClasses t !! id) ++ [l]]> (levelClasses t)) t
      end
  end.

Section view.
Context (item_class : nat -> string) (itemHeight bufferSize : Z) (fuel : nat).
Context (inDocument : bool) (offset : Z).   (* of the list within its scroll view *)
Context (isValidDrop : nat -> option nat -> bool).

Definition numberOfRowsChanged (t : tree) : option tree :=
  c ← loadCache (tree_items t) (_expandedItems t) fuel; Some (set_cache c t).

Definition viewForRow (row : Z) (t : tree) : outcome tree :=
  let item := itemForRow t row in
  let isExpanded := match item with Some i => bool_decide (i ∈ _expandedItems t) | None => false end in
  do! r <- LazyList.viewForRow item_class itemHeight (_rowToItemCache (tree_cache t)) isExpanded row (list_state t) ;
  let '(s, id) := r in
  let s := set_views (alter (set_expanded isExpanded) id (childViews s)) s in
  Ok (ensureCorrectLevelClass id (levelForItem t item) (set_list s t)).

(** [_rowsToRenderRange] at the last scroll position. *)
Definition range_of (t : tree) : Z * Z :=
  _rowsToRenderRange itemHeight bufferSize inDocument offset (Z.of_nat (numberOfRows t))
    (_lastScrollHeight (list_state t)) (_lastScrollTop (list_state t)).

(** The loop of [toggleItem] over the views: the rows that keep one. *)
Definition reposition (range : Z * Z) (t : tree) : tree * list (option Z) :=
  foldl (fun '(t, indices) id =>
    let s := list_state t in
    match childViews s !! id with
    | None => (t, indices)
    | Some v =>
        match contentIndex v with
        | None => (t, indices)
        | Some ci =>
            match rowForItem t (content v) with
            | None => (set_list (_recycleView item_class id s) t, indices)
            | Some row =>
                let s1 := if (ci =? row)%Z then s
                          else set_views (alter (set_position row (row * itemHeight)) id (childViews s)) s in
                let s2 := if outside range row then _recycleView item_class id s1 else s1 in
                (set_list s2 t, indices ++ [Some row])
            end
        end
    end) (t, []) (seq 0 (length (childViews (list_state t)))).

Fixpoint render_missing (l : list Z) (indices : list (option Z)) (t : tree) : outcome tree :=
  match l with
  | [] => Ok t
  | i :: l' =>
      if bool_decide (Some i ∈ indices) then render_missing l' indices t
      else do! t' <- viewForRow i t ; render_missing l' indices t'
  end.

Definition toggleItem (id : nat) (t : tree) : outcome (option tree) :=
  match childViews (list_state t) !! id with
  | None => Ok None
  | Some v =>
      let t1 := match content v with
                | Some item => set_expandedItems (if isExpanded v then {[item]} ∪ _expandedItems t
                                                  else _expandedItems t ∖ {[item]}) t
                | None => t
                end in
      match numberOfRowsChanged t1 with
      | None => Ok None
      | Some t2 =>
          let range := range_of t2 in
          let '(t3, indices) := reposition range t2 in
          do! t4 <- render_missing (seqZ range.1 (range.2 - range.1 + 1)) indices t3 ;
          Ok (Some (set_list (_hideRecycledViews (list_state t4)) t4))
      end
  end.

(** [changeIsExpanded]; an item without a row is looked up with [undefined]. *)
Definition changeIsExpanded (item : nat) (status : bool) (t : tree) : outcome (option tree) :=
  let t1 := set_expandedItems (if status then {[item]} ∪ _expandedItems t else _expandedItems t ∖ {[item]}) t in
  match childViewForIndex (list_state t1) (rowForItem t1 (Some item)) with
  | Some id =>
      match childViews (list_state t1) !! id with
      | Some v =>
          if isExpanded v then Ok (Some t1)
          else
            let t2 := set_list (set_views (alter (set_expanded status) id (childViews (list_state t1))) (list_state t1)) t1 in
            if status then toggleItem id t2 else Ok (Some t2)
      | None => Ok (Some t1)
      end
  | None => Ok (Some t1)
  end.
Definition collapseItem (item : nat) := changeIsExpanded item false.
Definition expandItem (item : nat) := changeIsExpanded item true.

Inductive arrow := Expand | Collapse.

Definition _collapseOrExpandSelection (action : arrow) (t : tree) : outcome (option tree * bool) :=
  match selection (list_state t) with
  | None => Ok (Some t, false)
  | Some sel =>
      match childViewForIndex (list_state t) (rowForItem t (Some sel)) with
      | Some id =>
          let expanded := match childViews (list_state t) !! id with Some v => isExpanded v | None => false end in
          let flip (b : bool) := set_list (set_views (alter (set_expanded b) id (childViews (list_state t))) (list_state t)) t in
          match action, expanded with
          | Collapse, true => do! t' <- toggleItem id (flip false) ; Ok (t', true)
          | Expand, false => do! t' <- toggleItem id (flip true) ; Ok (t', true)
          | _, _ => Ok (Some t, false)
          end
      | None =>
          Ok (Some (set_expandedItems (if bool_decide (sel ∈ _expandedItems t) then _expandedItems t ∖ {[sel]}
                                       else {[sel]} ∪ _expandedItems t) t), true)
      end
  end.
Definition moveRight := _collapseOrExpandSelection Expand.
Definition moveLeft := _collapseOrExpandSelection Collapse.

(** ** Dragging *)

Record dragging := Dragging { currentIndex : Z; toParent : option nat; toPosition : Z; toLevel : Z }.

(** The search upwards for the closest expanded item at a lower level. *)
Fixpoint closest_parent (n : nat) (t : tree) (above : option nat) : option nat :=
  match n with
  | 0 => None
  | S i =>
      let item := itemForRow t (Z.of_nat i) in
      let skip := match levelForItem t item, levelForItem t above with
                  | Some a, Some b => (b <=? a)%Z
                  | _, _ => false
                  end in
      if skip then closest_parent i t above
      else match item with
           | Some x => if bool_decide (x ∈ _expandedItems t) then Some x else closest_parent i t above
           | None => closest_parent i t above
           end
  end.

Definition level_or (t : tree) (item : option nat) : Z := default 0%Z (levelForItem t item).

(** The candidate whose level is nearest to the level intended by the pointer. *)
Definition nearest_parent (t : tree) (intended : Z) (candidates : list (option nat)) : option nat :=
  foldl (fun best p =>
    match best with
    | None => p
    | Some _ => if (Z.abs (level_or t p - intended) <? Z.abs (level_or t best - intended))%Z then p else best
    end) None candidates.

Definition indexForMovedItem (info : option dragging) (proposed original newLeft : Z) (t : tree) : option dragging :=
  let proposed := Z.min (Z.max 0 proposed) (Z.of_nat (numberOfRows t)) in
  let movedItem := itemForRow t original in
  let itemAbove := itemForRow t (proposed - 1) in
  let itemBelow := itemForRow t proposed in
  let closest := match itemAbove with
                 | Some a => if bool_decide (a ∈ _expandedItems t) then Some a
                             else closest_parent (Z.to_nat proposed) t itemAbove
                 | None => closest_parent (Z.to_nat proposed) t itemAbove
                 end in
  let possible := filter (fun p => (0 <=? level_or t p + 1 - level_or t itemBelow)%Z &&
      match movedItem with Some m => isValidDrop m p | None => true end = true) (getAncestors t closest) in
  match possible with
  | [] => info
  | _ =>
      let intendedLevel := (level_or t movedItem + Z.quot newLeft 22)%Z in
      let parent := nearest_parent t intendedLevel possible in
      let position := match parent with
                      | None => match itemBelow with
                                | Some b => match indexOf b (roots (tree_items t)) with Some i => Z.of_nat i | None => (-1)%Z end
                                | None => Z.of_nat (length (roots (tree_items t)))
                                end
                      | Some p =>
                          let cs := children_of (tree_items t) p in
                          match itemBelow with
                          | Some b => if (level_or t itemBelow =? level_or t parent + 1)%Z
                                      then match indexOf b cs with Some i => Z.of_nat i | None => (-1)%Z end
                                      else Z.of_nat (length cs)
                          | None => Z.of_nat (length cs)
                          end
                      end in
      Some (Dragging proposed parent position (level_or t parent + 1))
  end.

Definition container (i : items) (p : option nat) : list nat :=
  match p with Some p => children_of i p | None => roots i end.
Definition set_container (i : items) (p : option nat) (l : list nat) : items :=
  match p with
  | Some p => Items (roots i) (<[p := l]> (treeItemChildren i))
  | None => Items l (treeItemChildren i)
  end.

(** The change of the content by [moveItem]. *)
Definition move_content (from : Z) (info : dragging) (t : tree) : items :=
  match itemForRow t from with
  | None => tree_items t
  | Some item =>
      let fromParent := _itemToParentCache (tree_cache t) !! item in
      let toPosition := if bool_decide (fromParent = toParent info) && (from <? currentIndex info)%Z
                        then (toPosition info - 1)%Z else toPosition info in
      let i1 := set_container (tree_items t) fromParent
                  (array_removeObject item (container (tree_items t) fromParent)) in
      set_container i1 (toParent info)
        (array_insertAt (Z.to_nat toPosition) item (container i1 (toParent info)))
  end.

(** The rows of the views between the two places. *)
Definition shift_views (from to : Z) (l : list item_view) : list item_view :=
  let direction := if (from <? to)%Z then (-1)%Z else 1%Z in
  (fun v => match contentIndex v with
            | Some ci =>
                if ((from <? ci) && (ci <? to))%Z || ((ci <? from) && (to <=? ci))%Z
                then set_position (ci + direction) ((ci + direction) * itemHeight) v
                else v
            | None => v
            end) <$> l.

Definition moveItem (from : Z) (info : dragging) (t : tree) : option tree :=
  let to := currentIndex info in
  let to' := if (from <? to)%Z then (to - 1)%Z else to in
  id ← childViewForIndex (list_state t) (Some from);
  let l := alter (set_position to' (to' * itemHeight)) id (shift_views from to (childViews (list_state t))) in
  let t1 := ensureCorrectLevelClass id (Some (toLevel info)) (set_list (set_views l (list_state t)) t) in
  t2 ← numberOfRowsChanged (set_suppressed true (set_items (move_content from info t1) t1));
  Some (set_suppressed false t2).
End view.

(** ** Specification *)

(** The part of a tree that is shown: the children of an expanded item below it,
    nothing below any other. *)
Inductive node := Node (item : nat) (below : list node).

Inductive shows (its : items) (expanded : gset nat) : nat -> node -> Prop :=
| Shows i b : Forall2 (shows its expanded) (if bool_decide (i ∈ expanded) then children_of its i else []) b ->
    shows its expanded i (Node i b).

(** Its rows, from the top: each item with its level and its parent. *)
Definition row_info : Type := nat * Z * option nat.
Definition row_item (x : row_info) : nat := x.1.1.

Fixpoint preorder (level : Z) (parent : option nat) (n : node) : list row_info :=
  match n with
  | Node i b => (i, level, parent) :: concat (map (preorder (level + 1) (Some i)) b)
  end.
Definition rows_of (f : list node) : list row_info := concat (map (preorder 0 None) f).

Fixpoint height (n : node) : nat := match n with Node _ b => S (foldr Nat.max 0 (map height b)) end.

Definition cache_row (c : cache) (x : row_info) : cache := cache_item x.1.1 x.1.2 x.2 c.

(** The two row caches are inverse to each other. *)
Definition cache_ok (c : cache) : Prop :=
  forall item r, _itemToRowCache c !! item = Some r <-> _rowToItemCache c !! r = Some item.

(** ** The row caches *)

Lemma node_ind' (P : node -> Prop) : (forall i b, Forall P b -> P (Node i b)) -> forall n, P n.
Proof.
  intros H. fix IH 1. intros [i b]. apply H. induction b as [|n b IHb]; constructor; [apply IH|exact IHb].
Qed.

Lemma height_below n b : n ∈ b -> height n <= foldr Nat.max 0 (map height b).
Proof. induction b as [|m b IH]; [set_solver|]. intros [->|Hn]%elem_of_cons; cbn; [lia|]. specialize (IH Hn). lia. Qed.

Lemma loadItem_preorder its expanded n : forall i fuel level parent c,
  shows its expanded i n -> height n <= fuel ->
  loadItemIntoCache its expanded fuel i level parent c = Some (foldl cache_row c (preorder level parent n)).
Proof.
  induction n as [i b IH] using node_ind'. intros i' fuel level parent c Hs Hf. inversion Hs as [? ? Hb]; subst.
  destruct fuel as [|fuel]; [cbn in Hf; lia|]. cbn [loadItemIntoCache preorder foldl].
  assert (Hle : forall n, n ∈ b -> height n <= fuel).
  { intros n Hn. apply height_below in Hn. cbn in Hf. lia. }
  clear Hs Hf. change (cache_row c (i, level, parent)) with (cache_item i level parent c).
  case_bool_decide as Hexp; [|by inversion Hb; subst].
  generalize (cache_item i level parent c). clear c. revert IH Hle.
  induction Hb as [|x n xs ns Hx Hxs IHb]; intros IH Hle c; [done|].
  apply Forall_cons in IH as [IHn IH]. cbn [map concat]. rewrite foldl_app.
  rewrite (IHn x fuel (level + 1)%Z (Some i) c Hx (Hle n ltac:(by left))). cbn [mbind option_bind].
  apply IHb; [done|]. intros m Hm. apply Hle. by right.
Qed.

Lemma load_items_preorder its expanded fuel level parent l f : forall c,
  Forall2 (shows its expanded) l f -> Forall (fun n => height n <= fuel) f ->
  load_items its expanded fuel l level parent c = Some (foldl cache_row c (concat (map (preorder level parent) f))).
Proof.
  intros c H. revert c. induction H as [|x n xs ns Hx Hxs IH]; intros c Hf; [done|].
  apply Forall_cons in Hf as [Hn Hf]. cbn [load_items map concat]. rewrite foldl_app.
  rewrite (loadItem_preorder its expanded n) by done. cbn [mbind option_bind]. by apply IH.
Qed.

(** What the caches hold once rows have been put into empty ones. *)
Record cache_of (l : list row_info) (c : cache) : Prop := {
  co_rows : _rowToItemCache c = row_item <$> l;
  co_row r x : l !! r = Some x -> _itemToRowCache c !! row_item x = Some r;
  co_level r x : l !! r = Some x -> _itemToLevelCache c !! row_item x = Some x.1.2;
  co_parent r x : l !! r = Some x -> _itemToParentCache c !! row_item x = x.2;
  co_none item : item ∉ row_item <$> l -> _itemToRowCache c !! item = None /\ _itemToParentCache c !! item = None
}.

Lemma cache_of_snoc l c x : row_item x ∉ row_item <$> l -> cache_of l c -> cache_of (l ++ [x]) (cache_row c x).
Proof.
  intros Hx [H1 H2 H3 H4 H5]. destruct x as [[i lv] p]. unfold row_item in Hx. cbn in Hx.
  assert (Hne : forall r y, l !! r = Some y -> row_item y <> i).
  { intros r y Hy E. apply Hx. rewrite list_elem_of_fmap. exists y. split; [done|]. by eapply list_elem_of_lookup_2. }
  assert (Hl : length (_rowToItemCache c) = length l) by (by rewrite H1, length_fmap).
  split; cbn.
  - by rewrite H1, fmap_app.
  - intros r y [Hy|[Hr Hy]]%lookup_app_Some; [rewrite lookup_insert_ne by (intros E; by apply (Hne r y)); by apply H2|].
    apply list_lookup_singleton_Some in Hy as [Hr0 <-]. cbn. rewrite lookup_insert_eq, Hl. f_equal. lia.
  - intros r y [Hy|[Hr Hy]]%lookup_app_Some; [rewrite lookup_insert_ne by (intros E; by apply (Hne r y)); by eapply H3|].
    apply list_lookup_singleton_Some in Hy as [_ <-]. cbn. by rewrite lookup_insert_eq.
  - intros r y [Hy|[Hr Hy]]%lookup_app_Some.
    + destruct p; [rewrite lookup_insert_ne by (intros E; by apply (Hne r y))|]; by eapply H4.
    + apply list_lookup_singleton_Some in Hy as [_ <-]. cbn. destruct p; [by rewrite lookup_insert_eq|]. by apply H5.
  - intros item Hi. rewrite fmap_app in Hi. cbn in Hi.
    assert (item <> i /\ item ∉ row_item <$> l) as [Hii Hil] by set_solver.
    rewrite lookup_insert_ne by done. destruct (H5 item Hil) as [-> ?]. split; [done|].
    destruct p; [by rewrite lookup_insert_ne|done].
Qed.

Lemma cache_of_rows l : NoDup (row_item <$> l) -> cache_of l (foldl cache_row no_cache l).
Proof.
  induction l as [|x l IH] using rev_ind; intros Hnd; [by split|].
  rewrite foldl_app. cbn [foldl]. rewrite fmap_app in Hnd. apply NoDup_app in Hnd as (Hnd & Hdis & _).
  apply cache_of_snoc; [|by apply IH]. intros Hin. apply (Hdis _ Hin). cbn. by left.
Qed.

Lemma cache_of_ok l c : NoDup (row_item <$> l) -> cache_of l c -> cache_ok c.
Proof.
  intros Hnd [H1 H2 _ _ H5] item r. rewrite H1, list_lookup_fmap. split.
  - intros Hr. destruct (decide (item ∈ row_item <$> l)) as [Hin|Hin]; [|by destruct (H5 item Hin); congruence].
    apply list_elem_of_fmap in Hin as (x & -> & (r' & Hx)%list_elem_of_lookup).
    assert (r' = r) as <- by (specialize (H2 r' x Hx); congruence). by rewrite Hx.
  - destruct (l !! r) as [x|] eqn:Hx; [|done]. cbn. intros [= <-]. by apply H2.
Qed.

(** ** Properties of the caches *)

(** C36. [loadCache], given fuel for the depth of what is shown, fills the caches with the
    preorder of the tree, the children of collapsed items left out: the row cache
    lists the items from the top, every shown item has the number of its row, its
    depth and its parent in the other caches, the roots have no parent, and no other
    item is in a cache. *)
Theorem loadCache_preorder its expanded fuel f :
  Forall2 (shows its expanded) (roots its) f -> NoDup (row_item <$> rows_of f) ->
  Forall (fun n => height n <= fuel) f ->
  exists c, loadCache its expanded fuel = Some c /\
    _rowToItemCache c = row_item <$> rows_of f /\
    (forall r item level parent, rows_of f !! r = Some (item, level, parent) ->
       _itemToRowCache c !! item = Some r /\ _itemToLevelCache c !! item = Some level /\
       _itemToParentCache c !! item = parent) /\
    (forall item, item ∉ row_item <$> rows_of f -> _itemToRowCache c !! item = None /\ _itemToParentCache c !! item = None).
Proof.
  intros Hs Hnd Hf. unfold loadCache. rewrite (load_items_preorder its expanded fuel 0 None _ f) by done.
  destruct (cache_of_rows (rows_of f) Hnd) as [H1 H2 H3 H4 H5].
  eexists. split; [done|]. split_and!; [exact H1| |exact H5].
  intros r item level parent Hr. split_and!; [by apply (H2 _ _ Hr)|by apply (H3 _ _ Hr)|by apply (H4 _ _ Hr)].
Qed.

Lemma numberOfRowsChanged_ok its expanded fuel f t :
  tree_items t = its -> _expandedItems t = expanded ->
  Forall2 (shows its expanded) (roots its) f -> NoDup (row_item <$> rows_of f) -> Forall (fun n => height n <= fuel) f ->
  exists c, numberOfRowsChanged fuel t = Some (set_cache c t) /\ cache_ok c /\ _rowToItemCache c = row_item <$> rows_of f.
Proof.
  intros <- <- Hs Hnd Hf. unfold numberOfRowsChanged, loadCache.
  rewrite (load_items_preorder _ _ fuel 0 None _ f) by done. cbn.
  eexists. split; [done|]. pose proof (cache_of_rows _ Hnd) as Hc. split; [by eapply cache_of_ok|apply Hc].
Qed.

(** ** Views after an item has been toggled *)

Section toggle.
Context (item_class : nat -> string) (itemHeight : Z).

(** What the loop of [toggleItem] makes of a view. *)
Definition relayout (range : Z * Z) (c : cache) (v : item_view) : item_view :=
  match contentIndex v, content v with
  | Some ci, Some item =>
      match _itemToRowCache c !! item with
      | None => set_selected false (set_index None v)
      | Some r =>
          let v1 := if (ci =? Z.of_nat r)%Z then v else set_position (Z.of_nat r) (Z.of_nat r * itemHeight) v in
          if outside range (Z.of_nat r) then set_selected false (set_index None v1) else v1
      end
  | _, _ => v
  end.

Definition new_row (c : cache) (v : item_view) : option Z :=
  match contentIndex v, content v with
  | Some _, Some item => Z.of_nat <$> _itemToRowCache c !! item
  | _, _ => None
  end.

(** Moving a view that has a row to another one leaves the pool as it is. *)
Lemma move_pool_ok s id v i r y : pool_ok s -> childViews s !! id = Some v -> contentIndex v = Some i ->
  pool_ok (set_views (alter (set_position r y) id (childViews s)) s).
Proof.
  intros [Pn Pd Pf Pb] Hid Hi. split; cbn; [done|done| |].
  - intros x w. rewrite list_lookup_alter. destruct (decide (id = x)) as [<-|]; [|apply Pf].
    rewrite Hid. cbn. intros [= <-]. cbn. rewrite <- (Pf id v Hid). rewrite Hi. done.
  - intros c x Hx. rewrite list_lookup_alter. destruct (Pb c x Hx) as [w Hw].
    destruct (decide (id = x)) as [->|]; rewrite Hw; cbn; eauto.
Qed.

Lemma cached_row c item r : cache_ok c -> _itemToRowCache c !! item = Some r ->
  LazyList.itemForRow (_rowToItemCache c) (Z.of_nat r) = Some item.
Proof.
  intros Hc Hr. unfold LazyList.itemForRow. destruct (Z.ltb_spec (Z.of_nat r) 0); [lia|]. rewrite Nat2Z.id. by apply Hc.
Qed.

(** One step of the loop. *)
Lemma relayout_step range c rows s pre v suf i :
  childViews s = pre ++ v :: suf -> pool_ok s -> contentIndex v = Some i -> view_ok itemHeight rows s v -> cache_ok c ->
  exists s', childViews s' = pre ++ relayout range c v :: suf /\ pool_ok s' /\ selection s' = selection s /\
    view_ok itemHeight (_rowToItemCache c) s' (relayout range c v) /\
    match content v ≫= (fun item => _itemToRowCache c !! item) with
    | None => s' = _recycleView item_class (length pre) s
    | Some r =>
        let row := Z.of_nat r in
        let s1 := if (i =? row)%Z then s
                  else set_views (alter (set_position row (row * itemHeight)) (length pre) (childViews s)) s in
        s' = if outside range row then _recycleView item_class (length pre) s1 else s1
    end.
Proof.
  intros Hcv Hp Hi Hv Hc. unfold view_ok in Hv. rewrite Hi in Hv. destruct Hv as (item & Hrow & Hct & Hvis & Hsel & Hy).
  assert (Hlk : childViews s !! length pre = Some v) by (rewrite Hcv; by apply list_lookup_middle).
  assert (Halt : forall f, alter f (length pre) (childViews s) = pre ++ f v :: suf).
  { intros f. rewrite Hcv. rewrite <- (Nat.add_0_r (length pre)). by rewrite alter_app_r. }
  unfold relayout. rewrite Hi, Hct. cbn [mbind option_bind]. destruct (_itemToRowCache c !! item) as [r|] eqn:Er.
  - pose proof (cached_row c item r Hc Er) as Hr'. cbv zeta.
    set (v1 := if (i =? Z.of_nat r)%Z then v else set_position (Z.of_nat r) (Z.of_nat r * itemHeight) v).
    set (s1 := if (i =? Z.of_nat r)%Z then s else _).
    assert (childViews s1 = pre ++ v1 :: suf /\ pool_ok s1 /\ selection s1 = selection s) as (Hcv1 & Hp1 & Hs1).
    { unfold s1, v1. destruct (i =? Z.of_nat r)%Z; [done|]. cbn. rewrite Halt. split_and!; [done| |done].
      rewrite <- Halt. by apply (move_pool_ok s (length pre) v i). }
    assert (contentIndex v1 = Some (Z.of_nat r) /\ content v1 = Some item) as [Hi1 Hct1].
    { unfold v1. destruct (Z.eqb_spec i (Z.of_nat r)); [by subst|done]. }
    assert (Hlk1 : childViews s1 !! length pre = Some v1) by (rewrite Hcv1; by apply list_lookup_middle).
    destruct (outside range (Z.of_nat r)).
    + destruct (recycle_pool_ok item_class s1 (length pre) v1 _ Hp1 Hlk1 Hi1 (mk_is_Some _ _ Hct1)) as (Hp2 & Hs2 & Hcv2).
      eexists. split_and!; [|exact Hp2|congruence| |done].
      * rewrite Hcv2, Hcv1. rewrite <- (Nat.add_0_r (length pre)). by rewrite alter_app_r.
      * done.
    + exists s1. split_and!; [done|done|done| |done]. unfold view_ok. rewrite Hi1. exists item.
      unfold v1 in *. destruct (Z.eqb_spec i (Z.of_nat r)); subst; cbn; rewrite ?Hs1; split_and!; done.
  - destruct (recycle_pool_ok item_class s (length pre) v i Hp Hlk Hi (mk_is_Some _ _ Hct)) as (Hp2 & Hs2 & Hcv2).
    eexists. split_and!; [by rewrite Hcv2, Halt|exact Hp2|done|done|done].
Qed.

Lemma view_ok_sel rows s s' v : selection s' = selection s -> view_ok itemHeight rows s v -> view_ok itemHeight rows s' v.
Proof. unfold view_ok. by intros ->. Qed.

Definition reposition_step (range : Z * Z) : tree * list (option Z) -> nat -> tree * list (option Z) :=
  fun '(t, indices) id =>
    let s := list_state t in
    match childViews s !! id with
    | None => (t, indices)
    | Some v =>
        match contentIndex v with
        | None => (t, indices)
        | Some ci =>
            match rowForItem t (content v) with
            | None => (set_list (_recycleView item_class id s) t, indices)
            | Some row =>
                let s1 := if (ci =? row)%Z then s
                          else set_views (alter (set_position row (row * itemHeight)) id (childViews s)) s in
                let s2 := if outside range row then _recycleView item_class id s1 else s1 in
                (set_list s2 t, indices ++ [Some row])
            end
        end
    end.

Lemma set_list_same t : set_list (list_state t) t = t.
Proof. by destruct t. Qed.

Lemma reposition_suffix range rows suf : forall pre t indices,
  childViews (list_state t) = pre ++ suf -> pool_ok (list_state t) -> cache_ok (tree_cache t) ->
  (forall v, v ∈ pre -> view_ok itemHeight (_rowToItemCache (tree_cache t)) (list_state t) v) ->
  (forall v, v ∈ suf -> view_ok itemHeight rows (list_state t) v) ->
  exists s', foldl (reposition_step range) (t, indices) (seq (length pre) (length suf)) =
      (set_list s' t, indices ++ (Some <$> omap (new_row (tree_cache t)) suf)) /\
    childViews s' = pre ++ (relayout range (tree_cache t) <$> suf) /\ pool_ok s' /\
    selection s' = selection (list_state t) /\
    (forall v, v ∈ childViews s' -> view_ok itemHeight (_rowToItemCache (tree_cache t)) s' v).
Proof.
  induction suf as [|v suf IH]; intros pre t indices Hcv Hp Hc Hpre Hsuf.
  - exists (list_state t). cbn. rewrite app_nil_r, set_list_same. rewrite app_nil_r in Hcv.
    split_and!; [done|by rewrite Hcv, app_nil_r|done|done|]. rewrite Hcv. by intros w Hw; apply Hpre.
  - assert (Hlk : childViews (list_state t) !! length pre = Some v) by (rewrite Hcv; by apply list_lookup_middle).
    assert (Hlen : forall w, S (length pre) = length (pre ++ [w])) by (intros w; rewrite length_app; cbn; lia).
    cbn [length seq foldl fmap list_fmap omap list_omap]. unfold reposition_step at 2. rewrite Hlk.
    destruct (contentIndex v) as [i|] eqn:Ei.
    + destruct (relayout_step range (tree_cache t) rows (list_state t) pre v suf i Hcv Hp Ei (Hsuf v ltac:(by left)) Hc)
        as (s1 & Hcv1 & Hp1 & Hs1 & Hv1 & Hmatch).
      set (ind1 := indices ++ match new_row (tree_cache t) v with Some r => [Some r] | None => [] end).
      match goal with |- context [foldl _ ?x _] => assert (x = (set_list s1 t, ind1)) as -> end.
      { unfold rowForItem, ind1, new_row. rewrite Ei. destruct (content v) as [item|]; cbn [mbind option_bind] in *; [|by subst s1; rewrite app_nil_r].
        destruct (_itemToRowCache (tree_cache t) !! item) as [r|]; cbn; [by subst s1|by subst s1; rewrite app_nil_r]. }
      destruct (IH (pre ++ [relayout range (tree_cache t) v]) (set_list s1 t) ind1) as (s' & Hf & Hcv' & Hp' & Hs' & Hall);
        cbn [list_state set_list tree_cache] in *.
      * by rewrite Hcv1, <- app_assoc.
      * done.
      * done.
      * intros w [Hw| ->%list_elem_of_singleton]%elem_of_app; [|done]. by apply (view_ok_sel _ (list_state t)); [|apply Hpre].
      * intros w Hw. apply (view_ok_sel _ (list_state t)); [done|]. apply Hsuf. by right.
      * rewrite <- Hlen in Hf. rewrite Hf. exists s'. split_and!; [|by rewrite Hcv', <- app_assoc|done|congruence|done].
        unfold ind1. f_equal. rewrite <- app_assoc. by destruct (new_row (tree_cache t) v).
    + destruct (IH (pre ++ [v]) t indices) as (s' & Hf & Hcv' & Hp' & Hs' & Hall);
        [by rewrite Hcv, <- app_assoc|done|done| |by intros w Hw; apply Hsuf; right|].
      { intros w [Hw| ->%list_elem_of_singleton]%elem_of_app; [by apply Hpre|]. unfold view_ok. by rewrite Ei. }
      rewrite <- Hlen in Hf. rewrite Hf. exists s'.
      assert (new_row (tree_cache t) v = None) as -> by (unfold new_row; by rewrite Ei).
      assert (relayout range (tree_cache t) v = v) as -> by (unfold relayout; by rewrite Ei).
      split_and!; [done| |done|done|done]. by rewrite Hcv', <- app_assoc.
Qed.


Lemma reposition_ok range rows t :
  list_ok itemHeight rows (list_state t) -> cache_ok (tree_cache t) ->
  exists s', reposition item_class itemHeight range t = (set_list s' t, Some <$> omap (new_row (tree_cache t)) (childViews (list_state t))) /\
    list_ok itemHeight (_rowToItemCache (tree_cache t)) s' /\
    childViews s' = relayout range (tree_cache t) <$> childViews (list_state t).
Proof.
  intros [Hp Hv Hs] Hc.
  destruct (reposition_suffix range rows (childViews (list_state t)) [] t [] eq_refl Hp Hc ltac:(set_solver) Hv)
    as (s' & Hf & Hcv & Hp' & _ & Hall).
  exists s'. split_and!; [exact Hf| |exact Hcv]. split; [done|done|]. rewrite Hcv. cbn.
  intros w (v & -> & Hin)%list_elem_of_fmap. unfold relayout. pose proof (Hs v Hin) as Hd.
  by repeat (case_match; cbn; try done).
Qed.

Lemma shown_relayout range c rows s : (forall v, v ∈ childViews s -> view_ok itemHeight rows s v) ->
  omap contentIndex (relayout range c <$> childViews s) = inside range (omap (new_row c) (childViews s)).
Proof.
  generalize (childViews s) as l. induction l as [|v l IH]; intros Hv; [done|].
  cbn [fmap list_fmap omap list_omap]. rewrite IH by (intros w Hw; apply Hv; by right). clear IH.
  specialize (Hv v ltac:(by left)). unfold view_ok in Hv. unfold relayout, new_row.
  destruct (contentIndex v) as [i|] eqn:Ei; [|by rewrite Ei].
  destruct Hv as (item & _ & -> & _). destruct (_itemToRowCache c !! item) as [r|]; [|done]. cbn [fmap option_fmap option_map].
  unfold inside. rewrite filter_cons. destruct (outside range (Z.of_nat r)) eqn:Eo; [by rewrite decide_False by congruence|].
  rewrite decide_True by done. destruct (Z.eqb_spec i (Z.of_nat r)) as [->|]; cbn; by rewrite ?Ei.
Qed.

(** Different rows hold different items, which have different rows in the new caches. *)
Lemma new_rows_nodup c rows s : cache_ok c -> NoDup rows ->
  (forall v, v ∈ childViews s -> view_ok itemHeight rows s v) -> NoDup (shown_rows s) ->
  NoDup (omap (new_row c) (childViews s)).
Proof.
  intros Hc Hrows. unfold shown_rows. generalize (childViews s) as l.
  induction l as [|v l IH]; intros Hv Hnd; [constructor|]. cbn [omap list_omap] in *.
  pose proof (Hv v ltac:(by left)) as Hvv. unfold view_ok in Hvv. unfold new_row at 1.
  destruct (contentIndex v) as [i|] eqn:Ei; [|apply IH; [intros; apply Hv; by right|done]].
  apply NoDup_cons in Hnd as [Hni Hnd]. destruct Hvv as (item & Hrow & -> & _).
  assert (NoDup (omap (new_row c) l)) as IH' by (apply IH; [intros; apply Hv; by right|done]).
  destruct (_itemToRowCache c !! item) as [r|] eqn:Er; [|done]. cbn. apply NoDup_cons. split; [|done].
  intros (w & Hw & Hnw)%list_elem_of_omap. pose proof (Hv w ltac:(by right)) as Hww. unfold view_ok in Hww. unfold new_row in Hnw.
  destruct (contentIndex w) as [j|] eqn:Ej; [|done]. destruct Hww as (item' & Hrow' & Hct' & _). rewrite Hct' in Hnw.
  destruct (_itemToRowCache c !! item') as [r'|] eqn:Er'; [|done]. cbn in Hnw. injection Hnw as Hr.
  assert (r' = r) as -> by lia. apply Hc in Er, Er'. assert (item' = item) as -> by congruence.
  apply Hni. apply list_elem_of_omap. exists w. split; [done|]. rewrite Ej.
  unfold LazyList.itemForRow in Hrow, Hrow'. destruct (Z.ltb_spec i 0), (Z.ltb_spec j 0); try done.
  pose proof (NoDup_lookup _ _ _ _ Hrows Hrow Hrow'). f_equal. lia.
Qed.

Lemma tree_viewForRow_ok t row item :
  list_ok itemHeight (_rowToItemCache (tree_cache t)) (list_state t) -> itemForRow t row = Some item ->
  exists t', viewForRow item_class itemHeight row t = Ok t' /\ tree_cache t' = tree_cache t /\
    _expandedItems t' = _expandedItems t /\ tree_items t' = tree_items t /\
    list_ok itemHeight (_rowToItemCache (tree_cache t)) (list_state t') /\
    shown_rows (list_state t') ≡ₚ row :: shown_rows (list_state t).
Proof.
  intros Hok Hrow. unfold viewForRow. rewrite Hrow.
  destruct (viewForRow_ok item_class itemHeight _ (list_state t) row item (bool_decide (item ∈ _expandedItems t)) Hok Hrow)
    as (s1 & id & -> & Hok1 & _ & Hsh1). cbn [outcome_bind].
  destruct (mark_ok itemHeight _ s1 id (set_expanded (bool_decide (item ∈ _expandedItems t))) ltac:(done) Hok1) as [Hok2 Hsh2].
  set (s2 := set_views _ s1) in *. eexists. split; [done|].
  assert (forall l, let t' := ensureCorrectLevelClass id l (set_list s2 t) in
    tree_cache t' = tree_cache t /\ _expandedItems t' = _expandedItems t /\ tree_items t' = tree_items t /\ list_state t' = s2) as H.
  { intros l. cbv zeta. unfold ensureCorrectLevelClass. by repeat case_match. }
  specialize (H (levelForItem t (Some item))). cbv zeta in H. destruct H as (-> & -> & -> & ->).
  split_and!; [done|done|done|done|by rewrite Hsh2].
Qed.

Lemma render_missing_ok l indices : forall t,
  list_ok itemHeight (_rowToItemCache (tree_cache t)) (list_state t) ->
  Forall (fun r => is_Some (itemForRow t r)) l ->
  exists t', render_missing item_class itemHeight l indices t = Ok t' /\ tree_cache t' = tree_cache t /\
    _expandedItems t' = _expandedItems t /\ tree_items t' = tree_items t /\
    list_ok itemHeight (_rowToItemCache (tree_cache t)) (list_state t') /\
    shown_rows (list_state t') ≡ₚ filter (fun r => Some r ∉ indices) l ++ shown_rows (list_state t).
Proof.
  induction l as [|r l IH]; intros t Hok Hl; [by exists t|]. apply Forall_cons in Hl as [[item Hr] Hl]. cbn [render_missing].
  rewrite filter_cons. case_bool_decide as Hin.
  - rewrite decide_False by tauto. by apply IH.
  - rewrite decide_True by done. destruct (tree_viewForRow_ok t r item Hok Hr) as (t1 & -> & Hc1 & He1 & Hi1 & Hok1 & Hsh1).
    cbn [outcome_bind]. destruct (IH t1) as (t2 & -> & Hc2 & He2 & Hi2 & Hok2 & Hsh2); [by rewrite Hc1| |].
    { eapply Forall_impl; [exact Hl|]. unfold itemForRow. by rewrite Hc1. }
    exists t2. rewrite <- Hc1 at 2. split_and!; [done|congruence|congruence|congruence|done|].
    rewrite Hsh2, Hsh1. cbn. symmetry. apply Permutation_middle.
Qed.

(** The rows of the range that keep a view and those that get one are the range. *)
Lemma fill_range (range : Z * Z) (l : list Z) : NoDup l ->
  filter (fun r => Some r ∉ Some <$> l) (seqZ range.1 (range.2 - range.1 + 1)) ++ inside range l
    ≡ₚ seqZ range.1 (range.2 - range.1 + 1).
Proof.
  intros Hnd.
  assert (Hs : forall r, Some r ∈ Some <$> l <-> r ∈ l).
  { intros r. rewrite list_elem_of_fmap. split; [intros (x & [= ->] & ?); done|eauto]. }
  assert (Hin : forall r, outside range r = false <-> (range.1 <= r <= range.2)%Z).
  { intros r. unfold outside. rewrite orb_false_iff, !Z.ltb_ge. lia. }
  apply NoDup_Permutation; [|apply NoDup_seqZ|].
  - apply NoDup_app. split_and!; [apply NoDup_filter, NoDup_seqZ| |by apply NoDup_filter].
    intros r [Hr _]%list_elem_of_filter [_ Hr']%list_elem_of_filter. by rewrite Hs in Hr.
  - intros r. unfold inside. rewrite elem_of_app, !list_elem_of_filter, elem_of_seqZ, Hs, Hin.
    destruct (decide (r ∈ l)); split; [intros [[]|]; [done|lia]|intros; right; split; [lia|done]|intros [[]|[]]; [lia|done]|].
    intros. left. split; [done|lia].
Qed.
End toggle.

Lemma rows_of_nonempty f : f <> [] -> row_item <$> rows_of f <> [].
Proof. destruct f as [|[i b] f]; [done|]. done. Qed.

(** C3. Toggling an item of a tree that is on screen and in which no row is being
    dragged: the item is put among the expanded items or taken out of them as its view
    says, the caches are those of the new tree, and afterwards there is exactly one
    visible view for each row of the new range, each with the item, the place and the
    selection of its row, whatever rows the views had before; the rest of the views
    are hidden in the pool. *)
Theorem toggleItem_renders item_class itemHeight bufferSize fuel offset id v item f t :
  (0 < itemHeight)%Z -> (0 <= bufferSize)%Z -> (0 <= _lastScrollHeight (list_state t))%Z ->
  childViews (list_state t) !! id = Some v -> content v = Some item ->
  list_ok itemHeight (_rowToItemCache (tree_cache t)) (list_state t) ->
  NoDup (_rowToItemCache (tree_cache t)) -> NoDup (shown_rows (list_state t)) ->
  let expanded := if isExpanded v then {[item]} ∪ _expandedItems t else _expandedItems t ∖ {[item]} in
  Forall2 (shows (tree_items t) expanded) (roots (tree_items t)) f ->
  NoDup (row_item <$> rows_of f) -> Forall (fun n => height n <= fuel) f -> f <> [] ->
  let rows := row_item <$> rows_of f in
  let range := _rowsToRenderRange itemHeight bufferSize true offset (Z.of_nat (length rows))
                 (_lastScrollHeight (list_state t)) (_lastScrollTop (list_state t)) in
  exists t', toggleItem item_class itemHeight bufferSize fuel true offset id t = Ok (Some t') /\
    tree_items t' = tree_items t /\ _expandedItems t' = expanded /\
    _rowToItemCache (tree_cache t') = rows /\ list_ok itemHeight rows (list_state t') /\
    shown_rows (list_state t') ≡ₚ seqZ range.1 (range.2 - range.1 + 1) /\
    forall w, w ∈ childViews (list_state t') -> isVisible w = bool_decide (is_Some (contentIndex w)).
Proof.
  intros Hh Hb Hht Hid Hct Hok Hnd Hsh expanded Hf Hndf Hfuel Hne rows range.
  unfold toggleItem. rewrite Hid, Hct. fold expanded.
  destruct (numberOfRowsChanged_ok (tree_items t) expanded fuel f (set_expandedItems expanded t) eq_refl eq_refl Hf Hndf Hfuel)
    as (c & -> & Hc & Hrows). fold rows in Hrows. cbv zeta.
  set (t2 := set_cache c (set_expandedItems expanded t)).
  replace (range_of itemHeight bufferSize true offset t2) with range
    by (unfold range_of, numberOfRows, range; cbn; by rewrite Hrows).
  assert (0 <= range.1 /\ range.1 <= range.2 /\ range.2 < Z.of_nat (length rows))%Z as (H0 & H1 & H2)
    by (apply range_bounds; [done..|]; by apply rows_of_nonempty).
  destruct (reposition_ok item_class itemHeight range (_rowToItemCache (tree_cache t)) t2 Hok Hc) as (s3 & -> & Hok3 & Hcv3).
  destruct (render_missing_ok item_class itemHeight (seqZ range.1 (range.2 - range.1 + 1))
    (Some <$> omap (new_row (tree_cache t2)) (childViews (list_state t2))) (set_list s3 t2)) as (t4 & Hr4 & Hc4 & He4 & Hi4 & Hok4 & Hsh4).
  { exact Hok3. }
  { apply list.Forall_forall. intros r Hr. apply elem_of_seqZ in Hr. unfold itemForRow, LazyList.itemForRow. cbn.
    rewrite Hrows. destruct (Z.ltb_spec r 0); [lia|]. apply lookup_lt_is_Some. lia. }
  cbn beta iota.
  rewrite Hr4. cbn [outcome_bind]. destruct (hide_ok item_class itemHeight _ (list_state t4) Hok4) as (Hok5 & Hsh5 & Hvis).
  eexists. split; [done|]. cbn [tree_items set_list _expandedItems tree_cache list_state].
  rewrite Hc4, He4, Hi4. cbn [tree_items set_list _expandedItems tree_cache list_state t2 set_cache set_expandedItems].
  split_and!; [done|done|done|by rewrite <- Hrows| |done].
  assert (Hview : forall w, w ∈ childViews (list_state t) -> view_ok itemHeight (_rowToItemCache (tree_cache t)) (list_state t) w) by apply Hok.
  assert (shown_rows (list_state (set_list s3 t2)) = inside range (omap (new_row c) (childViews (list_state t)))) as Hs3.
  { unfold shown_rows. cbn [list_state set_list]. rewrite Hcv3.
    by apply (shown_relayout itemHeight range c (_rowToItemCache (tree_cache t)) (list_state t)). }
  rewrite Hsh5, Hsh4, Hs3. apply fill_range.
  by apply (new_rows_nodup itemHeight c (_rowToItemCache (tree_cache t)) (list_state t)).
Qed.

(** ** Witnesses *)

(** Item 0 with the children 1 and 2, and item 3 below 1. *)
Definition ex_items : items := Items [0; 4] {[0 := [1; 2]; 1 := [3]]}.
Definition ex_forest : list node := [Node 0 [Node 1 []; Node 2 []]; Node 4 []].
Definition ex_view (i : nat) (e : bool) : item_view := ItemView (Some (Z.of_nat i)) (Some (if Nat.eqb i 0 then 0 else 4)) true false false e (Z.of_nat i * 25)%Z.
Definition ex_list (e : bool) : LazyList.state := LazyList.State [ex_view 0 e; ex_view 1 false] ∅ None 200 0.
Definition ex_tree (e : bool) : tree :=
  Tree ex_items ∅ (Cache [0; 4] {[0 := 0; 4 := 1]} {[0 := 0%Z; 4 := 0%Z]} ∅) (ex_list e)
       {[0 := 0%Z; 1 := 0%Z]} {[0 := [0%Z]; 1 := [0%Z]]} false.

Lemma ex_shows : Forall2 (shows ex_items {[0]}) [0; 4] ex_forest.
Proof. repeat constructor; vm_compute; repeat constructor; vm_compute; repeat constructor. Qed.

Lemma ex_list_ok e : list_ok 25 [0; 4] (ex_list e).
Proof.
  split.
  - split; [intros c; constructor|intros c c' id H; by apply elem_of_nil in H| |intros c id H; by apply elem_of_nil in H].
    intros [|[|id]] v; cbn; intros [= <-]; (split; [done|intros [c H]; by apply elem_of_nil in H]).
  - intros v Hv. apply elem_of_cons in Hv as [->|[->|Hv]%elem_of_cons]; [exists 0|exists 4|by apply elem_of_nil in Hv]; by split_and!.
  - intros v Hv. apply elem_of_cons in Hv as [->|[->|Hv]%elem_of_cons]; [done|done|by apply elem_of_nil in Hv].
Qed.

Lemma loadCache_preorder_witness :
  exists c, loadCache ex_items {[0]} 2 = Some c /\ _rowToItemCache c = row_item <$> rows_of ex_forest /\
    (forall r item level parent, rows_of ex_forest !! r = Some (item, level, parent) ->
       _itemToRowCache c !! item = Some r /\ _itemToLevelCache c !! item = Some level /\
       _itemToParentCache c !! item = parent) /\
    (forall item, item ∉ row_item <$> rows_of ex_forest -> _itemToRowCache c !! item = None /\ _itemToParentCache c !! item = None).
Proof.
  apply (loadCache_preorder ex_items {[0]} 2 ex_forest).
  - exact ex_shows.
  - apply (bool_decide_unpack _). vm_compute. exact I.
  - repeat constructor.
Defined.

(** Expanding item 0 on the screen. *)
Lemma toggleItem_renders_witness :
  let rows := row_item <$> rows_of ex_forest in
  let range := _rowsToRenderRange 25 10 true 0 (Z.of_nat (length rows)) (_lastScrollHeight (list_state (ex_tree true)))
                 (_lastScrollTop (list_state (ex_tree true))) in
  exists t', toggleItem ex_class 25 10 2 true 0 0 (ex_tree true) = Ok (Some t') /\
    tree_items t' = tree_items (ex_tree true) /\ _expandedItems t' = {[0]} ∪ _expandedItems (ex_tree true) /\
    _rowToItemCache (tree_cache t') = rows /\ list_ok 25 rows (list_state t') /\
    shown_rows (list_state t') ≡ₚ seqZ range.1 (range.2 - range.1 + 1) /\
    forall w, w ∈ childViews (list_state t') -> isVisible w = bool_decide (is_Some (contentIndex w)).
Proof.
  apply (toggleItem_renders ex_class 25 10 2 0 0 (ex_view 0 true) 0 ex_forest (ex_tree true));
    [lia|lia|vm_compute; discriminate|reflexivity|reflexivity|exact (ex_list_ok true)| | | | | |discriminate].
  - apply (bool_decide_unpack _). vm_compute. exact I.
  - apply (bool_decide_unpack _). vm_compute. exact I.
  - exact ex_shows.
  - apply (bool_decide_unpack _). vm_compute. exact I.
  - repeat constructor.
Defined.

(** ** Findings *)

(** Item 0 expanded, with its rows on the screen. *)
Definition expanded_tree : outcome (option tree) := toggleItem ex_class 25 10 2 true 0 0 (ex_tree true).

(** Collapsing an expanded item by [collapseItem] drops it from the expanded items
    and leaves its view expanded, and its rows on the screen. *)
Lemma collapseItem_ignored :
  match expanded_tree with
  | Ok (Some t) =>
      match collapseItem ex_class 25 10 2 true 0 0 t with
      | Ok (Some t') => bool_decide (_expandedItems t' = ∅) && bool_decide (_rowToItemCache (tree_cache t') = [0; 1; 2; 4]) &&
          match childViews (list_state t') with v :: _ => isExpanded v | [] => false end = true
      | _ => False
      end
  | _ => False
  end.
Proof. vm_compute. reflexivity. Qed.

(** Expanding an item without a row, here the hidden item 3, while a view waits in
    the pool: the view is found by its row [undefined] and marked expanded. *)
Lemma expandItem_hits_pool :
  match expandItem ex_class 25 10 2 true 0 3
          (set_list (_recycleView ex_class 1 (list_state (ex_tree false))) (ex_tree false)) with
  | Ok (Some t') => 4 ∈ _expandedItems t'
  | _ => False
  end.
Proof. apply (bool_decide_unpack _). vm_compute. exact I. Qed.

(** A view that goes from level 0 to level 1 keeps the class of level 0. *)
Lemma level_class_kept :
  levelClasses (ensureCorrectLevelClass 0 (Some 1%Z) (ex_tree false)) !! 0 = Some [0%Z; 1%Z].
Proof. vm_compute. reflexivity. Qed.
