(* ===== verification/LazyItem.v ===== *)
(** * Items of lazy lists ([views/lazy_list_item_view.js], [lazy_tree_item_view.js])

    An item is selected by a click, or picked up and dragged to another place.  It is
    a state machine of three states that calls the list it is in; what it asks of the list
    is the class [Reorderable], of which the base list and the tree of [LazyTree] are
    instances.  Lists may throw, and a tree whose recursion runs out of fuel, which it
    does not, counts as one that throws.

    The row of the item does not change before its list moves it: a tree that toggles an
    item only moves the rows below.  Positions are what the document reports: of the item when it is picked up, of the list
    for each movement.  The clone that follows the pointer is reduced to the place where the
    item would go. *)

From S2P Require Import Prelude.
From S2P Require LazyList LazyTree.
Open Scope string_scope.
Open Scope list_scope.
Open Scope flame_scope.
Open Scope Z_scope.

(** ** What a list provides to its items *)

(** [info] is what [indexForMovedItem] returns, with a [toPosition]; [None] is what
    entering the state dragging leaves, which has none. *)
Class Reorderable (P info : Type) := {
  itemHeight : P -> Z;
  allowReordering : P -> bool;
  selectIndex : Z -> P -> P;
  indexForMovedItem : option info -> Z -> Z -> Z -> P -> option info;
  moveItem : Z -> info -> P -> outcome P;
  willStartDragging : P -> outcome P;      (* of the item, which may collapse it *)
  clicked : P -> outcome P;                (* of the item, which may expand or collapse it *)
  currentIndex : Z -> option info -> Z;    (* for the indicator; the row of the item at first *)
  level : option info -> option Z
}.

Section item.
Context {P info : Type} `{!Reorderable P info}.

(** ** State *)

Inductive istate := Idle | MouseIsDown | Dragging.

#[export] Instance istate_eq_dec : EqDecision istate.
Proof. solve_decision. Defined.

Record item := Item {
  flameState : istate;
  offsets : option (Z * Z);              (* [xOffset], [yOffset] of the state mouseIsDown *)
  ownOffsets : Z * Z;                    (* of the item, within it *)
  isDragged : bool;
  contentIndex : Z;
  draggingInfo : option (option info);   (* of the clone, while there is one *)
  indicator : option (Z * option Z);     (* its top and its margin, once it is shown *)
  parent : P
}.

Definition put_state n i := Item n (offsets i) (ownOffsets i) (isDragged i) (contentIndex i) (draggingInfo i) (indicator i) (parent i).
Definition set_offsets o i := Item (flameState i) o (ownOffsets i) (isDragged i) (contentIndex i) (draggingInfo i) (indicator i) (parent i).
Definition set_own o i := Item (flameState i) (offsets i) o (isDragged i) (contentIndex i) (draggingInfo i) (indicator i) (parent i).
Definition set_parent p i := Item (flameState i) (offsets i) (ownOffsets i) (isDragged i) (contentIndex i) (draggingInfo i) (indicator i) p.
Definition set_clone b c i := Item (flameState i) (offsets i) (ownOffsets i) b (contentIndex i) c None (parent i).
Definition set_place x h i := Item (flameState i) (offsets i) (ownOffsets i) (isDragged i) (contentIndex i) (Some x) (Some h) (parent i).

(** ** Transitions *)

Definition dragging_enterState (i : item) : outcome item :=
  do! p <- willStartDragging (parent i) ;
  Ok (set_clone true (Some None) (set_parent p i)).

(** Nothing is moved when no movement has set where to. *)
Definition finishDragging (i : item) : outcome item :=
  match draggingInfo i with
  | Some (Some x) => do! p <- moveItem (contentIndex i) x (parent i) ; Ok (set_parent p i)
  | _ => Ok i
  end.

Definition dragging_exitState (i : item) : outcome item :=
  let i1 := Item (flameState i) (offsets i) (ownOffsets i) false (contentIndex i) (draggingInfo i) (indicator i) (parent i) in
  do! i2 <- finishDragging i1 ; Ok (set_clone false None i2).

Definition exitState (i : item) : outcome item :=
  match flameState i with
  | Idle => Ok i
  | MouseIsDown => Ok (set_offsets None i)
  | Dragging => dragging_exitState i
  end.

Definition gotoFlameState (n : istate) (i : item) : outcome item :=
  if decide (flameState i = n) then Ok i
  else
    do! i1 <- exitState i ;
    match n with Dragging => dragging_enterState (put_state n i1) | _ => Ok (put_state n i1) end.

(** ** Events *)

(** A movement of the mouse: the pointer, whether reordering is disabled for the event,
    where the item is, the top of the list within its scroll view, where that is. *)
Record movement := Movement {
  pageX : Z;
  pageY : Z;
  disableReordering : bool;
  item_left : Z;
  item_top : Z;
  list_top : Z;
  scroll_left : Z;
  scroll_top : Z
}.

Definition down_mouseMove (m : movement) (i : item) : outcome item :=
  if negb (allowReordering (parent i)) || disableReordering m then Ok i
  else
    let o := default (pageX m, pageY m) (offsets i) in
    let i1 := set_offsets (Some o) i in
    if Z.abs (pageY m - o.2) <? 3 then Ok i1
    else gotoFlameState Dragging (set_own (o.1 - item_left m, o.2 - item_top m) i1).

(** [Math.ceil(a / b)] for a positive [b]. *)
Definition ceil_div (a b : Z) : Z := - (- a / b).

Definition didDragItem (newTop newLeft : Z) (i : item) : item :=
  let index := ceil_div newTop (itemHeight (parent i)) in
  let x := indexForMovedItem (default None (draggingInfo i)) index (contentIndex i) newLeft (parent i) in
  set_place x (currentIndex (contentIndex i) x * itemHeight (parent i) - 1, (fun l => l * 20 + 7) <$> level x) i.

(** The amount the view is scrolled by is added and subtracted. *)
Definition newTop (m : movement) (own : Z * Z) : Z := pageY m - own.2 - list_top m - scroll_top m.
Definition newLeft (m : movement) (own : Z * Z) : Z := pageX m - scroll_left m - own.1.

Definition mouseDown (i : item) : outcome item :=
  match flameState i with Idle => gotoFlameState MouseIsDown i | _ => Ok i end.

Definition mouseMove (m : movement) (i : item) : outcome item :=
  match flameState i with
  | Idle => Ok i
  | MouseIsDown => down_mouseMove m i
  | Dragging => Ok (didDragItem (newTop m (ownOffsets i)) (newLeft m (ownOffsets i)) i)
  end.

Definition mouseUp (i : item) : outcome item :=
  match flameState i with
  | Idle => Ok i
  | MouseIsDown =>
      do! p <- clicked (parent i) ;
      gotoFlameState Idle (set_parent (selectIndex (contentIndex i) p) i)
  | Dragging => gotoFlameState Idle i
  end.

Fixpoint mouseMoves (ms : list movement) (i : item) : outcome item :=
  match ms with
  | [] => Ok i
  | m :: ms' => do! i' <- mouseMove m i ; mouseMoves ms' i'
  end.

(** The button goes down, the mouse moves, the button is released. *)
Definition press (ms : list movement) (i : item) : outcome item :=
  do! i1 <- mouseDown i ; do! i2 <- mouseMoves ms i1 ; mouseUp i2.

(** ** Specification *)

(** A press is a drag from the first movement, among those that may reorder, that is three
    pixels or more above or below the first such one. *)
Fixpoint drag_start (p : P) (start : option (Z * Z)) (ms : list movement) : option (Z * Z * list movement) :=
  match ms with
  | [] => None
  | m :: ms' =>
      if negb (allowReordering p) || disableReordering m then drag_start p start ms'
      else
        let o := default (pageX m, pageY m) start in
        if Z.abs (pageY m - o.2) <? 3 then drag_start p (Some o) ms'
        else Some (o.1 - item_left m, o.2 - item_top m, ms')
  end.

Definition drag_info (p : P) (ci : Z) (own : Z * Z) (ms : list movement) : option info :=
  foldl (fun x m => indexForMovedItem x (ceil_div (newTop m own) (itemHeight p)) ci (newLeft m own) p) None ms.

(** What a press does to the list: the item is clicked and selected, or, once it is made
    ready, moved to where the last movement has put it, if there was one. *)
Definition pressed (ci : Z) (ms : list movement) (p : P) : outcome P :=
  match drag_start p None ms with
  | None => do! p' <- clicked p ; Ok (selectIndex ci p')
  | Some (own, rest) =>
      do! p' <- willStartDragging p ;
      match drag_info p' ci own rest with
      | None => Ok p'
      | Some x => moveItem ci x p'
      end
  end.

(** ** Lemmas *)

Definition at_rest (i : item) : Prop :=
  flameState i = Idle /\ offsets i = None /\ isDragged i = false /\ draggingInfo i = None /\ indicator i = None.

Lemma drag_moves ms : forall i x, flameState i = Dragging -> draggingInfo i = Some x ->
  exists i', mouseMoves ms i = Ok i' /\ flameState i' = Dragging /\ contentIndex i' = contentIndex i /\ parent i' = parent i /\
    offsets i' = offsets i /\
    draggingInfo i' = Some (foldl (fun x m => indexForMovedItem x (ceil_div (newTop m (ownOffsets i)) (itemHeight (parent i)))
      (contentIndex i) (newLeft m (ownOffsets i)) (parent i)) x ms).
Proof.
  induction ms as [|m ms IH]; intros i x Hs Hx; cbn [mouseMoves]; [by exists i|].
  unfold mouseMove at 1. rewrite Hs. cbn [outcome_bind].
  set (i1 := didDragItem _ _ i). destruct (IH i1 (indexForMovedItem x (ceil_div (newTop m (ownOffsets i)) (itemHeight (parent i)))
    (contentIndex i) (newLeft m (ownOffsets i)) (parent i))) as (i' & E & H1 & H2 & H3 & H4 & H5).
  - exact Hs.
  - unfold i1, didDragItem, set_place. cbn. by rewrite Hx.
  - exists i'. by split_and!.
Qed.

(** The movements while the button is down: they start a drag or leave the list alone. *)
Lemma down_moves ms : forall i, flameState i = MouseIsDown ->
  match drag_start (parent i) (offsets i) ms with
  | None => exists i', mouseMoves ms i = Ok i' /\ flameState i' = MouseIsDown /\ parent i' = parent i /\
      contentIndex i' = contentIndex i /\ isDragged i' = isDragged i /\ draggingInfo i' = draggingInfo i /\ indicator i' = indicator i
  | Some (own, rest) =>
      mouseMoves ms i = do! p <- willStartDragging (parent i) ;
        mouseMoves rest (Item Dragging None own true (contentIndex i) (Some None) None p)
  end.
Proof.
  induction ms as [|m ms IH]; intros i Hs; cbn [drag_start mouseMoves]; [by exists i|].
  unfold mouseMove at 1 2. rewrite Hs. unfold down_mouseMove.
  destruct (negb (allowReordering (parent i)) || disableReordering m); cbn [outcome_bind]; [by apply IH|].
  destruct (Z.abs (pageY m - (default (pageX m, pageY m) (offsets i)).2) <? 3); cbn [outcome_bind].
  { apply (IH (set_offsets (Some (default (pageX m, pageY m) (offsets i))) i)). exact Hs. }
  unfold gotoFlameState. cbn [set_own set_offsets flameState]. rewrite Hs, decide_False by done.
  unfold exitState. cbn [flameState set_own set_offsets]. rewrite Hs. cbn [outcome_bind]. unfold dragging_enterState.
  cbn [put_state set_own set_offsets parent]. by destruct (willStartDragging (parent i)).
Qed.

(** ** Properties *)

(** C14. Whatever the movements between pressing and releasing the button, an item does to
    its list what the specification says, once, and is at rest afterwards: it neither
    selects and moves, nor moves twice, nor leaves a clone behind; it fails only if the list
    does. *)
Theorem press_correct ms i :
  at_rest i ->
  match pressed (contentIndex i) ms (parent i) with
  | Ok p => exists i', press ms i = Ok i' /\ at_rest i' /\ parent i' = p /\ contentIndex i' = contentIndex i
  | Throw e => press ms i = Throw e
  end.
Proof.
  unfold at_rest. intros (Hs & Ho & Hd & Hi & Hin). unfold press.
  assert (mouseDown i = Ok (put_state MouseIsDown i)) as ->.
  { unfold mouseDown, gotoFlameState, exitState. rewrite !Hs, decide_False by done. done. }
  cbn [outcome_bind].
  pose proof (down_moves ms (put_state MouseIsDown i) eq_refl) as H. cbn [put_state parent offsets contentIndex isDragged draggingInfo indicator] in H.
  rewrite Ho in H. unfold pressed. destruct (drag_start (parent i) None ms) as [[own rest]|].
  - rewrite H. destruct (willStartDragging (parent i)) as [p|e]; cbn [outcome_bind]; [|done].
    destruct (drag_moves rest (Item Dragging None own true (contentIndex i) (Some None) None p) None eq_refl eq_refl)
      as (i2 & -> & S2 & C2 & P2 & O2 & D2). cbn [outcome_bind contentIndex ownOffsets parent offsets] in *.
    unfold mouseUp. rewrite S2. unfold gotoFlameState. rewrite S2, decide_False by done. unfold exitState. rewrite S2.
    unfold dragging_exitState, finishDragging. cbn [draggingInfo contentIndex parent]. rewrite D2, C2, P2.
    fold (drag_info p (contentIndex i) own rest). destruct (drag_info p (contentIndex i) own rest) as [x|]; cbn [outcome_bind].
    + destruct (moveItem (contentIndex i) x p) as [p'|e]; cbn [outcome_bind]; [|done].
      eexists. split; [reflexivity|]. split; [by split_and!|]. done.
    + eexists. split; [reflexivity|]. split; [by split_and!|]. done.
  - destruct H as (i2 & -> & S2 & P2 & C2 & D2 & I2 & N2). cbn [outcome_bind]. unfold mouseUp. rewrite S2, P2, C2.
    destruct (clicked (parent i)) as [p|e]; cbn [outcome_bind]; [|done].
    unfold gotoFlameState. cbn [set_parent flameState]. rewrite S2, decide_False by done.
    unfold exitState. cbn [flameState set_parent]. rewrite S2. cbn [outcome_bind]. eexists. split; [reflexivity|]. 
    split; [|done]. split_and!; cbn; try done; congruence.
Qed.
End item.

(** ** The base list and the tree *)

Section instances.
Context (item_class : nat -> string) (height bufferSize : Z) (fuel : nat) (inDocument : bool) (offset : Z).
Context (isValidDrop : nat -> option nat -> bool).
Context (allow : bool) (rows : list nat).

(** A list moves nothing by itself: the method throws. *)
Record list_dragging := ListDragging { lcurrent : Z; ltoPosition : Z }.

#[export] Instance list_reorderable : Reorderable LazyList.state list_dragging := {
  itemHeight _ := height;
  allowReordering _ := allow;
  selectIndex ci s := (LazyList.selectIndex true rows ci s).1;
  indexForMovedItem _ proposed _ _ _ := Some (ListDragging proposed proposed);
  moveItem _ _ _ := Throw "Not implemented yet!";
  willStartDragging s := Ok s;
  clicked s := Ok s;
  currentIndex ci x := from_option lcurrent ci x;
  level _ := None
}.

(** An item of the tree is the view [id]; it expands or collapses by itself and tells the
    tree. *)
Context (id : nat) (isExpandable : bool).

Definition expanded (t : LazyTree.tree) : bool :=
  match LazyList.childViews (LazyTree.list_state t) !! id with Some v => LazyList.isExpanded v | None => false end.

(** [toggleProperty('isExpanded')], then [toggleItem]. *)
Definition toggle (t : LazyTree.tree) : outcome LazyTree.tree :=
  let l := LazyTree.list_state t in
  let t1 := LazyTree.set_list (LazyList.set_views (alter (LazyList.set_expanded (negb (expanded t))) id (LazyList.childViews l)) l) t in
  do! r <- LazyTree.toggleItem item_class height bufferSize fuel inDocument offset id t1 ;
  or_throw r "RangeError".

#[export] Instance tree_reorderable : Reorderable LazyTree.tree LazyTree.dragging := {
  itemHeight _ := height;
  allowReordering _ := allow;
  selectIndex ci t :=
    LazyTree.set_list (LazyList.selectIndex true (LazyTree._rowToItemCache (LazyTree.tree_cache t)) ci (LazyTree.list_state t)).1 t;
  indexForMovedItem x proposed original left t := LazyTree.indexForMovedItem isValidDrop x proposed original left t;
  moveItem from x t := or_throw (LazyTree.moveItem height fuel from x t) "RangeError";
  willStartDragging t := if expanded t then toggle t else Ok t;
  clicked t := if isExpandable then toggle t else Ok t;
  currentIndex ci x := from_option LazyTree.currentIndex ci x;
  level x := LazyTree.toLevel <$> x
}.
End instances.

(** ** Witnesses *)

(** An item of a list whose rows are numbers, put where it is dropped. *)
Definition ex_list : Reorderable (list nat * list Z) Z := {|
  itemHeight _ := 10;
  allowReordering _ := true;
  selectIndex ci p := (p.1, ci :: p.2);
  indexForMovedItem _ proposed _ _ p := Some (Z.max 0 (Z.min proposed (Z.of_nat (length p.1))));
  moveItem from to p :=
    let l := delete (Z.to_nat from) p.1 in
    do! x <- or_throw (p.1 !! Z.to_nat from) TypeError ;
    let k := Z.to_nat (if from <? to then to - 1 else to) in
    Ok (take k l ++ x :: drop k l, p.2);
  willStartDragging p := Ok p;
  clicked p := Ok p;
  currentIndex ci x := default ci x;
  level _ := None
|}.

Definition ex_item : item (P := list nat * list Z) (info := Z) := Item Idle None (0, 0) false 1 None None ([10; 11; 12; 13]%nat, []).
Definition ex_move (y : Z) : movement := Movement 5 y false 0 10 0 0 0.

Lemma press_correct_witness :
  exists i', press (Reorderable0 := ex_list) [ex_move 14; ex_move 15; ex_move 22; ex_move 34] ex_item = Ok i' /\
    flameState i' = Idle /\ parent i' = ([10; 12; 11; 13]%nat, []).
Proof.
  destruct (press_correct (Reorderable0 := ex_list) [ex_move 14; ex_move 15; ex_move 22; ex_move 34] ex_item) as (i' & E & H & Hp & _).
  - by split_and!.
  - exists i'. split; [exact E|]. split; [exact (proj1 H)|exact Hp].
Defined.

(** A press that stays within two pixels selects. *)
Lemma press_selects :
  parent <$> (match press (Reorderable0 := ex_list) [ex_move 14; ex_move 16] ex_item with Ok i => Some i | Throw _ => None end)
    = Some ([10; 11; 12; 13]%nat, [1]).
Proof. reflexivity. Qed.

(** ** Departures *)

(** A list that does not override [moveItem] throws while the state dragging is left:
    the item stays in it, with its clone, and every release throws again. *)
Lemma base_list_keeps_dragging :
  let R := list_reorderable 10 true [0; 1]%nat in
  let i : item (P := LazyList.state) (info := list_dragging) :=
    Item Dragging None (0, 0) true 1 (Some (Some (ListDragging 0 0))) None (LazyList.State [] ∅ None 0 0) in
  mouseUp (Reorderable0 := R) i = Throw "Not implemented yet!".
Proof. reflexivity. Qed.
