(* ===== verification/SafeClone.v ===== *)
(** * Cleaned copies of elements ([utils/jquery_util.js])

    A lazy list copies the element of an item while the item is dragged.  What Ember has put
    into the element, the scripts and attributes that mark its bindings and the identifiers of
    views, is to be removed from the copy.

    An element is its tag, its attributes in the order of the document and its children. *)

From S2P Require Import Prelude.
From S2P Require Import Arrays.
Open Scope string_scope.
Open Scope list_scope.
Open Scope flame_scope.

Abbreviation attributes := (list (string * string)).

Inductive node := Elem (tag : string) (attrs : attributes) (kids : list node) | Text (s : string).

Definition attribute (k : string) (a : attributes) : option string := snd <$> head (base.filter (fun x => x.1 = k) a).
Definition starts_with (p : string) (s : option string) : bool := match s with Some s => String.prefix p s | None => false end.

(** ** The steps of [safeClone] *)

(** [find('script[id^=metamorph]')] *)
Definition is_metamorph (tag : string) (a : attributes) : bool :=
  bool_decide (tag = "script") && starts_with "metamorph" (attribute "id" a).

Fixpoint remove_scripts (n : node) : list node :=
  match n with
  | Elem t a ks => if is_metamorph t a then [] else [Elem t a (concat (map remove_scripts ks))]
  | Text s => [Text s]
  end.

(** [/^data-(bindattr|ember)/] *)
Definition is_mark (k : string) : bool := String.prefix "data-bindattr" k || String.prefix "data-ember" k.

Definition removeAttr (k : string) (a : attributes) : attributes := base.filter (fun x => x.1 <> k) a.

(** The loop over the attributes: their number is read before, the attributes are live. *)
Fixpoint strip_loop (remaining i : nat) (a : attributes) : attributes :=
  match remaining with
  | 0 => a
  | S r =>
      match a !! i with
      | Some (k, _) => strip_loop r (S i) (if is_mark k then removeAttr k a else a)
      | None => strip_loop r (S i) a
      end
  end.
Definition strip_marks (a : attributes) : attributes := strip_loop (length a) 0 a.

Fixpoint each_element (n : node) : node :=
  match n with Elem t a ks => Elem t (strip_marks a) (map each_element ks) | Text s => Text s end.

(** [find('[id^=ember]').removeAttr('id')] *)
Fixpoint remove_ids (n : node) : node :=
  match n with
  | Elem t a ks => Elem t (if starts_with "ember" (attribute "id" a) then removeAttr "id" a else a) (map remove_ids ks)
  | Text s => Text s
  end.

(** [find] searches the descendants of the copy, not the copy itself. *)
Definition safeClone (n : node) : node :=
  match n with
  | Elem t a ks => Elem t a (map remove_ids (map each_element (concat (map remove_scripts ks))))
  | Text s => Text s
  end.

(** ** Specification *)

(** The attributes that are to stay. *)
Definition stays (x : string * string) : Prop :=
  is_mark x.1 = false /\ ~ (x.1 = "id" /\ String.prefix "ember" x.2 = true).
#[export] Instance stays_dec x : Decision (stays x).
Proof. unfold stays. apply _. Defined.

Fixpoint clean (n : node) : list node :=
  match n with
  | Elem t a ks => if is_metamorph t a then [] else [Elem t (base.filter stays a) (concat (map clean ks))]
  | Text s => [Text s]
  end.

(** What the loop does: of neighbouring marks it removes every other one. *)
Fixpoint every_other (a : attributes) : attributes :=
  match a with
  | [] => []
  | x :: a' => if is_mark x.1 then match a' with [] => [] | y :: a'' => y :: every_other a'' end else x :: every_other a'
  end.

(** No two marks are next to each other. *)
Fixpoint apart (a : attributes) : bool :=
  match a with
  | x :: (y :: _) as a' => negb (is_mark x.1 && is_mark y.1) && apart a'
  | _ => true
  end.

Fixpoint ordinary (n : node) : Prop :=
  match n with
  | Elem t a ks => NoDup a.*1 /\ apart a = true /\ fold_right and True (map ordinary ks)
  | Text _ => True
  end.

(** ** Lemmas *)

Lemma dom_node_ind (P : node -> Prop) : (forall t a ks, Forall P ks -> P (Elem t a ks)) -> (forall s, P (Text s)) -> forall n, P n.
Proof.
  intros He Ht. fix IH 1. intros [t a ks|s]; [|apply Ht]. apply He. induction ks as [|k ks IHks]; constructor; [apply IH|exact IHks].
Qed.

Lemma name_in (a : attributes) x k : x ∈ a -> x.1 = k -> k ∈ a.*1.
Proof. intros Hx <-. by apply list_elem_of_fmap_2. Qed.

Lemma removeAttr_middle k v pre post : NoDup (pre ++ (k, v) :: post).*1 -> removeAttr k (pre ++ (k, v) :: post) = pre ++ post.
Proof.
  intros Hn. unfold removeAttr. rewrite fmap_app, fmap_cons in Hn. apply NoDup_app in Hn as (_ & Hd & Hn). apply NoDup_cons in Hn as [Hk _].
  assert (forall l : attributes, k ∉ l.*1 -> base.filter (fun x => x.1 <> k) l = l) as Hall.
  { intros l Hl. apply list_filter_all, Forall_forall. intros x Hx Hxk. apply Hl. by eapply name_in. }
  rewrite filter_app, filter_cons_False by (cbn; tauto). rewrite !Hall; [done|done|].
  intros H. apply (Hd k H), list_elem_of_here.
Qed.

Lemma strip_loop_spec r : forall pre post, length post <= r -> NoDup (pre ++ post).*1 ->
  strip_loop r (length pre) (pre ++ post) = pre ++ every_other post.
Proof.
  induction r as [|r IH]; intros pre post Hr Hn.
  { destruct post; [done|cbn in Hr; lia]. }
  cbn [strip_loop]. destruct post as [|[k v] post].
  { rewrite app_nil_r, lookup_ge_None_2 by lia. rewrite <- (app_nil_r pre) at 2.
    clear. cbn [every_other]. rewrite !app_nil_r. generalize (S (length pre)), (Nat.le_succ_diag_r (length pre)). clear.
    induction r as [|r IH]; intros i Hi; [done|]. cbn. rewrite lookup_ge_None_2 by done. apply IH. lia. }
  rewrite list_lookup_middle by done. cbn [every_other fst]. destruct (is_mark k).
  - rewrite removeAttr_middle by done. destruct post as [|y post].
    + cbn. rewrite !app_nil_r. clear -pre. generalize (S (length pre)), (Nat.le_succ_diag_r (length pre)).
      induction r as [|r IH]; intros i Hi; [done|]. cbn. rewrite lookup_ge_None_2 by done. apply IH. lia.
    + replace (S (length pre)) with (length (pre ++ [y])) by (rewrite length_app; cbn; lia).
      rewrite (cons_middle y pre post), (cons_middle y pre (every_other post)), !(assoc_L app). apply IH; [cbn in Hr; lia|].
      rewrite <- (assoc_L app). cbn [app]. rewrite fmap_app, fmap_cons in Hn. rewrite <- Permutation_middle in Hn.
      apply NoDup_cons in Hn as [_ Hn]. by rewrite fmap_app.
  - replace (S (length pre)) with (length (pre ++ [(k, v)])) by (rewrite length_app; cbn; lia).
    rewrite (cons_middle (k, v) pre post), (cons_middle (k, v) pre (every_other post)), !(assoc_L app). apply IH; [cbn in Hr; lia|].
    rewrite <- (assoc_L app). exact Hn.
Qed.

Lemma every_other_apart a : apart a = true -> every_other a = base.filter (fun x => is_mark x.1 = false) a.
Proof.
  induction a as [|x a IH]; [done|]. intros H. destruct a as [|y a].
  - cbn [every_other]. rewrite filter_cons. by destruct (is_mark x.1).
  - cbn in H. apply andb_true_iff in H as [Hxy H]. cbn [every_other]. destruct (is_mark x.1) eqn:Ex.
    + rewrite filter_cons_False by congruence. cbn in Hxy. apply negb_true_iff in Hxy.
      rewrite <- (IH H). cbn [every_other]. by rewrite Hxy.
    + rewrite filter_cons_True by done. f_equal. by apply IH.
Qed.

Lemma removeAttr_none k (a : attributes) : k ∉ a.*1 -> removeAttr k a = a.
Proof.
  intros H. apply list_filter_all, Forall_forall. intros x Hx E. apply H. by eapply name_in.
Qed.

Lemma attribute_none k (a : attributes) : k ∉ a.*1 -> attribute k a = None.
Proof.
  intros H. unfold attribute. rewrite list_filter_none; [done|]. apply Forall_forall. intros x Hx E. apply H. by eapply name_in.
Qed.

Lemma ids_removed (b : attributes) : NoDup b.*1 ->
  (if starts_with "ember" (attribute "id" b) then removeAttr "id" b else b) =
  base.filter (fun x => ~ (x.1 = "id" /\ String.prefix "ember" x.2 = true)) b.
Proof.
  induction b as [|[k v] b IH]; [done|]. rewrite fmap_cons. intros [Hk Hn]%NoDup_cons. specialize (IH Hn). rewrite (filter_cons _ (k, v) b). cbn [fst snd].
  destruct (decide (k = "id")) as [->|Hkid].
  - assert (base.filter (fun x => ~ (x.1 = "id" /\ String.prefix "ember" x.2 = true)) b = b) as ->.
    { apply list_filter_all, Forall_forall. intros x Hx [E _]. apply Hk. by eapply name_in. }
    unfold attribute. rewrite filter_cons_True by done. cbn.
    destruct (String.prefix "ember" v) eqn:Ev.
    + rewrite decide_False by tauto. by apply removeAttr_none.
    + rewrite decide_True by (intros [_ ?]; congruence). done.
  - rewrite decide_True by tauto. rewrite <- IH. unfold attribute. rewrite filter_cons_False by done. fold (attribute "id" b).
    destruct (starts_with "ember" (attribute "id" b)); [|done]. unfold removeAttr. by rewrite filter_cons_True.
Qed.

(** The loop that removes the marks of bindings removes, of each run of neighbouring marks,
    the first, the third and so on: having removed one it steps over the next. *)
Theorem marks_are_stripped a : NoDup a.*1 -> strip_marks a = every_other a.
Proof. intros H. exact (strip_loop_spec (length a) [] a (le_n _) H). Qed.

Lemma strip_apart a : NoDup a.*1 -> apart a = true -> strip_marks a = base.filter (fun x => is_mark x.1 = false) a.
Proof. intros Hn Ha. rewrite <- every_other_apart by done. exact (strip_loop_spec (length a) [] a (le_n _) Hn). Qed.

Lemma NoDup_filter_names (P : string * string -> Prop) `{forall x, Decision (P x)} (a : attributes) : NoDup a.*1 -> NoDup (base.filter P a).*1.
Proof.
  induction a as [|x a IH]; [done|]. rewrite fmap_cons. intros [Hx Hn]%NoDup_cons. rewrite filter_cons. destruct (decide (P x)); [|by apply IH].
  apply NoDup_cons. split; [|by apply IH]. intros (y & E & [_ Hy]%list_elem_of_filter)%list_elem_of_fmap. apply Hx. rewrite E. by apply list_elem_of_fmap_2.
Qed.

Lemma attributes_clean a : NoDup a.*1 -> apart a = true ->
  (if starts_with "ember" (attribute "id" (strip_marks a)) then removeAttr "id" (strip_marks a) else strip_marks a) = base.filter stays a.
Proof.
  intros Hn Ha. rewrite strip_apart by done. rewrite ids_removed by (by apply NoDup_filter_names). rewrite list_filter_filter.
  apply list_filter_iff. intros x. unfold stays. tauto.
Qed.

Lemma concat_singletons {A B} (f : A -> list B) (g : B -> B) (h : A -> list B) l :
  Forall (fun x => map g (f x) = h x) l -> map g (concat (map f l)) = concat (map h l).
Proof. induction 1 as [|x l Hx _ IH]; [done|]. cbn. by rewrite map_app, Hx, IH. Qed.

Lemma node_clean n : ordinary n -> map (fun n => remove_ids (each_element n)) (remove_scripts n) = clean n.
Proof.
  induction n as [t a ks IH|s] using dom_node_ind; [|done]. cbn [ordinary remove_scripts clean]. intros (Hn & Ha & Hks).
  destruct (is_metamorph t a); [done|]. cbn [map each_element remove_ids]. rewrite attributes_clean, map_map by done. do 2 f_equal.
  apply concat_singletons. clear -IH Hks. induction IH as [|k ks Hk _ IHks]; [constructor|]. destruct Hks as [H1 H2]. constructor; auto.
Qed.

(** The copy has the tag and the attributes of the element, and its descendants in their
    order: without the scripts that mark bindings, and without the attributes that mark them
    and the identifiers of views, but with all other attributes and texts.  In the elements
    attributes have different names and no two marks are next to each other. *)
Theorem safe_clone_cleans t a ks : fold_right and True (map ordinary ks) ->
  safeClone (Elem t a ks) = Elem t a (concat (map clean ks)).
Proof.
  intros H. unfold safeClone. rewrite map_map. f_equal. apply concat_singletons.
  induction ks as [|k ks IH]; [constructor|]. destruct H as [H1 H2]. constructor; [by apply node_clean|auto].
Qed.

(** ** At a concrete item *)

Ltac names_differ := repeat (apply NoDup_cons; split; [set_solver|]); apply NoDup_nil_2.

Definition an_item : node :=
  Elem "div" [("id", "ember12"); ("class", "flame-list-item-view")]
    [Elem "script" [("id", "metamorph-1-start"); ("type", "text/x-placeholder")] []; Text "Title";
     Elem "img" [("src", "a.png"); ("data-bindattr-1", "1"); ("height", "3"); ("data-bindattr-2", "2")] [];
     Elem "div" [("id", "ember13"); ("class", "ember-view")] [Text "inner"]].

Lemma safe_clone_cleans_witness :
  safeClone an_item = Elem "div" [("id", "ember12"); ("class", "flame-list-item-view")]
    [Text "Title"; Elem "img" [("src", "a.png"); ("height", "3")] []; Elem "div" [("class", "ember-view")] [Text "inner"]].
Proof.
  refine (eq_trans (safe_clone_cleans _ _ _ _) _); [|reflexivity].
  cbn. split_and!; try done; names_differ.
Defined.

Definition two_marks : attributes := [("data-bindattr-1", "1"); ("data-bindattr-2", "2"); ("src", "a.png"); ("data-bindattr-3", "3")].

Lemma marks_are_stripped_witness : strip_marks two_marks = [("data-bindattr-2", "2"); ("src", "a.png")].
Proof. refine (eq_trans (marks_are_stripped two_marks _) _); [names_differ|reflexivity]. Defined.

(** ** Departures *)

(** The copy itself keeps the identifier of its view, and the marks of its own bindings: the
    document has two elements of the same identifier while an item is dragged. *)
Lemma copy_keeps_identifier : exists ks, safeClone an_item = Elem "div" [("id", "ember12"); ("class", "flame-list-item-view")] ks.
Proof. by eexists. Qed.
