(* ===== verification/Menu.v ===== *)
(** * Menus ([views/menu_view.js], [views/panel.js], [mixins/menu_view_support.js])

    A menu is a panel with items; an item may have a submenu, a menu of its own that
    is created when it is opened.  All open menus are panels above each other: each
    has pushed itself on the stack of key responders and raised the counter for the
    z-index.  Which item is highlighted is observed: moving the highlight closes the
    submenu of the item that loses it, and what is highlighted is passed up to the
    parent menus as the selection to be made.

    Menus are numbered in the order of their creation.  Setting a property to the value
    it has runs no observer.  A destroyed panel counts as destroyed at once.  Elements,
    their classes and the measuring of texts are not modelled; the time is an argument. *)

From S2P Require Import Prelude.
From stdpp Require Import gmap.
Open Scope string_scope.
Open Scope list_scope.
Open Scope flame_scope.

(** ** Data *)

(** An object of [items], read by the menu's item keys. *)
Inductive mdata := MData {
  title : string;
  itemEnabled : option bool;
  itemChecked : bool;
  itemValue : option nat;
  itemAction : option nat;
  subMenu : option (list mdata)
}.

(** [MenuItem]. *)
Record mitem := MItem {
  item : mdata;
  isSelected : bool;
  isDisabled : bool;
  isChecked : bool;
  subMenuItems : option (list mdata);
  subMenuView : option nat
}.

Record menu := Menu {
  items : list mdata;
  _menuItems : list mitem;
  parentMenu : option nat;
  _highlightIndex : Z;
  _userHighlightIndex : Z;
  value : option nat;
  action : option nat;
  _searchKey : string;
  _openedAt : Z;
  isShown : bool;
  isDestroyed : bool
}.

Record state := State {
  menus : list menu;
  selections : gmap nat mdata;      (* [_internalSelection] of the menus where it is set *)
  keyStack : list nat;              (* the key responders, the current one first *)
  zIndexCounter : Z;
  fired : list (nat * option nat)   (* the actions fired, with the value *)
}.

Definition set_menus l s := State l (selections s) (keyStack s) (zIndexCounter s) (fired s).
Definition set_selections x s := State (menus s) x (keyStack s) (zIndexCounter s) (fired s).
Definition set_stack x z s := State (menus s) (selections s) x z (fired s).
Definition add_fired x s := State (menus s) (selections s) (keyStack s) (zIndexCounter s) (fired s ++ [x]).

Definition set_menuItems x M := Menu (items M) x (parentMenu M) (_highlightIndex M) (_userHighlightIndex M) (value M) (action M) (_searchKey M) (_openedAt M) (isShown M) (isDestroyed M).
Definition set_items x M := Menu x (_menuItems M) (parentMenu M) (_highlightIndex M) (_userHighlightIndex M) (value M) (action M) (_searchKey M) (_openedAt M) (isShown M) (isDestroyed M).
Definition set_index x M := Menu (items M) (_menuItems M) (parentMenu M) x (_userHighlightIndex M) (value M) (action M) (_searchKey M) (_openedAt M) (isShown M) (isDestroyed M).
Definition set_user x M := Menu (items M) (_menuItems M) (parentMenu M) (_highlightIndex M) x (value M) (action M) (_searchKey M) (_openedAt M) (isShown M) (isDestroyed M).
Definition set_val x M := Menu (items M) (_menuItems M) (parentMenu M) (_highlightIndex M) (_userHighlightIndex M) x (action M) (_searchKey M) (_openedAt M) (isShown M) (isDestroyed M).
Definition set_search x M := Menu (items M) (_menuItems M) (parentMenu M) (_highlightIndex M) (_userHighlightIndex M) (value M) (action M) x (_openedAt M) (isShown M) (isDestroyed M).
Definition set_opened x M := Menu (items M) (_menuItems M) (parentMenu M) (_highlightIndex M) (_userHighlightIndex M) (value M) (action M) (_searchKey M) x (isShown M) (isDestroyed M).
Definition set_shown b d M := Menu (items M) (_menuItems M) (parentMenu M) (_highlightIndex M) (_userHighlightIndex M) (value M) (action M) (_searchKey M) (_openedAt M) b d.

Definition select b x := MItem (item x) b (isDisabled x) (isChecked x) (subMenuItems x) (subMenuView x).
Definition set_sub v x := MItem (item x) (isSelected x) (isDisabled x) (isChecked x) (subMenuItems x) v.

Definition upd (m : nat) (f : menu -> menu) (s : state) : state := set_menus (alter f m (menus s)) s.
Definition upd_item (m i : nat) (f : mitem -> mitem) (s : state) : state :=
  upd m (fun M => set_menuItems (alter f i (_menuItems M)) M) s.

(** [objectAt]. *)
Definition objectAt {A} (l : list A) (i : Z) : option A := if (i <? 0)%Z then None else l !! Z.to_nat i.

(** ** Items *)

Definition isEnabled (x : mitem) : bool :=
  negb (isDisabled x || match subMenuItems x with Some [] => true | _ => false end).

Definition isSelectable (x : mitem) : bool :=
  isEnabled x && match subMenuItems x with Some (_ :: _) => false | _ => true end.

Definition _createMenuItems (its : list mdata) (selectedValue : option nat) : list mitem :=
  (fun d => MItem d (match selectedValue with Some v => bool_decide (itemValue d = Some v) | None => false end)
                  (bool_decide (itemEnabled d = Some false)) (itemChecked d) (subMenu d) None) <$> its.

(** ** Highlighting and closing

    [None] stands for fuel that has run out, or for a menu that does not exist. *)

(** Setting [_internalSelection] sets it in all parents. *)
Fixpoint set_internalSelection (fuel : nat) (m : nat) (sel : option mdata) (s : state) : option state :=
  match fuel with
  | 0 => None
  | S n =>
      M ← menus s !! m;
      let s1 := set_selections (partial_alter (fun _ => sel) m (selections s)) s in
      match parentMenu M with
      | Some p => set_internalSelection n p sel s1
      | None => Some s1
      end
  end.

(** [Panel.close]; menus are destroyed on closing. *)
Definition panel_close (m : nat) (s : state) : option state :=
  M ← menus s !! m;
  if isDestroyed M then Some s
  else if isShown M then
    Some (set_stack (tail (keyStack s)) (zIndexCounter s - 100) (upd m (set_shown false true) s))
  else Some s.

(** [closeSubMenu] of an item. *)
Definition closeSubMenu_with (close : nat -> state -> option state) (m i : nat) (s : state) : option state :=
  M ← menus s !! m;
  x ← _menuItems M !! i;
  match subMenuView x with
  | Some c => s' ← close c s; Some (upd_item m i (set_sub None) s')
  | None => Some s
  end.

Definition _highlightWillChange (close : nat -> state -> option state) (m : nat) (s : state) : option state :=
  M ← menus s !! m;
  match objectAt (_menuItems M) (_highlightIndex M) with
  | Some _ =>
      let i := Z.to_nat (_highlightIndex M) in
      closeSubMenu_with close m i (upd_item m i (select false) s)
  | None => Some s
  end.

Definition _highlightDidChange (m : nat) (s : state) : option state :=
  M ← menus s !! m;
  match objectAt (_menuItems M) (_highlightIndex M) with
  | Some x => set_internalSelection (S m) m (if isSelectable x then Some (item x) else None)
                (upd_item m (Z.to_nat (_highlightIndex M)) (select true) s)
  | None => set_internalSelection (S m) m None s
  end.

Definition set_highlight_with (close : nat -> state -> option state) (m : nat) (i : Z) (s : state) : option state :=
  M ← menus s !! m;
  if (_highlightIndex M =? i)%Z then Some s
  else s1 ← _highlightWillChange close m s; _highlightDidChange m (upd m (set_index i) s1).

Definition _clearKeySearch (m : nat) (s : state) : state := upd m (set_search "") s.

Fixpoint close_loop (fuel : nat) (m : nat) (s : state) : option state :=
  match fuel with
  | 0 => None
  | S n =>
      M ← menus s !! m;
      if isDestroyed M then Some s
      else s1 ← set_highlight_with (close_loop n) m (-1) s; panel_close m (_clearKeySearch m s1)
  end.

(** Submenus are younger than their parents: as much fuel as there are menus is enough. *)
Definition close (m : nat) (s : state) : option state := close_loop (length (menus s)) m s.
Definition set_highlightIndex (m : nat) (i : Z) (s : state) : option state :=
  set_highlight_with (close_loop (length (menus s))) m i s.

Definition set_userHighlightIndex (m : nat) (i : Z) (s : state) : option state :=
  M ← menus s !! m;
  if (_userHighlightIndex M =? i)%Z then Some s
  else set_highlightIndex m i (upd m (set_user i) s).

Definition closeCurrentlyOpenSubMenu (m : nat) (s : state) : option state :=
  M ← menus s !! m;
  if (0 <=? _highlightIndex M)%Z
  then closeSubMenu_with (close_loop (length (menus s))) m (Z.to_nat (_highlightIndex M)) s
  else Some s.

(** ** Creation *)

(** [_needToRecreateItems]: the root menu highlights the item of its value. *)
Fixpoint highlight_selected (n : nat) (m : nat) (s : state) : option state :=
  match n with
  | 0 => Some s
  | S n' =>
      s' ← highlight_selected n' m s;
      M ← menus s' !! m;
      match _menuItems M !! n' with
      | Some x => if isSelected x then set_highlightIndex m (Z.of_nat n') s' else Some s'
      | None => Some s'
      end
  end.

Definition _needToRecreateItems (m : nat) (s : state) : option state :=
  M ← menus s !! m;
  let l := _createMenuItems (items M) (value M) in
  let s1 := upd m (set_menuItems l) s in
  match parentMenu M with
  | None => highlight_selected (length l) m s1
  | Some _ => Some s1
  end.

(** The observer of [items]. *)
Definition itemsDidChange (m : nat) (its : list mdata) (s : state) : option state :=
  _needToRecreateItems m (upd m (set_items its) s).

Definition create (its : list mdata) (parent : option nat) (val act : option nat) (s : state) : option (state * nat) :=
  let m := length (menus s) in
  s' ← _needToRecreateItems m (set_menus (menus s ++ [Menu its [] parent (-1) (-1) val act "" 0 false false]) s);
  Some (s', m).

Definition createSubMenu (m : nat) (its : list mdata) (s : state) : option (state * nat) := create its (Some m) None None s.

(** [popup] of the menu and of the panel. *)
Definition panel_popup (m : nat) (s : state) : option state :=
  M ← menus s !! m;
  if isShown M then Some s
  else Some (set_stack (m :: keyStack s) (zIndexCounter s + 100) (upd m (set_shown true (isDestroyed M)) s)).

Definition popup (now : Z) (m : nat) (s : state) : option state :=
  M ← menus s !! m;
  panel_popup m (match parentMenu M with None => upd m (set_opened now) s | Some _ => s end).

(** ** Handlers *)

(** The loop of [_selectNext]: the next item that is enabled. *)
Fixpoint next_enabled (fuel : nat) (l : list mitem) (increment index : Z) : option Z :=
  match fuel with
  | 0 => None
  | S n =>
      match objectAt l index with
      | Some x => if isEnabled x then Some index else next_enabled n l increment (index + increment)
      | None => None
      end
  end.

Definition _selectNext (m : nat) (increment : Z) (s : state) : option state :=
  M ← menus s !! m;
  s' ← match next_enabled (S (length (_menuItems M))) (_menuItems M) increment (_highlightIndex M + increment) with
       | Some i => set_highlightIndex m i s
       | None => Some s
       end;
  Some (_clearKeySearch m s').
Definition moveUp (m : nat) := _selectNext m (-1).
Definition moveDown (m : nat) := _selectNext m 1.

Definition _tryOpenSubmenu (now : Z) (m : nat) (selectItem : bool) (s : state) : option state :=
  M ← menus s !! m;
  match objectAt (_menuItems M) (_highlightIndex M) with
  | None => Some s
  | Some x =>
      match subMenuItems x with
      | Some (d :: l) =>
          if isEnabled x then
            let s0 := _clearKeySearch m s in
            r ← match subMenuView x with
                | None => r ← createSubMenu m (d :: l) s0;
                          Some (upd_item m (Z.to_nat (_highlightIndex M)) (set_sub (Some r.2)) r.1, r.2)
                | Some c => s1 ← set_userHighlightIndex c (-1) s0; Some (s1, c)
                end;
            s2 ← popup now r.2 r.1;
            if selectItem then _selectNext r.2 1 s2 else Some s2
          else Some s
      | _ => Some s
      end
  end.
Definition moveRight (now : Z) (m : nat) (s : state) : option state := _tryOpenSubmenu now m true s.

Definition moveLeft (m : nat) (s : state) : option state :=
  M ← menus s !! m;
  match parentMenu M with Some p => closeCurrentlyOpenSubMenu p s | None => Some s end.

Definition cancel (m : nat) (s : state) : option state :=
  M ← menus s !! m;
  match parentMenu M with Some p => closeCurrentlyOpenSubMenu p s | None => close m s end.

Definition _findIndex (p : mdata -> bool) (l : list mdata) : Z :=
  match list_find (fun d => p d = true) l with Some (i, _) => Z.of_nat i | None => (-1)%Z end.

Definition _valueDidChange (m : nat) (s : state) : option state :=
  M ← menus s !! m;
  match value M with
  | None => Some s
  | Some v =>
      let index := _findIndex (fun d => bool_decide (itemValue d = Some v)) (items M) in
      if (0 <=? index)%Z then set_highlightIndex m index s else Some s
  end.

Definition set_value (m : nat) (v : option nat) (s : state) : option state :=
  M ← menus s !! m;
  if bool_decide (value M = v) then Some s else _valueDidChange m (upd m (set_val v) s).

(** The action is fired once the menu is closed. *)
Definition make_root_selection (m : nat) (s : state) : option state :=
  M ← menus s !! m;
  match selections s !! m with
  | Some d =>
      s1 ← set_value m (itemValue d) s;
      s2 ← close m s1;
      Some (match (match itemAction d with Some a => Some a | None => action M end) with
            | Some a => add_fired (a, itemValue d) s2
            | None => s2
            end)
  | None => close m s
  end.

Fixpoint makeSelection_loop (fuel : nat) (m : nat) (s : state) : option state :=
  match fuel with
  | 0 => None
  | S n =>
      M ← menus s !! m;
      match parentMenu M with
      | Some p => s' ← makeSelection_loop n p s; close m s'
      | None => make_root_selection m s
      end
  end.
Definition makeSelection (m : nat) (s : state) : option state := makeSelection_loop (S m) m s.
Definition insertNewline := makeSelection.

Definition mouseEntered (now : Z) (m : nat) (index : Z) (s : state) : option state :=
  s1 ← set_userHighlightIndex m index s;
  M ← menus s1 !! m;
  x ← objectAt (_menuItems M) index;
  match subMenuView x with
  | Some c => s2 ← set_userHighlightIndex c (-1) s1; set_internalSelection (S m) m (Some (item x)) s2
  | None => _tryOpenSubmenu now m false s1
  end.

Definition mouseClicked (now : Z) (m : nat) (index : Z) (s : state) : option state :=
  M ← menus s !! m;
  if (match parentMenu M with None => (now - _openedAt M <? 300)%Z | Some _ => false end) then Some s
  else
    s1 ← set_highlightIndex m index s;
    M1 ← menus s1 !! m;
    if (0 <=? _userHighlightIndex M1)%Z then makeSelection m s1 else Some s1.

(** ** Searching by typing *)

Definition upcase (c : Ascii.ascii) : Ascii.ascii :=
  let n := Ascii.nat_of_ascii c in
  if (97 <=? n)%nat && (n <=? 122)%nat then Ascii.ascii_of_nat (n - 32) else c.
Fixpoint upper (s : string) : string :=
  match s with EmptyString => EmptyString | String c s' => String (upcase c) (upper s') end.

(** The escaped name at the start of the title, whatever the case. *)
Definition _findByName (name : string) (l : list mdata) : Z :=
  _findIndex (fun d => String.prefix (upper name) (upper (title d))) l.

Definition _doKeySearch (m : nat) (key : string) (s : state) : option state :=
  M ← menus s !! m;
  let k := (_searchKey M +:+ key)%string in
  let s1 := upd m (set_search k) s in
  let index := _findByName k (items M) in
  if (0 <=? index)%Z then set_highlightIndex m index s1 else Some s1.

(** ** Specification *)

(** Parents are older than their submenus. *)
Definition wf (ms : list menu) : Prop :=
  forall m M p, ms !! m = Some M -> parentMenu M = Some p -> p < m.

Definition open_menu (M : menu) : Prop := isShown M = true /\ isDestroyed M = false.

(** The open menus from [m] on: each but the last has the next one as the submenu of
    its highlighted item, and no other submenus. *)
Inductive path (ms : list menu) : nat -> list nat -> Prop :=
| path_last m M : ms !! m = Some M -> open_menu M ->
    (forall i x, _menuItems M !! i = Some x -> subMenuView x = None) -> path ms m [m]
| path_sub m M i x c C l : ms !! m = Some M -> open_menu M ->
    _highlightIndex M = Z.of_nat i -> _menuItems M !! i = Some x -> subMenuView x = Some c ->
    (forall j y, _menuItems M !! j = Some y -> j <> i -> subMenuView y = None) ->
    ms !! c = Some C -> parentMenu C = Some m -> path ms c l -> path ms m (m :: l).

(** A menu in which only the highlight, the search, the value or submenus have changed. *)
Definition strip (x : mitem) := (item x, isDisabled x, isChecked x, subMenuItems x).
Definition same_menu (M M' : menu) : Prop :=
  items M' = items M /\ parentMenu M' = parentMenu M /\ action M' = action M /\
  isShown M' = isShown M /\ isDestroyed M' = isDestroyed M /\ strip <$> _menuItems M' = strip <$> _menuItems M.

(** The menus of [l], open in [s], are closed in [s'], their places on the stack and
    their z-indices given back; nothing else happened but to [_internalSelection]. *)
Record closes (l : list nat) (s s' : state) : Prop := {
  cl_stack : keyStack s' = drop (length l) (keyStack s);
  cl_z : zIndexCounter s' = (zIndexCounter s - 100 * Z.of_nat (length l))%Z;
  cl_fired : fired s' = fired s;
  cl_length : length (menus s') = length (menus s);
  cl_rest k : k ∉ l -> menus s' !! k = menus s !! k;
  cl_closed k : k ∈ l -> exists M M', menus s !! k = Some M /\ menus s' !! k = Some M' /\
                  isDestroyed M' = true /\ parentMenu M' = parentMenu M /\ value M' = value M
}.

(** ** Lemmas *)

Lemma upd_lookup m f s k : menus (upd m f s) !! k = (if decide (m = k) then f <$> menus s !! k else menus s !! k).
Proof. unfold upd. cbn. rewrite list_lookup_alter. by destruct (decide (m = k)) as [->|]. Qed.

Lemma upd_length m f s : length (menus (upd m f s)) = length (menus s).
Proof. apply length_alter. Qed.

Lemma path_head ms m l : path ms m l -> exists l', l = m :: l'.
Proof. inversion 1; subst; eauto. Qed.

Lemma path_above ms m l : wf ms -> path ms m l -> forall k, k ∈ l -> m <= k.
Proof.
  intros Hwf. induction 1 as [m M|m M i x c C l Hm Ho Hi Hx Hc Hn HC HpC Hp IH]; intros k Hk.
  - apply list_elem_of_singleton in Hk. lia.
  - apply elem_of_cons in Hk as [->|Hk]; [lia|]. specialize (IH k Hk). pose proof (Hwf c C m HC HpC). lia.
Qed.

Lemma path_fresh ms m l : wf ms -> path ms m (m :: l) -> m ∉ l.
Proof.
  intros Hwf Hp Hin. inversion Hp as [|? ? ? ? c C ? ? ? ? ? ? ? HC HpC Hp']; subst; [set_solver|].
  pose proof (path_above _ _ _ Hwf Hp' m Hin). pose proof (Hwf c C m HC HpC). lia.
Qed.

Lemma path_length ms m l : wf ms -> path ms m l -> m + length l <= length ms.
Proof.
  intros Hwf. induction 1 as [m M Hm|m M i x c C l Hm Ho Hi Hx Hc Hn HC HpC Hp IH]; cbn.
  - apply lookup_lt_Some in Hm. lia.
  - pose proof (Hwf c C m HC HpC). lia.
Qed.

Lemma path_ext ms ms' m l : (forall k, k ∈ l -> ms' !! k = ms !! k) -> path ms m l -> path ms' m l.
Proof.
  intros Heq Hp. induction Hp as [m M Hm Ho Hn|m M i x c C l Hm Ho Hi Hx Hc Hn HC HpC Hp IH].
  - eapply path_last; [rewrite Heq; [done|by left]|done|done].
  - eapply path_sub; try done; [rewrite Heq; [done|by left]| |].
    + rewrite Heq; [done|]. destruct (path_head _ _ _ Hp) as [l' ->]. right. by left.
    + apply IH. intros k Hk. apply Heq. by right.
Qed.

Lemma path_tail ms pre : forall r m l, path ms r (pre ++ m :: l) -> path ms m (m :: l).
Proof.
  induction pre as [|a pre IH]; intros r m l Hp; cbn in Hp.
  - destruct (path_head _ _ _ Hp) as [l' [= -> ->]]. done.
  - inversion Hp as [? ? ? ? ? Hnil|? ? ? ? c C l0 ? ? ? ? ? ? HC HpC Hp']; subst; [by destruct pre|]. by apply (IH c).
Qed.

(** Replacing the end of a path. *)
Lemma path_graft ms ms' pre : forall r m l l', path ms r (pre ++ m :: l) ->
  (forall k, k ∈ pre -> ms' !! k = ms !! k) ->
  (forall M, ms !! m = Some M -> exists M', ms' !! m = Some M' /\ parentMenu M' = parentMenu M) ->
  path ms' m l' -> path ms' r (pre ++ l').
Proof.
  induction pre as [|a pre IH]; intros r m l l' Hp Hpre Hm Hp'; cbn in *.
  - by destruct (path_head _ _ _ Hp) as [? [= <- ->]].
  - inversion Hp as [? ? ? ? ? Hnil|? M i x c C l0 HM ? ? ? ? ? HC HpC Hp0]; subst; [by destruct pre|].
    assert (exists C', ms' !! c = Some C' /\ parentMenu C' = parentMenu C) as (C' & HC' & HpC').
    { destruct (path_head _ _ _ Hp0) as [t Ht]. destruct pre as [|b pre]; injection Ht as ? ?; subst.
      - destruct (Hm C HC) as (M' & ? & ?). exists M'. split; congruence.
      - exists C. rewrite Hpre by (right; by left). done. }
    eapply path_sub; try done; [by rewrite Hpre by by left|congruence|].
    apply (IH c m l); [done| |done|done]. intros k Hk. apply Hpre. by right.
Qed.

Lemma set_selections_twice x y s : set_selections x (set_selections y s) = set_selections x s.
Proof. done. Qed.

Lemma set_internalSelection_ok n : forall m sel s, wf (menus s) -> m < n -> m < length (menus s) ->
  exists x, set_internalSelection n m sel s = Some (set_selections x s).
Proof.
  induction n as [|n IH]; intros m sel s Hwf Hn Hm; [lia|]. cbn [set_internalSelection].
  apply lookup_lt_is_Some in Hm as [M HM]. rewrite HM. cbn.
  destruct (parentMenu M) as [p|] eqn:Ep; [|eauto].
  pose proof (Hwf m M p HM Ep). apply lookup_lt_Some in HM.
  destruct (IH p sel (set_selections (partial_alter (fun _ => sel) m (selections s)) s)) as [x Hx]; [done|lia|cbn; lia|].
  rewrite Hx, set_selections_twice. eauto.
Qed.

Lemma strip_alter (f : mitem -> mitem) (i : nat) (l : list mitem) : (forall x, strip (f x) = strip x) -> strip <$> alter f i l = strip <$> l.
Proof. intros Hf. revert i. induction l as [|x l IH]; intros [|i]; cbn; f_equal; auto. Qed.

Lemma same_menu_refl M : same_menu M M.
Proof. by split_and!. Qed.

Lemma same_menu_trans M1 M2 M3 : same_menu M1 M2 -> same_menu M2 M3 -> same_menu M1 M3.
Proof. unfold same_menu. intros (? & ? & ? & ? & ? & ?) (? & ? & ? & ? & ? & ?). split_and!; congruence. Qed.

Lemma wf_frame ms ms' : wf ms ->
  (forall k M', ms' !! k = Some M' -> exists M, ms !! k = Some M /\ parentMenu M' = parentMenu M) -> wf ms'.
Proof. intros Hwf Hf m M p Hm Hp. destruct (Hf m M Hm) as (M0 & Hm0 & E). apply (Hwf m M0 p Hm0). congruence. Qed.

Lemma closes_wf l s s' : wf (menus s) -> closes l s s' -> wf (menus s').
Proof.
  intros Hwf [_ _ _ _ Hr Hc]. apply (wf_frame (menus s)); [done|]. intros k M' Hk.
  destruct (decide (k ∈ l)) as [Hin|Hin]; [|exists M'; by rewrite <- Hr].
  destruct (Hc k Hin) as (M & M'' & HM & HM' & _ & Hp & _). exists M. split; [done|]. congruence.
Qed.

(** Only menu [m] differs, in its highlight, search, value or submenus. *)
Record moves (m : nat) (l : list nat) (M M' : menu) (s s' : state) : Prop := {
  mv_stack : keyStack s' = drop (length l) (keyStack s);
  mv_z : zIndexCounter s' = (zIndexCounter s - 100 * Z.of_nat (length l))%Z;
  mv_fired : fired s' = fired s;
  mv_length : length (menus s') = length (menus s);
  mv_menu : menus s' !! m = Some M';
  mv_same : same_menu M M';
  mv_rest k : k ∉ m :: l -> menus s' !! k = menus s !! k;
  mv_closed k : k ∈ l -> exists C C', menus s !! k = Some C /\ menus s' !! k = Some C' /\
                  isDestroyed C' = true /\ parentMenu C' = parentMenu C /\ value C' = value C
}.

Lemma moves_wf m l M M' s s' : wf (menus s) -> menus s !! m = Some M -> moves m l M M' s s' -> wf (menus s').
Proof.
  intros Hwf HM [_ _ _ _ Hm Hs Hr Hc]. apply (wf_frame (menus s)); [done|]. intros k K Hk.
  destruct (decide (k ∈ m :: l)) as [Hin|Hin]; [|exists K; by rewrite <- Hr].
  apply elem_of_cons in Hin as [->|Hin].
  - exists M. split; [done|]. rewrite Hm in Hk. injection Hk as <-. apply Hs.
  - destruct (Hc k Hin) as (C & C' & HC & HC' & _ & Hp & _). exists C. split; [done|]. congruence.
Qed.

Lemma objectAt_Some {A} (l : list A) i x : objectAt l i = Some x -> l !! Z.to_nat i = Some x /\ (0 <= i)%Z.
Proof. unfold objectAt. destruct (Z.ltb_spec i 0); [done|]. by split. Qed.

Lemma objectAt_nat {A} (l : list A) (i : nat) : objectAt l (Z.of_nat i) = l !! i.
Proof. unfold objectAt. destruct (Z.ltb_spec (Z.of_nat i) 0); [lia|]. by rewrite Nat2Z.id. Qed.

Lemma tail_drop {A} k (l : list A) : tail (drop k l) = drop (S k) l.
Proof. revert l. induction k as [|k IH]; intros [|x l]; cbn; [done..|]. by rewrite IH. Qed.

Definition no_subs (M : menu) : Prop := forall i x, _menuItems M !! i = Some x -> subMenuView x = None.

Lemma moves_refl m M s : menus s !! m = Some M -> moves m [] M M s s.
Proof. intros HM. split; [done|cbn; lia|done|done|done|apply same_menu_refl|done|intros k Hk; by apply elem_of_nil in Hk]. Qed.

Lemma moves_upd_l m l f M M' s s' : menus s !! m = Some M -> m ∉ l -> same_menu M (f M) ->
  moves m l (f M) M' (upd m f s) s' -> moves m l M M' s s'.
Proof.
  intros HM Hml Hf [H1 H2 H3 H4 H5 H6 H7 H8]. rewrite upd_length in H4. split; try done.
  - by eapply same_menu_trans.
  - intros k Hk. rewrite H7 by done. rewrite upd_lookup. by destruct (decide (m = k)) as [->|]; [set_solver|].
  - intros k Hk. destruct (H8 k Hk) as (C & C' & HC & ?). exists C, C'. rewrite upd_lookup in HC.
    by destruct (decide (m = k)) as [->|].
Qed.

Lemma moves_upd_r m l f M M' s s' : m ∉ l -> same_menu M' (f M') -> moves m l M M' s s' -> moves m l M (f M') s (upd m f s').
Proof.
  intros Hml Hf [H1 H2 H3 H4 H5 H6 H7 H8]. split; try done.
  - by rewrite upd_length.
  - rewrite upd_lookup, decide_True by done. by rewrite H5.
  - by eapply same_menu_trans.
  - intros k Hk. rewrite upd_lookup. destruct (decide (m = k)) as [->|]; [set_solver|]. by apply H7.
  - intros k Hk. rewrite upd_lookup. destruct (decide (m = k)) as [->|]; [done|]. by apply H8.
Qed.

Lemma moves_sel m l M M' s s' x : moves m l M M' s s' -> moves m l M M' s (set_selections x s').
Proof. intros [H1 H2 H3 H4 H5 H6 H7 H8]. by split. Qed.

Lemma path_upd m f l s : wf (menus s) ->
  (forall M, _highlightIndex (f M) = _highlightIndex M /\ isShown (f M) = isShown M /\ isDestroyed (f M) = isDestroyed M /\
     subMenuView <$> _menuItems (f M) = subMenuView <$> _menuItems M) ->
  path (menus s) m (m :: l) -> path (menus (upd m f s)) m (m :: l).
Proof.
  intros Hwf Hf Hp. pose proof (path_fresh _ _ _ Hwf Hp) as Hml.
  assert (forall M i x, _menuItems (f M) !! i = Some x -> exists y, _menuItems M !! i = Some y /\ subMenuView y = subMenuView x) as Hit.
  { intros M i x Hx. destruct (Hf M) as (_ & _ & _ & E). apply (f_equal (.!! i)) in E. rewrite !list_lookup_fmap, Hx in E.
    destruct (_menuItems M !! i) as [y|]; [|done]. cbn in E. injection E as E. eauto. }
  inversion Hp as [? M HM Ho Hn|? M i x c C l0 HM Ho Hi Hx Hc Hn HC HpC Hp']; subst.
  - apply (path_last _ m (f M)); [by rewrite upd_lookup, decide_True, HM| |].
    + destruct (Hf M) as (_ & E1 & E2 & _). unfold open_menu. by rewrite E1, E2.
    + intros i x Hx. destruct (Hit M i x Hx) as (y & Hy & <-). by eapply Hn.
  - assert (m <> c) as Hmc by (intros <-; pose proof (Hwf m C m HC HpC); lia).
    destruct (Hf M) as (Eh & E1 & E2 & Es).
    assert (exists x', _menuItems (f M) !! i = Some x' /\ subMenuView x' = Some c) as (x' & Hx' & Hc').
    { apply (f_equal (.!! i)) in Es. rewrite !list_lookup_fmap, Hx in Es. destruct (_menuItems (f M) !! i) as [y|]; [|done].
      cbn in Es. exists y. split; [done|]. congruence. }
    eapply (path_sub _ m (f M) i x' c C); try done.
    + by rewrite upd_lookup, decide_True, HM.
    + unfold open_menu. by rewrite E1, E2.
    + by rewrite Eh.
    + intros j y Hy Hji. destruct (Hit M j y Hy) as (y' & Hy' & <-). by eapply Hn.
    + by rewrite upd_lookup, decide_False.
    + eapply path_ext; [|exact Hp']. intros k Hk. rewrite upd_lookup, decide_False; [done|]. by intros <-.
Qed.

Lemma upd_wf m f s : wf (menus s) -> (forall M, parentMenu (f M) = parentMenu M) -> wf (menus (upd m f s)).
Proof.
  intros Hwf Hf. apply (wf_frame (menus s)); [done|]. intros k M'. rewrite upd_lookup.
  destruct (decide (m = k)) as [->|]; [|eauto]. destruct (menus s !! k) as [M|]; [|done]. intros [= <-]. eauto.
Qed.

Section closing.
Context (cl : nat -> state -> option state) (n : nat).
Context (Hcl : forall c l s, wf (menus s) -> path (menus s) c l -> length l <= n ->
           exists s', cl c s = Some s' /\ closes l s s').

Lemma closeSubMenu_ok m l i x M s : wf (menus s) -> path (menus s) m (m :: l) -> length l <= n ->
  menus s !! m = Some M -> _menuItems M !! i = Some x -> l = [] \/ _highlightIndex M = Z.of_nat i ->
  exists s' M', closeSubMenu_with cl m i s = Some s' /\ moves m l M M' s s' /\ no_subs M' /\
    _highlightIndex M' = _highlightIndex M /\ _userHighlightIndex M' = _userHighlightIndex M /\ value M' = value M /\
    _openedAt M' = _openedAt M.
Proof.
  intros Hwf Hp Hl HM Hx Hi. unfold closeSubMenu_with. rewrite HM. cbn. rewrite Hx. cbn.
  pose proof (path_fresh _ _ _ Hwf Hp) as Hml.
  inversion Hp as [? M0 HM0 Ho Hn|? M0 i0 x0 c C l0 HM0 Ho Hi0 Hx0 Hc0 Hn HC HpC Hp']; subst;
    rewrite HM in HM0; injection HM0 as <-.
  - rewrite (Hn i x Hx). exists s, M. by split_and!; [|apply moves_refl|..].
  - destruct Hi as [->|Hi]; [by inversion Hp'|]. assert (i0 = i) as -> by lia. rewrite Hx in Hx0. injection Hx0 as <-.
    rewrite Hc0. destruct (Hcl c l s Hwf Hp' Hl) as (s1 & -> & [H1 H2 H3 H4 H5 H6]). cbn.
    set (f := fun M => set_menuItems (alter (set_sub None) i (_menuItems M)) M).
    exists (upd m f s1), (f M). split_and!; [done| | |done..].
    + split; try done.
      * by rewrite upd_length.
      * rewrite upd_lookup, decide_True by done. by rewrite H5, HM.
      * split_and!; try done. cbn. by apply strip_alter.
      * intros k Hk. rewrite upd_lookup, decide_False by (intros ->; set_solver). apply H5. set_solver.
      * intros k Hk. rewrite upd_lookup, decide_False by (intros ->; set_solver). by apply H6.
    + intros j y Hy. cbn in Hy. rewrite list_lookup_alter in Hy. destruct (decide (i = j)) as [->|Hij].
      * destruct (_menuItems M !! j); [|done]. cbn in Hy. by injection Hy as <-.
      * by apply (Hn j y Hy).
Qed.

(** Moving the highlight of an open menu closes what is open below it. *)
Lemma set_highlight_ok m l i M s : wf (menus s) -> path (menus s) m (m :: l) -> length l <= n ->
  menus s !! m = Some M -> _highlightIndex M <> i ->
  exists s' M', set_highlight_with cl m i s = Some s' /\ moves m l M M' s s' /\ no_subs M' /\
    _highlightIndex M' = i /\ _userHighlightIndex M' = _userHighlightIndex M /\ value M' = value M /\ _openedAt M' = _openedAt M.
Proof.
  intros Hwf Hp Hl HM Hi. unfold set_highlight_with. rewrite HM. cbn. destruct (Z.eqb_spec (_highlightIndex M) i); [done|].
  pose proof (path_fresh _ _ _ Hwf Hp) as Hml.
  assert (exists s1 M1, _highlightWillChange cl m s = Some s1 /\ moves m l M M1 s s1 /\ no_subs M1 /\
    _userHighlightIndex M1 = _userHighlightIndex M /\ value M1 = value M /\ _openedAt M1 = _openedAt M) as (s1 & M1 & -> & Hmv & Hns & Hu & Hv & Hop).
  { unfold _highlightWillChange. rewrite HM. cbn. destruct (objectAt (_menuItems M) (_highlightIndex M)) as [x|] eqn:Ex.
    - apply objectAt_Some in Ex as [Ex Hpos]. set (j := Z.to_nat (_highlightIndex M)) in *.
      set (f := fun M => set_menuItems (alter (select false) j (_menuItems M)) M).
      assert (same_menu M (f M)) as Hsame by (split_and!; try done; cbn; by apply strip_alter).
      destruct (closeSubMenu_ok m l j (select false x) (f M) (upd m f s)) as (s1 & M1 & Hc & Hmv & Hns & _ & Hu & Hv & Hop).
      + by apply upd_wf.
      + apply path_upd; [done| |done]. intros M0. split_and!; try done. cbn.
        apply list_eq. intros k. rewrite !list_lookup_fmap, list_lookup_alter.
        destruct (decide (j = k)) as [->|]; [|done]. by destruct (_menuItems M0 !! k).
      + done.
      + by rewrite upd_lookup, decide_True, HM.
      + cbn. rewrite list_lookup_alter, decide_True by done. by rewrite Ex.
      + right. cbn. unfold j. lia.
      + exists s1, M1. split; [exact Hc|]. split_and!; try done. by apply (moves_upd_l m l f).
    - exists s, M. inversion Hp as [? M0 HM0 Ho Hn|? M0 i0 x0 c C l0 HM0 Ho Hi0 Hx0]; subst; rewrite HM in HM0; injection HM0 as <-.
      + by split_and!; [|apply moves_refl|..].
      + rewrite Hi0, objectAt_nat in Ex. congruence. }
  cbn. unfold _highlightDidChange.
  assert (Hmv2 : moves m l M (set_index i M1) s (upd m (set_index i) s1)) by (apply moves_upd_r; [done|by split_and!|done]).
  set (s2 := upd m (set_index i) s1) in *. rewrite (mv_menu _ _ _ _ _ _ Hmv2). cbn [mbind option_bind set_index _highlightIndex _menuItems].
  assert (Hin : forall s3 sel, wf (menus s3) -> length (menus s3) = length (menus s) ->
    exists y, set_internalSelection (S m) m sel s3 = Some (set_selections y s3)).
  { intros s3 sel Hwf3 Hl3. apply set_internalSelection_ok; [done|lia|]. rewrite Hl3. by apply lookup_lt_Some in HM. }
  pose proof (moves_wf _ _ _ _ _ _ Hwf HM Hmv2) as Hwf2.
  destruct (objectAt (_menuItems M1) i) as [x|] eqn:Ex.
  - set (g := fun M => set_menuItems (alter (select true) (Z.to_nat i) (_menuItems M)) M).
    destruct (Hin (upd m g s2) (if isSelectable x then Some (item x) else None)) as [y Hy];
      [by apply upd_wf|rewrite upd_length; by apply Hmv2|].
    unfold upd_item. fold g. rewrite Hy. eexists _, (g (set_index i M1)). split; [done|]. split_and!; try done.
    + apply moves_sel, moves_upd_r; [done| |done]. split_and!; try done. cbn. by apply strip_alter.
    + intros k z Hz. cbn in Hz. rewrite list_lookup_alter in Hz. destruct (decide (Z.to_nat i = k)) as [->|]; [|by apply (Hns k)].
      destruct (_menuItems M1 !! k) as [w|] eqn:Ew; [|done]. cbn in Hz. injection Hz as <-. by apply (Hns k w).
  - destruct (Hin s2 None) as [y Hy]; [done|by apply Hmv2|]. rewrite Hy. eexists _, (set_index i M1). split; [done|].
    split_and!; try done. by apply moves_sel.
Qed.
End closing.

(** Closing a menu closes it and what is open below it. *)
Lemma close_loop_ok n : forall m l s, wf (menus s) -> path (menus s) m l -> length l <= n ->
  exists s', close_loop n m s = Some s' /\ closes l s s'.
Proof.
  induction n as [|n IH]; intros m l s Hwf Hp Hl.
  { destruct (path_head _ _ _ Hp) as [l' ->]. cbn in Hl. lia. }
  destruct (path_head _ _ _ Hp) as [l' ->]. cbn [length] in Hl. cbn [close_loop].
  pose proof (path_fresh _ _ _ Hwf Hp) as Hml.
  assert (exists M, menus s !! m = Some M /\ open_menu M) as (M & HM & [Hsh Hde]) by (inversion Hp; eauto).
  rewrite HM. cbn. rewrite Hde.
  assert (exists s1 M1, set_highlight_with (close_loop n) m (-1) s = Some s1 /\ moves m l' M M1 s s1 /\ value M1 = value M) as (s1 & M1 & -> & Hmv & Hval).
  { destruct (decide (_highlightIndex M = (-1)%Z)) as [E|E].
    - unfold set_highlight_with. rewrite HM. cbn. rewrite E. cbn. exists s, M. split; [done|].
      inversion Hp as [|? M0 i0 x0 c C l0 HM0 Ho Hi0]; subst; [split; [by apply moves_refl|done]|]. rewrite HM in HM0. injection HM0 as <-. lia.
    - destruct (set_highlight_ok (close_loop n) n IH m l' (-1) M s Hwf Hp ltac:(lia) HM E) as (s1 & M1 & H1 & H2 & _ & _ & _ & Hv & _). eauto. }
  cbn. unfold _clearKeySearch.
  assert (Hmv2 : moves m l' M (set_search "" M1) s (upd m (set_search "") s1)) by (apply moves_upd_r; [done|by split_and!|done]).
  destruct Hmv2 as [H1 H2 H3 H4 H5 H6 H7 H8]. unfold panel_close. rewrite H5. cbn [mbind option_bind].
  destruct H6 as (_ & Hpar & _ & E1 & E2 & _). rewrite E1, E2, Hsh, Hde. eexists. split; [done|]. split.
  - cbn. cbn in H1. rewrite H1. apply tail_drop.
  - cbn. cbn in H2. lia.
  - exact H3.
  - cbn -[upd] in *. by rewrite upd_length.
  - intros k Hk. cbn -[upd]. rewrite upd_lookup, decide_False by (intros ->; set_solver). apply H7. set_solver.
  - intros k [->|Hk]%elem_of_cons; cbn -[upd]; rewrite upd_lookup.
    + rewrite decide_True by done. rewrite H5. eexists _, _. split_and!; [exact HM|done|done|exact Hpar|exact Hval].
    + rewrite decide_False by (intros ->; set_solver). by apply H8.
Qed.

(** ** The open menus *)

(** The menus of [l] are open from the root down, and no others; they are the latest
    key responders, above [base], and have raised the z-index from [z0]. *)
Record chain (base : list nat) (z0 : Z) (root : nat) (l : list nat) (s : state) : Prop := {
  ch_wf : wf (menus s);
  ch_root M : menus s !! root = Some M -> parentMenu M = None;
  ch_path : path (menus s) root l;
  ch_stack : keyStack s = reverse l ++ base;
  ch_z : zIndexCounter s = (z0 + 100 * Z.of_nat (length l))%Z;
  ch_only k K : menus s !! k = Some K -> isDestroyed K = false -> k ∈ l
}.

(** All menus are closed. *)
Record closed (base : list nat) (z0 : Z) (s : state) : Prop := {
  cd_wf : wf (menus s);
  cd_none k K : menus s !! k = Some K -> isDestroyed K = true;
  cd_stack : keyStack s = base;
  cd_z : zIndexCounter s = z0
}.

Section chains.
Context (base : list nat) (z0 : Z) (root : nat).
Abbreviation chained := (chain base z0 root).

Lemma path_NoDup ms m l : wf ms -> path ms m l -> NoDup l.
Proof.
  intros Hwf Hp. revert m Hp. induction l as [|k l IH]; intros m Hp; [constructor|].
  destruct (path_head _ _ _ Hp) as [l' [= -> ->]]. apply NoDup_cons. split; [by eapply path_fresh|].
  inversion Hp; subst; [constructor|]. by eapply IH.
Qed.

Lemma chain_split pre m l s : chained (pre ++ m :: l) s ->
  path (menus s) m (m :: l) /\ m ∉ l /\ m ∉ pre /\ (forall k, k ∈ pre -> k ∉ m :: l) /\ length (m :: l) <= length (menus s) /\
  exists M, menus s !! m = Some M.
Proof.
  intros [Hwf _ Hp _ _ _]. pose proof (path_tail _ _ _ _ _ Hp) as Ht. pose proof (path_NoDup _ _ _ Hwf Hp) as Hnd.
  apply NoDup_app in Hnd as (_ & Hd & _). split_and!.
  - done.
  - by eapply path_fresh.
  - intros Hin. apply (Hd m Hin). by left.
  - done.
  - pose proof (path_length _ _ _ Hwf Ht). lia.
  - inversion Ht; eauto.
Qed.

Lemma drop_reverse {A} (l1 l2 b : list A) : drop (length l2) (reverse (l1 ++ l2) ++ b) = reverse l1 ++ b.
Proof. by rewrite reverse_app, <- app_assoc, drop_app_length' by by rewrite length_reverse. Qed.

(** After a move of menu [m] it is the last one that is open. *)
Lemma chain_moves pre m l M M' s s' : chained (pre ++ m :: l) s -> menus s !! m = Some M ->
  moves m l M M' s s' -> no_subs M' -> chained (pre ++ [m]) s'.
Proof.
  intros Hc HM Hmv Hns. destruct (chain_split _ _ _ _ Hc) as (Ht & Hml & Hmp & Hd & _). destruct Hc as [Hwf Hr Hp Hs Hz Hno].
  pose proof (moves_wf _ _ _ _ _ _ Hwf HM Hmv) as Hwf'. destruct Hmv as [H1 H2 H3 H4 H5 H6 H7 H8].
  destruct H6 as (_ & Hpar & _ & E1 & E2 & _).
  assert (open_menu M) as [Ho1 Ho2] by (inversion Ht; subst; congruence).
  split.
  - done.
  - intros R HR. destruct (decide (root = m)) as [->|Hne].
    + rewrite H5 in HR. injection HR as <-. rewrite Hpar. by apply Hr.
    + apply Hr. rewrite <- HR. symmetry. apply H7. destruct pre as [|a pre]; cbn in Hp.
      * by destruct (path_head _ _ _ Hp) as [? [= <- _]].
      * destruct (path_head _ _ _ Hp) as [? [= <- _]]. apply Hd. by left.
  - eapply path_graft; [exact Hp| | |].
    + intros k Hk. apply H7. by apply Hd.
    + intros M0 HM0. exists M'. split; [done|]. congruence.
    + apply (path_last _ m M'); [done| |done]. unfold open_menu. by rewrite E1, E2.
  - rewrite H1, Hs. replace (pre ++ m :: l) with ((pre ++ [m]) ++ l) by by rewrite <- app_assoc. apply drop_reverse.
  - rewrite H2, Hz, !length_app. cbn. lia.
  - intros k K HK Hok. destruct (decide (k ∈ m :: l)) as [Hin|Hin].
    + apply elem_of_cons in Hin as [->|Hin]; [set_solver|]. destruct (H8 k Hin) as (C & C' & _ & HC' & Hde & _).
      congruence.
    + rewrite H7 in HK by done. specialize (Hno k K HK Hok). set_solver.
Qed.

(** What does not touch the highlight and the submenus. *)
Lemma chain_upd l m f s : chained l s ->
  (forall M, _highlightIndex (f M) = _highlightIndex M /\ isShown (f M) = isShown M /\ isDestroyed (f M) = isDestroyed M /\
     subMenuView <$> _menuItems (f M) = subMenuView <$> _menuItems M) -> (forall M, parentMenu (f M) = parentMenu M) ->
  chained l (upd m f s).
Proof.
  intros [Hwf Hr Hp Hs Hz Hno] Hf Hpar. split; [by apply upd_wf| | |done|done|].
  - intros M. rewrite upd_lookup. destruct (decide (m = root)) as [->|]; [|apply Hr].
    destruct (menus s !! root) as [R|] eqn:E; [|done]. cbn. intros [= <-]. rewrite Hpar. by apply Hr.
  - destruct (decide (m ∈ l)) as [Hin|Hin].
    + apply list_elem_of_split in Hin as (pre & l' & ->). pose proof (path_tail _ _ _ _ _ Hp) as Ht.
      pose proof (path_NoDup _ _ _ Hwf Hp) as Hnd. apply NoDup_app in Hnd as (_ & Hd & _).
      eapply path_graft; [exact Hp| | |by apply path_upd].
      * intros k Hk. rewrite upd_lookup, decide_False; [done|]. intros <-. apply (Hd m Hk). by left.
      * intros M HM. exists (f M). by rewrite upd_lookup, decide_True, HM.
    + eapply path_ext; [|exact Hp]. intros k Hk. rewrite upd_lookup, decide_False; [done|]. by intros <-.
  - intros k K. rewrite upd_lookup. destruct (decide (m = k)) as [->|]; [|apply Hno].
    destruct (menus s !! k) as [K0|] eqn:E; [|done]. cbn. intros [= <-] Ho. apply (Hno k K0 E).
    destruct (Hf K0) as (_ & E1 & E2 & _). congruence.
Qed.

Lemma chain_sel l x s : chained l s -> chained l (set_selections x s).
Proof. intros [? ? ? ? ? ?]. by split. Qed.

(** Moving the highlight of an open menu. *)
Lemma chain_highlight pre m l i s M : chained (pre ++ m :: l) s -> menus s !! m = Some M ->
  exists s' M' l', set_highlightIndex m i s = Some s' /\ chained (pre ++ m :: l') s' /\ menus s' !! m = Some M' /\
    same_menu M M' /\ _highlightIndex M' = i /\ _userHighlightIndex M' = _userHighlightIndex M /\ value M' = value M /\
    _openedAt M' = _openedAt M /\ (_highlightIndex M <> i -> l' = [] /\ no_subs M') /\ fired s' = fired s /\
    length (menus s') = length (menus s).
Proof.
  intros Hc HM. destruct (chain_split _ _ _ _ Hc) as (Ht & Hml & Hmp & Hd & Hlen & _). unfold set_highlightIndex.
  destruct (decide (_highlightIndex M = i)) as [Hi|Hi].
  - unfold set_highlight_with. rewrite HM. cbn. rewrite Hi, Z.eqb_refl. exists s, M, l. by split_and!.
  - destruct (set_highlight_ok _ (length (menus s)) (close_loop_ok _) m l i M s) as (s' & M' & E & Hmv & Hns & H1 & H2 & H3 & H4);
      [apply Hc|done|cbn in Hlen; lia|done|done|].
    exists s', M', []. split; [exact E|]. split; [by eapply chain_moves|].
    destruct Hmv as [G1 G2 G3 G4 G5 G6 G7 G8]. by split_and!.
Qed.

Lemma chain_close pre m l s M : chained (pre ++ m :: l) s -> menus s !! m = Some M ->
  exists s', close m s = Some s' /\ closes (m :: l) s s'.
Proof.
  intros Hc HM. destruct (chain_split _ _ _ _ Hc) as (Ht & Hml & Hmp & Hd & Hlen & _).
  apply close_loop_ok; [apply Hc|done|done].
Qed.
Lemma path_parent ms pre : forall r m l M, path ms r (pre ++ m :: l) -> ms !! m = Some M ->
  (pre = [] /\ r = m) \/ exists pre' p, pre = pre' ++ [p] /\ parentMenu M = Some p.
Proof.
  induction pre as [|a pre IH]; intros r m l M Hp HM; cbn in Hp.
  - left. by destruct (path_head _ _ _ Hp) as [? [= <- _]].
  - right. inversion Hp as [? ? ? ? ? Hnil|? ? ? ? c C ? ? ? ? ? ? ? HC HpC Hp']; subst; [by destruct pre|].
    destruct (IH c m l M Hp' HM) as [[-> ->]|(pre' & p & -> & Hpar)].
    + exists [], a. split; [done|]. congruence.
    + exists (a :: pre'), p. by split.
Qed.

Lemma chain_parent pre m l s M : chained (pre ++ m :: l) s -> menus s !! m = Some M ->
  (parentMenu M = None /\ pre = [] /\ root = m) \/ exists pre' p, pre = pre' ++ [p] /\ parentMenu M = Some p.
Proof.
  intros Hc HM. destruct (path_parent _ _ _ _ _ _ (ch_path _ _ _ _ _ Hc) HM) as [[-> ->]|H]; [left|by right].
  split_and!; [by apply (ch_root _ _ _ _ _ Hc)|done|done].
Qed.

(** The highlighted item of a menu leads to the next one. *)
Lemma path_next ms m c l M : path ms m (m :: c :: l) -> ms !! m = Some M ->
  exists i x, _highlightIndex M = Z.of_nat i /\ _menuItems M !! i = Some x /\ subMenuView x = Some c.
Proof.
  intros Hp HM. inversion Hp as [|? M0 i x c0 C l0 HM0 Ho Hi Hx Hcx Hn HC HpC Hp']; subst.
  rewrite HM in HM0. injection HM0 as <-. destruct (path_head _ _ _ Hp') as [? [= <- _]]. eauto.
Qed.

Lemma path_last_subs ms m M : wf ms -> path ms m [m] -> ms !! m = Some M -> no_subs M.
Proof.
  intros Hwf Hp HM. inversion Hp as [? M0 HM0 Ho Hn|? ? ? ? c ? ? ? ? ? ? ? ? ? ? Hp']; subst; [|by destruct (path_head _ _ _ Hp')].
  rewrite HM in HM0. injection HM0 as <-. exact Hn.
Qed.

(** [closeCurrentlyOpenSubMenu] of the parent of an open submenu. *)
Lemma chain_closeSub pre p m l s : chained (pre ++ p :: m :: l) s ->
  exists s', closeCurrentlyOpenSubMenu p s = Some s' /\ chained (pre ++ [p]) s'.
Proof.
  intros Hc. destruct (chain_split _ _ _ _ Hc) as (Ht & Hml & Hmp & Hd & Hlen & P & HP).
  destruct (path_next _ _ _ _ _ Ht HP) as (i & x & Hi & Hx & Hs). unfold closeCurrentlyOpenSubMenu. rewrite HP. cbn [mbind option_bind].
  rewrite Hi. destruct (Z.leb_spec 0 (Z.of_nat i)); [|lia]. rewrite Nat2Z.id.
  destruct (closeSubMenu_ok _ (length (menus s)) (close_loop_ok _) p (m :: l) i x P s) as (s' & M' & E & Hmv & Hns & _);
    [apply Hc|done|cbn in *; lia|done|done|by right|].
  exists s'. split; [exact E|]. by eapply chain_moves.
Qed.

Lemma chain_clear l m k s : chained l s -> chained l (upd m (set_search k) s).
Proof. intros Hc. by apply chain_upd. Qed.

Lemma chain_selectNext pre m l inc s : chained (pre ++ m :: l) s ->
  exists s' l', _selectNext m inc s = Some s' /\ chained (pre ++ m :: l') s'.
Proof.
  intros Hc. destruct (chain_split _ _ _ _ Hc) as (_ & _ & _ & _ & _ & M & HM). unfold _selectNext. rewrite HM. cbn [mbind option_bind].
  destruct (next_enabled _ _ _ _) as [i|].
  - destruct (chain_highlight pre m l i s M Hc HM) as (s' & M' & l' & E & Hc' & _). rewrite E. cbn. eexists _, l'. split; [done|].
    by apply chain_clear.
  - eexists _, l. split; [done|]. by apply chain_clear.
Qed.

Lemma chain_user pre m l i s : chained (pre ++ m :: l) s ->
  exists s' l' M', set_userHighlightIndex m i s = Some s' /\ chained (pre ++ m :: l') s' /\ menus s' !! m = Some M' /\
    (forall M, menus s !! m = Some M -> same_menu M M').
Proof.
  intros Hc. destruct (chain_split _ _ _ _ Hc) as (_ & _ & _ & _ & _ & M & HM). unfold set_userHighlightIndex. rewrite HM. cbn [mbind option_bind].
  destruct (_userHighlightIndex M =? i)%Z.
  - exists s, l, M. split_and!; try done. intros M0 [= <-]. apply same_menu_refl.
  - assert (Hc1 : chained (pre ++ m :: l) (upd m (set_user i) s)) by (by apply chain_upd).
    destruct (chain_highlight pre m l i _ (set_user i M) Hc1) as (s' & M' & l' & E & Hc' & HM' & Hsame & _);
      [by rewrite upd_lookup, decide_True, HM|].
    exists s', l', M'. split_and!; try done. intros M0 [= <-].
    eapply same_menu_trans; [|exact Hsame]. by split_and!.
Qed.

(** *** Opening a submenu *)

Definition new_menu (its : list mdata) (m : nat) : menu := Menu its (_createMenuItems its None) (Some m) (-1) (-1) None None "" 0 false false.

Lemma createSubMenu_eq m its s :
  exists s', createSubMenu m its s = Some (s', length (menus s)) /\ menus s' = menus s ++ [new_menu its m] /\
    selections s' = selections s /\ keyStack s' = keyStack s /\ zIndexCounter s' = zIndexCounter s /\ fired s' = fired s.
Proof.
  unfold createSubMenu, create, _needToRecreateItems. cbn [menus set_menus].
  rewrite lookup_app_r, Nat.sub_diag by lia. cbn. eexists. split; [done|]. split_and!; try done. cbn.
  rewrite <- (Nat.add_0_r (length (menus s))), alter_app_r. done.
Qed.

Lemma new_no_subs its m : no_subs (new_menu its m).
Proof.
  intros i x Hx. cbn in Hx. unfold _createMenuItems in Hx. rewrite list_lookup_fmap in Hx.
  destruct (its !! i); [|done]. cbn in Hx. by injection Hx as <-.
Qed.

Lemma popup_submenu now c s C p : menus s !! c = Some C -> parentMenu C = Some p -> isShown C = false ->
  popup now c s = Some (set_stack (c :: keyStack s) (zIndexCounter s + 100) (upd c (set_shown true (isDestroyed C)) s)).
Proof. intros HC Hp Hs. unfold popup, panel_popup. rewrite HC. cbn. rewrite Hp, HC. cbn. by rewrite Hs. Qed.

Lemma popup_shown now c s C p : menus s !! c = Some C -> parentMenu C = Some p -> isShown C = true -> popup now c s = Some s.
Proof. intros HC Hp Hs. unfold popup, panel_popup. rewrite HC. cbn. rewrite Hp, HC. cbn. by rewrite Hs. Qed.

(** The state in which the submenu of item [i] of [m] has been created and opened. *)
Definition with_submenu (m i : nat) (its : list mdata) (s s' : state) : Prop :=
  let c := length (menus s) in
  menus s' = alter (fun M => set_menuItems (alter (set_sub (Some c)) i (_menuItems M)) M) m (menus s) ++ [set_shown true false (new_menu its m)] /\
  selections s' = selections s /\ keyStack s' = c :: keyStack s /\ zIndexCounter s' = (zIndexCounter s + 100)%Z /\ fired s' = fired s.

Lemma open_submenu_eq now m i its s : m < length (menus s) ->
  exists s1 s2, createSubMenu m its s = Some (s1, length (menus s)) /\
    popup now (length (menus s)) (upd_item m i (set_sub (Some (length (menus s)))) s1) = Some s2 /\ with_submenu m i its s s2.
Proof.
  intros Hm. destruct (createSubMenu_eq m its s) as (s1 & E & Hms & Hsel & Hk & Hz & Hf).
  set (c := length (menus s)) in *. set (f := fun M => set_menuItems (alter (set_sub (Some c)) i (_menuItems M)) M).
  assert (menus (upd m f s1) = alter f m (menus s) ++ [new_menu its m]) as Hms1 by (cbn; by rewrite Hms, alter_app_l).
  assert (menus (upd m f s1) !! c = Some (new_menu its m)) as Hc.
  { rewrite Hms1, lookup_app_r; rewrite length_alter; [|done]. unfold c. by rewrite Nat.sub_diag. }
  eexists _, _. split; [exact E|]. split; [by apply (popup_submenu now c _ (new_menu its m) m)|].
  split; [|cbn; rewrite Hsel, Hk, Hz, Hf; by split_and!]. cbn [menus set_stack].
  change (upd_item m i (set_sub (Some c)) s1) with (upd m f s1). unfold upd at 1. cbn [menus set_menus]. rewrite Hms1.
  transitivity (alter f m (menus s) ++ [set_shown true false (new_menu its m)]); [|done]. fold c.
  assert (length (alter f m (menus s)) = c) as Hlen by apply length_alter.
  replace c with (length (alter f m (menus s)) + 0) by (rewrite Hlen; lia). by rewrite alter_app_r.
Qed.

Lemma chain_open pre m i x its M s s' : chained (pre ++ [m]) s -> menus s !! m = Some M -> _highlightIndex M = Z.of_nat i ->
  _menuItems M !! i = Some x -> with_submenu m i its s s' -> chained (pre ++ [m; length (menus s)]) s'.
Proof.
  intros Hc HM Hi Hx (Hms & _ & Hk & Hz & _). destruct (chain_split _ _ _ _ Hc) as (Ht & _ & Hmp & Hd & _).
  destruct Hc as [Hwf Hr Hp Hs Hz0 Hno]. pose proof (path_last_subs _ _ _ Hwf Ht HM) as Hns.
  set (c := length (menus s)) in *. set (f := fun M => set_menuItems (alter (set_sub (Some c)) i (_menuItems M)) M) in *.
  assert (m < c) as Hmc by by apply lookup_lt_Some in HM.
  assert (menus s' !! c = Some (set_shown true false (new_menu its m))) as HC.
  { rewrite Hms, lookup_app_r; rewrite length_alter; [|done]. unfold c. by rewrite Nat.sub_diag. }
  assert (forall k, k < c -> menus s' !! k = (if decide (m = k) then f <$> menus s !! k else menus s !! k)) as Hold.
  { intros k Hkc. rewrite Hms, lookup_app_l by by rewrite length_alter. rewrite list_lookup_alter. by destruct (decide (m = k)) as [->|]. }
  assert (forall k K, menus s' !! k = Some K -> k = c \/ k < c) as Hbound.
  { intros k K HK. apply lookup_lt_Some in HK. rewrite Hms, length_app, length_alter in HK. cbn in HK. unfold c. lia. }
  assert (open_menu M) as Hom by (inversion Ht; subst; congruence).
  split.
  - intros k K p HK HpK. destruct (Hbound k K HK) as [->|Hkc].
    + rewrite HC in HK. injection HK as <-. cbn in HpK. injection HpK as <-. done.
    + rewrite Hold in HK by done. destruct (decide (m = k)) as [->|]; [rewrite HM in HK; injection HK as <-|]; by eapply Hwf.
  - intros R HR. destruct (Hbound _ R HR) as [->|Hrc].
    + destruct pre as [|a pre]; destruct (path_head _ _ _ Hp) as [? [= E _]]; [lia|]. rewrite E in *.
      inversion Hp as [? A HA|? A ? ? ? ? ? HA]; subst; apply lookup_lt_Some in HA; unfold c in HA; lia.
    + rewrite Hold in HR by done. destruct (decide (m = root)) as [->|]; [rewrite HM in HR; injection HR as <-; exact (Hr M HM)|by apply Hr].
  - replace (pre ++ [m; c]) with (pre ++ m :: [c]) by done. eapply path_graft; [exact Hp| | |].
    + intros k Hin. assert (k < c) as Hkc.
      { pose proof (path_NoDup _ _ _ Hwf Hp) as Hnd. apply list_elem_of_split in Hin as (l1 & l2 & ->).
        rewrite <- app_assoc in Hp. cbn in Hp. pose proof (path_tail _ _ _ _ _ Hp) as Ht'.
        inversion Ht' as [? A HA|? A ? ? ? ? ? HA]; subst; by apply lookup_lt_Some in HA. }
      rewrite Hold by done. rewrite decide_False; [done|]. intros ->. done.
    + intros M0 HM0. rewrite HM in HM0. injection HM0 as <-. exists (f M). rewrite Hold, decide_True, HM by done. done.
    + eapply (path_sub _ m (f M) i (set_sub (Some c) x) c); [by rewrite Hold, decide_True, HM|done|done| |done| |exact HC|done|].
      * cbn. by rewrite list_lookup_alter, decide_True, Hx.
      * intros j y Hy Hji. cbn in Hy. rewrite list_lookup_alter, decide_False in Hy by done. by eapply Hns.
      * apply (path_last _ c (set_shown true false (new_menu its m))); [done|done|]. apply new_no_subs.
  - rewrite Hk, Hs. rewrite !reverse_app. done.
  - rewrite Hz, Hz0, !length_app. cbn. lia.
  - intros k K HK HoK. destruct (Hbound k K HK) as [->|Hkc]; [set_solver|]. rewrite Hold in HK by done.
    assert (k ∈ pre ++ [m]) as Hin; [|set_solver].
    destruct (decide (m = k)) as [->|]; [set_solver|]. by apply (Hno k K).
Qed.

Lemma sub_next ms m l M i x c : path ms m (m :: l) -> ms !! m = Some M -> _menuItems M !! i = Some x -> subMenuView x = Some c ->
  exists l1, l = c :: l1.
Proof.
  intros Hp HM Hx Hc. inversion Hp as [? M0 HM0 Ho Hn|? M0 i0 x0 c0 C l0 HM0 Ho Hi0 Hx0 Hc0 Hn HC HpC Hp']; subst;
    rewrite HM in HM0; injection HM0 as <-; [by rewrite (Hn i x Hx) in Hc|].
  destruct (decide (i = i0)) as [->|Hne]; [|by rewrite (Hn i x Hx Hne) in Hc].
  assert (c0 = c) as -> by congruence. destruct (path_head _ _ _ Hp') as [? ->]. eauto.
Qed.

Lemma chain_tryOpen now pre m l sel s : chained (pre ++ m :: l) s ->
  exists s' l', _tryOpenSubmenu now m sel s = Some s' /\ chained (pre ++ m :: l') s'.
Proof.
  intros Hc. destruct (chain_split _ _ _ _ Hc) as (Ht & _ & _ & _ & _ & M & HM). unfold _tryOpenSubmenu. rewrite HM. cbn [mbind option_bind].
  destruct (objectAt (_menuItems M) (_highlightIndex M)) as [x|] eqn:Ex; [|by exists s, l].
  apply objectAt_Some in Ex as [Ex Hpos]. set (i := Z.to_nat (_highlightIndex M)) in *.
  assert (_highlightIndex M = Z.of_nat i) as Hi by (unfold i; lia).
  destruct (subMenuItems x) as [[|d its]|]; [by exists s, l| |by exists s, l]. destruct (isEnabled x); [|by exists s, l].
  set (s0 := _clearKeySearch m s). assert (Hc0 : chained (pre ++ m :: l) s0) by (by apply chain_clear).
  assert (menus s0 !! m = Some (set_search "" M)) as HM0 by (unfold s0, _clearKeySearch; by rewrite upd_lookup, decide_True, HM).
  assert (exists s2 c l2, (r ← match subMenuView x with
      | None => r ← createSubMenu m (d :: its) s0; Some (upd_item m i (set_sub (Some r.2)) r.1, r.2)
      | Some c => s1 ← set_userHighlightIndex c (-1) s0; Some (s1, c)
      end; s2 ← popup now r.2 r.1; if sel then _selectNext r.2 1 s2 else Some s2) =
      (if sel then _selectNext c 1 s2 else Some s2) /\ chained (pre ++ m :: c :: l2) s2) as (s2 & c & l2 & -> & Hc2).
  { destruct (subMenuView x) as [c|] eqn:Ec.
    - destruct (sub_next _ _ _ _ _ _ _ Ht HM Ex Ec) as [l1 ->].
      replace (pre ++ m :: c :: l1) with ((pre ++ [m]) ++ c :: l1) in Hc0 by by rewrite <- app_assoc.
      destruct (chain_user _ c l1 (-1) s0 Hc0) as (s1 & l1' & C' & E1 & Hc1 & HC' & Hsame). rewrite E1. cbn [mbind option_bind fst snd].
      destruct (chain_split _ _ _ _ Hc1) as (Ht1 & _ & _ & _ & _ & _).
      assert (isShown C' = true) as Hsh by (inversion Ht1 as [? ? ? [? ?]|? ? ? ? ? ? ? ? [? ?]]; subst; congruence).
      assert (parentMenu C' = Some m) as Hpar.
      { destruct (chain_parent _ _ _ _ _ Hc1 HC') as [(_ & Hnil & _)|(pre' & p & Heq & Hp)]; [by destruct pre|].
        apply app_inj_tail in Heq as [_ ->]. done. }
      rewrite (popup_shown now c s1 C' m HC' Hpar Hsh). cbn [mbind option_bind].
      exists s1, c, l1'. split; [done|]. by rewrite <- app_assoc in Hc1.
    - assert (l = []) as ->.
      { inversion Ht as [? M0 HM1 Ho Hn|? M0 i0 x0 c0 C l0 HM1 Ho Hi0 Hx0 Hc0' Hn HC HpC Hp']; subst; [done|].
        rewrite HM in HM1; injection HM1 as <-. assert (i0 = i) as -> by lia. congruence. }
      assert (m < length (menus s0)) as Hlt by by apply lookup_lt_Some in HM0.
      destruct (open_submenu_eq now m i (d :: its) s0 Hlt) as (s1 & s2 & E1 & E2 & Hw).
      rewrite E1. cbn [mbind option_bind fst snd]. rewrite E2. cbn [mbind option_bind].
      exists s2, (length (menus s0)), []. split; [done|].
      by apply (chain_open pre m i x (d :: its) (set_search "" M) s0 s2). }
  destruct sel; [|by exists s2, (c :: l2)].
  replace (pre ++ m :: c :: l2) with ((pre ++ [m]) ++ c :: l2) in Hc2 by by rewrite <- app_assoc.
  destruct (chain_selectNext _ c l2 1 s2 Hc2) as (s3 & l3 & -> & Hc3). exists s3, (c :: l3). split; [done|].
  by rewrite <- app_assoc in Hc3.
Qed.
End chains.

(** *** Making the selection *)

Section selection.
Context (base : list nat) (z0 : Z) (root : nat).
Abbreviation chained := (chain base z0 root).

Lemma closes_closed l s s' : chained (root :: l) s -> closes (root :: l) s s' -> closed base z0 s'.
Proof.
  intros Hc Hcl. destruct Hc as [Hwf Hr Hp Hs Hz Hno]. pose proof (closes_wf _ _ _ Hwf Hcl) as Hwf'.
  destruct Hcl as [H1 H2 H3 H4 H5 H6]. split; [done| | |].
  - intros k K HK. destruct (decide (k ∈ root :: l)) as [Hin|Hin].
    + destruct (H6 k Hin) as (M & M' & _ & HM' & Hd & _). congruence.
    + rewrite H5 in HK by done. destruct (isDestroyed K) eqn:E; [done|]. by apply (Hno k K) in HK.
  - rewrite H1, Hs. apply (drop_reverse [] (root :: l)).
  - rewrite H2, Hz. lia.
Qed.

Lemma chain_set_value l v R s : chained (root :: l) s -> menus s !! root = Some R ->
  exists s' l' R', set_value root v s = Some s' /\ chained (root :: l') s' /\ menus s' !! root = Some R' /\ value R' = v /\
    action R' = action R /\ fired s' = fired s /\ length (menus s') = length (menus s).
Proof.
  intros Hc HR. unfold set_value. rewrite HR. cbn [mbind option_bind]. case_bool_decide as Ev; [by exists s, l, R|].
  unfold _valueDidChange. set (s0 := upd root (set_val v) s).
  assert (menus s0 !! root = Some (set_val v R)) as HR0 by (unfold s0; by rewrite upd_lookup, decide_True, HR).
  assert (chained (root :: l) s0) as Hc0 by (by apply chain_upd).
  assert (length (menus s0) = length (menus s)) as Hlen by apply upd_length.
  rewrite HR0. cbn [mbind option_bind value set_val items].
  assert (exists s' l' R', Some s0 = Some s' /\ chained (root :: l') s' /\ menus s' !! root = Some R' /\ value R' = v /\
    action R' = action R /\ fired s' = fired s /\ length (menus s') = length (menus s)) as Hsame by (by exists s0, l, (set_val v R)).
  destruct v as [v|]; [|done]. destruct (0 <=? _)%Z; [|done].
  destruct (chain_highlight base z0 root [] root l (_findIndex (fun d => bool_decide (itemValue d = Some v)) (items R)) s0 (set_val (Some v) R) Hc0 HR0)
    as (s' & M' & l' & E & Hc' & HM' & Hsm & _ & _ & Hv & _ & _ & Hf & Hl').
  exists s', l', M'. split; [exact E|]. split_and!; [exact Hc'|done|done|by apply Hsm|done|congruence].
Qed.

(** What is chosen, from the root's [_internalSelection]. *)
Definition chosen (s : state) (R : menu) : option nat * list (nat * option nat) :=
  match selections s !! root with
  | Some d => (itemValue d, match (match itemAction d with Some a => Some a | None => action R end) with
                            | Some a => [(a, itemValue d)]
                            | None => []
                            end)
  | None => (value R, [])
  end.

Lemma chain_make_root l R s : chained (root :: l) s -> menus s !! root = Some R ->
  exists s' R', make_root_selection root s = Some s' /\ closed base z0 s' /\ length (menus s') = length (menus s) /\
    menus s' !! root = Some R' /\ value R' = (chosen s R).1 /\ fired s' = fired s ++ (chosen s R).2.
Proof.
  intros Hc HR. unfold make_root_selection, chosen. rewrite HR. cbn [mbind option_bind].
  assert (forall s1 l1 R1, chained (root :: l1) s1 -> menus s1 !! root = Some R1 -> length (menus s1) = length (menus s) ->
    exists s' R', close root s1 = Some s' /\ closed base z0 s' /\ length (menus s') = length (menus s) /\
      menus s' !! root = Some R' /\ value R' = value R1 /\ fired s' = fired s1) as Hclose.
  { intros s1 l1 R1 Hc1 HR1 Hl1. destruct (chain_close base z0 root [] root l1 s1 R1 Hc1 HR1) as (s' & E & Hcl).
    pose proof (closes_closed _ _ _ Hc1 Hcl). destruct Hcl as [H1 H2 H3 H4 H5 H6].
    destruct (H6 root ltac:(by left)) as (M & M' & HM & HM' & _ & _ & Hv). exists s', M'.
    assert (M = R1) as -> by congruence. by split_and!; [..|congruence| | |]. }
  destruct (selections s !! root) as [d|] eqn:Ed.
  - destruct (chain_set_value l (itemValue d) R s Hc HR) as (s1 & l1 & R1 & -> & Hc1 & HR1 & Hv1 & Ha1 & Hf1 & Hl1).
    cbn [mbind option_bind]. destruct (Hclose s1 l1 R1 Hc1 HR1 Hl1) as (s2 & R2 & -> & Hcd & Hl2 & HR2 & Hv2 & Hf2).
    cbn [mbind option_bind fst snd]. destruct (match itemAction d with Some a => Some a | None => action R end) as [a|].
    + exists (add_fired (a, itemValue d) s2), R2. split_and!; [done|by destruct Hcd; split|done|done|congruence|].
      cbn. by rewrite Hf2, Hf1.
    + exists s2, R2. split_and!; [done|done|done|done|congruence|]. by rewrite Hf2, Hf1, app_nil_r.
  - destruct (Hclose s l R Hc HR eq_refl) as (s2 & R2 & E & Hcd & Hl2 & HR2 & Hv2 & Hf2).
    exists s2, R2. split_and!; [done..|]. by rewrite app_nil_r.
Qed.

Lemma chain_root_head l s : chained l s -> exists l', l = root :: l'.
Proof. intros Hc. eapply path_head, Hc. Qed.

Lemma makeSelection_root n : forall pre m l s, chained (pre ++ m :: l) s -> m < n ->
  exists s', makeSelection_loop n m s = Some s' /\ make_root_selection root s = Some s'.
Proof.
  induction n as [|n IH]; intros pre m l s Hc Hn; [lia|].
  destruct (chain_split _ _ _ _ _ _ _ Hc) as (_ & _ & _ & _ & _ & M & HM). cbn [makeSelection_loop]. rewrite HM. cbn [mbind option_bind].
  destruct (chain_root_head _ _ Hc) as [l0 El]. assert (Hc0 := Hc). rewrite El in Hc0.
  destruct (chain_split base z0 root [] root l0 s Hc0) as (_ & _ & _ & _ & _ & R & HR).
  destruct (chain_make_root l0 R s Hc0 HR) as (s' & R' & Emk & Hcd & Hlen & _).
  destruct (chain_parent _ _ _ _ _ _ _ _ Hc HM) as [(Hp & -> & Hr)|(pre' & p & -> & Hp)]; rewrite Hp.
  - subst m. rewrite Emk. eauto.
  - pose proof (ch_wf _ _ _ _ _ Hc m M p HM Hp) as Hlt. rewrite <- app_assoc in Hc. cbn in Hc.
    destruct (IH pre' p (m :: l) s Hc ltac:(lia)) as (s'' & -> & E2). rewrite Emk in E2. injection E2 as <-.
    cbn [mbind option_bind]. exists s'. split; [|done].
    assert (m < length (menus s')) as Hm by (rewrite Hlen; by apply lookup_lt_Some in HM).
    pose proof Hm as Hm'. apply lookup_lt_is_Some in Hm' as [M' HM']. unfold close.
    destruct (length (menus s')) as [|k]; [lia|]. cbn [close_loop]. rewrite HM'. cbn [mbind option_bind].
    by rewrite (cd_none _ _ _ Hcd m M' HM').
Qed.
End selection.

Lemma chain_mouseEntered base z0 root now pre m l0 i M s : chain base z0 root (pre ++ m :: l0) s ->
  menus s !! m = Some M -> is_Some (objectAt (_menuItems M) i) ->
  exists s' l', mouseEntered now m i s = Some s' /\ chain base z0 root l' s'.
Proof.
  intros Hc HM Hi. unfold mouseEntered.
  destruct (chain_user _ _ _ pre m l0 i s Hc) as (s1 & l1 & M1 & -> & Hc1 & HM1 & Hsame). cbn [mbind option_bind]. rewrite HM1. cbn [mbind option_bind].
  destruct Hi as [x0 Hx0]. apply objectAt_Some in Hx0 as [Hx0 Hpos].
  assert (is_Some (_menuItems M1 !! Z.to_nat i)) as [x Hx].
  { destruct (Hsame M HM) as (_ & _ & _ & _ & _ & Hst). apply (f_equal (.!! Z.to_nat i)) in Hst. rewrite !list_lookup_fmap, Hx0 in Hst.
    destruct (_menuItems M1 !! Z.to_nat i); [eauto|done]. }
  unfold objectAt. destruct (Z.ltb_spec i 0); [lia|]. rewrite Hx. cbn [mbind option_bind].
  destruct (subMenuView x) as [c|] eqn:Ec.
  - destruct (chain_split _ _ _ _ _ _ _ Hc1) as (Ht1 & _). destruct (sub_next _ _ _ _ _ _ _ Ht1 HM1 Hx Ec) as [l2 ->].
    replace (pre ++ m :: c :: l2) with ((pre ++ [m]) ++ c :: l2) in Hc1 by by rewrite <- app_assoc.
    destruct (chain_user _ _ _ (pre ++ [m]) c l2 (-1) s1 Hc1) as (s2 & l3 & C2 & -> & Hc2 & _). cbn [mbind option_bind].
    rewrite <- app_assoc in Hc2. cbn in Hc2. destruct (chain_split _ _ _ _ _ _ _ Hc2) as (_ & _ & _ & _ & _ & M2 & HM2).
    destruct (set_internalSelection_ok (S m) m (Some (item x)) s2) as [y ->]; [apply Hc2|lia|by apply lookup_lt_Some in HM2|].
    exists (set_selections y s2), (pre ++ m :: c :: l3). split; [done|]. by apply chain_sel.
  - destruct (chain_tryOpen base z0 root now pre m l1 false s1 Hc1) as (s2 & l2 & -> & Hc2). eauto.
Qed.

(** ** Properties *)

(** What the user does to a menu. *)
Inductive menu_event := MouseEnter (index : Z) | Click (index : Z) | Up | Down | Right | Left | Escape | Enter | Typed (key : string).

Definition deliver (now : Z) (ev : menu_event) (m : nat) (s : state) : option state :=
  match ev with
  | MouseEnter i => mouseEntered now m i s
  | Click i => mouseClicked now m i s
  | Up => moveUp m s
  | Down => moveDown m s
  | Right => moveRight now m s
  | Left => moveLeft m s
  | Escape => cancel m s
  | Enter => insertNewline m s
  | Typed key => _doKeySearch m key s
  end.

Definition event_ok (ev : menu_event) (m : nat) (s : state) : Prop :=
  match ev with
  | MouseEnter i => exists M, menus s !! m = Some M /\ is_Some (objectAt (_menuItems M) i)
  | _ => True
  end.

(** C2. Whatever the user does with the mouse or the keyboard to one of the open menus,
    the handler finishes, and afterwards either all menus are closed, the key
    responders and the z-index are what they were before the root menu was opened; or
    the menus that are not closed still form one path from the root, each the submenu
    of the item that is highlighted in its parent, no menu has another submenu, and
    they are the latest key responders in the order of the path. *)
Theorem open_menus_form_path base z0 root now ev l m s :
  chain base z0 root l s -> m ∈ l -> event_ok ev m s ->
  exists s', deliver now ev m s = Some s' /\ (closed base z0 s' \/ exists l', chain base z0 root l' s').
Proof.
  intros Hc Hin Hev. apply list_elem_of_split in Hin as (pre & l0 & ->).
  destruct (chain_split _ _ _ _ _ _ _ Hc) as (Ht & _ & _ & _ & _ & M & HM).
  assert (forall s1 l1, chain base z0 root (pre ++ m :: l1) s1 -> exists s', makeSelection m s1 = Some s' /\ closed base z0 s') as Hmk.
  { intros s1 l1 Hc1. destruct (makeSelection_root base z0 root (S m) pre m l1 s1 Hc1 ltac:(lia)) as (s' & E & Emk).
    destruct (chain_root_head _ _ _ _ _ Hc1) as [t Et]. rewrite Et in Hc1.
    destruct (chain_split base z0 root [] root t s1 Hc1) as (_ & _ & _ & _ & _ & R & HR).
    destruct (chain_make_root base z0 root t R s1 Hc1 HR) as (s'' & R' & Emk' & Hcd & _). rewrite Emk in Emk'. injection Emk' as <-. eauto. }
  assert (forall s1, menus s1 !! m = Some M -> s1 = s -> match parentMenu M with Some p => exists s', closeCurrentlyOpenSubMenu p s1 = Some s' /\ exists l', chain base z0 root l' s' | None => pre = [] /\ root = m end) as Hpar.
  { intros ? _ ->. destruct (chain_parent _ _ _ _ _ _ _ _ Hc HM) as [(-> & Hp & Hr)|(pre' & p & -> & ->)]; [done|].
    rewrite <- app_assoc in Hc. cbn in Hc. destruct (chain_closeSub _ _ _ _ _ _ _ _ Hc) as (s' & E & Hc'). eauto. }
  specialize (Hpar s HM eq_refl).
  destruct ev as [i|i| | | | | | |key]; cbn [deliver].
  - destruct Hev as (M0 & HM0 & Hi). destruct (chain_mouseEntered base z0 root now pre m l0 i M0 s Hc HM0 Hi) as (s' & l' & E & Hc'). eauto.
  - unfold mouseClicked. rewrite HM. cbn [mbind option_bind]. destruct (match parentMenu M with None => _ | Some _ => _ end); [eauto|].
    destruct (chain_highlight _ _ _ pre m l0 i s M Hc HM) as (s1 & M1 & l1 & -> & Hc1 & HM1 & _). cbn [mbind option_bind]. rewrite HM1. cbn [mbind option_bind].
    destruct (0 <=? _)%Z; [|eauto]. destruct (Hmk s1 l1 Hc1) as (s2 & -> & Hcd). eauto.
  - destruct (chain_selectNext _ _ _ pre m l0 (-1) s Hc) as (s' & l' & E & Hc'). eauto.
  - destruct (chain_selectNext _ _ _ pre m l0 1 s Hc) as (s' & l' & E & Hc'). eauto.
  - destruct (chain_tryOpen base z0 root now pre m l0 true s Hc) as (s' & l' & E & Hc'). eauto.
  - unfold moveLeft. rewrite HM. cbn [mbind option_bind]. destruct (parentMenu M) as [p|]; [|eauto].
    destruct Hpar as (s' & -> & Hc'). eauto.
  - unfold cancel. rewrite HM. cbn [mbind option_bind]. destruct (parentMenu M) as [p|]; [destruct Hpar as (s' & -> & Hc'); eauto|].
    destruct Hpar as [-> <-]. destruct (chain_close _ _ _ [] root l0 s M Hc HM) as (s' & -> & Hcl).
    exists s'. split; [done|]. left. by eapply closes_closed.
  - destruct (Hmk s l0 Hc) as (s' & E & Hcd). eauto.
  - unfold _doKeySearch. rewrite HM. cbn [mbind option_bind].
    destruct (0 <=? _)%Z; [|eexists; split; [done|]; right; eexists; by apply chain_clear].
    assert (Hc1 := chain_clear base z0 root _ m (_searchKey M +:+ key) s Hc).
    destruct (chain_highlight base z0 root pre m l0 (_findByName (_searchKey M +:+ key) (items M)) (upd m (set_search (_searchKey M +:+ key)) s)
      (set_search (_searchKey M +:+ key) M)) as (s' & M' & l' & E & Hc' & _); [exact Hc1|by rewrite upd_lookup, decide_True, HM|].
    eauto.
Qed.

(** C29. Making the selection from any open menu, by Enter or by a click, closes all menus,
    takes them off the stack of key responders and gives back their z-indices; the
    value of the root menu becomes that of the selected item, if one is selected, and
    stays as it is otherwise; and the item's action, or else the menu's, is fired once
    with that value, after everything is closed. *)
Theorem makeSelection_correct base z0 root l m R s :
  chain base z0 root l s -> m ∈ l -> menus s !! root = Some R ->
  exists s' R', makeSelection m s = Some s' /\ closed base z0 s' /\ menus s' !! root = Some R' /\
    match selections s !! root with
    | Some d =>
        value R' = itemValue d /\
        fired s' = fired s ++ match (match itemAction d with Some a => Some a | None => action R end) with
                             | Some a => [(a, itemValue d)]
                             | None => []
                             end
    | None => value R' = value R /\ fired s' = fired s
    end.
Proof.
  intros Hc Hin HR. apply list_elem_of_split in Hin as (pre & l0 & ->).
  destruct (makeSelection_root base z0 root (S m) pre m l0 s Hc ltac:(lia)) as (s' & E & Emk).
  destruct (chain_root_head _ _ _ _ _ Hc) as [t Et]. rewrite Et in Hc.
  destruct (chain_make_root base z0 root t R s Hc HR) as (s'' & R' & Emk' & Hcd & _ & HR' & Hv & Hf). rewrite Emk in Emk'. injection Emk' as <-.
  exists s', R'. split_and!; [done..|]. unfold chosen in *. destruct (selections s !! root); [done|].
  by rewrite app_nil_r in Hf.
Qed.

(** ** Witnesses *)

Definition ex_leaf (t : string) (v : nat) : mdata := MData t None false (Some v) None None.
Definition ex_items : list mdata :=
  [ex_leaf "One" 1; MData "More" None false None None (Some [ex_leaf "Two" 2; MData "Three" None false (Some 3) (Some 7) None]);
   MData "Off" (Some false) false (Some 4) None None].
Definition no_menus : state := State [] ∅ [42] 100 [].

(** The root menu with the value 1, opened, and then the submenu of its second item,
    opened with the right arrow after a step down. *)
Definition ex_open : option state := r ← create ex_items None (Some 1) (Some 9) no_menus; popup 0 r.2 r.1.
Definition ex_sub : option state := s ← ex_open; s1 ← moveDown 0 s; moveRight 1000 0 s1.
Definition ex_state : state := Eval vm_compute in default no_menus ex_sub.

Lemma ex_state_eq : ex_sub = Some ex_state.
Proof. vm_compute. reflexivity. Qed.

Lemma ex_chain : chain [42] 100 0 [0; 1] ex_state.
Proof.
  split.
  - intros [|[|[|m]]] M p; cbn; intros [= <-]; cbn; intros [= <-]; lia.
  - cbn. by intros M [= <-].
  - eapply (path_sub _ 0 _ 1 _ 1); [reflexivity|by split|reflexivity|reflexivity|reflexivity| |reflexivity|reflexivity|].
    + intros [|[|[|j]]] y; cbn; intros [= <-] Hj; done.
    + eapply path_last; [reflexivity|by split|]. by intros [|[|[|j]]] y; cbn; intros [= <-].
  - reflexivity.
  - reflexivity.
  - intros [|[|[|k]]] K; cbn; intros [= <-] Hd; set_solver.
Qed.

Lemma open_menus_form_path_witness :
  exists s', deliver 2000 Down 1 ex_state = Some s' /\ (closed [42] 100 s' \/ exists l', chain [42] 100 0 l' s').
Proof. apply (open_menus_form_path [42] 100 0 2000 Down [0; 1] 1 ex_state); [exact ex_chain|by right; left|exact I]. Defined.

Lemma makeSelection_correct_witness :
  match menus ex_state !! 0 with
  | Some R =>
      exists s' R', makeSelection 1 ex_state = Some s' /\ closed [42] 100 s' /\ menus s' !! 0 = Some R' /\
        match selections ex_state !! 0 with
        | Some d =>
            value R' = itemValue d /\
            fired s' = fired ex_state ++ match (match itemAction d with Some a => Some a | None => action R end) with
                                 | Some a => [(a, itemValue d)]
                                 | None => []
                                 end
        | None => value R' = value R /\ fired s' = fired ex_state
        end
  | None => False
  end.
Proof. apply (makeSelection_correct [42] 100 0 [0; 1] 1 _ ex_state); [exact ex_chain|by right; left|reflexivity]. Defined.

(** ** Findings *)

(** The pointer opens the submenu of the second item, goes into it and comes back to
    the item: a click then makes the item, which cannot be selected, the selection,
    and the menu's value is lost.  A click before leaving the item only closes the menu. *)
Definition click_submenu_item (back : bool) : option (list (nat * option nat) * option (option nat)) :=
  s ← ex_open;
  s1 ← mouseEntered 1000 0 1 s;
  s2 ← (if back then t ← mouseEntered 1000 1 0 s1; mouseEntered 1000 0 1 t else Some s1);
  s3 ← mouseClicked 1000 0 1 s2;
  Some (fired s3, value <$> menus s3 !! 0).

Lemma submenu_item_selected :
  click_submenu_item true = Some ([(9, None)], Some None) /\ click_submenu_item false = Some ([], Some (Some 1)).
Proof. split; vm_compute; reflexivity. Qed.

(** The pointer is on the first item while the down arrow goes on to the second; when
    it leaves the menu and comes back to the first item, the second item's submenu opens. *)
Lemma entering_opens_other_submenu :
  (s ← ex_open; s1 ← mouseEntered 1000 0 0 s; s2 ← moveDown 0 s1; s3 ← mouseEntered 1000 0 0 s2;
   Some (length (menus s3), _highlightIndex <$> menus s3 !! 0)) = Some (2, Some 1%Z).
Proof. vm_compute. reflexivity. Qed.
