(* ===== verification/AutocompleteMenu.v ===== *)
(** * The menu of completions and its text field ([views/autocomplete_menu_view.js])

    The menu that a text field shows its completions in is a menu, the one of [Menu], that
    leaves most keys to the field, and that passes the focus of the browser, as in [Focus], to
    and fro: the field gives it up when the arrow keys go into the menu, and gets it back when
    the menu is closed.

    The state is that of the menus and that of the page; they have the stack of key responders
    in common.  Menus are numbered from 0, and the views of the page have greater numbers. *)

From S2P Require Import Prelude.
From stdpp Require Import gmap.
From S2P Require EventManager.
From S2P Require Focus.
From S2P Require Import Menu.
Open Scope string_scope.
Open Scope list_scope.
Open Scope flame_scope.

Abbreviation result := EventManager.result.
Abbreviation Handled := EventManager.Handled.
Abbreviation Passed := EventManager.Passed.

Record auto := Auto { menu_state : Menu.state; page : Focus.page }.

(** After a change on one side the other one has the same stack. *)
Definition with_menu (s : Menu.state) (a : auto) : auto := Auto s (EventManager.set_stack (keyStack s) (page a)).
Definition with_page (w : Focus.page) (a : auto) : auto :=
  Auto (set_stack (EventManager._stack w) (zIndexCounter (menu_state a)) (menu_state a)) w.

Section autocomplete.
Context (isField : nat -> bool).
Context (root : nat).            (* the menu *)
Context (textField : nat).

(** ** The focus of the field *)

Definition in_document (a : auto) : bool := EventManager.inDOM (EventManager.info (page a) textField).

Definition didBecomeKeyResponder (a : auto) : auto :=
  if in_document a then with_page (Focus.didBecomeKeyResponder textField (page a)) a else a.
Definition didLoseKeyResponder (a : auto) : auto :=
  if in_document a then with_page (Focus.didLoseKeyResponder (Focus.hook isField) textField (page a)) a else a.

(** ** The methods of the menu *)

Definition close (a : auto) : option auto := s ← Menu.close root (menu_state a); Some (didBecomeKeyResponder (with_menu s a)).

(** Menus have no property [highlightIndex], only [_highlightIndex]. *)
Definition highlightIndex (M : menu) : option Z := None.
Definition deleteBackward (a : auto) : option (auto * result) :=
  M ← menus (menu_state a) !! root;
  Some (a, match highlightIndex M with Some i => if (0 <=? i)%Z then Handled else Passed | None => Passed end).

Definition insertTab (a : auto) : option (auto * result) := a' ← close a; Some (a', Passed).

(** What [_selectNext] returns is lost. *)
Definition moveDown (a : auto) : option (auto * result) :=
  let a1 := didLoseKeyResponder a in
  s ← Menu.moveDown root (menu_state a1); Some (with_menu s a1, Passed).

Definition moveUp (a : auto) : option (auto * result) := s ← Menu.moveUp root (menu_state a); Some (with_menu s a, Handled).

Definition cancel (a : auto) : option (auto * result) := a' ← close a; Some (a', Handled).

(** [makeSelection] of menus, which calls [close]. *)
Definition makeSelection (a : auto) : option auto :=
  R ← menus (menu_state a) !! root;
  match selections (menu_state a) !! root with
  | Some d =>
      s1 ← set_value root (itemValue d) (menu_state a);
      a2 ← close (with_menu s1 a);
      Some (match (match itemAction d with Some x => Some x | None => action R end) with
            | Some x => Auto (add_fired (x, itemValue d) (menu_state a2)) (page a2)
            | None => a2
            end)
  | None => close a
  end.

Definition insertNewline (a : auto) : option (auto * result) := a' ← makeSelection a; Some (a', Handled).

Definition mouseClicked (now : Z) (index : Z) (a : auto) : option (auto * result) :=
  M ← menus (menu_state a) !! root;
  if (now - _openedAt M <? 300)%Z then Some (a, Passed)
  else
    s1 ← set_highlightIndex root index (menu_state a);
    M1 ← menus s1 !! root;
    if (0 <=? _userHighlightIndex M1)%Z then a' ← makeSelection (with_menu s1 a); Some (a', Handled)
    else Some (with_menu s1 a, Handled).

Definition mouseEntered (now : Z) (index : Z) (a : auto) : option (auto * result) :=
  s ← Menu.mouseEntered now root index (menu_state a); Some (with_menu s a, Handled).

Inductive event := Backspace | Tab | Down | Up | Right | Left | Escape | Enter | Character | MouseEnter (index : Z) | Click (index : Z).

Definition step (now : Z) (ev : event) (a : auto) : option (auto * result) :=
  match ev with
  | Backspace => deleteBackward a
  | Tab => insertTab a
  | Down => moveDown a
  | Up => moveUp a
  | Right | Left | Character => Some (a, Passed)
  | Escape => cancel a
  | Enter => insertNewline a
  | MouseEnter i => mouseEntered now i a
  | Click i => mouseClicked now i a
  end.

Definition is_open (a : auto) : bool := match menus (menu_state a) !! root with Some M => negb (isDestroyed M) | None => false end.

(** The events that reach the menu: those up to the one that closes it. *)
Fixpoint run (now : Z) (evs : list event) (a : auto) : option auto :=
  match evs with
  | [] => Some a
  | ev :: evs' => if is_open a then r ← step now ev a; run now evs' r.1 else Some a
  end.

(** ** Specification *)

Definition event_ok (items : nat) (ev : event) : Prop :=
  match ev with MouseEnter i => (0 <= i < Z.of_nat items)%Z | _ => True end.

(** The items have no submenus. *)
Definition plain (M : menu) : Prop := Forall (fun x => match subMenuItems x with Some (_ :: _) => False | _ => True end) (_menuItems M).

Section focus.
Context (rest : list nat) (z0 : Z) (items : nat).

(** Nothing but the field can have the focus, and nothing has been thrown. *)
Record page_ok (pending : list nat) (w : Focus.page) : Prop := {
  po_active : Focus.activeElement (EventManager.app w) = Some textField \/ Focus.activeElement (EventManager.app w) = None;
  po_pending : Focus.pending (EventManager.app w) = pending;
  po_dom : EventManager.inDOM (EventManager.info w textField) = true
}.

(** The menu is open over the field. *)
Record showing (a : auto) : Prop := {
  sh_chain : chain (textField :: rest) z0 root [root] (menu_state a);
  sh_menu : exists M, menus (menu_state a) !! root = Some M /\ plain M /\ length (_menuItems M) = items;
  sh_number : length (menus (menu_state a)) <= textField;
  sh_stack : EventManager._stack (page a) = keyStack (menu_state a);
  sh_page : page_ok [] (page a)
}.

(** It is closed and the field has asked for the focus. *)
Record gone (a : auto) : Prop := {
  gn_closed : closed (textField :: rest) z0 (menu_state a);
  gn_stack : EventManager._stack (page a) = textField :: rest;
  gn_page : page_ok [textField] (page a)
}.

(** ** Lemmas *)

Lemma with_menu_ok p s a : page_ok p (page a) -> page_ok p (page (with_menu s a)).
Proof. intros [H1 H2 H3]. by split. Qed.

Lemma path_in ms m l : path ms m l -> forall k, k ∈ l -> is_Some (ms !! k).
Proof.
  induction 1 as [m M HM|m M i x c C l HM ? ? ? ? ? ? ? ? IH]; intros k Hk.
  - apply list_elem_of_singleton in Hk as ->. by exists M.
  - apply elem_of_cons in Hk as [->|Hk]; [by exists M|auto].
Qed.

(** The field is not the current key responder while the menu is open. *)
Lemma current_not_field a : chain (textField :: rest) z0 root [root] (menu_state a) -> length (menus (menu_state a)) <= textField ->
  EventManager._stack (page a) = keyStack (menu_state a) -> EventManager.current (page a) <> Some textField.
Proof.
  intros Hc Hn Hs. unfold EventManager.current. rewrite Hs, (ch_stack _ _ _ _ _ Hc). intros H.
  cbn in H. injection H as H. destruct (path_in _ _ _ (ch_path _ _ _ _ _ Hc) root (list_elem_of_here _ _)) as [M HM].
  apply lookup_lt_Some in HM. lia.
Qed.

Lemma lose_ok a : showing a -> showing (didLoseKeyResponder a) /\ menu_state (didLoseKeyResponder a) = menu_state a.
Proof.
  intros [Hc Hm Hn Hs [Ha Hp Hd]]. pose proof (current_not_field a Hc Hn Hs) as Hcur.
  assert (menu_state (didLoseKeyResponder a) = menu_state a /\ EventManager._stack (page (didLoseKeyResponder a)) = EventManager._stack (page a) /\
    page_ok [] (page (didLoseKeyResponder a))) as (H1 & H2 & H3).
  { unfold didLoseKeyResponder, in_document. rewrite Hd. unfold Focus.didLoseKeyResponder. destruct (decide _) as [E|E].
    - unfold Focus.lose, Focus.focusOut.
      assert (EventManager.current (Focus.set_active None (page a)) = EventManager.current (page a)) as -> by done.
      destruct (EventManager.current (page a)) as [c|]; [rewrite decide_False by congruence|];
        (split; [cbn; rewrite Hs; by destruct (menu_state a)|split; [done|by split; [right|..]]]).
    - split; [cbn; rewrite Hs; by destruct (menu_state a)|]. by split. }
  split; [|done]. split; rewrite ?H1; try done; congruence.
Qed.

Lemma close_gone s a : closed (textField :: rest) z0 s -> page_ok [] (page a) -> gone (didBecomeKeyResponder (with_menu s a)).
Proof.
  intros [H1 H2 H3 H4] [Ha Hp Hd]. unfold didBecomeKeyResponder, in_document.
  assert (EventManager.info (page (with_menu s a)) textField = EventManager.info (page a) textField) as -> by done. rewrite Hd.
  split; [split; try done; cbn; by rewrite H3|by cbn; rewrite H3|]. split; [done| |done]. cbn. by rewrite Hp.
Qed.

Lemma close_asks a : showing a -> exists a', close a = Some a' /\ gone a'.
Proof.
  intros [Hc (M & HM & _) _ _ Hpg]. unfold close. destruct (chain_close _ _ _ [] root [] _ M Hc HM) as (s & -> & Hcl). eexists. split; [done|].
  apply close_gone; [|done]. by eapply closes_closed.
Qed.

(** Making the selection is that of menus, and asks for the focus. *)
Lemma makeSelection_eq a : makeSelection a = (s ← make_root_selection root (menu_state a); Some (didBecomeKeyResponder (with_menu s a))).
Proof.
  unfold makeSelection, make_root_selection, close. destruct (menus (menu_state a) !! root) as [R|]; [|done]. cbn [mbind option_bind].
  destruct (selections (menu_state a) !! root) as [d|]; [|done]. destruct (set_value root (itemValue d) (menu_state a)) as [s1|]; [|done].
  cbn [mbind option_bind menu_state with_menu]. destruct (Menu.close root s1) as [s2|]; [|done]. cbn [mbind option_bind].
  destruct (match itemAction d with Some x => Some x | None => action R end) as [x|]; [|done]. f_equal. unfold didBecomeKeyResponder, in_document.
  assert (EventManager.info (page (with_menu s2 (with_menu s1 a))) textField = EventManager.info (page a) textField) as -> by done.
  assert (EventManager.info (page (with_menu (add_fired (x, itemValue d) s2) a)) textField = EventManager.info (page a) textField) as -> by done.
  by destruct (EventManager.inDOM _).
Qed.

Lemma makeSelection_ok a : showing a -> exists a', makeSelection a = Some a' /\ gone a'.
Proof.
  intros [Hc (M & HM & _) _ _ Hpg]. rewrite makeSelection_eq.
  destruct (chain_make_root _ _ _ [] M _ Hc HM) as (s & R & -> & Hcl & _). eexists. split; [done|]. by apply close_gone.
Qed.

Lemma plain_same M M' : same_menu M M' -> plain M -> plain M' /\ length (_menuItems M') = length (_menuItems M).
Proof.
  intros (_ & _ & _ & _ & _ & H) Hp. split.
  - unfold plain in *. assert (Forall (fun y : mdata * bool * bool * option (list mdata) => match y.2 with Some (_ :: _) => False | _ => True end) (strip <$> _menuItems M')) as H'
      by (rewrite H; apply Forall_fmap; exact Hp). by apply Forall_fmap in H'.
  - apply (f_equal length) in H. by rewrite !length_fmap in H.
Qed.

(** What changes the menu and keeps it open. *)
Lemma still_showing a s M M' : showing a -> chain (textField :: rest) z0 root [root] s -> menus (menu_state a) !! root = Some M ->
  menus s !! root = Some M' -> same_menu M M' -> length (menus s) = length (menus (menu_state a)) -> showing (with_menu s a).
Proof.
  intros [_ (M0 & HM0 & Hpl & Hl) Hn _ Hpg] Hc HM HM' Hsm Hlen. rewrite HM in HM0. injection HM0 as <-.
  destruct (plain_same _ _ Hsm Hpl) as [Hpl' Hl']. split; [done|exists M'; split_and!; [done|done|congruence]|cbn; lia|done|by apply with_menu_ok].
Qed.

(** A change of the root menu that neither the highlight nor submenus are part of. *)
Lemma upd_showing g a : showing a -> (forall M, _highlightIndex (g M) = _highlightIndex M /\ isShown (g M) = isShown M /\ isDestroyed (g M) = isDestroyed M /\
     subMenuView <$> _menuItems (g M) = subMenuView <$> _menuItems M) -> (forall M, same_menu M (g M)) ->
  showing (with_menu (upd root g (menu_state a)) a).
Proof.
  intros Hs Hg Hsm. destruct (sh_menu _ Hs) as (M & HM & _). apply (still_showing a _ M (g M)); try done.
  - apply chain_upd; [apply Hs|done|]. intros M0. apply (Hsm M0).
  - by rewrite upd_lookup, decide_True, HM.
  - apply upd_length.
Qed.

Lemma highlight_ok i a M : showing a -> menus (menu_state a) !! root = Some M ->
  exists s M', set_highlightIndex root i (menu_state a) = Some s /\ menus s !! root = Some M' /\ same_menu M M' /\ showing (with_menu s a).
Proof.
  intros Hs HM. pose proof (sh_chain _ Hs) as Hc. destruct (decide (_highlightIndex M = i)) as [Hi|Hi].
  - exists (menu_state a), M. unfold set_highlightIndex, set_highlight_with. rewrite HM. cbn. rewrite Hi, Z.eqb_refl.
    split_and!; try done. apply (still_showing a _ M M); try done.
  - destruct (chain_highlight _ _ _ [] root [] i _ M Hc HM) as (s & M' & l' & E & Hc' & HM' & Hsm & _ & _ & _ & _ & Hl & _ & Hlen).
    destruct (Hl Hi) as [-> _]. exists s, M'. split_and!; try done. by apply (still_showing a _ M M').
Qed.

Lemma with_menu_twice s s' a : with_menu s (with_menu s' a) = with_menu s a.
Proof. done. Qed.

Lemma select_ok inc a : showing a -> exists s, _selectNext root inc (menu_state a) = Some s /\ showing (with_menu s a).
Proof.
  intros Hs. destruct (sh_menu _ Hs) as (M & HM & _). unfold _selectNext. rewrite HM. cbn [mbind option_bind].
  assert (forall s, showing (with_menu s a) -> showing (with_menu (_clearKeySearch root s) a)) as Hclear.
  { intros s H. apply (upd_showing (set_search "")) in H; try done. }
  destruct (next_enabled _ _ _ _) as [i|].
  - destruct (highlight_ok i a M Hs HM) as (s & M' & -> & _ & _ & H). cbn [mbind option_bind]. eauto.
  - eexists. split; [done|]. by apply (upd_showing (set_search "")).
Qed.

Lemma enter_ok now i a : showing a -> event_ok items (MouseEnter i) ->
  exists s, Menu.mouseEntered now root i (menu_state a) = Some s /\ showing (with_menu s a).
Proof.
  intros Hs Hi. destruct (sh_menu _ Hs) as (M & HM & Hpl & Hlen). unfold Menu.mouseEntered, set_userHighlightIndex. rewrite HM. cbn [mbind option_bind].
  assert (exists s M', (if (_userHighlightIndex M =? i)%Z then Some (menu_state a) else set_highlightIndex root i (upd root (set_user i) (menu_state a))) = Some s /\
    menus s !! root = Some M' /\ showing (with_menu s a)) as (s & M' & -> & HM' & Hs').
  { destruct (_ =? _)%Z.
    - exists (menu_state a), M. split_and!; try done. apply (still_showing a _ M M); try done. apply Hs.
    - pose proof (upd_showing (set_user i) a Hs ltac:(done) ltac:(done)) as Hs1.
      destruct (highlight_ok i _ (set_user i M) Hs1) as (s & M' & E & HM' & _ & H); [cbn -[upd]; by rewrite upd_lookup, decide_True, HM|].
      exists s, M'. split_and!; done. }
  cbn [mbind option_bind]. rewrite HM'. cbn [mbind option_bind].
  destruct (sh_menu _ Hs') as (M0 & HM0 & Hpl' & Hlen'). cbn [menu_state with_menu] in HM0. rewrite HM' in HM0. injection HM0 as <-.
  pose proof (path_last_subs _ _ _ (ch_wf _ _ _ _ _ (sh_chain _ Hs')) (ch_path _ _ _ _ _ (sh_chain _ Hs')) HM') as Hns.
  assert (exists x, objectAt (_menuItems M') i = Some x /\ _menuItems M' !! Z.to_nat i = Some x) as (x & Hx & Hx').
  { cbn in Hi. unfold objectAt. destruct (Z.ltb_spec i 0); [lia|].
    destruct (lookup_lt_is_Some_2 (_menuItems M') (Z.to_nat i)) as [x Hx]; [lia|]. eauto. }
  rewrite Hx. cbn [mbind option_bind]. rewrite (Hns _ _ Hx'). unfold _tryOpenSubmenu. rewrite HM'. cbn [mbind option_bind].
  exists s. split; [|done]. destruct (objectAt (_menuItems M') (_highlightIndex M')) as [y|] eqn:Ey; [|done].
  apply objectAt_Some in Ey as [Ey _]. apply list_elem_of_lookup_2 in Ey. pose proof (proj1 (Forall_forall _ _) Hpl' y Ey) as Hy. cbn in Hy.
  by destruct (subMenuItems y) as [[|d l]|].
Qed.

Lemma event_handled now ev a : showing a -> event_ok items ev -> exists a' r, step now ev a = Some (a', r) /\ (showing a' \/ gone a').
Proof.
  intros Hs Hev. destruct (sh_menu _ Hs) as (M & HM & _).
  destruct ev as [| | | | | | | | |i|i]; cbn [step]; try (eexists _, _; split; [reflexivity|by left]).
  - unfold deleteBackward. rewrite HM. eexists _, _. split; [reflexivity|by left].
  - unfold insertTab. destruct (close_asks a Hs) as (a' & -> & H). cbn. eauto.
  - unfold moveDown. destruct (lose_ok a Hs) as [Hs1 E]. destruct (select_ok 1 _ Hs1) as (s & Es & H). unfold Menu.moveDown. cbv zeta. rewrite Es. cbn. eauto.
  - unfold moveUp, Menu.moveUp. destruct (select_ok (-1) a Hs) as (s & -> & H). cbn. eauto.
  - unfold cancel. destruct (close_asks a Hs) as (a' & -> & H). cbn. eauto.
  - unfold insertNewline. destruct (makeSelection_ok a Hs) as (a' & -> & H). cbn. eauto.
  - unfold mouseEntered. destruct (enter_ok now i a Hs Hev) as (s & -> & H). cbn. eauto.
  - unfold mouseClicked. rewrite HM. cbn [mbind option_bind]. destruct (_ <? _)%Z; [eauto|].
    destruct (highlight_ok i a M Hs HM) as (s & M' & -> & HM' & _ & H). cbn [mbind option_bind]. rewrite HM'. cbn [mbind option_bind].
    destruct (0 <=? _)%Z; [|eauto]. destruct (makeSelection_ok _ H) as (a' & -> & Ha). cbn. eauto.
Qed.

Lemma showing_open a : showing a -> is_open a = true.
Proof.
  intros Hs. pose proof (ch_path _ _ _ _ _ (sh_chain _ Hs)) as Hp. unfold is_open.
  inversion Hp as [? ? HM [_ Ho]|? ? ? ? ? ? ? HM [_ Ho]]; subst; by rewrite HM, Ho.
Qed.

Lemma gone_closed a : gone a -> is_open a = false.
Proof.
  intros [Hc _ _]. unfold is_open. destruct (menus (menu_state a) !! root) as [M|] eqn:E; [|done]. by rewrite (cd_none _ _ _ Hc _ _ E).
Qed.

(** The callback that was put off gives the field the focus, if it has lost it. *)
Lemma gone_focused a : gone a ->
  let w := Focus.run_next isField (page a) in
  EventManager.current w = Some textField /\ Focus.activeElement (EventManager.app w) = Some textField /\ EventManager._stack w = textField :: rest.
Proof.
  intros [_ Hs [Ha Hp _]]. cbv zeta. unfold Focus.run_next. rewrite Hp. cbn [foldl]. unfold Focus.browser_focus.
  assert (EventManager._stack (Focus.set_pending [] (page a)) = textField :: rest) as Hs1 by done.
  assert (Focus.activeElement (EventManager.app (Focus.set_pending [] (page a))) = Focus.activeElement (EventManager.app (page a))) as Ea by done.
  destruct (decide _) as [E|E].
  - split_and!; [unfold EventManager.current; by rewrite Hs1|done|done].
  - rewrite Ea in E. destruct Ha as [Ha|Ha]; [done|]. unfold Focus.browser_blur. rewrite Ea, Ha. unfold Focus.focusIn, EventManager.current.
    cbn [EventManager._stack Focus.set_active Focus.put_app]. rewrite Hs1. cbn [head]. rewrite decide_True by done. split_and!; cbn; [by rewrite Hs|done|done].
Qed.

(** C21. Whatever the user does in the menu of completions, the menu stays open over the field,
    or it is closed; then, once the work that was put off has run, the field is the key
    responder and has the focus of the browser, though it may have given it up on the way, and
    what was below it on the stack of key responders is as it was. *)
Theorem focus_returns now evs a : showing a -> Forall (event_ok items) evs ->
  exists a', run now evs a = Some a' /\
    (showing a' \/
     (let w := Focus.run_next isField (page a') in
      is_open a' = false /\ EventManager.current w = Some textField /\ Focus.activeElement (EventManager.app w) = Some textField /\
      EventManager._stack w = textField :: rest)).
Proof.
  intros Hs Hevs. revert a Hs. induction Hevs as [|ev evs Hev _ IH]; intros a Hs; [exists a; by split; [|left]|]. cbn [run].
  rewrite (showing_open _ Hs). destruct (event_handled now ev a Hs Hev) as (a' & r & -> & [H|H]); cbn [mbind option_bind fst]; [by apply IH|].
  exists a'. split; [|right; split; [by apply gone_closed|by apply gone_focused]]. destruct evs; [done|]. cbn [run]. by rewrite (gone_closed _ H).
Qed.
End focus.
End autocomplete.

(** ** A field with completions *)

Definition ex_views : gmap nat EventManager.vinfo :=
  list_to_map [(42, EventManager.ex_view None); (43, EventManager.ex_view None); (50, EventManager.ex_view None)].
Definition ex_isField (v : nat) : bool := bool_decide (v = 42 \/ v = 43).
Definition ex_items : list mdata := [MData "Paris" None false (Some 1) None None; MData "Prague" None false (Some 2) None None].

(** The menu is opened over the field 42, which lies over the view 50. *)
Definition ex_auto : option auto :=
  r ← create ex_items None None (Some 9) (State [] ∅ [42; 50] 100 []); s ← popup 0 r.2 r.1;
  Some (Auto s (EventManager.World (Focus.Doc (Some 42) [] false) ex_views (keyStack s) None {[42]})).
Definition ex_open : auto := Eval vm_compute in default (Auto (State [] ∅ [] 0 []) (EventManager.World (Focus.Doc None [] false) ∅ [] None ∅)) ex_auto.

Lemma ex_showing : showing 0 42 [50] 100 2 ex_open.
Proof.
  split.
  - split.
    + intros [|m] M p; cbn; intros [= <-]; done.
    + cbn. by intros M [= <-].
    + eapply path_last; [reflexivity|by split|]. by intros [|[|j]] y; cbn; intros [= <-].
    + reflexivity.
    + reflexivity.
    + intros [|k] K; cbn; intros [= <-] Hd; set_solver.
  - eexists. split; [reflexivity|]. split; [|reflexivity]. by repeat constructor.
  - cbn. lia.
  - reflexivity.
  - split; [by left|reflexivity|reflexivity].
Qed.

Lemma focus_returns_witness :
  exists a', run ex_isField 0 42 1000 [Down; Character; Down; Up; Enter] ex_open = Some a' /\
    let w := Focus.run_next ex_isField (page a') in
    Focus.activeElement (EventManager.app (page a')) = None /\ Focus.activeElement (EventManager.app w) = Some 42 /\ EventManager._stack w = [42; 50].
Proof.
  destruct (focus_returns ex_isField 0 42 [50] 100 2 1000 [Down; Character; Down; Up; Enter] ex_open ex_showing ltac:(by repeat constructor))
    as (a' & E & [H|(_ & _ & Ha & Hs)]).
  - exfalso. apply showing_open in H. vm_compute in E. injection E as <-. vm_compute in H. discriminate.
  - exists a'. split; [exact E|]. split; [|by split]. vm_compute in E. injection E as <-. reflexivity.
Defined.

(** ** Departures *)

(** The backspace key is never taken, as it is meant to be once the user has gone into the
    menu: the property that is asked for does not exist. *)
Lemma backspace_passes root a a' r : deleteBackward root a = Some (a', r) -> a' = a /\ r = Passed.
Proof. unfold deleteBackward. destruct (menus (menu_state a) !! root); [|done]. cbn. by intros [= <- <-]. Qed.

(** A menu that the user has closed is closed again by the field when a later query is sent:
    if the user has gone to another field by then, the focus is taken away from it. *)
Lemma closed_menu_steals_focus :
  match (r ← cancel 0 42 ex_open; Some (Focus.run_next ex_isField (Focus.become ex_isField None 43 (Focus.run_next ex_isField (page r.1))), menu_state r.1)) with
  | Some (w, s) =>
      Focus.activeElement (EventManager.app w) = Some 43 /\ EventManager.current w = Some 43 /\
      match close 0 42 (Auto (set_stack (EventManager._stack w) (zIndexCounter s) s) w) with
      | Some a => Focus.activeElement (EventManager.app (Focus.run_next ex_isField (page a))) = Some 42
      | None => False
      end
  | None => False
  end.
Proof. vm_compute. done. Qed.
