(* ===== verification/TableDataView.v ===== *)
(** * The cells of a table ([views/table_data_view.js])

    The view is a statechart: nothing selected, the mouse held down on a cell, cells
    selected, a read-only cell with its text selectable, a cell being edited.  A range
    of cells is copied as text, columns separated by tabs and rows by line ends, and
    such text is pasted cell by cell.  Changed cells are redrawn in batches, one per
    turn of the run loop.

    A cell element is denoted by its row and column; an empty jQuery set by [None].
    The delegate that stores new values, the validation of a cell and its special
    editors are parameters.  Rendering to HTML, scrolling and the position of the
    selection are not modelled. *)

From S2P Require Import Prelude.
From stdpp Require Import gmap.
Open Scope string_scope.
Open Scope list_scope.
Open Scope flame_scope.

(** ** Data *)

(** What the view reads of a cell. *)
Record cell := Cell {
  editableValue : string;
  formattedValue : string;
  isEditable : bool;
  isCopyable : bool;
  isPastable : bool;
  options : option (list (string * string))    (* titles and values *)
}.

(** A cell that has not been loaded is [None]. *)
Abbreviation grid := (list (list (option cell))).
Abbreviation ref := (nat * nat)%type.

Inductive flame_state := Loaded | MouseIsDown | Selected | SelectingReadOnly | Editing.
#[export] Instance flame_state_eq_dec : EqDecision flame_state.
Proof. solve_decision. Defined.

Record tdv := Tdv {
  data : grid;
  currentFlameState : flame_state;
  selectedCell : option ref;
  selectionEnd : option ref;
  editValue : option string;
  editField : string;                (* the text of the edit field *)
  fieldShown : bool;
  fieldInvalid : bool;
  menuOpen : bool;                   (* the menu with the options of a cell *)
  readOnlyText : option string;      (* what the selection shows of a read-only cell *)
  dirtyCells : list ref;
  lastTarget : option (option ref);
  failed : list string;              (* [pasteDidFail] *)
  notified : list (option ref * option ref)   (* [didMakeSelection] *)
}.

Definition set_data x s := Tdv x (currentFlameState s) (selectedCell s) (selectionEnd s) (editValue s) (editField s) (fieldShown s) (fieldInvalid s) (menuOpen s) (readOnlyText s) (dirtyCells s) (lastTarget s) (failed s) (notified s).
Definition set_state x s := Tdv (data s) x (selectedCell s) (selectionEnd s) (editValue s) (editField s) (fieldShown s) (fieldInvalid s) (menuOpen s) (readOnlyText s) (dirtyCells s) (lastTarget s) (failed s) (notified s).
Definition set_selection a b s := Tdv (data s) (currentFlameState s) a b (editValue s) (editField s) (fieldShown s) (fieldInvalid s) (menuOpen s) (readOnlyText s) (dirtyCells s) (lastTarget s) (failed s) (notified s).
Definition set_editValue x s := Tdv (data s) (currentFlameState s) (selectedCell s) (selectionEnd s) x (editField s) (fieldShown s) (fieldInvalid s) (menuOpen s) (readOnlyText s) (dirtyCells s) (lastTarget s) (failed s) (notified s).
Definition set_field x shown invalid s := Tdv (data s) (currentFlameState s) (selectedCell s) (selectionEnd s) (editValue s) x shown invalid (menuOpen s) (readOnlyText s) (dirtyCells s) (lastTarget s) (failed s) (notified s).
Definition set_menuOpen x s := Tdv (data s) (currentFlameState s) (selectedCell s) (selectionEnd s) (editValue s) (editField s) (fieldShown s) (fieldInvalid s) x (readOnlyText s) (dirtyCells s) (lastTarget s) (failed s) (notified s).
Definition set_readOnly x s := Tdv (data s) (currentFlameState s) (selectedCell s) (selectionEnd s) (editValue s) (editField s) (fieldShown s) (fieldInvalid s) (menuOpen s) x (dirtyCells s) (lastTarget s) (failed s) (notified s).
Definition set_dirty x s := Tdv (data s) (currentFlameState s) (selectedCell s) (selectionEnd s) (editValue s) (editField s) (fieldShown s) (fieldInvalid s) (menuOpen s) (readOnlyText s) x (lastTarget s) (failed s) (notified s).
Definition set_lastTarget x s := Tdv (data s) (currentFlameState s) (selectedCell s) (selectionEnd s) (editValue s) (editField s) (fieldShown s) (fieldInvalid s) (menuOpen s) (readOnlyText s) (dirtyCells s) x (failed s) (notified s).
Definition pasteFailed x s := Tdv (data s) (currentFlameState s) (selectedCell s) (selectionEnd s) (editValue s) (editField s) (fieldShown s) (fieldInvalid s) (menuOpen s) (readOnlyText s) (dirtyCells s) (lastTarget s) (failed s ++ [x]) (notified s).
Definition notifySelectionChange s := Tdv (data s) (currentFlameState s) (selectedCell s) (selectionEnd s) (editValue s) (editField s) (fieldShown s) (fieldInvalid s) (menuOpen s) (readOnlyText s) (dirtyCells s) (lastTarget s) (failed s) (notified s ++ [(selectedCell s, selectionEnd s)]).

(** [data[i][j]] *)
Definition cell_at (d : grid) (p : ref) : option cell := r ← d !! p.1; c ← r !! p.2; c.

(** The rows and columns of the table element. *)
Definition rowCount (d : grid) : nat := length d.
Definition columnCount (d : grid) : nat := match d with r :: _ => length r | [] => 0 end.
Definition is_cell (d : grid) (p : ref) : bool := (p.1 <? rowCount d)%nat && (p.2 <? columnCount d)%nat.

(** What a handler returns; [NoMethod] when the state has no such handler. *)
Inductive ret := RTrue | RFalse | RUndefined | RBrowserDefault | NoMethod.

Definition ret_of (b : bool) : ret := if b then RTrue else RFalse.

(** ** Text *)

Definition tab : Ascii.ascii := Ascii.ascii_of_nat 9.
Definition LF : Ascii.ascii := Ascii.ascii_of_nat 10.
Definition CR : Ascii.ascii := Ascii.ascii_of_nat 13.

(** [[^\S\t]]: white space but for the tab. *)
Definition is_blank (c : Ascii.ascii) : bool :=
  let n := Ascii.nat_of_ascii c in
  ((10 <=? n)%nat && (n <=? 13)%nat) || (n =? 32)%nat || (n =? 160)%nat.

Fixpoint normalize_lines (s : string) : string :=
  match s with
  | EmptyString => EmptyString
  | String a s' =>
      if decide (a = CR) then
        match s' with
        | String b s'' => if decide (b = LF) then String LF (normalize_lines s'') else String LF (normalize_lines s')
        | EmptyString => String LF EmptyString
        end
      else String a (normalize_lines s')
  end.

Fixpoint strip_left (s : string) : string :=
  match s with String a s' => if is_blank a then strip_left s' else s | EmptyString => EmptyString end.

Fixpoint strip_right (s : string) : string :=
  match s with
  | EmptyString => EmptyString
  | String a s' =>
      match strip_right s' with
      | EmptyString => if is_blank a then EmptyString else String a EmptyString
      | t => String a t
      end
  end.

Definition _trim (value : string) : string := strip_right (strip_left (normalize_lines value)).

Section view.
Context (validate : cell -> string -> bool).
(** [tableViewDelegate.cellUpdated]: the new data and whether the cell is dirty. *)
Context (cellUpdated : ref -> string -> grid -> grid * bool).
Context (showEditor showReadOnlyEditor : cell -> bool).
Context (allowSelection : bool).

(** ** Selecting *)

(** [isCellSelectable] holds of every cell element. *)
Definition selectCell (newSelection : option ref) (notify : bool) (s : tdv) : tdv * bool :=
  match newSelection with
  | Some p =>
      if allowSelection then
        let s1 := set_selection (Some p) (Some p) s in
        (if notify then notifySelectionChange s1 else s1, true)
      else (s, false)
  | None => (s, false)
  end.

Inductive direction := DLeft | DRight | DUp | DDown.

(** [prev], [next], [cellUp] and [cellDown]. *)
Definition neighbour (d : direction) (g : grid) (p : ref) : option ref :=
  let '(i, j) := p in
  match d with
  | DLeft => match j with S j' => Some (i, j') | 0 => None end
  | DRight => if (S j <? columnCount g)%nat then Some (i, S j) else None
  | DUp => match i with S i' => Some (i', j) | 0 => None end
  | DDown => if (S i <? rowCount g)%nat then Some (S i, j) else None
  end.

Definition selectedDataCell (s : tdv) : option cell := p ← selectedCell s; cell_at (data s) p.

(** [editableValue] of the view. *)
Definition view_editableValue (c : cell) (readOnly : bool) (s : tdv) : string :=
  match editValue s with Some v => v | None => if readOnly then formattedValue c else editableValue c end.

(** ** Storing a value *)

Definition _validateAndSet (newValue : string) (p : option ref) (s : tdv) : tdv * bool :=
  match (match p with Some q => Some q | None => selectedCell s end) with
  | None => (s, false)
  | Some q =>
      match cell_at (data s) q with
      | None => (s, false)
      | Some c =>
          if String.eqb (editableValue c) newValue then (s, true)
          else if validate c newValue then
            let '(d, dirty) := cellUpdated q newValue (data s) in
            let s1 := set_data d s in
            (if dirty then set_dirty (dirtyCells s1 ++ [q]) s1 else s1, true)
          else (s, false)
      end
  end.

Definition _confirmEdit (s : tdv) : tdv * bool :=
  let '(s1, ok) := _validateAndSet (editField s) None s in
  if ok then (s1, true) else (set_field (editField s1) (fieldShown s1) true s1, false).

(** ** Changing state *)

Definition exitState (s : tdv) : tdv :=
  match currentFlameState s with
  | Editing => set_field (editField s) false false s
  | SelectingReadOnly => set_readOnly None s
  | _ => s
  end.

Definition enterState (s : tdv) : tdv :=
  match currentFlameState s with
  | Loaded => set_selection None None s
  | SelectingReadOnly =>
      match selectedDataCell s with
      | Some c => if showReadOnlyEditor c then s else set_readOnly (Some (view_editableValue c true s)) s
      | None => s
      end
  | Editing =>
      match selectedDataCell s with
      | Some c =>
          if showEditor c then s
          else match options c with
               | Some _ => set_menuOpen true s
               | None => set_editValue None (set_field (view_editableValue c false s) true (fieldInvalid s) s)
               end
      | None => s
      end
  | _ => s
  end.

Definition gotoFlameState (new : flame_state) (s : tdv) : tdv :=
  if decide (currentFlameState s = new) then s else enterState (set_state new (exitState s)).

(** ** Handlers of the states *)

Record mouse := Mouse {
  target : option ref;         (* the cell of the event's target *)
  on_td : bool;                (* the target is that cell's element itself *)
  in_selection : bool;         (* the target is inside the selection *)
  shiftKey : bool
}.

Definition loaded_mouseDown (e : mouse) (s : tdv) : tdv * ret :=
  let '(s1, ok) := selectCell (target e) false s in
  if ok then (gotoFlameState MouseIsDown s1, RTrue) else (s1, RFalse).

Definition mouseIsDown_mouseMove (t : option ref) (s : tdv) : tdv * ret :=
  if decide (lastTarget s = Some t) then (s, RTrue)
  else
    let s1 := match t with Some p => set_selection (selectedCell s) (Some p) s | None => s end in
    (set_lastTarget (Some t) s1, RTrue).

Definition modifySelection (t : option ref) (s : tdv) : tdv * ret :=
  match t with
  | Some p => (notifySelectionChange (set_selection (selectedCell s) (Some p) s), RTrue)
  | None => (s, RFalse)
  end.

Definition startEdit (s : tdv) : tdv * ret :=
  match selectedDataCell s with
  | None => (s, RUndefined)
  | Some c =>
      if isEditable c then (gotoFlameState Editing (set_selection (selectedCell s) (selectedCell s) s), RUndefined)
      else match options c with
           | None => (gotoFlameState SelectingReadOnly (set_selection (selectedCell s) (selectedCell s) s), RUndefined)
           | Some _ => (s, RUndefined)
           end
  end.

Definition selected_mouseDown (e : mouse) (s : tdv) : tdv * ret :=
  if match selectedDataCell s with Some c => bool_decide (is_Some (options c)) | None => false end
     && on_td e && bool_decide (target e = selectedCell s)
  then ((startEdit s).1, RTrue)
  else if shiftKey e && bool_decide (is_Some (target e)) then (set_selection (selectedCell s) (target e) s, RTrue)
  else if in_selection e then (s, RTrue)
  else loaded_mouseDown e (gotoFlameState Loaded s).

(** [[a-zA-Z0-9+*\-\[\/\=]] *)
Definition starts_edit (c : Ascii.ascii) : bool :=
  let n := Ascii.nat_of_ascii c in
  ((97 <=? n)%nat && (n <=? 122)%nat) || ((65 <=? n)%nat && (n <=? 90)%nat) || ((48 <=? n)%nat && (n <=? 57)%nat) ||
  (n =? 43)%nat || (n =? 42)%nat || (n =? 45)%nat || (n =? 91)%nat || (n =? 47)%nat || (n =? 61)%nat.

Definition keyPress (ctrl : bool) (key : Ascii.ascii) (s : tdv) : tdv * ret :=
  if ctrl then (s, RFalse)
  else match selectedDataCell s with
       | None => (s, RFalse)
       | Some c =>
           if negb (isEditable c) then (s, RFalse)
           else if starts_edit key then ((startEdit (set_editValue (Some (String key EmptyString)) s)).1, RTrue)
           else (s, RFalse)
       end.

Definition wipeCell (s : tdv) : tdv :=
  match selectedDataCell s with
  | Some c => if isEditable c then (_validateAndSet "" None s).1 else s
  | None => s
  end.

Definition move (d : direction) (s : tdv) : tdv * ret :=
  (match selectedCell s with Some p => (selectCell (neighbour d (data s) p) true s).1 | None => s end, RTrue).

Definition moveAndModifySelection (d : direction) (s : tdv) : tdv * ret :=
  modifySelection (p ← selectionEnd s; neighbour d (data s) p) s.

(** [willLoseKeyResponder]; [cancel] of a selection resigns from the key focus. *)
Definition willLoseKeyResponder (s : tdv) : tdv := gotoFlameState Loaded s.

(** A move in the selected state; [insertTab] and [insertBacktab] are moves too. *)
Definition invokeInSelected (d : direction) (s : tdv) : tdv := (move d (gotoFlameState Selected s)).1.

Definition confirm_and_move (d : direction) (s : tdv) : tdv * ret :=
  let '(s1, ok) := _confirmEdit s in
  (if ok then invokeInSelected d s1 else s1, RTrue).

Definition readonly_mouseDown (e : mouse) (s : tdv) : tdv * ret :=
  match target e with
  | Some _ => ((selectCell (target e) true (gotoFlameState Selected s)).1, RTrue)
  | None => (s, RFalse)
  end.

(** The edit field is no cell; when the value is not valid it is asked twice. *)
Definition editing_mouseDown (e : mouse) (s : tdv) : tdv * ret :=
  match target e with
  | None => (s, RFalse)
  | Some _ =>
      let '(s1, ok) := _confirmEdit s in
      if ok then ((selectCell (target e) true (gotoFlameState Selected s1)).1, RTrue)
      else let '(s2, ok2) := _confirmEdit s1 in (s2, if ok2 then RFalse else RTrue)
  end.

(** The menu closes itself before its item's action is called. *)
Definition menuClosed (s : tdv) : tdv := gotoFlameState Selected (set_menuOpen false s).
Definition didSelectMenuItem (v : string) (s : tdv) : tdv :=
  let s1 := (_confirmEdit (set_field v (fieldShown s) (fieldInvalid s) s)).1 in
  match currentFlameState s1 with
  | Selected => (move DDown s1).1
  | SelectingReadOnly => invokeInSelected DDown s1
  | _ => s1
  end.

(** ** Copying and pasting *)

(** The rows and columns of the selected range. *)
Definition selected_range (s : tdv) : option (nat * nat * nat * nat) :=
  p ← selectedCell s; q ← selectionEnd s;
  Some (Nat.min p.1 q.1, Nat.max p.1 q.1, Nat.min p.2 q.2, Nat.max p.2 q.2).

Definition range_cells (r : nat * nat * nat * nat) : list (list ref) :=
  let '(minRow, maxRow, minCol, maxCol) := r in
  (fun i => (fun j => (i, j)) <$> seq minCol (S maxCol - minCol)) <$> seq minRow (S maxRow - minRow).

(** [_forEachSelectedCell], the cells by rows. *)
Definition selected_rows (s : tdv) : list (list ref) :=
  match selected_range s with Some r => range_cells r | None => [] end.

Definition copy_text (d : grid) (p : ref) : string :=
  match cell_at d p with Some c => if isCopyable c then editableValue c else "" | None => "" end.

Definition valueForCopy (s : tdv) : string :=
  Prelude.join LF (Prelude.join tab <$> ((fun row : list ref => copy_text (data s) <$> row) <$> selected_rows s)).

Definition may_paste (d : grid) (p : ref) : bool :=
  match cell_at d p with Some c => isEditable c && isPastable c | None => false end.

(** The single value goes to every selected cell. *)
Definition paste_everywhere (value : string) (s : tdv) : tdv :=
  foldl (fun s p =>
    if may_paste (data s) p then
      let '(s1, ok) := _validateAndSet value (Some p) s in
      if ok then s1 else pasteFailed value s1
    else s) s (concat (selected_rows s)).

Definition paste_field (p : ref) (field : string) (s : tdv) : tdv :=
  let store field :=
    let '(s1, ok) := _validateAndSet field (Some p) s in
    if ok then s1 else pasteFailed field s1 in
  if (p.1 <? rowCount (data s))%nat then
    match cell_at (data s) p with
    | Some c =>
        if isEditable c && isPastable c then
          match options c with
          | Some l =>
              match list_find (fun o => o.1 = field) l with
              | Some (_, o) => store o.2
              | None => pasteFailed field s
              end
          | None => store field
          end
        else s
    | None => s
    end
  else s.

(** The fields of the text, with the cells they are for. *)
Definition pasted_fields (p : ref) (value : string) : list (ref * string) :=
  concat (imap (fun i line => imap (fun j field => ((p.1 + i, p.2 + j), field)) (split_on tab line)) (split_on LF value)).

Definition pasteValue (value : string) (s : tdv) : tdv :=
  let value := _trim value in
  match selectedCell s with
  | None => s
  | Some p =>
      if negb (has_char LF value || has_char tab value) && negb (bool_decide (selectedCell s = selectionEnd s))
      then paste_everywhere value s
      else foldl (fun s x => paste_field x.1 x.2 s) s (pasted_fields p value)
  end.

(** ** Events *)

Inductive event :=
| MouseDown (e : mouse) | MouseMove (t : option ref) | MouseUp | DoubleClick
| KeyPress (ctrl : bool) (key : Ascii.ascii) | InsertNewline | InsertTab | InsertBacktab | DeleteBackward | DeleteForward
| Cancel | Move (d : direction) | MoveAndModify (d : direction) | Paste (value : string)
| LoseKeyResponder | MenuClosed | MenuSelected (v : string).

(** [mouseUp] only tells the delegate of the table, [has_mouseUp], about it. *)
Definition selected_mouseUp (has_mouseUp : bool) (s : tdv) : tdv := if has_mouseUp then notifySelectionChange s else s.

Definition tab_direction (e : event) : direction := match e with InsertBacktab => DLeft | _ => DRight end.

Definition handle (has_mouseUp : bool) (e : event) (s : tdv) : tdv * ret :=
  match currentFlameState s, e with
  | _, LoseKeyResponder => (willLoseKeyResponder s, RUndefined)
  | _, MenuClosed => (menuClosed s, RUndefined)
  | _, MenuSelected v => (didSelectMenuItem v s, RUndefined)
  | Loaded, MouseDown e => loaded_mouseDown e s
  | MouseIsDown, MouseMove t => mouseIsDown_mouseMove t s
  | MouseIsDown, MouseUp => (selected_mouseUp has_mouseUp (gotoFlameState Selected s), RUndefined)
  | Selected, MouseDown e => selected_mouseDown e s
  | Selected, MouseUp => (selected_mouseUp has_mouseUp s, RUndefined)
  | Selected, DoubleClick => ((startEdit s).1, RUndefined)
  | Selected, KeyPress ctrl key => keyPress ctrl key s
  | Selected, InsertNewline => startEdit s
  | Selected, (InsertTab | InsertBacktab) => move (tab_direction e) s
  | Selected, (DeleteBackward | DeleteForward) => (wipeCell s, RTrue)
  | Selected, Cancel => (willLoseKeyResponder s, RTrue)
  | Selected, Move d => move d s
  | Selected, MoveAndModify d => moveAndModifySelection d s
  | Selected, Paste value => (pasteValue value s, RUndefined)
  | SelectingReadOnly, Cancel => (gotoFlameState Selected s, RTrue)
  | SelectingReadOnly, InsertNewline => (invokeInSelected DDown s, RUndefined)
  | SelectingReadOnly, (InsertTab | InsertBacktab) => (invokeInSelected (tab_direction e) s, RUndefined)
  | SelectingReadOnly, Move d => (invokeInSelected d s, RUndefined)
  | SelectingReadOnly, DeleteBackward => (gotoFlameState Selected s, RTrue)
  | SelectingReadOnly, MouseDown e => readonly_mouseDown e s
  | Editing, Cancel => (gotoFlameState Selected s, RTrue)
  | Editing, Move (DLeft | DRight) => (s, RBrowserDefault)
  | Editing, InsertNewline => confirm_and_move DDown s
  | Editing, (InsertTab | InsertBacktab) => confirm_and_move (tab_direction e) s
  | Editing, MouseDown e => editing_mouseDown e s
  | _, _ => (s, NoMethod)
  end.
End view.

(** ** Batch updates

    The elements to redraw, with the turns that are scheduled for the next runs of the
    loop.  The counter tells outdated updates of the cells from the current one. *)
Record updater := Updater {
  _updateCounter : Z;
  redrawn : list ref;                                   (* in the order in which it is done *)
  scheduled : list (nat * option Z * list ref)          (* start, counter, cells *)
}.

(** The batch size is -1 without batches. *)
Definition _batchUpdate (maxUpdates : Z) (startIx : nat) (counter : option Z) (cellRefs : list ref) (u : updater) : updater :=
  if match counter with Some k => negb (k =? _updateCounter u)%Z | None => false end then u
  else
    let upTo := if (maxUpdates =? -1)%Z then length cellRefs else Z.to_nat maxUpdates in
    let now := take upTo (drop startIx cellRefs) in
    let i := startIx + length now in
    Updater (_updateCounter u) (redrawn u ++ now)
      (if (i <? length cellRefs)%nat then scheduled u ++ [(i, counter, cellRefs)] else scheduled u).

Definition manipulateCells (maxUpdates : Z) (cellRefs : list ref) (counter : option Z) (u : updater) : updater :=
  match cellRefs with [] => u | _ => _batchUpdate maxUpdates 0 counter cellRefs u end.

(** The counter is raised whether or not there are dirty cells. *)
Definition _cellsDidChange (maxUpdates : Z) (dirty : list ref) (u : updater) : updater :=
  let u1 := Updater (_updateCounter u + 1) (redrawn u) (scheduled u) in
  manipulateCells maxUpdates dirty (Some (_updateCounter u1)) u1.

Definition _updatingCellsDidChange (maxUpdates : Z) (cells : list ref) (u : updater) : updater :=
  manipulateCells maxUpdates cells None u.

(** The next turn of the run loop. *)
Definition run_next (maxUpdates : Z) (u : updater) : updater :=
  match scheduled u with
  | [] => u
  | (i, counter, refs) :: rest => _batchUpdate maxUpdates i counter refs (Updater (_updateCounter u) (redrawn u) rest)
  end.

(** ** Specification *)

(** What a delegate does that stores every value it is given. *)
Class Delegate (cellUpdated : ref -> string -> grid -> grid * bool) : Prop := {
  dg_stored p v d c : cell_at d p = Some c ->
    exists c', cell_at (cellUpdated p v d).1 p = Some c' /\ editableValue c' = v /\ isEditable c' = isEditable c /\
      isPastable c' = isPastable c /\ options c' = options c;
  dg_other p q v d : q <> p -> cell_at (cellUpdated p v d).1 q = cell_at d q;
  dg_shape p v d : rowCount (cellUpdated p v d).1 = rowCount d /\ columnCount (cellUpdated p v d).1 = columnCount d
}.

Definition starts_solid (s : string) : bool := match s with String a _ => negb (is_blank a) | EmptyString => false end.
Fixpoint ends_solid (s : string) : bool :=
  match s with
  | EmptyString => false
  | String a EmptyString => negb (is_blank a)
  | String _ s' => ends_solid s'
  end.

(** A text that can be a field: no separators in it. *)
Definition plain (s : string) : Prop := str_elem tab s = false /\ str_elem LF s = false /\ str_elem CR s = false.

(** ** Text lemmas *)

Lemma normalize_no_CR s : str_elem CR s = false -> normalize_lines s = s.
Proof.
  induction s as [|a s IH]; [done|]. cbn [str_elem normalize_lines].
  intros [Ha Hs]%orb_false_iff. rewrite bool_decide_eq_false in Ha. rewrite decide_False by done. by rewrite IH.
Qed.

Lemma strip_left_solid s : starts_solid s = true -> strip_left s = s.
Proof. destruct s as [|a s]; [done|]. cbn. by destruct (is_blank a). Qed.

Lemma strip_right_solid s : ends_solid s = true -> strip_right s = s.
Proof.
  induction s as [|a s IH]; [done|]. destruct s as [|b s]; [cbn; by destruct (is_blank a)|].
  intros H. change (ends_solid (String b s) = true) in H. cbn [strip_right] in IH |- *. rewrite IH by done. done.
Qed.

Lemma starts_append x y : starts_solid x = true -> starts_solid (String.append x y) = true.
Proof. by destruct x. Qed.

Lemma ends_append x c y : ends_solid y = true -> ends_solid (String.append x (String c y)) = true.
Proof.
  intros Hy. induction x as [|a x IH]; cbn; [by destruct y|]. rewrite <- IH at 1. by destruct x.
Qed.

Lemma join_starts c x l : starts_solid x = true -> starts_solid (Prelude.join c (x :: l)) = true.
Proof. destruct l; [done|]. cbn [Prelude.join]. apply starts_append. Qed.

Lemma join_ends c l x : ends_solid x = true -> ends_solid (Prelude.join c (l ++ [x])) = true.
Proof.
  intros Hx. induction l as [|y l IH]; [done|]. cbn [app Prelude.join]. destruct (l ++ [x]) as [|z t] eqn:E; [by destruct l|].
  by apply ends_append.
Qed.

Lemma str_elem_join c d l : c <> d -> Forall (fun x => str_elem c x = false) l -> str_elem c (Prelude.join d l) = false.
Proof.
  intros Hcd HF. induction HF as [|x l Hx HF IH]; [done|]. destruct l as [|y l]; [done|]. cbn [Prelude.join].
  rewrite str_elem_app, Hx. cbn [orb]. change (bool_decide (d = c) || str_elem c (Prelude.join d (y :: l)) = false).
  rewrite IH. by rewrite bool_decide_eq_false_2 by congruence.
Qed.

(** The text of a table of fields, read back. *)
Definition table_text (ll : list (list string)) : string := Prelude.join LF (Prelude.join tab <$> ll).

Lemma table_text_split (ll : list (list string)) :
  ll <> [] -> Forall (fun l => l <> [] /\ Forall plain l) ll ->
  (split_on tab <$> split_on LF (table_text ll)) = ll.
Proof.
  intros Hne HF. unfold table_text. rewrite split_join.
  - rewrite <- list_fmap_compose. induction HF as [|l ll [Hl Hp] HF IH]; [done|]. cbn [fmap list_fmap compose]. f_equal.
    + apply split_join; [done|]. eapply Forall_impl; [exact Hp|]. by intros x [].
    + destruct ll; [done|]. by apply IH.
  - by destruct ll.
  - apply Forall_fmap. eapply Forall_impl; [exact HF|]. intros l [_ Hp]. cbn. apply str_elem_join; [by vm_compute|].
    eapply Forall_impl; [exact Hp|]. by intros x (? & ? & ?).
Qed.

Lemma table_text_trim ll x l y ll' l' :
  ll = (x :: l) :: ll' -> last ll = Some (l' ++ [y]) -> Forall (fun l => Forall plain l) ll ->
  starts_solid x = true -> ends_solid y = true -> _trim (table_text ll) = table_text ll.
Proof.
  intros Hll Hlast HF Hx Hy. unfold _trim, table_text. rewrite normalize_no_CR.
  - rewrite strip_left_solid; [apply strip_right_solid|].
    + apply last_Some in Hlast as [t ->]. rewrite fmap_app. cbn. apply join_ends, join_ends. done.
    + rewrite Hll. cbn [fmap list_fmap]. apply join_starts, join_starts. done.
  - apply str_elem_join; [by vm_compute|]. apply Forall_fmap. eapply Forall_impl; [exact HF|]. intros t Ht. cbn.
    apply str_elem_join; [by vm_compute|]. eapply Forall_impl; [exact Ht|]. by intros z (? & ? & ?).
Qed.

(** ** Pasting *)

Section pasting.
Context (validate : cell -> string -> bool).
Context (cellUpdated : ref -> string -> grid -> grid * bool).
Context `{!Delegate cellUpdated}.

(** What storing values leaves as it was. *)
Record stored (s s' : tdv) : Prop := {
  so_state : currentFlameState s' = currentFlameState s;
  so_cell : selectedCell s' = selectedCell s;
  so_end : selectionEnd s' = selectionEnd s;
  so_field : fieldShown s' = fieldShown s;
  so_menu : menuOpen s' = menuOpen s;
  so_text : readOnlyText s' = readOnlyText s;
  so_shape : rowCount (data s') = rowCount (data s) /\ columnCount (data s') = columnCount (data s)
}.

Lemma stored_refl s : stored s s.
Proof. by split. Qed.
Lemma stored_trans s1 s2 s3 : stored s1 s2 -> stored s2 s3 -> stored s1 s3.
Proof. intros [? ? ? ? ? ? [? ?]] [? ? ? ? ? ? [? ?]]. split; try congruence. split; congruence. Qed.

Lemma validateAndSet_stored v p s : stored s (_validateAndSet validate cellUpdated v p s).1.
Proof.
  unfold _validateAndSet. destruct (match p with Some q => Some q | None => selectedCell s end) as [q|]; [|apply stored_refl].
  destruct (cell_at (data s) q) as [c|]; [|apply stored_refl]. destruct (String.eqb _ _); [apply stored_refl|].
  destruct (validate c v); [|apply stored_refl]. pose proof (dg_shape q v (data s)) as Hsh.
  destruct (cellUpdated q v (data s)) as [d b]. cbn in *. destruct b; by split.
Qed.

(** A valid value ends up in its cell, and nowhere else. *)
Lemma validateAndSet_ok v p c s : cell_at (data s) p = Some c -> validate c v = true ->
  let r := _validateAndSet validate cellUpdated v (Some p) s in
  r.2 = true /\ failed r.1 = failed s /\
  (exists c', cell_at (data r.1) p = Some c' /\ editableValue c' = v) /\
  forall q, q <> p -> cell_at (data r.1) q = cell_at (data s) q.
Proof.
  intros Hc Hv. cbv zeta. unfold _validateAndSet. rewrite Hc, Hv. destruct (String.eqb_spec (editableValue c) v) as [E|E].
  - split_and!; try done. by exists c.
  - destruct (dg_stored p v (data s) c Hc) as (c' & Hc' & Ev & _). pose proof (fun q => dg_other p q v (data s)) as Ho.
    destruct (cellUpdated p v (data s)) as [d b]. cbn in *. destruct b; cbn; (split_and!; [done|done|eauto|auto]).
Qed.

Definition paste_ok (d : grid) (p : ref) (v : string) : Prop :=
  p.1 < rowCount d /\ exists c, cell_at d p = Some c /\ isEditable c = true /\ isPastable c = true /\ options c = None /\ validate c v = true.

Lemma paste_field_ok p v s : paste_ok (data s) p v ->
  let s' := paste_field validate cellUpdated p v s in
  stored s s' /\ failed s' = failed s /\ (exists c', cell_at (data s') p = Some c' /\ editableValue c' = v) /\
  forall q, q <> p -> cell_at (data s') q = cell_at (data s) q.
Proof.
  intros (Hrow & c & Hc & He & Hp & Ho & Hv). cbv zeta. unfold paste_field.
  destruct (Nat.ltb_spec p.1 (rowCount (data s))); [|lia]. rewrite Hc, He, Hp, Ho. cbn [andb].
  pose proof (validateAndSet_stored v (Some p) s) as Hst. destruct (validateAndSet_ok v p c s Hc Hv) as (H1 & H2 & H3 & H4).
  destruct (_validateAndSet validate cellUpdated v (Some p) s) as [s1 ok]. cbn in *. by subst ok.
Qed.

Lemma paste_fields_ok writes : forall s, NoDup writes.*1 ->
  (forall p v, (p, v) ∈ writes -> paste_ok (data s) p v) ->
  let s' := foldl (fun s x => paste_field validate cellUpdated x.1 x.2 s) s writes in
  stored s s' /\ failed s' = failed s /\
  (forall p v, (p, v) ∈ writes -> exists c, cell_at (data s') p = Some c /\ editableValue c = v) /\
  (forall q, q ∉ writes.*1 -> cell_at (data s') q = cell_at (data s) q).
Proof.
  induction writes as [|[p v] writes IH]; intros s Hnd Hok; cbv zeta; cbn [foldl fst snd].
  - split_and!; [apply stored_refl|done|intros p v Hp; by apply elem_of_nil in Hp|done].
  - cbn in Hnd. apply NoDup_cons in Hnd as [Hp Hnd].
    destruct (paste_field_ok p v s (Hok p v ltac:(by left))) as (Hst & Hf & Hw & Ho). set (s1 := paste_field validate cellUpdated p v s) in *.
    assert (Hne : forall q w, (q, w) ∈ writes -> q <> p).
    { intros q w Hq ->. apply Hp. apply list_elem_of_fmap. by exists (p, w). }
    destruct (IH s1 Hnd) as (Hst' & Hf' & Hw' & Ho').
    { intros q w Hq. destruct (Hok q w ltac:(by right)) as (Hr & c & Hc & ?). destruct Hst as [_ _ _ _ _ _ [Hrows _]].
      split; [by rewrite Hrows|]. exists c. rewrite Ho by by eapply Hne. done. }
    split_and!; [by eapply stored_trans|congruence| |].
    + intros q w [[= -> ->]|Hq]%elem_of_cons; [|by apply Hw']. destruct Hw as (c & Hc & Hv). exists c. by rewrite Ho'.
    + intros q Hq. rewrite fmap_cons in Hq. apply not_elem_of_cons in Hq as [Hqp Hq]. rewrite Ho' by done. by apply Ho.
Qed.

(** *** The cells of a table of fields *)

Definition grid_fields (p : ref) (ll : list (list string)) : list (ref * string) :=
  concat (imap (fun i l => imap (fun j field => ((p.1 + i, p.2 + j), field)) l) ll).

Lemma pasted_fields_grid p value : pasted_fields p value = grid_fields p (split_on tab <$> split_on LF value).
Proof. unfold pasted_fields, grid_fields. by rewrite imap_fmap. Qed.

Lemma grid_fields_elem p ll q v :
  (q, v) ∈ grid_fields p ll <-> exists i j l, ll !! i = Some l /\ l !! j = Some v /\ q = (p.1 + i, p.2 + j).
Proof.
  unfold grid_fields. rewrite list_elem_of_In, in_concat. split.
  - intros (x & Hx & Hq). apply list_elem_of_In in Hx, Hq.
    apply list_elem_of_lookup in Hx as [i Hi]. apply lookup_imap_Some in Hi as (l & Hl & ->).
    apply list_elem_of_lookup in Hq as [j Hj]. apply lookup_imap_Some in Hj as (w & Hw & [= -> ->]). by exists i, j, l.
  - intros (i & j & l & Hl & Hw & ->). exists (imap (fun j field => ((p.1 + i, p.2 + j), field)) l).
    rewrite <- !list_elem_of_In. split; apply list_elem_of_lookup; [exists i|exists j]; apply lookup_imap_Some; eauto.
Qed.

Lemma grid_fields_NoDup p ll : NoDup (grid_fields p ll).*1.
Proof.
  unfold grid_fields. generalize 0 as k. assert (forall k, NoDup (concat (imap (fun i l => imap (fun j (field : string) => ((p.1 + (k + i), p.2 + j), field)) l) ll)).*1) as H.
  { induction ll as [|l ll IH]; intros k; [constructor|]. cbn [imap concat]. rewrite fmap_app. apply NoDup_app. split_and!.
    - rewrite fmap_imap. apply NoDup_alt. intros i j x Hi Hj.
      apply lookup_imap_Some in Hi as (? & _ & ->). apply lookup_imap_Some in Hj as (? & _ & E). cbn in E. injection E. lia.
    - intros q Hq Hq'. apply list_elem_of_fmap in Hq as ([q1 w] & -> & Hq). apply list_elem_of_lookup in Hq as [j Hj].
      apply lookup_imap_Some in Hj as (? & _ & [= -> ->]). apply list_elem_of_fmap in Hq' as ([q2 w2] & E & Hq').
      cbn in E. subst q2. rewrite list_elem_of_In, in_concat in Hq'. destruct Hq' as (t & Ht & Hq').
      apply list_elem_of_In in Ht, Hq'. apply list_elem_of_lookup in Ht as [i Hi]. apply lookup_imap_Some in Hi as (l' & _ & ->).
      apply list_elem_of_lookup in Hq' as [j' Hj']. apply lookup_imap_Some in Hj' as (? & _ & E). cbn in E. injection E. lia.
    - specialize (IH (S k)). erewrite imap_ext; [exact IH|]. intros i x _. cbn. by replace (k + S i) with (S (k + i)) by lia. }
  intros _. apply (H 0).
Qed.
End pasting.

(** *** The copied text *)

Lemma length_range_cells r1 r2 c1 c2 : length (range_cells (r1, r2, c1, c2)) = S r2 - r1.
Proof. unfold range_cells. by rewrite length_fmap, length_seq. Qed.

Lemma range_cells_row r1 r2 c1 c2 i : i < S r2 - r1 ->
  range_cells (r1, r2, c1, c2) !! i = Some ((fun j => (r1 + i, j)) <$> seq c1 (S c2 - c1)).
Proof. intros Hi. unfold range_cells. rewrite list_lookup_fmap, lookup_seq_lt by done. done. Qed.

(** The texts of a range of cells. *)
Definition range_texts (d : grid) (r : nat * nat * nat * nat) : list (list string) :=
  (fun row : list ref => copy_text d <$> row) <$> range_cells r.

Lemma range_texts_lookup d r1 r2 c1 c2 i j : i < S r2 - r1 -> j < S c2 - c1 ->
  exists l, range_texts d (r1, r2, c1, c2) !! i = Some l /\ l !! j = Some (copy_text d (r1 + i, c1 + j)).
Proof.
  intros Hi Hj. unfold range_texts. rewrite list_lookup_fmap, range_cells_row by done. cbn. eexists. split; [done|].
  by rewrite !list_lookup_fmap, lookup_seq_lt.
Qed.

Lemma range_texts_inv d r1 r2 c1 c2 i l : range_texts d (r1, r2, c1, c2) !! i = Some l ->
  i < S r2 - r1 /\ l = (fun j => copy_text d (r1 + i, j)) <$> seq c1 (S c2 - c1).
Proof.
  intros Hl. assert (i < S r2 - r1) as Hi.
  { apply lookup_lt_Some in Hl. unfold range_texts in Hl. by rewrite length_fmap, length_range_cells in Hl. }
  split; [done|]. unfold range_texts in Hl. rewrite list_lookup_fmap, range_cells_row in Hl by done. cbn in Hl. injection Hl as <-.
  by rewrite <- list_fmap_compose.
Qed.

Section texts.
Context (d : grid) (r1 r2 c1 c2 : nat) (Hr : r1 <= r2) (Hc : c1 <= c2).

Lemma range_texts_nonempty : range_texts d (r1, r2, c1, c2) <> [].
Proof.
  intros E. destruct (range_texts_lookup d r1 r2 c1 c2 0 0 ltac:(lia) ltac:(lia)) as (l & Hl & _). by rewrite E in Hl.
Qed.

Lemma range_texts_plain :
  (forall i j, i <= r2 - r1 -> j <= c2 - c1 -> plain (copy_text d (r1 + i, c1 + j))) ->
  Forall (fun l => l <> [] /\ Forall plain l) (range_texts d (r1, r2, c1, c2)).
Proof.
  intros Hok. apply list.Forall_forall. intros l (i & Hi)%list_elem_of_lookup. destruct (range_texts_inv _ _ _ _ _ _ _ Hi) as [Hi' ->]. split.
  - destruct (S c2 - c1) eqn:E; [lia|done].
  - apply Forall_fmap, list.Forall_forall. intros j Hj. cbn. apply elem_of_seq in Hj.
    specialize (Hok i (j - c1) ltac:(lia) ltac:(lia)). by replace (c1 + (j - c1)) with j in Hok by lia.
Qed.

Lemma range_texts_trim : Forall (fun l => l <> [] /\ Forall plain l) (range_texts d (r1, r2, c1, c2)) ->
  starts_solid (copy_text d (r1, c1)) = true -> ends_solid (copy_text d (r2, c2)) = true ->
  _trim (table_text (range_texts d (r1, r2, c1, c2))) = table_text (range_texts d (r1, r2, c1, c2)).
Proof.
  intros HF Hfirst Hlast.
  destruct (range_texts_lookup d r1 r2 c1 c2 0 0 ltac:(lia) ltac:(lia)) as (l0 & Hl0 & Hx).
  destruct (range_texts_lookup d r1 r2 c1 c2 (r2 - r1) (c2 - c1) ltac:(lia) ltac:(lia)) as (l1 & Hl1 & Hy).
  rewrite !Nat.add_0_r in Hx. replace (r1 + (r2 - r1)) with r2 in Hy by lia. replace (c1 + (c2 - c1)) with c2 in Hy by lia.
  pose proof (range_texts_inv _ _ _ _ _ _ _ Hl1) as [_ El1].
  assert (length (range_texts d (r1, r2, c1, c2)) = S r2 - r1) as Hlen by (unfold range_texts; by rewrite length_fmap, length_range_cells).
  assert (exists l', l1 = l' ++ [copy_text d (r2, c2)]) as [l' El'].
  { apply last_Some. rewrite last_lookup. assert (length l1 = S c2 - c1) as -> by (rewrite El1, length_fmap, length_seq; done).
    by replace (Nat.pred (S c2 - c1)) with (c2 - c1) by lia. }
  assert (last (range_texts d (r1, r2, c1, c2)) = Some l1) as Hlst.
  { rewrite last_lookup, Hlen. by replace (Nat.pred (S r2 - r1)) with (r2 - r1) by lia. }
  destruct (range_texts d (r1, r2, c1, c2)) as [|l ll'] eqn:Ell; [done|]. injection Hl0 as ->. destruct l0 as [|x l0]; [done|]. injection Hx as ->.
  eapply table_text_trim; [done|by rewrite <- El'| |done|done]. eapply Forall_impl; [exact HF|]. by intros ? [].
Qed.
End texts.

(** ** States and selection *)

Definition in_grid (s : tdv) (p : ref) : Prop := p.1 < rowCount (data s) /\ p.2 < columnCount (data s).

Definition valid_selection (s : tdv) : Prop :=
  exists p q, selectedCell s = Some p /\ selectionEnd s = Some q /\ in_grid s p /\ in_grid s q.

Definition selects (s : tdv) (P : cell -> Prop) : Prop := exists c, selectedDataCell s = Some c /\ P c.

Definition state_ok (st : flame_state) (s : tdv) : Prop :=
  match st with
  | Loaded => selectedCell s = None /\ selectionEnd s = None
  | MouseIsDown | Selected => valid_selection s
  | SelectingReadOnly => valid_selection s /\ selectionEnd s = selectedCell s /\ selects s (fun c => isEditable c = false /\ options c = None)
  | Editing => valid_selection s /\ selectionEnd s = selectedCell s /\ selects s (fun c => isEditable c = true)
  end.

(** Which cells are selected, and what is shown, in each state. *)
Record inv (s : tdv) : Prop := {
  inv_state : state_ok (currentFlameState s) s;
  inv_field : fieldShown s = true -> currentFlameState s = Editing;
  inv_text : is_Some (readOnlyText s) -> currentFlameState s = SelectingReadOnly;
  inv_menu : menuOpen s = true -> currentFlameState s = Editing
}.

(** The pointer is on cells of the table; an open menu takes all events, and is
    followed by the action of its item. *)
Definition event_ok (e : event) (s : tdv) : Prop :=
  match e with
  | MouseDown m => match target m with Some p => in_grid s p | None => True end
  | MouseMove t => match t with Some p => in_grid s p | None => True end
  | MenuClosed => menuOpen s = true
  | MenuSelected _ => currentFlameState s = Selected
  | _ => True
  end /\ (menuOpen s = true -> e = MenuClosed).

Section states.
Context (validate : cell -> string -> bool).
Context (cellUpdated : ref -> string -> grid -> grid * bool).
Context (showEditor showReadOnlyEditor : cell -> bool).
Context (allowSelection : bool).
Context `{!Delegate cellUpdated}.

Abbreviation goto := (gotoFlameState showEditor showReadOnlyEditor).
Abbreviation set := (_validateAndSet validate cellUpdated).

Record loose (s : tdv) : Prop := {
  lo_field : fieldShown s = true -> currentFlameState s = Editing;
  lo_text : is_Some (readOnlyText s) -> currentFlameState s = SelectingReadOnly;
  lo_menu : menuOpen s = false
}.

Lemma inv_loose s : inv s -> menuOpen s = false -> loose s.
Proof. intros [? ? ? ?] ?. by split. Qed.

Definition may_enter (new : flame_state) (s : tdv) : Prop := new <> Loaded -> state_ok new s.

Lemma goto_inv new s : loose s -> may_enter new s -> (currentFlameState s = new -> state_ok new s) -> inv (goto new s).
Proof.
  intros [Hf Ht Hm] Hen Hsame. unfold gotoFlameState. destruct (decide (currentFlameState s = new)) as [E|E].
  - specialize (Hsame E). split; [by rewrite E|done|done|by rewrite Hm].
  - assert (exists s1, exitState s = s1 /\ data s1 = data s /\ selectedCell s1 = selectedCell s /\ selectionEnd s1 = selectionEnd s /\
      fieldShown s1 = false /\ readOnlyText s1 = None /\ menuOpen s1 = false) as (s1 & -> & Hd & Hsc & Hse & Hfs & Hro & Hmo).
    { eexists. split; [done|]. unfold exitState.
      destruct (currentFlameState s) eqn:Est; cbn; (split_and!; try done);
        first [by destruct (fieldShown s); [specialize (Hf eq_refl)|] | by destruct (readOnlyText s); [specialize (Ht ltac:(eauto))|]]. }
    assert (Hst : new <> Loaded -> state_ok new (set_state new s1)).
    { intros Hn. specialize (Hen Hn). revert Hen. unfold state_ok, valid_selection, selects, selectedDataCell, in_grid. cbn.
      by rewrite Hd, Hsc, Hse. }
    destruct new; try specialize (Hst ltac:(done)); cbn [enterState currentFlameState set_state].
    1-3: by split; cbn; rewrite ?Hfs, ?Hro, ?Hmo; try done; intros [? ?].
    + destruct Hst as (Hv & He & c & Hc & H1 & H2). unfold enterState. cbn [currentFlameState set_state]. rewrite Hc.
      destruct (showReadOnlyEditor c); (split; cbn; rewrite ?Hfs, ?Hro, ?Hmo; try done); split_and!; try done; by exists c.
    + destruct Hst as (Hv & He & c & Hc & H1). unfold enterState. cbn [currentFlameState set_state]. rewrite Hc.
      destruct (showEditor c); [|destruct (options c)]; (split; cbn; rewrite ?Hfs, ?Hro, ?Hmo; try done);
        first [by intros [? ?] | split_and!; try done; by exists c].
Qed.

Lemma stored_valid s s' : stored s s' -> valid_selection s -> valid_selection s'.
Proof.
  intros [_ H1 H2 _ _ _ [H3 H4]] (p & q & Hp & Hq & [? ?] & [? ?]). exists p, q. unfold in_grid. rewrite H1, H2, H3, H4. by split_and!.
Qed.

Lemma stored_loose s s' : stored s s' -> loose s -> loose s'.
Proof. intros [H1 _ _ H4 H5 H6 _] [? ? ?]. split; rewrite ?H1, ?H4, ?H5, ?H6; done. Qed.

Lemma stored_inv s s' : stored s s' -> currentFlameState s = Selected -> inv s -> inv s'.
Proof.
  intros Hst Hs [H1 H2 H3 H4]. rewrite Hs in *. pose proof (stored_valid s s' Hst H1) as Hv. destruct Hst as [E1 _ _ E4 E5 E6 _].
  split; rewrite ?E1, ?E4, ?E5, ?E6, ?Hs; done.
Qed.

Lemma confirm_stored s : stored s (_confirmEdit validate cellUpdated s).1.
Proof.
  unfold _confirmEdit. pose proof (validateAndSet_stored validate cellUpdated (editField s) None s) as H.
  destruct (set (editField s) None s) as [s1 []]; cbn in *; [done|]. destruct H as [? ? ? ? ? ? ?]. by split.
Qed.

(** A value that is refused changes nothing but the mark of the edit field. *)
Lemma confirm_refused s s1 : _confirmEdit validate cellUpdated s = (s1, false) -> s1 = set_field (editField s) (fieldShown s) true s.
Proof.
  unfold _confirmEdit, _validateAndSet. destruct (selectedCell s) as [q|]; [|by intros [= <-]].
  destruct (cell_at (data s) q) as [c|]; [|by intros [= <-]]. destruct (String.eqb _ _); [done|].
  destruct (validate c (editField s)); [|by intros [= <-]]. by destruct (cellUpdated q (editField s) (data s)) as [d []].
Qed.

Lemma confirm_again s s1 : _confirmEdit validate cellUpdated s = (s1, false) -> (_confirmEdit validate cellUpdated s1).2 = false.
Proof.
  intros E. pose proof (confirm_refused s s1 E) as ->. revert E. unfold _confirmEdit, _validateAndSet. cbn.
  destruct (selectedCell s) as [q|]; [|done]. destruct (cell_at (data s) q) as [c|]; [|done]. destruct (String.eqb _ _); [done|].
  destruct (validate c (editField s)); [|done]. by destruct (cellUpdated q (editField s) (data s)) as [d []].
Qed.

Lemma select_inv t notify s : inv s -> currentFlameState s = Selected -> match t with Some p => in_grid s p | None => True end ->
  inv (selectCell allowSelection t notify s).1.
Proof.
  intros [H1 H2 H3 H4] Hs Ht. unfold selectCell. destruct t as [p|]; [|done]. destruct allowSelection; [|done]. rewrite Hs in *.
  assert (valid_selection (set_selection (Some p) (Some p) s)) as Hv by (exists p, p; by split_and!).
  destruct notify; split; cbn; rewrite ?Hs; done.
Qed.

Lemma neighbour_in_grid d s p : in_grid s p -> match neighbour d (data s) p with Some q => in_grid s q | None => True end.
Proof.
  destruct p as [i j]. unfold in_grid. cbn [fst snd]. intros [? ?]. unfold neighbour. destruct d.
  - destruct j; cbn [fst snd]; [done|lia].
  - destruct (Nat.ltb_spec (S j) (columnCount (data s))); cbn [fst snd]; [lia|done].
  - destruct i; cbn [fst snd]; [done|lia].
  - destruct (Nat.ltb_spec (S i) (rowCount (data s))); cbn [fst snd]; [lia|done].
Qed.

Lemma move_inv d s : inv s -> currentFlameState s = Selected -> inv (move allowSelection d s).1.
Proof.
  intros Hi Hs. unfold move. cbn. destruct (selectedCell s) as [p|] eqn:E; [|done]. apply select_inv; [done|done|].
  apply neighbour_in_grid. destruct Hi as [H _ _ _]. rewrite Hs in H. destruct H as (p' & q & Hp & _ & Hg & _). congruence.
Qed.

Lemma state_valid s : inv s -> currentFlameState s <> Loaded -> valid_selection s.
Proof. intros [H _ _ _] Hn. destruct (currentFlameState s); cbn in H; [done| | |by apply H..]; done. Qed.

Lemma goto_selected_inv s : loose s -> valid_selection s -> inv (goto Selected s).
Proof. intros Hl Hv. apply goto_inv; [done|intros _; exact Hv|intros _; exact Hv]. Qed.

Lemma goto_selected_state s : currentFlameState (goto Selected s) = Selected.
Proof. unfold gotoFlameState. by destruct (decide (currentFlameState s = Selected)). Qed.

Lemma goto_selected_grid s p : in_grid s p -> in_grid (goto Selected s) p.
Proof.
  unfold gotoFlameState. destruct (decide (currentFlameState s = Selected)); [done|]. cbn. unfold in_grid, exitState.
  by destruct (currentFlameState s).
Qed.

Lemma goto_loaded_inv s : inv s -> menuOpen s = false -> inv (goto Loaded s).
Proof. intros Hi Hm. apply goto_inv; [by apply inv_loose|done|]. intros E. destruct Hi as [H _ _ _]. by rewrite E in H. Qed.

Lemma invokeInSelected_inv d s : loose s -> valid_selection s -> inv (invokeInSelected showEditor showReadOnlyEditor allowSelection d s).
Proof. intros Hl Hv. unfold invokeInSelected. apply move_inv; [by apply goto_selected_inv|apply goto_selected_state]. Qed.

Lemma confirm_and_move_inv d s : inv s -> menuOpen s = false -> currentFlameState s = Editing ->
  inv (confirm_and_move validate cellUpdated showEditor showReadOnlyEditor allowSelection d s).1.
Proof.
  intros Hi Hm Hs. unfold confirm_and_move. pose proof (confirm_stored s) as Hst.
  destruct (_confirmEdit validate cellUpdated s) as [s1 ok] eqn:E. cbn in *. destruct ok.
  - apply invokeInSelected_inv; [by eapply stored_loose; [|apply inv_loose]|].
    eapply stored_valid; [done|]. apply state_valid; [done|]. by rewrite Hs.
  - apply confirm_refused in E as ->. destruct Hi as [H1 H2 H3 H4]. by split.
Qed.

Lemma loaded_mouseDown_inv e s : inv s -> currentFlameState s = Loaded -> menuOpen s = false ->
  match target e with Some p => in_grid s p | None => True end ->
  inv (loaded_mouseDown showEditor showReadOnlyEditor allowSelection e s).1.
Proof.
  intros Hi Hs Hm Ht. unfold loaded_mouseDown, selectCell. destruct (target e) as [p|]; [|done]. destruct allowSelection; [|done]. cbn.
  destruct (inv_loose s Hi Hm) as [L1 L2 L3]. apply goto_inv; [by split| |cbn; congruence]. intros _. exists p, p. by split_and!.
Qed.

Lemma startEdit_inv s : inv s -> menuOpen s = false -> currentFlameState s = Selected -> inv (startEdit showEditor showReadOnlyEditor s).1.
Proof.
  intros Hi Hm Hs. pose proof (state_valid s Hi ltac:(by rewrite Hs)) as (p & q & Hp & Hq & Hgp & Hgq).
  unfold startEdit. destruct (selectedDataCell s) as [c|] eqn:Hc; [|done].
  set (s1 := set_selection (selectedCell s) (selectedCell s) s).
  assert (Hl1 : loose s1) by (destruct (inv_loose s Hi Hm); by split).
  assert (Hv1 : valid_selection s1) by (exists p, p; by split_and!).
  assert (Hne : forall new, new <> Selected -> currentFlameState s1 = new -> state_ok new s1) by (intros new Hn E; cbn in E; congruence).
  destruct (isEditable c) eqn:He; [|destruct (options c) eqn:Ho; [done|]]; cbn [fst];
    (apply goto_inv; [done| |by apply Hne]); intros _; cbn; (split_and!; [done|done|]); by exists c.
Qed.

Lemma selected_mouseDown_inv e s : inv s -> menuOpen s = false -> currentFlameState s = Selected ->
  match target e with Some p => in_grid s p | None => True end ->
  inv (selected_mouseDown showEditor showReadOnlyEditor allowSelection e s).1.
Proof.
  intros Hi Hm Hs Ht. unfold selected_mouseDown.
  destruct (_ && on_td e && _); [by apply startEdit_inv|].
  destruct (shiftKey e && bool_decide (is_Some (target e))) eqn:Esh.
  - apply andb_true_iff in Esh as [_ [t Et]%bool_decide_eq_true]. rewrite Et in *.
    destruct Hi as [H1 H2 H3 H4]. rewrite Hs in *. destruct H1 as (p & q & Hp & Hq & Hgp & Hgq).
    split; cbn; rewrite ?Hs; try done. exists p, t. by split_and!.
  - destruct (in_selection e); [done|]. apply loaded_mouseDown_inv; [by apply goto_loaded_inv| | |].
    + unfold gotoFlameState. by rewrite decide_False by congruence.
    + unfold gotoFlameState. rewrite decide_False by congruence. cbn. unfold exitState. by rewrite Hs.
    + destruct (target e) as [p|]; [|done]. unfold gotoFlameState. rewrite decide_False by congruence. cbn.
      unfold exitState. by rewrite Hs.
Qed.

Lemma pasteFailed_stored v s : stored s (pasteFailed v s).
Proof. by split. Qed.

Lemma store_or_fail_stored v w p s :
  stored s (let '(s1, ok) := set v p s in if ok then s1 else pasteFailed w s1).
Proof.
  pose proof (validateAndSet_stored validate cellUpdated v p s) as H. destruct (set v p s) as [s1 []]; cbn in *; [done|].
  eapply stored_trans; [done|apply pasteFailed_stored].
Qed.

Lemma foldl_stored {A} (f : tdv -> A -> tdv) l : (forall s x, stored s (f s x)) -> forall s, stored s (foldl f s l).
Proof. intros Hf. induction l as [|x l IH]; intros s; [apply stored_refl|]. eapply stored_trans; [apply Hf|apply IH]. Qed.

Lemma pasteValue_stored v s : stored s (pasteValue validate cellUpdated v s).
Proof.
  unfold pasteValue. destruct (selectedCell s) as [p|]; [|apply stored_refl]. destruct (_ && _).
  - apply foldl_stored. intros s1 q. destruct (may_paste (data s1) q); [|apply stored_refl]. apply store_or_fail_stored.
  - apply foldl_stored. intros s1 [q field]. unfold paste_field. cbn [fst snd].
    destruct (Nat.ltb _ _); [|apply stored_refl]. destruct (cell_at (data s1) q) as [c|]; [|apply stored_refl].
    destruct (_ && _); [|apply stored_refl]. destruct (options c) as [o|]; [|apply store_or_fail_stored].
    destruct (list_find _ o) as [[? x]|]; [apply store_or_fail_stored|apply pasteFailed_stored].
Qed.

Lemma keep_inv s s' : inv s -> currentFlameState s' = currentFlameState s -> data s' = data s ->
  selectedCell s' = selectedCell s -> selectionEnd s' = selectionEnd s ->
  fieldShown s' = fieldShown s -> readOnlyText s' = readOnlyText s -> menuOpen s' = menuOpen s -> inv s'.
Proof.
  intros [H1 H2 H3 H4] E1 E2 E3 E4 E5 E6 E7. split; rewrite ?E1, ?E5, ?E6, ?E7; try done.
  revert H1. destruct (currentFlameState s); unfold state_ok, valid_selection, selects, selectedDataCell, in_grid; by rewrite ?E2, ?E3, ?E4.
Qed.

Lemma extend_inv s q : inv s -> currentFlameState s = Selected \/ currentFlameState s = MouseIsDown -> in_grid s q ->
  inv (set_selection (selectedCell s) (Some q) s).
Proof.
  intros [H1 H2 H3 H4] Hs Hq. assert (valid_selection s) as (p & q' & Hp & _ & Hgp & _) by (destruct Hs as [Hs|Hs]; by rewrite Hs in H1).
  assert (valid_selection (set_selection (selectedCell s) (Some q) s)) as Hv by (exists p, q; by split_and!).
  split; cbn; try done. by destruct Hs as [-> | ->].
Qed.

Lemma didSelectMenuItem_inv v s : inv s -> currentFlameState s = Selected ->
  inv (didSelectMenuItem validate cellUpdated showEditor showReadOnlyEditor allowSelection v s).
Proof.
  intros Hi Hs. unfold didSelectMenuItem. set (s0 := set_field v (fieldShown s) (fieldInvalid s) s).
  assert (Hi0 : inv s0) by (by apply (keep_inv s)). pose proof (confirm_stored s0) as Hst.
  assert (currentFlameState (_confirmEdit validate cellUpdated s0).1 = Selected) as E by (by rewrite (so_state _ _ Hst)).
  rewrite E. apply move_inv; [|done]. by eapply stored_inv.
Qed.

Lemma editing_mouseDown_inv e s : inv s -> menuOpen s = false -> currentFlameState s = Editing ->
  match target e with Some p => in_grid s p | None => True end ->
  inv (editing_mouseDown validate cellUpdated showEditor showReadOnlyEditor allowSelection e s).1.
Proof.
  intros Hi Hm Hs Ht. unfold editing_mouseDown. destruct (target e) as [p|]; [|done].
  pose proof (confirm_stored s) as Hst. destruct (_confirmEdit validate cellUpdated s) as [s1 ok] eqn:E. cbn [fst] in *. destruct ok; cbn [fst].
  - apply select_inv; [|apply goto_selected_state|].
    + apply goto_selected_inv; [by eapply stored_loose; [|apply inv_loose]|].
      eapply stored_valid; [done|]. apply state_valid; [done|]. by rewrite Hs.
    + apply goto_selected_grid. destruct Hst as [_ _ _ _ _ _ [E1 E2]]. unfold in_grid. by rewrite E1, E2.
  - pose proof (confirm_again s s1 E) as Hagain. apply confirm_refused in E as ->. set (s1 := set_field (editField s) (fieldShown s) true s) in *.
    assert (Hi1 : inv s1) by (by apply (keep_inv s)). destruct (_confirmEdit validate cellUpdated s1) as [s2 ok2] eqn:E2.
    cbn in Hagain. subst ok2. cbn [fst]. apply confirm_refused in E2 as ->. by apply (keep_inv s1).
Qed.

Lemma mouseMove_inv t s : inv s -> currentFlameState s = MouseIsDown -> match t with Some p => in_grid s p | None => True end ->
  inv (mouseIsDown_mouseMove t s).1.
Proof.
  intros Hi Hs Ht. unfold mouseIsDown_mouseMove. destruct (decide _); [done|]. cbn [fst]. destruct t as [p|]; [|by apply (keep_inv s)].
  eapply (keep_inv (set_selection (selectedCell s) (Some p) s)); [|done..]. apply extend_inv; [done|by right|done].
Qed.

Lemma modify_inv d s : inv s -> currentFlameState s = Selected -> inv (moveAndModifySelection d s).1.
Proof.
  intros Hi Hs. unfold moveAndModifySelection. destruct (state_valid s Hi ltac:(by rewrite Hs)) as (p & q & _ & Hq & _ & Hg).
  rewrite Hq. cbn [mbind option_bind]. pose proof (neighbour_in_grid d s q Hg) as Hn.
  destruct (neighbour d (data s) q) as [r|]; [|done]. cbn [modifySelection fst].
  eapply (keep_inv (set_selection (selectedCell s) (Some r) s)); [|done..]. apply extend_inv; [done|by left|done].
Qed.

Lemma wipeCell_inv s : inv s -> currentFlameState s = Selected -> inv (wipeCell validate cellUpdated s).
Proof.
  intros Hi Hs. unfold wipeCell. destruct (selectedDataCell s) as [c|]; [|done]. destruct (isEditable c); [|done].
  apply (stored_inv s); [by apply validateAndSet_stored|done|done].
Qed.

Lemma keyPress_inv ctrl key s : inv s -> menuOpen s = false -> currentFlameState s = Selected ->
  inv (keyPress showEditor showReadOnlyEditor ctrl key s).1.
Proof.
  intros Hi Hm Hs. unfold keyPress. destruct ctrl; [done|]. destruct (selectedDataCell s) as [c|]; [|done].
  destruct (isEditable c); [|done]. cbn [negb]. destruct (starts_edit key); [|done]. cbn [fst].
  apply startEdit_inv; [by apply (keep_inv s)|done|done].
Qed.
End states.

(** ** Batches *)

Lemma run_idle maxUpdates c R k : Nat.iter k (run_next maxUpdates) (Updater c R []) = Updater c R [].
Proof. induction k as [|k IH]; [done|]. change (run_next maxUpdates (Nat.iter k (run_next maxUpdates) (Updater c R [])) = Updater c R []). by rewrite IH. Qed.

Lemma batches_done maxUpdates counter refs c : (maxUpdates = -1 \/ 0 < maxUpdates)%Z -> match counter with Some k => k = c | None => True end ->
  forall k i R, length refs - i <= k ->
  Nat.iter k (run_next maxUpdates) (_batchUpdate maxUpdates i counter refs (Updater c R [])) = Updater c (R ++ drop i refs) [].
Proof.
  intros Hmax Hc.
  assert (Hstep : forall i R, exists n, _batchUpdate maxUpdates i counter refs (Updater c R []) =
    Updater c (R ++ take n (drop i refs)) (if (i + length (take n (drop i refs)) <? length refs)%nat then [(i + length (take n (drop i refs)), counter, refs)] else []) /\
    (length refs - i <= n \/ 0 < n)).
  { intros i R. unfold _batchUpdate. cbn [_updateCounter redrawn scheduled].
    assert (match counter with Some k => negb (k =? c)%Z | None => false end = false) as -> by (destruct counter; [subst; by rewrite Z.eqb_refl|done]).
    exists (if (maxUpdates =? -1)%Z then length refs else Z.to_nat maxUpdates). split; [done|].
    destruct (Z.eqb_spec maxUpdates (-1)); [left; lia|right; lia]. }
  induction k as [|k IH]; intros i R Hk; destruct (Hstep i R) as (n & -> & Hn).
  - assert (drop i refs = []) as -> by (apply drop_ge; lia). rewrite take_nil. cbn [length Nat.iter nat_rect].
    destruct (Nat.ltb_spec (i + 0) (length refs)); [lia|done].
  - rewrite Nat.iter_succ_r. destruct (Nat.ltb_spec (i + length (take n (drop i refs))) (length refs)) as [Hlt|Hge].
    + cbn [run_next scheduled _updateCounter redrawn]. rewrite length_take, length_drop in *. rewrite IH by lia. f_equal.
      rewrite <- app_assoc. f_equal. rewrite <- drop_drop. destruct (decide (n <= length refs - i)) as [Hle|Hgt].
      * rewrite Nat.min_l by done. apply take_drop.
      * lia.
    + cbn [run_next scheduled]. rewrite run_idle. f_equal. f_equal. rewrite length_take, length_drop in Hge. apply take_ge. rewrite length_drop. lia.
Qed.

(** ** Properties *)

Section properties.
Context (validate : cell -> string -> bool).
Context (cellUpdated : ref -> string -> grid -> grid * bool).

(** C7. In every state of the table, whatever mouse or keyboard event comes: nothing is
    selected exactly in the state [loaded]; in the other states both ends of the
    selection are cells of the table; only a cell that may be edited is ever being
    edited, and only one that may not, without options, has its text selected; and the
    edit field, the menu and the text of a read-only cell are shown in their states only. *)
Theorem table_state_invariant (showEditor showReadOnlyEditor : cell -> bool) (allowSelection has_mouseUp : bool)
    `{!Delegate cellUpdated} e s :
  inv s -> event_ok e s ->
  inv (handle validate cellUpdated showEditor showReadOnlyEditor allowSelection has_mouseUp e s).1.
Proof.
  intros Hi [He Hmenu]. unfold handle.
  destruct (menuOpen s) eqn:Hm.
  { specialize (Hmenu eq_refl) as ->. assert (inv (menuClosed showEditor showReadOnlyEditor s)) as H; [|by destruct (currentFlameState s)].
    assert (currentFlameState s = Editing) as Hs by (by apply (inv_menu s Hi)). destruct (state_valid s Hi ltac:(by rewrite Hs)) as (p & q & ?).
    destruct Hi as [H1 H2 H3 H4]. apply goto_selected_inv; [by split|]. by exists p, q. }
  assert (Hmenu' : e <> MenuClosed) by (by intros ->). clear Hmenu.
  pose proof (inv_loose s Hi Hm) as Hl. assert (HL := goto_loaded_inv showEditor showReadOnlyEditor s Hi Hm).
  assert (Hval := state_valid s Hi).
  assert (HG : currentFlameState s <> Loaded -> inv (gotoFlameState showEditor showReadOnlyEditor Selected s))
    by (intros Hn; apply goto_selected_inv; [done|by apply Hval]).
  assert (HI : currentFlameState s <> Loaded -> forall d, inv (invokeInSelected showEditor showReadOnlyEditor allowSelection d s))
    by (intros Hn d; apply invokeInSelected_inv; [done|by apply Hval]).
  assert (HU : forall s', inv s' -> inv (selected_mouseUp has_mouseUp s'))
    by (intros s' Hi'; unfold selected_mouseUp; destruct has_mouseUp; [by apply (keep_inv s')|done]).
  destruct e; try (destruct (currentFlameState s) eqn:Hs; exact HL); try done;
    destruct (currentFlameState s) eqn:Hs; cbn [fst]; try exact Hi;
    try (by apply HI); try (by apply HG); try (by apply HU); try (by apply HU, HG).
  all: first [ done | by apply loaded_mouseDown_inv | by apply selected_mouseDown_inv | by apply editing_mouseDown_inv
    | by apply mouseMove_inv | by apply startEdit_inv | by apply keyPress_inv | by apply confirm_and_move_inv | by apply move_inv
    | by apply wipeCell_inv | exact HL | by destruct d | by apply modify_inv | by apply didSelectMenuItem_inv
    | apply (stored_inv s); [by apply pasteValue_stored|done|done] | idtac ].
  cbn in He. unfold readonly_mouseDown. destruct (target e) as [p|] eqn:E; [|done]. cbn [fst].
  apply select_inv; [by apply HG|apply goto_selected_state|]. by apply goto_selected_grid.
Qed.


(** C1. What is copied from a range of cells and pasted at a cell of this or another table
    arrives: each cell of the target of the same place in the range holds the text of
    the source cell, nothing is reported as failed, and no other cell changes.  The
    texts hold no separators, the first one does not begin and the last one does not end
    with white space, and the cells of the target take what they are given. *)
Theorem copy_paste_roundtrip `{!Delegate cellUpdated} s1 s2 r1 r2 c1 c2 a b :
  selected_range s1 = Some (r1, r2, c1, c2) ->
  selectedCell s2 = Some (a, b) -> selectionEnd s2 = selectedCell s2 ->
  (forall i j, i <= r2 - r1 -> j <= c2 - c1 ->
     plain (copy_text (data s1) (r1 + i, c1 + j)) /\
     paste_ok validate (data s2) (a + i, b + j) (copy_text (data s1) (r1 + i, c1 + j))) ->
  starts_solid (copy_text (data s1) (r1, c1)) = true -> ends_solid (copy_text (data s1) (r2, c2)) = true ->
  let s' := pasteValue validate cellUpdated (valueForCopy s1) s2 in
  (forall i j, i <= r2 - r1 -> j <= c2 - c1 ->
     exists c, cell_at (data s') (a + i, b + j) = Some c /\ editableValue c = copy_text (data s1) (r1 + i, c1 + j)) /\
  (forall q, (forall i j, i <= r2 - r1 -> j <= c2 - c1 -> q <> (a + i, b + j)) -> cell_at (data s') q = cell_at (data s2) q) /\
  failed s' = failed s2 /\ currentFlameState s' = currentFlameState s2 /\ selectedCell s' = selectedCell s2.
Proof.
  intros Hr Hsel Hend Hok Hfirst Hlast. assert (r1 <= r2 /\ c1 <= c2) as [Hr12 Hc12].
  { unfold selected_range in Hr. destruct (selectedCell s1) as [p|]; [|done]. cbn in Hr. destruct (selectionEnd s1) as [q|]; [|done].
    cbn in Hr. injection Hr. lia. }
  set (ll := range_texts (data s1) (r1, r2, c1, c2)).
  assert (valueForCopy s1 = table_text ll) as Htext.
  { unfold valueForCopy, selected_rows. by rewrite Hr. }
  assert (Hinv : forall i l, ll !! i = Some l -> i < S r2 - r1 /\ l = (fun j => copy_text (data s1) (r1 + i, j)) <$> seq c1 (S c2 - c1))
    by (intros i l; apply range_texts_inv).
  assert (HF : Forall (fun l => l <> [] /\ Forall plain l) ll)
    by (apply range_texts_plain; [done..|]; intros i j Hi Hj; by apply Hok).
  assert (Hll : ll <> []) by (by apply range_texts_nonempty).
  assert (Htrim : _trim (valueForCopy s1) = table_text ll) by (rewrite Htext; by apply range_texts_trim).
  cbv zeta. unfold pasteValue. rewrite Htrim, Hsel. rewrite Hend, Hsel.
  rewrite bool_decide_eq_true_2 by done. rewrite andb_false_r. rewrite pasted_fields_grid, table_text_split by done.
  assert (Helem : forall q v, (q, v) ∈ grid_fields (a, b) ll <-> exists i j, i <= r2 - r1 /\ j <= c2 - c1 /\ q = (a + i, b + j) /\ v = copy_text (data s1) (r1 + i, c1 + j)).
  { intros q v. rewrite grid_fields_elem. split.
    - intros (i & j & l & Hl & Hv & ->). destruct (Hinv i l Hl) as [Hi ->]. rewrite list_lookup_fmap in Hv.
      destruct (seq c1 (S c2 - c1) !! j) as [k|] eqn:E; [|done]. apply lookup_seq in E as [-> Hj]. cbn in Hv. injection Hv as <-.
      exists i, j. split_and!; [lia|lia|done|done].
    - intros (i & j & Hi & Hj & -> & ->). destruct (range_texts_lookup (data s1) r1 r2 c1 c2 i j ltac:(lia) ltac:(lia)) as (l & Hl & Hv).
      by exists i, j, l. }
  destruct (paste_fields_ok validate cellUpdated (grid_fields (a, b) ll) s2 (grid_fields_NoDup (a, b) ll)) as (Hst & Hf & Hw & Ho).
  { intros p v (i & j & Hi & Hj & -> & ->)%Helem. by apply Hok. }
  split_and!; [| |done|by apply Hst|by rewrite (so_cell _ _ Hst)].
  - intros i j Hi Hj. apply Hw, Helem. by exists i, j.
  - intros q Hq. apply Ho. intros ([p v] & -> & (i & j & Hi & Hj & E & _)%Helem)%list_elem_of_fmap. cbn in *. by apply (Hq i j).
Qed.


(** When the dirty cells of a table change and do not change again, all of them are
    redrawn, each once and in their order, in batches of the given size or all at once,
    and no further turn of the run loop is scheduled after as many turns as there are
    cells; the same holds of the cells that are marked as being updated, whatever other
    changes come. *)
Theorem batches_redraw_all maxUpdates refs u k :
  (maxUpdates = -1 \/ 0 < maxUpdates)%Z -> scheduled u = [] -> length refs <= k ->
  Nat.iter k (run_next maxUpdates) (_cellsDidChange maxUpdates refs u) = Updater (_updateCounter u + 1) (redrawn u ++ refs) [] /\
  Nat.iter k (run_next maxUpdates) (_updatingCellsDidChange maxUpdates refs u) = Updater (_updateCounter u) (redrawn u ++ refs) [].
Proof.
  intros Hmax Hs Hk. destruct u as [c R q]. cbn in Hs. subst q. unfold _cellsDidChange, _updatingCellsDidChange, manipulateCells. cbn [_updateCounter redrawn scheduled].
  destruct refs as [|x refs].
  - rewrite app_nil_r. split; apply run_idle.
  - split; rewrite batches_done; try done; cbn [drop length] in *; lia.
Qed.
End properties.

(** ** Witnesses *)

Definition ex_cell (v : string) : option cell := Some (Cell v v true true true None).
Definition ex_readonly (v : string) : option cell := Some (Cell v v false true true None).
Definition ex_choice (v : string) : option cell := Some (Cell v v true true true (Some [("Yes", "1"); ("No", "0")])).
Definition ex_grid : grid :=
  [[ex_cell "a"; ex_cell "b"; ex_cell "c"]; [ex_cell "d"; ex_cell "e"; ex_cell "f"]; [ex_choice "1"; ex_readonly "r"; ex_cell "x"]].

Definition ex_table (st : flame_state) (p q : option ref) : tdv :=
  Tdv ex_grid st p q None "" false false false None [] None [] [].

(** A delegate that stores each value and says the cell is dirty. *)
Definition put (v : string) (c : cell) : cell := Cell v v (isEditable c) (isCopyable c) (isPastable c) (options c).
Definition ex_cellUpdated (p : ref) (v : string) (d : grid) : grid * bool := (alter (alter (fmap (put v)) p.2) p.1 d, true).
Definition ex_validate (_ : cell) (_ : string) : bool := true.

Lemma ex_cell_at d p q v :
  cell_at (ex_cellUpdated p v d).1 q = (if decide (q = p) then put v <$> cell_at d p else cell_at d q).
Proof.
  destruct p as [i j], q as [i' j']. unfold cell_at, ex_cellUpdated. cbn [fst snd]. rewrite list_lookup_alter.
  destruct (decide (i = i')) as [<-|Hi].
  - destruct (d !! i) as [r|]; cbn; [|by destruct (decide _)]. rewrite list_lookup_alter.
    destruct (decide (j = j')) as [<-|Hj]; [rewrite decide_True by done|rewrite decide_False by congruence; done].
    by destruct (r !! j) as [[c|]|].
  - by rewrite decide_False by congruence.
Qed.

Lemma ex_delegate : Delegate ex_cellUpdated.
Proof.
  split.
  - intros p v d c Hc. rewrite ex_cell_at, decide_True, Hc by done. by exists (put v c).
  - intros p q v d Hq. by rewrite ex_cell_at, decide_False.
  - intros [i j] v d. unfold rowCount, columnCount, ex_cellUpdated. cbn [fst snd]. split; [apply length_alter|].
    destruct d as [|r d]; [done|]. destruct i; cbn; [apply length_alter|done].
Qed.

(** Two cells by two, from the first cell, to the second row and column. *)
Lemma copy_paste_roundtrip_witness :
  let s1 := ex_table Selected (Some (0, 0)) (Some (1, 0)) in
  let s2 := ex_table Selected (Some (0, 2)) (Some (0, 2)) in
  let s' := pasteValue ex_validate ex_cellUpdated (valueForCopy s1) s2 in
  (forall i j, i <= 1 - 0 -> j <= 0 - 0 ->
     exists c, cell_at (data s') (0 + i, 2 + j) = Some c /\ editableValue c = copy_text (data s1) (0 + i, 0 + j)) /\
  (forall q, (forall i j, i <= 1 - 0 -> j <= 0 - 0 -> q <> (0 + i, 2 + j)) -> cell_at (data s') q = cell_at (data s2) q) /\
  failed s' = failed s2 /\ currentFlameState s' = currentFlameState s2 /\ selectedCell s' = selectedCell s2.
Proof.
  apply (copy_paste_roundtrip ex_validate ex_cellUpdated (Delegate0 := ex_delegate)
    (ex_table Selected (Some (0, 0)) (Some (1, 0))) (ex_table Selected (Some (0, 2)) (Some (0, 2))) 0 1 0 0 0 2);
    [reflexivity|reflexivity|reflexivity| |reflexivity|reflexivity].
  intros i j Hi Hj. assert (j = 0) as -> by lia.
  destruct i as [|[|i]]; [| |lia]; (split; [by vm_compute|]); (split; [cbn; lia|eexists; split; [reflexivity|by vm_compute]]).
Defined.

Lemma table_state_invariant_witness :
  inv (ex_table Selected (Some (0, 0)) (Some (1, 1))) /\
  inv (handle ex_validate ex_cellUpdated (fun _ => false) (fun _ => false) true true (KeyPress false "x"%char)
         (ex_table Selected (Some (0, 0)) (Some (1, 1)))).1.
Proof.
  assert (inv (ex_table Selected (Some (0, 0)) (Some (1, 1)))) as Hi.
  { split; [|done|by intros []|done]. exists (0, 0), (1, 1). unfold in_grid. cbn. split_and!; (done || lia). }
  split; [exact Hi|].
  apply (table_state_invariant ex_validate ex_cellUpdated (fun _ => false) (fun _ => false) true true (Delegate0 := ex_delegate)); [exact Hi|by split].
Defined.

Definition ex_updater : updater := Updater 0 [] [].

Lemma batches_redraw_all_witness :
  let refs := [(0, 0); (0, 1); (1, 0); (1, 1); (2, 2)] in
  Nat.iter 5 (run_next 2) (_cellsDidChange 2 refs ex_updater) = Updater (_updateCounter ex_updater + 1) (redrawn ex_updater ++ refs) [] /\
  Nat.iter 5 (run_next 2) (_updatingCellsDidChange 2 refs ex_updater) = Updater (_updateCounter ex_updater) (redrawn ex_updater ++ refs) [].
Proof. apply (batches_redraw_all 2 [(0, 0); (0, 1); (1, 0); (1, 1); (2, 2)] ex_updater 5); [by right|reflexivity|cbn; lia]. Defined.

(** ** Findings *)

(** A second change of the dirty cells, even an empty one, ends the first update: the
    cells of its later batches are never redrawn, and have left [dirtyCells]. *)
Lemma update_lost :
  redrawn (Nat.iter 5 (run_next 2) (_cellsDidChange 2 [] (_cellsDidChange 2 [(0, 0); (0, 1); (1, 0); (1, 1); (2, 2)] ex_updater))) = [(0, 0); (0, 1)].
Proof. vm_compute. reflexivity. Qed.

(** A key typed on a cell with options opens its menu, and the key is kept; the next
    cell that is edited with Enter starts with the key instead of its value. *)
Definition after (l : list event) (s : tdv) : tdv :=
  foldl (fun s e => (handle ex_validate ex_cellUpdated (fun _ => false) (fun _ => false) true true e s).1) s l.

Lemma typed_key_is_kept :
  editField (after [KeyPress false "q"%char; MenuClosed; Move DUp; InsertNewline] (ex_table Selected (Some (2, 0)) (Some (2, 0)))) = "q" /\
  editField (after [Move DUp; InsertNewline] (ex_table Selected (Some (2, 0)) (Some (2, 0)))) = "d".
Proof. split; vm_compute; reflexivity. Qed.
