(* ===== verification/Clipboard.v ===== *)
(** * The element that holds copied text ([views/table_data_view.js])

    With Control held down, a table puts the text of its selection into a text area that has
    the focus, where the browser copies it from and pastes to; the pasted text reaches the
    selected cells a little later.  The selection itself, and what is copied and pasted, are
    those of [TableDataView]. *)

From S2P Require Import Prelude.
From S2P Require Import TableDataView.
Open Scope string_scope.
Open Scope list_scope.
Open Scope flame_scope.

Record clipboard := Clipboard {
  table : tdv;
  textareas : list string;        (* in the container, with the values they were created with *)
  visible : bool;
  corner : option (Z * Z);
  later : list string             (* texts whose [pasteValue] is due *)
}.

Definition set_table t s := Clipboard t (textareas s) (visible s) (corner s) (later s).

(** [clipboardContainer.empty().hide()] *)
Definition clear_container s := Clipboard (table s) [] false (corner s) (later s).

(** jQuery's [hasClass] looks for the name between blanks. *)
Definition class_blank (c : Ascii.ascii) : Ascii.ascii := if is_blank c then " "%char else c.
Definition hasClass (className name : string) : bool :=
  let padded s := String " " (String.append s " ") in
  match String.index 0 (padded name)
          (padded (String.string_of_list_ascii (class_blank <$> String.list_ascii_of_string className))) with
  | Some _ => true
  | None => false
  end.

Section clipboard.
Context (validate : cell -> string -> bool).
Context (cellUpdated : ref -> string -> grid -> grid * bool).
Context (showEditor showReadOnlyEditor : cell -> bool).
Context (allowSelection has_mouseUp : bool).
(** Whether the view is in the document. *)
Context (inDOM : bool).

Abbreviation table_handle := (handle validate cellUpdated showEditor showReadOnlyEditor allowSelection has_mouseUp).

(** [exitState] of the state [selected]; no handler leaves that state and returns to it. *)
Definition exit_selected (before : tdv) (s : clipboard) : clipboard :=
  if bool_decide (currentFlameState before = Selected /\ currentFlameState (table s) <> Selected) && inDOM
  then clear_container s else s.

Definition handle_event (e : event) (s : clipboard) : clipboard * ret :=
  let '(t, r) := table_handle e (table s) in (exit_selected (table s) (set_table t s), r).

(** [keyDown] of the state [selected].  [command] is what the key is bound to, [parent] what the
    parent views make of a key that is not handled. *)
Definition keyDown (ctrl : bool) (command : option event) (parent : bool) (position scroll : Z * Z) (s : clipboard) : clipboard * ret :=
  if ctrl && bool_decide (is_Some (selectedDataCell (table s))) then
    (Clipboard (table s) [valueForCopy (table s)] true (Some (position.1 + scroll.1, position.2 + scroll.2)%Z) (later s), RFalse)
  else
    let '(s1, r) := match command with Some e => handle_event e s | None => (s, RFalse) end in
    (s1, ret_of (negb (match r with RBrowserDefault => true | RTrue => false | _ => parent end))).

(** The [paste] event of a text area. *)
Definition paste (pastedValue : string) (s : clipboard) : clipboard :=
  match textareas s with
  | [] => s
  | _ :: _ => Clipboard (table s) (textareas s) (visible s) (corner s) (later s ++ [pastedValue])
  end.

(** The first timer that is due; it does not matter in which state the table is by then. *)
Definition run_later (s : clipboard) : outcome clipboard :=
  match later s with
  | [] => Ok s
  | v :: l =>
      match selectedCell (table s) with
      | Some _ => Ok (Clipboard (pasteValue validate cellUpdated v (table s)) (textareas s) (visible s) (corner s) l)
      | None => Throw "TypeError"
      end
  end.

Definition keyUp (className : string) (s : clipboard) : clipboard * ret :=
  if hasClass className "clipboard-container textarea" then (clear_container s, RTrue) else (s, RFalse).

(** What happens to the table: keys and their releases, all other events, pasting, timers. *)
Inductive input :=
| KeyDown (ctrl : bool) (command : option event) (parent : bool) (position scroll : Z * Z)
| KeyUp (className : string)
| Other (e : event)
| PasteInto (text : string)
| Timer.

Definition step (i : input) (s : clipboard) : clipboard :=
  match i with
  | KeyDown ctrl command parent position scroll =>
      if decide (currentFlameState (table s) = Selected) then (keyDown ctrl command parent position scroll s).1
      else match command with Some e => (handle_event e s).1 | None => s end
  | KeyUp className => if decide (currentFlameState (table s) = Selected) then (keyUp className s).1 else s
  | Other e => (handle_event e s).1
  | PasteInto text => paste text s
  | Timer =>
      match run_later s with
      | Ok s' => s'
      | Throw _ => Clipboard (table s) (textareas s) (visible s) (corner s) (tail (later s))
      end
  end.

Definition run (l : list input) (s : clipboard) : clipboard := foldl (fun s i => step i s) s l.

Lemma run_cons i l s : run (i :: l) s = run l (step i s).
Proof. done. Qed.
Lemma run_app l1 l2 s : run (l1 ++ l2) s = run l2 (run l1 s).
Proof. apply foldl_app. Qed.

(** ** The container *)

Definition container_ok (s : clipboard) : Prop :=
  match textareas s with
  | [] => visible s = false
  | [_] => visible s = true /\ currentFlameState (table s) = Selected
  | _ => False
  end.

Lemma handle_event_ok e s : inDOM = true -> container_ok s -> container_ok (handle_event e s).1.
Proof.
  intros HD H. unfold handle_event, exit_selected, container_ok in *. destruct (table_handle e (table s)) as [t r]. cbn.
  rewrite HD, andb_true_r. case_bool_decide as E; [done|]. cbn. destruct (textareas s) as [|v [|]]; [done| |done].
  destruct H as [Hv Hs]. split; [done|]. destruct (decide (currentFlameState t = Selected)); [done|]. by destruct E.
Qed.

Lemma paste_state `{!Delegate cellUpdated} v t : currentFlameState (pasteValue validate cellUpdated v t) = currentFlameState t.
Proof. by destruct (pasteValue_stored validate cellUpdated v t). Qed.

Lemma clip_step_ok `{!Delegate cellUpdated} i s : inDOM = true -> container_ok s -> container_ok (step i s).
Proof.
  intros HD H. destruct i as [ctrl command parent p q|c|e|v|]; cbn [step].
  - destruct (decide _) as [Hs|Hs].
    + unfold keyDown. case_match; [by cbn|]. destruct command as [e|]; [|done].
      pose proof (handle_event_ok e s HD H) as He. by destruct (handle_event e s).
    + destruct command; [by apply handle_event_ok|done].
  - destruct (decide _); [|done]. unfold keyUp. by case_match.
  - by apply handle_event_ok.
  - unfold paste, container_ok in *. by destruct (textareas s) eqn:E; cbn; rewrite ?E.
  - unfold run_later, container_ok in *. destruct (later s); [done|]. destruct (selectedCell (table s)); [|done]. cbn.
    by rewrite paste_state.
Qed.

(** Whatever happens, there is at most one text area, and it is there, shown, only while the
    table is in the state [selected].  A key pressed with Control, when a loaded cell is
    selected, makes it hold the text of the selection as it is then. *)
Theorem container_follows_selection `{!Delegate cellUpdated} l s :
  inDOM = true -> container_ok s ->
  container_ok (run l s) /\
  forall command parent position scroll,
    currentFlameState (table (run l s)) = Selected -> is_Some (selectedDataCell (table (run l s))) ->
    textareas (step (KeyDown true command parent position scroll) (run l s)) = [valueForCopy (table (run l s))].
Proof.
  intros HD Hs. split.
  - revert s Hs. induction l as [|i l IH]; intros s Hs; [done|]. by apply IH, clip_step_ok.
  - intros command parent position scroll Hsel Hc. cbn [step]. rewrite decide_True by done.
    unfold keyDown. by rewrite bool_decide_true by done.
Qed.

Lemma paste_selection `{!Delegate cellUpdated} v t : selectedCell (pasteValue validate cellUpdated v t) = selectedCell t.
Proof. by destruct (pasteValue_stored validate cellUpdated v t). Qed.

Lemma paste_all texts s : textareas s <> [] ->
  run (PasteInto <$> texts) s = Clipboard (table s) (textareas s) (visible s) (corner s) (later s ++ texts).
Proof.
  revert s. induction texts as [|v texts IH]; intros s Hs; [cbn; rewrite app_nil_r; by destruct s|].
  rewrite fmap_cons, run_cons. cbn [step]. unfold paste. destruct (textareas s) eqn:E; [done|]. rewrite IH by done. cbn.
  by rewrite <- app_assoc.
Qed.

Lemma run_timers `{!Delegate cellUpdated} n : forall s, length (later s) = n -> is_Some (selectedCell (table s)) ->
  run (replicate n Timer) s =
  Clipboard (foldl (fun t v => pasteValue validate cellUpdated v t) (table s) (later s)) (textareas s) (visible s) (corner s) [].
Proof.
  induction n as [|n IH]; intros s Hl [p Hp].
  - destruct s as [t a v c l]. cbn in *. by destruct l.
  - cbn [replicate]. rewrite run_cons. cbn [step]. unfold run_later. destruct (later s) as [|v l]; [done|]. rewrite Hp.
    injection Hl as Hl. rewrite IH; cbn; [done|done|]. rewrite paste_selection, Hp. eauto.
Qed.

(** Texts pasted one after the other reach the selected cells in that order, each once,
    together with those that are still due, when the timers have run. *)
Theorem pasted_in_order `{!Delegate cellUpdated} texts s :
  textareas s <> [] -> is_Some (selectedCell (table s)) ->
  let s' := run ((PasteInto <$> texts) ++ replicate (length (later s ++ texts)) Timer) s in
  table s' = foldl (fun t v => pasteValue validate cellUpdated v t) (table s) (later s ++ texts) /\ later s' = [].
Proof.
  intros Hs Hc s'. unfold s'. rewrite run_app, paste_all by done. by rewrite run_timers.
Qed.
End clipboard.

(** ** Witnesses *)

Abbreviation ex_step := (step ex_validate ex_cellUpdated (fun _ => false) (fun _ => false) true true true).
Abbreviation ex_run := (run ex_validate ex_cellUpdated (fun _ => false) (fun _ => false) true true true).
Definition ex_control : input := KeyDown true None true (10, 20)%Z (0, 300)%Z.
Definition ex_clipboard (p q : ref) : clipboard := Clipboard (ex_table Selected (Some p) (Some q)) [] false None [].

Lemma container_follows_selection_witness :
  container_ok (ex_run [Other (Move DRight); ex_control; Other InsertNewline] (ex_clipboard (0, 0) (0, 0))) /\
  textareas (ex_step ex_control (ex_run [Other (MoveAndModify DRight)] (ex_clipboard (0, 0) (0, 0)))) =
    [String.append "a" (String tab "b")].
Proof.
  split.
  - apply (container_follows_selection ex_validate ex_cellUpdated (fun _ => false) (fun _ => false) true true true
             (Delegate0 := ex_delegate)); reflexivity.
  - etrans; [apply (container_follows_selection ex_validate ex_cellUpdated (fun _ => false) (fun _ => false) true true true
             (Delegate0 := ex_delegate)); try reflexivity; vm_compute; eauto|]. vm_compute. reflexivity.
Defined.

Lemma pasted_in_order_witness :
  let s := ex_step ex_control (ex_clipboard (0, 0) (0, 0)) in
  table (ex_run ([PasteInto "x"; PasteInto "y"] ++ [Timer; Timer]) s) =
    pasteValue ex_validate ex_cellUpdated "y" (pasteValue ex_validate ex_cellUpdated "x" (table s)).
Proof.
  apply (pasted_in_order ex_validate ex_cellUpdated (fun _ => false) (fun _ => false) true true true
           (Delegate0 := ex_delegate) ["x"; "y"] (ex_step ex_control (ex_clipboard (0, 0) (0, 0)))); [discriminate|vm_compute; eauto].
Defined.

(** ** Departures *)

(** The text area has no class of its own, so that releasing a key never clears the container:
    it keeps the text of a former selection. *)
Lemma container_is_not_cleared :
  let s := ex_run [ex_control; KeyUp ""; Other (Move DRight)] (ex_clipboard (0, 0) (0, 0)) in
  textareas s = ["a"] /\ valueForCopy (table s) = "b" /\ hasClass "clipboard-container" "clipboard-container textarea" = false.
Proof. vm_compute. auto. Qed.

(** What is pasted goes to the cell that is selected a tenth of a second later, *)
Lemma paste_goes_elsewhere :
  let s := ex_run [ex_control; PasteInto "x"; Other (Move DRight); Timer] (ex_clipboard (0, 0) (0, 0)) in
  (formattedValue <$> cell_at (data (table s)) (0, 0)) = Some "a" /\ (formattedValue <$> cell_at (data (table s)) (0, 1)) = Some "x".
Proof. vm_compute. auto. Qed.

(** and if none is selected any more, the code throws. *)
Lemma paste_throws :
  run_later ex_validate ex_cellUpdated (ex_run [ex_control; PasteInto "x"; Other LoseKeyResponder] (ex_clipboard (0, 0) (0, 0))) = Throw "TypeError".
Proof. vm_compute. reflexivity. Qed.
