(* ===== verification/CellMethods.v ===== *)
(** * The methods of cells, and cells that are read only ([utils/table_cell.js],
    [views/table_data_view.js])

    A cell of a table has the methods of the prototype, which its options replace.  Which
    cells may change is up to [isEditable], whatever is done with the table. *)

From S2P Require Import Prelude.
From S2P Require Import TableDataView.
Open Scope string_scope.
Open Scope list_scope.
Open Scope flame_scope.

(** ** Read-only cells *)

(** A position whose cell may be edited. *)
Definition editable_at (d : grid) (q : ref) : bool := match cell_at d q with Some c => isEditable c | None => false end.

(** From one state to another only cells that may be edited have changed, and which ones
    may be edited has not. *)
Record kept (s s' : tdv) : Prop := {
  kp_editable q : editable_at (data s') q = editable_at (data s) q;
  kp_locked q : editable_at (data s) q = false -> cell_at (data s') q = cell_at (data s) q
}.

#[export] Instance kept_preorder : PreOrder kept.
Proof.
  split; [by intros s|]. intros s1 s2 s3 [H1 H2] [H3 H4]. split; intros q; [by rewrite H3|]. intros Hq. rewrite H4; [by apply H2|]. by rewrite H1.
Qed.

Lemma kept_data s s' : data s' = data s -> kept s s'.
Proof. intros E. by split; intros q; rewrite E. Qed.

Section kept.
Context (validate : cell -> string -> bool).
Context (cellUpdated : ref -> string -> grid -> grid * bool).
Context (showEditor showReadOnlyEditor : cell -> bool).
Context (allowSelection : bool).
Context `{!Delegate cellUpdated}.

Abbreviation set := (_validateAndSet validate cellUpdated).
Abbreviation goto := (gotoFlameState showEditor showReadOnlyEditor).
Abbreviation confirm := (_confirmEdit validate cellUpdated).

Definition target_of (p : option ref) (s : tdv) : option ref := match p with Some q => Some q | None => selectedCell s end.
Definition may_set (p : option ref) (s : tdv) : Prop := forall q, target_of p s = Some q -> editable_at (data s) q = true.

Lemma set_kept v p s : may_set p s -> kept s (set v p s).1.
Proof.
  intros Hp. unfold _validateAndSet. fold (target_of p s). destruct (target_of p s) as [q|] eqn:Eq; [|done].
  specialize (Hp q Eq). destruct (cell_at (data s) q) as [c|] eqn:Ec; [|done]. destruct (String.eqb _ _); [done|].
  destruct (validate c v); [|done]. destruct (dg_stored q v (data s) c Ec) as (c' & Ec' & _ & He & _).
  pose proof (fun q' => dg_other q q' v (data s)) as Ho. destruct (cellUpdated q v (data s)) as [d b]. cbn in *.
  assert (kept s (set_data d s)) as H.
  { split; intros q'; cbn; destruct (decide (q' = q)) as [->|Hq]; unfold editable_at in *; rewrite ?Ho by done; try done.
    - by rewrite Ec', Ec, He.
    - congruence. }
  destruct b; [|exact H]. etrans; [exact H|by apply kept_data].
Qed.

Lemma store_or_fail_kept v w p s : may_set p s ->
  kept s (let '(s1, ok) := set v p s in if ok then s1 else pasteFailed w s1).
Proof.
  intros Hp. pose proof (set_kept v p s Hp) as H. destruct (set v p s) as [s1 []]; [done|]. cbn in H. etrans; [exact H|by apply kept_data].
Qed.

Lemma confirm_kept s : may_set None s -> kept s (confirm s).1.
Proof.
  intros Hp. unfold _confirmEdit. pose proof (set_kept (editField s) None s Hp) as H. destruct (set (editField s) None s) as [s1 []]; [done|].
  cbn in *. etrans; [exact H|by apply kept_data].
Qed.

Lemma goto_data n s : data (goto n s) = data s.
Proof.
  unfold gotoFlameState. destruct (decide _); [done|].
  assert (forall s, data (enterState showEditor showReadOnlyEditor s) = data s) as He.
  { intros s0. unfold enterState. repeat case_match; done. }
  rewrite He. cbn. unfold exitState. by repeat case_match.
Qed.

Lemma select_data t b s : data (selectCell allowSelection t b s).1 = data s.
Proof. unfold selectCell. by repeat case_match. Qed.

Lemma move_data d s : data (move allowSelection d s).1 = data s.
Proof. unfold move. cbn. destruct (selectedCell s); [apply select_data|done]. Qed.

Lemma invoke_data d s : data (invokeInSelected showEditor showReadOnlyEditor allowSelection d s) = data s.
Proof. unfold invokeInSelected. by rewrite move_data, goto_data. Qed.

Lemma startEdit_data s : data (startEdit showEditor showReadOnlyEditor s).1 = data s.
Proof. unfold startEdit. repeat case_match; cbn; rewrite ?goto_data; done. Qed.

Lemma loaded_data e s : data (loaded_mouseDown showEditor showReadOnlyEditor allowSelection e s).1 = data s.
Proof.
  unfold loaded_mouseDown. pose proof (select_data (target e) false s) as H. destruct (selectCell _ _ _ _) as [s1 []]; cbn in *; [|done].
  by rewrite goto_data.
Qed.

Lemma selected_down_data e s : data (selected_mouseDown showEditor showReadOnlyEditor allowSelection e s).1 = data s.
Proof.
  unfold selected_mouseDown. repeat case_match; cbn; rewrite ?startEdit_data, ?loaded_data, ?goto_data; done.
Qed.

Lemma foldl_kept {A} (f : tdv -> A -> tdv) l : (forall s x, kept s (f s x)) -> forall s, kept s (foldl f s l).
Proof. intros Hf. induction l as [|x l IH]; intros s; [done|]. cbn. etrans; [apply Hf|apply IH]. Qed.

Lemma paste_kept v s : kept s (pasteValue validate cellUpdated v s).
Proof.
  unfold pasteValue. destruct (selectedCell s) as [p|]; [|done]. destruct (_ && _); apply foldl_kept.
  - intros s1 q. destruct (may_paste (data s1) q) eqn:Hq; [|done]. apply store_or_fail_kept. intros q' [= <-].
    unfold may_paste in Hq. unfold editable_at. by destruct (cell_at (data s1) q); [apply andb_true_iff in Hq as [? _]|].
  - intros s1 [q field]. unfold paste_field. cbn [fst snd]. destruct (Nat.ltb _ _); [|done].
    destruct (cell_at (data s1) q) as [c|] eqn:Ec; [|done]. destruct (isEditable c && isPastable c) eqn:He; [|done].
    apply andb_true_iff in He as [He _]. assert (may_set (Some q) s1) as Hm by (intros q' [= <-]; unfold editable_at; by rewrite Ec).
    destruct (options c) as [o|]; [|by apply store_or_fail_kept].
    destruct (list_find _ o) as [[? x]|]; [by apply store_or_fail_kept|by apply kept_data].
Qed.

Lemma editing_may_set s : inv s -> currentFlameState s = Editing -> may_set None s.
Proof.
  intros [H _ _ _] Hs q Hq. cbn in Hq. rewrite Hs in H. destruct H as (_ & _ & c & Hc & He). unfold selectedDataCell in Hc. rewrite Hq in Hc.
  unfold editable_at. cbn in Hc. by rewrite Hc.
Qed.

Lemma confirm_and_move_kept d s : may_set None s ->
  kept s (confirm_and_move validate cellUpdated showEditor showReadOnlyEditor allowSelection d s).1.
Proof.
  intros Hp. unfold confirm_and_move. pose proof (confirm_kept s Hp) as H. destruct (confirm s) as [s1 []]; cbn in *; [|done].
  etrans; [exact H|]. apply kept_data, invoke_data.
Qed.

Lemma editing_down_kept e s : may_set None s ->
  kept s (editing_mouseDown validate cellUpdated showEditor showReadOnlyEditor allowSelection e s).1.
Proof.
  intros Hp. unfold editing_mouseDown. destruct (target e); [|done]. pose proof (confirm_kept s Hp) as H.
  pose proof (confirm_stored validate cellUpdated s) as Hst. destruct (confirm s) as [s1 []] eqn:E; cbn [fst] in *.
  - etrans; [exact H|]. apply kept_data. by rewrite select_data, goto_data.
  - assert (may_set None s1) as Hp1 by (intros q Hq; cbn in Hq; rewrite (so_cell _ _ Hst) in Hq; rewrite (kp_editable _ _ H); by apply Hp).
    pose proof (confirm_kept s1 Hp1) as H1. destruct (confirm s1) as [s2 []]; cbn in *; by etrans.
Qed.

Lemma wipe_kept s : kept s (wipeCell validate cellUpdated s).
Proof.
  unfold wipeCell. destruct (selectedDataCell s) as [c|] eqn:Ec; [|done]. destruct (isEditable c) eqn:He; [|done].
  apply set_kept. intros q Hq. cbn in Hq. unfold selectedDataCell in Ec. rewrite Hq in Ec. cbn in Ec. unfold editable_at. by rewrite Ec.
Qed.

Lemma menu_kept v s : may_set None s ->
  kept s (didSelectMenuItem validate cellUpdated showEditor showReadOnlyEditor allowSelection v s).
Proof.
  intros Hp. unfold didSelectMenuItem. set (s0 := set_field v (fieldShown s) (fieldInvalid s) s).
  pose proof (confirm_kept s0 Hp) as H. etrans; [|destruct (currentFlameState (confirm s0).1)];
    [etrans; [|exact H]; by apply kept_data|..]; try done; apply kept_data; [apply move_data|apply invoke_data].
Qed.

(** The item of a menu is chosen once the menu of the selected cell, which may be edited, has
    been closed. *)
Definition menu_of_cell (e : event) (s : tdv) : Prop :=
  match e with MenuSelected _ => may_set None s | _ => True end.

(** So it is after closing the menu in any state that the table can be in. *)
Lemma closed_menu_of_cell v s : inv s -> menuOpen s = true ->
  menu_of_cell (MenuSelected v) (menuClosed showEditor showReadOnlyEditor s).
Proof.
  intros Hi Hm. pose proof (inv_menu s Hi Hm) as Hs. pose proof (editing_may_set s Hi Hs) as H. unfold menuClosed. cbn.
  unfold gotoFlameState. rewrite decide_False by (cbn; by rewrite Hs). cbn [enterState currentFlameState set_state].
  intros q Hq. unfold exitState in *. cbn in *. rewrite Hs in *. by apply H.
Qed.

(** C8. Cells that may not be edited never change, nor does what has not been loaded, and none
    becomes editable: in every state of the table, whatever is typed, pasted, deleted, clicked
    or chosen from a menu, only cells that may be edited change. *)
Theorem read_only_cells_stay has_mouseUp e s :
  inv s -> event_ok e s -> menu_of_cell e s ->
  let s' := (handle validate cellUpdated showEditor showReadOnlyEditor allowSelection has_mouseUp e s).1 in
  forall q, editable_at (data s') q = editable_at (data s) q /\
    (editable_at (data s) q = false -> cell_at (data s') q = cell_at (data s) q).
Proof.
  intros Hi [He Hm] Hmenu. cbv zeta. assert (forall s', kept s s' -> forall q, editable_at (data s') q = editable_at (data s) q /\
    (editable_at (data s) q = false -> cell_at (data s') q = cell_at (data s) q)) as Hk by (intros s' [H1 H2] q; auto).
  apply Hk. clear Hk. unfold handle.
  assert (forall n, kept s (goto n s)) as Hg by (intros n; apply kept_data, goto_data).
  assert (kept s (menuClosed showEditor showReadOnlyEditor s)) as Hc by (apply kept_data; unfold menuClosed; by rewrite goto_data).
  assert (forall t, kept t (selected_mouseUp has_mouseUp t)) as Hu by (intros t; apply kept_data; unfold selected_mouseUp; by destruct has_mouseUp).
  assert (currentFlameState s = Editing -> may_set None s) as Hed by (by apply editing_may_set).
  destruct (currentFlameState s) eqn:Hs; destruct e as [e|t| | |ctrl key| | | | | | |d|d|v| | |v]; cbn [fst]; try exact Hc; try apply Hg; try done;
    try (by apply menu_kept); try (by apply wipe_kept); try (by apply paste_kept); try (by apply Hu);
    try (by apply confirm_and_move_kept, Hed); try (by apply editing_down_kept, Hed); try (by destruct d).
  all: try (apply kept_data; first [apply loaded_data | apply selected_down_data | apply startEdit_data | apply move_data | apply invoke_data]).
  - apply kept_data. unfold mouseIsDown_mouseMove. by repeat case_match.
  - etrans; [apply Hg|apply Hu].
  - apply kept_data. unfold keyPress. repeat case_match; cbn [fst]; try done. by rewrite startEdit_data.
  - apply kept_data. unfold moveAndModifySelection, modifySelection. by repeat case_match.
  - apply kept_data. unfold readonly_mouseDown. case_match; [|done]. cbn [fst]. by rewrite select_data, goto_data.
Qed.
End kept.

(** ** The prototype of cells *)

(** The options given to the constructor: the value, and the methods that they replace by
    what these return. *)
Record opts := Opts {
  o_value : option string;
  o_formattedValue : option string;
  o_editableValue : option string;
  o_isEditable : option bool;
  o_isCopyable : option bool;
  o_isPastable : option bool;
  o_showEditor : option bool;
  o_showReadOnlyEditor : option bool;
  o_validate : option (string -> bool);
  o_options : option (option (list (string * string)))
}.

Definition not_implemented : string := "Not implemented".

Definition p_formattedValue (o : opts) : string := default (default "" (o_value o)) (o_formattedValue o).
Definition p_editableValue (o : opts) : outcome string := or_throw (o_editableValue o) not_implemented.
Definition p_validate (o : opts) (newValue : string) : bool := match o_validate o with Some f => f newValue | None => true end.
Definition p_formatValueForBackend (o : opts) : outcome string := Throw not_implemented.
Definition p_isEditable (o : opts) : bool := default false (o_isEditable o).
Definition p_isCopyable (o : opts) : bool := default true (o_isCopyable o).
Definition p_isPastable (o : opts) : bool := default true (o_isPastable o).
Definition p_showEditor (o : opts) : bool := default false (o_showEditor o).
Definition p_showReadOnlyEditor (o : opts) : bool := default false (o_showReadOnlyEditor o).
(** The prototype has no method [options]. *)
Definition p_options (o : opts) : outcome (option (list (string * string))) := or_throw (o_options o) TypeError.

Abbreviation raw_grid := (list (list (option opts))).
Definition raw_at (g : raw_grid) (p : ref) : option opts := r ← g !! p.1; c ← r !! p.2; c.

(** [valueForCopy]: the first method that throws ends it. *)
Fixpoint each {A B} (f : A -> outcome B) (l : list A) : outcome (list B) :=
  match l with [] => Ok [] | a :: l' => do! b <- f a ; do! bs <- each f l' ; Ok (b :: bs) end.

Definition p_copy_text (g : raw_grid) (p : ref) : outcome string :=
  match raw_at g p with Some o => if p_isCopyable o then p_editableValue o else Ok "" | None => Ok "" end.

Definition p_valueForCopy (g : raw_grid) (s : tdv) : outcome string :=
  do! rows <- each (each (p_copy_text g)) (selected_rows s) ;
  Ok (Prelude.join LF (Prelude.join tab <$> rows)).

(** [startEdit]: the state that it goes to, if any. *)
Definition p_startEdit (o : opts) : outcome (option flame_state) :=
  if p_isEditable o then Ok (Some Editing)
  else do! l <- p_options o ; Ok (match l with None => Some SelectingReadOnly | Some _ => None end).

(** The cell that a table works with once all methods are there. *)
Definition cell_of (o : opts) : cell :=
  Cell (default "" (o_editableValue o)) (p_formattedValue o) (p_isEditable o) (p_isCopyable o) (p_isPastable o) (default None (o_options o)).

Definition grid_of (g : raw_grid) : grid := (fun r : list (option opts) => (fun c : option opts => cell_of <$> c) <$> r) <$> g.

Lemma cell_at_grid_of g p : cell_at (grid_of g) p = cell_of <$> raw_at g p.
Proof.
  unfold cell_at, raw_at, grid_of. rewrite list_lookup_fmap. destruct (g !! p.1) as [r|]; [|done]. cbn.
  rewrite list_lookup_fmap. by destruct (r !! p.2) as [[c|]|].
Qed.

Lemma each_ok {A B} (f : A -> outcome B) (h : A -> B) l : Forall (fun a => f a = Ok (h a)) l -> each f l = Ok (h <$> l).
Proof. induction 1 as [|a l Ha _ IH]; [done|]. cbn. by rewrite Ha, IH. Qed.

Lemma each_throws {A B} (f : A -> outcome B) e l : Forall (fun a => is_ok (f a) = true \/ f a = Throw e) l ->
  Exists (fun a => f a = Throw e) l -> each f l = Throw e.
Proof.
  induction l as [|a l IH]; intros Hf He; [by apply Exists_nil in He|]. cbn. apply Forall_cons in Hf as [Ha Hf].
  destruct (f a) as [b|e'] eqn:E; [|destruct Ha as [Ha|Ha]; [done|by rewrite Ha]]. cbn.
  apply Exists_cons in He as [He|He]; [congruence|]. by rewrite IH.
Qed.

(** What copying reads of a cell can be read. *)
Definition can_copy (g : raw_grid) (p : ref) : Prop :=
  match raw_at g p with Some o => p_isCopyable o = true -> is_Some (o_editableValue o) | None => True end.

#[export] Instance can_copy_dec g p : Decision (can_copy g p).
Proof. unfold can_copy. destruct (raw_at g p); [apply _|left; done]. Defined.

Lemma copy_text_ok g p : can_copy g p -> p_copy_text g p = Ok (copy_text (grid_of g) p).
Proof.
  unfold can_copy, p_copy_text, copy_text. rewrite cell_at_grid_of. destruct (raw_at g p) as [o|]; [|done]. cbn.
  destruct (p_isCopyable o); [|done]. intros [v Hv]; [done|]. unfold p_editableValue. by rewrite Hv.
Qed.

Lemma copy_text_throws g p : ~ can_copy g p -> p_copy_text g p = Throw not_implemented.
Proof.
  unfold can_copy, p_copy_text. destruct (raw_at g p) as [o|]; [|tauto]. destruct (p_isCopyable o); [|by intros H; destruct H].
  unfold p_editableValue. destruct (o_editableValue o); [intros H; by destruct H|done].
Qed.

Lemma row_ok g row : Forall (can_copy g) row -> each (p_copy_text g) row = Ok (copy_text (grid_of g) <$> row).
Proof. intros H. apply each_ok. eapply Forall_impl; [exact H|]. apply copy_text_ok. Qed.

Lemma row_throws g row : ~ Forall (can_copy g) row -> each (p_copy_text g) row = Throw not_implemented.
Proof.
  intros H. apply each_throws; [|eapply Exists_impl; [exact (not_Forall_Exists _ _ H)|apply copy_text_throws]].
  apply Forall_forall. intros p _. destruct (decide (can_copy g p)) as [Hp|Hp]; [left; by rewrite copy_text_ok|right; by apply copy_text_throws].
Qed.

(** Copying reads the editable value of every selected cell that may be copied, which by
    default is every cell: if all of them have one, the text is that of the table; if one has
    only the method of the prototype, copying throws, whatever the other cells are. *)
Theorem copying_reads_editable_values g s : data s = grid_of g ->
  (Forall (Forall (can_copy g)) (selected_rows s) -> p_valueForCopy g s = Ok (valueForCopy s)) /\
  (~ Forall (Forall (can_copy g)) (selected_rows s) -> p_valueForCopy g s = Throw not_implemented).
Proof.
  intros Hd. unfold p_valueForCopy, valueForCopy. rewrite Hd. split; intros H.
  - rewrite (each_ok _ (fmap (copy_text (grid_of g)))); [done|]. eapply Forall_impl; [exact H|]. apply row_ok.
  - apply (not_Forall_Exists _ _) in H. rewrite (each_throws _ not_implemented); [done|..].
    + apply Forall_forall. intros row _. destruct (decide (Forall (can_copy g) row)) as [Hr|Hr]; [left; by rewrite row_ok|right; by apply row_throws].
    + eapply Exists_impl; [exact H|]. intros row. apply row_throws.
Qed.

(** ** Witnesses *)

Lemma read_only_cells_stay_witness :
  cell_at (data (handle ex_validate ex_cellUpdated (fun _ => false) (fun _ => false) true true (Paste "x")
    (ex_table Selected (Some (2, 1)) (Some (2, 1)))).1) (2, 1) = ex_readonly "r".
Proof.
  etrans; [apply (read_only_cells_stay ex_validate ex_cellUpdated (fun _ => false) (fun _ => false) true (Delegate0 := ex_delegate) true (Paste "x")
    (ex_table Selected (Some (2, 1)) (Some (2, 1))))|reflexivity].
  - split; [|done|by intros []|done]. exists (2, 1), (2, 1). unfold in_grid. cbn. split_and!; (done || lia).
  - by split.
  - exact I.
  - reflexivity.
Defined.

Definition ex_opts (v : string) (e : option string) : option opts := Some (Opts (Some v) None e None None None None None None None).
Definition ex_raw : raw_grid := [[ex_opts "1" (Some "1"); ex_opts "2" None]; [None; ex_opts "4" (Some "4")]].
Definition ex_raw_table (p q : ref) : tdv := Tdv (grid_of ex_raw) Selected (Some p) (Some q) None "" false false false None [] None [] [].

Lemma copying_reads_editable_values_witness :
  p_valueForCopy ex_raw (ex_raw_table (0, 0) (1, 0)) = Ok (String.append "1" (String LF "")) /\
  p_valueForCopy ex_raw (ex_raw_table (0, 0) (1, 1)) = Throw not_implemented.
Proof.
  split.
  - apply (proj1 (copying_reads_editable_values ex_raw (ex_raw_table (0, 0) (1, 0)) eq_refl)). repeat constructor; vm_compute; eauto.
  - apply (proj2 (copying_reads_editable_values ex_raw (ex_raw_table (0, 0) (1, 1)) eq_refl)).
    intros [[_ [H _]%Forall_cons]%Forall_cons _]%Forall_cons. by destruct (H eq_refl).
Defined.

(** ** Departures *)

(** With the defaults a cell may be copied, and copying it throws; and Enter on a cell that
    may not be edited throws, too, since the prototype lacks the method [options]. *)
Lemma default_cell_throws :
  let o := Opts (Some "1") None None None None None None None None None in
  p_valueForCopy [[Some o]] (Tdv (grid_of [[Some o]]) Selected (Some (0, 0)) (Some (0, 0)) None "" false false false None [] None [] []) = Throw "Not implemented" /\
  p_startEdit o = Throw TypeError.
Proof. split; reflexivity. Qed.
