(* ===== verification/TableCells.v ===== *)
(** * The cells of a table on the screen ([views/table_data_view.js], [utils/table_cell.js])

    How the cells are rendered, how single cells are drawn again when their data have
    changed, and where the rectangle of the selection is drawn and what is scrolled for it.

    An element is a record of what is set of it; text that is escaped in the buffer and
    text that is set as such are the same.  Of the document the code reads positions and
    sizes, which are arguments. *)

From S2P Require Import Prelude.
From S2P Require TableDataView.
Open Scope string_scope.
Open Scope list_scope.
Open Scope flame_scope.
Open Scope Z_scope.

(** ** Cells *)

(** What a cell shows: an element, or a text; none is null or undefined.  Of the options
    given to the constructor of a cell those are listed that are read here; the others have
    the defaults of the prototype. *)
Inductive body := Html (h : string) | Text (s : string).

Record vcell := VCell {
  value : option string;                     (* none is null *)
  content_option : option (option body);     (* what [content] returns, if it is overridden *)
  cssClasses : list string;
  updatingClasses : list string;             (* what [cssClasses] returns while [isUpdating] *)
  inlineStyles : option string;              (* if the cell has the method *)
  titleValue : option string;
  isUpdating : bool
}.

Definition formattedValue (c : vcell) : string := default "" (value c).
Definition content (c : vcell) : option body := default (Some (Text (formattedValue c))) (content_option c).

Definition space : Ascii.ascii := " "%char.
Definition cssClassesString (c : vcell) : string := join space (if isUpdating c then updatingClasses c else cssClasses c).

(** An entry of the data: none, the placeholder that an update has left, with what is to
    be set of the cell, or a cell. *)
Inductive entry := Missing | Pending (updating : bool) | Loaded (c : vcell).

Abbreviation data := (list (list entry)).

Definition entry_at (d : data) (p : nat * nat) : entry :=
  match d !! p.1 ≫= (.!! p.2) with Some e => e | None => Missing end.

(** ** Rendering *)

Inductive shown := Cell (b : body) | Dots.   (* an ellipsis in place of the content *)

(** A [td], in its row. *)
Record td := Td {
  row_index : Z;
  data_index : Z;
  className : string;
  width : Z;
  style : string;                            (* what follows the width *)
  title : string;                            (* empty if there is none *)
  inner : shown
}.

Definition col_class (j : nat) : string := if Nat.even j then " even-col" else " odd-col".

Definition body_of (c : option body) : shown := Cell (default (Text "") c).

Section render.
Context (columnLeafs : list (option Z)) (defaultCellWidth : Z).     (* the leaves by their [render_width] *)

(** [columnLeafs[j].get('render_width') || defaultCellWidth] *)
Definition cellWidth (j : nat) : outcome Z :=
  do! leaf <- or_throw (columnLeafs !! j) TypeError ;
  Ok (match leaf with Some w => if w =? 0 then defaultCellWidth else w | None => defaultCellWidth end).

(** A placeholder is taken for a cell, and has no method [content]. *)
Definition render_cell (p : nat * nat) (e : entry) : outcome td :=
  match e with
  | Pending _ => Throw TypeError
  | Missing =>
      do! w <- cellWidth p.2 ; Ok (Td (Z.of_nat p.1) (Z.of_nat p.2) (col_class p.2) w "" "" Dots)
  | Loaded c =>
      do! w <- cellWidth p.2 ;
      Ok (Td (Z.of_nat p.1) (Z.of_nat p.2) (cssClassesString c +:+ col_class p.2) w (default "" (inlineStyles c))
            (default "" (titleValue c)) (body_of (content c)))
  end.

Fixpoint collect {A B} (f : A -> outcome B) (l : list A) : outcome (list B) :=
  match l with
  | [] => Ok []
  | a :: l' => do! b <- f a ; do! bs <- collect f l' ; Ok (b :: bs)
  end.

Definition rowCount (d : data) : nat := length d.
Definition columnCount (d : data) : nat := match d with r :: _ => length r | [] => 0 end.

(** The positions in the order of the two loops. *)
Definition positions (rows columns : nat) : list (nat * nat) :=
  i ← seq 0 rows; j ← seq 0 columns; [(i, j)].

(** The elements of the table in their order; none are rendered without data. *)
Definition _renderTable (d : data) : outcome (list td) :=
  collect (fun p => render_cell p (entry_at d p)) (positions (rowCount d) (columnCount d)).
End render.

(** ** Drawing again *)

(** The callback of [_cellsDidChange].  A title is only ever set. *)
Definition redraw (j : nat) (c : vcell) (el : td) : td :=
  Td (row_index el) (data_index el) (cssClassesString c +:+ col_class j) (width el) (default "" (inlineStyles c))
    (match titleValue c with Some t => if decide (t = "") then title el else t | None => title el end)
    (body_of (content c)).

(** The callback of [_updatingCellsDidChange]. *)
Definition mark_updating (j : nat) (c : vcell) (el : td) : td :=
  Td (row_index el) (data_index el) (cssClassesString c +:+ col_class j) (width el) (style el) (title el) (inner el).

Definition add_class (s : string) (el : td) : td :=
  Td (row_index el) (data_index el) (className el +:+ s) (width el) (style el) (title el) (inner el).

Definition set_updating (b : bool) (c : vcell) : vcell :=
  VCell (value c) (content_option c) (cssClasses c) (updatingClasses c) (inlineStyles c) (titleValue c) b.

Definition put_entry (p : nat * nat) (e : entry) (d : data) : data := alter (js_array_set Missing p.2 e) p.1 d.

(** The body of the loop of [_batchUpdate]: the cell, or a placeholder that is left for
    it, and the callback if there is an element. *)
Definition update_one (callback : entry -> td -> outcome (entry * td)) (p : nat * nat) (s : data * list td) : outcome (data * list td) :=
  let (d, allCells) := s in
  do! row <- or_throw (d !! p.1) TypeError ;
  let e := match row !! p.2 with Some Missing | None => Pending false | Some e => e end in
  let d1 := put_entry p e d in
  let k := (p.1 * columnCount d + p.2)%nat in
  match allCells !! k with
  | Some el => do! r <- callback e el ; Ok (put_entry p r.1 d1, <[k := r.2]> allCells)
  | None => Ok (d1, allCells)
  end.

Definition redraw_callback (j : nat) (e : entry) (el : td) : outcome (entry * td) :=
  match e with
  | Loaded c => Ok (e, redraw j c el)
  | _ => Throw TypeError                     (* a placeholder has no [cssClassesString] *)
  end.

Definition updating_callback (j : nat) (e : entry) (el : td) : outcome (entry * td) :=
  match e with
  | Loaded c => let c' := set_updating true c in Ok (Loaded c', mark_updating j c' el)
  | _ => Ok (Pending true, add_class (col_class j) el)
  end.

Fixpoint update_all (callback : nat -> entry -> td -> outcome (entry * td)) (refs : list (nat * nat)) (s : data * list td) :
  outcome (data * list td) :=
  match refs with
  | [] => Ok s
  | p :: refs' => do! s' <- update_one (callback p.2) p s ; update_all callback refs' s'
  end.

(** ** Lemmas *)

Lemma collect_spec {A B} (f : A -> outcome B) l : forall bs,
  collect f l = Ok bs <->
  length bs = length l /\ forall k a, l !! k = Some a -> exists b, bs !! k = Some b /\ f a = Ok b.
Proof.
  induction l as [|a l IH]; intros bs; cbn [collect].
  { split; [by intros [= <-]|]. intros [H _]. by destruct bs. }
  split.
  - destruct (f a) as [b|e] eqn:Ea; [|done]. cbn. destruct (collect f l) as [bs'|e]; [|done]. cbn. intros [= <-].
    destruct (proj1 (IH bs') eq_refl) as [Hl Hk]. split; [cbn; congruence|]. intros [|k] x Hx; cbn in Hx |- *; [|by apply Hk].
    injection Hx as ->. by exists b.
  - intros [Hl Hk]. destruct bs as [|b bs]; [done|]. destruct (Hk 0%nat a eq_refl) as (b' & Hb & ->). cbn in Hb. injection Hb as ->.
    cbn. rewrite (proj2 (IH bs)); [done|]. split; [by injection Hl|]. intros k x Hx. exact (Hk (S k) x Hx).
Qed.

Lemma positions_S R C : positions (S R) C = positions R C ++ ((fun j => (R, j)) <$> seq 0 C).
Proof.
  unfold positions. rewrite seq_S, bind_app. f_equal. cbn. rewrite app_nil_r.
  induction (seq 0 C) as [|j l IH]; [done|]. cbn. by f_equal.
Qed.

Lemma positions_length R C : length (positions R C) = (R * C)%nat.
Proof. induction R as [|R IH]; [done|]. rewrite positions_S, length_app, length_fmap, length_seq, IH. lia. Qed.

(** A position is found where the code looks for its element. *)
Lemma positions_lookup R C k i j :
  positions R C !! k = Some (i, j) <-> (i < R)%nat /\ (j < C)%nat /\ k = (i * C + j)%nat.
Proof.
  induction R as [|R IH]; [cbn; rewrite lookup_nil; split; [done|lia]|].
  rewrite positions_S, lookup_app_Some, positions_length, IH, list_lookup_fmap_Some. split.
  - intros [?|[Hk (x & [= -> ->] & Hx)]]; [lia|]. apply lookup_seq in Hx. lia.
  - intros (Hi & Hj & ->). destruct (decide (i = R)) as [->|]; [|left; lia]. right. split; [lia|].
    exists j. split; [done|]. apply lookup_seq. lia.
Qed.

Definition rectangular (d : data) (R C : nat) : Prop := length d = R /\ Forall (fun r => length r = C) d /\ (0 < R)%nat.

Lemma rectangular_counts d R C : rectangular d R C -> rowCount d = R /\ columnCount d = C.
Proof. intros (Hl & Hf & Hr). split; [done|]. destruct d as [|r d]; cbn in *; [lia|]. by apply Forall_cons in Hf as [? _]. Qed.

Lemma rectangular_entry d R C i j : rectangular d R C -> (i < R)%nat -> (j < C)%nat ->
  exists row, d !! i = Some row /\ length row = C /\ row !! j = Some (entry_at d (i, j)).
Proof.
  intros (Hl & Hf & _) Hi Hj. destruct (lookup_lt_is_Some_2 d i) as [row E]; [lia|]. exists row.
  pose proof (proj1 (Forall_lookup _ d) Hf i row E) as Hrow. cbn in Hrow. split_and!; [done..|].
  unfold entry_at. cbn. rewrite E. cbn. destruct (lookup_lt_is_Some_2 row j) as [e ->]; [lia|]. done.
Qed.

Lemma put_entry_rect d R C p e : rectangular d R C -> (p.2 < C)%nat -> rectangular (put_entry p e d) R C.
Proof.
  intros (Hl & Hf & Hr) Hp. unfold put_entry. split; [by rewrite length_alter|]. split; [|done].
  apply Forall_lookup. intros i row Hrow. destruct (decide (p.1 = i)) as [<-|Hi].
  - rewrite list_lookup_alter_eq in Hrow. destruct (d !! p.1) as [r|] eqn:E; [|done]. cbn in Hrow. injection Hrow as <-.
    pose proof (proj1 (Forall_lookup _ d) Hf _ r E) as Hlen. cbn in Hlen. rewrite js_array_set_in by lia. by rewrite length_insert.
  - rewrite list_lookup_alter_ne in Hrow by done. by apply (proj1 (Forall_lookup _ d) Hf i row).
Qed.

Lemma put_entry_at d R C p q e : rectangular d R C -> (p.1 < R)%nat -> (p.2 < C)%nat ->
  entry_at (put_entry p e d) q = if decide (q = p) then e else entry_at d q.
Proof.
  intros Hd H1 H2. destruct p as [i j], q as [i' j']. cbn in *.
  destruct (rectangular_entry d R C i j Hd H1 H2) as (row & E & Hlen & Ej). unfold put_entry, entry_at. cbn.
  destruct (decide (i = i')) as [<-|Hi].
  - rewrite list_lookup_alter_eq, E. cbn. rewrite js_array_set_in by lia. destruct (decide (j' = j)) as [->|Hj].
    + rewrite decide_True by done. by rewrite list_lookup_insert_eq by lia.
    + rewrite decide_False by congruence. by rewrite list_lookup_insert_ne by congruence.
  - rewrite list_lookup_alter_ne, decide_False by congruence. done.
Qed.

Lemma put_entry_same d R C p : rectangular d R C -> (p.1 < R)%nat -> (p.2 < C)%nat -> put_entry p (entry_at d p) d = d.
Proof.
  intros Hd H1 H2. destruct p as [i j]. cbn in *. destruct (rectangular_entry d R C i j Hd H1 H2) as (row & E & Hlen & Ej).
  unfold put_entry. cbn. apply list_eq. intros k. destruct (decide (i = k)) as [<-|Hk]; [|by rewrite list_lookup_alter_ne].
  rewrite list_lookup_alter_eq, E. cbn. rewrite js_array_set_in by lia. f_equal. by apply list_insert_id.
Qed.

Section redraw.
Context (columnLeafs : list (option Z)) (defaultCellWidth : Z).
Notation render_cell := (render_cell columnLeafs defaultCellWidth).
Notation renderTable := (_renderTable columnLeafs defaultCellWidth).

(** The cells of a table, by position. *)
Lemma render_spec d R C cells : rectangular d R C ->
  renderTable d = Ok cells <->
  length cells = (R * C)%nat /\ forall i j, (i < R)%nat -> (j < C)%nat ->
    exists el, cells !! (i * C + j)%nat = Some el /\ render_cell (i, j) (entry_at d (i, j)) = Ok el.
Proof.
  intros Hd. destruct (rectangular_counts d R C Hd) as [HR HC]. unfold _renderTable.
  rewrite collect_spec, HR, HC, positions_length. split; intros [Hl Hk]; (split; [done|]).
  - intros i j Hi Hj. apply Hk. by apply positions_lookup.
  - intros k [i j] Hp. apply positions_lookup in Hp as (Hi & Hj & ->). by apply Hk.
Qed.

(** The title of a cell that is drawn again must not have become empty. *)
Definition title_kept (e e' : entry) : Prop :=
  match e, e' with
  | Loaded c, Loaded c' => default "" (titleValue c) = "" \/ default "" (titleValue c') <> ""
  | _, _ => True
  end.

Lemma redraw_cell p e c el : title_kept e (Loaded c) -> render_cell p e = Ok el ->
  render_cell p (Loaded c) = Ok (redraw p.2 c el).
Proof.
  intros Ht H. cbn. assert (title el = "" \/ default "" (titleValue c) <> "") as Ht'.
  { destruct e as [|u|c0]; cbn in H; [|done|]; destruct (cellWidth _ _ _); try done; cbn in H; injection H as <-; [by left|exact Ht]. }
  assert (exists w, cellWidth columnLeafs defaultCellWidth p.2 = Ok w /\ width el = w /\
    row_index el = Z.of_nat p.1 /\ data_index el = Z.of_nat p.2) as (w & -> & Hw & Hr & Hd).
  { destruct e as [|u|c0]; cbn in H; [|done|]; destruct (cellWidth _ _ _) as [w|]; try done; cbn in H; injection H as <-; by exists w. }
  cbn. unfold redraw. rewrite Hw, Hr, Hd. repeat f_equal.
  destruct (titleValue c) as [t|]; cbn in *; [case_decide; [subst|done]|]; destruct Ht'; congruence.
Qed.

Lemma redraw_one d d' R C cells p c :
  rectangular d R C -> rectangular d' R C -> renderTable d = Ok cells -> (p.1 < R)%nat -> (p.2 < C)%nat ->
  entry_at d' p = Loaded c -> title_kept (entry_at d p) (Loaded c) ->
  exists cells', update_one (redraw_callback p.2) p (d', cells) = Ok (d', cells') /\
    renderTable (put_entry p (Loaded c) d) = Ok cells'.
Proof.
  intros Hd Hd' Hr H1 H2 He Ht. pose proof (proj1 (render_spec d R C cells Hd) Hr) as [Hl Hk].
  destruct p as [i j]. cbn [fst snd] in *. destruct (Hk i j H1 H2) as (el & Hel & Hrc).
  destruct (rectangular_entry d' R C i j Hd' H1 H2) as (row & Erow & Hlen & Ej). rewrite He in Ej.
  exists (<[(i * C + j)%nat := redraw j c el]> cells). split.
  - unfold update_one. cbn [fst snd]. rewrite Erow. cbn [or_throw outcome_bind]. rewrite Ej.
    rewrite (proj2 (rectangular_counts d' R C Hd')), Hel. cbn [redraw_callback outcome_bind fst snd].
    pose proof (put_entry_same d' R C (i, j) Hd' H1 H2) as Hput. rewrite He in Hput. by rewrite !Hput.
  - apply (render_spec _ R C); [by apply put_entry_rect|]. split; [by rewrite length_insert|]. intros i' j' H1' H2'.
    rewrite (put_entry_at d R C (i, j)) by done. case_decide as Hij.
    + injection Hij as -> ->. eexists. rewrite list_lookup_insert_eq; [split; [done|]|].
      * exact (redraw_cell (i, j) _ c el Ht Hrc).
      * apply lookup_lt_Some in Hel. exact Hel.
    + destruct (Hk i' j' H1' H2') as (el' & Hel' & Hrc'). exists el'. split; [|done]. rewrite list_lookup_insert_ne; [done|].
      intros Heq. apply Hij. assert (i' = i /\ j' = j) as [-> ->]; [|done]. 
      assert (i' = i) by nia. nia.
Qed.

(** ** Properties *)

End redraw.

(** ** The rectangle of the selection *)

(** The position of a cell within the scrolled area, and its size. *)
Record box := Box { left : Z; top : Z; outerWidth : Z; outerHeight : Z }.
Record rectangle := Rectangle { css_left : Z; css_top : Z; css_width : Z; css_height : Z }.

Definition _selectionCSS (isWebKit : bool) (startCell : box) (end_ : option box) (scrollTop scrollLeft : Z) : rectangle :=
  let offset := if isWebKit then 0 else 1 in
  let endCell := default startCell end_ in
  let minLeft := Z.min (left startCell) (left endCell) in
  let minTop := Z.min (top startCell) (top endCell) in
  let maxLeft := Z.max (left startCell) (left endCell) in
  let maxTop := Z.max (top startCell) (top endCell) in
  let cellWidth := if left startCell <? left endCell then outerWidth endCell else outerWidth startCell in
  let cellHeight := if top startCell <? top endCell then outerHeight endCell else outerHeight startCell in
  Rectangle (minLeft + scrollLeft - offset) (minTop + scrollTop - offset)
    (maxLeft + cellWidth - minLeft - 5) (maxTop + cellHeight - minTop - 3).

(** The scrolled area: its position, its size, and how far it can be scrolled. *)
Record scrollable := Scrollable {
  scrollTop : Z; scrollLeft : Z; areaHeight : Z; areaWidth : Z; maxTop : Z; maxLeft : Z
}.

(** The browser keeps what is set within bounds. *)
Definition clamp (m v : Z) : Z := Z.max 0 (Z.min m v).
Definition set_scrollTop v s := Scrollable (clamp (maxTop s) v) (scrollLeft s) (areaHeight s) (areaWidth s) (maxTop s) (maxLeft s).
Definition set_scrollLeft v s := Scrollable (scrollTop s) (clamp (maxLeft s) v) (areaHeight s) (areaWidth s) (maxTop s) (maxLeft s).

(** [cell] is placed in the contents of the area; [position()] is where it is now. *)
Definition position (cell : box) (s : scrollable) : Z * Z := (left cell - scrollLeft s, top cell - scrollTop s).

Definition scroll_to (resizing : bool) (cell : box) (s : scrollable) : scrollable :=
  let (l, t) := position cell s in
  if resizing then s
  else if t <? 0 then set_scrollTop (scrollTop s + t) s
  else if areaHeight s <? t + outerHeight cell then
    set_scrollTop (t + outerHeight cell - areaHeight s + scrollTop s + 17) s
  else if l <? 0 then set_scrollLeft (scrollLeft s + l) s
  else if areaWidth s <? l + outerWidth cell then
    set_scrollLeft (l + outerWidth cell - areaWidth s + scrollLeft s + 17) s
  else s.

(** [_updateSelection]: the rectangle is placed before the area is scrolled, within its
    contents. *)
Definition _updateSelection (isWebKit resizing : bool) (selectedCell selectionEnd : option box) (s : scrollable) :
  option rectangle * scrollable :=
  match selectedCell with
  | None => (None, s)
  | Some c =>
      let at_now b := Box (left b - scrollLeft s) (top b - scrollTop s) (outerWidth b) (outerHeight b) in
      (Some (_selectionCSS isWebKit (at_now c) (at_now <$> selectionEnd) (scrollTop s) (scrollLeft s)), scroll_to resizing c s)
  end.

Definition visible (cell : box) (s : scrollable) : Prop :=
  scrollTop s <= top cell /\ top cell + outerHeight cell <= scrollTop s + areaHeight s /\
  scrollLeft s <= left cell /\ left cell + outerWidth cell <= scrollLeft s + areaWidth s.

(** The cell is in the contents of the area, and smaller than the area by a scroll bar. *)
Record fits (cell : box) (s : scrollable) : Prop := {
  fits_top : 0 <= top cell /\ top cell + outerHeight cell <= maxTop s + areaHeight s;
  fits_left : 0 <= left cell /\ left cell + outerWidth cell <= maxLeft s + areaWidth s;
  fits_height : 0 <= outerHeight cell /\ outerHeight cell + 17 <= areaHeight s;
  fits_width : 0 <= outerWidth cell /\ outerWidth cell + 17 <= areaWidth s
}.

(** A cell that is out of sight above or below is brought into sight vertically first; a
    second update brings it into sight horizontally. *)
(** The selected cell comes into sight: at once, if it is out of sight in one direction
    only, and in any case with the second update of the selection. *)
Theorem selection_comes_into_view cell s :
  fits cell s ->
  let s1 := scroll_to false cell s in
  visible cell (scroll_to false cell s1) /\
  (scrollTop s <= top cell /\ top cell + outerHeight cell <= scrollTop s + areaHeight s \/
   scrollLeft s <= left cell /\ left cell + outerWidth cell <= scrollLeft s + areaWidth s -> visible cell s1).
Proof.
  intros [? ? ? ?]. destruct cell as [cl ct cw ch], s as [st sl ah aw mt ml]. cbn in *.
  unfold visible, scroll_to, position, set_scrollTop, set_scrollLeft, clamp. cbn.
  split.
  - repeat (zcases; cbn in *); lia.
  - intros Hd. repeat (zcases; cbn in *); lia.
Qed.

Section grid.
Context (x w y h : nat -> Z).                          (* the columns and the rows of the contents *)
Context (Hw : forall c, 0 < w c) (Hh : forall r, 0 < h r).
Context (Hx : forall c, x c + w c <= x (S c)) (Hy : forall r, y r + h r <= y (S r)).

Definition cell_box (r c : nat) : box := Box (x c) (y r) (w c) (h r).

Lemma edges_increase (a b : nat -> Z) (Hb : forall c, 0 < b c) (Ha : forall c, a c + b c <= a (S c)) c c' :
  (c < c')%nat -> a c + b c <= a c'.
Proof. induction 1 as [|c' _ IH]; [apply Ha|]. specialize (Ha c'). specialize (Hb c'). lia. Qed.

(** Whichever corner the selection was started from, its rectangle goes from the left
    edge of its first column to the right edge of its last one, less the border, and from
    the top of its first row to the bottom of its last one, wherever the area is scrolled. *)
Theorem rectangle_covers_selection (isWebKit resizing : bool) (r c r' c' : nat) (s : scrollable) :
  let offset := if isWebKit then 0 else 1 in
  let c1 := Nat.min c c' in let c2 := Nat.max c c' in
  let r1 := Nat.min r r' in let r2 := Nat.max r r' in
  (_updateSelection isWebKit resizing (Some (cell_box r c)) (Some (cell_box r' c')) s).1 =
    Some (Rectangle (x c1 - offset) (y r1 - offset) (x c2 + w c2 - x c1 - 5) (y r2 + h r2 - y r1 - 3)).
Proof.
  cbn [_updateSelection fst fmap option_fmap option_map]. unfold _selectionCSS. cbn. f_equal.
  assert (forall (a b : nat -> Z) i j d, (forall k, 0 < b k) -> (forall k, a k + b k <= a (S k)) ->
    Z.min (a i - d) (a j - d) + d = a (Nat.min i j) /\
    Z.max (a i - d) (a j - d) + (if a i - d <? a j - d then b j else b i) - Z.min (a i - d) (a j - d) =
      a (Nat.max i j) + b (Nat.max i j) - a (Nat.min i j)) as Haxis.
  { intros a b i j d Hb Ha. destruct (Nat.lt_trichotomy i j) as [Hij|[->|Hij]].
    - pose proof (edges_increase a b Hb Ha i j Hij). specialize (Hb i). rewrite Nat.min_l, Nat.max_r by lia. zcases; lia.
    - rewrite Nat.min_id, Nat.max_id. zcases; lia.
    - pose proof (edges_increase a b Hb Ha j i Hij). specialize (Hb j). rewrite Nat.min_r, Nat.max_l by lia. zcases; lia. }
  destruct (Haxis x w c c' (scrollLeft s) Hw Hx) as [E1 E2], (Haxis y h r r' (scrollTop s) Hh Hy) as [E3 E4].
  f_equal; lia.
Qed.
End grid.

(** ** Witnesses and departures *)

Definition ex_cell (s : string) (t : option string) : entry := Loaded (VCell (Some s) None ["num"] ["num"; "updating"] None t false).
Definition ex_old : data := [[ex_cell "1" None; Missing]; [ex_cell "3" (Some "three"); ex_cell "4" None]].
Definition ex_new : data := [[ex_cell "1" None; ex_cell "2" None]; [ex_cell "30" (Some "thirty"); ex_cell "4" None]].
Definition ex_leafs : list (option Z) := [Some 50; None].
Definition ex_cells : list td := Eval vm_compute in match _renderTable ex_leafs 88 ex_old with Ok l => l | Throw _ => [] end.


Lemma selection_comes_into_view_witness :
  let cell := Box 500 700 80 20 in
  visible cell (scroll_to false cell (scroll_to false cell (Scrollable 0 0 300 200 1000 1000))).
Proof.
  intros cell. destruct (selection_comes_into_view cell (Scrollable 0 0 300 200 1000 1000)) as [H _].
  - split; cbn; lia.
  - exact H.
Defined.

Lemma rectangle_covers_selection_witness :
  (_updateSelection true false (Some (cell_box (fun c => Z.of_nat c * 80) (fun _ => 80) (fun r => Z.of_nat r * 20) (fun _ => 20) 3 4))
    (Some (cell_box (fun c => Z.of_nat c * 80) (fun _ => 80) (fun r => Z.of_nat r * 20) (fun _ => 20) 1 5)) (Scrollable 10 30 300 200 1000 1000)).1 =
    Some (Rectangle 320 20 155 57).
Proof.
  rewrite (rectangle_covers_selection (fun c => Z.of_nat c * 80) (fun _ => 80) (fun r => Z.of_nat r * 20) (fun _ => 20));
    [reflexivity|intros; lia..].
Defined.

(** A title that becomes empty stays. *)
Lemma old_title_stays :
  let d := [[ex_cell "1" None]] in
  let el := Td 0 0 "num even-col" 50 "" "one" (Cell (Text "1")) in
  (forall cells, _renderTable ex_leafs 88 d = Ok cells -> title <$> cells !! 0%nat = Some "") /\
  title (redraw 0 (VCell (Some "1") None ["num"] [] None None false) el) = "one".
Proof. split; [|done]. intros cells E. vm_compute in E. by injection E as <-. Qed.

(** An update of a cell that has not been loaded throws, once it has left a placeholder,
    and with the placeholder the table cannot be rendered any more. *)
Lemma update_before_load_throws :
  update_all redraw_callback [(0, 1)]%nat (ex_old, ex_cells) = Throw TypeError /\
  exists d cells, update_all updating_callback [(0, 1)]%nat (ex_old, ex_cells) = Ok (d, cells) /\
    _renderTable ex_leafs 88 d = Throw TypeError.
Proof. split; [reflexivity|]. eexists _, _. split; vm_compute; reflexivity. Qed.

(** A cell that is out of sight both ways comes into sight in one direction only. *)
Lemma one_direction_at_a_time :
  let cell := Box 500 700 80 20 in
  scroll_to false cell (Scrollable 0 0 300 200 1000 1000) = Scrollable 437 0 300 200 1000 1000.
Proof. reflexivity. Qed.
