(* ===== verification/TableView.v ===== *)
(** * The view of a table ([views/table_view.js])

    The view draws column headers, row headers and the cells, scrolls the three
    together, and lets the widths of columns and of the levels of row headers be dragged.
    What the headers are and how they span is [TableAdapter]; the cells are
    [TableDataView].

    Elements are reduced to what the code reads and writes of them: widths of [col]
    elements, offsets, and for each line of the row headers the [colspan] attributes of
    its cells.  An attribute is a string, and so is a number that one is added to; the
    sizes the browser reports are arguments. *)

From S2P Require Import Prelude.
From S2P Require TableAdapter.
From stdpp Require Import pretty.
Open Scope string_scope.
Open Scope list_scope.
Open Scope flame_scope.
Open Scope Z_scope.

Definition MIN_COLUMN_WIDTH : Z := 30.

(** ** Numbers and attributes *)

(** What a variable holds that attributes are added to with [+=]. *)
Inductive jsnum := JN (n : Z) | JS (s : string).

Definition add_attr (a : jsnum) (attr : option nat) : jsnum :=
  let str := match a with JN n => pretty n | JS s => s end in
  match attr with
  | Some c => JS (str +:+ pretty (N.of_nat c))
  | None => match a with JN n => JN (n + 1) | JS s => JS (s +:+ "1") end
  end.

Definition digit (c : Ascii.ascii) : N := (N_of_ascii c - 48)%N.

Fixpoint digits (acc : N) (s : string) : N :=
  match s with
  | EmptyString => acc
  | String c s' => digits (10 * acc + digit c)%N s'
  end.

Definition toNumber (a : jsnum) : Z := match a with JN n => n | JS s => Z.of_N (digits 0 s) end.

(** ** State *)

Inductive vstate := Idle | ClickInProgress | Resizing.
Inductive kind := Column | Row.

#[export] Instance vstate_eq_dec : EqDecision vstate.
Proof. solve_decision. Defined.

(** A cell of the row headers: its line and its position there. *)
Abbreviation cell := (nat * nat)%type.

(** Calls of the delegate for clicks: the header of a column, if there is one, or of a
    row, with its index. *)
Inductive click := ColumnClicked (h : option nat) | RowClicked (h : option nat) (index : nat).

Record view := View {
  flameState : vstate;
  type : kind;
  resizingLeaf : nat;                     (* [data-leaf-index] of the cell of a column *)
  resizingCell : option cell;             (* of the row headers *)
  resizingColumn : option nat;            (* the [col] element *)
  cells : option (list cell);
  dragStartX : Z;
  startX : Z;
  offset : Z;
  editing : bool;                         (* a cell of the data view is being edited *)
  (* the document *)
  column_cols : list Z;
  row_cols : list Z;
  data_cols : list Z;
  scrollable_left : Z;
  header_left : Z;
  corner_width : Z;
  header_lines : list (list (option nat));   (* the [colspan] attributes of the row headers *)
  (* calls of the delegate *)
  columnResized : list (nat * Z);
  rowHeaderResized : list (list Z);
  clicks : list click
}.

Definition put_state x v := View x (type v) (resizingLeaf v) (resizingCell v) (resizingColumn v) (cells v) (dragStartX v) (startX v) (offset v) (editing v) (column_cols v) (row_cols v) (data_cols v) (scrollable_left v) (header_left v) (corner_width v) (header_lines v) (columnResized v) (rowHeaderResized v) (clicks v).
Definition set_resized col cs c sx v := View (flameState v) (type v) (resizingLeaf v) c col cs (dragStartX v) sx (offset v) (editing v) (column_cols v) (row_cols v) (data_cols v) (scrollable_left v) (header_left v) (corner_width v) (header_lines v) (columnResized v) (rowHeaderResized v) (clicks v).
Definition start_resize k leaf c x0 sx off v := View (flameState v) k leaf c (resizingColumn v) (cells v) x0 sx off false (column_cols v) (row_cols v) (data_cols v) (scrollable_left v) (header_left v) (corner_width v) (header_lines v) (columnResized v) (rowHeaderResized v) (clicks v).
Definition set_columns cc dc v := View (flameState v) (type v) (resizingLeaf v) (resizingCell v) (resizingColumn v) (cells v) (dragStartX v) (startX v) (offset v) (editing v) cc (row_cols v) dc (scrollable_left v) (header_left v) (corner_width v) (header_lines v) (columnResized v) (rowHeaderResized v) (clicks v).
Definition set_rows rc w v := View (flameState v) (type v) (resizingLeaf v) (resizingCell v) (resizingColumn v) (cells v) (dragStartX v) (startX v) (offset v) (editing v) (column_cols v) rc (data_cols v) w w w (header_lines v) (columnResized v) (rowHeaderResized v) (clicks v).
Definition tell c r v := View (flameState v) (type v) (resizingLeaf v) (resizingCell v) (resizingColumn v) (cells v) (dragStartX v) (startX v) (offset v) (editing v) (column_cols v) (row_cols v) (data_cols v) (scrollable_left v) (header_left v) (corner_width v) (header_lines v) c r (clicks v).

Definition add_click x v := View (flameState v) (type v) (resizingLeaf v) (resizingCell v) (resizingColumn v) (cells v) (dragStartX v) (startX v) (offset v) (editing v) (column_cols v) (row_cols v) (data_cols v) (scrollable_left v) (header_left v) (corner_width v) (header_lines v) (columnResized v) (rowHeaderResized v) (x :: clicks v).

(** What a handler gives: the state it leaves, and what it returns or throws. *)
Definition result : Type := view * outcome jsval.

(** ** Resizing *)

(** [columns.eq(n)]: negative positions count from the end. *)
Definition eq (n : Z) (len : nat) : option nat :=
  let k := if n <? 0 then Z.of_nat len + n else n in
  if (0 <=? k) && (k <? Z.of_nat len) then Some (Z.to_nat k) else None.

(** The cells without [colspan], in document order, as many as there are columns. *)
Definition plain_of (i : nat) (p : nat * option nat) : option cell := match p.2 with None => Some (i, p.1) | Some _ => None end.
Definition line_cells (i : nat) (l : list (option nat)) : list cell := omap (plain_of i) (imap pair l).
Definition plain_cells (lines : list (list (option nat))) (totalDepth : nat) : list cell :=
  take totalDepth (concat (imap line_cells lines)).

(** [cell.nextAll()] *)
Definition nextAll (lines : list (list (option nat))) (c : cell) : list (option nat) :=
  drop (S c.2) (default [] (lines !! c.1)).

Definition remainingDepth (l : list (option nat)) : jsnum := foldl add_attr (JN 0) l.

Definition leaf_index (totalDepth : nat) (l : list (option nat)) : Z :=
  Z.of_nat totalDepth - toNumber (remainingDepth l) - 1.

Section resizing.
(** [clientWidth] of a cell of the row headers. *)
Context (clientWidth : cell -> Z).

Definition enter_resizing (v : view) : result :=
  match type v with
  | Column =>
      (set_resized (eq (Z.of_nat (resizingLeaf v)) (length (column_cols v))) (cells v) (resizingCell v) (startX v) v, Ok JUndefined)
  | Row =>
      let totalDepth := length (row_cols v) in
      let cs := plain_cells (header_lines v) totalDepth in
      let leafIndex := leaf_index totalDepth (default [] (nextAll (header_lines v) <$> resizingCell v)) in
      let col := eq leafIndex totalDepth in
      match (if leafIndex <? 0 then None else cs !! Z.to_nat leafIndex) with
      | Some c => (set_resized col (Some cs) (Some c) (clientWidth c + 1) v, Ok JUndefined)
      | None => (set_resized col (Some cs) None (startX v) v, Throw TypeError)
      end
  end.

(** Where the mouse goes down: on the handle of a column or of a row header, elsewhere in
    the column headers, on a link, or anywhere else.  [w] is the width of the cell. *)
Inductive target := ColumnHandle (leaf : nat) (w : Z) | RowHandle (c : cell) | ColumnHeader | Anchor | Elsewhere.

(** [gotoFlameState] *)
Definition goto (n : vstate) (v : view) : result :=
  if decide (flameState v = n) then (v, Ok JUndefined)
  else match n with
       | Resizing => enter_resizing (put_state Resizing v)
       | _ => (put_state n v, Ok JUndefined)
       end.

Definition resize_from (k : kind) (leaf : nat) (c : option cell) (pageX w : Z) (v : view) : result :=
  let r := goto Resizing (start_resize k leaf c pageX (w + 1) (corner_width v) v) in
  match r.2 with Ok _ => (r.1, Ok (JBool true)) | e => (r.1, e) end.

Definition mouseDown (t : target) (pageX : Z) (v : view) : result :=
  match flameState v with
  | Idle =>
      let v1 := (goto ClickInProgress v).1 in
      match t with
      | ColumnHandle leaf w => resize_from Column leaf None pageX w v1
      | RowHandle c => resize_from Row (resizingLeaf v1) (Some c) pageX (clientWidth c) v1
      | ColumnHeader | Anchor => (v1, Ok (JBool true))
      | Elsewhere => (v1, Ok (JBool false))
      end
  | _ => (v, Ok JUndefined)
  end.

Definition set_col (i : option nat) (w : Z) (l : list Z) : list Z := match i with Some i => <[i := w]> l | None => l end.

(** The data table has the width of a column in the column's first cell. *)
Definition updateColumnWidth (index : nat) (width : Z) (cols : list Z) : list Z := <[index := width]> cols.
Definition _synchronizeColumnWidth (width : Z) (v : view) : list Z := updateColumnWidth (resizingLeaf v) width (data_cols v).

Definition mouseMove (pageX : Z) (v : view) : view :=
  match flameState v with
  | Resizing =>
      let deltaX := pageX - dragStartX v in
      let cellWidth := startX v + deltaX in
      let cellWidth := if cellWidth <? MIN_COLUMN_WIDTH then MIN_COLUMN_WIDTH else cellWidth in
      match type v with
      | Column => set_columns (set_col (resizingColumn v) cellWidth (column_cols v)) (_synchronizeColumnWidth cellWidth v) v
      | Row => set_rows (set_col (resizingColumn v) cellWidth (row_cols v)) (offset v + cellWidth - startX v) v
      end
  | _ => v
  end.

(** The mouse is released: [delegate] says which methods the delegate has, [css] is the
    width the browser gives for the cell, [outer] the widths of cells. *)
Record delegate := Delegate {
  hasColumnResized : bool;
  hasRowHeaderResized : bool;
  hasColumnHeaderClicked : bool;
  hasRowHeaderClicked : bool
}.

Definition tell_rows (outer : cell -> Z) (v : view) : result :=
  match cells v with
  | Some cs => (tell (columnResized v) ((outer <$> cs) :: rowHeaderResized v) v, Ok JUndefined)
  | None => (v, Throw TypeError)
  end.

Definition tell_delegate (d : option delegate) (css : Z) (outer : cell -> Z) (v : view) : result :=
  match d with
  | None => (v, Ok JUndefined)
  | Some d =>
      if match type v with Column => hasColumnResized d | Row => false end
      then (tell ((resizingLeaf v, css) :: columnResized v) (rowHeaderResized v) v, Ok JUndefined)
      else if hasRowHeaderResized d then tell_rows outer v
      else (v, Ok JUndefined)
  end.

(** Where the button is released: in a line of the column headers, in a cell of the row
    headers with its class and its [data-index], or elsewhere. *)
Inductive click_target := ClickColumn (level place : nat) | ClickRow (is_clickable : bool) (index : nat) | ClickElsewhere.

(** The header of a column is found by the level of the line and the place of the cell,
    the header of a row by [data-index] among those of the first level. *)
Definition header_clicked (columnHeaderRows : list (list nat)) (rowHeaders : list nat) (d : option delegate)
    (t : click_target) (v : view) : result :=
  match d with
  | None => (v, Ok (JBool false))
  | Some d =>
      match t with
      | ClickColumn level place =>
          if hasColumnHeaderClicked d then
            match columnHeaderRows !! (level - 1)%nat with
            | Some row => (add_click (ColumnClicked (row !! place)) v, Ok (JBool true))
            | None => (v, Throw TypeError)
            end
          else (v, Ok (JBool true))
      | ClickRow is_clickable index =>
          if hasRowHeaderClicked d then
            if is_clickable then (add_click (RowClicked (rowHeaders !! index) index) v, Ok (JBool true)) else (v, Ok JUndefined)
          else (v, Ok (JBool true))
      | ClickElsewhere => (v, Ok (JBool false))
      end
  end.

Definition mouseUp (columnHeaderRows : list (list nat)) (rowHeaders : list nat) (t : click_target)
    (d : option delegate) (css : Z) (outer : cell -> Z) (v : view) : result :=
  match flameState v with
  | Resizing =>
      let r := tell_delegate d css outer v in
      match r.2 with Ok _ => (put_state Idle r.1, Ok (JBool true)) | e => (r.1, e) end
  | ClickInProgress => header_clicked columnHeaderRows rowHeaders d t (put_state Idle v)
  | Idle => (v, Ok JUndefined)
  end.
End resizing.

(** ** The size a double click gives a column *)

(** The widths of the longest value and of the label are measured. *)
Definition auto_width (content label : Z) : Z :=
  let width := Z.max content label + 40 in
  if width <? MIN_COLUMN_WIDTH then MIN_COLUMN_WIDTH else width.

Definition setColumnWidth (columnIndex : nat) (cellWidth : Z) (v : view) : view :=
  set_columns (<[columnIndex := cellWidth + 3]> (column_cols v)) (<[columnIndex := cellWidth + 3]> (data_cols v)) v.

Definition doubleClick (useAutoWidth : bool) (d : option delegate) (leaf : option nat) (content label : Z) (v : view) : view * bool :=
  match flameState v, useAutoWidth, leaf with
  | Idle, true, Some i =>
      let w := auto_width content label in
      let v1 := setColumnWidth i w v in
      (match d with
       | Some d => if hasColumnResized d then tell ((i, w) :: columnResized v1) (rowHeaderResized v1) v1 else v1
       | None => v1
       end, true)
  | _, _, _ => (v, false)
  end.

(** ** Scrolling *)

(** The scrollable part and the headers that follow it.  A frame that was asked for and
    has not come is counted in [frames]. *)
Record scrolling := Scrolling {
  scrollTop : Z;
  scrollLeft : Z;
  lastScrollTop : option Z;
  lastScrollLeft : option Z;
  lastSetScrollTop : option Z;
  lastSetScrollLeft : option Z;
  isScrolling : bool;
  frames : nat;
  rowHeader_top : Z;
  columnHeader_left : Z
}.

Definition didScroll (s : scrolling) : scrolling :=
  Scrolling (scrollTop s) (scrollLeft s) (Some (scrollTop s)) (Some (scrollLeft s)) (lastSetScrollTop s) (lastSetScrollLeft s)
    true (if isScrolling s then frames s else S (frames s)) (rowHeader_top s) (columnHeader_left s).

(** The frames are asked for by [didScroll], which has set the last positions. *)
Definition _updateHeaderPositions (s : scrolling) : scrolling :=
  let moved a b := negb (bool_decide (a = b)) in
  Scrolling (scrollTop s) (scrollLeft s) (lastScrollTop s) (lastScrollLeft s) (lastScrollTop s) (lastScrollLeft s) false (frames s)
    (if moved (lastScrollTop s) (lastSetScrollTop s) then default 0 (Z.opp <$> lastScrollTop s) else rowHeader_top s)
    (if moved (lastScrollLeft s) (lastSetScrollLeft s) then default 0 (Z.opp <$> lastScrollLeft s) else columnHeader_left s).

(** The user scrolls, a frame comes, the view is rendered again with new elements. *)
Inductive scroll_event := Scroll (top left : Z) | Frame | Rerender.

Definition scroll_step (ev : scroll_event) (s : scrolling) : scrolling :=
  match ev with
  | Scroll t l =>
      didScroll (Scrolling t l (lastScrollTop s) (lastScrollLeft s) (lastSetScrollTop s) (lastSetScrollLeft s)
                   (isScrolling s) (frames s) (rowHeader_top s) (columnHeader_left s))
  | Frame =>
      match frames s with
      | 0%nat => s
      | S n => _updateHeaderPositions (Scrolling (scrollTop s) (scrollLeft s) (lastScrollTop s) (lastScrollLeft s)
                 (lastSetScrollTop s) (lastSetScrollLeft s) (isScrolling s) n (rowHeader_top s) (columnHeader_left s))
      end
  | Rerender =>
      Scrolling 0 0 (lastScrollTop s) (lastScrollLeft s) (lastSetScrollTop s) (lastSetScrollLeft s) (isScrolling s) (frames s) 0 0
  end.

Definition scroll_run (evs : list scroll_event) (s : scrolling) : scrolling := foldl (fun s ev => scroll_step ev s) s evs.
Definition unscrolled : scrolling := Scrolling 0 0 None None None None false 0 0 0.

(** ** The places of the parts *)

(** Widths given for the levels of row headers are numbers, [null] or missing: a missing
    one is not a number, [null] counts as zero in sums. *)
Definition isNaN (v : jsval) : bool := match v with JNum _ | JNull | JBool _ => false | _ => true end.
Definition number (v : jsval) : Z := match v with JNum z => z | JBool true => 1 | _ => 0 end.
Definition width_at (l : list jsval) (i : nat) : jsval := default JUndefined (l !! i).

Record geometry := Geometry {
  renderColumnHeader : bool;
  renderRowHeader : bool;
  title : bool;
  defaultColumnWidth : Z;
  rowHeaderWidth : jsval;
  rowHeaderWidths : option (list jsval);
  columnDepth : nat;
  rowDepth : nat
}.

Section places.
Context (g : geometry).

Definition defaultRowHeaderWidth : Z := if truthy (rowHeaderWidth g) then number (rowHeaderWidth g) else defaultColumnWidth g.
Definition columnHeaderHeight : Z := Z.of_nat (columnDepth g) * 21 + 1 + Z.of_nat (columnDepth g).

Definition sum_Z (l : list Z) : Z := foldl Z.add 0 l.

Definition leftOffset : Z :=
  if renderRowHeader g then
    let edge := if renderColumnHeader g then 0 else 5 in
    match rowHeaderWidths g with
    | Some ws =>
        sum_Z ((fun i => if isNaN (width_at ws i) then defaultRowHeaderWidth else number (width_at ws i)) <$> seq 0 (Nat.max (rowDepth g) 1))
        + 1 + edge
    | None => Z.of_nat (rowDepth g) * defaultRowHeaderWidth + 1 + edge
    end
  else 0.

Definition topOffset : Z := (if title g then 18 else 0) + (if renderColumnHeader g then columnHeaderHeight else 0).

(** [_renderHeader]: the widths of the [col] elements of row and column headers. *)
Definition row_header_cols : list Z :=
  (fun i => let w := match rowHeaderWidths g with Some ws => width_at ws i | None => JUndefined end in
            if truthy w then number w else defaultRowHeaderWidth)
  <$> seq 0 (if decide (rowDepth g = 0)%nat then 1 else rowDepth g).

Definition column_header_cols (render_width : list jsval) : list Z :=
  (fun w => if truthy w then number w else defaultColumnWidth g) <$> render_width.
End places.

(** [_setColumnHeaderHeights]: heights of the lines of column headers, in rows. *)
Definition header_height (heights : list Z) (columnRowHeight : Z) : Z :=
  foldl (fun t h => t + h * columnRowHeight) (2 + Z.of_nat (length heights) - 1) heights.

Definition _setColumnHeaderHeights (heights : list Z) (columnRowHeight tableTopMargin : Z) : Z * Z * Z :=
  let totalHeight := header_height heights columnRowHeight in
  (totalHeight + tableTopMargin, totalHeight, totalHeight + tableTopMargin).

(** ** The cells of the headers *)

Import TableAdapter.

(** What a header object is read for besides its tree and spans.  Only objects of Ember
    have [get]; [cssClasses] and [icon] are methods of the application. *)
Record header := Header {
  headerLabel : string;
  guid : string;
  leafIndex : nat;
  isClickable : bool;
  cssClasses : list string;
  icon : option string
}.

Record settings := Settings {
  isResizable : bool;
  withColumnHeader : bool;
  isRowHeaderClickable : bool;
  isColumnHeaderClickable : bool;
  getSortForHeader : option (nat -> option string)     (* of the delegate *)
}.

Inductive handle := NoHandle | Handle | HandleOf (height : Z).

Record td := Td {
  td_title : string;
  td_guid : string;
  td_rowspan : option nat;
  td_colspan : option nat;
  td_index : option nat;
  td_leaf_index : option nat;
  td_classes : list string;
  td_icon : option string;
  td_handle : handle;
  td_sort : string;
  td_label : string
}.

(** [hasOwnProperty('children')] *)
Definition has_children (h : hnode) : bool := match h with HNode _ (Some _) => true | _ => false end.

Fixpoint countLeaves (h : hnode) : nat :=
  match h with
  | HNode _ (Some cs) => (fix count (l : list hnode) : nat := match l with [] => 0 | c :: l' => countLeaves c + count l' end) cs
  | HNode _ None => 1
  end%nat.

(** [String.prototype.replace] with a literal pattern that is not empty, everywhere. *)
Fixpoint replace_all (fuel : nat) (pat rep s : string) : string :=
  match fuel, s with
  | S n, String a s' =>
      if String.prefix pat s then rep +:+ replace_all n pat rep (String.substring (String.length pat) (String.length s) s)
      else String a (replace_all n pat rep s')
  | _, _ => s
  end.
Definition replace (pat rep s : string) : string := replace_all (String.length s) pat rep s.

Definition newline : string := String (Ascii.ascii_of_nat 10) "".

Section rendering.
(** [Handlebars.Utils.escapeExpression] *)
Context (escape : string -> string).

Definition label_html (l : string) : string := replace "&lt;br&gt;" "<br>" (escape l).

(** A span is written when it is more than one. *)
Definition span_attr (n : option nat) : option nat := match n with Some n => if (1 <? n)%nat then Some n else None | None => None end.

Definition resize_handle (g : settings) (type : header_type) (h : hnode) : handle :=
  match type with
  | HColumns => if negb (has_children h) && isResizable g && withColumnHeader g then Handle else NoHandle
  | HRows =>
      if withColumnHeader g && isResizable g
      then if has_children h then HandleOf (Z.of_nat (countLeaves h) * 21) else Handle
      else NoHandle
  end.

Definition clickable (g : settings) (type : header_type) (d : header) : bool :=
  match type with
  | HColumns => isColumnHeaderClickable g && isClickable d
  | HRows => withColumnHeader g && (isRowHeaderClickable g && isClickable d)
  end.

(** The delegate is asked for the direction in which a leaf is sorted. *)
Definition sort_class (g : settings) (h : hnode) : string :=
  match getSortForHeader g ≫= (fun f => f (ref h)) with Some dir => "sort-" +:+ dir | None => "" end.

(** The body of the loop of [_renderRow]. *)
Definition render_cell (g : settings) (type : header_type) (i : nat) (h : hnode) (d : header) (a : attrs) : td :=
  let text := label_html (headerLabel d) in
  let leaf := negb (has_children h) in
  Td (replace "<br>" newline text) (guid d) (span_attr (rowspan a)) (span_attr (colspan a))
    (match type with HColumns => if leaf then Some i else None | HRows => Some (dataIndex a) end)
    (match type with HColumns => if leaf then Some (leafIndex d) else None | HRows => None end)
    ((if Nat.even i then "even-col" else "odd-col") :: cssClasses d
       ++ (if clickable g type d then ["clickable"] else []) ++ (if (depth a =? 1)%nat then ["base-header"] else []))
    (icon d) (resize_handle g type h)
    (match type with HColumns => if leaf then sort_class g h else "" | HRows => "" end) text.

Definition _renderRow (g : settings) (type : header_type) (data : nat -> header) (attrs_of : nat -> attrs) (row : list hnode) : list td :=
  imap (fun i h => render_cell g type i h (data (ref h)) (attrs_of (ref h))) row.
End rendering.


(** ** Lemmas on numbers that become strings *)

Lemma digit_pretty (x : N) : (x < 10)%N -> digit (pretty_N_char x) = x.
Proof.
  intros H. assert (Hx : In x (map N.of_nat (seq 0 10))).
  { apply in_map_iff. exists (N.to_nat x). split; [lia|]. apply in_seq. lia. }
  cbn in Hx. repeat destruct Hx as [<-|Hx]; try done.
Qed.

Lemma digits_pretty_go x : forall s, digits 0 (pretty_N_go x s) = digits x s.
Proof.
  induction (N.lt_wf_0 x) as [x _ IH]. intros s. destruct (decide (x = 0)%N) as [->|Hx]; [by rewrite pretty_N_go_0|].
  rewrite pretty_N_go_step by lia. rewrite IH by (apply N.div_lt; lia). cbn [digits].
  rewrite digit_pretty by (apply N.mod_lt; lia). f_equal. rewrite (N.div_mod x 10) at 3 by lia. lia.
Qed.

Lemma digits_pretty (x : N) : digits 0 (pretty x) = x.
Proof.
  unfold pretty, pretty_N. case_decide as H; [by subst|]. apply digits_pretty_go.
Qed.

Lemma remaining_plain l n : foldl add_attr (JN n) (replicate l None) = JN (n + Z.of_nat l).
Proof. revert n. induction l as [|l IH]; intros n; cbn [replicate foldl add_attr]; [f_equal; lia|]. rewrite IH. f_equal. lia. Qed.

(** Sums are right when nothing is added after a string: the cells that follow have no
    [colspan], or the only one that follows has. *)
Definition span_of (c : option nat) : nat := default 1%nat c.

Lemma remaining_ok l :
  Forall (.= None) l \/ (exists c, l = [Some c]) -> toNumber (remainingDepth l) = Z.of_nat (sum_list (span_of <$> l)).
Proof.
  intros [H|[c ->]].
  - assert (exists n, l = replicate n None) as [n ->].
    { exists (length l). clear -H. induction H as [|x l -> H IH]; [done|]. cbn. by rewrite <- IH. }
    unfold remainingDepth. rewrite remaining_plain. cbn [toNumber].
    clear. induction n as [|n IH]; cbn [replicate fmap list_fmap sum_list sum_list_with span_of default]; cbn in *; lia.
  - cbn -[pretty]. change (digits 0 (pretty 0%Z +:+ pretty (N.of_nat c))) with (digits 0 (pretty (N.of_nat c))). rewrite digits_pretty. lia.
Qed.

(** ** Lemmas on resizing *)

Lemma goto_click cw v : flameState v = Idle -> goto cw ClickInProgress v = (put_state ClickInProgress v, Ok JUndefined).
Proof. intros H. unfold goto. rewrite H. by destruct (decide (Idle = ClickInProgress)). Qed.

Lemma goto_resizing cw v : flameState v = ClickInProgress -> goto cw Resizing v = enter_resizing cw (put_state Resizing v).
Proof. intros H. unfold goto. rewrite H. by destruct (decide (ClickInProgress = Resizing)). Qed.

Lemma eq_nat n len : (n < len)%nat -> eq (Z.of_nat n) len = Some n.
Proof.
  intros H. unfold eq. rewrite (proj2 (Z.ltb_ge _ _)) by lia.
  rewrite (proj2 (Z.leb_le _ _)), (proj2 (Z.ltb_lt _ _)) by lia. cbn. by rewrite Nat2Z.id.
Qed.

Lemma clamp w : (if w <? MIN_COLUMN_WIDTH then MIN_COLUMN_WIDTH else w) = Z.max 30 w.
Proof. unfold MIN_COLUMN_WIDTH. zcases; lia. Qed.

Definition moves (xs : list Z) (v : view) : view := foldl (fun v x => mouseMove x v) v xs.

Lemma moves_app xs ys v : moves (xs ++ ys) v = moves ys (moves xs v).
Proof. apply foldl_app. Qed.

(** While a column is dragged only its width changes. *)
Definition dragging_column (v0 v : view) (leaf : nat) (x0 sx : Z) : Prop :=
  flameState v = Resizing /\ type v = Column /\ resizingLeaf v = leaf /\ resizingColumn v = Some leaf /\
  dragStartX v = x0 /\ startX v = sx /\
  (column_cols v = column_cols v0 \/ exists w, column_cols v = <[leaf := w]> (column_cols v0)) /\
  (data_cols v = data_cols v0 \/ exists w, data_cols v = <[leaf := w]> (data_cols v0)) /\
  row_cols v = row_cols v0 /\ scrollable_left v = scrollable_left v0 /\ header_left v = header_left v0 /\
  corner_width v = corner_width v0 /\ columnResized v = columnResized v0 /\ rowHeaderResized v = rowHeaderResized v0.

Lemma move_column v0 v leaf x0 sx x : dragging_column v0 v leaf x0 sx ->
  let v' := mouseMove x v in
  dragging_column v0 v' leaf x0 sx /\
  column_cols v' = <[leaf := Z.max 30 (sx + (x - x0))]> (column_cols v0) /\
  data_cols v' = <[leaf := Z.max 30 (sx + (x - x0))]> (data_cols v0).
Proof.
  intros (H1 & H2 & H3 & H4 & H5 & H6 & H7 & H8 & H9). cbv zeta. unfold mouseMove, _synchronizeColumnWidth, updateColumnWidth. rewrite H1, H2, H3, H4, H5, H6. cbn zeta.
  rewrite clamp. unfold dragging_column. cbn.
  assert (E1 : forall w, <[leaf := w]> (column_cols v) = <[leaf := w]> (column_cols v0)).
  { intros w. destruct H7 as [->|[w' ->]]; [done|by rewrite list_insert_insert_eq]. }
  assert (E2 : forall w, <[leaf := w]> (data_cols v) = <[leaf := w]> (data_cols v0)).
  { intros w. destruct H8 as [->|[w' ->]]; [done|by rewrite list_insert_insert_eq]. }
  rewrite E1, E2. split; [|done]. destruct H9 as (? & ? & ? & ? & ? & ?). split_and!; try done; right; by eexists.
Qed.

Lemma moves_column v0 leaf x0 sx xs : forall v, dragging_column v0 v leaf x0 sx -> dragging_column v0 (moves xs v) leaf x0 sx.
Proof.
  induction xs as [|x xs IH]; intros v H; [done|]. cbn [moves foldl]. apply IH. by apply (move_column v0 v leaf x0 sx x).
Qed.

Definition dragging_row (v0 v : view) (k : nat) (c : cell) (cs : list cell) (x0 sx off : Z) : Prop :=
  flameState v = Resizing /\ type v = Row /\ resizingColumn v = Some k /\ resizingCell v = Some c /\ cells v = Some cs /\
  dragStartX v = x0 /\ startX v = sx /\ offset v = off /\
  (row_cols v = row_cols v0 \/ exists w, row_cols v = <[k := w]> (row_cols v0)) /\
  column_cols v = column_cols v0 /\ data_cols v = data_cols v0 /\
  columnResized v = columnResized v0 /\ rowHeaderResized v = rowHeaderResized v0.

Lemma move_row v0 v k c cs x0 sx off x : dragging_row v0 v k c cs x0 sx off ->
  let v' := mouseMove x v in
  let w := Z.max 30 (sx + (x - x0)) in
  dragging_row v0 v' k c cs x0 sx off /\ row_cols v' = <[k := w]> (row_cols v0) /\
  scrollable_left v' = off + w - sx /\ header_left v' = off + w - sx /\ corner_width v' = off + w - sx.
Proof.
  intros (H1 & H2 & H3 & H4 & H4' & H5 & H6 & H7 & H8 & H9). cbv zeta. unfold mouseMove. rewrite H1, H2, H3, H5, H6, H7. cbn zeta.
  rewrite clamp. unfold dragging_row. cbn.
  assert (E1 : forall w, <[k := w]> (row_cols v) = <[k := w]> (row_cols v0)).
  { intros w. destruct H8 as [->|[w' ->]]; [done|by rewrite list_insert_insert_eq]. }
  rewrite E1. split; [|done]. destruct H9 as (? & ? & ? & ?). split_and!; try done; right; by eexists.
Qed.

Lemma moves_row v0 k c cs x0 sx off xs : forall v, dragging_row v0 v k c cs x0 sx off ->
  dragging_row v0 (moves xs v) k c cs x0 sx off.
Proof.
  induction xs as [|x xs IH]; intros v H; [done|]. cbn [moves foldl]. apply IH. by apply (move_row v0 v k c cs x0 sx off x).
Qed.

(** The lines of row headers start with a line of one plain cell per level. *)
Definition plain_first (v : view) : Prop := exists rest, header_lines v = replicate (length (row_cols v)) None :: rest.

Lemma omap_plain i n : forall k0,
  omap (plain_of i) (imap (fun k c => ((k0 + k)%nat, c)) (replicate n None)) = (fun k => (i, (k0 + k)%nat)) <$> seq 0 n.
Proof.
  induction n as [|n IH]; intros k0; [done|]. cbn [replicate imap]. 
  rewrite (imap_ext _ (fun k c => ((S k0 + k)%nat, c))) by (intros; cbn; f_equal; lia).
  cbn [omap list_omap plain_of snd fst]. rewrite IH. cbn [seq fmap list_fmap]. f_equal.
  rewrite <- fmap_S_seq, <- list_fmap_compose. apply list_fmap_ext. intros ? ? ?. cbn. f_equal. lia.
Qed.

Lemma plain_cells_first v k : plain_first v -> (k < length (row_cols v))%nat ->
  plain_cells (header_lines v) (length (row_cols v)) !! k = Some (0%nat, k).
Proof.
  intros [rest E] Hk. unfold plain_cells. rewrite E. cbn [imap concat].
  assert (line_cells 0 (replicate (length (row_cols v)) None) = (fun k => (0%nat, k)) <$> seq 0 (length (row_cols v))) as ->.
  { exact (omap_plain 0 (length (row_cols v)) 0). }
  rewrite lookup_take_lt by done. rewrite lookup_app_l by (by rewrite length_fmap, length_seq).
  rewrite list_lookup_fmap, lookup_seq_lt by done. done.
Qed.

(** ** Lemmas on scrolling *)

(** The headers are where the last frame put them, and a frame is on its way when they
    are not where the table is. *)
Record scroll_ok (s : scrolling) : Prop := {
  so_frames : frames s = if isScrolling s then 1%nat else 0%nat;
  so_last : lastScrollTop s = None /\ lastScrollLeft s = None /\ isScrolling s = false /\ scrollTop s = 0 /\ scrollLeft s = 0 \/
            lastScrollTop s = Some (scrollTop s) /\ lastScrollLeft s = Some (scrollLeft s);
  so_top : rowHeader_top s = default 0 (Z.opp <$> lastSetScrollTop s);
  so_left : columnHeader_left s = default 0 (Z.opp <$> lastSetScrollLeft s);
  so_set : isScrolling s = false -> lastSetScrollTop s = lastScrollTop s /\ lastSetScrollLeft s = lastScrollLeft s
}.

Lemma scroll_step_ok ev s : match ev with Rerender => False | _ => True end -> scroll_ok s -> scroll_ok (scroll_step ev s).
Proof.
  intros Hev [Hf Hl Ht Hle Hs]. destruct ev as [t l| |]; [| |done]; cbn [scroll_step].
  - split; cbn; [rewrite Hf; by destruct (isScrolling s)|by right|done|done|done].
  - destruct (frames s) as [|n] eqn:En; [by split; rewrite ?En|].
    assert (isScrolling s = true /\ n = 0%nat) as [Hi ->] by (destruct (isScrolling s); split; congruence).
    assert (lastScrollTop s = Some (scrollTop s) /\ lastScrollLeft s = Some (scrollLeft s)) as [E1 E2].
    { destruct Hl as [(_ & _ & ? & _)|?]; [congruence|done]. }
    split; cbn; [done|by right| | |done].
    + case_bool_decide as H; cbn; [by rewrite Ht, H|done].
    + case_bool_decide as H; cbn; [by rewrite Hle, H|done].
Qed.

Lemma scroll_run_ok evs : forall s, Forall (fun ev => match ev with Rerender => False | _ => True end) evs ->
  scroll_ok s -> scroll_ok (scroll_run evs s).
Proof.
  induction evs as [|ev evs IH]; intros s Hf Hs; [done|]. inversion Hf; subst. apply IH; [done|]. by apply scroll_step_ok.
Qed.

Lemma unscrolled_ok : scroll_ok unscrolled.
Proof. split; cbn; try done. left. by split_and!. Qed.

(** ** Lemmas on places *)

Lemma sum_Z_acc l : forall a, foldl Z.add a l = a + sum_Z l.
Proof.
  unfold sum_Z. induction l as [|x l IH]; intros a; cbn [foldl]; [lia|]. rewrite IH, (IH (0 + x)). lia.
Qed.

Lemma sum_Z_const {A} (c : Z) (l : list A) : sum_Z ((fun _ => c) <$> l) = Z.of_nat (length l) * c.
Proof. induction l as [|x l IH]; [done|]. cbn [fmap list_fmap]. unfold sum_Z. cbn [foldl]. rewrite sum_Z_acc, IH. cbn [length]. lia. Qed.

Lemma header_height_acc h hs : forall a,
  foldl (fun t x => t + x * h) a hs = a + h * sum_Z hs.
Proof.
  induction hs as [|x hs IH]; intros a; cbn [foldl]; [unfold sum_Z; cbn; lia|].
  rewrite IH. unfold sum_Z. cbn [foldl]. rewrite (sum_Z_acc hs (0 + x)). unfold sum_Z. lia.
Qed.

(** ** Lemmas on leaves *)

Lemma countLeaves_refs h : countLeaves h = length (leaf_refs h).
Proof.
  induction h as [o|o cs IH] using hnode_nested_ind; [done|]. cbn [leaf_refs]. 
  induction cs as [|c cs IHcs]; [done|].
  change (countLeaves (HNode o (Some (c :: cs)))) with (countLeaves c + countLeaves (HNode o (Some cs)))%nat.
  rewrite (IH c) by set_solver. rewrite IHcs by (intros c' Hc'; apply IH; set_solver).
  cbn [mbind list_bind]. by rewrite length_app.
Qed.

(** A header of a tree. *)
Inductive within (c : hnode) : hnode -> Prop :=
| within_self : within c c
| within_child o cs h : h ∈ cs -> within c h -> within c (HNode o (Some cs)).

Lemma laid_within P m d h c : laid P m d h -> within c h -> exists d' a, m !! ref c = Some a /\ P d' c a.
Proof.
  intros Hl Hw. revert d Hl. induction Hw as [|o cs h Hh _ IH]; intros d Hl.
  - destruct Hl as [d o cs a E Hp _]. by exists d, a.
  - inversion Hl as [d' o' cs' a E Hp Hc]; subst. apply (IH (S d)). by apply Hc.
Qed.

(** ** Properties *)

(** Dragging the handle of a column gives the column, in the headers and in the table
    alike, the width it had plus the distance of the pointer, but at least 30 pixels, and
    leaves all other columns alone; when the button is released the delegate is told and
    the view is idle again. *)
Theorem column_is_resized cw v leaf w x0 xs x d css outer rows rhs t :
  flameState v = Idle -> (leaf < length (column_cols v))%nat -> hasColumnResized d = true ->
  let r := mouseDown cw (ColumnHandle leaf w) x0 v in
  let v1 := moves (xs ++ [x]) r.1 in
  let width := Z.max 30 (w + 1 + (x - x0)) in
  r.2 = Ok (JBool true) /\
  column_cols v1 = <[leaf := width]> (column_cols v) /\ data_cols v1 = <[leaf := width]> (data_cols v) /\
  row_cols v1 = row_cols v /\ scrollable_left v1 = scrollable_left v /\ corner_width v1 = corner_width v /\
  exists v2, mouseUp rows rhs t (Some d) css outer v1 = (v2, Ok (JBool true)) /\ flameState v2 = Idle /\
    columnResized v2 = (leaf, css) :: columnResized v.
Proof.
  intros Hi Hleaf Hd. cbv zeta. unfold mouseDown. rewrite Hi. rewrite (goto_click cw v Hi). cbn [fst].
  unfold resize_from. rewrite goto_resizing by done. unfold enter_resizing. cbn [type resizingLeaf column_cols start_resize put_state].
  rewrite eq_nat by done. cbn [fst snd].
  match goal with |- context [moves (xs ++ [x]) ?v0] => set (v0' := v0) end.
  assert (Hdr : dragging_column v v0' leaf x0 (w + 1)) by (unfold v0'; split_and!; auto).
  rewrite moves_app. pose proof (moves_column v leaf x0 (w + 1) xs v0' Hdr) as Hdr2.
  destruct (move_column v _ leaf x0 (w + 1) x Hdr2) as (Hdr3 & Ec & Ed). change (moves [x] ?y) with (mouseMove x y).
  set (v3 := mouseMove x (moves xs v0')) in *.
  destruct Hdr3 as (F1 & F2 & F3 & F4 & F5 & F6 & _ & _ & F9 & F10 & F11 & F12 & F13 & F14).
  split_and!; try done.
  unfold mouseUp. rewrite F1. unfold tell_delegate. rewrite F2, Hd. cbn [fst snd]. eexists. split; [reflexivity|].
  split; [done|]. cbn. by rewrite F3, F13.
Qed.

(** Dragging the handle of a row header resizes the level in which the header ends, by
    the distance of the pointer but to no less than 30 pixels, and moves the table and its
    column headers along with it; the other levels are left alone. *)
Theorem row_header_is_resized cw v c x0 xs x :
  flameState v = Idle -> plain_first v ->
  let following := nextAll (header_lines v) c in
  let k := (length (row_cols v) - sum_list (span_of <$> following) - 1)%nat in
  (sum_list (span_of <$> following) < length (row_cols v))%nat ->
  Forall (.= None) following \/ (exists n, following = [Some n]) ->
  let r := mouseDown cw (RowHandle c) x0 v in
  let v1 := moves (xs ++ [x]) r.1 in
  let start := cw (0%nat, k) + 1 in
  let width := Z.max 30 (start + (x - x0)) in
  r.2 = Ok (JBool true) /\
  row_cols v1 = <[k := width]> (row_cols v) /\ column_cols v1 = column_cols v /\ data_cols v1 = data_cols v /\
  scrollable_left v1 = corner_width v + (width - start) /\ header_left v1 = scrollable_left v1 /\
  corner_width v1 = scrollable_left v1.
Proof.
  intros Hi Hp following k Hsum Hf. cbv zeta. unfold mouseDown. rewrite Hi. rewrite (goto_click cw v Hi). cbn [fst].
  unfold resize_from. rewrite goto_resizing by done. unfold enter_resizing.
  cbn [type resizingCell row_cols header_lines start_resize put_state fmap option_fmap option_map default from_option id].
  fold following.
  assert (Hk : leaf_index (length (row_cols v)) following = Z.of_nat k).
  { unfold leaf_index. rewrite remaining_ok by done. unfold k. lia. }
  rewrite Hk. rewrite (proj2 (Z.ltb_ge _ _)) by lia. rewrite Nat2Z.id.
  assert (Hlt : (k < length (row_cols v))%nat) by (unfold k; lia).
  rewrite (plain_cells_first v k Hp Hlt), eq_nat by done. cbn [fst snd].
  match goal with |- context [moves (xs ++ [x]) ?v0] => set (v0' := v0) end.
  set (cs := plain_cells (header_lines v) (length (row_cols v))) in *.
  assert (Hdr : dragging_row v v0' k (0%nat, k) cs x0 (cw (0%nat, k) + 1) (corner_width v)) by (unfold v0'; split_and!; auto).
  rewrite moves_app. pose proof (moves_row v k (0%nat, k) cs x0 (cw (0%nat, k) + 1) (corner_width v) xs v0' Hdr) as Hdr2.
  destruct (move_row v _ k (0%nat, k) cs x0 (cw (0%nat, k) + 1) (corner_width v) x Hdr2) as (Hdr3 & E1 & E2 & E3 & E4).
  change (moves [x] ?y) with (mouseMove x y).
  destruct Hdr3 as (_ & _ & _ & _ & _ & _ & _ & _ & _ & F1 & F2 & _).
  rewrite E1, E2, E3, E4, F1, F2. split_and!; try done; lia.
Qed.

(** The headers follow the table: at most one frame is asked for at a time, whenever
    none is on its way the headers are scrolled exactly as far as the table, and when one
    is, it puts them there. *)
Theorem headers_follow_table evs :
  Forall (fun ev => match ev with Rerender => False | _ => True end) evs ->
  let s := scroll_run evs unscrolled in
  let aligned s := rowHeader_top s = - scrollTop s /\ columnHeader_left s = - scrollLeft s in
  (frames s <= 1)%nat /\ (frames s = 0%nat -> aligned s) /\
  (frames s = 1%nat -> frames (scroll_step Frame s) = 0%nat /\ aligned (scroll_step Frame s)).
Proof.
  intros Hev s aligned. pose proof (scroll_run_ok evs unscrolled Hev unscrolled_ok) as Hs. fold s in Hs.
  assert (Hal : forall s, scroll_ok s -> frames s = 0%nat -> aligned s).
  { intros s0 [Hf Hl Ht Hle Hset] E. unfold aligned. destruct (isScrolling s0) eqn:Ei; [congruence|].
    destruct (Hset eq_refl) as [E1 E2]. rewrite Ht, Hle, E1, E2.
    destruct Hl as [(-> & -> & _ & -> & ->)|(-> & ->)]; done. }
  split_and!.
  - destruct Hs as [-> _ _ _ _]. destruct (isScrolling s); lia.
  - by apply Hal.
  - intros E. pose proof (scroll_step_ok Frame s I Hs) as H.
    assert (frames (scroll_step Frame s) = 0%nat) as E0 by (cbn [scroll_step]; by rewrite E).
    split; [done|]. by apply Hal.
Qed.

(** The parts of a table fit: with row headers whose given widths are positive, the
    table begins to the right of the corner, one pixel after the widths of the levels of
    row headers, and giving every line of the column headers the height of one row puts
    it where it was drawn. *)
Theorem parts_fit g :
  renderRowHeader g = true -> renderColumnHeader g = true -> (0 < rowDepth g)%nat ->
  (forall ws, rowHeaderWidths g = Some ws -> Forall (fun w => w = JUndefined \/ exists z, w = JNum z /\ 0 < z) ws) ->
  leftOffset g = sum_Z (row_header_cols g) + 1 /\ length (row_header_cols g) = rowDepth g /\
  _setColumnHeaderHeights (replicate (columnDepth g) 1) 21 (if title g then 18 else 0) =
    (topOffset g, columnHeaderHeight g, topOffset g).
Proof.
  intros Hr Hc Hd Hw. split; [|split].
  - unfold leftOffset, row_header_cols. rewrite Hr, Hc, decide_False by lia. rewrite Nat.max_l by lia.
    destruct (rowHeaderWidths g) as [ws|] eqn:E.
    + rewrite Z.add_0_r. do 2 f_equal. apply list_fmap_ext. intros i y Hy. unfold width_at.
      destruct (ws !! y) as [w|] eqn:Ew; [|done]. cbn. specialize (Hw ws eq_refl).
      rewrite Forall_lookup in Hw. destruct (Hw y w Ew) as [->|(z & -> & Hz)]; [done|]. cbn.
      by destruct (Z.eqb_spec z 0); [lia|].
    + cbn [truthy]. rewrite sum_Z_const, length_seq. lia.
  - unfold row_header_cols. rewrite decide_False by lia. by rewrite length_fmap, length_seq.
  - unfold _setColumnHeaderHeights, header_height, topOffset. rewrite Hc, header_height_acc, length_replicate.
    assert (sum_Z (replicate (columnDepth g) 1) = Z.of_nat (columnDepth g)) as ->.
    { clear. induction (columnDepth g) as [|n IH]; [done|]. cbn [replicate]. unfold sum_Z. cbn [foldl]. rewrite sum_Z_acc, IH. lia. }
    unfold columnHeaderHeight. f_equal; [f_equal|]; lia.
Qed.

(** The handle of a row header with children is as high as the lines the header
    spans. *)
Theorem handle_covers_lines g hs m h c :
  fresh_forest hs m -> h ∈ hs -> within c h -> has_children c = true ->
  withColumnHeader g = true -> isResizable g = true ->
  exists a, store (rowHeaderRows hs (hs ≫= leaf_refs) m) !! ref c = Some a /\
    resize_handle g HRows c = HandleOf (21 * Z.of_nat (default 1%nat (rowspan a))).
Proof.
  intros Hf Hh Hc Hch Hw Hr. destruct (fresh_laid HRows hs m [[]] Hf) as [_ Hl].
  destruct (laid_within _ _ _ _ c (Hl h Hh) Hc) as (d & a & Ea & _ & Hs & _).
  exists a. split; [exact Ea|]. unfold resize_handle. rewrite Hw, Hr, Hch. cbn [andb].
  change (span_along HRows a) with (default 1%nat (rowspan a)) in Hs. rewrite Hs, countLeaves_refs. f_equal. lia.
Qed.

(** ** Witnesses *)

Definition ex_view (lines : list (list (option nat))) : view :=
  View Idle Column 0 None None None 0 0 0 true [88; 88; 88] [60; 70; 80] [88; 88; 88] 211 211 211 lines [] [] [].
Definition ex_width (c : cell) : Z := 60 + 10 * Z.of_nat c.2.
Definition ex_lines : list (list (option nat)) := [[None; None; None]; [None; Some 2%nat]].

Lemma column_is_resized_witness :
  let r := mouseDown ex_width (ColumnHandle 1 88) 500 (ex_view ex_lines) in
  column_cols (moves ([510; 20] ++ [420]) r.1) = [88; 30; 88] /\
  exists v2, mouseUp [] [] ClickElsewhere (Some (Delegate true false false false)) 30 ex_width (moves ([510; 20] ++ [420]) r.1) = (v2, Ok (JBool true)) /\
    columnResized v2 = [(1%nat, 30)].
Proof.
  destruct (column_is_resized ex_width (ex_view ex_lines) 1 88 500 [510; 20] 420 (Delegate true false false false) 30 ex_width [] [] ClickElsewhere)
    as (_ & H1 & _ & _ & _ & _ & v2 & H2 & _ & H3); [reflexivity|cbn; lia|reflexivity|].
  split; [exact H1|]. exists v2. split; [exact H2|exact H3].
Defined.

Lemma row_header_is_resized_witness :
  let r := mouseDown ex_width (RowHandle (1, 0)%nat) 500 (ex_view ex_lines) in
  row_cols (moves ([510] ++ [520]) r.1) = [81; 70; 80] /\ scrollable_left (moves ([510] ++ [520]) r.1) = 231.
Proof.
  destruct (row_header_is_resized ex_width (ex_view ex_lines) (1, 0)%nat 500 [510] 520) as (_ & H1 & _ & _ & H2 & _);
    [reflexivity|by exists [[None; Some 2%nat]]|cbn; lia|right; by exists 2%nat|].
  split; [exact H1|exact H2].
Defined.

Lemma headers_follow_table_witness :
  let s := scroll_run [Scroll 10 0; Scroll 20 5] unscrolled in
  frames s = 1%nat /\ rowHeader_top s = 0 /\ rowHeader_top (scroll_step Frame s) = -20 /\ columnHeader_left (scroll_step Frame s) = -5.
Proof.
  destruct (headers_follow_table [Scroll 10 0; Scroll 20 5]) as (_ & _ & H); [by repeat constructor|].
  destruct (H eq_refl) as [_ [H1 H2]]. split; [reflexivity|]. split; [reflexivity|]. split; [exact H1|exact H2].
Defined.

Definition ex_geometry : geometry := Geometry true true false 88 JNull (Some [JNum 60; JUndefined]) 2 3.

Lemma parts_fit_witness :
  leftOffset ex_geometry = 237 /\ leftOffset ex_geometry = sum_Z (row_header_cols ex_geometry) + 1.
Proof.
  split; [reflexivity|]. apply (parts_fit ex_geometry); [reflexivity|reflexivity|cbn; lia|].
  intros ws [= <-]. constructor; [right; by exists 60|]. constructor; [by left|constructor].
Defined.

Definition ex_settings : settings := Settings true true false false None.

Lemma handle_covers_lines_witness :
  exists a, store (rowHeaderRows ex_tree (ex_tree ≫= leaf_refs) ∅) !! 1%nat = Some a /\
    resize_handle ex_settings HRows (HNode 1 (Some [HNode 2 None; HNode 3 (Some [HNode 4 None; HNode 5 None])])) =
      HandleOf (21 * Z.of_nat (default 1%nat (rowspan a))).
Proof.
  refine (handle_covers_lines ex_settings ex_tree ∅ _ (HNode 1 (Some [HNode 2 None; HNode 3 (Some [HNode 4 None; HNode 5 None])]))
    ex_tree_fresh (list_elem_of_here _ _) (within_self _) _ _ _); reflexivity.
Defined.

(** ** Departures *)

(** A number added after an attribute is appended to it: with another cell before one
    with a [colspan] among those that follow, the level of the resized header is not found
    and the view throws; it stays in the state resizing without a cell. *)
Lemma spans_are_concatenated :
  remainingDepth [None; Some 2%nat] = JS "12" /\
  let r := mouseDown ex_width (RowHandle (0, 0)%nat) 500 (ex_view [[None; None; Some 2%nat]]) in
  r.2 = Throw TypeError /\ flameState r.1 = Resizing /\ resizingCell r.1 = None.
Proof. by split_and!. Qed.

(** The cells are collected line by line: when the first line has a cell that spans
    levels, the cells of the next line are counted as those of the levels that follow. *)
Lemma cells_of_wrong_levels :
  let r := mouseDown ex_width (RowHandle (1, 1)%nat) 500 (ex_view [[None; Some 2%nat]; [None; None; None]]) in
  r.2 = Ok (JBool true) /\ resizingColumn r.1 = Some 1%nat /\ resizingCell r.1 = Some (1, 0)%nat.
Proof. by split_and!. Qed.

(** The view remembers where it put the headers, also when it has been rendered again
    with new ones: scrolled back to the same place they stay behind. *)
Lemma headers_left_behind :
  let s := scroll_run [Scroll 100 0; Frame; Rerender; Scroll 100 0; Frame] unscrolled in
  frames s = 0%nat /\ scrollTop s = 100 /\ rowHeader_top s = 0.
Proof. by split_and!. Qed.

(** A delegate that is told of row headers only is told of columns as well, with the
    cells of a resizing that has not been: the view throws and goes on resizing. *)
Lemma row_delegate_of_columns :
  let r := mouseDown ex_width (ColumnHandle 1 88) 500 (ex_view ex_lines) in
  let r' := mouseUp [] [] ClickElsewhere (Some (Delegate false true false false)) 88 ex_width r.1 in
  r'.2 = Throw TypeError /\ flameState r'.1 = Resizing.
Proof. by split_and!. Qed.

(** A width given as [null] is zero where the table begins, and the default where the
    level is drawn. *)
Lemma null_width_differs :
  let g := Geometry true true false 88 JNull (Some [JNull]) 1 1 in
  leftOffset g = 1 /\ row_header_cols g = [88].
Proof. by split_and!. Qed.
