(* ===== verification/TableMarkup.v ===== *)
(** * A table as it is rendered ([views/table_view.js], [table_data_view.js])

    The parts of a table in their places: its title, the corner, the headers of columns and
    rows with the widths of their columns, and the cells; and a column that gets the width of
    what it shows.  The geometry and the cells of headers are those of [TableView], the cells
    of data those of [TableCells], the measuring of strings that of [Measure]. *)

From S2P Require Import Prelude.
From S2P Require Measure TableAdapter TableCells TableView.
Import TableAdapter.
Open Scope string_scope.
Open Scope list_scope.
Open Scope flame_scope.
Open Scope Z_scope.

(** The [contentAdapter.headers] of a table: the nodes of the two trees with what is read of
    them, the lines of headers, and the leaves of the columns by their [render_width]. *)
Record headers := Headers {
  node : nat -> hnode;
  header_data : nat -> TableView.header;
  columnRows : hstate;
  rowRows : hstate;
  columnLeafs : list (option Z)
}.

(** A [col] has a width and, in row headers, a class for its level; a line of column headers
    has one, too. *)
Record col := Col { col_width : Z; col_level : option nat }.

Inductive part :=
| PanelTitle (text : string)
| TableCorner (top height width : Z)
| HeaderTable (type : header_type) (offset : Z) (cols : list col) (rows : list (option nat * list TableView.td))
| Scrollable (top left : Z) (cells : list TableCells.td).

Section markup.
Context (escape : string -> string).
Context (g : TableView.geometry) (conf : TableView.settings).

Definition render_width (leaf : option Z) : jsval := match leaf with Some w => JNum w | None => JUndefined end.

Definition no_attrs : attrs := Attrs 0 0 None None.

Definition colgroup (type : header_type) (h : headers) : list col :=
  match type with
  | HRows => imap (fun i w => Col w (Some (S i))) (TableView.row_header_cols g)
  | HColumns => (fun w => Col w None) <$> TableView.column_header_cols g (render_width <$> columnLeafs h)
  end.

Definition _renderHeader (type : header_type) (offset : Z) (h : headers) : part :=
  let rows := match type with HColumns => columnRows h | HRows => rowRows h end in
  HeaderTable type offset (colgroup type h)
    (imap (fun i row =>
             (match type with HColumns => Some (S i) | HRows => None end,
              TableView._renderRow escape conf type (header_data h) (fun o => default no_attrs (store rows !! o)) (node h <$> row)))
       (headerRows rows)).

(** Without headers nothing is rendered.  [title] is the title of the content. *)
Definition render (title : string) (h : option headers) (d : TableCells.data) : outcome (list part) :=
  match h with
  | None => Ok []
  | Some h =>
      let titleHeight := if TableView.title g then 18 else 0 in
      let leftOffset := TableView.leftOffset g in
      let topOffset := TableView.topOffset g in
      do! cells <- TableCells._renderTable (columnLeafs h) (TableView.defaultColumnWidth g) d ;
      Ok ((if TableView.title g then [PanelTitle (escape title)] else [])
          ++ (if TableView.renderColumnHeader g
              then [TableCorner titleHeight (TableView.columnHeaderHeight g) leftOffset; _renderHeader HColumns leftOffset h]
              else [])
          ++ (if TableView.renderRowHeader g then [_renderHeader HRows topOffset h] else [])
          ++ [Scrollable topOffset leftOffset cells])
  end.

(** ** Lemmas *)

(** The width of a cell is that of the column of its leaf. *)
Lemma cellWidth_col h j w : TableCells.cellWidth (columnLeafs h) (TableView.defaultColumnWidth g) j = Ok w ->
  col_width <$> colgroup HColumns h !! j = Some w.
Proof.
  unfold TableCells.cellWidth. cbn [colgroup]. unfold TableView.column_header_cols.
  rewrite !list_lookup_fmap. destruct (columnLeafs h !! j) as [[z|]|]; cbn; [|congruence|done].
  intros [= <-]. by destruct (Z.eqb_spec z 0) as [->|].
Qed.

Lemma render_cell_width h p e el : TableCells.render_cell (columnLeafs h) (TableView.defaultColumnWidth g) p e = Ok el ->
  TableCells.cellWidth (columnLeafs h) (TableView.defaultColumnWidth g) p.2 = Ok (TableCells.width el).
Proof.
  destruct e as [|b|c]; cbn; [|done|]; (destruct (TableCells.cellWidth _ _ _) as [w|]; [|done]); cbn; by intros [= <-].
Qed.

(** The cells of a line of data. *)
Definition line (C : nat) (cells : list TableCells.td) (i : nat) : list TableCells.td := take C (drop (i * C) cells).

Lemma line_widths h d R cells i :
  TableCells.rectangular d R (length (columnLeafs h)) ->
  TableCells._renderTable (columnLeafs h) (TableView.defaultColumnWidth g) d = Ok cells -> (i < R)%nat ->
  TableCells.width <$> line (length (columnLeafs h)) cells i = col_width <$> colgroup HColumns h.
Proof.
  intros Hd Hc Hi. apply (TableCells.render_spec _ _ d R _ cells Hd) in Hc as [Hl Hc]. set (C := length (columnLeafs h)) in *.
  assert (length (colgroup HColumns h) = C) as HC by (cbn; unfold TableView.column_header_cols; by rewrite !length_fmap).
  assert (i * C + C <= R * C)%nat as HR by nia.
  apply list_eq. intros j. rewrite !list_lookup_fmap. unfold line. destruct (decide (j < C)%nat) as [Hj|Hj].
  - rewrite lookup_take_lt, lookup_drop by done. destruct (Hc i j Hi Hj) as (el & -> & Hel). cbn.
    symmetry. apply cellWidth_col. by apply (render_cell_width h (i, j) _ el Hel).
  - rewrite lookup_take_ge, (lookup_ge_None_2 (colgroup HColumns h)) by (rewrite ?HC; lia). done.
Qed.

(** ** Properties *)

(** C40. The parts of a table fit together: the header of the columns begins where the scrolled
    cells do, and the cells begin below the corner and right of it; in every line of data the
    cells have the widths of the columns of that header, one for each, so that each stands
    below its header.  The lines of the headers are those of the trees, numbered in the header
    of columns, and the header of rows begins where the cells do. *)
Theorem columns_line_up title h d R ps :
  render title (Some h) d = Ok ps -> TableCells.rectangular d R (length (columnLeafs h)) -> TableView.renderColumnHeader g = true ->
  exists top height left cells rows,
    TableCorner top height left ∈ ps /\ HeaderTable HColumns left (colgroup HColumns h) rows ∈ ps /\
    Scrollable (top + height) left cells ∈ ps /\
    (TableView.renderRowHeader g = true -> exists lines, HeaderTable HRows (top + height) (colgroup HRows h) lines ∈ ps /\
      length lines = length (headerRows (rowRows h))) /\
    rows.*1 = Some <$> seq 1 (length (headerRows (columnRows h))) /\
    length cells = (R * length (columnLeafs h))%nat /\
    forall i, (i < R)%nat -> TableCells.width <$> line (length (columnLeafs h)) cells i = col_width <$> colgroup HColumns h.
Proof.
  intros H Hd Hg. cbn [render] in H. destruct (TableCells._renderTable _ _ d) as [cells|] eqn:Ec; [|done]. cbn in H. injection H as <-.
  rewrite Hg. assert (TableView.topOffset g = (if TableView.title g then 18 else 0) + TableView.columnHeaderHeight g) as Ht
    by (unfold TableView.topOffset; by rewrite Hg).
  rewrite Ht. eexists _, _, _, cells, _. split_and!.
  - apply elem_of_app. right. apply list_elem_of_here.
  - apply elem_of_app. right. apply list_elem_of_further, list_elem_of_here.
  - rewrite !elem_of_app. right. right. right. apply list_elem_of_here.
  - intros ->. eexists. split.
    + rewrite !elem_of_app. right. right. left. apply list_elem_of_here.
    + by rewrite length_imap.
  - apply list_eq. intros k. rewrite list_lookup_fmap, list_lookup_imap, list_lookup_fmap.
    destruct (headerRows (columnRows h) !! k) as [row|] eqn:E; cbn.
    + apply lookup_lt_Some in E. by rewrite lookup_seq_lt by lia.
    + apply lookup_ge_None in E. by rewrite lookup_seq_ge by lia.
  - by apply (TableCells.render_spec _ _ d R _ cells Hd) in Ec as [Hl _].
  - intros i Hi. by apply (line_widths h d R).
Qed.
End markup.

(** ** The width of what a column shows *)

(** A leaf of the column headers, and the formatted values of the cells of the table, of
    which some are missing. *)
Record leaf := Leaf { leafIndex : nat; headerLabel : string }.

Definition getColumnContents (tableData : list (list (option string))) (columnHeader : leaf) : list string :=
  (fun e => default "" (mjoin (e !! leafIndex columnHeader))) <$> tableData.

Definition getLeafHeaderLabel (columnLeafs : list leaf) (header : leaf) : outcome string :=
  do! leaf <- or_throw (columnLeafs !! leafIndex header) TypeError ; Ok (headerLabel leaf).

Section measuring.
Context (escape : string -> string) (client : Measure.mel -> Z * Z).
Context (useAutoWidth : bool) (d : option TableView.delegate).
Context (columnLeafs : list leaf) (tableData : list (list (option string))).

Abbreviation measure := (Measure.measureString escape client).
Abbreviation measured := (Measure.measured escape client).

Definition bold_style (isBold : bool) : string := if isBold then "font-weight:bold;" else "".

(** [doubleClick] of the state [idle], on the header with the given [data-leaf-index] or
    elsewhere. *)
Definition doubleClick (index : option nat) (isBold : bool) (p : Measure.page) (v : TableView.view) : Measure.page * outcome (TableView.view * bool) :=
  match useAutoWidth, index with
  | true, Some index =>
      match or_throw (columnLeafs !! index) TypeError with
      | Ok header =>
          let '(p1, columnDimensions) := measure (Measure.Lines (getColumnContents tableData header)) (Some "ember-view") None None p in
          match getLeafHeaderLabel columnLeafs header with
          | Ok label =>
              let '(p2, labelDimensions) := measure (Measure.OneLine label) (Some "ember-view") (Some "label") (Some (bold_style isBold)) p1 in
              let width (x : option (Z * Z)) := default 0 (fst <$> x) in
              (p2, Ok (TableView.doubleClick true d (Some (leafIndex header)) (width columnDimensions) (width labelDimensions) v))
          | Throw e => (p1, Throw e)
          end
      | Throw e => (p, Throw e)
      end
  | _, _ => (p, Ok (v, false))
  end.

Definition content_width (header : leaf) : Z :=
  (measured (Measure.Lines (getColumnContents tableData header)) (Some "ember-view") None None).1.
Definition label_width (header : leaf) (isBold : bool) : Z :=
  (measured (Measure.OneLine (headerLabel header)) (Some "ember-view") (Some "label") (Some (bold_style isBold))).1.

(** A double click on the header of a column gives it, in header and table alike, a width
    in which its longest value and its label fit as they are measured when nothing else was
    measured before, and not less than the least width; the delegate is told, and the other
    columns keep their widths. *)
Theorem auto_width_fits i header isBold p v :
  useAutoWidth = true -> columnLeafs !! i = Some header -> leafIndex header = i ->
  Measure.one_element p -> TableView.flameState v = TableView.Idle ->
  exists p' v' w, doubleClick (Some i) isBold p v = (p', Ok (v', true)) /\ Measure.one_element p' /\
    w = Z.max TableView.MIN_COLUMN_WIDTH (Z.max (content_width header) (label_width header isBold) + 40) /\
    TableView.column_cols v' = <[i := w + 3]> (TableView.column_cols v) /\
    TableView.data_cols v' = <[i := w + 3]> (TableView.data_cols v) /\
    TableView.columnResized v' =
      (if match d with Some d => TableView.hasColumnResized d | None => false end then [(i, w)] else []) ++ TableView.columnResized v.
Proof.
  intros Hu Hh Hi Hp Hv. unfold doubleClick. rewrite Hu, Hh. cbn [or_throw].
  rewrite (Measure.measure_ok escape client _ _ _ _ p Hp). unfold getLeafHeaderLabel. rewrite Hi, Hh. cbn [or_throw outcome_bind].
  rewrite Measure.measure_ok by (right; by eexists). unfold TableView.doubleClick. rewrite Hv.
  eexists _, _, _. split; [reflexivity|]. split; [right; by eexists|]. split; [reflexivity|]. cbn [default fmap option_fmap option_map].
  assert (TableView.auto_width (content_width header) (label_width header isBold) =
    Z.max TableView.MIN_COLUMN_WIDTH (Z.max (content_width header) (label_width header isBold) + 40)) as Hw.
  { unfold TableView.auto_width. cbv zeta. destruct (Z.ltb_spec (Z.max (content_width header) (label_width header isBold) + 40) TableView.MIN_COLUMN_WIDTH); lia. }
  fold (content_width header) (label_width header isBold). rewrite <- Hw.
  destruct d as [d'|]; [destruct (TableView.hasColumnResized d')|]; by cbn.
Qed.
End measuring.

(** ** Witnesses *)

Definition ex_header (o : nat) : TableView.header := TableView.Header (pretty o) "" 0 false [] None.
Definition ex_columns : list hnode := [HNode 1 (Some [HNode 2 None; HNode 3 None]); HNode 4 None].
Definition ex_rows : list hnode := [HNode 5 None; HNode 6 None].
Definition ex_node (o : nat) : hnode :=
  match o with 1%nat => HNode 1 (Some [HNode 2 None; HNode 3 None]) | _ => HNode o None end.
Definition ex_headers : headers :=
  Headers ex_node ex_header (columnHeaderRows ex_columns [2; 3; 4]%nat ∅) (rowHeaderRows ex_rows [5; 6]%nat ∅) [Some 100; None; Some 50].
Definition ex_geometry : TableView.geometry := TableView.Geometry true true true 88 (JNum 120) None 2 1.
Definition ex_settings : TableView.settings := TableView.Settings true true false false None.
Definition ex_cell (s : string) : TableCells.entry := TableCells.Loaded (TableCells.VCell (Some s) None ["num"] [] None None false).
Definition ex_data : TableCells.data :=
  [[ex_cell "1"; ex_cell "2"; ex_cell "3"]; [ex_cell "4"; TableCells.Missing; ex_cell "6"]].

Lemma columns_line_up_witness :
  exists ps, render (fun s => s) ex_geometry ex_settings "Sales" (Some ex_headers) ex_data = Ok ps /\
    length ps = 5%nat /\
    exists top height left cells, Scrollable (top + height) left cells ∈ ps /\
      TableCells.width <$> line 3 cells 1 = [100; 88; 50].
Proof.
  eexists. split; [reflexivity|]. split; [reflexivity|].
  destruct (columns_line_up (fun s => s) ex_geometry ex_settings "Sales" ex_headers ex_data 2 _ eq_refl) as (top & height & left & cells & rows & _ & _ & H & _ & _ & _ & Hw).
  - split_and!; [reflexivity|repeat constructor|lia].
  - reflexivity.
  - exists top, height, left, cells. split; [exact H|]. exact (Hw 1%nat ltac:(lia)).
Defined.

Definition ex_client (e : Measure.mel) : Z * Z := (7 * Z.of_nat (String.length (Measure.innerHTML e)), 20).
Definition ex_leafs : list leaf := [Leaf 0 "Id"; Leaf 1 "Description"].

Lemma auto_width_fits_witness :
  let r := doubleClick (fun s => s) ex_client true None ex_leafs [[Some "1"; Some "ab"]; [None; None]] (Some 1%nat) false
             (Measure.Page [] None) (TableView.ex_view []) in
  exists p' v' w, r = (p', Ok (v', true)) /\ w = 117 /\ TableView.column_cols v' = <[1%nat := 120]> (TableView.column_cols (TableView.ex_view [])).
Proof.
  cbv zeta. destruct (auto_width_fits (fun s => s) ex_client true None ex_leafs [[Some "1"; Some "ab"]; [None; None]] 1 (Leaf 1 "Description") false
    (Measure.Page [] None) (TableView.ex_view [])) as (p' & v' & w & H & _ & Hw & Hc & _); try reflexivity; [by left|].
  exists p', v', w. split; [exact H|]. vm_compute in Hw. subst w. split; [reflexivity|]. exact Hc.
Defined.
