(* ===== verification/MenuScroll.v ===== *)
(** * Scrolling menus ([views/menu_scroll_view.js])

    A menu that is higher than the window shows an arrow at the top and at the bottom
    while there is something to scroll to; the pointer on an arrow scrolls the menu step
    by step, each step scheduling the next with a timer, until the end is reached or the
    pointer leaves the arrow.

    The timers of [Ember.run.later] are numbered in the order they are made, and kept
    with those that have not yet run or been cancelled.  What the viewport shows after
    its [scrollTop] was set is a parameter: the browser keeps it within the content. *)

From S2P Require Import Prelude.
Open Scope string_scope.
Open Scope list_scope.
Open Scope flame_scope.
Open Scope Z_scope.

(** [direction] of an arrow, and [scrollPosition]. *)
Inductive arrow := up | down.
Inductive position := top | middle | bottom.

#[export] Instance arrow_eq_dec : EqDecision arrow.
Proof. solve_decision. Defined.
#[export] Instance position_eq_dec : EqDecision position.
Proof. solve_decision. Defined.

Record scrollview := ScrollView {
  needScrolling : bool;
  scrollDirection : Z;
  scrollPosition : position;
  upShown : bool;              (* [upArrow.isShown] *)
  downShown : bool;            (* [downArrow.isShown] *)
  scrollTop : Z;               (* of the viewport's element *)
  _timer : option nat;
  pending : list nat;          (* timers that will run *)
  timers : nat                 (* timers made so far *)
}.

Definition set_direction z s := ScrollView (needScrolling s) z (scrollPosition s) (upShown s) (downShown s) (scrollTop s) (_timer s) (pending s) (timers s).
Definition set_top z s := ScrollView (needScrolling s) (scrollDirection s) (scrollPosition s) (upShown s) (downShown s) z (_timer s) (pending s) (timers s).
Definition set_pending l s := ScrollView (needScrolling s) (scrollDirection s) (scrollPosition s) (upShown s) (downShown s) (scrollTop s) (_timer s) l (timers s).

(** [scrollPositionDidChange], the observer of [scrollPosition] and [needScrolling]. *)
Definition scrollPositionDidChange (s : scrollview) : scrollview :=
  ScrollView (needScrolling s) (scrollDirection s) (scrollPosition s)
    (needScrolling s && negb (bool_decide (scrollPosition s = top)))
    (needScrolling s && negb (bool_decide (scrollPosition s = bottom)))
    (scrollTop s) (_timer s) (pending s) (timers s).

(** Setting a property to the value it has runs no observer. *)
Definition set_position (p : position) (s : scrollview) : scrollview :=
  if decide (scrollPosition s = p) then s
  else scrollPositionDidChange (ScrollView (needScrolling s) (scrollDirection s) p (upShown s) (downShown s)
         (scrollTop s) (_timer s) (pending s) (timers s)).

Definition set_need (b : bool) (s : scrollview) : scrollview :=
  if decide (needScrolling s = b) then s
  else scrollPositionDidChange (ScrollView b (scrollDirection s) (scrollPosition s) (upShown s) (downShown s)
         (scrollTop s) (_timer s) (pending s) (timers s)).

(** The view as it is created. *)
Definition create : scrollview := ScrollView false 0 top false false 0 None [] 0.

(** [Ember.run.cancel(this._timer)], and [this._timer = Ember.run.later(...)]. *)
Definition cancel_timer (s : scrollview) : scrollview :=
  match _timer s with
  | Some t => set_pending (filter (fun t' => t' <> t) (pending s)) s
  | None => s
  end.

Definition later (s : scrollview) : scrollview :=
  ScrollView (needScrolling s) (scrollDirection s) (scrollPosition s) (upShown s) (downShown s) (scrollTop s)
    (Some (timers s)) (pending s ++ [timers s]) (S (timers s)).

Definition stopScrolling (s : scrollview) : scrollview := cancel_timer (set_direction 0 s).

Section Scrolling.
Context (scrollSize viewPortHeight listHeight : Z).
(** The value of [scrollTop] after it was set to a position. *)
Context (clampTop : Z -> Z).

(** How far [scroll] goes, and whether it continues. *)
Definition scroll_delta (s : scrollview) : Z * bool :=
  let oldTop := scrollTop s in
  if scrollDirection s =? -1 then
    if scrollSize >? oldTop then (oldTop, false) else (scrollSize, true)
  else if scrollDirection s =? 1 then
    let shownBottom := oldTop + viewPortHeight in
    if shownBottom + scrollSize >=? listHeight then (listHeight - shownBottom, false) else (scrollSize, true)
  else (scrollSize, true).

Definition _scrollTo (p : Z) (s : scrollview) : scrollview := set_top (clampTop p) s.

Definition scroll (s : scrollview) : scrollview :=
  let dir := scrollDirection s in
  let oldTop := scrollTop s in
  let (delta, continueScrolling) := scroll_delta s in
  let s1 := _scrollTo (oldTop + delta * dir) s in
  if continueScrolling then set_position middle (later s1)
  else
    let p := if dir =? 1 then bottom else if dir =? -1 then top else scrollPosition s in
    set_position p (stopScrolling s1).

Definition startScrolling (dir : Z) (s : scrollview) : scrollview := scroll (set_direction dir s).

(** A timer runs: it is no longer pending. *)
Definition fire (t : nat) (s : scrollview) : scrollview :=
  scroll (set_pending (filter (fun t' => t' <> t) (pending s)) s).

(** [mouseEnter] and [mouseLeave] of the arrows, with the value they return. *)
Definition arrow_shown (a : arrow) (s : scrollview) : bool :=
  match a with up => upShown s | down => downShown s end.
Definition arrow_dir (a : arrow) : Z := match a with up => -1 | down => 1 end.

Definition mouseEnter (a : arrow) (s : scrollview) : scrollview * bool :=
  if arrow_shown a s then (startScrolling (arrow_dir a) s, true) else (s, false).
Definition mouseLeave (a : arrow) (s : scrollview) : scrollview * bool :=
  if arrow_shown a s then (stopScrolling s, true) else (s, false).

(** What happens to a menu that needs scrolling: the pointer enters an arrow only after
    it left the other one, and a pending timer runs. *)
Inductive step : option arrow * scrollview -> option arrow * scrollview -> Prop :=
| StepEnter a s : step (None, s) (Some a, fst (mouseEnter a s))
| StepLeave a s : step (Some a, s) (None, fst (mouseLeave a s))
| StepFire o t s : t ∈ pending s -> step (o, s) (o, fire t s).

(** The timers run while the pointer stays: the pending ones, [n] times. *)
Fixpoint hold (n : nat) (s : scrollview) : scrollview :=
  match n with
  | O => s
  | S n' => match pending s with [] => s | t :: _ => hold n' (fire t s) end
  end.
End Scrolling.

(** ** What holds of a scrolling menu *)

(** The end that an arrow leads to, and how far away it is. *)
Definition end_position (a : arrow) : position := match a with up => top | down => bottom end.
Definition other (a : arrow) : arrow := match a with up => down | down => up end.

Section Correct.
Context (scrollSize viewPortHeight listHeight : Z) (clampTop : Z -> Z).
Context (Hsize : 0 < scrollSize) (Hfit : viewPortHeight <= listHeight).
(** The browser keeps [scrollTop] within the content, and only that. *)
Context (Hclamp : forall p, 0 <= p <= listHeight - viewPortHeight -> clampTop p = p).

Notation scroll := (scroll scrollSize viewPortHeight listHeight clampTop).
Notation fire := (fire scrollSize viewPortHeight listHeight clampTop).
Notation hold := (hold scrollSize viewPortHeight listHeight clampTop).
Notation mouseEnter := (mouseEnter scrollSize viewPortHeight listHeight clampTop).
Notation step := (step scrollSize viewPortHeight listHeight clampTop).

Definition end_top (a : arrow) : Z := match a with up => 0 | down => listHeight - viewPortHeight end.
Definition distance (a : arrow) (s : scrollview) : Z :=
  match a with up => scrollTop s | down => listHeight - viewPortHeight - scrollTop s end.

(** The arrows and the position agree, and the viewport shows content only. *)
Record shows (s : scrollview) : Prop := {
  sh_need : needScrolling s = true;
  sh_up : upShown s = negb (bool_decide (scrollPosition s = top));
  sh_down : downShown s = negb (bool_decide (scrollPosition s = bottom));
  sh_bounds : 0 <= scrollTop s <= listHeight - viewPortHeight;
  sh_top : scrollPosition s = top -> scrollTop s = 0;
  sh_bottom : scrollPosition s = bottom -> scrollTop s = listHeight - viewPortHeight
}.

Definition idle (s : scrollview) : Prop := scrollDirection s = 0 /\ pending s = [].
Definition scrolling (a : arrow) (s : scrollview) : Prop :=
  scrollDirection s = arrow_dir a /\ scrollPosition s = middle /\
  exists t, _timer s = Some t /\ pending s = [t].
Definition arrived (a : arrow) (s : scrollview) : Prop :=
  idle s /\ scrollPosition s = end_position a /\ scrollTop s = end_top a.

(** The invariant of the steps: a timer is pending only while the pointer is on the
    arrow that scrolls. *)
Definition inv (c : option arrow * scrollview) : Prop :=
  shows c.2 /\ match c.1 with None => idle c.2 | Some a => idle c.2 \/ scrolling a c.2 end.

Lemma set_position_shows p s :
  needScrolling s = true ->
  upShown s = negb (bool_decide (scrollPosition s = top)) ->
  downShown s = negb (bool_decide (scrollPosition s = bottom)) ->
  0 <= scrollTop s <= listHeight - viewPortHeight ->
  (p = top -> scrollTop s = 0) -> (p = bottom -> scrollTop s = listHeight - viewPortHeight) ->
  shows (set_position p s).
Proof.
  intros Hn Hu Hd Hb Ht Hbt. unfold set_position.
  destruct (decide _) as [<-|]; [by split|]. split; cbn; rewrite ?Hn; auto.
Qed.

Lemma set_position_keeps p s :
  scrollPosition (set_position p s) = p /\ scrollTop (set_position p s) = scrollTop s /\
  scrollDirection (set_position p s) = scrollDirection s /\
  pending (set_position p s) = pending s /\ _timer (set_position p s) = _timer s.
Proof. unfold set_position. by destruct (decide _) as [<-|]. Qed.

Lemma continue_shows a z s :
  shows s -> scrollDirection s = arrow_dir a -> pending s = [] ->
  0 <= z <= listHeight - viewPortHeight ->
  let s' := set_position middle (later (set_top z s)) in
  shows s' /\ scrolling a s' /\ scrollTop s' = z.
Proof.
  intros [Hn Hu Hd Hb Ht Hbt] Hdir Hp Hz. cbv zeta.
  destruct (set_position_keeps middle (later (set_top z s))) as (Kp & Kt & Kd & Kpe & Kti).
  split_and!.
  - apply set_position_shows; cbn; try done.
  - split_and!; [by rewrite Kd|done|]. exists (timers s). by rewrite Kpe, Kti; cbn; rewrite Hp.
  - done.
Qed.

Lemma stop_pending s : pending s = [] -> pending (stopScrolling s) = [].
Proof. intros H. unfold stopScrolling, cancel_timer. cbn. destruct (_timer s); cbn; by rewrite ?H. Qed.

Lemma stopScrolling_keeps s :
  needScrolling (stopScrolling s) = needScrolling s /\ scrollPosition (stopScrolling s) = scrollPosition s /\
  upShown (stopScrolling s) = upShown s /\ downShown (stopScrolling s) = downShown s /\
  scrollTop (stopScrolling s) = scrollTop s /\ scrollDirection (stopScrolling s) = 0.
Proof. unfold stopScrolling, cancel_timer. cbn. by destruct (_timer s). Qed.

Lemma stop_shows a s :
  shows s -> pending s = [] ->
  let s' := set_position (end_position a) (stopScrolling (set_top (end_top a) s)) in
  shows s' /\ arrived a s'.
Proof.
  intros [Hn Hu Hd Hb Ht Hbt] Hp. cbv zeta.
  set (s1 := stopScrolling _).
  destruct (stopScrolling_keeps (set_top (end_top a) s)) as (Sn & Sp & Su & Sd & St & Sdir). fold s1 in Sn, Sp, Su, Sd, St, Sdir.
  cbn in Sn, Sp, Su, Sd, St, Sdir.
  destruct (set_position_keeps (end_position a) s1) as (Kp & Kt & Kd & Kpe & Kti).
  split.
  - apply set_position_shows; rewrite ?Sn, ?Su, ?Sd, ?Sp, ?St; destruct a; cbn; done || lia.
  - split_and!; [split|done|by rewrite Kt].
    + by rewrite Kd.
    + rewrite Kpe. by apply stop_pending.
Qed.

(** One step of scrolling arrives, or goes on with the rest of the way reduced. *)
Lemma scroll_step a s :
  shows s -> scrollDirection s = arrow_dir a -> pending s = [] ->
  shows (scroll s) /\
  (arrived a (scroll s) \/
   scrolling a (scroll s) /\ scrollSize <= distance a s /\
   distance a (scroll s) = distance a s - scrollSize).
Proof.
  intros Hs Hdir Hp. assert (Hb := sh_bounds _ Hs).
  assert (Hstop : forall z, z = end_top a -> clampTop z = end_top a) by (intros z ->; apply Hclamp; destruct a; cbn; lia).
  destruct (stop_shows a s Hs Hp) as [S1 S2].
  unfold MenuScroll.scroll, scroll_delta, _scrollTo. rewrite Hdir.
  destruct a; cbn -[Z.mul Z.add Z.sub]; zcases.
  1, 3: match goal with |- context [clampTop ?z] => rewrite (Hstop z) by (cbn; lia) end; by auto.
  all: rewrite Hclamp by lia.
  - destruct (continue_shows up (scrollTop s + scrollSize * -1) s) as (C1 & C2 & C3); [done..|lia|].
    split; [done|]. right. cbn. rewrite C3. split_and!; [done|lia..].
  - destruct (continue_shows down (scrollTop s + scrollSize * 1) s) as (C1 & C2 & C3); [done..|lia|].
    split; [done|]. right. cbn. rewrite C3. split_and!; [done|lia..].
Qed.

Lemma shows_direction z l s : shows s -> shows (set_direction z (set_pending l s)) /\ shows (set_pending l s) /\ shows (set_direction z s).
Proof. intros []; split_and!; by split. Qed.

Lemma enter_step a s :
  shows s -> idle s -> arrow_shown a s = true ->
  let s' := fst (mouseEnter a s) in
  shows s' /\ (arrived a s' \/ scrolling a s' /\ scrollSize <= distance a s /\ distance a s' = distance a s - scrollSize).
Proof.
  intros Hs [_ Hp] Ha. cbv zeta. unfold MenuScroll.mouseEnter. rewrite Ha. cbn [fst]. unfold startScrolling.
  destruct (shows_direction (arrow_dir a) [] s Hs) as (_ & _ & Hs').
  apply (scroll_step a) in Hs'; [|done|done]. by destruct a.
Qed.

Lemma fire_step a t s :
  shows s -> scrolling a s -> t ∈ pending s ->
  let s' := fire t s in
  shows s' /\ (arrived a s' \/ scrolling a s' /\ scrollSize <= distance a s /\ distance a s' = distance a s - scrollSize).
Proof.
  intros Hs (Hd & Hm & t' & Ht & Hp) Hin. rewrite Hp in Hin. apply list_elem_of_singleton in Hin as ->.
  cbv zeta. unfold MenuScroll.fire.
  replace (filter (fun t => t <> t') (pending s)) with (@nil nat)
    by (rewrite Hp, filter_cons_False by naive_solver; done).
  destruct (shows_direction 0 [] s Hs) as (_ & Hs' & _).
  apply (scroll_step a) in Hs'; [|done|done]. by destruct a.
Qed.

Lemma arrived_scrolling a s D : arrived a s \/ scrolling a s /\ D -> idle s \/ scrolling a s.
Proof. intros [[? _]|[? _]]; auto. Qed.

Lemma leave_inv a s : inv (Some a, s) -> inv (None, fst (mouseLeave a s)).
Proof.
  intros [Hs Hi]. cbn in Hs, Hi. unfold mouseLeave.
  destruct (arrow_shown a s) eqn:Ea; cbn.
  - destruct (stopScrolling_keeps s) as (Sn & Sp & Su & Sd & St & Sdir). split; cbn.
    + destruct Hs. split; rewrite ?Sn, ?Sp, ?Su, ?Sd, ?St; auto.
    + split; [done|]. destruct Hi as [[_ Hp]|(_ & _ & t & Ht & Hp)]; [by apply stop_pending|].
      unfold stopScrolling, cancel_timer. cbn. rewrite Ht. cbn. rewrite Hp, filter_cons_False by naive_solver. done.
  - split; [done|]. destruct Hi as [|(_ & Hm & _)]; [done|]. exfalso.
    destruct Hs as [_ Hu Hd _ _ _]. rewrite Hm in Hu, Hd. destruct a; cbn in Ea; by rewrite ?Hu, ?Hd in Ea.
Qed.

Lemma step_inv c c' : step c c' -> inv c -> inv c'.
Proof.
  destruct 1 as [a s|a s|o t s Ht]; intros Hi.
  - destruct Hi as [Hs Hi]. cbn in Hs, Hi. destruct (arrow_shown a s) eqn:Ea.
    + destruct (enter_step a s Hs Hi Ea) as [E1 E2]. split; [done|]. eapply arrived_scrolling. exact E2.
    + unfold MenuScroll.mouseEnter. rewrite Ea. split; cbn; auto.
  - by apply leave_inv.
  - destruct Hi as [Hs Hi]. cbn in Hs, Hi. destruct o as [a|].
    + destruct Hi as [[_ Hp]|Hsc]; [by rewrite Hp in Ht; set_solver|].
      destruct (fire_step a t s Hs Hsc Ht) as [E1 E2]. split; [done|]. eapply arrived_scrolling. exact E2.
    + destruct Hi as [_ Hp]. rewrite Hp in Ht. set_solver.
Qed.

(** A menu found to need scrolling. *)
Lemma created_shows : inv (None, set_need true create).
Proof.
  change (set_need true create) with (ScrollView true 0 top false true 0 None [] 0).
  split; cbn; [split; cbn; [done..|lia|done|done]|done].
Qed.

(** Whatever the pointer and the timers do to a menu that needs scrolling, the
    viewport shows only its content, the up arrow is hidden at the top and the down
    arrow at the bottom, and there is a timer only while the pointer is on an arrow: a
    single one, known to the view, so that leaving the arrow stops the scrolling. *)
Theorem scroll_invariant o s :
  rtc step (None, set_need true create) (o, s) ->
  0 <= scrollTop s <= listHeight - viewPortHeight /\
  (upShown s = false <-> scrollPosition s = top) /\ (downShown s = false <-> scrollPosition s = bottom) /\
  (upShown s = false -> scrollTop s = 0) /\
  (downShown s = false -> scrollTop s = listHeight - viewPortHeight) /\
  (o = None -> scrollDirection s = 0 /\ pending s = []) /\
  (forall a, o = Some a -> pending s = [] \/
     (exists t, _timer s = Some t /\ pending s = [t]) /\ pending (fst (mouseLeave a s)) = []).
Proof.
  intros H. assert (inv (o, s)) as Hi.
  { revert H. apply (rtc_ind_r (fun c => inv c)); [exact created_shows|]. intros c c' _ Hst Hc. by apply (step_inv c). }
  assert (Hl : forall a, o = Some a -> pending (fst (mouseLeave a s)) = []).
  { intros a ->. by apply leave_inv in Hi as [_ [_ Hp]]. }
  destruct Hi as [[Hn Hu Hd Hb Ht Hbt] Hi]. cbn in Hi, Hn, Hu, Hd, Hb, Ht, Hbt. rewrite Hu, Hd.
  split_and!; [lia|lia| | | | | |].
  1, 2: destruct (scrollPosition s); cbn; split; done.
  1, 2: destruct (scrollPosition s); cbn; auto; done.
  - intros ->. exact Hi.
  - intros a ->. destruct Hi as [[_ Hp]|(_ & _ & t & Ht' & Hp)]; [by left|right; split; eauto].
Qed.

(** Timers that run bring the menu to its end. *)
Lemma hold_scrolls a n s :
  shows s -> (arrived a s \/ scrolling a s /\ distance a s < scrollSize * Z.of_nat n) ->
  shows (hold n s) /\ arrived a (hold n s).
Proof.
  revert s. induction n as [|n IH]; intros s Hs Hi.
  - destruct Hi as [|[_ Hd]]; [done|]. destruct Hs as [_ _ _ Hb _ _]. destruct a; cbn in Hd; lia.
  - destruct Hi as [Ha|[Hsc Hd]].
    + assert (Ha' := Ha). destruct Ha' as [[_ Hp] _]. cbn [MenuScroll.hold]. by rewrite Hp.
    + assert (Hsc' := Hsc). destruct Hsc' as (_ & _ & t & Ht & Hp). cbn [MenuScroll.hold]. rewrite Hp.
      destruct (fire_step a t s Hs Hsc) as [F1 F2]; [rewrite Hp; set_solver|].
      apply IH; [done|]. destruct F2 as [F2|(F2 & _ & Hd')]; [by left|right]. split; [done|lia].
Qed.

(** C33. The pointer held on an arrow that is shown brings the menu to that end: after
    enough timers have run the viewport shows the first or the last item, the arrow is
    hidden, the other one is shown, and no timer is left: the scrolling has stopped by
    itself. *)
Theorem held_arrow_reaches_end a n s :
  rtc step (None, set_need true create) (None, s) ->
  arrow_shown a s = true -> distance a s < scrollSize * (Z.of_nat n + 1) ->
  let s' := hold n (fst (mouseEnter a s)) in
  scrollTop s' = end_top a /\ scrollPosition s' = end_position a /\
  arrow_shown a s' = false /\ arrow_shown (other a) s' = true /\
  scrollDirection s' = 0 /\ pending s' = [].
Proof.
  intros H Ha Hd. cbv zeta.
  assert (inv (None, s)) as [Hs Hi].
  { revert H. apply (rtc_ind_r (fun c => inv c)); [exact created_shows|]. intros c c' _ Hst Hc. by apply (step_inv c). }
  cbn in Hs, Hi. destruct (enter_step a s Hs Hi Ha) as [E1 E2].
  destruct (hold_scrolls a n (fst (mouseEnter a s)) E1) as [[_ Hu Hdn _ _ _] ([? ?] & Hp & Ht)].
  { destruct E2 as [|(? & ? & ?)]; [by left|right]. split; [done|nia]. }
  split_and!; try done; destruct a; cbn in Hp |- *; by rewrite ?Hu, ?Hdn, Hp.
Qed.
End Correct.

(** ** Boundaries *)

(** A menu of 195 pixels in a viewport of 100. *)
Definition in_window (p : Z) : Z := Z.max 0 (Z.min p 95).

Lemma in_window_ok p : 0 <= p <= 195 - 100 -> in_window p = p.
Proof. unfold in_window. lia. Qed.

Definition menu_s : scrollview := set_need true create.
Definition menu_entered : scrollview := fst (mouseEnter 10 100 195 in_window down menu_s).

Lemma menu_entered_reached : rtc (step 10 100 195 in_window) (None, menu_s) (Some down, menu_entered).
Proof. apply rtc_once. apply (StepEnter 10 100 195 in_window down menu_s). Qed.

Lemma scroll_invariant_witness :
  0 <= scrollTop menu_entered <= 195 - 100 /\
  (upShown menu_entered = false <-> scrollPosition menu_entered = top) /\
  (downShown menu_entered = false <-> scrollPosition menu_entered = bottom) /\
  (upShown menu_entered = false -> scrollTop menu_entered = 0) /\
  (downShown menu_entered = false -> scrollTop menu_entered = 195 - 100) /\
  (Some down = None -> scrollDirection menu_entered = 0 /\ pending menu_entered = []) /\
  (forall a, Some down = Some a -> pending menu_entered = [] \/
    (exists t, _timer menu_entered = Some t /\ pending menu_entered = [t]) /\
    pending (fst (mouseLeave a menu_entered)) = []).
Proof.
  apply (scroll_invariant 10 100 195 in_window ltac:(lia) ltac:(lia) in_window_ok (Some down) menu_entered).
  exact menu_entered_reached.
Defined.

Lemma held_arrow_reaches_end_witness :
  let s' := hold 10 100 195 in_window 9 (fst (mouseEnter 10 100 195 in_window down menu_s)) in
  scrollTop s' = 195 - 100 /\ scrollPosition s' = bottom /\ arrow_shown down s' = false /\
  arrow_shown up s' = true /\ scrollDirection s' = 0 /\ pending s' = [].
Proof.
  apply (held_arrow_reaches_end 10 100 195 in_window ltac:(lia) ltac:(lia) in_window_ok down 9 menu_s);
    [apply rtc_refl|reflexivity|vm_compute; reflexivity].
Defined.

(** Scrolling up by exactly one step to the top goes on: the position is not yet the top,
    and when the pointer leaves before the next timer the up arrow stays shown although
    the menu is at its top.  Downwards the comparison includes the end. *)
Example up_arrow_left_at_top :
  let s := ScrollView true 0 middle true true 10 None [] 0 in
  let s' := fst (mouseLeave up (fst (mouseEnter 10 100 195 in_window up s))) in
  scrollTop s' = 0 /\ scrollPosition s' = middle /\ upShown s' = true /\ pending s' = [].
Proof. by vm_compute. Qed.

(** Entering an arrow that was hidden meanwhile and shown again scrolls with two timers,
    of which leaving cancels one; the other one then runs for ever with direction 0. *)
Example second_timer_stays :
  let enter := fun s => fst (mouseEnter 10 100 195 in_window down s) in
  let s1 := enter (set_need true (fst (mouseLeave down (set_need false (enter menu_s))))) in
  let s2 := fst (mouseLeave down s1) in
  let s3 := fire 10 100 195 in_window 0 s2 in
  pending s1 = [0%nat; 1%nat] /\ pending s2 = [0%nat] /\ pending s3 = [2%nat] /\ scrollTop s3 = scrollTop s2.
Proof. by vm_compute. Qed.
