(* ===== verification/MultiMenu.v ===== *)
(** * Menus of several values ([views/multiselection_menu_view.js], [mixins/menu_view_support.js])

    A menu whose items are chosen one after the other while it stays open: choosing an
    item adds its value to the array of values, or takes it away again, except for the
    last one.  An item whose value is an array replaces all values.  The arrow keys move
    the highlight round, typing searches the titles.

    An item is an object, identified by a number, whose properties are read by the keys
    the menu is given.  [_searchKey] is cleared by a timer; timers are numbered as they
    are made and kept with those that have not yet run or been cancelled.  Characters are
    those of one byte.  The rendering of an item is reduced to the properties it shows. *)

From S2P Require Import Prelude Menu.
From stdpp Require Import gmap.
Open Scope string_scope.
Open Scope list_scope.
Open Scope flame_scope.

(** A property of an item: a value or an array of values. *)
Inductive prop := PVal (v : jsval) | PArr (l : list jsval).

Record option_item := Opt { oid : nat; props : gmap string prop }.

Definition get_prop (o : option_item) (key : string) : prop := default (PVal JUndefined) (props o !! key).

(** [contains] and [removeObject] of arrays, which compare with [===]. *)
Definition contains (v : jsval) (l : list jsval) : bool := existsb (fun w => strict_eq w v) l.
Definition removeObject (v : jsval) (l : list jsval) : list jsval := filter (fun w => strict_eq w v = false) l.

(** ** Searching by typing

    The part of a menu that collects what is typed, and its timer. *)
Module KeySearch.
Record keysearch := Search {
  _searchKey : string;
  _timer : option nat;
  pending : list nat;
  timers : nat
}.

Definition no_search : keysearch := Search "" None [] 0.

Definition cancel_timer (s : keysearch) : keysearch :=
  match _timer s with
  | Some t => Search (_searchKey s) (_timer s) (filter (fun t' => t' <> t) (pending s)) (timers s)
  | None => s
  end.

Definition _doKeySearch_super (key : string) (s : keysearch) : keysearch :=
  let s1 := cancel_timer (Search (_searchKey s +:+ key) (_timer s) (pending s) (timers s)) in
  Search (_searchKey s1) (Some (timers s1)) (pending s1 ++ [timers s1]) (S (timers s1)).

Definition _clearKeySearch (s : keysearch) : keysearch :=
  let s1 := cancel_timer s in Search "" (_timer s1) (pending s1) (timers s1).

(** The timer runs: it is no longer pending. *)
Definition fire (t : nat) (s : keysearch) : keysearch :=
  _clearKeySearch (Search (_searchKey s) (_timer s) (filter (fun t' => t' <> t) (pending s)) (timers s)).

(** What has been typed is cleared by a single timer, which the menu knows. *)
Definition inv (s : keysearch) : Prop :=
  (pending s = [] /\ _searchKey s = "") \/ (exists t, _timer s = Some t /\ pending s = [t]).

Lemma cancel_pending s : inv s -> pending (cancel_timer s) = [].
Proof.
  unfold cancel_timer. intros [[H _]|(t & Ht & Hp)].
  - by destruct (_timer s); cbn; rewrite ?H.
  - rewrite Ht. cbn. rewrite Hp, filter_cons_False by naive_solver. done.
Qed.

Lemma clear_inv s : inv s -> inv (_clearKeySearch s) /\ pending (_clearKeySearch s) = [] /\ _searchKey (_clearKeySearch s) = "".
Proof. intros H. apply cancel_pending in H. unfold _clearKeySearch. cbn. split; [by left|done]. Qed.

Lemma search_inv k s : inv s -> inv (_doKeySearch_super k s).
Proof.
  intros H. right. unfold _doKeySearch_super.
  assert (inv (Search (_searchKey s +:+ k) (_timer s) (pending s) (timers s)) \/ pending s = []) as H'.
  { destruct H as [[H _]|H]; [by right|left; by right]. }
  set (s0 := Search _ _ _ _) in *.
  assert (pending (cancel_timer s0) = []) as E.
  { destruct H' as [H'|H']; [by apply cancel_pending|].
    unfold cancel_timer. cbn. destruct (_timer s); cbn; by rewrite H'. }
  eexists. cbn. rewrite E. done.
Qed.

Lemma fire_inv t s : inv s -> t ∈ pending s -> inv (fire t s).
Proof.
  intros [[H _]|(t' & Ht & Hp)]; intros Hin.
  - rewrite H in Hin. set_solver.
  - rewrite Hp in Hin. apply list_elem_of_singleton in Hin as ->.
    unfold fire, _clearKeySearch, cancel_timer. cbn. rewrite Ht. cbn. left. split; [|done].
    rewrite Hp, filter_cons_False by naive_solver. done.
Qed.
End KeySearch.

(** ** The menu *)

Record mmenu := MMenu {
  items : list option_item;
  _highlightedItem : option option_item;
  value : option (list jsval);             (* none for [null] *)
  search : KeySearch.keysearch;
  isShown : bool
}.

Definition set_highlighted x M := MMenu (items M) x (value M) (search M) (isShown M).
Definition set_values x M := MMenu (items M) (_highlightedItem M) x (search M) (isShown M).
Definition set_search x M := MMenu (items M) (_highlightedItem M) (value M) x (isShown M).

(** [indexOf] of an item in the items: identity of objects. *)
Definition item_index (o : option_item) (l : list option_item) : Z :=
  match list_find (fun p => oid p = oid o) l with Some (i, _) => Z.of_nat i | None => (-1)%Z end.

Definition objectAt (i : Z) (l : list option_item) : option option_item :=
  if (i <? 0)%Z then None else l !! Z.to_nat i.

Section Menu.
Context (itemTitleKey itemValueKey itemEnabledKey : string).
(** How a title that is not a string is made one. *)
Context (toStr : prop -> string).

Definition to_string (p : prop) : string := match p with PVal (JStr s) => s | _ => toStr p end.

(** The properties of the view of an item. *)
Definition title (o : option_item) : prop := get_prop o itemTitleKey.
Definition isDisabled (o : option_item) : bool :=
  match get_prop o itemEnabledKey with PVal (JBool false) => true | _ => false end.
Definition isSelected (o : option_item) (M : mmenu) : bool :=
  match _highlightedItem M with Some h => bool_decide (oid h = oid o) | None => false end.
Definition isChecked (o : option_item) (M : mmenu) : outcome bool :=
  match value M with
  | None => Throw TypeError
  | Some l => Ok (match get_prop o "value" with PVal v => contains v l | PArr _ => false end)
  end.

Definition selectHighlightedItem (M : mmenu) : outcome mmenu :=
  match _highlightedItem M, value M with
  | None, _ | _, None => Throw TypeError
  | Some o, Some currentValue =>
      match get_prop o itemValueKey with
      | PArr chosen => Ok (set_values (Some chosen) M)
      | PVal v =>
          if negb (contains v currentValue) then Ok (set_values (Some (currentValue ++ [v])) M)
          else if (1 <? length currentValue)%nat then Ok (set_values (Some (removeObject v currentValue)) M)
          else Ok M
      end
  end.

Definition _highlightAdjacentMenuItem (increment : Z) (M : mmenu) : mmenu :=
  let itemList := items M in
  let len := Z.of_nat (length itemList) in
  let next :=
    match _highlightedItem M with
    | Some h =>
        if (len =? 0)%Z then None           (* the remainder is [NaN] *)
        else
          let n := Z.rem (item_index h itemList + increment) len in
          Some (if (n <? 0)%Z then len + n else n)%Z
    | None => Some (if (0 <? increment)%Z then 0 else len - 1)%Z
    end in
  set_highlighted (i ← next; objectAt i itemList) M.

Definition moveUp (M : mmenu) : mmenu * bool := (_highlightAdjacentMenuItem (-1) M, true).
Definition moveDown (M : mmenu) : mmenu * bool := (_highlightAdjacentMenuItem 1 M, true).

Definition insertNewline (M : mmenu) : outcome mmenu :=
  match _highlightedItem M with Some _ => selectHighlightedItem M | None => Ok M end.

(** The mouse on the view of an item. *)
Definition mouseEnter (o : option_item) (M : mmenu) : mmenu := set_highlighted (Some o) M.
Definition mouseLeave (M : mmenu) : mmenu := set_highlighted None M.
Definition click (o : option_item) (M : mmenu) : outcome mmenu := selectHighlightedItem (set_highlighted (Some o) M).

(** The first item whose title starts with the name, whatever the case. *)
Definition _findByName (name : string) (M : mmenu) : option option_item :=
  snd <$> list_find (fun o => String.prefix (upper name) (upper (to_string (title o))) = true) (items M).

Definition _doKeySearch (key : string) (M : mmenu) : mmenu :=
  let M1 := set_search (KeySearch._doKeySearch_super key (search M)) M in
  match _findByName (KeySearch._searchKey (search M1)) M1 with
  | Some currentItem => set_highlighted (Some currentItem) M1
  | None => M1
  end.

(** [keyPress] with the character code of the event. *)
Definition keyPress (which : nat) (M : mmenu) : mmenu * bool :=
  let key := String (Ascii.ascii_of_nat which) "" in
  if (31 <? which)%nat && negb (bool_decide (key = "")) then (_doKeySearch key M, true) else (M, false).

(** Making the menu, and closing it. *)
Definition create (its : list option_item) (v : option (list jsval)) : mmenu := MMenu its None v KeySearch.no_search true.
Definition close (M : mmenu) : mmenu :=
  MMenu (items M) None (value M) (KeySearch._clearKeySearch (search M)) false.

(** What the user does to an open menu. *)
Inductive event :=
| Enter (i : nat) | Leave | Click (i : nat) | Up | Down | Newline | Key (which : nat) | Timer (t : nat).

Definition with_item (i : nat) (M : mmenu) (f : option_item -> outcome mmenu) : outcome mmenu :=
  match items M !! i with Some o => f o | None => Ok M end.

Definition handle (e : event) (M : mmenu) : outcome mmenu :=
  match e with
  | Enter i => with_item i M (fun o => Ok (mouseEnter o M))
  | Leave => Ok (mouseLeave M)
  | Click i => with_item i M (fun o => click o M)
  | Up => Ok (fst (moveUp M))
  | Down => Ok (fst (moveDown M))
  | Newline => insertNewline M
  | Key which => Ok (fst (keyPress which M))
  | Timer t => Ok (if bool_decide (t ∈ KeySearch.pending (search M)) then set_search (KeySearch.fire t (search M)) M else M)
  end.

Fixpoint handle_all (es : list event) (M : mmenu) : outcome mmenu :=
  match es with [] => Ok M | e :: es' => do! M' <- handle e M; handle_all es' M' end.
End Menu.

(** ** What holds of the menu *)

Lemma strict_eq_not_nan w v : v <> JNaN -> (strict_eq w v = true <-> w = v).
Proof. intros Hv. unfold strict_eq. destruct w, v; rewrite ?bool_decide_eq_true; done. Qed.

Lemma contains_In v l : v <> JNaN -> contains v l = bool_decide (v ∈ l).
Proof.
  intros Hv. apply eq_true_iff_eq. unfold contains. rewrite existsb_exists, bool_decide_eq_true.
  split; [intros (w & Hw & E%strict_eq_not_nan)|intros H; exists v; rewrite strict_eq_not_nan]; rewrite ?list_elem_of_In in *; naive_solver.
Qed.

Lemma elem_of_removeObject v w l : v <> JNaN -> w ∈ removeObject v l <-> w <> v /\ w ∈ l.
Proof.
  intros Hv. unfold removeObject. rewrite list_elem_of_filter.
  rewrite <- not_true_iff_false, strict_eq_not_nan by done. done.
Qed.

Lemma removeObject_twice v l : removeObject v (removeObject v l) = removeObject v l.
Proof.
  unfold removeObject. induction l as [|w l IH]; [done|].
  rewrite filter_cons. destruct (decide _) as [E|E]; [|done].
  rewrite filter_cons_True by done. by rewrite IH.
Qed.

(** Removing an element from several distinct ones leaves some. *)
Lemma removeObject_nonempty v l : v <> JNaN -> NoDup l -> 1 < length l -> removeObject v l <> [].
Proof.
  intros Hv Hnd Hl E. destruct l as [|a [|b l]]; [cbn in Hl; lia..|].
  apply NoDup_cons in Hnd as [Ha _].
  assert (forall w, w ∈ a :: b :: l -> w = v) as Hall.
  { intros w Hw. destruct (decide (w = v)); [done|].
    assert (w ∈ removeObject v (a :: b :: l)) as H by (by apply elem_of_removeObject). rewrite E in H. set_solver. }
  apply Ha. rewrite (Hall a), (Hall b) by set_solver. set_solver.
Qed.

Section Correct.
Context (itemTitleKey itemValueKey itemEnabledKey : string) (toStr : prop -> string).
Notation selectHighlightedItem := (selectHighlightedItem itemValueKey).
Notation click := (click itemValueKey).
Notation handle := (handle itemTitleKey itemValueKey toStr).
Notation handle_all := (handle_all itemTitleKey itemValueKey toStr).

Definition the_value (o : option_item) : prop := get_prop o itemValueKey.

(** Choosing an item with a single value toggles the value: it is added at the end
    when it was not chosen, taken away when it was and is not the only one, and kept
    when it is the only one; all other values stay, in their order, and a menu whose
    values are distinct keeps them distinct, and never becomes empty. *)
Theorem choosing_toggles o v l M :
  the_value o = PVal v -> v <> JNaN -> value M = Some l -> NoDup l ->
  exists M' l', click o M = Ok M' /\ value M' = Some l' /\ _highlightedItem M' = Some o /\
    (v ∈ l' <-> v ∉ l \/ l = [v]) /\
    removeObject v l' = removeObject v l /\ NoDup l' /\ l' <> [].
Proof.
  unfold the_value. intros Hv Hn Hl Hnd. unfold MultiMenu.click, MultiMenu.selectHighlightedItem. cbn -[Nat.ltb]. rewrite Hl, Hv.
  rewrite contains_In by done. destruct (bool_decide_reflect (v ∈ l)) as [Hin|Hin]; cbn [negb].
  - destruct (Nat.ltb_spec 1 (length l)).
    + eexists _, (removeObject v l). refine (conj eq_refl (conj eq_refl (conj eq_refl (conj _ (conj _ (conj _ _)))))).
      * rewrite elem_of_removeObject by done. split; [naive_solver|intros [?| ->]; [done|cbn in *; lia]].
      * unfold removeObject. apply removeObject_twice.
      * by apply NoDup_filter.
      * by apply removeObject_nonempty.
    + destruct l as [|a [|b l]]; [set_solver| |cbn in *; lia]. apply list_elem_of_singleton in Hin as ->.
      eexists _, [a]. refine (conj eq_refl (conj Hl (conj eq_refl (conj _ (conj _ (conj _ _)))))); [set_solver|done|done|done].
  - eexists _, (l ++ [v]). refine (conj eq_refl (conj eq_refl (conj eq_refl (conj _ (conj _ (conj _ _)))))).
    + set_solver.
    + unfold removeObject. rewrite filter_app. rewrite (filter_cons_False _ v) by (rewrite (proj2 (strict_eq_not_nan v v Hn)); done).
      by rewrite filter_nil, app_nil_r.
    + apply NoDup_app. split_and!; [done|set_solver|apply NoDup_singleton].
    + by destruct l.
Qed.

(** Items whose values can be chosen: none is [NaN], and arrays are proper choices. *)
Definition choosable (o : option_item) : Prop :=
  match the_value o with PVal v => v <> JNaN | PArr l => NoDup l /\ l <> [] end.

Definition offers (its : list option_item) (v : jsval) : Prop :=
  exists o, o ∈ its /\ match the_value o with PVal w => w = v | PArr l => v ∈ l end.

Record good (its : list option_item) (init : list jsval) (M : mmenu) : Prop := {
  g_items : items M = its;
  g_value : exists l, value M = Some l /\ NoDup l /\ l <> [] /\ forall v, v ∈ l -> v ∈ init \/ offers its v;
  g_high : forall o, _highlightedItem M = Some o -> o ∈ its;
  g_search : KeySearch.inv (search M)
}.

Lemma good_highlight its init x M :
  good its init M -> (forall o, x = Some o -> o ∈ its) -> good its init (set_highlighted x M).
Proof. intros [] ?. by split. Qed.

Lemma good_set_search its init x M : good its init M -> KeySearch.inv x -> good its init (set_search x M).
Proof. intros [] ?. by split. Qed.

Lemma good_select its init o M :
  Forall choosable its -> good its init M -> _highlightedItem M = Some o ->
  exists M', selectHighlightedItem M = Ok M' /\ good its init M'.
Proof.
  intros Hch [Hi (l & Hl & Hnd & Hne & Hsub) Hh Hs] Ho.
  assert (o ∈ its) as Hin by auto. assert (choosable o) as Hc by (by eapply list.Forall_forall).
  assert (offers its = fun v => offers its v) as _ by done.
  assert (Hof : forall v, match the_value o with PVal w => w = v | PArr k => v ∈ k end -> offers its v) by (intros v ?; by exists o).
  unfold choosable in Hc. unfold MultiMenu.selectHighlightedItem. rewrite Ho, Hl. fold (the_value o).
  destruct (the_value o) as [v|k].
  - rewrite contains_In by done. destruct (bool_decide_reflect (v ∈ l)) as [Hvl|Hvl]; cbn [negb].
    + destruct (Nat.ltb_spec 1 (length l)); eexists; (split; [done|]); split; eauto.
      exists (removeObject v l). split_and!; [done|by apply NoDup_filter|by apply removeObject_nonempty|].
      intros w [_ Hw]%elem_of_removeObject; auto.
    + eexists; (split; [done|]); split; eauto.
      exists (l ++ [v]). split_and!; [done| |by destruct l|].
      * apply NoDup_app. split_and!; [done|set_solver|apply NoDup_singleton].
      * intros w [?| ->%list_elem_of_singleton]%elem_of_app; auto.
  - eexists; (split; [done|]); split; eauto. exists k. destruct Hc. split_and!; auto.
Qed.

Lemma objectAt_elem i l o : objectAt i l = Some o -> o ∈ l.
Proof. unfold objectAt. case_match; [done|]. by intros ?%list_elem_of_lookup_2. Qed.

Lemma good_adjacent its init inc M : good its init M -> good its init (_highlightAdjacentMenuItem inc M).
Proof.
  intros Hg. apply good_highlight; [done|]. rewrite (g_items _ _ _ Hg).
  intros o (i & _ & Ho)%bind_Some. by eapply objectAt_elem.
Qed.

Lemma good_key its init k M : good its init M -> good its init (_doKeySearch itemTitleKey toStr k M).
Proof.
  intros Hg. unfold MultiMenu._doKeySearch. set (M1 := set_search _ M).
  assert (good its init M1) as H1 by (apply good_set_search; [done|apply KeySearch.search_inv, Hg]).
  destruct (_findByName _ _ _ M1) as [o|] eqn:E; [|done]. apply good_highlight; [done|]. intros o' [= <-].
  unfold _findByName in E. apply fmap_Some in E as ([i o''] & (Hl & _)%list_find_Some & ->).
  apply list_elem_of_lookup_2 in Hl. by rewrite (g_items _ _ _ H1) in Hl.
Qed.

Lemma good_handle its init e M :
  Forall choosable its -> good its init M -> exists M', handle e M = Ok M' /\ good its init M'.
Proof.
  intros Hch Hg. destruct e as [i| |i| | | |w|t]; cbn [MultiMenu.handle].
  - unfold with_item. destruct (items M !! i) as [o|] eqn:E; eexists; (split; [done|]); [|done].
    apply good_highlight; [done|]. intros o' [= <-]. rewrite (g_items _ _ _ Hg) in E. by eapply list_elem_of_lookup_2.
  - eexists; (split; [done|]). by apply good_highlight.
  - unfold with_item. destruct (items M !! i) as [o|] eqn:E; [|by eauto].
    rewrite (g_items _ _ _ Hg) in E. apply (good_select _ _ o); [done| |done].
    apply good_highlight; [done|]. intros o' [= <-]. by eapply list_elem_of_lookup_2.
  - eexists; (split; [done|]). by apply good_adjacent.
  - eexists; (split; [done|]). by apply good_adjacent.
  - unfold insertNewline. destruct (_highlightedItem M) as [o|] eqn:E; [|by eauto]. by apply (good_select _ _ o).
  - eexists; (split; [done|]). unfold keyPress. case_match; [|done]. by apply good_key.
  - eexists; (split; [done|]). destruct (bool_decide_reflect (t ∈ KeySearch.pending (search M))); [|done].
    apply good_set_search; [done|]. apply KeySearch.fire_inv; [apply Hg|done].
Qed.

Lemma good_handle_all its init es M :
  Forall choosable its -> good its init M -> exists M', handle_all es M = Ok M' /\ good its init M'.
Proof.
  intros Hch. revert M. induction es as [|e es IH]; intros M Hg; [by eexists|].
  destruct (good_handle its init e M Hch Hg) as (M1 & E & Hg1). cbn [MultiMenu.handle_all]. rewrite E.
  apply IH, Hg1.
Qed.

(** C34. Whatever the user does to an open menu, no handler fails; the values stay
    distinct and at least one, each of them from the beginning or offered by an item;
    the highlight is on an item of the menu; and what has been typed is forgotten
    when its timer runs or when the menu is closed, which leaves no timer behind. *)
Theorem values_invariant its init es :
  Forall choosable its -> NoDup init -> init <> [] ->
  exists M l, handle_all es (create its (Some init)) = Ok M /\
    value M = Some l /\ NoDup l /\ l <> [] /\ (forall v, v ∈ l -> v ∈ init \/ offers its v) /\
    (forall o, _highlightedItem M = Some o -> o ∈ its) /\
    (KeySearch._searchKey (search M) <> "" -> exists t, KeySearch.pending (search M) = [t] /\
       KeySearch._searchKey (KeySearch.fire t (search M)) = "") /\
    _highlightedItem (close M) = None /\ KeySearch.pending (search (close M)) = [] /\
    KeySearch._searchKey (search (close M)) = "".
Proof.
  intros Hch Hnd Hne. destruct (good_handle_all its init es (create its (Some init)) Hch) as (M & E & [Hi (l & Hl & H1 & H2 & H3) Hh Hs]).
  { split; [done|by exists init; eauto|done|by left]. }
  exists M, l. destruct (KeySearch.clear_inv _ Hs) as (_ & C1 & C2). split_and!; try done.
  intros Hk. destruct Hs as [[_ ?]|(t & _ & Hp)]; [done|]. by exists t.
Qed.

(** ** The arrow keys *)

Lemma item_index_lookup its i o : NoDup (oid <$> its) -> its !! i = Some o -> item_index o its = Z.of_nat i.
Proof.
  intros Hnd Hi. unfold item_index. destruct (list_find _ its) as [[j p]|] eqn:E.
  - apply list_find_Some in E as (Hj & Hp & _). f_equal.
    apply (NoDup_lookup (oid <$> its) j i (oid o) Hnd); rewrite list_lookup_fmap; [by rewrite Hj; cbn; rewrite Hp|by rewrite Hi].
  - apply list_find_None in E. rewrite list.Forall_forall in E. exfalso. by apply (E o); [eapply list_elem_of_lookup_2|].
Qed.

(** The JavaScript remainder, corrected when it is negative, is the modulo. *)
Lemma rem_wraps i inc len :
  (0 <= i < len -> -1 <= inc <= 1 ->
   (if Z.rem (i + inc) len <? 0 then len + Z.rem (i + inc) len else Z.rem (i + inc) len) = (i + inc) mod len)%Z.
Proof.
  intros Hi Hinc. destruct (decide (0 <= i + inc)%Z) as [H|H].
  - rewrite Z.rem_mod_nonneg by lia. assert (0 <= (i + inc) mod len < len)%Z by (apply Z.mod_pos_bound; lia).
    destruct (Z.ltb_spec ((i + inc) mod len) 0); lia.
  - assert (i + inc = -1)%Z as -> by lia. destruct (decide (len = 1)%Z) as [->|]; [done|].
    rewrite (Z.rem_opp_l 1) by lia. rewrite Z.rem_small by lia.
    change (- (1) <? 0)%Z with true. cbv iota.
    apply (Z.mod_unique _ _ (-1)); lia.
Qed.

Lemma adjacent_highlight its i o inc M :
  items M = its -> NoDup (oid <$> its) -> its !! i = Some o -> _highlightedItem M = Some o -> (-1 <= inc <= 1)%Z ->
  exists o', its !! Z.to_nat ((Z.of_nat i + inc) mod Z.of_nat (length its)) = Some o' /\
    _highlightedItem (_highlightAdjacentMenuItem inc M) = Some o' /\ items (_highlightAdjacentMenuItem inc M) = its.
Proof.
  intros HI Hnd Hi Ho Hinc. assert (Hlt := lookup_lt_Some _ _ _ Hi).
  set (len := Z.of_nat (length its)).
  assert (0 <= (Z.of_nat i + inc) mod len < len)%Z as Hm by (apply Z.mod_pos_bound; lia).
  destruct (lookup_lt_is_Some_2 its (Z.to_nat ((Z.of_nat i + inc) mod len))) as [o' Ho']; [lia|].
  exists o'. split_and!; [done| |by cbn].
  unfold _highlightAdjacentMenuItem. rewrite Ho, HI. fold len.
  destruct (Z.eqb_spec len 0); [lia|]. rewrite (item_index_lookup its i o) by done.
  cbn -[Z.rem Z.ltb Z.modulo]. rewrite rem_wraps by lia. unfold objectAt.
  destruct (Z.ltb_spec ((Z.of_nat i + inc) mod len) 0); [lia|done].
Qed.

Definition arrow (d : bool) (M : mmenu) : mmenu := fst (if d then moveDown M else moveUp M).
Definition arrow_sum (ds : list bool) : Z := foldr (fun (d : bool) z => z + (if d then 1 else -1))%Z 0%Z ds.

(** The arrow keys move the highlight round: from the [i]th item, any sequence of
    arrow keys leads to the item whose index is [i] and the number of steps down less
    those up, modulo the number of items; in particular as many steps up as down come
    back to the same item. *)
Theorem arrows_go_round its i o ds M :
  items M = its -> NoDup (oid <$> its) -> its !! i = Some o -> _highlightedItem M = Some o ->
  _highlightedItem (foldl (fun M d => arrow d M) M ds) =
    its !! Z.to_nat ((Z.of_nat i + arrow_sum ds) mod Z.of_nat (length its)).
Proof.
  intros HI Hnd. revert i o M HI. induction ds as [|d ds IH]; intros i o M HI Hi Ho; cbn [foldl].
  - assert (Hlt := lookup_lt_Some _ _ _ Hi). cbn. rewrite Z.add_0_r, Z.mod_small, Nat2Z.id by lia. by rewrite Ho, Hi.
  - assert (Hlt := lookup_lt_Some _ _ _ Hi).
    destruct (adjacent_highlight its i o (if d then 1 else -1)%Z M HI Hnd Hi Ho) as (o' & Ho' & Hh & HI'); [by destruct d|].
    assert (arrow d M = _highlightAdjacentMenuItem (if d then 1 else -1) M) as -> by (by destruct d).
    rewrite (IH _ o' _ HI' Ho' Hh). f_equal. f_equal. cbn [arrow_sum foldr]. fold (arrow_sum ds).
    rewrite Z2Nat.id by (apply Z.mod_pos_bound; lia). rewrite Zplus_mod_idemp_l. f_equal. lia.
Qed.
End Correct.

(** ** Examples *)

Definition an_option (n : nat) (t : string) (v : jsval) : option_item :=
  Opt n (list_to_map [("title", PVal (JStr t)); ("value", PVal v)]).
Definition three_options : list option_item :=
  [an_option 0 "Apple" (JNum 1); an_option 1 "Pear" (JNum 2); an_option 2 "Peach" (JNum 3)].

Lemma choosing_toggles_witness :
  exists M' l', click "value" (an_option 1 "Pear" (JNum 2)) (create three_options (Some [JNum 1; JNum 2])) = Ok M' /\
    value M' = Some l' /\ _highlightedItem M' = Some (an_option 1 "Pear" (JNum 2)) /\
    (JNum 2 ∈ l' <-> JNum 2 ∉ [JNum 1; JNum 2] \/ [JNum 1; JNum 2] = [JNum 2]) /\
    removeObject (JNum 2) l' = removeObject (JNum 2) [JNum 1; JNum 2] /\ NoDup l' /\ l' <> [].
Proof.
  apply (choosing_toggles "value" (an_option 1 "Pear" (JNum 2)) (JNum 2) [JNum 1; JNum 2]
    (create three_options (Some [JNum 1; JNum 2]))); [reflexivity|done|reflexivity|].
  apply (bool_decide_unpack (NoDup [JNum 1; JNum 2])). vm_compute. exact I.
Defined.

Lemma values_invariant_witness :
  let toStr := fun _ => "" in
  let es := [Click 2; Down; Newline; Key 80; Click 2; Timer 0] in
  exists M l, handle_all "title" "value" toStr es (create three_options (Some [JNum 1])) = Ok M /\
    value M = Some l /\ NoDup l /\ l <> [] /\ (forall v, v ∈ l -> v ∈ [JNum 1] \/ offers "value" three_options v) /\
    (forall o, _highlightedItem M = Some o -> o ∈ three_options) /\
    (KeySearch._searchKey (search M) <> "" -> exists t, KeySearch.pending (search M) = [t] /\
       KeySearch._searchKey (KeySearch.fire t (search M)) = "") /\
    _highlightedItem (close M) = None /\ KeySearch.pending (search (close M)) = [] /\
    KeySearch._searchKey (search (close M)) = "".
Proof.
  cbv zeta. apply (values_invariant "title" "value" (fun _ => "") three_options [JNum 1]); [|apply NoDup_singleton|done].
  unfold three_options. do 3 (apply Forall_cons_2; [vm_compute; discriminate|]). apply Forall_nil_2.
Defined.

Lemma arrows_go_round_witness :
  _highlightedItem (foldl (fun M d => arrow d M) (mouseEnter (an_option 2 "Peach" (JNum 3)) (create three_options None)) [true; false; false]) =
    three_options !! Z.to_nat ((Z.of_nat 2 + arrow_sum [true; false; false]) mod Z.of_nat (length three_options)).
Proof.
  apply (arrows_go_round three_options 2 (an_option 2 "Peach" (JNum 3))); [reflexivity| |reflexivity|reflexivity].
  apply (bool_decide_unpack (NoDup [0; 1; 2])). vm_compute. exact I.
Defined.

(** Typing finds the first title that starts with what was typed, whatever the case. *)
Example typing_finds :
  (oid <$> _highlightedItem (fst (keyPress "title" (fun _ => "") 97
     (fst (keyPress "title" (fun _ => "") 101
       (fst (keyPress "title" (fun _ => "") 80 (create three_options None)))))))) = Some 1.
Proof. by vm_compute. Qed.

(** A disabled item is chosen like any other. *)
Example disabled_chosen :
  let o := Opt 0 (list_to_map [("value", PVal (JNum 7)); ("isEnabled", PVal (JBool false))]) in
  isDisabled "isEnabled" o = true /\
  (do! M <- click "value" o (create [o] (Some [JNum 1])); Ok (value M)) = Ok (Some [JNum 1; JNum 7]).
Proof. by vm_compute. Qed.

(** The check mark reads the property [value], whatever the value key is. *)
Example check_mark_ignores_key :
  let o := Opt 0 (list_to_map [("key", PVal (JNum 7))]) in
  (do! M <- click "key" o (create [o] (Some [])); do! b <- isChecked o M; Ok (value M, b)) = Ok (Some [JNum 7], false).
Proof. by vm_compute. Qed.
