(* ===== verification/MultiButton.v ===== *)
(** * The button of several values ([views/multiselection_button_view.js])

    The button shows the values of its menu as one title, and sorts the array of values, which
    it shares with the menu and the application, to do so.  The menu is that of [MultiMenu]. *)

From S2P Require Import Prelude Arrays.
From S2P Require Import MultiMenu.
Open Scope string_scope.
Open Scope list_scope.
Open Scope flame_scope.

(** ** [sort] without a comparator

    Values are compared as strings, by their characters; undefined ones come last. *)
Fixpoint str_cmp (a b : string) : Z :=
  match a, b with
  | EmptyString, EmptyString => 0
  | EmptyString, String _ _ => -1
  | String _ _, EmptyString => 1
  | String x a', String y b' =>
      let d := (Z.of_nat (Ascii.nat_of_ascii x) - Z.of_nat (Ascii.nat_of_ascii y))%Z in
      if (d =? 0)%Z then str_cmp a' b' else d
  end.

Definition undefined_last (a b : option string) : Z :=
  match a, b with None, None => 0 | None, Some _ => 1 | Some _, None => -1 | Some x, Some y => str_cmp x y end.

#[export] Instance str_cmp_comparator : Comparator str_cmp.
Proof.
  split.
  - intros x. induction x as [|c x IH]; intros [|d y]; cbn [str_cmp]; [done..|]. specialize (IH y). zcases; lia.
  - intros x. induction x as [|c x IH]; intros [|d y] [|e z]; cbn [str_cmp]; try lia. specialize (IH y z). zcases; lia.
Qed.

#[export] Instance undefined_last_comparator : Comparator undefined_last.
Proof.
  split.
  - intros [x|] [y|]; cbn; [apply cmp_opp|done..].
  - intros [x|] [y|] [z|]; cbn; [apply cmp_trans|lia..].
Qed.

Section button.
Context (itemTitleKey itemValueKey : string) (toStr : prop -> string).
Context (string_of : jsval -> string).               (* [String(value)] *)

Definition default_cmp : jsval -> jsval -> Z :=
  cmp_on (fun v => if bool_decide (v = JUndefined) then None else Some (string_of v)) undefined_last.

#[local] Instance default_cmp_comparator : Comparator default_cmp.
Proof. unfold default_cmp. apply _. Qed.

(** [toString] of an array: null and undefined elements are empty. *)
Definition array_toString (l : list jsval) : string := join "," (map (fun v => if isNone v then "" else string_of v) l).

(** [formatTitle]: the title, and the array as it is after that. *)
Definition formatTitle (value : option (list jsval)) : string * option (list jsval) :=
  match value with
  | Some l => let l' := js_sort default_cmp l in (array_toString l', Some l')
  | None => ("", None)
  end.

(** The title is asked for again; the array it sorts is that of the menu. *)
Definition _selectedMultipleItemValue (M : mmenu) : string * mmenu :=
  let '(t, v) := formatTitle (value M) in (t, set_values v M).

Definition display (M : mmenu) : mmenu := (_selectedMultipleItemValue M).2.

(** What the user does to the menu that the button has opened, the title being shown after each
    step; the title of unchanged values is the same and sorting them again changes nothing. *)
Definition button_handle (e : event) (M : mmenu) : outcome mmenu :=
  do! M' <- handle itemTitleKey itemValueKey toStr e M ; Ok (display M').

Fixpoint button_run (es : list event) (M : mmenu) : outcome mmenu :=
  match es with [] => Ok M | e :: es' => do! M' <- button_handle e M ; button_run es' M' end.

(** ** Menus that differ in the order of their values *)

Definition perm (a b : option (list jsval)) : Prop :=
  match a, b with Some l, Some l' => l ≡ₚ l' | None, None => True | _, _ => False end.

Record alike (M N : mmenu) : Prop := {
  al_items : items M = items N;
  al_high : _highlightedItem M = _highlightedItem N;
  al_value : perm (value M) (value N);
  al_search : search M = search N;
  al_shown : isShown M = isShown N
}.

Definition both {A B} (R : A -> B -> Prop) (m : outcome A) (n : outcome B) : Prop :=
  match m, n with Ok a, Ok b => R a b | Throw e, Throw e' => e = e' | _, _ => False end.

Lemma alike_refl M : alike M M.
Proof. split; [done|done| |done|done]. unfold perm. by destruct (value M). Qed.

Lemma existsb_perm (f : jsval -> bool) l l' : l ≡ₚ l' -> existsb f l = existsb f l'.
Proof. induction 1 as [|x l l' _ IH|x y l|l1 l2 l3 _ IH1 _ IH2]; cbn; [done|by rewrite IH|by destruct (f x), (f y)|congruence]. Qed.

Lemma alike_select M N : alike M N -> both alike (selectHighlightedItem itemValueKey M) (selectHighlightedItem itemValueKey N).
Proof.
  intros [Hi Hh Hv Hs Hw]. unfold selectHighlightedItem. rewrite <- Hh. destruct (_highlightedItem M) as [o|] eqn:Eo; [|done].
  unfold perm in Hv. destruct (value M) as [l|] eqn:E1, (value N) as [l'|] eqn:E2; try done.
  destruct (get_prop o itemValueKey) as [v|k].
  - unfold contains. rewrite (existsb_perm _ l l' Hv), (Permutation_length Hv).
    destruct (existsb _ l'); cbn [negb]; [destruct (1 <? length l')%nat|]; split; cbn; rewrite ?E1, ?E2; try congruence; try exact Hv.
    + unfold removeObject. by rewrite Hv.
    + by rewrite Hv.
  - split; cbn; congruence || done.
Qed.

Lemma alike_handle e M N : alike M N ->
  both alike (handle itemTitleKey itemValueKey toStr e M) (handle itemTitleKey itemValueKey toStr e N).
Proof.
  intros H. pose proof H as [Hi Hh Hv Hs Hw]. assert (forall x, alike (set_highlighted x M) (set_highlighted x N)) as Hset by (by intros x; split).
  destruct e as [i| |i| | | |w|t]; cbn [handle].
  - unfold with_item. rewrite <- Hi. destruct (items M !! i); [apply Hset|done].
  - apply Hset.
  - unfold with_item. rewrite <- Hi. destruct (items M !! i) as [o|]; [|done]. by apply alike_select.
  - cbn. unfold _highlightAdjacentMenuItem. rewrite <- Hi, <- Hh. apply Hset.
  - cbn. unfold _highlightAdjacentMenuItem. rewrite <- Hi, <- Hh. apply Hset.
  - unfold insertNewline. rewrite <- Hh. destruct (_highlightedItem M); [by apply alike_select|done].
  - unfold keyPress. destruct (_ && _); [|done]. cbn [fst both]. unfold _doKeySearch, _findByName. cbn. rewrite <- Hi, <- Hs.
    destruct (snd <$> _); by split.
  - rewrite <- Hs. case_bool_decide; [|done]. split; cbn; try done.
Qed.

Lemma display_alike M N : alike M N -> alike M (display N).
Proof.
  intros [Hi Hh Hv Hs Hw]. unfold display, _selectedMultipleItemValue, formatTitle. unfold perm in Hv.
  destruct (value M) as [l|] eqn:E1, (value N) as [l'|] eqn:E2; try done; split; cbn; rewrite ?E1, ?E2; try done.
  cbn. rewrite Hv. symmetry. apply js_sort_perm.
Qed.

(** ** Properties *)

Definition sorted_values (M : mmenu) : Prop :=
  match value M with Some l => StronglySorted (not_greater default_cmp) l | None => True end.

Lemma display_sorted M : sorted_values (display M).
Proof.
  unfold sorted_values, display, _selectedMultipleItemValue, formatTitle. destruct (value M); cbn; [|done]. apply js_sort_sorted, _.
Qed.

(** Whatever is done to the menu of a button, the button's sorting of the values changes
    nothing but their order: the menu highlights, finds and throws as it would by itself and has
    the same values chosen; they are in order, and the title names each of them. *)
Theorem button_keeps_choice es M :
  both (fun N B => alike N B /\ sorted_values B /\
      exists l, (_selectedMultipleItemValue B).1 = array_toString l /\ l ≡ₚ default [] (value N))
    (handle_all itemTitleKey itemValueKey toStr es M) (button_run es (display M)).
Proof.
  assert (forall N B, alike N B -> sorted_values B -> both (fun N B => alike N B /\ sorted_values B)
    (handle_all itemTitleKey itemValueKey toStr es N) (button_run es B)) as H.
  { induction es as [|e es IH]; intros N B Ha Hs; [done|]. cbn [handle_all button_run]. unfold button_handle.
    pose proof (alike_handle e N B Ha) as He. destruct (handle _ _ _ e N) as [N'|x], (handle _ _ _ e B) as [B'|y]; try done.
    cbn [outcome_bind]. apply IH; [by apply display_alike|apply display_sorted]. }
  specialize (H M (display M) (display_alike M M (alike_refl M)) (display_sorted M)).
  destruct (handle_all _ _ _ es M) as [N|x], (button_run es (display M)) as [B|y]; cbn [both] in *; try done.
  destruct H as [Ha Hs]. split_and!; [done|done|]. unfold _selectedMultipleItemValue, formatTitle.
  destruct Ha as [_ _ Hv _ _]. unfold perm in Hv. destruct (value N) as [l|], (value B) as [l'|]; try done; cbn.
  - eexists. split; [reflexivity|]. rewrite Hv. apply js_sort_perm.
  - by exists [].
Qed.
End button.

(** ** Departures *)

Definition ex_string (v : jsval) : string := match v with JStr s => s | JNum z => pretty z | _ => "" end.

(** Showing the title changes the array of the application, without telling its observers. *)
Lemma title_reorders_values :
  formatTitle ex_string (Some [JStr "c"; JStr "a"; JStr "b"]) = ("a,b,c", Some [JStr "a"; JStr "b"; JStr "c"]).
Proof. vm_compute. reflexivity. Qed.

(** Numbers are ordered as strings. *)
Lemma numbers_as_strings : (formatTitle ex_string (Some [JNum 9; JNum 10])).1 = "10,9".
Proof. vm_compute. reflexivity. Qed.

(** ** Opening the menu *)

Record mbutton := MButton { button_isDisabled : bool; _menuOpen : bool; flameState : string }.

(** [_openMenu], and the [close] of the menu it makes. *)
Definition _openMenu (b : mbutton) : mbutton := MButton (button_isDisabled b) true "mouseDownInside".
Definition menu_closed (b : mbutton) : mbutton := MButton (button_isDisabled b) false "idle".

Definition button_mouseDown (b : mbutton) : mbutton * bool := (if button_isDisabled b then b else _openMenu b, true).
Definition insertSpace (b : mbutton) : mbutton * bool := (_openMenu b, true).

(** The space key opens the menu of a disabled button, which the mouse does not. *)
Lemma disabled_button_opens :
  let b := MButton true false "idle" in _menuOpen (button_mouseDown b).1 = false /\ _menuOpen (insertSpace b).1 = true.
Proof. done. Qed.
