(* ===== verification/SelectButton.v ===== *)
(** * Buttons that select values
    ([views/select_button_view.js], [views/multiselection_button_view.js])

    A select button shows the title of the item that has its value, which may be in a
    submenu, and gives itself the value of the first item when its items change and none
    has its value.  A button for several values shows them sorted.  Both open a menu
    ([Menu], [MultiMenu]), whose closing puts the button back to idle.

    Items are trees.  What they are read for, value and submenu, is found by configurable
    keys, which the model resolves. *)

From S2P Require Import Prelude Arrays.
Open Scope string_scope.
Open Scope list_scope.
Open Scope flame_scope.

(** ** Items *)

Inductive item := Item (title : string) (value : jsval) (subMenu : option (list item)).

Definition title (i : item) : string := match i with Item t _ _ => t end.
Definition ivalue (i : item) : jsval := match i with Item _ v _ => v end.

Section select.
Context (value : jsval).

(** [_findItem(item)] for one item of a list, after those before it; an empty or missing
    submenu is skipped. *)
Fixpoint find_in (i : item) (foundItem : option item) : option item :=
  match i with
  | Item _ v sub =>
      if strict_eq v value then Some i
      else
        match sub with
        | Some (x :: l) =>
            match (fix loop (l : list item) (found : option item) : option item :=
                     match l with [] => found | x :: l' => loop l' (find_in x found) end) (x :: l) None with
            | Some f => Some f
            | None => foundItem
            end
        | _ => foundItem
        end
  end.

Definition _findItem (itemList : option (list item)) : option item :=
  match itemList with
  | None => None
  | Some l => foldl (fun found i => find_in i found) None l
  end.
End select.

(** ** The button *)

Inductive bstate := Idle | MouseDownInside.

Record select_button := SelectButton {
  items : option (list item);
  bvalue : jsval;
  isDisabled : bool;
  bstate_ : bstate;
  menu_open : bool
}.

Definition put_items x b := SelectButton x (bvalue b) (isDisabled b) (bstate_ b) (menu_open b).
Definition put_value x b := SelectButton (items b) x (isDisabled b) (bstate_ b) (menu_open b).
Definition put_menu s o b := SelectButton (items b) (bvalue b) (isDisabled b) s o.

Definition _selectedMenuItem (b : select_button) : option item :=
  match bvalue b with JUndefined => None | v => _findItem v (items b) end.

Definition itemsDidChange (b : select_button) : select_button :=
  match items b with
  | Some (i :: _) => match _findItem (bvalue b) (items b) with None => put_value (ivalue i) b | Some _ => b end
  | _ => b
  end.

(** [this.set('items', l)] with another array. *)
Definition set_items (l : option (list item)) (b : select_button) : select_button := itemsDidChange (put_items l b).

(** The menu is created and shown. *)
Definition _openMenu (b : select_button) : select_button := put_menu MouseDownInside true b.

Definition mouseDown (b : select_button) : select_button * bool := (if isDisabled b then b else _openMenu b, true).
Definition insertSpace (b : select_button) : select_button * bool := (_openMenu b, true).

(** [close] of the menu. *)
Definition close_menu (b : select_button) : select_button := put_menu Idle false b.

(** An item selected in the menu, whose value is that of the button. *)
Definition select (v : jsval) (b : select_button) : select_button := put_value v (close_menu b).

(** ** Several values *)

Definition str_cmp (x y : string) : Z :=
  match String.compare x y with Lt => -1 | Eq => 0 | Gt => 1 end%Z.

(** [formatTitle(value)]: the array is sorted in place.  The result is the title and the
    array that is left. *)
Definition formatTitle (value : option (list string)) : string * option (list string) :=
  match value with
  | None => ("", None)
  | Some l => let sorted := js_sort str_cmp l in (Prelude.join ","%char sorted, Some sorted)
  end.

(** ** Specification *)

(** The items of a list and of the submenus of those that do not have the value. *)
Inductive reachable (v : jsval) : item -> item -> Prop :=
| reach_self i : reachable v i i
| reach_sub t w l x i : strict_eq w v = false -> x ∈ l -> reachable v x i -> reachable v (Item t w (Some l)) i.

Section item_induction.
Context (P : item -> Prop).
Context (Hleaf : forall t v, P (Item t v None)).
Context (Hnode : forall t v l, (forall x, x ∈ l -> P x) -> P (Item t v (Some l))).

Lemma item_nested_ind : forall i, P i.
Proof.
  fix IH 1. intros [t v [l|]]; [|apply Hleaf]. apply Hnode.
  enough (H : Forall P l) by exact (proj1 (Forall_forall P l) H).
  induction l as [|x l IHl]; constructor; [apply IH|exact IHl].
Qed.
End item_induction.

(** ** Lemmas *)

Section find.
Context (value : jsval).

Lemma find_in_sub t v l found : strict_eq v value = false ->
  find_in value (Item t v (Some l)) found =
  match _findItem value (Some l) with Some f => Some f | None => found end.
Proof.
  intros Hv. cbn [find_in]. rewrite Hv. destruct l as [|x l]; [done|]. cbn [_findItem foldl].
  enough (H : forall l f, (fix loop (l : list item) (found : option item) : option item :=
     match l with [] => found | x :: l' => loop l' (find_in value x found) end) l f =
     foldl (fun found i => find_in value i found) f l) by (rewrite H; done).
  induction l0 as [|y l' IH]; intros f; [done|]. apply IH.
Qed.

(** An item either replaces what was found before it, or leaves it. *)
Lemma find_in_found i : forall found,
  (find_in value i found = found /\ forall x, reachable value i x -> strict_eq (ivalue x) value = false) \/
  (exists x, (forall found', find_in value i found' = Some x) /\ reachable value i x /\ strict_eq (ivalue x) value = true).
Proof.
  induction i as [t v|t v l IH] using item_nested_ind; intros found.
  - cbn [find_in]. destruct (strict_eq v value) eqn:E.
    + right. exists (Item t v None). split_and!; [done|constructor|done].
    + left. split; [done|]. intros x Hx. by inversion Hx; subst.
  - destruct (strict_eq v value) eqn:E.
    + right. exists (Item t v (Some l)). cbn [find_in]. rewrite E. split_and!; [done|constructor|done].
    + setoid_rewrite find_in_sub; [|done..].
      assert (H : forall f,
        (foldl (fun found i => find_in value i found) f l = f /\
           forall y, y ∈ l -> forall x, reachable value y x -> strict_eq (ivalue x) value = false) \/
        (exists x, (forall f', foldl (fun found i => find_in value i found) f' l = Some x) /\
           (exists y, y ∈ l /\ reachable value y x) /\ strict_eq (ivalue x) value = true)).
      { induction l as [|y l IHl]; intros f; [left; split; [done|]; intros y Hy; by apply elem_of_nil in Hy|]. cbn [foldl].
        destruct (IHl ltac:(intros; apply IH; set_solver) (find_in value y f)) as [[E1 H1]|(x & E1 & (z & Hz & Hr) & Hx)].
        - destruct (IH y ltac:(set_solver) f) as [[E2 H2]|(x & E2 & Hr & Hx)].
          + left. rewrite E1, E2. split; [done|]. intros z [->|Hz]%elem_of_cons; [done|by apply H1].
          + right. exists x. split; [|split; [exists y; set_solver|done]].
            intros f'. rewrite E2.
            destruct (IHl ltac:(intros; apply IH; set_solver) (Some x)) as [[E3 _]|(x' & E3 & (z & Hz & Hr') & Hx')]; [done|].
            rewrite (H1 z Hz x' Hr') in Hx'. done.
        - right. exists x. split; [intros f'; apply E1|]. split; [exists z; set_solver|done]. }
      cbn [_findItem]. destruct (H None) as [[-> H1]|(x & E1 & (y & Hy & Hr) & Hx)].
      * left. split; [done|]. intros x Hx. inversion Hx as [|? ? ? y ? _ Hy Hr]; subst; [done|by eapply H1].
      * right. exists x. rewrite E1. split_and!; [done|by eapply reach_sub|done].
Qed.

Lemma findItem_fold l : forall f,
  (foldl (fun found i => find_in value i found) f l = f /\
     forall y, y ∈ l -> forall x, reachable value y x -> strict_eq (ivalue x) value = false) \/
  (exists x, foldl (fun found i => find_in value i found) f l = Some x /\
     (exists y, y ∈ l /\ reachable value y x) /\ strict_eq (ivalue x) value = true).
Proof.
  induction l as [|y l IH]; intros f; [left; split; [done|]; intros y Hy; by apply elem_of_nil in Hy|]. cbn [foldl].
  destruct (IH (find_in value y f)) as [[E1 H1]|(x & E1 & (z & Hz & Hr) & Hx)].
  - destruct (find_in_found y f) as [[E2 H2]|(x & E2 & Hr & Hx)].
    + left. rewrite E1, E2. split; [done|]. intros z [->|Hz]%elem_of_cons; [done|by apply H1].
    + right. exists x. rewrite E1, E2. split; [done|]. split; [exists y; set_solver|done].
  - right. exists x. split; [done|]. split; [exists z; set_solver|done].
Qed.
End find.

(** All items of a tree. *)
Inductive within : item -> item -> Prop :=
| within_self i : within i i
| within_sub t w l x i : x ∈ l -> within x i -> within (Item t w (Some l)) i.

Lemma reachable_within v i x : reachable v i x -> within i x.
Proof. induction 1; [constructor|by eapply within_sub]. Qed.

Lemma unreachable_without v i : (forall x, reachable v i x -> strict_eq (ivalue x) v = false) ->
  forall x, within i x -> strict_eq (ivalue x) v = false.
Proof.
  intros H x Hx. revert H. induction Hx as [i|t w l y i Hy Hw IH]; intros H; [apply H; constructor|].
  apply IH. intros z Hz. apply H. eapply reach_sub; [|exact Hy|exact Hz].
  exact (H (Item t w (Some l)) (reach_self v _)).
Qed.

(** ** Properties *)

(** The item that a select button shows is one of its items or of their submenus, at
    any depth, and has the button's value; when there is none, no item has. *)
Theorem findItem_correct v l :
  match _findItem v (Some l) with
  | Some x => strict_eq (ivalue x) v = true /\ exists y, y ∈ l /\ within y x
  | None => forall y x, y ∈ l -> within y x -> strict_eq (ivalue x) v = false
  end.
Proof.
  cbn [_findItem]. destruct (findItem_fold v l None) as [[-> H]|(x & -> & (y & Hy & Hr) & Hx)].
  - intros y x Hy Hw. apply (unreachable_without v y); [|done]. by apply H.
  - split; [done|]. exists y. split; [done|by eapply reachable_within].
Qed.

(** After the items of a select button have been replaced by others that are not empty,
    some item has its value: the value is kept if it is that of an item, otherwise it
    becomes the value of the first one. *)
Theorem items_change_selects l b i rest :
  l = i :: rest -> ivalue i <> JNaN ->
  let b' := set_items (Some l) b in
  items b' = Some l /\ is_Some (_findItem (bvalue b') (Some l)) /\
  (bvalue b' = bvalue b /\ is_Some (_findItem (bvalue b) (Some l)) \/
   bvalue b' = ivalue i /\ _findItem (bvalue b) (Some l) = None) /\
  (bvalue b' <> JUndefined -> is_Some (_selectedMenuItem b')).
Proof.
  intros -> Hi. cbv zeta. unfold set_items, itemsDidChange. cbn [put_items items bvalue].
  assert (Hfirst : is_Some (_findItem (ivalue i) (Some (i :: rest)))).
  { pose proof (findItem_correct (ivalue i) (i :: rest)) as H.
    destruct (_findItem (ivalue i) (Some (i :: rest))); [by eexists|].
    specialize (H i i ltac:(set_solver) ltac:(constructor)). exfalso. revert H Hi. unfold strict_eq.
    destruct (ivalue i); try done; rewrite bool_decide_eq_true_2 by done; done. }
  assert (Hsel : forall b, is_Some (_findItem (bvalue b) (items b)) -> bvalue b <> JUndefined -> is_Some (_selectedMenuItem b)).
  { intros b0 H Hu. unfold _selectedMenuItem. by destruct (bvalue b0). }
  destruct (_findItem (bvalue b) (Some (i :: rest))) as [x|] eqn:E; cbn [put_value put_items items bvalue].
  - split; [done|]. rewrite E. split; [by eexists|]. split; [left; split; [done|by eexists]|].
    intros Hu. apply Hsel; [|done]. cbn [put_items items bvalue]. rewrite E. by eexists.
  - split; [done|]. split; [done|]. split; [by right|]. intros Hu. by apply Hsel.
Qed.

(** ** Witnesses *)

Definition ex_items : list item :=
  [Item "one" (JNum 1) None; Item "more" JUndefined (Some [Item "two" (JNum 2) None; Item "three" (JNum 3) None])].
Definition ex_button (v : jsval) : select_button := SelectButton None v false Idle false.

Lemma items_change_selects_witness :
  bvalue (set_items (Some ex_items) (ex_button (JNum 3))) = JNum 3 /\
  bvalue (set_items (Some ex_items) (ex_button (JNum 7))) = JNum 1 /\
  is_Some (_findItem (JNum 1) (Some ex_items)).
Proof.
  split; [reflexivity|]. split; [reflexivity|].
  exact (proj1 (proj2 (items_change_selects ex_items (ex_button (JNum 7)) _ _ eq_refl ltac:(discriminate)))).
Defined.

(** ** Departures *)

(** An item without a value, as those with submenus are, is taken for one that has the
    value of a button that has none: no item gets selected. *)
Lemma undefined_value_is_found :
  let b := set_items (Some ex_items) (ex_button JUndefined) in bvalue b = JUndefined /\ _selectedMenuItem b = None.
Proof. split; reflexivity. Qed.

(** The space bar opens the menu of a disabled button. *)
Lemma disabled_opens_by_space : menu_open (fst (insertSpace (SelectButton (Some ex_items) (JNum 1) true Idle false))) = true /\
  menu_open (fst (mouseDown (SelectButton (Some ex_items) (JNum 1) true Idle false))) = false.
Proof. split; reflexivity. Qed.

(** Showing the title sorts the array that is the value. *)
Lemma title_sorts_value : formatTitle (Some ["b"; "a"]) = ("a,b", Some ["a"; "b"]).
Proof. reflexivity. Qed.
