(* ===== verification/ComboBox.v ===== *)
(** * Combo boxes ([views/combo_box_view.js])

    A select button, the one of [SelectButton], with a text field in it that has the same
    value, so that values can be typed that no item has.  The text field sets its value with
    each key, as [TextField] has it by default. *)

From S2P Require Import Prelude.
From S2P Require Import SelectButton.
Open Scope string_scope.
Open Scope list_scope.
Open Scope flame_scope.

Record combo := Combo {
  box : select_button;
  element : string                 (* the text in the input *)
}.

(** A value as Ember writes it into the input. *)
Definition to_text (v : jsval) : string :=
  match v with
  | JUndefined | JNull => ""
  | JBool b => if b then "true" else "false"
  | JNaN => "NaN"
  | JNum z => pretty z
  | JStr s => s
  | JObj _ => "[object Object]"
  end.

(** The value of the text field is that of the box: after a change of the box the input is
    written when the value has changed. *)
Definition with_box (b : select_button) (c : combo) : combo :=
  Combo b (if bool_decide (bvalue b = bvalue (box c)) then element c else to_text (bvalue b)).

(** A key in the input. *)
Definition keyUp (s : string) (c : combo) : combo := Combo (put_value (JStr s) (box c)) s.

Definition insertSpace (c : combo) : combo * bool := (c, false).

(** The action of the button in the box. *)
Definition button_action (c : combo) : combo := with_box (_openMenu (box c)) c.

(** A click beside the text and the button. *)
Definition mouseDown (c : combo) : combo * bool := let '(b, r) := SelectButton.mouseDown (box c) in (with_box b c, r).

Inductive event := Key (s : string) | Space | Arrow | Press | Choose (v : jsval) | Dismiss | SetValue (v : jsval) | SetItems (l : option (list item)).

Definition step (c : combo) (ev : event) : combo :=
  match ev with
  | Key s => keyUp s c
  | Space => fst (insertSpace c)
  | Arrow => button_action c
  | Press => fst (mouseDown c)
  | Choose v => with_box (select v (box c)) c
  | Dismiss => with_box (close_menu (box c)) c
  | SetValue v => with_box (put_value v (box c)) c
  | SetItems l => with_box (set_items l (box c)) c
  end.

Definition create (l : option (list item)) (v : jsval) : combo :=
  Combo (SelectButton l v false Idle false) (to_text v).

(** The values that the user has typed or chosen, and that the application has set. *)
Definition offered (ev : event) : list jsval := match ev with Key s => [JStr s] | Choose v | SetValue v => [v] | _ => [] end.
Definition firsts (ev : event) : list jsval := match ev with SetItems (Some (i :: _)) => [ivalue i] | _ => [] end.

(** In a combo box the input always shows the value, however typing, choosing from the menu
    and changes of the items follow each other.  Only new items give a value that has not been
    typed, chosen or set: that of the first of them, and only when no item has the value there
    is. *)
Theorem combo_shows_value l v evs :
  let c := foldl step (create l v) evs in
  element c = to_text (bvalue (box c)) /\ bvalue (box c) ∈ v :: concat (map offered evs) ++ concat (map firsts evs).
Proof.
  cbv zeta. rewrite <- (rev_involutive evs). induction (rev evs) as [|ev es [IH1 IH2]]; [split; [done|apply list_elem_of_here]|].
  cbn [rev]. rewrite foldl_app, !map_app, !concat_app. set (c := foldl step (create l v) (rev es)) in *. cbn [foldl map concat app].
  rewrite !app_nil_r. clearbody c.
  assert (forall b, element (with_box b c) = to_text (bvalue b)) as Hw.
  { intros b. unfold with_box. cbn. case_bool_decide as E; [by rewrite E|done]. }
  split.
  - destruct ev as [s| | | |w| |w|l']; cbn [step]; unfold button_action, mouseDown, SelectButton.mouseDown; cbn [fst]; rewrite ?Hw; done.
  - assert (forall x, x = bvalue (box c) \/ x ∈ offered ev ++ firsts ev ->
      x ∈ v :: (concat (map offered (rev es)) ++ offered ev) ++ concat (map firsts (rev es)) ++ firsts ev) as H by set_solver.
    apply H. destruct ev as [s| | | |w| |w|l']; cbn [step offered firsts]; try (by left); try (right; by apply list_elem_of_here).
    + left. unfold mouseDown, SelectButton.mouseDown. by destruct (isDisabled (box c)).
    + unfold set_items, itemsDidChange. cbn [with_box box]. destruct l' as [[|i l']|]; try (by left).
      cbn [put_items items bvalue]. destruct (_findItem _ _); [by left|]. right. apply list_elem_of_here.
Qed.

(** ** Departures *)

(** A text that was typed and that no item has is replaced when the items change. *)
Lemma typed_text_is_replaced :
  let c := foldl step (create (Some ex_items) (JNum 1)) [Key "my own"; SetItems (Some ex_items)] in
  element c = "1" /\ bvalue (box c) = JNum 1.
Proof. split; reflexivity. Qed.

(** A combo box that is disabled opens its menu and takes keys: the button and the field in it
    are not disabled with it. *)
Lemma disabled_box_works :
  let c := Combo (SelectButton (Some ex_items) (JNum 1) true Idle false) "1" in
  menu_open (box (step c Arrow)) = true /\ menu_open (box (step c Press)) = false /\ bvalue (box (step c (Key "x"))) = JStr "x".
Proof. split_and!; reflexivity. Qed.

(** The input shows the value of the item that was chosen, not its title. *)
Lemma value_instead_of_title : element (step (create (Some ex_items) (JNum 1)) (Choose (JNum 2))) = "2".
Proof. reflexivity. Qed.
