(* ===== verification/ListView.v ===== *)
(** * List views ([views/list_view.js], [views/list_item_view.js])

    A list shows the items of its content, each in an item view; one item can be
    selected, and with the mouse pressed on an item and moved far enough, it is dragged.
    The list view is a statechart of the states [idle], [mouseButtonPressed] and
    [reordering]; the moving of the dragged item itself is in ListDrag.

    Items are identified by numbers.  The item view that Ember makes for an item is a
    parameter, as are the positions of elements and whether an item may be reordered. *)

From S2P Require Import Prelude Arrays Statechart.
Open Scope string_scope.
Open Scope list_scope.
Open Scope flame_scope.

(** ** State *)

Record child := Child {
  isVisible : bool;
  allowSelectionOf : bool;        (* [allowSelection !== false] of the item view *)
  isSelected : bool;
  contentIndex : nat
}.

(** The part of the drag helper that a press on an item stores. *)
Record drag_data := DragData { lastPageX : Z; lastPageY : Z; yOffset : Z; itemPath : list nat }.

(** What is done to the drag helper. *)
Inductive helper_call := InitReorder (d : option drag_data) | FinishReorder (d : option drag_data) | ScheduleUpdate (x y : Z).

Record listview := ListView {
  content : option (list nat);
  childViews : list child;
  selection : option nat;
  allowSelection : bool;
  allowReordering : bool;
  flameState : option string;
  dragHelper : option drag_data;
  isDragging : bool;
  calls : list helper_call
}.

Definition set_children x s := ListView (content s) x (selection s) (allowSelection s) (allowReordering s) (flameState s) (dragHelper s) (isDragging s) (calls s).
Definition put_selection x s := ListView (content s) (childViews s) x (allowSelection s) (allowReordering s) (flameState s) (dragHelper s) (isDragging s) (calls s).
Definition set_content x s := ListView x (childViews s) (selection s) (allowSelection s) (allowReordering s) (flameState s) (dragHelper s) (isDragging s) (calls s).
Definition put_state x s := ListView (content s) (childViews s) (selection s) (allowSelection s) (allowReordering s) (Some x) (dragHelper s) (isDragging s) (calls s).
Definition set_helper x s := ListView (content s) (childViews s) (selection s) (allowSelection s) (allowReordering s) (flameState s) x (isDragging s) (calls s).
Definition set_dragging x s := ListView (content s) (childViews s) (selection s) (allowSelection s) (allowReordering s) (flameState s) (dragHelper s) x (calls s).
Definition add_call x s := ListView (content s) (childViews s) (selection s) (allowSelection s) (allowReordering s) (flameState s) (dragHelper s) (isDragging s) (calls s ++ [x]).

Definition set_selected b c := Child (isVisible c) (allowSelectionOf c) b (contentIndex c).
Definition set_index i c := Child (isVisible c) (allowSelectionOf c) (isSelected c) i.

(** ** Selection *)

Definition _setIsSelectedStatus (contentItem : option nat) (status : bool) (s : listview) : listview :=
  match contentItem with
  | None => s
  | Some item =>
      match indexOf item (default [] (content s)) with
      | Some index => set_children (alter (set_selected status) index (childViews s)) s
      | None => s
      end
  end.

(** [set('selection', x)], with the observers before and after it. *)
Definition set_selection (x : option nat) (s : listview) : listview :=
  if decide (selection s = x) then s
  else
    let s1 := _setIsSelectedStatus (selection s) false s in
    let s2 := put_selection x s1 in
    _setIsSelectedStatus x true s2.

Definition selectIndex (index : nat) (s : listview) : listview * bool :=
  if negb (allowSelection s) then (s, false)
  else
    match content s, childViews s !! index with
    | Some items, Some childView =>
        if isVisible childView && allowSelectionOf childView then (set_selection (items !! index) s, true) else (s, false)
    | _, _ => (s, false)
    end.

(** The loop over the items that cannot be selected; it has at most as many rounds as
    there are items. *)
Fixpoint change_loop (fuel : nat) (direction newIndex : Z) (len : nat) (s : listview) : listview * bool :=
  match fuel with
  | O => (s, false)
  | S n =>
      if (0 <=? newIndex)%Z && (newIndex <? Z.of_nat len)%Z then
        let (s', b) := selectIndex (Z.to_nat newIndex) s in
        if b then (s', true) else change_loop n direction (newIndex + direction)%Z len s'
      else (s, false)
  end.

Definition current_index (items : list nat) (sel : option nat) : Z :=
  match x ← sel; indexOf x items with Some i => Z.of_nat i | None => (-1)%Z end.

Definition changeSelection (direction : Z) (s : listview) : outcome (listview * bool) :=
  match content s with
  | None => Throw TypeError
  | Some items =>
      let index := current_index items (selection s) in
      Ok (change_loop (S (length items)) direction (index + direction)%Z (length items) s)
  end.

(** ** Contents *)

Definition _updateContentIndexes (s : listview) : listview := set_children (imap set_index (childViews s)) s.

(** A change of the content: the item views of the removed items go and new ones are
    made, unless an item is being dragged; then the indexes are updated. *)
Definition arrayDidChange (createItemView : nat -> child) (start removed : nat) (added : list nat) (s : listview) : listview :=
  if isDragging s then s
  else _updateContentIndexes (set_children (array_replace start removed (createItemView <$> added) (childViews s)) s).

Definition content_replace (createItemView : nat -> child) (start removed : nat) (added : list nat) (s : listview) : listview :=
  match content s with
  | None => s
  | Some items => arrayDidChange createItemView start removed added (set_content (Some (array_replace start removed added items)) s)
  end.

Definition create (createItemView : nat -> child) (items : list nat) (sel : option nat) (allowSel allowReord : bool) : listview :=
  let s := ListView (Some items) (imap (fun i x => set_index i (createItemView x)) items) sel allowSel allowReord (Some "idle") None false [] in
  _setIsSelectedStatus sel true s.

(** ** States *)

#[export] Instance listview_chart : Chart listview := {
  currentFlameState := flameState;
  set_currentFlameState := put_state;
  lookup_state n :=
    if String.eqb n "idle" then PState (Hooks (Some (set_helper None)) None)
    else if String.eqb n "mouseButtonPressed" then PState (Hooks None None)
    else if String.eqb n "reordering" then
      PState (Hooks (Some (fun s => set_dragging true (add_call (InitReorder (dragHelper s)) s)))
                    (Some (fun s => set_dragging false (set_helper None (add_call (FinishReorder (dragHelper s)) s)))))
    else PUndefined
}.

Section States.
Context (allowReorderingItem : nat -> bool).
Context (itemTop : nat -> Z).                   (* [childView.$().offset().top] *)

Definition _minimumDeltaToStartDrag : Z := 4.

Definition _shouldStartDragging (x y : Z) (s : listview) : bool :=
  match dragHelper s with
  | Some d =>
      let deltaX := Z.abs (lastPageX d - x) in
      let deltaY := Z.abs (lastPageY d - y) in
      (_minimumDeltaToStartDrag <? deltaX)%Z || (_minimumDeltaToStartDrag <? deltaY)%Z
  | None => false
  end.

(** What arrives at a list view: calls of its item views and of the event manager.
    [Some b] is the value returned, none is [undefined]. *)
Inductive call :=
| MoveUp | MoveDown
| MouseDownOnItem (itemIndex : option nat) (x y : Z)
| MouseUpOnItem | MouseUp | TouchEnd
| MouseMove (x y : Z) | TouchMove (x y : Z).

Definition goto (n : string) (s : listview) : outcome (listview * option bool) :=
  do! s' <- gotoFlameState n s; Ok (s', Some true).

(** The methods of [reordering]. *)
Definition reordering_call (c : call) (s : listview) : outcome (listview * option bool) :=
  match c with
  | MouseMove x y => Ok (add_call (ScheduleUpdate x y) s, Some true)
  | TouchMove x y => Ok (add_call (ScheduleUpdate x y) s, Some true)
  | MouseUp | TouchEnd => goto "idle" s
  | _ => Ok (s, None)
  end.

(** The event is handled also in the new state. *)
Definition startReordering (d : option drag_data) (x y : Z) (s : listview) : outcome (listview * option bool) :=
  do! s' <- gotoFlameState "reordering" (set_helper d s);
  reordering_call (MouseMove x y) s'.

Definition pressed_move (x y : Z) (s : listview) : outcome (listview * option bool) :=
  let d := dragHelper s in
  if _shouldStartDragging x y s then
    do! s1 <- gotoFlameState "idle" s;
    do! r <- startReordering d x y s1;
    Ok (r.1, Some true)
  else Ok (s, Some true).

Definition pressed_call (c : call) (s : listview) : outcome (listview * option bool) :=
  match c with
  | MouseUpOnItem | MouseUp | TouchEnd => goto "idle" s
  | MouseMove x y => pressed_move x y s
  | TouchMove x y => pressed_move x y s
  | _ => Ok (s, None)
  end.

Definition mouseDownOnItem (itemIndex : option nat) (x y : Z) (s : listview) : outcome (listview * option bool) :=
  let s1 := match itemIndex with Some i => fst (selectIndex i s) | None => s end in
  do! s2 <-
    match itemIndex with
    | Some i =>
        if allowReordering s1 && allowReorderingItem i then
          do! childView <- or_throw (childViews s1 !! i) TypeError;
          Ok (set_helper (Some (DragData x y (y - itemTop i) [i])) s1)
        else Ok s1
    | None => Ok s1
    end;
  goto "mouseButtonPressed" s2.

Definition idle_call (c : call) (s : listview) : outcome (listview * option bool) :=
  match c with
  | MoveUp => do! r <- changeSelection (-1) s; Ok (r.1, Some r.2)
  | MoveDown => do! r <- changeSelection 1 s; Ok (r.1, Some r.2)
  | MouseDownOnItem i x y => mouseDownOnItem i x y s
  | _ => Ok (s, None)
  end.

(** [invokeStateMethod]: the method of the current state, if it has one. *)
Definition invoke (c : call) (s : listview) : outcome (listview * option bool) :=
  match flameState s with
  | Some "idle" => idle_call c s
  | Some "mouseButtonPressed" => pressed_call c s
  | Some "reordering" => reordering_call c s
  | _ => Throw TypeError
  end.

Fixpoint invoke_all (cs : list call) (s : listview) : outcome listview :=
  match cs with [] => Ok s | c :: cs' => do! r <- invoke c s; invoke_all cs' r.1 end.
End States.

(** ** The mouse on an item view

    A drag may take the item view to another list; what follows a press still goes to
    the list it was pressed in. *)
Record itemview := ItemView { parentView : nat; itemIndex : option nat; _parentViewOnMouseDown : option nat }.
Inductive item_event := ItemMouseDown | ItemMouseMove | ItemMouseUp | ItemTouchStart | ItemTouchMove | ItemTouchEnd.
Inductive forwarded := FwdDown (index : option nat) | FwdMove | FwdTouchMove | FwdUp.

(** The call that is made, and of which list view; none returns [false]. *)
Definition item_handle (e : item_event) (v : itemview) : itemview * option (nat * forwarded) :=
  match e with
  | ItemMouseDown | ItemTouchStart =>
      (ItemView (parentView v) (itemIndex v) (Some (parentView v)), Some (parentView v, FwdDown (itemIndex v)))
  | ItemMouseMove => (v, p ← _parentViewOnMouseDown v; Some (p, FwdMove))
  | ItemTouchMove => (v, p ← _parentViewOnMouseDown v; Some (p, FwdTouchMove))
  | ItemMouseUp | ItemTouchEnd =>
      match _parentViewOnMouseDown v with
      | Some p => (ItemView (parentView v) (itemIndex v) None, Some (p, FwdUp))
      | None => (v, None)
      end
  end.

(** ** What holds of the selection *)

(** The selected item, and no other, has an item view that shows as selected. *)
Definition shown (s : listview) : Prop :=
  exists items, content s = Some items /\ NoDup items /\ length (childViews s) = length items /\
    forall i c, childViews s !! i = Some c -> (isSelected c = true <-> exists x, items !! i = Some x /\ selection s = Some x).

Lemma status_other o b s : selection (_setIsSelectedStatus o b s) = selection s /\ content (_setIsSelectedStatus o b s) = content s /\
  length (childViews (_setIsSelectedStatus o b s)) = length (childViews s).
Proof. unfold _setIsSelectedStatus. repeat case_match; cbn; rewrite ?length_alter; done. Qed.

(** Which item views an update of the status reaches. *)
Lemma status_lookup o b s items i c : content s = Some items -> NoDup items ->
  childViews (_setIsSelectedStatus o b s) !! i = Some c ->
  exists c0, childViews s !! i = Some c0 /\
    ((exists x, items !! i = Some x /\ o = Some x) /\ isSelected c = b \/
     ~ (exists x, items !! i = Some x /\ o = Some x) /\ isSelected c = isSelected c0).
Proof.
  intros Hc Hnd. unfold _setIsSelectedStatus. rewrite Hc. change (default [] (Some items)) with items.
  destruct o as [x|]; [|intros Hi; exists c; split; [done|right; split; [naive_solver|done]]].
  destruct (indexOf x items) as [j|] eqn:Ej.
  - apply indexOf_Some in Ej. unfold set_children. cbn [childViews]. rewrite list_lookup_alter. destruct (decide (j = i)) as [->|Hne].
    + intros (c0 & Hc0 & ->)%fmap_Some. exists c0. split; [done|]. left. split; eauto.
    + intros Hi. exists c. split; [done|]. right. split; [|done]. intros (y & Hy & [= ->]). apply Hne. by eapply NoDup_lookup.
  - intros Hi. exists c. split; [done|]. right. split; [|done]. intros (y & Hy & [= ->]).
    destruct (indexOf_elem y items) as [k Hk]; [by eapply list_elem_of_lookup_2|]. congruence.
Qed.

Lemma set_selection_shown x s : shown s -> shown (set_selection x s).
Proof.
  intros (items & Hc & Hnd & Hlen & Hs). unfold set_selection. destruct (decide (selection s = x)) as [|Hne]; [by exists items|].
  destruct (status_other (selection s) false s) as (S1 & S2 & S3).
  set (s1 := _setIsSelectedStatus (selection s) false s) in *.
  destruct (status_other x true (put_selection x s1)) as (T1 & T2 & T3).
  exists items. rewrite T2, T3. cbn in T1 |- *. rewrite T1, S2, S3. split_and!; [done..|].
  assert (Hc2 : content (put_selection x s1) = Some items) by (cbn; by rewrite S2).
  intros i c Hi. destruct (status_lookup _ _ _ items i c Hc2 Hnd Hi) as (c0 & Hc0 & [[Hx E]|[Hx E]]).
  - rewrite E. split; [done|]. done.
  - rewrite E. change (childViews (put_selection x s1)) with (childViews s1) in Hc0. unfold s1 in Hc0.
    destruct (status_lookup _ _ _ items i c0 Hc Hnd Hc0) as (d0 & Hd0 & [[Hy E']|[Hy E']]).
    + rewrite E'. naive_solver.
    + rewrite E', (Hs i _ Hd0). naive_solver.
Qed.

Definition same_selection (s s' : listview) : Prop :=
  content s' = content s /\ childViews s' = childViews s /\ selection s' = selection s /\ allowSelection s' = allowSelection s.

Lemma shown_same s s' : same_selection s s' -> shown s -> shown s'.
Proof. intros (E1 & E2 & E3 & _) (items & H). exists items. by rewrite E1, E2, E3. Qed.

Lemma selectIndex_shown i s : shown s -> shown (fst (selectIndex i s)).
Proof. intros H. unfold selectIndex. repeat case_match; cbn; try done. by apply set_selection_shown. Qed.

Lemma change_loop_shown n d i len s : shown s -> shown (fst (change_loop n d i len s)).
Proof.
  revert i s. induction n as [|n IH]; intros i s H; cbn [change_loop]; [done|]. case_match; [|done].
  destruct (selectIndex (Z.to_nat i) s) as [s' b] eqn:E. assert (shown s') by (replace s' with (fst (selectIndex (Z.to_nat i) s)) by (by rewrite E); by apply selectIndex_shown).
  destruct b; [done|]. by apply IH.
Qed.

Lemma goto_known n (s : listview) : n = "idle" \/ n = "mouseButtonPressed" \/ n = "reordering" -> is_Some (flameState s) ->
  exists s', gotoFlameState n s = Ok s' /\ same_selection s s' /\ flameState s' = Some n /\ allowReordering s' = allowReordering s.
Proof.
  intros Hn [c Hc]. assert (exists h, lookup_state n = PState h /\
    (forall f o, enterState h = Some f -> same_selection o (f o) /\ flameState (f o) = flameState o /\ allowReordering (f o) = allowReordering o)) as (h & Eh & Hh).
  { destruct Hn as [->|[->| ->]]; eexists; (split; [reflexivity|]); cbn; intros f o E; simplify_eq; by repeat split. }
  unfold gotoFlameState. rewrite Eh. cbn. rewrite Hc. destruct (bool_decide_reflect (c = n)) as [->|]; [by exists s; rewrite Hc|].
  eexists. split; [done|]. set (o1 := run_hook (exitState (hooks_of c)) s).
  assert (same_selection s o1 /\ allowReordering o1 = allowReordering s) as [H1 H2].
  { unfold o1, hooks_of. cbn. repeat case_match; simplify_eq; by repeat split. }
  clearbody o1. destruct H1 as (B1 & B2 & B3 & B4). unfold run_hook. destruct (enterState h) as [f|] eqn:Ef.
  - destruct (Hh f (put_state n o1) eq_refl) as ((A1 & A2 & A3 & A4) & A5 & A6). cbn in A1, A2, A3, A4, A5, A6.
    repeat split; cbn; congruence.
  - repeat split; cbn; congruence.
Qed.

(** The transitions that the methods make. *)
Lemma goto_idle s : flameState s = Some "mouseButtonPressed" -> gotoFlameState "idle" s = Ok (set_helper None (put_state "idle" s)).
Proof. intros E. unfold gotoFlameState. cbn. by rewrite E. Qed.

Lemma goto_pressed s : flameState s = Some "idle" -> gotoFlameState "mouseButtonPressed" s = Ok (put_state "mouseButtonPressed" s).
Proof. intros E. unfold gotoFlameState. cbn. by rewrite E. Qed.

Lemma goto_reordering s : flameState s = Some "idle" ->
  gotoFlameState "reordering" s = Ok (set_dragging true (add_call (InitReorder (dragHelper s)) (put_state "reordering" s))).
Proof. intros E. unfold gotoFlameState. cbn. by rewrite E. Qed.

Lemma finish_reordering s : flameState s = Some "reordering" ->
  gotoFlameState "idle" s =
    Ok (set_helper None (put_state "idle" (set_dragging false (set_helper None (add_call (FinishReorder (dragHelper s)) s))))).
Proof. intros E. unfold gotoFlameState. cbn. by rewrite E. Qed.

Section Correct.
Context (allowReorderingItem : nat -> bool) (itemTop : nat -> Z).
Notation invoke := (invoke allowReorderingItem itemTop).
Notation invoke_all := (invoke_all allowReorderingItem itemTop).

(** ** Dragging *)

(** What may be dragged, and what happens to the drag helpers over time: a drag begins on
    the helper of an item, updates it, and ends it. *)
Definition draggable (d : drag_data) : Prop := exists i, itemPath d = [i] /\ allowReorderingItem i = true.

Inductive history : option drag_data -> list helper_call -> Prop :=
| history_none : history None []
| history_init d l : draggable d -> history None l -> history (Some d) (l ++ [InitReorder (Some d)])
| history_update d l x y : history (Some d) l -> history (Some d) (l ++ [ScheduleUpdate x y])
| history_finish d l : history (Some d) l -> history None (l ++ [FinishReorder (Some d)]).

(** Each state with the drag helper it has. *)
Definition state_ok (s : listview) : Prop :=
  match flameState s with
  | Some "idle" => isDragging s = false /\ dragHelper s = None /\ history None (calls s)
  | Some "mouseButtonPressed" => isDragging s = false /\ (forall d, dragHelper s = Some d -> draggable d) /\ history None (calls s)
  | Some "reordering" => isDragging s = true /\ exists d, dragHelper s = Some d /\ history (Some d) (calls s)
  | _ => False
  end.

(** A call for an item that exists. *)
Definition call_ok (s : listview) (c : call) : Prop :=
  match c with MouseDownOnItem (Some i) _ _ => i < length (childViews s) | _ => True end.

Lemma selectIndex_frame i s : let s' := fst (selectIndex i s) in
  content s' = content s /\ length (childViews s') = length (childViews s) /\ allowSelection s' = allowSelection s /\ allowReordering s' = allowReordering s /\
  flameState s' = flameState s /\ dragHelper s' = dragHelper s /\ isDragging s' = isDragging s /\ calls s' = calls s.
Proof.
  cbv zeta. unfold selectIndex, set_selection, _setIsSelectedStatus.
  repeat case_match; cbn; rewrite ?length_alter; try by split_and!.
Qed.

(** What a call leaves as it is, and what it keeps true. *)
Definition kept (s s' : listview) : Prop :=
  content s' = content s /\ length (childViews s') = length (childViews s) /\ (shown s -> shown s').

Lemma kept_same s s' : same_selection s s' -> kept s s'.
Proof. intros H. assert (H' := H). destruct H' as (E1 & E2 & _). split_and!; [done|by rewrite E2|by apply shown_same]. Qed.

Lemma kept_trans s s' s'' : kept s s' -> kept s' s'' -> kept s s''.
Proof. intros (A1 & A2 & A3) (B1 & B2 & B3). split_and!; [congruence..|auto]. Qed.

Lemma selectIndex_kept i s : kept s (fst (selectIndex i s)).
Proof. destruct (selectIndex_frame i s) as (E1 & E2 & _). split_and!; [done..|apply selectIndex_shown]. Qed.

Lemma selectIndex_state i s : state_ok s -> state_ok (fst (selectIndex i s)).
Proof. destruct (selectIndex_frame i s) as (_ & _ & _ & _ & E1 & E2 & E3 & E4). unfold state_ok. by rewrite E1, E2, E3, E4. Qed.

Lemma change_loop_kept n d i len s : kept s (fst (change_loop n d i len s)) /\ (state_ok s -> state_ok (fst (change_loop n d i len s))).
Proof.
  revert i s. induction n as [|n IH]; intros i s; cbn [change_loop]; [by split; [apply kept_same|]|]. case_match; [|by split; [apply kept_same|]].
  assert (H1 := selectIndex_kept (Z.to_nat i) s). assert (H2 := selectIndex_state (Z.to_nat i) s).
  destruct (selectIndex (Z.to_nat i) s) as [s' b]. cbn [fst] in *. destruct b; [done|].
  destruct (IH (i + d)%Z s'). split; [by eapply kept_trans|auto].
Qed.

Ltac same := by repeat split.

Lemma changeSelection_ok d s : content s <> None -> state_ok s ->
  exists r, changeSelection d s = Ok r /\ state_ok r.1 /\ kept s r.1.
Proof.
  intros Hc Hs. unfold changeSelection. destruct (content s) as [items|]; [|done]. eexists. split; [done|].
  by destruct (change_loop_kept (S (length items)) d (current_index items (selection s) + d) (length items) s); auto.
Qed.

Lemma mouseDown_ok i x y s : content s <> None -> state_ok s -> flameState s = Some "idle" -> call_ok s (MouseDownOnItem i x y) ->
  exists s' b, mouseDownOnItem allowReorderingItem itemTop i x y s = Ok (s', b) /\ state_ok s' /\ kept s s'.
Proof.
  intros Hc Hs Ef Hi. unfold mouseDownOnItem, goto.
  set (s1 := match i with Some i => fst (selectIndex i s) | None => s end).
  assert (kept s s1 /\ state_ok s1 /\ flameState s1 = Some "idle") as (Hk & Hs1 & Ef1).
  { unfold s1. destruct i as [i|]; [|by split; [apply kept_same; same|]].
    split; [apply selectIndex_kept|]. split; [by apply selectIndex_state|]. by destruct (selectIndex_frame i s) as (_ & _ & _ & _ & -> & _). }
  clearbody s1. assert (Hs1' := Hs1). unfold state_ok in Hs1'. rewrite Ef1 in Hs1'. destruct Hs1' as (Hd & Hh & Hy).
  set (m := match i with Some _ => _ | None => _ end).
  assert (exists s2, m = Ok s2 /\ flameState s2 = Some "idle" /\ same_selection s1 s2 /\ isDragging s2 = false /\ calls s2 = calls s1 /\
    forall d, dragHelper s2 = Some d -> draggable d) as (s2 & -> & Ef2 & Hk2 & Hd2 & Hc2 & Hh2).
  { unfold m. destruct i as [i|]; [|exists s1; repeat split; try done; by rewrite Hh].
    destruct (allowReordering s1 && allowReorderingItem i) eqn:E; [|exists s1; repeat split; try done; by rewrite Hh].
    apply andb_true_iff in E as [_ E]. destruct Hk as (_ & Hlen & _). cbn in Hi. rewrite <- Hlen in Hi.
    destruct (lookup_lt_is_Some_2 _ _ Hi) as [c ->]. cbn. eexists. split; [done|]. repeat split; try done.
    cbn. intros d [= <-]. by exists i. }
  cbn [outcome_bind]. rewrite goto_pressed by done. cbn [outcome_bind]. eexists _, _. split; [done|]. split.
  - unfold state_ok. cbn. rewrite Hc2. by split_and!.
  - eapply kept_trans; [done|]. eapply kept_trans; [by apply kept_same|]. apply kept_same. same.
Qed.

Lemma pressed_move_ok x y s : state_ok s -> flameState s = Some "mouseButtonPressed" ->
  exists s' b, pressed_move x y s = Ok (s', b) /\ state_ok s' /\ kept s s'.
Proof.
  intros Hs Ef. unfold pressed_move. destruct (_shouldStartDragging x y s) eqn:Es.
  - assert (Hs' := Hs). unfold state_ok in Hs'. rewrite Ef in Hs'. destruct Hs' as (Hd & Hh & Hy).
    unfold _shouldStartDragging in Es. destruct (dragHelper s) as [d|] eqn:Ed; [|done].
    rewrite goto_idle by done. cbn [outcome_bind]. unfold startReordering. rewrite goto_reordering by done. cbn.
    eexists _, _. split; [done|]. split; [|apply kept_same; same].
    unfold state_ok. cbn. split; [done|]. exists d. split; [done|]. apply history_update, history_init; auto.
  - eexists _, _. split; [done|]. split; [done|apply kept_same; same].
Qed.

Lemma state_known s : state_ok s -> flameState s = Some "idle" \/ flameState s = Some "mouseButtonPressed" \/ flameState s = Some "reordering".
Proof.
  unfold state_ok. destruct (flameState s) as [n|]; [|done]. intros H.
  destruct (decide (n = "idle")) as [->|H1]; [by left|]. destruct (decide (n = "mouseButtonPressed")) as [->|H2]; [by right; left|].
  destruct (decide (n = "reordering")) as [->|H3]; [by right; right|]. exfalso. repeat case_match; congruence.
Qed.

Lemma invoke_ok c s : content s <> None -> state_ok s -> call_ok s c ->
  exists s' b, invoke c s = Ok (s', b) /\ state_ok s' /\ kept s s'.
Proof.
  intros Hc Hs Hok. assert (Hself : exists s' b, Ok (s, @None bool) = Ok (s', b) /\ state_ok s' /\ kept s s').
  { eexists _, _. split; [done|]. split; [done|apply kept_same; same]. }
  unfold ListView.invoke. destruct (state_known s Hs) as [Ef|[Ef|Ef]]; rewrite Ef.
  - destruct c; cbn [idle_call]; try exact Hself; [..|by apply mouseDown_ok].
    + destruct (changeSelection_ok (-1) s Hc Hs) as (r & -> & ? & ?). by eexists _, _.
    + destruct (changeSelection_ok 1 s Hc Hs) as (r & -> & ? & ?). by eexists _, _.
  - assert (Hidle : exists s' b, goto "idle" s = Ok (s', b) /\ state_ok s' /\ kept s s').
    { unfold goto. rewrite goto_idle by done. eexists _, _. split; [done|]. split; [|apply kept_same; same].
      unfold state_ok in *. rewrite Ef in Hs. cbn. naive_solver. }
    destruct c; cbn [pressed_call]; try exact Hself; try exact Hidle; by apply pressed_move_ok.
  - assert (Hs' := Hs). unfold state_ok in Hs'. rewrite Ef in Hs'. destruct Hs' as (Hd & d & Hh & Hy).
    assert (Hidle : exists s' b, goto "idle" s = Ok (s', b) /\ state_ok s' /\ kept s s').
    { unfold goto. rewrite finish_reordering by done. eexists _, _. split; [done|]. split; [|apply kept_same; same].
      unfold state_ok. cbn. rewrite Hh. split_and!; [done..|]. by apply history_finish. }
    destruct c; cbn [reordering_call]; try exact Hself; try exact Hidle;
      (eexists _, _; split; [done|]; split; [|apply kept_same; same]; unfold state_ok; cbn; rewrite Ef; split; [done|];
       exists d; split; [done|by apply history_update]).
Qed.

Lemma create_shown mk items sel a r : NoDup items -> (forall x, isSelected (mk x) = false) -> shown (create mk items sel a r).
Proof.
  intros Hnd Hmk. unfold create. set (s := ListView _ _ _ _ _ _ _ _ _). destruct (status_other sel true s) as (E1 & E2 & E3).
  exists items. rewrite E1, E2, E3. cbn. rewrite length_imap. split_and!; [done..|].
  intros i c Hi. destruct (status_lookup sel true s items i c eq_refl Hnd Hi) as (c0 & Hc0 & [[Hx E]|[Hx E]]); rewrite E; [done|].
  cbn in Hc0. rewrite list_lookup_imap in Hc0. apply fmap_Some in Hc0 as (x & _ & ->). cbn. rewrite Hmk. naive_solver.
Qed.

Lemma create_state mk items sel a r : state_ok (create mk items sel a r).
Proof.
  unfold create. assert (forall o b s, state_ok s -> state_ok (_setIsSelectedStatus o b s)) as H.
  { intros o b s Hs. unfold _setIsSelectedStatus. repeat case_match; done. }
  apply H. unfold state_ok. cbn. split_and!; [done..|constructor].
Qed.

Lemma invoke_all_ok cs s : content s <> None -> state_ok s -> Forall (call_ok s) cs ->
  exists s', invoke_all cs s = Ok s' /\ state_ok s' /\ kept s s'.
Proof.
  revert s. induction cs as [|c cs IH]; intros s Hc Hs Hok; cbn [ListView.invoke_all].
  { exists s. split; [done|]. split; [done|apply kept_same; same]. }
  apply Forall_cons in Hok as [Hc1 Hok]. destruct (invoke_ok c s Hc Hs Hc1) as (s1 & b & -> & Hs1 & Hk). cbn [outcome_bind fst].
  assert (Hk' := Hk). destruct Hk' as (E1 & E2 & _). destruct (IH s1) as (s2 & E & Hs2 & Hk2); [by rewrite E1|done| |].
  - eapply Forall_impl; [exact Hok|]. intros [| |[i|] x y| | | | | ]; unfold call_ok; rewrite ?E2; done.
  - exists s2. split; [done|]. split; [done|by eapply kept_trans].
Qed.


(** A press on an item turns into a drag exactly when the mouse has moved more than
    four pixels from where it was pressed, in either direction; the drag then starts on
    the helper stored at the press, and the event that started it is handled as well. *)
Theorem drag_threshold s d x y :
  flameState s = Some "mouseButtonPressed" -> dragHelper s = Some d ->
  exists s', invoke (MouseMove x y) s = Ok (s', Some true) /\
    if ((Z.abs (x - lastPageX d) <=? 4) && (Z.abs (y - lastPageY d) <=? 4))%Z then s' = s
    else flameState s' = Some "reordering" /\ isDragging s' = true /\ dragHelper s' = Some d /\
         calls s' = calls s ++ [InitReorder (Some d); ScheduleUpdate x y] /\ selection s' = selection s.
Proof.
  intros Ef Ed. unfold ListView.invoke. rewrite Ef. cbn [pressed_call]. unfold pressed_move, _shouldStartDragging, _minimumDeltaToStartDrag. rewrite Ed.
  replace (Z.abs (lastPageX d - x)) with (Z.abs (x - lastPageX d)) by lia.
  replace (Z.abs (lastPageY d - y)) with (Z.abs (y - lastPageY d)) by lia.
  destruct (Z.leb_spec (Z.abs (x - lastPageX d)) 4), (Z.leb_spec (Z.abs (y - lastPageY d)) 4); cbn [andb].
  1: rewrite !(proj2 (Z.ltb_ge _ _)) by lia; by eexists.
  all: match goal with |- context [if ?b then _ else _] => replace b with true by (symmetry; apply orb_true_iff; rewrite !Z.ltb_lt; lia) end.
  all: rewrite goto_idle by done; cbn [outcome_bind]; unfold startReordering; rewrite goto_reordering by done; cbn;
    eexists; (split; [done|]); cbn; rewrite <- app_assoc; by split_and!.
Qed.
End Correct.

(** ** The arrow keys *)

Definition selectable (s : listview) (i : nat) : bool :=
  allowSelection s && bool_decide (is_Some (content s)) &&
  match childViews s !! i with Some c => isVisible c && allowSelectionOf c | None => false end.

Lemma selectIndex_spec i s items : content s = Some items ->
  selectIndex i s = if selectable s i then (set_selection (items !! i) s, true) else (s, false).
Proof.
  intros Hc. unfold selectIndex, selectable. rewrite Hc. destruct (allowSelection s); cbn [negb andb]; [|done].
  rewrite bool_decide_eq_true_2 by (by eexists). cbn [andb]. by destruct (childViews s !! i).
Qed.

(** How far an index is from [i] in a direction. *)
Definition ahead (d i : Z) (k : nat) : Z := (d * (Z.of_nat k - i))%Z.

Lemma change_loop_spec n d i items s : content s = Some items -> length (childViews s) = length items -> (d = 1 \/ d = -1)%Z ->
  (if (d =? 1)%Z then Z.of_nat (length items) - i <= Z.of_nat n /\ 0 <= i else i + 1 <= Z.of_nat n /\ i < Z.of_nat (length items))%Z ->
  let (s', b) := change_loop n d i (length items) s in
  if b then exists j, j < length items /\ (0 <= ahead d i j)%Z /\ selectable s j = true /\
       (forall k, selectable s k = true -> 0 <= ahead d i k -> ahead d i j <= ahead d i k)%Z /\ s' = set_selection (items !! j) s
  else s' = s /\ forall k, (0 <= ahead d i k)%Z -> selectable s k = false.
Proof.
  intros Hc Hlen Hd. assert (Hin : forall k, length items <= k -> selectable s k = false).
  { intros k Hk. unfold selectable. rewrite (lookup_ge_None_2 (childViews s) k) by lia. by rewrite andb_false_r. }
  unfold ahead. revert i. induction n as [|n IH]; intros i Hi; cbn [change_loop].
  - split; [done|]. intros k Hk. apply Hin. destruct Hd as [->| ->]; cbn in Hi; lia.
  - destruct ((0 <=? i) && (i <? Z.of_nat (length items)))%Z eqn:Er.
    + apply andb_true_iff in Er as [H0%Z.leb_le H1%Z.ltb_lt]. rewrite (selectIndex_spec _ _ items) by done.
      destruct (selectable s (Z.to_nat i)) eqn:Es.
      * exists (Z.to_nat i). split_and!; [lia| |done| |done]; rewrite Z2Nat.id, Z.sub_diag, Z.mul_0_r by done; [done|]. by intros k _ Hk.
      * assert (Hi' : (if (d =? 1)%Z then Z.of_nat (length items) - (i + d) <= Z.of_nat n /\ 0 <= i + d
          else i + d + 1 <= Z.of_nat n /\ i + d < Z.of_nat (length items))%Z) by (destruct Hd as [->| ->]; cbn in Hi |- *; lia).
        specialize (IH (i + d)%Z Hi'). destruct (change_loop n d (i + d) (length items) s) as [s' b].
        assert (Hk0 : forall k, (0 <= d * (Z.of_nat k - i))%Z -> k <> Z.to_nat i -> (0 <= d * (Z.of_nat k - (i + d)))%Z).
        { intros k Hk Hne. destruct Hd as [->| ->]; lia. }
        destruct b.
        -- destruct IH as (j & Hj & Ha & Hsj & Hmin & ->). exists j. split_and!; [done|destruct Hd as [->| ->]; lia|done| |done].
           intros k Hsk Hk. assert (k <> Z.to_nat i) as Hne by congruence. specialize (Hmin k Hsk (Hk0 k Hk Hne)).
           destruct Hd as [->| ->]; lia.
        -- destruct IH as [-> Hall]. split; [done|]. intros k Hk. destruct (decide (k = Z.to_nat i)) as [->|Hne]; [done|]. by apply Hall, Hk0.
    + split; [done|]. intros k Hk. apply Hin. apply andb_false_iff in Er.
      destruct Hd as [->| ->]; cbn in Hi; destruct Er as [H%Z.leb_gt|H%Z.ltb_ge]; lia.
Qed.

Lemma current_index_bounds items sel : (-1 <= current_index items sel < Z.of_nat (length items))%Z.
Proof.
  unfold current_index. destruct sel as [x|]; cbn; [|lia].
  destruct (indexOf x items) as [i|] eqn:E; [apply indexOf_Some, lookup_lt_Some in E|]; lia.
Qed.

(** The arrow keys select the nearest item in their direction that can be selected,
    jumping over those that cannot; where there is none the selection stays, and the call
    says so. *)
Theorem changeSelection_nearest d s items :
  content s = Some items -> length (childViews s) = length items -> (d = 1 \/ d = -1)%Z ->
  let from := current_index items (selection s) in
  exists s' b, changeSelection d s = Ok (s', b) /\
    if b then exists j x, items !! j = Some x /\ (0 < ahead d from j)%Z /\ selectable s j = true /\ selection s' = Some x /\
      (forall k, selectable s k = true -> 0 < ahead d from k -> ahead d from j <= ahead d from k)%Z
    else s' = s /\ forall k, (0 < ahead d from k)%Z -> selectable s k = false.
Proof.
  intros Hc Hlen Hd from. unfold changeSelection. rewrite Hc. fold from.
  assert (Hb := current_index_bounds items (selection s)). fold from in Hb.
  assert (H := change_loop_spec (S (length items)) d (from + d)%Z items s Hc Hlen Hd).
  assert (Hf : forall k, (0 < ahead d from k <-> 0 <= ahead d (from + d) k)%Z) by (intros k; unfold ahead; destruct Hd as [->| ->]; lia).
  destruct (change_loop _ _ _ _ _) as [s' b]. exists s', b. split; [done|].
  assert (Hlow : (if (d =? 1)%Z then Z.of_nat (length items) - (from + d) <= Z.of_nat (S (length items)) /\ 0 <= from + d
    else from + d + 1 <= Z.of_nat (S (length items)) /\ from + d < Z.of_nat (length items))%Z).
  { clearbody from. destruct Hd as [->| ->]; cbn -[Z.add Z.sub Z.of_nat]; lia. }
  specialize (H Hlow). destruct b.
  - destruct H as (j & Hj & Ha & Hs & Hmin & ->). destruct (lookup_lt_is_Some_2 _ _ Hj) as [x Hx]. exists j, x.
    rewrite Hf. split_and!; [done..| |].
    + rewrite Hx. unfold set_selection. destruct (decide _); [done|]. by rewrite (proj1 (status_other _ _ _)).
    + intros k Hk. rewrite Hf. intros Hk'. specialize (Hmin k Hk Hk'). unfold ahead in *. destruct Hd as [->| ->]; lia.
  - destruct H as [-> Hall]. split; [done|]. intros k Hk%Hf. auto.
Qed.

(** ** Changes of the content *)

(** The item views follow the content, and know their positions. *)
Lemma content_replace_indexes mk start removed added s items :
  content s = Some items -> isDragging s = false -> length (childViews s) = length items ->
  exists items', content (content_replace mk start removed added s) = Some items' /\
    items' = array_replace start removed added items /\
    length (childViews (content_replace mk start removed added s)) = length items' /\
    forall i c, childViews (content_replace mk start removed added s) !! i = Some c -> contentIndex c = i.
Proof.
  intros Hc Hd Hlen. unfold content_replace, arrayDidChange. rewrite Hc. cbn. rewrite Hd. cbn.
  eexists. split_and!; [done..| |].
  - rewrite length_imap. unfold array_replace. rewrite !length_app, !length_take, !length_drop, length_fmap. lia.
  - intros i c. rewrite list_lookup_imap. by intros (x & _ & ->)%fmap_Some.
Qed.

(** ** Examples *)

Definition four : list nat := [10; 11; 12; 13].
Definition plain_item (x : nat) : child := Child true (negb (x =? 12)%nat) false 0.
Definition a_list : listview := create plain_item [10; 11; 12; 13] (Some 11) true true.

(** The selection jumps over item 12, which cannot be selected. *)
Example arrow_down_jumps : (do! r <- changeSelection 1 a_list; Ok (selection r.1, isSelected <$> childViews r.1)) =
  Ok (Some 13, [false; false; false; true]).
Proof. by vm_compute. Qed.

(** When the selected item is taken out of the content and put back elsewhere, its new
    item view does not show as selected, although it is still the selection. *)
Example selected_item_moved :
  let s := content_replace plain_item 0 0 [11] (content_replace plain_item 1 1 [] a_list) in
  content s = Some [11; 10; 12; 13] /\ selection s = Some 11 /\ (isSelected <$> childViews s) = [false; false; false; false].
Proof. by vm_compute. Qed.

Lemma changeSelection_nearest_witness :
  exists s' b, changeSelection 1 a_list = Ok (s', b) /\
    if b then exists j x, four !! j = Some x /\ (0 < ahead 1 (current_index four (selection a_list)) j)%Z /\
      selectable a_list j = true /\ selection s' = Some x /\
      (forall k, selectable a_list k = true -> 0 < ahead 1 (current_index four (selection a_list)) k ->
        ahead 1 (current_index four (selection a_list)) j <= ahead 1 (current_index four (selection a_list)) k)%Z
    else s' = a_list /\ forall k, (0 < ahead 1 (current_index four (selection a_list)) k)%Z -> selectable a_list k = false.
Proof. apply (changeSelection_nearest 1 a_list four); [reflexivity|reflexivity|by left]. Defined.

Definition some_calls : list call :=
  [MouseDownOnItem (Some 3) 5 70; MouseMove 5 71; MouseMove 5 60; MouseMove 5 50; MouseUp; MoveUp; MouseDownOnItem None 0 0; TouchEnd].


Lemma drag_threshold_witness :
  let d := DragData 5 70 10 [3] in
  let s := set_helper (Some d) (put_state "mouseButtonPressed" a_list) in
  exists s', invoke (fun _ => true) (fun _ => 60%Z) (MouseMove 5 75) s = Ok (s', Some true) /\
    if ((Z.abs (5 - 5) <=? 4) && (Z.abs (75 - 70) <=? 4))%Z then s' = s
    else flameState s' = Some "reordering" /\ isDragging s' = true /\ dragHelper s' = Some d /\
         calls s' = calls s ++ [InitReorder (Some d); ScheduleUpdate 5 75] /\ selection s' = selection s.
Proof.
  cbv zeta. apply (drag_threshold (fun _ => true) (fun _ => 60%Z) (set_helper (Some (DragData 5 70 10 [3])) (put_state "mouseButtonPressed" a_list)) (DragData 5 70 10 [3]) 5 75);
    reflexivity.
Defined.
