(* ===== verification/ListDrag.v ===== *)
(** * Dragging items in lists and trees ([views/list_view_drag_helper.js], [views/tree_view.js])

    While an item is dragged, it is moved live to the place the pointer is at: the drag
    helper resolves a drop position from the elements that the dragged clone has passed
    and from the horizontal movement, and moves the item there, in the arrays of contents
    and of views directly, keeping the [contentIndex] of the views up to date itself.

    The views are objects in a store: item views and list views by number, with the
    references the code follows ([parentView], [childListView]); a list view that is
    nested belongs to an item view.  Items are identified by numbers.  Elements and their
    positions come with each mouse event.  Numbers of pixels are integers; a quantity the
    code multiplies by 0.3 or 0.7 is compared ten times as large. *)

From S2P Require Import Prelude Arrays.
From stdpp Require Import gmap.
Open Scope string_scope.
Open Scope list_scope.
Open Scope flame_scope.

(** ** The views *)

Record iview := IView {
  content : nat;
  contentIndex : nat;
  _parentView : nat;               (* the list view it is in *)
  childListView : option nat;      (* the nested list view, or [null] *)
  hasChildren : bool;
  isExpanded : bool
}.

Record lview := LView {
  items : list nat;                (* [content] *)
  childViews : list nat;
  isNested : bool;
  parentItem : option nat          (* [parentView] *)
}.

Record store := Store { views : gmap nat iview; lists : gmap nat lview }.

Definition set_index i V := IView (content V) i (_parentView V) (childListView V) (hasChildren V) (isExpanded V).
Definition set_parent L V := IView (content V) (contentIndex V) L (childListView V) (hasChildren V) (isExpanded V).
Definition set_arrays its vs l := LView its vs (isNested l) (parentItem l).
Definition upd_view v f h := Store (alter f v (views h)) (lists h).
Definition upd_list L f h := Store (views h) (alter f L (lists h)).

(** A property read on [undefined] or [null] throws. *)
Definition view_of (h : store) (o : option nat) : outcome iview := or_throw (v ← o; views h !! v) TypeError.
Definition list_of (h : store) (o : option nat) : outcome lview := or_throw (L ← o; lists h !! L) TypeError.

(** [_updateContentIndexes] of a list view. *)
Definition _updateContentIndexes (L : nat) (h : store) : store :=
  match lists h !! L with
  | None => h
  | Some l => foldl (fun h iv => upd_view iv.2 (set_index iv.1) h) h (imap pair (childViews l))
  end.

(** ** Drop positions *)

(** The position letters ['b'], ['a'] and ['i']. *)
Inductive place := Before | After | Inside.
#[export] Instance place_eq_dec : EqDecision place.
Proof. solve_decision. Defined.

Record path := Path { array : list nat; position : place }.

Section Helper.
Context (root : nat).            (* the list view of the helper *)
(** [isValidDrop(itemDragged, newParent, dropTarget)], of the delegate. *)
Context (isValidDrop : nat -> option nat -> nat -> bool).

Fixpoint getView_from (h : store) (listView : option nat) (arr : list nat) : outcome (option nat) :=
  match arr with
  | [] => Ok None
  | index :: rest =>
      do! l <- list_of h listView;
      let view := childViews l !! index in
      match rest with
      | [] => Ok view
      | _ => do! V <- view_of h view; getView_from h (childListView V) rest
      end
  end.

Definition getView (h : store) (p : path) : outcome (option nat) := getView_from h (Some root) (array p).

Definition getNestedListView (h : store) (p : path) : outcome (option nat) :=
  do! v <- getView h p; do! V <- view_of h v; Ok (childListView V).

Definition path_up (p : path) : path := Path (removelast (array p)) After.

Definition path_down (h : store) (p : path) : outcome path :=
  do! n <- getNestedListView h p;
  do! l <- list_of h n;
  let count := length (items l) in
  Ok (if (0 <? count)%nat then Path (array p ++ [(count - 1)%nat]) After else Path (array p) Inside).

(** [equals] ignores the position letter. *)
Definition path_equals (p q : path) : bool := bool_decide (array p = array q).

(** The loop goes up to the root; it has as many rounds as there are levels. *)
Fixpoint resolve_loop (fuel : nat) (h : store) (v : nat) (pathArray : list nat) : outcome (list nat) :=
  match fuel with
  | O => Throw "not enough fuel"
  | S n =>
      do! V <- view_of h (Some v);
      do! l <- list_of h (Some (_parentView V));
      let arr := contentIndex V :: pathArray in
      if isNested l then match parentItem l with Some u => resolve_loop n h u arr | None => Ok arr end
      else Ok arr
  end.

Definition _resolvePath (h : store) (v : nat) : outcome path :=
  do! arr <- resolve_loop (size (views h)) h v []; Ok (Path arr Inside).

(** ** Moving an item *)

(** [insertAt] of an array, which checks its index. *)
Definition insertAt {A} (i : nat) (x : A) (l : list A) : outcome (list A) :=
  if (length l <? i)%nat then Throw "Index out of range" else Ok (array_insertAt i x l).

(** The view and its item leave the list view, and enter one. *)
Definition detach (v c L : nat) (h : store) : store :=
  upd_list L (fun l => set_arrays (array_removeObject c (items l)) (array_removeObject v (childViews l)) l) h.

Definition attach (v c L i : nat) (h : store) : outcome store :=
  do! l <- list_of h (Some L);
  do! vs <- insertAt i v (childViews l);
  do! its <- insertAt i c (items l);
  Ok (upd_list L (set_arrays its vs) (upd_view v (set_parent L) h)).

Definition _moveItem (h : store) (sourcePath targetPath : path) : outcome store :=
  do! ov <- getView h sourcePath;
  do! view <- or_throw ov TypeError;
  do! V <- view_of h (Some view);
  do! targetView <- getView h targetPath;
  do! TV <- view_of h targetView;
  do! targetParent <- match position targetPath with
                      | Inside => do! n <- getNestedListView h targetPath; or_throw n TypeError
                      | _ => Ok (_parentView TV)
                      end;
  let h1 := detach view (content V) (_parentView V) h in
  let h2 := _updateContentIndexes (_parentView V) h1 in
  do! TV2 <- view_of h2 targetView;
  let targetIndex := match position targetPath with
                     | Before => contentIndex TV2
                     | After => contentIndex TV2 + 1
                     | Inside => 0
                     end in
  do! h3 <- attach view (content V) targetParent targetIndex h2;
  Ok (_updateContentIndexes targetParent h3).

(** ** Resolving the drop position *)

(** Whether the drop is refused; the new parent is the item the target is in. *)
Definition _pathInvalid (h : store) (draggedView : nat) (targetPath : path) : outcome bool :=
  do! V <- view_of h (Some draggedView);
  do! tv <- getView h targetPath;
  do! TV <- view_of h tv;
  do! newParent <- match position targetPath with
                   | Inside => Ok (Some (content TV))
                   | _ =>
                       do! pv <- getView h (path_up targetPath);
                       match pv with
                       | None => Ok None
                       | Some _ => do! PV <- view_of h pv; Ok (Some (content PV))
                       end
                   end;
  Ok (negb (isValidDrop (content V) newParent (content TV))).

Definition _getPrecedingView (h : store) (v : nat) : outcome (option nat) :=
  do! V <- view_of h (Some v);
  if (0 <? contentIndex V)%nat then
    do! l <- list_of h (Some (_parentView V)); Ok (childViews l !! (contentIndex V - 1)%nat)
  else Ok None.

Definition xStep : Z := 10.

(** [a || b] and [a && b] where the second operand may throw. *)
Definition or_else (a : bool) (b : outcome bool) : outcome bool := if a then Ok true else b.
Definition and_then (a : bool) (b : outcome bool) : outcome bool := if a then b else Ok false.

(** Moving left goes up one level, from the last item of a nested list. *)
Fixpoint level_up_loop (fuel : nat) (h : store) (itemPath : path) (draggedView targetView : nat) (p : path) (xDiff : Z)
    : outcome (path * nat * Z) :=
  match fuel with
  | O => Throw "not enough fuel"
  | S n =>
      do! go <- or_else (xDiff <? - xStep)%Z (_pathInvalid h draggedView p);
      do! TV <- view_of h (Some targetView);
      do! l <- list_of h (Some (_parentView TV));
      if go && (bool_decide (position p = After) || path_equals itemPath p) && (1 <? length (array p))%nat &&
         Nat.eqb (contentIndex TV + 1) (length (childViews l))
      then
        let p' := path_up p in
        do! tv <- getView h p';
        do! t <- or_throw tv TypeError;
        level_up_loop n h itemPath draggedView t p' (xDiff + xStep)%Z
      else Ok (p, targetView, xDiff)
  end.

(** Moving right goes into the preceding item, if it is open. *)
Fixpoint level_down_loop (fuel : nat) (h : store) (itemPath : path) (draggedView targetView : nat) (p : path) (xDiff : Z)
    : outcome path :=
  match fuel with
  | O => Throw "not enough fuel"
  | S n =>
      do! go <- or_else (xStep <? xDiff)%Z (_pathInvalid h draggedView p);
      if go && (negb (bool_decide (position p = Inside)) || path_equals itemPath p) then
        do! op <- _getPrecedingView h targetView;
        match op with
        | None => Ok p
        | Some precedingView =>
            do! PV <- view_of h (Some precedingView);
            if negb (bool_decide (precedingView = draggedView)) && hasChildren PV && isExpanded PV then
              do! pp <- _resolvePath h precedingView;
              do! p' <- path_down h pp;
              do! bad <- _pathInvalid h draggedView p';
              if bad then Ok p
              else
                do! tv <- getView h p';
                do! t <- or_throw tv TypeError;
                level_down_loop n h itemPath draggedView t p' (xDiff - xStep)%Z
            else Ok p
        end
      else Ok p
  end.

Definition _resolveNewLevel (h : store) (itemPath : path) (lastPageX : Z) (draggedView targetView : nat) (p : path) (pageX : Z)
    : outcome path :=
  do! r <- level_up_loop (S (length (array p))) h itemPath draggedView targetView p (pageX - lastPageX)%Z;
  let '(p1, t1, x1) := r in
  level_down_loop (S (S (size (views h)))) h itemPath draggedView t1 p1 x1.

(** Whether the element of [w] is that of [v] or inside it ([closest]); the views of an
    item and of all it is nested in. *)
Fixpoint closest (fuel : nat) (h : store) (v w : nat) : bool :=
  if decide (w = v) then true
  else match fuel with
       | O => false
       | S n =>
           match W ← views h !! w; l ← lists h !! _parentView W; if isNested l then parentItem l else None with
           | Some u => closest n h v u
           | None => false
           end
       end.

(** An element among those of the items: of an item view or of the dragged clone. *)
Record element := Element {
  el_view : option nat;          (* none inside the clone *)
  el_top : Z;                    (* [offset().top] *)
  el_height : Z;                 (* [outerHeight()] *)
  el_visible : bool
}.

(** What a mouse event and the document say. *)
Record drag_event := DragEvent {
  pageX : Z;
  itemElements : list element;
  cloneTop : Z;
  cloneHeight : Z;
  draggedTop : Z
}.

(** The last element passed, of those ahead in the direction of the movement. *)
Fixpoint passed (h : store) (draggedView : nat) (direction : Z) (cTop cBottom : Z) (ahead : list element) (current : nat) : nat :=
  match ahead with
  | [] => current
  | e :: ahead' =>
      match el_view e with
      | None => current
      | Some w =>
          if el_visible e && negb (closest (size (views h)) h draggedView w) then
            let thresholdY := (10 * el_top e + el_height e * (5 + direction * 2))%Z in
            if ((0 <? direction) && (thresholdY <? 10 * cBottom) || (direction <? 0) && (10 * cTop <? thresholdY))%Z
            then passed h draggedView direction cTop cBottom ahead' w
            else current
          else passed h draggedView direction cTop cBottom ahead' current
      end
  end.

Definition _resolveNewPath (h : store) (itemPath : path) (lastPageX : Z) (ev : drag_event) : outcome (option path) :=
  do! ov <- getView h itemPath;
  do! draggedView <- or_throw ov TypeError;
  match list_find (fun e => el_view e = Some draggedView) (itemElements ev) with
  | None => Throw "Start element not found"
  | Some (startIndex, _) =>
      let currentDy := (cloneTop ev - draggedTop ev)%Z in
      let direction := if (0 <? currentDy)%Z then 1%Z else (-1)%Z in
      let ahead := if (0 <? direction)%Z then drop (S startIndex) (itemElements ev)
                   else rev (take startIndex (itemElements ev)) in
      let targetView := passed h draggedView direction (cloneTop ev) (cloneTop ev + cloneHeight ev) ahead draggedView in
      do! p <- _resolvePath h targetView;
      do! TV <- view_of h (Some targetView);
      do! canDropInside <- and_then ((0 <? direction)%Z && hasChildren TV && isExpanded TV)
                             (do! bad <- _pathInvalid h draggedView p; Ok (negb bad));
      let p1 := if canDropInside then p
                else Path (array p) (if (0 <? direction)%Z then After else Before) in
      do! p2 <- _resolveNewLevel h itemPath lastPageX draggedView targetView p1 (pageX ev);
      do! bad <- _pathInvalid h draggedView p2;
      Ok (if bad then None else Some p2)
  end.

(** ** The helper *)

Record helper := Helper { itemPath : path; lastPageX : Z; mouseMoveCounter : nat }.

(** The part of [updateDisplay] that moves the item. *)
Definition drag_move (ev : drag_event) (d : helper) (h : store) : outcome (helper * store) :=
  do! np <- _resolveNewPath h (itemPath d) (lastPageX d) ev;
  match np with
  | Some newPath =>
      if path_equals (itemPath d) newPath then Ok (d, h)
      else
        do! ov <- getView h (itemPath d);
        do! view <- or_throw ov TypeError;
        do! h' <- _moveItem h (itemPath d) newPath;
        do! p <- _resolvePath h' view;
        Ok (Helper p (pageX ev) (mouseMoveCounter d), h')
  | None => Ok (d, h)
  end.

(** [updateDisplay]: a scheduled event carries the counter of its scheduling. *)
Definition updateDisplay (ev : drag_event) (scheduled : option nat) (d : helper) (h : store) : outcome (helper * store) :=
  match scheduled with
  | None => drag_move ev (Helper (itemPath d) (lastPageX d) (S (mouseMoveCounter d))) h
  | Some n => if (n <=? mouseMoveCounter d)%nat then Ok (d, h) else drag_move ev d h
  end.

(** [startReordering] of the tree views: the path to the item, accumulated on the way up
    to the root, where the helper starts. *)
Fixpoint startReordering (fuel : nat) (h : store) (L : nat) (arr : list nat) : outcome (nat * list nat) :=
  match fuel with
  | O => Throw "not enough fuel"
  | S n =>
      do! l <- list_of h (Some L);
      match (if isNested l then parentItem l else None) with
      | Some u => do! U <- view_of h (Some u); startReordering n h (_parentView U) (contentIndex U :: arr)
      | None => Ok (L, arr)
      end
  end.

Fixpoint drag_all (evs : list (drag_event * option nat)) (d : helper) (h : store) : outcome (helper * store) :=
  match evs with
  | [] => Ok (d, h)
  | (ev, sch) :: evs' => do! r <- updateDisplay ev sch d h; drag_all evs' r.1 r.2
  end.
End Helper.

(** [_updateDraggingCloneAndScrollPosition]: where the clone is put, and by how many fifths
    of a pixel the list is scrolled up and down. *)
Definition clone_top (pageY yOffset parentTop scrollTop height scrollHeight : Z) : Z :=
  let newTop := (pageY - yOffset - parentTop + scrollTop)%Z in
  let newTop := if (newTop <? 0)%Z then 0%Z else newTop in
  if (scrollHeight <? newTop + height)%Z then (scrollHeight - height)%Z else newTop.

Definition scroll_amounts (overflowAuto : bool) (scrollTop newTop height parentHeight : Z) : option Z * option Z :=
  let topDiff := (scrollTop - newTop)%Z in
  let bottomDiff := ((newTop + height) - (scrollTop + parentHeight))%Z in
  (if overflowAuto && (0 <? topDiff)%Z then Some (Z.max topDiff 5) else None,
   if overflowAuto && (0 <? bottomDiff)%Z then Some (Z.max bottomDiff 5) else None).

(** ** What holds of the views *)

Lemma view_of_Some h v V : views h !! v = Some V -> view_of h (Some v) = Ok V.
Proof. intros H. unfold view_of. cbn. by rewrite H. Qed.

Lemma list_of_Some h L l : lists h !! L = Some l -> list_of h (Some L) = Ok l.
Proof. intros H. unfold list_of. cbn. by rewrite H. Qed.

Section Tree.
Context (root : nat).

(** Moving up from an item view: to the item its list is nested in. *)
Definition owner (h : store) (v u : nat) : Prop :=
  exists V l, views h !! v = Some V /\ lists h !! _parentView V = Some l /\ isNested l = true /\ parentItem l = Some u.
Definition top_level (h : store) (v : nat) : Prop :=
  exists V l, views h !! v = Some V /\ lists h !! _parentView V = Some l /\ isNested l = false.

(** The views that lead to the root, and those below a view. *)
Inductive grounded (h : store) : nat -> Prop :=
| ground_top v : top_level h v -> grounded h v
| ground_up v u : owner h v u -> grounded h u -> grounded h v.
Inductive inside (h : store) (v : nat) : nat -> Prop :=
| inside_here : inside h v v
| inside_up w u : owner h w u -> inside h v u -> inside h v w.

(** The links between views agree, in both directions; one view, if any, may have been
    taken out of its list. *)
Record linked_but (x : option nat) (h : store) : Prop := {
  ln_child : forall L l, lists h !! L = Some l ->
    Forall2 (fun v c => exists V, views h !! v = Some V /\ _parentView V = L /\ content V = c) (childViews l) (items l);
  ln_nodup : forall L l, lists h !! L = Some l -> NoDup (childViews l);
  ln_view : forall v V, Some v <> x -> views h !! v = Some V -> exists l, lists h !! _parentView V = Some l /\ v ∈ childViews l;
  ln_loose : forall v L l, x = Some v -> lists h !! L = Some l -> v ∉ childViews l;
  ln_nested : forall v V L, views h !! v = Some V -> childListView V = Some L ->
    exists l, lists h !! L = Some l /\ isNested l = true /\ parentItem l = Some v;
  ln_owned : forall L l, lists h !! L = Some l ->
    if isNested l then exists v V, parentItem l = Some v /\ views h !! v = Some V /\ childListView V = Some L
    else L = root;
  ln_items : forall v w V W, views h !! v = Some V -> views h !! w = Some W -> content V = content W -> v = w;
  ln_open : forall v V, views h !! v = Some V -> hasChildren V = true -> isExpanded V = true -> is_Some (childListView V);
  ln_tree : forall v V, views h !! v = Some V -> grounded h v
}.
Definition linked (h : store) : Prop := linked_but None h.

(** The indexes of a list view's items are up to date. *)
Definition indexed (h : store) (L : nat) : Prop :=
  forall l i v V, lists h !! L = Some l -> childViews l !! i = Some v -> views h !! v = Some V -> contentIndex V = i.

Definition wf (h : store) : Prop := linked h /\ forall L, indexed h L.

Lemma owner_fun h v u u' : owner h v u -> owner h v u' -> u = u'.
Proof. intros (V & l & ? & ? & ? & ?) (V' & l' & ? & ? & ? & ?). by simplify_eq. Qed.

Lemma owner_not_top h v u : owner h v u -> ~ top_level h v.
Proof. intros (V & l & ? & ? & ? & ?) (V' & l' & ? & ? & ?). simplify_eq. congruence. Qed.

Lemma wf_position h v V : wf h -> views h !! v = Some V ->
  exists l, lists h !! _parentView V = Some l /\ childViews l !! contentIndex V = Some v /\ items l !! contentIndex V = Some (content V).
Proof.
  intros [Hl Hi] HV. destruct (ln_view _ _ Hl v V ltac:(done) HV) as (l & Hll & [i Hvi]%list_elem_of_lookup).
  assert (contentIndex V = i) as -> by (by eapply Hi).
  destruct (Forall2_lookup_l _ _ _ i v (ln_child _ _ Hl _ l Hll) Hvi) as (c & Hc & V' & HV' & _ & <-). simplify_eq. eauto.
Qed.

Lemma linked_owner_view h v u : linked h -> owner h v u -> exists U L l, views h !! u = Some U /\ childListView U = Some L /\
  lists h !! L = Some l /\ isNested l = true /\ v ∈ childViews l.
Proof.
  intros Hl (V & l & HV & Hll & Hn & Hp). assert (Ho := ln_owned _ _ Hl _ _ Hll). rewrite Hn in Ho.
  destruct Ho as (u' & U & E & HU & HL). simplify_eq.
  destruct (ln_view _ _ Hl v V ltac:(done) HV) as (l' & Hl' & Hin). simplify_eq. by eauto 8.
Qed.

(** *** Paths *)

Inductive path_of (h : store) : nat -> list nat -> Prop :=
| path_top v V : top_level h v -> views h !! v = Some V -> path_of h v [contentIndex V]
| path_nested v u V p : owner h v u -> views h !! v = Some V -> path_of h u p -> path_of h v (p ++ [contentIndex V]).

Lemma path_of_fun h v p q : path_of h v p -> path_of h v q -> p = q.
Proof.
  intros H. revert q. induction H as [v V Ht HV|v u V p Ho HV Hp IH]; intros q Hq; inversion Hq; subst.
  - by simplify_eq.
  - exfalso. by eapply owner_not_top.
  - exfalso. by eapply owner_not_top.
  - simplify_eq. match goal with H1 : owner h v ?a, H2 : owner h v ?b |- _ => pose proof (owner_fun h v a b H1 H2); subst end.
    f_equal; by apply IH.
Qed.

Lemma path_of_nonempty h v p : path_of h v p -> p <> [].
Proof. intros []; [done|]. by destruct p0. Qed.

Lemma grounded_path h v : linked h -> grounded h v -> exists p, path_of h v p.
Proof.
  intros Hl. induction 1 as [v Ht|v u Ho Hg [p IH]].
  - destruct Ht as (V & l & HV & ?). exists [contentIndex V]. apply path_top; [by exists V, l|done].
  - assert (Ho' := Ho). destruct Ho' as (V & l & HV & _). exists (p ++ [contentIndex V]). by eapply path_nested.
Qed.

Lemma path_of_view h v p : path_of h v p -> exists V, views h !! v = Some V.
Proof. intros []; eauto. Qed.

Lemma getView_from_app h L p i rest u U :
  p <> [] -> getView_from h L p = Ok (Some u) -> views h !! u = Some U ->
  getView_from h L (p ++ i :: rest) = getView_from h (childListView U) (i :: rest).
Proof.
  revert L. induction p as [|j p IH]; [done|]. intros L _ H HU. cbn [getView_from app] in H |- *.
  destruct (list_of h L) as [l|e]; [|done]. cbn [outcome_bind] in H |- *.
  destruct p as [|k p].
  - injection H as H. cbn [app]. rewrite H. unfold view_of. cbn [mbind option_bind]. rewrite HU. done.
  - change ((k :: p) ++ i :: rest) with (k :: (p ++ i :: rest)).
    destruct (view_of h (childViews l !! j)) as [V|e]; [|done]. cbn [outcome_bind] in H |- *.
    by apply (IH (childListView V)).
Qed.

(** The path of a view leads to it. *)
Lemma getView_path h v p pos : wf h -> path_of h v p -> getView root h (Path p pos) = Ok (Some v).
Proof.
  intros Hw. unfold getView. cbn [array]. induction 1 as [v V Ht HV|v u V p Ho HV Hp IH].
  - destruct (wf_position h v V Hw HV) as (l & Hll & Hci & _).
    destruct Ht as (V' & l' & HV' & Hl' & Hn). assert (V' = V) as -> by congruence. assert (l' = l) as -> by congruence.
    assert (E := ln_owned _ _ (proj1 Hw) _ _ Hll). rewrite Hn in E.
    cbn. unfold list_of. cbn. rewrite <- E, Hll. cbn. by rewrite Hci.
  - destruct (wf_position h v V Hw HV) as (l & Hll & Hci & _).
    assert (E := Ho). destruct E as (V' & l' & HV' & Hl' & Hn & Hpi). assert (V' = V) as -> by congruence. assert (l' = l) as -> by congruence.
    assert (E := ln_owned _ _ (proj1 Hw) _ _ Hll). rewrite Hn in E. destruct E as (u' & U & ? & HU & HL). assert (u' = u) as -> by congruence.
    rewrite (getView_from_app h (Some root) p (contentIndex V) [] u U); [|by eapply path_of_nonempty|done|done].
    rewrite HL. cbn. unfold list_of. cbn. rewrite Hll. cbn. by rewrite Hci.
Qed.

(** A view has at most as many levels above it as there are views. *)
Lemma path_of_chain h v p : path_of h v p ->
  exists l, length l = length p /\ NoDup l /\
    forall w, w ∈ l -> (exists q, path_of h w q /\ length q <= length p) /\ is_Some (views h !! w).
Proof.
  induction 1 as [v V Ht HV|v u V p Ho HV Hp (l & Hlen & Hnd & IH)].
  - exists [v]. split_and!; [done|apply NoDup_singleton|]. intros w ->%list_elem_of_singleton.
    split; [|by eauto]. exists [contentIndex V]. split; [by apply path_top|done].
  - assert (path_of h v (p ++ [contentIndex V])) as Hv by (by eapply path_nested).
    exists (v :: l). split_and!.
    + rewrite length_app. cbn. lia.
    + apply NoDup_cons. split; [|done]. intros Hin. destruct (IH v Hin) as [(q & Hq & Hle) _].
      assert (q = p ++ [contentIndex V]) as -> by (by eapply path_of_fun). rewrite length_app in Hle. cbn in Hle. lia.
    + intros w [->|Hw]%elem_of_cons.
      * split; [|by eauto]. exists (p ++ [contentIndex V]). done.
      * destruct (IH w Hw) as [(q & Hq & Hle) Hs]. split; [|done]. exists q. split; [done|]. rewrite length_app. lia.
Qed.

Lemma path_of_bound h v p : path_of h v p -> length p <= size (views h).
Proof.
  intros H. destruct (path_of_chain h v p H) as (l & <- & Hnd & Hall).
  rewrite <- size_dom. rewrite <- (size_list_to_set (C := gset nat) l) by done. apply subseteq_size.
  intros w [_ Hs]%elem_of_list_to_set%Hall. by apply elem_of_dom.
Qed.

(** The loop of [_resolvePath] finds the path. *)
Lemma resolve_loop_path h v p acc n : path_of h v p -> length p <= n -> resolve_loop n h v acc = Ok (p ++ acc).
Proof.
  intros H. revert acc n. induction H as [v V Ht HV|v u V p Ho HV Hp IH]; intros acc n Hn.
  - destruct n as [|n]; [cbn in Hn; lia|]. destruct Ht as (V' & l & HV' & Hl & Hnl). assert (V' = V) as -> by congruence.
    cbn. unfold view_of, list_of. cbn. rewrite HV. cbn. rewrite Hl. cbn. by rewrite Hnl.
  - rewrite length_app in Hn. cbn in Hn. destruct n as [|n]; [lia|]. destruct Ho as (V' & l & HV' & Hl & Hnl & Hpi). assert (V' = V) as -> by congruence.
    cbn. unfold view_of, list_of. cbn. rewrite HV. cbn. rewrite Hl. cbn. rewrite Hnl, Hpi.
    rewrite IH by lia. by rewrite <- app_assoc.
Qed.

Lemma resolvePath_path h v p : path_of h v p -> _resolvePath h v = Ok (Path p Inside).
Proof.
  intros H. unfold _resolvePath. rewrite (resolve_loop_path h v p) by (done || by eapply path_of_bound).
  cbn. by rewrite app_nil_r.
Qed.

Lemma wf_path h v V : wf h -> views h !! v = Some V -> exists p, path_of h v p.
Proof. intros [Hl _] HV. apply grounded_path; [done|]. by eapply ln_tree. Qed.

(** *** Updating the indexes *)

(** Stores that differ in the indexes only. *)
Definition same_but_index (h h' : store) : Prop :=
  lists h = lists h' /\ forall v, set_index 0 <$> views h !! v = set_index 0 <$> views h' !! v.

#[export] Instance same_but_index_equiv : Equivalence same_but_index.
Proof.
  split.
  - by split.
  - intros h h' [E1 E2]. split; [done|]. intros v. by rewrite E2.
  - intros h h' h'' [E1 E2] [E3 E4]. split; [congruence|]. intros v. by rewrite E2, E4.
Qed.

Lemma same_view h h' v V : same_but_index h h' -> views h !! v = Some V ->
  exists V', views h' !! v = Some V' /\ content V' = content V /\ _parentView V' = _parentView V /\
    childListView V' = childListView V /\ hasChildren V' = hasChildren V /\ isExpanded V' = isExpanded V.
Proof.
  intros [_ E] HV. specialize (E v). rewrite HV in E. destruct (views h' !! v) as [V'|]; [|done].
  exists V'. injection E. intros. by split_and!.
Qed.

(** Stores with the same references upwards. *)
Definition same_links (h h' : store) : Prop :=
  (forall v, _parentView <$> views h !! v = _parentView <$> views h' !! v) /\
  (forall L, (fun l => (isNested l, parentItem l)) <$> lists h !! L = (fun l => (isNested l, parentItem l)) <$> lists h' !! L).

#[export] Instance same_links_equiv : Equivalence same_links.
Proof.
  split.
  - by split.
  - intros h h' [E1 E2]. by split.
  - intros h h' h'' [E1 E2] [E3 E4]. split; intros x; [by rewrite E1|by rewrite E2].
Qed.

Lemma same_index_links h h' : same_but_index h h' -> same_links h h'.
Proof.
  intros H. split; [|by destruct H as [-> _]].
  intros v. destruct H as [_ E]. specialize (E v).
  destruct (views h !! v), (views h' !! v); cbn in *; try done. injection E. by intros _ _ _ ->.
Qed.

Lemma same_links_up h h' v V l : same_links h h' -> views h !! v = Some V -> lists h !! _parentView V = Some l ->
  exists V' l', views h' !! v = Some V' /\ lists h' !! _parentView V' = Some l' /\ _parentView V' = _parentView V /\
    isNested l' = isNested l /\ parentItem l' = parentItem l.
Proof.
  intros [E1 E2] HV Hl. specialize (E1 v). rewrite HV in E1. destruct (views h' !! v) as [V'|]; [|done].
  injection E1 as E1. specialize (E2 (_parentView V)). rewrite Hl in E2.
  exists V'. rewrite <- E1. destruct (lists h' !! _parentView V) as [l'|]; [|done].
  injection E2 as E2 E3. by exists l'.
Qed.

Lemma same_owner h h' v u : same_links h h' -> owner h v u -> owner h' v u.
Proof.
  intros HS (V & l & HV & Hl & Hn & Hp). destruct (same_links_up h h' v V l HS HV Hl) as (V' & l' & ? & ? & _ & E1 & E2).
  exists V', l'. by rewrite E1, E2.
Qed.

Lemma same_grounded h h' v : same_links h h' -> grounded h v -> grounded h' v.
Proof.
  intros HS. induction 1 as [v (V & l & HV & Hl & Hn)|v u Ho Hg IH].
  - apply ground_top. destruct (same_links_up h h' v V l HS HV Hl) as (V' & l' & ? & ? & _ & E1 & E2).
    exists V', l'. by rewrite E1.
  - eapply ground_up; [by eapply same_owner|done].
Qed.

Lemma same_inside h h' v w : same_links h h' -> inside h' v w -> inside h v w.
Proof.
  intros HS. symmetry in HS. induction 1 as [|w u Ho Hi IH]; [apply inside_here|].
  eapply inside_up; [by eapply same_owner|done].
Qed.

#[export] Instance linked_but_proper : Proper (eq ==> same_but_index ==> iff) linked_but.
Proof.
  assert (forall x h h', same_but_index h h' -> linked_but x h -> linked_but x h') as Hd.
  { intros x h h' HS [C1 C2 C3 C4 C5 C6 C7 C8 C9]. assert (HS' := HS). symmetry in HS'.
    assert (HL := proj1 HS). split; rewrite <- ?HL; try done.
    - intros L l Hl. eapply Forall2_impl; [by apply C1|]. intros v c (V & HV & HpV & Hc).
      destruct (same_view _ _ _ _ HS HV) as (V' & ? & ? & ? & _). exists V'. by split_and!; [|congruence..].
    - intros v V Hx HV. destruct (same_view _ _ _ _ HS' HV) as (V' & HV' & _ & E & _). rewrite <- E. by eapply C3.
    - intros v V L HV. destruct (same_view _ _ _ _ HS' HV) as (V' & HV' & _ & _ & E & _). rewrite <- E. by eapply C5.
    - intros L l Hl. specialize (C6 L l Hl). destruct (isNested l); [|done]. destruct C6 as (v & V & ? & HV & ?).
      destruct (same_view _ _ _ _ HS HV) as (V' & HV' & _ & _ & E & _). exists v, V'. by rewrite E.
    - intros v w V W HV HW. destruct (same_view _ _ _ _ HS' HV) as (V' & HV' & E & _).
      destruct (same_view _ _ _ _ HS' HW) as (W' & HW' & F & _). rewrite <- E, <- F. by eapply C7.
    - intros v V HV. destruct (same_view _ _ _ _ HS' HV) as (V' & HV' & _ & _ & E & F & G).
      rewrite <- E, <- F, <- G. by eapply C8.
    - intros v V HV. destruct (same_view _ _ _ _ HS' HV) as (V' & HV' & _).
      eapply same_grounded; [by apply same_index_links|by eapply C9]. }
  intros x ? <- h h' HS. split; apply Hd; [done|by symmetry].
Qed.

Definition index_all (vs : list nat) (h : store) : store :=
  foldl (fun h (iv : nat * nat) => upd_view iv.2 (set_index iv.1) h) h (imap pair vs).

Lemma index_all_snoc vs v h : index_all (vs ++ [v]) h = upd_view v (set_index (length vs)) (index_all vs h).
Proof. unfold index_all. rewrite imap_app, foldl_app. cbn. by rewrite Nat.add_0_r. Qed.

Lemma index_all_other vs v h : v ∉ vs -> views (index_all vs h) !! v = views h !! v.
Proof.
  induction vs as [|w vs IH] using rev_ind; [done|]. intros Hv. rewrite index_all_snoc. cbn.
  rewrite lookup_alter_ne by set_solver. apply IH. set_solver.
Qed.

Lemma index_all_view vs i v h : NoDup vs -> vs !! i = Some v -> views (index_all vs h) !! v = set_index i <$> views h !! v.
Proof.
  induction vs as [|w vs IH] using rev_ind; [done|]. intros [Hnd [Hdis _]]%NoDup_app Hi. rewrite index_all_snoc. cbn.
  apply lookup_app_Some in Hi as [Hi|[Hle Hi]].
  - rewrite lookup_alter_ne; [by apply IH|]. intros ->. apply list_elem_of_lookup_2 in Hi. specialize (Hdis _ Hi). set_solver.
  - apply list_lookup_singleton_Some in Hi as [Hi ->].
    rewrite lookup_alter_eq, index_all_other by (intros Hin; specialize (Hdis _ Hin); set_solver).
    by replace i with (length vs) by lia.
Qed.

Lemma index_all_same vs h : same_but_index h (index_all vs h).
Proof.
  induction vs as [|w vs IH] using rev_ind; [done|]. rewrite index_all_snoc. etrans; [exact IH|].
  split; [done|]. intros v. cbn. destruct (decide (w = v)) as [->|Hne].
  - rewrite lookup_alter_eq. by destruct (views (index_all vs h) !! v).
  - by rewrite lookup_alter_ne.
Qed.

Lemma reindex_eq L l h : lists h !! L = Some l -> _updateContentIndexes L h = index_all (childViews l) h.
Proof. unfold _updateContentIndexes. by intros ->. Qed.

Lemma reindex_same L h : same_but_index h (_updateContentIndexes L h).
Proof. unfold _updateContentIndexes. destruct (lists h !! L); [apply index_all_same|done]. Qed.

(** The list whose indexes were updated, and any other one. *)
Lemma indexed_reindex x L h : linked_but x h -> indexed (_updateContentIndexes L h) L.
Proof.
  intros Hl l i v V HL Hv HV. rewrite <- (proj1 (reindex_same L h)) in HL.
  rewrite (reindex_eq L l), (index_all_view _ i) in HV by (done || by eapply ln_nodup).
  apply fmap_Some in HV as (V' & _ & ->). done.
Qed.

Lemma child_parent x h L l v V : linked_but x h -> lists h !! L = Some l -> v ∈ childViews l -> views h !! v = Some V -> _parentView V = L.
Proof.
  intros Hl HL [i Hi]%list_elem_of_lookup HV.
  destruct (Forall2_lookup_l _ _ _ i v (ln_child _ _ Hl _ _ HL) Hi) as (c & _ & V' & HV' & ? & _). congruence.
Qed.

Lemma indexed_reindex_other x L M h : linked_but x h -> M <> L -> indexed h M -> indexed (_updateContentIndexes L h) M.
Proof.
  intros Hl Hne Hi l i v V HM Hv HV. rewrite <- (proj1 (reindex_same L h)) in HM.
  destruct (lists h !! L) as [lL|] eqn:HL.
  - rewrite (reindex_eq L lL), index_all_other in HV; [by eapply Hi|..|done].
    intros Hin. destruct (Forall2_lookup_l _ _ _ i v (ln_child _ _ Hl _ _ HM) Hv) as (c & _ & W & HW & HpW & _).
    assert (E := child_parent x h L lL v W Hl HL Hin HW). congruence.
  - unfold _updateContentIndexes in HV. rewrite HL in HV. by eapply Hi.
Qed.

(** *** Taking a view out of its list *)

Lemma detach_lookup v c S h L l' :
  lists (detach v c S h) !! L = Some l' ->
  exists l, lists h !! L = Some l /\ isNested l' = isNested l /\ parentItem l' = parentItem l /\
    (if decide (S = L) then childViews l' = array_removeObject v (childViews l) /\ items l' = array_removeObject c (items l)
     else l' = l).
Proof.
  cbn. destruct (decide (S = L)) as [->|Hne].
  - rewrite lookup_alter_eq. intros (l & Hl & ->)%fmap_Some. by exists l.
  - rewrite lookup_alter_ne by done. intros Hl. by exists l'.
Qed.

Lemma detach_links v c S h : same_links h (detach v c S h).
Proof.
  split; [done|]. intros L. cbn. destruct (decide (S = L)) as [->|Hne].
  - rewrite lookup_alter_eq. by destruct (lists h !! L).
  - by rewrite lookup_alter_ne.
Qed.

Lemma detach_linked v V h : linked h -> views h !! v = Some V ->
  linked_but (Some v) (detach v (content V) (_parentView V) h).
Proof.
  intros Hl HV. set (S := _parentView V). assert (HL := Hl). destruct HL as [C1 C2 C3 C4 C5 C6 C7 C8 C9].
  split.
  - intros L l' (l & HL & _ & _ & E)%detach_lookup. destruct (decide (S = L)) as [->|Hne]; [|subst; by apply C1].
    destruct E as [-> ->]. apply filter_Forall2; [by apply C1|].
    intros w c (W & HW & _ & <-). change (views h !! w = Some W) in HW. split; [intros Hne E; apply Hne; by eapply C7|intros Hne ->; apply Hne; congruence].
  - intros L l' (l & HL & _ & _ & E)%detach_lookup. destruct (decide (S = L)) as [->|Hne]; [|subst; by eapply C2].
    destruct E as [-> _]. apply NoDup_filter. by eapply C2.
  - intros w W Hw HW. destruct (C3 w W) as (l & Hlw & Hin); [done..|].
    cbn. destruct (decide (S = _parentView W)) as [E|Hne].
    + rewrite E, lookup_alter_eq, Hlw. eexists; split; [done|]. cbn. apply list_elem_of_filter. split; [intros ->; congruence|done].
    + rewrite lookup_alter_ne by done. by exists l.
  - intros w L l' [= ->] (l & HL & _ & _ & E)%detach_lookup. destruct (decide (S = L)) as [->|Hne].
    + destruct E as [-> _]. unfold array_removeObject. rewrite list_elem_of_filter. naive_solver.
    + subst l'. intros Hin. by assert (E := child_parent None h L l w V Hl HL Hin HV).
  - intros w W L HW HWL. destruct (C5 w W L HW HWL) as (l & HL & Hn & Hp). cbn. destruct (decide (S = L)) as [->|Hne].
    + rewrite lookup_alter_eq, HL. by eexists.
    + rewrite lookup_alter_ne by done. by exists l.
  - intros L l' (l & HL & En & Ep & _)%detach_lookup. rewrite En, Ep. by apply C6.
  - exact C7.
  - exact C8.
  - intros w W HW. eapply same_grounded; [apply detach_links|]. by eapply C9.
Qed.

Lemma indexed_detach_other v c S L h : L <> S -> indexed h L -> indexed (detach v c S h) L.
Proof.
  intros Hne Hi l' i w W (l & HL & _ & _ & E)%detach_lookup Hw HW. rewrite decide_False in E by done. subst l'.
  by eapply Hi.
Qed.

(** *** Putting it into a list *)

(** A list view that is not inside the item view, and can take it. *)
Definition outside (h : store) (v T : nat) : Prop :=
  exists l, lists h !! T = Some l /\ (isNested l = false \/ exists u, parentItem l = Some u /\ ~ inside h v u).

Lemma attach_lookup v T its vs h l L l' :
  lists h !! T = Some l ->
  lists (upd_list T (set_arrays its vs) (upd_view v (set_parent T) h)) !! L = Some l' ->
  exists l0, lists h !! L = Some l0 /\ isNested l' = isNested l0 /\ parentItem l' = parentItem l0 /\
    (if decide (T = L) then l0 = l /\ childViews l' = vs /\ items l' = its else l' = l0).
Proof.
  intros HT. cbn. destruct (decide (T = L)) as [->|Hne].
  - rewrite lookup_alter_eq, HT. intros [= <-]. by exists l.
  - rewrite lookup_alter_ne by done. intros Hl. by exists l'.
Qed.

Section Attach.
Context (h : store) (v T i : nat) (V : iview) (l : lview).
Context (Hl : linked_but (Some v) h) (HV : views h !! v = Some V) (HT : lists h !! T = Some l).
Context (Hout : outside h v T) (Hi : i <= length (childViews l)).

Definition attached : store :=
  upd_list T (set_arrays (array_insertAt i (content V) (items l)) (array_insertAt i v (childViews l)))
    (upd_view v (set_parent T) h).

Lemma insertAt_ok {A} (x : A) (k : list A) : i <= length k -> insertAt i x k = Ok (array_insertAt i x k).
Proof. intros H. unfold insertAt. destruct (Nat.ltb_spec (length k) i); [lia|done]. Qed.

Lemma items_length : length (items l) = length (childViews l).
Proof. symmetry. eapply Forall2_length. by apply (ln_child _ _ Hl T). Qed.

Lemma attach_ok : attach v (content V) T i h = Ok attached.
Proof.
  unfold attach, list_of. cbn. rewrite HT. cbn. rewrite !insertAt_ok by (rewrite ?items_length; done). done.
Qed.

Lemma attached_view w W : views attached !! w = Some W ->
  exists W0, views h !! w = Some W0 /\ content W = content W0 /\ contentIndex W = contentIndex W0 /\ childListView W = childListView W0 /\
    hasChildren W = hasChildren W0 /\ isExpanded W = isExpanded W0 /\ _parentView W = if decide (w = v) then T else _parentView W0.
Proof.
  cbn. destruct (decide (w = v)) as [->|Hne].
  - rewrite lookup_alter_eq, HV. intros [= <-]. by exists V.
  - rewrite lookup_alter_ne by done. intros HW. by exists W.
Qed.

Lemma view_attached w W : views h !! w = Some W ->
  views attached !! w = Some (if decide (w = v) then set_parent T W else W).
Proof.
  cbn. intros HW. destruct (decide (w = v)) as [->|Hne]; [by rewrite lookup_alter_eq, HW|by rewrite lookup_alter_ne].
Qed.

Lemma list_attached L k : lists h !! L = Some k -> exists k', lists attached !! L = Some k' /\ isNested k' = isNested k /\ parentItem k' = parentItem k.
Proof.
  intros HL. cbn. destruct (decide (T = L)) as [<-|Hne].
  - rewrite lookup_alter_eq, HL. by eexists.
  - rewrite lookup_alter_ne by done. by exists k.
Qed.

Lemma attached_owner w u : w <> v -> owner h w u -> owner attached w u.
Proof.
  intros Hne (W & k & HW & Hk & Hn & Hp). apply view_attached in HW. rewrite decide_False in HW by done.
  destruct (list_attached _ _ Hk) as (k' & Hk' & E1 & E2). exists W, k'. by rewrite E1, E2.
Qed.

(** First the views that are not inside the moved one, then it, then all others. *)
Lemma attached_grounded_outside w : grounded h w -> ~ inside h v w -> grounded attached w.
Proof.
  induction 1 as [w (W & k & HW & Hk & Hn)|w u Ho Hg IH]; intros Hin.
  - assert (w <> v) as Hne by (intros ->; apply Hin, inside_here). apply ground_top.
    apply view_attached in HW. rewrite decide_False in HW by done.
    destruct (list_attached _ _ Hk) as (k' & Hk' & E1 & E2). exists W, k'. by rewrite E1.
  - assert (w <> v) as Hne by (intros ->; apply Hin, inside_here).
    eapply ground_up; [by apply attached_owner|]. apply IH. intros Hu. apply Hin. by eapply inside_up.
Qed.

Lemma attached_grounded_moved : grounded attached v.
Proof.
  assert (HV' := view_attached v V HV). rewrite decide_True in HV' by done.
  destruct (list_attached T l HT) as (k' & Hk' & E1 & E2).
  destruct Hout as (l0 & HT' & Hcase). assert (l0 = l) as -> by congruence.
  destruct (isNested l) eqn:En.
  - destruct Hcase as [|(u & Hu & Hin)]; [done|].
    assert (Ho := ln_owned _ _ Hl T l HT). rewrite En in Ho. destruct Ho as (u' & U & ? & HU & _).
    assert (u' = u) as -> by congruence.
    eapply ground_up; [exists (set_parent T V), k'; split_and!; [done..| |]; rewrite ?E1, ?E2; eauto|].
    apply attached_grounded_outside; [by eapply ln_tree|done].
  - apply ground_top. exists (set_parent T V), k'. split_and!; [done..|]. by rewrite E1.
Qed.

Lemma attached_grounded w : grounded h w -> grounded attached w.
Proof.
  intros Hg. destruct (decide (w = v)) as [->|Hne]; [apply attached_grounded_moved|].
  induction Hg as [w (W & k & HW & Hk & Hn)|w u Ho Hg IH].
  - apply ground_top. apply view_attached in HW. rewrite decide_False in HW by done.
    destruct (list_attached _ _ Hk) as (k' & Hk' & E1 & E2). exists W, k'. by rewrite E1.
  - eapply ground_up; [by apply attached_owner|].
    destruct (decide (u = v)) as [->|]; [apply attached_grounded_moved|by apply IH].
Qed.

Lemma insert_perm {A} (x : A) (k : list A) : Permutation (array_insertAt i x k) (x :: k).
Proof.
  unfold array_insertAt, array_replace. rewrite Nat.add_0_r. cbn.
  rewrite <- Permutation_middle. by rewrite take_drop.
Qed.

Lemma attached_linked : linked attached.
Proof.
  destruct Hl as [C1 C2 C3 C4 C5 C6 C7 C8 C9]. split.
  - intros L l' (l0 & HL & _ & _ & E)%(attach_lookup _ _ _ _ _ l); [|done].
    assert (HR : forall w c, w <> v -> (exists W, views h !! w = Some W /\ _parentView W = L /\ content W = c) ->
      exists W, views attached !! w = Some W /\ _parentView W = L /\ content W = c).
    { intros w c Hne (W & HW & ? & ?). exists W. apply view_attached in HW. by rewrite decide_False in HW. }
    assert (HF : Forall2 (fun w c => exists W, views attached !! w = Some W /\ _parentView W = L /\ content W = c) (childViews l0) (items l0)).
    { eapply Forall2_impl_l; [by apply C1|]. intros w c Hw. apply HR. intros ->. by eapply C4. }
    destruct (decide (T = L)) as [<-|Hne]; [|by subst].
    destruct E as (-> & -> & ->). unfold array_insertAt, array_replace. rewrite Nat.add_0_r. cbn.
    apply Forall2_app; [by apply Forall2_take|]. constructor; [|by apply Forall2_drop].
    exists (set_parent T V). apply view_attached in HV. by rewrite decide_True in HV.
  - intros L l' (l0 & HL & _ & _ & E)%(attach_lookup _ _ _ _ _ l); [|done].
    destruct (decide (T = L)) as [<-|Hne]; [|subst; by eapply C2].
    destruct E as (-> & -> & _). rewrite insert_perm. apply NoDup_cons. split; [by eapply C4|by eapply C2].
  - intros w W _ (W0 & HW0 & _ & _ & _ & _ & _ & E)%attached_view. rewrite E. destruct (decide (w = v)) as [->|Hne].
    + cbn. rewrite lookup_alter_eq, HT. eexists; split; [done|]. cbn. rewrite insert_perm. set_solver.
    + destruct (C3 w W0) as (l0 & HL & Hin); [congruence|done|]. cbn. destruct (decide (T = _parentView W0)) as [Ew|Hn'].
      * rewrite <- Ew in *. rewrite lookup_alter_eq, HT. eexists; split; [done|]. cbn. rewrite insert_perm. simplify_eq. set_solver.
      * rewrite lookup_alter_ne by done. by exists l0.
  - done.
  - intros w W L (W0 & HW0 & _ & _ & Ec & _)%attached_view HL. rewrite Ec in HL. destruct (C5 w W0 L HW0 HL) as (l0 & Hl0 & Hn & Hp).
    destruct (list_attached _ _ Hl0) as (k' & Hk' & E1 & E2). exists k'. by rewrite E1, E2.
  - intros L l' (l0 & HL & En & Ep & _)%(attach_lookup _ _ _ _ _ l); [|done]. specialize (C6 L l0 HL). rewrite En, Ep.
    destruct (isNested l0); [|done]. destruct C6 as (w & W & ? & HW & ?). exists w. apply view_attached in HW.
    destruct (decide (w = v)); eauto.
  - intros w x W X (W0 & HW0 & -> & _)%attached_view (X0 & HX0 & -> & _)%attached_view. by eapply C7.
  - intros w W (W0 & HW0 & _ & _ & -> & -> & -> & _)%attached_view. by eapply C8.
  - intros w W (W0 & HW0 & _)%attached_view. apply attached_grounded. by eapply C9.
Qed.

Lemma indexed_attached_other L : L <> T -> indexed h L -> indexed attached L.
Proof.
  intros Hne HI l' j w W (l0 & HL & _ & _ & E)%(attach_lookup _ _ _ _ _ l) Hw (W0 & HW0 & _ & Ei & _)%attached_view; [|done].
  rewrite decide_False in E by done. subst l'. rewrite Ei. by eapply HI.
Qed.
End Attach.
End Tree.

(** ** Moving an item *)

Lemma insertAt_lookup {A} (i : nat) (x : A) (k : list A) : i <= length k ->
  array_insertAt i x k !! i = Some x /\ (forall j, j < i -> array_insertAt i x k !! j = k !! j) /\
  (forall j, i <= j -> array_insertAt i x k !! S j = k !! j).
Proof.
  intros Hi. unfold array_insertAt, array_replace. rewrite Nat.add_0_r. cbn. split_and!.
  - rewrite lookup_app_r by (rewrite length_take; lia). rewrite length_take.
    replace (i - i `min` length k) with 0 by lia. done.
  - intros j Hj. rewrite lookup_app_l by (rewrite length_take; lia). by rewrite lookup_take_lt.
  - intros j Hj. rewrite lookup_app_r by (rewrite length_take; lia). rewrite length_take.
    replace (S j - i `min` length k) with (S (j - i)) by lia. change ((x :: drop i k) !! S (j - i)) with (drop i k !! (j - i)). rewrite lookup_drop. f_equal. lia.
Qed.

Lemma removeObject_insertAt {A} `{EqDecision A} i (x : A) k : array_removeObject x (array_insertAt i x k) = array_removeObject x k.
Proof.
  unfold array_removeObject, array_insertAt, array_replace. rewrite Nat.add_0_r. cbn.
  rewrite filter_app, filter_cons_False by naive_solver. by rewrite <- filter_app, take_drop.
Qed.

Lemma removeObject_idemp {A} `{EqDecision A} (x : A) k : array_removeObject x (array_removeObject x k) = array_removeObject x k.
Proof.
  unfold array_removeObject. induction k as [|y k IH]; [done|]. rewrite filter_cons.
  destruct (decide _); [|done]. rewrite filter_cons_True by done. by rewrite IH.
Qed.

Section Move.
Context (root : nat).

(** Where the view is after the move. *)
Definition placed (h : store) (v t : nat) (pos : place) : Prop :=
  match pos with
  | Before => exists L l k, lists h !! L = Some l /\ childViews l !! k = Some v /\ childViews l !! S k = Some t
  | After => exists L l k, lists h !! L = Some l /\ childViews l !! k = Some t /\ childViews l !! S k = Some v
  | Inside => exists T L l, views h !! t = Some T /\ childListView T = Some L /\ lists h !! L = Some l /\ childViews l !! 0 = Some v
  end.

(** Only the list a view is in and its index change, and only the moved view changes
    its place among the others. *)
Record moved (v c : nat) (h h' : store) : Prop := {
  mv_view : forall w W', views h' !! w = Some W' -> exists W, views h !! w = Some W /\ content W' = content W /\
    childListView W' = childListView W /\ hasChildren W' = hasChildren W /\ isExpanded W' = isExpanded W;
  mv_views : forall w, is_Some (views h !! w) -> is_Some (views h' !! w);
  mv_list : forall L l', lists h' !! L = Some l' -> exists l, lists h !! L = Some l /\
    isNested l' = isNested l /\ parentItem l' = parentItem l /\
    array_removeObject v (childViews l') = array_removeObject v (childViews l) /\
    array_removeObject c (items l') = array_removeObject c (items l);
  mv_lists : forall L, is_Some (lists h !! L) -> is_Some (lists h' !! L)
}.

Lemma moved_refl v c h : moved v c h h.
Proof. split; eauto 10. Qed.

Lemma moved_trans v c h h' h'' : moved v c h h' -> moved v c h' h'' -> moved v c h h''.
Proof.
  intros [A1 A2 A3 A4] [B1 B2 B3 B4]. split; auto.
  - intros w W' HW. destruct (B1 w W' HW) as (W1 & HW1 & ? & ? & ? & ?). destruct (A1 w W1 HW1) as (W & HW0 & ? & ? & ? & ?).
    exists W. by split_and!; [|congruence..].
  - intros L l' Hl. destruct (B3 L l' Hl) as (l1 & Hl1 & ? & ? & ? & ?). destruct (A3 L l1 Hl1) as (l & Hl0 & ? & ? & ? & ?).
    exists l. by split_and!; [|congruence..].
Qed.

Lemma moved_same v c h h' : same_but_index h h' -> moved v c h h'.
Proof.
  intros HS. assert (HS' := HS). symmetry in HS'. split.
  - intros w W' HW. destruct (same_view _ _ _ _ HS' HW) as (W & ? & ? & ? & ? & ? & ?). exists W. by split_and!.
  - intros w [W HW]. destruct (same_view _ _ _ _ HS HW) as (W' & ? & _). by exists W'.
  - intros L l'. rewrite <- (proj1 HS). by exists l'.
  - intros L. by rewrite (proj1 HS).
Qed.

Lemma moved_detach v c S h : moved v c h (detach v c S h).
Proof.
  split.
  - intros w W' HW. by exists W'.
  - done.
  - intros L l' (l & HL & E1 & E2 & E)%detach_lookup. exists l. split_and!; try done; destruct (decide (S = L)); try by subst.
    + destruct E as [-> _]. apply removeObject_idemp.
    + destruct E as [_ ->]. apply removeObject_idemp.
  - intros L [l HL]. cbn. destruct (decide (S = L)) as [->|]; [rewrite lookup_alter_eq, HL|rewrite lookup_alter_ne by done]; eauto.
Qed.

Lemma moved_attach h v T i V l : views h !! v = Some V -> lists h !! T = Some l -> moved v (content V) h (attached h v T i V l).
Proof.
  intros HV HT. split.
  - intros w W' HW. eapply attached_view in HW as (W & ? & ? & ? & ? & ? & ? & ?); [|done]. by exists W.
  - intros w [W HW]. rewrite (view_attached h v T i V l w W HW). by eexists.
  - intros L l' (l0 & HL & E1 & E2 & E)%(attach_lookup _ _ _ _ _ l); [|done]. exists l0.
    destruct (decide (T = L)); [|by subst]. destruct E as (-> & -> & ->). by rewrite !removeObject_insertAt.
  - intros L [k HL]. destruct (list_attached h v T i V l L k HL) as (k' & ? & _). by exists k'.
Qed.

(** The view taken out of its list, and the indexes of the others updated. *)
Lemma detached_ok h v V : wf root h -> views h !! v = Some V ->
  let h2 := _updateContentIndexes (_parentView V) (detach v (content V) (_parentView V) h) in
  linked_but root (Some v) h2 /\ (forall L, indexed h2 L) /\ same_links h h2 /\ moved v (content V) h h2.
Proof.
  intros [Hl Hi] HV. set (h1 := detach v (content V) (_parentView V) h). cbv zeta.
  assert (linked_but root (Some v) h1) as H1 by (by apply detach_linked).
  split_and!.
  - by rewrite <- (reindex_same (_parentView V) h1).
  - intros L. destruct (decide (L = _parentView V)) as [->|Hne]; [by eapply indexed_reindex|].
    eapply indexed_reindex_other; [done..|]. by apply indexed_detach_other.
  - etrans; [apply detach_links|]. apply same_index_links, reindex_same.
  - eapply moved_trans; [apply moved_detach|]. apply moved_same, reindex_same.
Qed.

(** The view put into a list, and the indexes of the list updated. *)
Lemma attached_ok h v T i V l :
  linked_but root (Some v) h -> (forall L, indexed h L) -> views h !! v = Some V -> lists h !! T = Some l -> outside h v T ->
  i <= length (childViews l) ->
  exists h', attach v (content V) T i h = Ok h' /\ wf root (_updateContentIndexes T h') /\
    moved v (content V) h (_updateContentIndexes T h') /\
    exists l', lists (_updateContentIndexes T h') !! T = Some l' /\ childViews l' = array_insertAt i v (childViews l).
Proof.
  intros Hl Hi HV HT Hout Hle. exists (attached h v T i V l).
  assert (linked root (attached h v T i V l)) as H3 by (by apply attached_linked).
  split_and!.
  - by eapply attach_ok.
  - split; [unfold linked; by rewrite <- (reindex_same T)|].
    intros L. destruct (decide (L = T)) as [->|Hne]; [by eapply indexed_reindex|].
    eapply indexed_reindex_other; [done..|]. by eapply indexed_attached_other.
  - eapply moved_trans; [by apply moved_attach|]. apply moved_same, reindex_same.
  - rewrite <- (proj1 (reindex_same T _)). cbn. rewrite lookup_alter_eq, HT. by eexists.
Qed.

(** The list view a drop position is in. *)
Definition target_list (TV : iview) (pos : place) : option nat :=
  match pos with Inside => childListView TV | _ => Some (_parentView TV) end.

Lemma target_outside h v t TV T pos : wf root h -> views h !! t = Some TV -> ~ inside h v t -> target_list TV pos = Some T -> outside h v T.
Proof.
  intros [Hl _] HTV Hin HT.
  assert (Hcase : pos <> Inside /\ T = _parentView TV \/ childListView TV = Some T) by (destruct pos; cbn in HT; naive_solver).
  destruct Hcase as [[_ ->]|Hc].
  - destruct (ln_view _ _ _ Hl t TV) as (l & HL & _); [done..|]. exists l. split; [done|].
    destruct (isNested l) eqn:En; [right|by left].
    assert (Ho := ln_owned _ _ _ Hl _ _ HL). rewrite En in Ho. destruct Ho as (u & _ & Hu & _).
    exists u. split; [done|]. intros Hiu. apply Hin. eapply inside_up; [|done]. by exists TV, l.
  - destruct (ln_nested _ _ _ Hl t TV T HTV Hc) as (l & HL & _ & Hp). exists l. split; [done|]. right. by exists t.
Qed.

Lemma outside_same h h' v T : same_links h h' -> outside h v T -> outside h' v T.
Proof.
  intros HS (l & HL & Hc). destruct HS as [E1 E2] eqn:EHS. specialize (E2 T) as E. rewrite HL in E.
  destruct (lists h' !! T) as [l'|] eqn:HL'; [|done]. injection E as En Ep. exists l'. split; [done|].
  rewrite <- En, <- Ep. destruct Hc as [|(u & Hu & Hin)]; [by left|right]. exists u. split; [done|].
  intros Hi. apply Hin. by eapply same_inside.
Qed.

Lemma moveItem_ok h v t TV p ps q pos V :
  wf root h -> path_of h v p -> path_of h t q -> views h !! v = Some V -> views h !! t = Some TV -> ~ inside h v t ->
  (pos = Inside -> is_Some (childListView TV)) ->
  exists h', _moveItem root h (Path p ps) (Path q pos) = Ok h' /\ wf root h' /\ moved v (content V) h h' /\ placed h' v t pos.
Proof.
  intros Hw Hp Hq HV HTV Hin Hch.
  destruct (detached_ok h v V Hw HV) as (Hl2 & Hi2 & HS & Hm2). cbv zeta in *.
  set (h2 := _updateContentIndexes (_parentView V) (detach v (content V) (_parentView V) h)) in *.
  destruct (mv_views _ _ _ _ Hm2 v) as [V2 HV2]; [by eexists|].
  destruct (mv_view _ _ _ _ Hm2 v V2 HV2) as (V' & HV' & Ec & _). assert (V' = V) as -> by congruence. clear HV'.
  destruct (mv_views _ _ _ _ Hm2 t) as [TV2 HTV2]; [by eexists|].
  destruct (mv_view _ _ _ _ Hm2 t TV2 HTV2) as (TV' & HTV' & _ & Ech & _). assert (TV' = TV) as -> by congruence. clear HTV'.
  assert (Epar : _parentView TV2 = _parentView TV).
  { destruct HS as [E _]. specialize (E t). rewrite HTV, HTV2 in E. by injection E. }
  assert (exists T, target_list TV pos = Some T) as [T HT] by (destruct pos; cbn; [by eauto..|by destruct (Hch eq_refl); eauto]).
  assert (HO := outside_same _ _ _ _ HS (target_outside h v t TV T pos Hw HTV Hin HT)).
  assert (HO' := HO). destruct HO' as (l & HL & _).
  assert (t <> v) as Hne by (intros ->; apply Hin, inside_here).
  destruct (ln_view _ _ _ Hl2 t TV2) as (lt & Hlt & [k Hk]%list_elem_of_lookup); [congruence|done|].
  assert (Hci : contentIndex TV2 = k) by (by eapply Hi2). assert (Hkl := lookup_lt_Some _ _ _ Hk).
  set (i := match pos with Before => contentIndex TV2 | After => contentIndex TV2 + 1 | Inside => 0 end).
  assert (Hlt' : pos <> Inside -> lt = l) by (intros Hpos; rewrite Epar in Hlt; destruct pos; cbn in HT; congruence).
  assert (Hil : i <= length (childViews l)).
  { unfold i. destruct pos; [rewrite <- Hlt' by done; lia..|lia]. }
  destruct (attached_ok h2 v T i V2 l Hl2 Hi2 HV2 HL HO Hil) as (h3 & Ha & Hw4 & Hm4 & l' & Hl' & Hcv).
  exists (_updateContentIndexes T h3). rewrite Ec in Ha, Hm4. refine (conj _ (conj Hw4 (conj (moved_trans _ _ _ _ _ Hm2 Hm4) _))).
  - assert (Em : match pos with Inside => do! n <- Ok (childListView TV); or_throw n TypeError | _ => Ok (_parentView TV) end = Ok T).
    { destruct pos; cbn in HT |- *; [congruence..|by rewrite HT]. }
    unfold _moveItem, getNestedListView. cbn [position].
    rewrite (getView_path root h v p ps Hw Hp), (getView_path root h t q pos Hw Hq). cbn [outcome_bind or_throw].
    rewrite (view_of_Some h v V HV), (view_of_Some h t TV HTV). cbn [outcome_bind] in Em |- *. rewrite Em.
    cbn [outcome_bind]. cbv zeta. fold h2. rewrite (view_of_Some h2 t TV2 HTV2). cbn [outcome_bind]. fold i. by rewrite Ha.
  - destruct (insertAt_lookup i v (childViews l) Hil) as (I1 & I2 & I3). rewrite <- Hcv in I1, I2, I3.
    unfold placed. destruct pos; cbn in i.
    + exists T, l', i. split_and!; [done..|]. rewrite I3 by done. rewrite <- Hlt' by done. unfold i. by rewrite Hci.
    + exists T, l', k. split_and!; [done| |].
      * rewrite I2 by (unfold i; lia). by rewrite <- Hlt'.
      * by replace (S k) with i by (unfold i; lia).
    + destruct (mv_views _ _ _ _ Hm4 t) as [T4 HT4]; [by eexists|].
      destruct (mv_view _ _ _ _ Hm4 t T4 HT4) as (T4' & HT4' & _ & E4 & _). assert (T4' = TV2) as -> by congruence.
      exists T4, T, l'. split_and!; [done|cbn in HT; congruence|done|done].
Qed.
End Move.

(** ** Resolving drop positions *)

Section Resolve.
Context (root : nat) (isValidDrop : nat -> option nat -> nat -> bool).
Notation wf := (wf root).
Notation getView := (getView root).
Notation _pathInvalid := (_pathInvalid root isValidDrop).

(** A view that is not below the dragged one, though it may be that one. *)
Definition near (h : store) (v t : nat) : Prop := t = v \/ ~ inside h v t.

Lemma path_up_ok h t q : path_of h t q ->
  (removelast q = [] /\ length q = 1 /\ top_level h t) \/
  (exists u, owner h t u /\ path_of h u (removelast q) /\ length q = S (length (removelast q))).
Proof.
  intros [v V Ht HV|v u V p Ho HV Hp]; [by left|right]. exists u. rewrite removelast_last, length_app. cbn.
  split_and!; [done|done|lia].
Qed.

Lemma inside_path h v w p q : path_of h v p -> inside h v w -> path_of h w q -> length p <= length q /\ (w <> v -> length p < length q).
Proof.
  intros Hp Hi. revert q. induction Hi as [|w u Ho Hi IH]; intros q Hq.
  - by rewrite (path_of_fun h v p q Hp Hq).
  - destruct (path_up_ok h w q Hq) as [(_ & _ & Ht)|(u' & Ho' & Hq' & Hlen)].
    + by apply owner_not_top in Ho.
    + rewrite (owner_fun h w u' u Ho' Ho) in Hq'. destruct (IH _ Hq'). lia.
Qed.

Lemma owner_not_inside h v u p : path_of h v p -> owner h v u -> ~ inside h v u.
Proof.
  intros Hp Ho Hi. destruct (path_up_ok h v p Hp) as [(_ & _ & Ht)|(u' & Ho' & Hq' & Hlen)]; [by apply owner_not_top in Ho|].
  rewrite (owner_fun h v u' u Ho' Ho) in Hq'. destruct (inside_path h v u p _ Hp Hi Hq'). lia.
Qed.

Lemma near_owner h v t u q : path_of h t q -> near h v t -> owner h t u -> ~ inside h v u.
Proof. intros Hq [->|Hn] Ho Hi; [by eapply owner_not_inside|]. apply Hn. by eapply inside_up. Qed.

(** The paths of different views differ. *)
Lemma path_of_inj h v w p : wf h -> path_of h v p -> path_of h w p -> v = w.
Proof.
  intros Hw Hv Hw'. assert (E := getView_path root h v p Inside Hw Hv). rewrite (getView_path root h w p Inside Hw Hw') in E.
  by injection E.
Qed.

Lemma getView_from_path h v arr L pre : wf h ->
  (L = root /\ pre = [] \/ exists u U, path_of h u pre /\ views h !! u = Some U /\ childListView U = Some L) ->
  getView_from h (Some L) arr = Ok (Some v) -> path_of h v (pre ++ arr).
Proof.
  intros Hw. revert L pre. induction arr as [|i rest IH]; intros L pre HL H; [done|].
  cbn [getView_from] in H. destruct (lists h !! L) as [l|] eqn:Hl; [|by unfold list_of in H; cbn in H; rewrite Hl in H].
  rewrite (list_of_Some h L l Hl) in H. cbn [outcome_bind] in H.
  assert (HV : forall w, childViews l !! i = Some w -> exists W, views h !! w = Some W /\ path_of h w (pre ++ [i])).
  { intros w Hi. destruct Hw as [Hln Hix].
    destruct (Forall2_lookup_l _ _ _ i w (ln_child _ _ _ Hln _ _ Hl) Hi) as (c & _ & W & HW & HpW & _).
    exists W. split; [done|]. assert (contentIndex W = i) as <- by (by eapply Hix).
    destruct HL as [[-> ->]|(u & U & Hu & HU & HUL)].
    - apply path_top; [|done]. exists W, l. rewrite HpW. split_and!; [done..|].
      destruct (isNested l) eqn:En; [|done]. exfalso.
      assert (Ho := ln_owned _ _ _ Hln _ _ Hl). rewrite En in Ho. destruct Ho as (x & X & _ & HX & HXr).
      assert (Hg := ln_tree _ _ _ Hln x X HX).
      assert (exists y, top_level h y) as (y & Y & ly & _ & Hly & Eny) by (clear - Hg; induction Hg; eauto).
      assert (Ho := ln_owned _ _ _ Hln _ _ Hly). rewrite Eny in Ho. rewrite Ho in Hly. congruence.
    - eapply path_nested; [|done|done]. destruct (ln_nested _ _ _ Hln u U L HU HUL) as (l' & Hl' & Hn & Hp).
      exists W, l. rewrite HpW. assert (l' = l) as -> by congruence. by split_and!. }
  destruct rest as [|j rest].
  - injection H as H. by destruct (HV v H) as (_ & _ & ?).
  - destruct (childViews l !! i) as [w|] eqn:Hi; [|done]. destruct (HV w eq_refl) as (W & HW & HpW).
    rewrite (view_of_Some h w W HW) in H. cbn [outcome_bind] in H.
    destruct (childListView W) as [M|] eqn:HM; [|by destruct rest].
    replace (pre ++ i :: j :: rest) with ((pre ++ [i]) ++ j :: rest) by (by rewrite <- app_assoc).
    apply (IH M); [right; by exists w, W|done].
Qed.

Lemma getView_path_of h v p : wf h -> getView h p = Ok (Some v) -> path_of h v (array p).
Proof. intros Hw H. apply (getView_from_path h v (array p) root []); [done|by left|exact H]. Qed.

Lemma pathInvalid_ok h v V t q pos : wf h -> views h !! v = Some V -> path_of h t q -> exists b, _pathInvalid h v (Path q pos) = Ok b.
Proof.
  intros Hw HV Hq. destruct (path_of_view h t q Hq) as [TV HTV]. unfold ListDrag._pathInvalid, path_up. cbn [array position].
  rewrite (view_of_Some h v V HV). cbn [outcome_bind]. rewrite (getView_path root h t q pos Hw Hq). cbn [outcome_bind].
  rewrite (view_of_Some h t TV HTV). cbn [outcome_bind].
  assert (exists o, (do! pv <- getView h (Path (removelast q) After);
    match pv with None => Ok None | Some _ => do! PV <- view_of h pv; Ok (Some (content PV)) end) = Ok o) as [o Ho].
  { destruct (path_up_ok h t q Hq) as [(E & _)|(u & _ & Hu & _)].
    - rewrite E. by exists None.
    - rewrite (getView_path root h u _ After Hw Hu). cbn [outcome_bind].
      destruct (path_of_view h u _ Hu) as [U HU]. rewrite (view_of_Some h u U HU). by eexists. }
  destruct pos; cbn [outcome_bind] in *; rewrite ?Ho; by eexists.
Qed.

Lemma closest_inside h v w q n : path_of h w q -> length q <= n -> (closest n h v w = true <-> inside h v w).
Proof.
  intros Hq. revert n. induction Hq as [w W Ht HW|w u W p Ho HW Hp IH]; intros n Hn.
  - destruct n as [|n]; [cbn in Hn; lia|]. cbn. destruct (decide (w = v)) as [->|Hne]; [by split; [constructor|]|].
    assert (Ht' := Ht). destruct Ht as (W' & l & HW' & Hl & En). rewrite HW'. cbn. rewrite Hl. cbn. rewrite En.
    split; [done|]. intros Hi. inversion Hi; subst; [done|]. exfalso. by eapply owner_not_top.
  - rewrite length_app in Hn. cbn in Hn. destruct n as [|n]; [lia|]. cbn. destruct (decide (w = v)) as [->|Hne]; [by split; [constructor|]|].
    assert (Ho' := Ho). destruct Ho' as (W' & l & HW' & Hl & En & Epi). rewrite HW'. cbn. rewrite Hl. cbn. rewrite En, Epi.
    rewrite IH by lia. split; [by apply inside_up|]. intros Hi. inversion Hi as [|w' u' Ho2 Hi2]; subst; [done|].
    by rewrite (owner_fun h w u u' Ho Ho2).
Qed.

(** What the loops keep: the path leads to the target, which is not below the dragged
    view, and a place inside it exists. *)
Definition inside_ok (h : store) (t : nat) (pos : place) : Prop :=
  pos = Inside -> exists T, views h !! t = Some T /\ is_Some (childListView T).

Lemma level_up_ok h itemPath v V n p t x : wf h -> views h !! v = Some V ->
  path_of h t (array p) -> near h v t -> inside_ok h t (position p) -> length (array p) < n ->
  exists p' t' x', level_up_loop root isValidDrop n h itemPath v t p x = Ok (p', t', x') /\
    path_of h t' (array p') /\ near h v t' /\ inside_ok h t' (position p').
Proof.
  intros Hw HV. revert p t x. induction n as [|n IH]; intros [q pos] t x Hq Hn Hin Hlt; cbn [array position] in *; [lia|].
  cbn [level_up_loop array position]. destruct (pathInvalid_ok h v V t q pos Hw HV Hq) as [b Hb].
  assert (exists go, or_else (x <? - xStep)%Z (_pathInvalid h v (Path q pos)) = Ok go) as [go ->].
  { rewrite Hb. unfold or_else. case_match; by eexists. }
  cbn [outcome_bind]. destruct (path_of_view h t q Hq) as [TV HTV]. rewrite (view_of_Some h t TV HTV). cbn [outcome_bind].
  destruct (wf_position root h t TV Hw HTV) as (l & Hl & _). rewrite (list_of_Some h _ l Hl). cbn [outcome_bind].
  destruct (path_up_ok h t q Hq) as [(_ & E1 & _)|(u & Ho & Hu & Elen)].
  - rewrite E1. rewrite andb_false_r. cbn [andb]. by exists (Path q pos), t, x.
  - case_match; [|by exists (Path q pos), t, x].
    unfold path_up. cbn [array]. rewrite (getView_path root h u _ After Hw Hu). cbn [outcome_bind or_throw].
    apply IH; cbn [array position]; [done| |done|lia]. right. by apply (near_owner h v t u q).
Qed.

Lemma siblings h t v q l : path_of h t q -> wf h -> (exists T, views h !! t = Some T /\ lists h !! _parentView T = Some l) ->
  v ∈ childViews l -> exists p, path_of h v p /\ length p = length q /\ forall u, owner h v u -> owner h t u.
Proof.
  intros Hq Hw (T & HT & Hl) [i Hi]%list_elem_of_lookup.
  destruct (Forall2_lookup_l _ _ _ i v (ln_child _ _ _ (proj1 Hw) _ _ Hl) Hi) as (c & _ & V & HV & HpV & _).
  assert (Hlv : lists h !! _parentView V = Some l) by congruence.
  assert (Hown : forall u, owner h v u -> owner h t u).
  { intros u (V' & l' & HV' & Hl' & En & Ep). assert (V' = V) as -> by congruence. assert (l' = l) as -> by congruence. by exists T, l. }
  inversion Hq as [t' T' Ht HT'|t' u T' p Ho HT' Hp]; subst.
  - exists [contentIndex V]. split_and!; [|done|done]. apply path_top; [|done].
    destruct Ht as (T2 & l2 & HT2 & Hl2 & En). assert (T2 = T) as -> by congruence. assert (l2 = l) as -> by congruence.
    by exists V, l.
  - exists (p ++ [contentIndex V]). split_and!; [|by rewrite !length_app|done]. eapply path_nested; [|done|done].
    destruct Ho as (T2 & l2 & HT2 & Hl2 & En & Ep). assert (T2 = T) as -> by congruence. assert (l2 = l) as -> by congruence.
    by exists V, l.
Qed.

Lemma preceding_ok h t q : wf h -> path_of h t q -> exists op, _getPrecedingView h t = Ok op /\
  forall w, op = Some w -> exists p, path_of h w p /\ length p = length q /\ forall u, owner h w u -> owner h t u.
Proof.
  intros Hw Hq. destruct (path_of_view h t q Hq) as [TV HTV]. unfold _getPrecedingView.
  rewrite (view_of_Some h t TV HTV). cbn [outcome_bind]. case_match; [|by exists None].
  destruct (wf_position root h t TV Hw HTV) as (l & Hl & _). rewrite (list_of_Some h _ l Hl). cbn [outcome_bind].
  eexists. split; [done|]. intros w Hi%list_elem_of_lookup_2. eapply siblings; [done|done|by exists TV|done].
Qed.

(** Going down into an open item: after its last child, or inside it. *)
Lemma path_down_ok h w W q : wf h -> path_of h w q -> views h !! w = Some W -> is_Some (childListView W) ->
  exists p', path_down root h (Path q Inside) = Ok p' /\
    ((p' = Path q Inside) \/ exists c, path_of h c (array p') /\ owner h c w /\ position p' = After /\ length (array p') = S (length q)).
Proof.
  intros Hw Hq HW [L HL]. unfold path_down, getNestedListView.
  rewrite (getView_path root h w q Inside Hw Hq). cbn [outcome_bind]. rewrite (view_of_Some h w W HW). cbn [outcome_bind]. rewrite HL.
  destruct (ln_nested _ _ _ (proj1 Hw) w W L HW HL) as (l & Hl & En & Ep). rewrite (list_of_Some h L l Hl). cbn [outcome_bind].
  eexists. split; [done|]. destruct (Nat.ltb_spec 0 (length (items l))) as [Hlt|]; [right|by left].
  assert (Hlen := Forall2_length _ _ _ (ln_child _ _ _ (proj1 Hw) L l Hl)).
  destruct (lookup_lt_is_Some_2 (childViews l) (length (items l) - 1)) as [c Hc]; [lia|].
  destruct (Forall2_lookup_l _ _ _ _ c (ln_child _ _ _ (proj1 Hw) _ _ Hl) Hc) as (x & _ & C & HC & HpC & _).
  assert (contentIndex C = length (items l) - 1) as EC by (by eapply (proj2 Hw L)).
  assert (Ho : owner h c w) by (exists C, l; rewrite HpC; by split_and!).
  exists c. cbn [array position]. split_and!; [|done|done|rewrite length_app; cbn; lia].
  rewrite <- EC. by eapply path_nested.
Qed.

Lemma level_down_ok h itemPath v V n p t x : wf h -> views h !! v = Some V -> path_of h v (array itemPath) ->
  path_of h t (array p) -> near h v t -> inside_ok h t (position p) ->
  (size (views h) + 2 <= n + length (array p) \/ (position p = Inside /\ t <> v /\ 0 < n)) ->
  exists p' t', level_down_loop root isValidDrop n h itemPath v t p x = Ok p' /\
    path_of h t' (array p') /\ near h v t' /\ inside_ok h t' (position p').
Proof.
  intros Hw HV Hv. revert p t x. induction n as [|n IH]; intros [q pos] t x Hq Hn Hin Hlt; cbn [array position] in *.
  { apply path_of_bound in Hq. lia. }
  cbn [level_down_loop array position]. destruct (pathInvalid_ok h v V t q pos Hw HV Hq) as [b Hb].
  assert (exists go, or_else (xStep <? x)%Z (_pathInvalid h v (Path q pos)) = Ok go) as [go ->].
  { rewrite Hb. unfold or_else. case_match; by eexists. }
  cbn [outcome_bind]. destruct (go && _) eqn:Ego; [|by exists (Path q pos), t].
  assert (Hlt' : size (views h) + 2 <= S n + length q).
  { destruct Hlt as [|(-> & Hne & _)]; [done|]. exfalso. apply andb_true_iff in Ego as [_ Ego]. cbn in Ego.
    unfold path_equals in Ego. apply bool_decide_eq_true in Ego. cbn in Ego. rewrite Ego in Hv.
    apply Hne. by eapply path_of_inj. }
  destruct (preceding_ok h t q Hw Hq) as (op & -> & Hop). cbn [outcome_bind].
  destruct op as [w|]; [|by exists (Path q pos), t]. destruct (Hop w eq_refl) as (r & Hr & Elen & Hown).
  destruct (path_of_view h w r Hr) as [W HW]. rewrite (view_of_Some h w W HW). cbn [outcome_bind].
  destruct (negb _ && _ && _) eqn:Ec; [|by exists (Path q pos), t].
  apply andb_true_iff in Ec as [[Hwv Hhc]%andb_true_iff Hex]. apply negb_true_iff, bool_decide_eq_false in Hwv.
  rewrite (resolvePath_path h w r Hr). cbn [outcome_bind].
  assert (is_Some (childListView W)) as HWc by (by eapply (ln_open _ _ _ (proj1 Hw))).
  destruct (path_down_ok h w W r Hw Hr HW HWc) as (p' & -> & Hp'). cbn [outcome_bind].
  assert (Hnw : ~ inside h v w).
  { intros Hi. inversion Hi as [|w' u Ho Hi']; subst; [done|]. apply (near_owner h v t u q); auto. }
  assert (exists c, path_of h c (array p') /\ near h v c /\ inside_ok h c (position p') /\
    (size (views h) + 2 <= n + length (array p') \/ (position p' = Inside /\ c <> v /\ 0 < n))) as (c & Hc & Hnc & Hic & Hmc).
  { assert (Hb' := path_of_bound h w r Hr).
    destruct Hp' as [->|(c & Hc & Ho & -> & El)].
    - exists w. cbn. split_and!; [done|by right|intros _; by exists W|right]. split_and!; [done|done|lia].
    - exists c. split_and!; [done| |done|left; lia]. destruct (decide (c = v)) as [|Hne]; [by left|right].
      intros Hi. inversion Hi as [|c' u Ho' Hi']; subst; [done|]. rewrite (owner_fun h c u w Ho' Ho) in Hi'. done. }
  destruct p' as [q' pos']. cbn [array position] in *.
  destruct (pathInvalid_ok h v V c q' pos' Hw HV Hc) as [b' ->]. cbn [outcome_bind].
  destruct b'; [by exists (Path q pos), t|].
  rewrite (getView_path root h c q' pos' Hw Hc). cbn [outcome_bind or_throw]. by apply IH.
Qed.
End Resolve.

(** ** Dragging *)

Section Drag.
Context (root : nat) (isValidDrop : nat -> option nat -> nat -> bool).
Notation wf := (wf root).
Notation drag_move := (drag_move root isValidDrop).
Notation updateDisplay := (updateDisplay root isValidDrop).
Notation drag_all := (drag_all root isValidDrop).

(** The elements of an event belong to item views or the clone, the dragged one among them. *)
Definition event_ok (h : store) (v : nat) (ev : drag_event) : Prop :=
  (exists e, e ∈ itemElements ev /\ el_view e = Some v) /\
  (forall e w, e ∈ itemElements ev -> el_view e = Some w -> is_Some (views h !! w)).

Lemma passed_ok h v dir ct cb ahead cur : wf h ->
  (forall e w, e ∈ ahead -> el_view e = Some w -> is_Some (views h !! w)) ->
  is_Some (views h !! cur) -> near h v cur ->
  let w := passed h v dir ct cb ahead cur in is_Some (views h !! w) /\ near h v w.
Proof.
  intros Hw. cbv zeta. revert cur. induction ahead as [|e ahead IH]; intros cur Hall Hc Hn; cbn [passed]; [done|].
  destruct (el_view e) as [w|] eqn:Ew; [|done].
  assert (Hall' : forall e w, e ∈ ahead -> el_view e = Some w -> is_Some (views h !! w)) by (intros e' w' ?; apply Hall; set_solver).
  destruct (el_visible e && negb (closest _ _ _ _)) eqn:Ec; [|by apply IH].
  destruct (_ || _)%Z; [|done]. apply IH; [done|apply (Hall e w); [set_solver|done]|].
  apply andb_true_iff in Ec as [_ Ec%negb_true_iff]. right.
  destruct (Hall e w) as [W HW]; [set_solver|done|]. destruct (wf_path root h w W Hw HW) as [q Hq].
  rewrite <- (closest_inside h v w q (size (views h))); [by rewrite Ec|done|by eapply path_of_bound].
Qed.

Lemma resolveNewPath_ok h v V ip lastX ev : wf h -> views h !! v = Some V -> path_of h v (array ip) -> event_ok h v ev ->
  exists r, _resolveNewPath root isValidDrop h ip lastX ev = Ok r /\
    forall p, r = Some p -> exists t, path_of h t (array p) /\ near h v t /\ inside_ok h t (position p).
Proof.
  intros Hw HV Hv [(e0 & Hin0 & He0) Hall]. destruct ip as [q0 pos0]. cbn [array] in Hv. unfold _resolveNewPath.
  rewrite (getView_path root h v q0 pos0 Hw Hv). cbn [outcome_bind or_throw].
  destruct (list_find _ (itemElements ev)) as [[k e]|] eqn:Ef.
  2: { apply list_find_None in Ef. rewrite list.Forall_forall in Ef. by destruct (Ef e0 Hin0). }
  set (dir := if (0 <? cloneTop ev - draggedTop ev)%Z then 1%Z else (-1)%Z).
  set (ahead := if (0 <? dir)%Z then drop (S k) (itemElements ev) else rev (take k (itemElements ev))).
  set (t := passed h v dir _ _ ahead v).
  assert (is_Some (views h !! t) /\ near h v t) as [[TV HTV] Hn].
  { apply passed_ok; [done| |by eexists|by left]. intros e' w He'. apply Hall. unfold ahead in He'.
    apply list_elem_of_In. case_match; apply list_elem_of_In in He'.
    - rewrite <- (firstn_skipn (S k)). apply in_or_app. by right.
    - rewrite <- in_rev in He'. rewrite <- (firstn_skipn k). apply in_or_app. by left. }
  destruct (wf_path root h t TV Hw HTV) as [q Hq]. rewrite (resolvePath_path h t q Hq). cbn [outcome_bind].
  rewrite (view_of_Some h t TV HTV). cbn [outcome_bind].
  destruct (pathInvalid_ok root isValidDrop h v V t q Inside Hw HV Hq) as [b ->]. cbn [outcome_bind].
  assert (exists c, and_then ((0 <? dir)%Z && hasChildren TV && isExpanded TV) (Ok (negb b)) = Ok c /\
    (c = true -> hasChildren TV = true /\ isExpanded TV = true)) as (c & -> & Hc).
  { unfold and_then. destruct ((0 <? dir)%Z && hasChildren TV && isExpanded TV) eqn:E; eexists; (split; [done|]); [|done].
    intros _. by apply andb_true_iff in E as [[_ ?]%andb_true_iff ?]. }
  cbn [outcome_bind]. cbv zeta. cbn [array]. set (p2 := if c then Path q Inside else Path q (if (0 <? dir)%Z then After else Before)).
  assert (Hp2 : path_of h t (array p2)) by (unfold p2; by destruct c).
  assert (Hi2 : inside_ok h t (position p2)).
  { unfold p2. destruct c; cbn; [|case_match; done]. intros _. exists TV. split; [done|].
    destruct (Hc eq_refl). by eapply (ln_open _ _ _ (proj1 Hw)). }
  unfold _resolveNewLevel.
  destruct (level_up_ok root isValidDrop h (Path q0 pos0) v V (S (length (array p2))) p2 t (pageX ev - lastX) Hw HV Hp2 Hn Hi2)
    as (p3 & t3 & x3 & -> & Hp3 & Hn3 & Hi3); [lia|]. cbn [outcome_bind].
  destruct (level_down_ok root isValidDrop h (Path q0 pos0) v V (S (S (size (views h)))) p3 t3 x3 Hw HV Hv Hp3 Hn3 Hi3)
    as (p4 & t4 & -> & Hp4 & Hn4 & Hi4); [left; lia|]. cbn [outcome_bind].
  destruct p4 as [q4 pos4]. destruct (pathInvalid_ok root isValidDrop h v V t4 q4 pos4 Hw HV Hp4) as [b4 ->]. cbn [outcome_bind].
  eexists. split; [done|]. intros p. destruct b4; [done|]. intros [= <-]. by exists t4.
Qed.

Lemma drag_move_ok h v V ev d : wf h -> views h !! v = Some V -> path_of h v (array (itemPath d)) -> event_ok h v ev ->
  exists d' h', drag_move ev d h = Ok (d', h') /\ wf h' /\ moved v (content V) h h' /\ path_of h' v (array (itemPath d')) /\
    mouseMoveCounter d' = mouseMoveCounter d /\
    (h' = h /\ d' = d \/ exists t pos, t <> v /\ placed h' v t pos).
Proof.
  intros Hw HV Hv Hev. destruct (resolveNewPath_ok h v V (itemPath d) (lastPageX d) ev Hw HV Hv Hev) as (r & Er & Hr).
  unfold ListDrag.drag_move. rewrite Er. cbn [outcome_bind].
  destruct r as [np|]; [|exists d, h; split_and!; eauto using moved_refl].
  destruct (path_equals (itemPath d) np) eqn:Ee; [exists d, h; split_and!; eauto using moved_refl|].
  destruct (Hr np eq_refl) as (t & Ht & Hn & Hi). destruct d as [[q0 pos0] lx cnt], np as [q pos]. cbn [itemPath array position] in *.
  unfold path_equals in Ee. apply bool_decide_eq_false in Ee. cbn [array] in Ee.
  assert (t <> v) as Hne by (intros ->; apply Ee; by eapply path_of_fun).
  assert (~ inside h v t) as Hin by (by destruct Hn). destruct (path_of_view h t q Ht) as [TV HTV].
  destruct (moveItem_ok root h v t TV q0 pos0 q pos V Hw Hv Ht HV HTV Hin) as (h' & Em & Hw' & Hm & Hpl).
  { intros E. destruct (Hi E) as (T & HT & ?). by simplify_eq. }
  rewrite (getView_path root h v q0 pos0 Hw Hv). cbn [outcome_bind or_throw]. rewrite Em. cbn [outcome_bind].
  destruct (mv_views _ _ _ _ Hm v) as [V' HV']; [by eexists|].
  destruct (wf_path root h' v V' Hw' HV') as [q' Hq']. rewrite (resolvePath_path h' v q' Hq'). cbn [outcome_bind].
  eexists _, h'. split; [done|]. split; [done|]. split; [done|]. split; [done|]. split; [done|]. right. eauto.
Qed.

Lemma updateDisplay_ok h v V ev sch d : wf h -> views h !! v = Some V -> path_of h v (array (itemPath d)) -> event_ok h v ev ->
  exists d' h', updateDisplay ev sch d h = Ok (d', h') /\ wf h' /\ moved v (content V) h h' /\ path_of h' v (array (itemPath d')).
Proof.
  intros Hw HV Hv Hev. unfold ListDrag.updateDisplay. destruct sch as [n|].
  - case_match; [exists d, h; split_and!; eauto using moved_refl|].
    destruct (drag_move_ok h v V ev d Hw HV Hv Hev) as (d' & h' & ? & ? & ? & ? & _). by exists d', h'.
  - destruct (drag_move_ok h v V ev (Helper (itemPath d) (lastPageX d) (S (mouseMoveCounter d))) Hw HV Hv Hev)
      as (d' & h' & ? & ? & ? & ? & _). by exists d', h'.
Qed.

Lemma drag_all_ok h v V evs d : wf h -> views h !! v = Some V -> path_of h v (array (itemPath d)) ->
  Forall (fun e => event_ok h v e.1) evs ->
  exists d' h', drag_all evs d h = Ok (d', h') /\ wf h' /\ moved v (content V) h h' /\ path_of h' v (array (itemPath d')).
Proof.
  revert h V d. induction evs as [|[ev sch] evs IH]; intros h V d Hw HV Hv HF; cbn [ListDrag.drag_all].
  { exists d, h. split_and!; eauto using moved_refl. }
  apply Forall_cons in HF as [Hev HF].
  destruct (updateDisplay_ok h v V ev sch d Hw HV Hv Hev) as (d1 & h1 & -> & Hw1 & Hm1 & Hv1). cbn [outcome_bind fst snd].
  destruct (mv_views _ _ _ _ Hm1 v) as [V1 HV1]; [by eexists|].
  destruct (mv_view _ _ _ _ Hm1 v V1 HV1) as (V' & HV' & Ec & _). assert (V' = V) as -> by congruence.
  destruct (IH h1 V1 d1 Hw1 HV1 Hv1) as (d2 & h2 & E & Hw2 & Hm2 & Hv2).
  { eapply Forall_impl; [exact HF|]. intros [ev' sch'] [H1 H2]. split; [done|].
    intros e w He Hew. apply (mv_views _ _ _ _ Hm1). by eapply H2. }
  exists d2, h2. rewrite Ec in Hm2. split_and!; [done..|by eapply moved_trans|done].
Qed.

(** C17. Whatever mouse events arrive while an item is dragged, each of them handled or
    refused by the delegate, no step fails, and the views stay a tree with matching
    contents and indexes that are up to date: the item is never put inside itself, in
    each list all other items keep their order, the dragged item is in exactly one
    list, and the helper's path leads to it. *)
Theorem drag_keeps_tree h v V evs d :
  wf h -> views h !! v = Some V -> getView root h (itemPath d) = Ok (Some v) ->
  Forall (fun e => event_ok h v e.1) evs ->
  exists d' h', drag_all evs d h = Ok (d', h') /\ wf h' /\ getView root h' (itemPath d') = Ok (Some v) /\
    (forall L l', lists h' !! L = Some l' -> exists l, lists h !! L = Some l /\
       array_removeObject v (childViews l') = array_removeObject v (childViews l) /\
       array_removeObject (content V) (items l') = array_removeObject (content V) (items l)) /\
    exists L l', lists h' !! L = Some l' /\ v ∈ childViews l' /\ content V ∈ items l' /\
      forall M m, lists h' !! M = Some m -> content V ∈ items m -> M = L.
Proof.
  intros Hw HV Hv HF. apply getView_path_of in Hv; [|done].
  destruct (drag_all_ok h v V evs d Hw HV Hv HF) as (d' & h' & E & Hw' & Hm & Hv'). exists d', h'.
  split; [done|]. split; [done|]. split; [destruct (itemPath d'); by eapply getView_path|]. split.
  { intros L l' HL. destruct (mv_list _ _ _ _ Hm L l' HL) as (l & ? & _ & _ & ? & ?). by exists l. }
  destruct (mv_views _ _ _ _ Hm v) as [V' HV']; [by eexists|].
  destruct (mv_view _ _ _ _ Hm v V' HV') as (V0 & HV0 & Ec & _). assert (V0 = V) as -> by congruence.
  destruct (wf_position root h' v V' Hw' HV') as (l & Hl & Hcv & Hit). exists (_parentView V'), l. rewrite <- Ec.
  split_and!; [done|by eapply list_elem_of_lookup_2|by eapply list_elem_of_lookup_2|].
  intros M mm HM [i Hi]%list_elem_of_lookup.
  destruct (Forall2_lookup_r _ _ _ i _ (ln_child _ _ _ (proj1 Hw') _ _ HM) Hi) as (w & _ & W & HW & HpW & HcW).
  assert (w = v) as -> by (by eapply (ln_items _ _ _ (proj1 Hw'))). congruence.
Qed.

(** Moving a view to a drop position puts it right before the target, right after
    it, or first inside it, in the array of views and in that of contents, moves
    nothing else, and leaves all indexes up to date. *)
Theorem moveItem_places h p v V q t TV :
  wf h -> getView root h p = Ok (Some v) -> views h !! v = Some V ->
  getView root h q = Ok (Some t) -> views h !! t = Some TV -> ~ inside h v t ->
  (position q = Inside -> is_Some (childListView TV)) ->
  exists h', _moveItem root h p q = Ok h' /\ wf h' /\ placed h' v t (position q) /\ moved v (content V) h h'.
Proof.
  intros Hw Hp HV Hq HTV Hin Hch. apply getView_path_of in Hp, Hq; [|done..]. destruct p as [p ps], q as [q pos].
  destruct (moveItem_ok root h v t TV p ps q pos V Hw Hp Hq HV HTV Hin Hch) as (h' & ? & ? & ? & ?). by exists h'.
Qed.

(** The path of an item view and the view a path leads to are inverse to each other:
    [_resolvePath] finds for every view of the tree a path that leads to it, and for the
    view that a path leads to that very path. *)
Theorem path_roundtrip h : wf h ->
  (forall v, is_Some (views h !! v) -> exists arr, _resolvePath h v = Ok (Path arr Inside) /\ getView root h (Path arr Inside) = Ok (Some v)) /\
  (forall arr pos v, getView root h (Path arr pos) = Ok (Some v) -> _resolvePath h v = Ok (Path arr Inside)).
Proof.
  intros Hw. split.
  - intros v [V HV]. destruct (wf_path root h v V Hw HV) as [q Hq]. exists q. split; [by apply resolvePath_path|by apply getView_path].
  - intros arr pos v H. apply getView_path_of in H; [|done]. by apply resolvePath_path.
Qed.

Lemma startReordering_path n h v V arr p : wf h -> views h !! v = Some V -> path_of h v p -> length p <= n ->
  startReordering n h (_parentView V) (contentIndex V :: arr) = Ok (root, p ++ arr).
Proof.
  intros Hw HV Hp. revert n V arr HV. induction Hp as [v V0 Ht HV0|v u V0 p Ho HV0 Hp IH]; intros n V arr HV Hn;
    assert (V0 = V) as -> by congruence.
  - destruct n; [cbn in Hn; lia|]. cbn [startReordering]. destruct Ht as (V' & l & HV' & Hl & En).
    assert (V' = V) as -> by congruence. rewrite (list_of_Some h _ l Hl). cbn [outcome_bind]. rewrite En.
    assert (Ho := ln_owned _ _ _ (proj1 Hw) _ _ Hl). rewrite En in Ho. by rewrite Ho.
  - rewrite length_app in Hn. cbn in Hn. destruct n as [|n]; [lia|]. cbn [startReordering].
    destruct Ho as (V' & l & HV' & Hl & En & Ep). assert (V' = V) as -> by congruence.
    rewrite (list_of_Some h _ l Hl). cbn [outcome_bind]. rewrite En, Ep.
    destruct (path_of_view h u p Hp) as [U HU]. rewrite (view_of_Some h u U HU). cbn [outcome_bind].
    rewrite (IH n U _ HU) by lia. by rewrite <- app_assoc.
Qed.

(** The path that the nested tree views accumulate when a drag starts is the path of
    the item from the root, at which the helper starts. *)
Theorem drag_starts_at_item h v V :
  wf h -> views h !! v = Some V ->
  exists arr, startReordering (size (views h)) h (_parentView V) [contentIndex V] = Ok (root, arr) /\
    getView root h (Path arr Inside) = Ok (Some v).
Proof.
  intros Hw HV. destruct (wf_path root h v V Hw HV) as [q Hq]. exists q.
  rewrite (startReordering_path _ h v V [] q Hw HV Hq) by (by eapply path_of_bound). rewrite app_nil_r.
  split; [done|by apply getView_path].
Qed.

(** A mouse event scheduled by the scrolling carries the counter of the time it was
    scheduled; the counter never falls, so such an event does nothing. *)
Lemma drag_move_counter ev d h d' h' : drag_move ev d h = Ok (d', h') -> mouseMoveCounter d' = mouseMoveCounter d.
Proof.
  unfold ListDrag.drag_move. intros H. destruct (_resolveNewPath _ _ _ _ _ _) as [[np|]|]; cbn [outcome_bind] in H; [|by simplify_eq|done].
  destruct (path_equals _ _); [by simplify_eq|]. destruct (getView _ _ _) as [ov|]; [|done]. cbn [outcome_bind] in H.
  destruct ov; [|done]. cbn [or_throw outcome_bind] in H. destruct (_moveItem _ _ _ _); [|done]. cbn [outcome_bind] in H.
  destruct (_resolvePath _ _); [|done]. cbn [outcome_bind] in H. by simplify_eq.
Qed.

Lemma updateDisplay_counter ev sch d h d' h' : updateDisplay ev sch d h = Ok (d', h') -> mouseMoveCounter d <= mouseMoveCounter d'.
Proof.
  unfold ListDrag.updateDisplay. destruct sch as [n|]; [case_match; [by intros [= <- <-]|]|]; intros E%drag_move_counter; cbn in E; lia.
Qed.

Lemma scheduled_discarded evs d h d' h' ev :
  drag_all evs d h = Ok (d', h') -> updateDisplay ev (Some (mouseMoveCounter d)) d' h' = Ok (d', h').
Proof.
  intros H. assert (mouseMoveCounter d <= mouseMoveCounter d') as Hle.
  { revert d h H. induction evs as [|[e sch] evs IH]; intros d h H; cbn [ListDrag.drag_all] in H; [by simplify_eq|].
    destruct (updateDisplay e sch d h) as [[d1 h1]|] eqn:E; [|done]. cbn [outcome_bind fst snd] in H.
    apply updateDisplay_counter in E. apply IH in H. lia. }
  unfold ListDrag.updateDisplay. by rewrite (proj2 (Nat.leb_le _ _) Hle).
Qed.
End Drag.

(** The clone stays within the content of the list, when it fits, and follows the pointer
    where it can. *)
Lemma clone_top_bounds pageY yOffset parentTop scrollTop height scrollHeight :
  (height <= scrollHeight)%Z ->
  let t := clone_top pageY yOffset parentTop scrollTop height scrollHeight in
  (0 <= t /\ t + height <= scrollHeight /\
   (0 <= pageY - yOffset - parentTop + scrollTop <= scrollHeight - height -> t = pageY - yOffset - parentTop + scrollTop))%Z.
Proof. intros H. cbv zeta. unfold clone_top. destruct (Z.ltb_spec (pageY - yOffset - parentTop + scrollTop) 0); zcases; lia. Qed.

(** ** An example: a tree of two folders *)

(** The root list 0 holds the items 10 (open, with the nested list 1 of the items 20 and
    21) and 11; the item view [n] shows the item [100 + n]. *)
Definition iv (n ci L : nat) (child : option nat) : nat * iview :=
  (n, IView (100 + n) ci L child (bool_decide (is_Some child)) (bool_decide (is_Some child))).
Definition the_tree : store :=
  Store (list_to_map [iv 10 0 0 (Some 1); iv 11 1 0 None; iv 20 0 1 None; iv 21 1 1 None])
    (list_to_map [(0, LView [110; 111] [10; 11] false None); (1, LView [120; 121] [20; 21] true (Some 10))]).

Definition children (h : store) (L : nat) : option (list nat) := childViews <$> lists h !! L.
Definition row (v : nat) (y : Z) : element := Element (Some v) y 20 true.
(** The four rows, and the clone at a height. *)
Definition at_height (x y dragged : Z) : drag_event :=
  DragEvent x [row 10 0; row 20 20; row 21 40; row 11 60; Element None y 20 true] y 20 dragged.

Definition always (_ : nat) (_ : option nat) (_ : nat) : bool := true.
Definition of_drag (r : outcome (helper * store)) : option (list nat * option (list nat) * option (list nat)) :=
  match r with Ok (d, h) => Some (array (itemPath d), children h 0, children h 1) | Throw _ => None end.

(** Item 11 dragged up over 21 goes before it; item 20 dragged down over 21 and to the
    left leaves the folder; item 11 dragged to the right goes into the folder before it. *)
Example drag_up : of_drag (updateDisplay 0 always (at_height 50 42 60) None (Helper (Path [1] Inside) 50 0) the_tree) =
  Some ([0; 1], Some [10], Some [20; 11; 21]).
Proof. by vm_compute. Qed.
Example drag_down_left : of_drag (updateDisplay 0 always (at_height 30 38 20) None (Helper (Path [0; 0] Inside) 50 0) the_tree) =
  Some ([1], Some [10; 20; 11], Some [21]).
Proof. by vm_compute. Qed.
Example drag_right : of_drag (updateDisplay 0 always (at_height 70 61 60) None (Helper (Path [1] Inside) 50 0) the_tree) =
  Some ([0; 2], Some [10], Some [20; 21; 11]).
Proof. by vm_compute. Qed.

Lemma the_tree_cases v V : views the_tree !! v = Some V ->
  v = 10 /\ V = IView 110 0 0 (Some 1) true true \/ v = 11 /\ V = IView 111 1 0 None false false \/
  v = 20 /\ V = IView 120 0 1 None false false \/ v = 21 /\ V = IView 121 1 1 None false false.
Proof.
  intros H%elem_of_list_to_map_2. cbn in H. rewrite !elem_of_cons in H.
  destruct H as [[= -> ->]|[[= -> ->]|[[= -> ->]|[[= -> ->]|H]]]]; [tauto..|set_solver].
Qed.

Lemma the_lists_cases L l : lists the_tree !! L = Some l ->
  L = 0 /\ l = LView [110; 111] [10; 11] false None \/ L = 1 /\ l = LView [120; 121] [20; 21] true (Some 10).
Proof.
  intros H%elem_of_list_to_map_2. cbn in H. rewrite !elem_of_cons in H.
  destruct H as [[= -> ->]|[[= -> ->]|H]]; [tauto..|set_solver].
Qed.

Lemma the_tree_wf : wf 0 the_tree.
Proof.
  assert (forall v, v = 10 \/ v = 11 -> grounded the_tree v) as H0.
  { intros v [-> | ->]; apply ground_top; eexists _, _; by split_and!. }
  split; [split|].
  - intros L l [[-> ->]|[-> ->]]%the_lists_cases; cbn; repeat (constructor; [eexists; by split_and!|]); constructor.
  - intros L l [[-> ->]|[-> ->]]%the_lists_cases; cbn; repeat (constructor; [set_solver|]); constructor.
  - intros v V _ [[-> ->]|[[-> ->]|[[-> ->]|[-> ->]]]]%the_tree_cases; eexists; (split; [reflexivity|cbn; set_solver]).
  - done.
  - intros v V L [[-> ->]|[[-> ->]|[[-> ->]|[-> ->]]]]%the_tree_cases; cbn; intros [= <-]. eexists; by split_and!.
  - intros L l [[-> ->]|[-> ->]]%the_lists_cases; cbn; [done|]. eexists _, _; by split_and!.
  - intros v w V W [[-> ->]|[[-> ->]|[[-> ->]|[-> ->]]]]%the_tree_cases [[-> ->]|[[-> ->]|[[-> ->]|[-> ->]]]]%the_tree_cases; done.
  - intros v V [[-> ->]|[[-> ->]|[[-> ->]|[-> ->]]]]%the_tree_cases; cbn; done.
  - intros v V [[-> ->]|[[-> ->]|[[-> ->]|[-> ->]]]]%the_tree_cases; auto;
      (eapply ground_up; [eexists _, _; by split_and!|auto]).
  - intros L l i v V [[-> ->]|[-> ->]]%the_lists_cases Hi HV; destruct i as [|[|i]]; cbn in Hi; simplify_eq; vm_compute in HV; by simplify_eq.
Qed.

Lemma tree_event_ok v x y dragged : v = 10 \/ v = 11 \/ v = 20 \/ v = 21 -> event_ok the_tree v (at_height x y dragged).
Proof.
  intros Hv. split.
  - destruct Hv as [->|[->|[->| ->]]]; [exists (row 10 0)|exists (row 11 60)|exists (row 20 20)|exists (row 21 40)];
      (split; [cbn; set_solver|reflexivity]).
  - cbn. intros e w He Hw. rewrite !elem_of_cons in He.
    destruct He as [->|[->|[->|[->|[->|He]]]]]; cbn in Hw; simplify_eq; [by eexists..|set_solver].
Qed.

Lemma drag_keeps_tree_witness :
  let evs := [(at_height 30 38 20, None); (at_height 30 39 20, Some 1)] in
  let d := Helper (Path [0; 0] Inside) 50 0 in
  exists d' h', drag_all 0 always evs d the_tree = Ok (d', h') /\ wf 0 h' /\ getView 0 h' (itemPath d') = Ok (Some 20) /\
    (forall L l', lists h' !! L = Some l' -> exists l, lists the_tree !! L = Some l /\
       array_removeObject 20 (childViews l') = array_removeObject 20 (childViews l) /\
       array_removeObject 120 (items l') = array_removeObject 120 (items l)) /\
    exists L l', lists h' !! L = Some l' /\ 20 ∈ childViews l' /\ 120 ∈ items l' /\
      forall M m, lists h' !! M = Some m -> 120 ∈ items m -> M = L.
Proof.
  cbv zeta. apply (drag_keeps_tree 0 always the_tree 20 (IView 120 0 1 None false false));
    [exact the_tree_wf|vm_compute; reflexivity|vm_compute; reflexivity|].
  repeat (apply Forall_cons_2; [apply tree_event_ok; auto|]). apply Forall_nil_2.
Defined.

Lemma outside_20_11 : ~ inside the_tree 11 20.
Proof.
  intros H. assert (path_of the_tree 20 [0; 0]) as Hp by (apply (getView_path_of 0 _ _ (Path [0; 0] Inside) the_tree_wf); by vm_compute).
  apply (closest_inside the_tree 11 20 [0; 0] 4) in H; [by vm_compute in H|done|cbn; lia].
Qed.

Lemma moveItem_places_witness :
  exists h', _moveItem 0 the_tree (Path [1] Inside) (Path [0; 0] After) = Ok h' /\ wf 0 h' /\ placed h' 11 20 After /\
    moved 11 111 the_tree h'.
Proof.
  apply (moveItem_places 0 the_tree (Path [1] Inside) 11 (IView 111 1 0 None false false) (Path [0; 0] After) 20
    (IView 120 0 1 None false false)); try (vm_compute; reflexivity); [exact the_tree_wf|exact outside_20_11|discriminate].
Defined.

Lemma path_roundtrip_witness :
  (forall v, is_Some (views the_tree !! v) -> exists arr, _resolvePath the_tree v = Ok (Path arr Inside) /\
     getView 0 the_tree (Path arr Inside) = Ok (Some v)) /\
  (forall arr pos v, getView 0 the_tree (Path arr pos) = Ok (Some v) -> _resolvePath the_tree v = Ok (Path arr Inside)).
Proof. apply (path_roundtrip 0 the_tree). exact the_tree_wf. Defined.

Lemma drag_starts_at_item_witness :
  exists arr, startReordering (size (views the_tree)) the_tree 1 [1] = Ok (0, arr) /\
    getView 0 the_tree (Path arr Inside) = Ok (Some 21).
Proof.
  apply (drag_starts_at_item 0 the_tree 21 (IView 121 1 1 None false false)); [exact the_tree_wf|vm_compute; reflexivity].
Defined.
