(* ===== verification/DragClone.v ===== *)
(** * The element that shadows a dragged item ([views/list_view_drag_helper.js])

    While an item is dragged, a copy of its element follows the pointer, and the original is
    dimmed.  Where items are put is the subject of [ListDrag]; here are the copy, its
    identifiers, and how it is kept like the original.

    An element is its identifier (empty if there is none), its classes, its [left] and its
    children; where elements are in the document enters as functions. *)

From S2P Require Import Prelude.
Open Scope string_scope.
Open Scope list_scope.
Open Scope flame_scope.

Inductive element := El (el_id : string) (classes : list string) (left : option Z) (children : list element).

Definition el_id e := match e with El i _ _ _ => i end.
Definition classes e := match e with El _ c _ _ => c end.
Definition left e := match e with El _ _ l _ => l end.
Definition children e := match e with El _ _ _ k => k end.

Definition ITEM : string := "flame-tree-item-view".
Definition CLONE : string := "is-dragged-clone".
Definition is_item (e : element) : bool := bool_decide (ITEM ∈ classes e).

(** The elements of the class [flame-tree-item-view], in the order of the document: with the
    element itself, and among its descendants, [find('.flame-tree-item-view')].  The second
    argument that the code gives to [find] is ignored by jQuery. *)
Fixpoint self_items (e : element) : list element :=
  match e with El _ _ _ ks => (if is_item e then [e] else []) ++ concat (map self_items ks) end.
Definition items (e : element) : list element := concat (map self_items (children e)).

Definition own_id (i : string) : list string := if bool_decide (i = "") then [] else [i].
Fixpoint ids (e : element) : list string := match e with El i _ _ ks => own_id i ++ concat (map ids ks) end.

(** ** The copy *)

Definition drag_id (i : string) : string := if bool_decide (i = "") then "" else i +:+ "_drag".

(** The identifiers of a copy, which are set for the element and for each descendant. *)
Fixpoint rename (e : element) : element := match e with El i c l ks => El (drag_id i) c l (map rename ks) end.

Definition add_class (x : string) (l : list string) : list string := if bool_decide (x ∈ l) then l else l ++ [x].
Definition clone_of (e : element) : element :=
  match rename e with El i c l ks => El i (add_class CLONE c) l ks end.

(** Classes and [left] of the items of a copy, counted from [n], are set to what [f] says. *)
Section restyle.
Context (f : nat -> list string * option Z).

Fixpoint restyle (e : element) (n : nat) : element * nat :=
  match e with
  | El i c l ks =>
      let '(h, n1) := if is_item e then (f n, S n) else ((c, l), n) in
      let '(ks1, n2) := (fix restyle_all (ks : list element) (n : nat) : list element * nat :=
        match ks with
        | [] => ([], n)
        | k :: ks' => let '(k1, m) := restyle k n in let '(ks1, m') := restyle_all ks' m in (k1 :: ks1, m')
        end) ks n1 in
      (El i h.1 h.2 ks1, n2)
  end.

Fixpoint restyle_all (ks : list element) (n : nat) : list element * nat :=
  match ks with
  | [] => ([], n)
  | k :: ks' => let '(k1, m) := restyle k n in let '(ks1, m') := restyle_all ks' m in (k1 :: ks1, m')
  end.
End restyle.

(** Where elements begin: the copy's and the item's, and those of the items below both, with
    the elements that they are placed in. *)
Record offsets := Offsets {
  rootOffsetLeft : Z;
  draggedLeft : Z;
  itemLeft : nat -> Z;
  parentLeft : nat -> Z
}.

Definition style_of (o : offsets) (originals : list element) (i : nat) : list string * option Z :=
  match originals !! i with
  | Some x => (classes x, Some (itemLeft o i - parentLeft o i)%Z)
  | None => ([], None)
  end.

(** The offset of an original that does not exist is undefined. *)
Definition _updateCss (o : offsets) (draggedElement : option element) (clone : element) : outcome element :=
  match draggedElement with
  | None => Ok clone
  | Some d =>
      if (length (items clone) <=? length (items d))%nat then
        Ok (El (el_id clone) (classes d ++ [CLONE]) (Some (draggedLeft o - rootOffsetLeft o)%Z)
              (restyle_all (style_of o (items d)) (children clone) 0).1)
      else Throw TypeError
  end.

(** ** Dragging *)

(** The element of the list view, to which the copy is appended, and where the item is in it;
    the copies that are to be removed when rendering is done; the contents told to
    [didReorderContent]. *)
Record drag := Drag {
  listElement : element;
  itemPath : list nat;
  isDragged : bool;
  clone : option element;
  removed_later : bool;
  reordered : list nat
}.

Fixpoint element_at (path : list nat) (e : element) : option element :=
  match path with
  | [] => Some e
  | i :: path' => k ← children e !! i; element_at path' k
  end.

Definition document (d : drag) : list element := listElement d :: option_list (clone d).

Definition initReorder (o : offsets) (d : drag) : outcome drag :=
  do! e <- or_throw (element_at (itemPath d) (listElement d)) TypeError ;
  do! c <- _updateCss o (Some e) (clone_of e) ;
  Ok (Drag (listElement d) (itemPath d) true (Some c) (removed_later d) (reordered d)).

(** The item was moved and everything is rendered again. *)
Definition moved (o : offsets) (l : element) (path : list nat) (d : drag) : outcome drag :=
  match clone d with
  | Some c =>
      do! c' <- _updateCss o (element_at path l) c ;
      Ok (Drag l path (isDragged d) (Some c') (removed_later d) (reordered d))
  | None => Throw TypeError
  end.

(** [content] is that of the list the item is in now. *)
Definition finishReorder (content : nat) (d : drag) : drag :=
  Drag (listElement d) (itemPath d) false (clone d) true (reordered d ++ [content]).

Definition afterRender (d : drag) : drag :=
  if removed_later d then Drag (listElement d) (itemPath d) (isDragged d) None false (reordered d) else d.

(** ** Lemmas *)

Lemma element_ind' (P : element -> Prop) :
  (forall i c l ks, Forall P ks -> P (El i c l ks)) -> forall e, P e.
Proof.
  intros H. fix IH 1. intros [i c l ks]. apply H. induction ks as [|k ks IHks]; constructor; [apply IH|exact IHks].
Qed.

Lemma restyle_eq f i c l ks n :
  restyle f (El i c l ks) n =
  let '(h, n1) := if is_item (El i c l ks) then (f n, S n) else ((c, l), n) in
  let '(ks1, n2) := restyle_all f ks n1 in (El i h.1 h.2 ks1, n2).
Proof. reflexivity. Qed.

Lemma rename_ids e : ids (rename e) = drag_id <$> ids e.
Proof.
  induction e as [i c l ks IH] using element_ind'. cbn. rewrite fmap_app. f_equal.
  - by destruct i.
  - induction IH as [|k ks Hk _ IHks]; [done|]. cbn. by rewrite fmap_app, Hk, IHks.
Qed.

Lemma rename_items e : self_items (rename e) = rename <$> self_items e.
Proof.
  induction e as [i c l ks IH] using element_ind'. cbn [self_items rename]. rewrite fmap_app. f_equal.
  - unfold is_item. cbn. by case_bool_decide.
  - rewrite map_map. induction IH as [|k ks Hk _ IHks]; [done|]. cbn. by rewrite fmap_app, Hk, IHks.
Qed.

Lemma clone_items e : items (clone_of e) = rename <$> items e.
Proof.
  destruct e as [i c l ks]. unfold items, clone_of. cbn. rewrite map_map.
  induction ks as [|k ks IH]; [done|]. cbn. by rewrite rename_items, IH, fmap_app.
Qed.

Definition style (e : element) : list string * option Z := (classes e, left e).

(** Setting styles: how many items there are does not change, if the new styles are of items,
    they get these styles in order, and the identifiers stay. *)
Lemma restyle_ok f e : forall n, (forall k, n <= k < n + length (self_items e) -> ITEM ∈ (f k).1) ->
  (restyle f e n).2 = n + length (self_items e) /\
  style <$> self_items (restyle f e n).1 = f <$> seq n (length (self_items e)) /\
  ids (restyle f e n).1 = ids e.
Proof.
  induction e as [i c l ks IH] using element_ind'. intros n Hf. rewrite restyle_eq.
  set (h := is_item (El i c l ks)) in *.
  assert (length (self_items (El i c l ks)) = (if h then 1 else 0) + length (concat (map self_items ks))) as Hlen
    by (cbn [self_items]; fold h; rewrite length_app; by destruct h).
  assert (forall m, (forall k, m <= k < m + length (concat (map self_items ks)) -> ITEM ∈ (f k).1) ->
    (restyle_all f ks m).2 = m + length (concat (map self_items ks)) /\
    style <$> concat (map self_items (restyle_all f ks m).1) = f <$> seq m (length (concat (map self_items ks))) /\
    concat (map ids (restyle_all f ks m).1) = concat (map ids ks)) as Hall.
  { clear -IH. induction IH as [|k ks Hk _ IHks]; intros m Hm; [cbn; by rewrite Nat.add_0_r|]. cbn [restyle_all].
    cbn [map concat] in Hm |- *. rewrite length_app in Hm |- *.
    destruct (Hk m) as (E1 & E2 & E3); [intros j Hj; apply Hm; lia|]. destruct (restyle f k m) as [k1 m1]. cbn in E1, E2, E3. subst m1.
    destruct (IHks (m + length (self_items k))) as (F1 & F2 & F3); [intros j Hj; apply Hm; lia|].
    destruct (restyle_all f ks (m + length (self_items k))) as [ks1 m2]. cbn in F1, F2, F3 |- *. subst m2.
    rewrite fmap_app, E2, F2, seq_app, fmap_app, E3, F3. split; [lia|done]. }
  destruct (Hall (if h then S n else n)) as (F1 & F2 & F3); [intros k Hk; apply Hf; rewrite Hlen; destruct h; lia|].
  assert (h = true -> ITEM ∈ (f n).1) as Hn by (intros Eh; apply Hf; rewrite Hlen, Eh; lia). clear Hall.
  destruct h eqn:Eh; destruct (restyle_all f ks _) as [ks1 m] eqn:Er; cbn [fst snd] in F1, F2, F3 |- *; rewrite Hlen; (split; [lia|]); cbn [ids self_items].
  - unfold is_item. cbn [classes]. rewrite bool_decide_true by (by apply Hn). cbn. unfold style at 1. cbn. rewrite F2, F3. by destruct (f n).
  - unfold h, is_item in Eh. cbn [classes] in Eh. unfold is_item. cbn [classes]. rewrite Eh. cbn. by rewrite F2, F3.
Qed.

Lemma restyle_all_ok f ks n : (forall k, n <= k < n + length (concat (map self_items ks)) -> ITEM ∈ (f k).1) ->
  style <$> concat (map self_items (restyle_all f ks n).1) = f <$> seq n (length (concat (map self_items ks))) /\
  concat (map ids (restyle_all f ks n).1) = concat (map ids ks).
Proof.
  intros Hf. destruct (restyle_ok f (El "" [] None ks) n) as (_ & H2 & H3); [done|]. rewrite restyle_eq in H2, H3.
  change (is_item (El "" [] None ks)) with false in H2, H3. revert H2 H3. cbv beta iota. destruct (restyle_all f ks n) as [ks1 m].
  intros H2 H3. split; [exact H2|exact H3].
Qed.

Lemma items_are_items e x : x ∈ items e -> ITEM ∈ classes x.
Proof.
  unfold items. assert (forall e, Forall (fun x => ITEM ∈ classes x) (self_items e)) as H.
  { clear. intros e. induction e as [i c l ks IH] using element_ind'. cbn [self_items]. apply Forall_app. split.
    - unfold is_item. case_bool_decide; repeat constructor. done.
    - induction IH; [constructor|]. cbn. by apply Forall_app. }
  intros Hx. apply list_elem_of_In, in_concat in Hx as (l & Hl & Hx). apply in_map_iff in Hl as (k & <- & _).
  specialize (H k). rewrite Forall_forall in H. apply H. by apply list_elem_of_In.
Qed.

Lemma style_of_seq o l : style_of o l <$> seq 0 (length l) = imap (fun i x => (classes x, Some (itemLeft o i - parentLeft o i)%Z)) l.
Proof.
  apply list_eq. intros k. rewrite list_lookup_fmap, list_lookup_imap. destruct (l !! k) as [x|] eqn:E; cbn.
  - pose proof (lookup_lt_Some _ _ _ E). rewrite lookup_seq_lt by done. cbn. unfold style_of. by rewrite E.
  - apply lookup_ge_None in E. by rewrite lookup_seq_ge.
Qed.

(** The copy after its styles have been set. *)
Record looks_like (o : offsets) (d c : element) : Prop := {
  like_classes : classes c = classes d ++ [CLONE];
  like_left : left c = Some (draggedLeft o - rootOffsetLeft o)%Z;
  like_items : style <$> items c = imap (fun i x => (classes x, Some (itemLeft o i - parentLeft o i)%Z)) (items d)
}.

Lemma updateCss_ok o d c : length (items c) = length (items d) ->
  exists c', _updateCss o (Some d) c = Ok c' /\ looks_like o d c' /\ ids c' = ids c.
Proof.
  intros Hl. unfold _updateCss. rewrite (proj2 (Nat.leb_le _ _)) by lia. eexists. split; [reflexivity|].
  destruct (restyle_all_ok (style_of o (items d)) (children c) 0) as [H1 H2].
  { fold (items c). intros k Hk. unfold style_of. destruct (lookup_lt_is_Some_2 (items d) k ltac:(lia)) as [x Hx]. rewrite Hx.
    apply (items_are_items d). by apply list_elem_of_lookup_2 in Hx. }
  split; [split|].
  - done.
  - done.
  - unfold items at 1. cbn [children]. rewrite H1. fold (items c). rewrite Hl. apply style_of_seq.
  - cbn [ids]. rewrite H2. by destruct c.
Qed.

(** ** Identifiers *)

Lemma append_inj_r t s1 : forall s2, s1 +:+ t = s2 +:+ t -> s1 = s2.
Proof.
  induction s1 as [|a s1 IH]; intros [|b s2] E; [done| | |].
  - apply (f_equal String.length) in E. rewrite !append_length in E. cbn in E. lia.
  - apply (f_equal String.length) in E. rewrite !append_length in E. cbn in E. lia.
  - injection E as -> E. f_equal. by apply IH.
Qed.

Lemma ids_not_empty e i : i ∈ ids e -> i <> "".
Proof.
  revert i. induction e as [j c l ks IH] using element_ind'. intros i Hi. cbn [ids] in Hi. apply elem_of_app in Hi as [Hi|Hi].
  - unfold own_id in Hi. case_bool_decide; [by apply elem_of_nil in Hi|]. apply list_elem_of_singleton in Hi. by subst.
  - induction IH as [|k ks Hk _ IHks]; cbn in Hi; [by apply elem_of_nil in Hi|]. apply elem_of_app in Hi as [Hi|Hi]; [by apply Hk|by apply IHks].
Qed.

Lemma drag_id_some i : i <> "" -> drag_id i = i +:+ "_drag".
Proof. intros H. unfold drag_id. by rewrite bool_decide_false. Qed.

Lemma ids_submseteq path : forall e e', element_at path e = Some e' -> ids e' ⊆+ ids e.
Proof.
  induction path as [|i path IH]; intros e e' H; cbn in H; [by injection H as ->|].
  destruct (children e !! i) as [k|] eqn:E; [|done]. cbn in H. etrans; [by apply IH|]. destruct e as [j c l ks]. cbn in *.
  apply submseteq_inserts_l. apply list_elem_of_split_length in E as (l1 & l2 & -> & _). rewrite map_app, concat_app. cbn.
  apply submseteq_inserts_l, submseteq_inserts_r. done.
Qed.

(** The identifiers of a list view differ, and none looks like that of a copy. *)
Definition ids_ok (e : element) : Prop := NoDup (ids e) /\ forall i x, i ∈ ids e -> i <> x +:+ "_drag".

Lemma copy_ids_ok l e : ids_ok l -> ids e ⊆+ ids l -> NoDup (ids l ++ (drag_id <$> ids e)).
Proof.
  intros [Hnd Hl] He. apply NoDup_app. split; [done|]. split.
  - intros i Hi (j & -> & Hj)%list_elem_of_fmap. rewrite drag_id_some in Hi by (by apply (ids_not_empty e)). by apply (Hl _ j) in Hi.
  - assert (NoDup (ids e)) as Hnde
      by (apply submseteq_Permutation in He as [k Hk]; rewrite Hk in Hnd; by apply NoDup_app in Hnd as [? _]). clear -Hnde.
    assert (Forall (fun i => i <> "") (ids e)) as Hne by (apply Forall_forall; by apply ids_not_empty).
    induction Hnde as [|i l' Hi _ IH]; [constructor|]. apply Forall_cons in Hne as [Hi' Hne]. cbn. constructor; [|by apply IH].
    intros (j & E & Hj)%list_elem_of_fmap. pose proof (proj1 (Forall_forall _ _) Hne j Hj) as Hj'. cbn in Hj'.
    rewrite !drag_id_some in E by done. apply append_inj_r in E. by subst.
Qed.

(** ** Properties *)

(** A move of the item: the list view as it is rendered then, and where the item is. *)
Record move := Move { move_offsets : offsets; move_list : element; move_path : list nat }.

Fixpoint run_moves (ms : list move) (d : drag) : outcome drag :=
  match ms with
  | [] => Ok d
  | m :: ms' => do! d' <- moved (move_offsets m) (move_list m) (move_path m) d ; run_moves ms' d'
  end.

(** The same elements are in the list view, in another order, and as many are below the item. *)
Definition move_ok (l : element) (n : nat) (m : move) : Prop :=
  ids (move_list m) ≡ₚ ids l /\ exists e, element_at (move_path m) (move_list m) = Some e /\ length (items e) = n.

Lemma looks_like_items o d c : looks_like o d c -> length (items c) = length (items d).
Proof. intros [_ _ H]. apply (f_equal length) in H. by rewrite length_fmap, length_imap in H. Qed.

Lemma moves_ok l n ms : forall o d e c,
  Forall (move_ok l n) ms -> ids (listElement d) ≡ₚ ids l ->
  clone d = Some c -> element_at (itemPath d) (listElement d) = Some e -> looks_like o e c -> length (items e) = n ->
  exists d1 c1 e1, run_moves ms d = Ok d1 /\ isDragged d1 = isDragged d /\ clone d1 = Some c1 /\ ids c1 = ids c /\
    element_at (itemPath d1) (listElement d1) = Some e1 /\ looks_like (default o (move_offsets <$> last ms)) e1 c1 /\
    ids (listElement d1) ≡ₚ ids l.
Proof.
  induction ms as [|m ms IH]; intros o d e c Hms Hp Hc He Hl Hn; [by exists d, c, e|].
  apply Forall_cons in Hms as [[Hp' (e' & He' & Hn')] Hms]. cbn [run_moves]. unfold moved. rewrite Hc, He'.
  destruct (updateCss_ok (move_offsets m) e' c) as (c' & -> & Hl' & Hi'); [by rewrite (looks_like_items o e c), Hn|]. cbn [outcome_bind].
  destruct (IH (move_offsets m) (Drag (move_list m) (move_path m) (isDragged d) (Some c') (removed_later d) (reordered d)) e' c')
    as (d1 & c1 & e1 & E & H1 & H2 & H3 & H4 & H5 & H6); [done..|].
  exists d1, c1, e1. split_and!; try done; [by rewrite H3|]. rewrite last_cons. by destruct (last ms).
Qed.

(** From the beginning of a drag on, however often the item is moved, there is one copy,
    which looks like the item where it is now, marked as a copy, with the same indentation of
    it and of all items below it, and no identifier occurs twice in the document.  When the
    drag has ended and everything is rendered the copy is gone, and only the elements of the
    list are left. *)
Theorem copy_shadows_item o d e ms content :
  ids_ok (listElement d) -> element_at (itemPath d) (listElement d) = Some e ->
  Forall (move_ok (listElement d) (length (items e))) ms ->
  exists d0 d1 c e', initReorder o d = Ok d0 /\ run_moves ms d0 = Ok d1 /\ isDragged d1 = true /\
    clone d1 = Some c /\ element_at (itemPath d1) (listElement d1) = Some e' /\
    looks_like (default o (move_offsets <$> last ms)) e' c /\
    NoDup (concat (map ids (document d1))) /\
    document (afterRender (finishReorder content d1)) = [listElement d1] /\
    isDragged (afterRender (finishReorder content d1)) = false /\
    reordered (afterRender (finishReorder content d1)) = reordered d1 ++ [content].
Proof.
  intros Hok He Hms. unfold initReorder. rewrite He. cbn [or_throw outcome_bind].
  destruct (updateCss_ok o e (clone_of e)) as (c0 & -> & Hl0 & Hi0); [by rewrite clone_items, length_fmap|]. cbn [outcome_bind].
  set (d0 := Drag (listElement d) (itemPath d) true (Some c0) (removed_later d) (reordered d)).
  destruct (moves_ok (listElement d) (length (items e)) ms o d0 e c0) as (d1 & c & e' & E & H1 & H2 & H3 & H4 & H5 & H6); [done..|].
  exists d0, d1, c, e'. split_and!; try done. unfold document. rewrite H2. cbn. rewrite app_nil_r, H3, Hi0, H6.
  assert (ids (clone_of e) = drag_id <$> ids e) as -> by (rewrite <- rename_ids; by destruct e).
  apply copy_ids_ok; [done|]. by apply (ids_submseteq (itemPath d)).
Qed.

(** ** Witness *)

Definition ex_node (i : string) (ks : list element) : element :=
  El i ["flame-list-item-view"; ITEM] None ks.
Definition ex_list : element :=
  El "ember1" ["flame-tree-view"] None [ex_node "ember2" [El "" ["label"] None []; ex_node "ember3" []]; ex_node "ember4" []].
Definition ex_moved : element :=
  El "ember1" ["flame-tree-view"] None [ex_node "ember4" []; ex_node "ember2" [El "" ["label"] None []; ex_node "ember3" []]].
Definition ex_offsets : offsets := Offsets 10 20 (fun i => 30 + 10 * Z.of_nat i)%Z (fun _ => 10%Z).
Definition ex_drag : drag := Drag ex_list [0] false None false [].

Lemma copy_shadows_item_witness :
  exists d0 d1 c, initReorder ex_offsets ex_drag = Ok d0 /\ run_moves [Move ex_offsets ex_moved [1]] d0 = Ok d1 /\
    clone d1 = Some c /\ ids c = ["ember2_drag"; "ember3_drag"] /\ NoDup (concat (map ids (document d1))).
Proof.
  destruct (copy_shadows_item ex_offsets ex_drag (ex_node "ember2" [El "" ["label"] None []; ex_node "ember3" []]) [Move ex_offsets ex_moved [1]] 7)
    as (d0 & d1 & c & e' & H0 & H1 & _ & H2 & _ & _ & H3 & _).
  - split; [vm_compute; repeat constructor; set_solver|]. intros i x Hi. vm_compute in Hi.
    repeat (apply elem_of_cons in Hi as [->|Hi]; [by destruct x as [|? [|? [|? [|? [|? [|? [|? x]]]]]]]|]). by apply elem_of_nil in Hi.
  - reflexivity.
  - repeat constructor; [vm_compute; solve_Permutation|]. by eexists.
  - exists d0, d1, c. split_and!; try done. vm_compute in H0. injection H0 as <-. vm_compute in H1. injection H1 as <-. by injection H2 as <-.
Defined.

(** ** Departures *)

(** Nested lists are not among the elements that are kept like the original, since the second
    selector given to [find] has no effect; and the code throws when there are fewer items
    below the original than when it was copied. *)
Lemma nested_lists_not_found :
  items (El "ember5" [ITEM] None [El "ember6" ["flame-tree-view"] None []]) = [].
Proof. reflexivity. Qed.

Lemma fewer_items_throw :
  _updateCss ex_offsets (Some (ex_node "ember2" [])) (clone_of (ex_node "ember2" [ex_node "ember3" []])) = Throw TypeError.
Proof. reflexivity. Qed.
