(* ===== verification/TreeView.v ===== *)
(** * Tree views ([views/tree_view.js], [views/tree_item_view.js])

    A tree is a list view whose item views contain list views in turn.  The view of the
    items below an item is made when the item is first shown expanded, and stays.  A
    selection made in a nested list is handed up to the root, which is the only list that
    keeps one.

    List views, item views and the items themselves are numbers.  The views are made one
    list at a time, when Ember renders the template of an item, which may happen at any
    moment after the item has asked for it.  What [List view] says of single lists is not
    repeated: here are the parts that make a tree of them. *)

From S2P Require Import Prelude.
From stdpp Require Import pretty.
Open Scope string_scope.
Open Scope list_scope.
Open Scope flame_scope.

(** ** State *)

Record tlist := TList {
  isNested : bool;
  container : option nat;         (* [parentView], the item view a nested list is in *)
  lcontent : list nat;
  lviews : list nat;              (* the item views *)
  allowSelection : bool;
  selection : option nat
}.

Record titem := TItem {
  parentList : nat;               (* [parentView] *)
  content : nat;
  contentIndex : nat;
  _isExpanded : option bool;      (* what has been set; none is [undefined] *)
  renderSubTree : bool            (* as cached *)
}.

Record tree := Tree {
  lists : gmap nat tlist;
  items : gmap nat titem;
  treeItemChildren : gmap nat (list nat);   (* of the items that have them *)
  treeItemIsExpanded : gset nat;            (* the items for which it is true *)
  defaultIsExpanded : bool;                 (* of the root *)
  clickTogglesIsExpanded : bool             (* of the root *)
}.

Definition set_lists x t := Tree x (items t) (treeItemChildren t) (treeItemIsExpanded t) (defaultIsExpanded t) (clickTogglesIsExpanded t).
Definition set_items x t := Tree (lists t) x (treeItemChildren t) (treeItemIsExpanded t) (defaultIsExpanded t) (clickTogglesIsExpanded t).
Definition set_children x t := Tree (lists t) (items t) x (treeItemIsExpanded t) (defaultIsExpanded t) (clickTogglesIsExpanded t).
Definition set_content_expanded x t := Tree (lists t) (items t) (treeItemChildren t) x (defaultIsExpanded t) (clickTogglesIsExpanded t).

Definition put_selection x (l : tlist) : tlist := TList (isNested l) (container l) (lcontent l) (lviews l) (allowSelection l) x.
Definition put_expanded x (i : titem) : titem := TItem (parentList i) (content i) (contentIndex i) x (renderSubTree i).
Definition put_rendered x (i : titem) : titem := TItem (parentList i) (content i) (contentIndex i) (_isExpanded i) x.

(** ** Lists within lists *)

Definition parentTreeView (l : nat) (t : tree) : option nat :=
  li ← lists t !! l;
  if isNested li then i ← container li; it ← items t !! i; Some (parentList it) else None.

Fixpoint treeLevel (fuel : nat) (l : nat) (t : tree) : option nat :=
  match fuel with
  | 0 => None
  | S n =>
      match parentTreeView l t with
      | Some p => S <$> treeLevel n p t
      | None => Some 1
      end
  end.

Definition nestingLevel (fuel : nat) (l : nat) (t : tree) : option string :=
  n ← treeLevel fuel l t; Some ("level-" +:+ pretty n).

Fixpoint rootTreeView (fuel : nat) (l : nat) (t : tree) : option nat :=
  match fuel with
  | 0 => None
  | S n =>
      match parentTreeView l t with
      | Some p => rootTreeView n p t
      | None => Some l
      end
  end.

(** ** Selection *)

Definition selection_of (l : nat) (t : tree) : option nat := lists t !! l ≫= selection.

(** [set('selection', x)], with [_treeSelectionDidChange].  The parent is set first, and
    then this list, whose observer is called once more and does nothing. *)
Fixpoint set_selection (fuel : nat) (l : nat) (x : option nat) (t : tree) : option tree :=
  match fuel with
  | 0 => None
  | S n =>
      if decide (selection_of l t = x) then Some t
      else
        let t1 := set_lists (alter (put_selection x) l (lists t)) t in
        match x, parentTreeView l t1 with
        | Some _, Some p =>
            t2 ← set_selection n p x t1;
            Some (set_lists (alter (put_selection None) l (lists t2)) t2)
        | _, _ => Some t1
        end
  end.

(** ** Expansion *)

Definition isExpanded (it : titem) (t : tree) : bool :=
  match _isExpanded it with
  | Some b => b
  | None => bool_decide (content it ∈ treeItemIsExpanded t) || defaultIsExpanded t
  end.

Definition hasChildren (it : titem) (t : tree) : bool := bool_decide (is_Some (treeItemChildren t !! content it)).

(** The property is cached; [_updateSubTreeRendering] has it computed again when that
    makes it true. *)
Definition _updateSubTreeRendering (t : tree) (it : titem) : titem :=
  if negb (renderSubTree it) && isExpanded it t && hasChildren it t then put_rendered true it else it.

Definition set_isExpanded (i : nat) (b : bool) (t : tree) : tree :=
  set_items (alter (fun it => _updateSubTreeRendering t (put_expanded (Some b) it)) i (items t)) t.

(** [treeItemIsExpanded] and [treeItemChildren] of an item: its views are told. *)
Definition tell_views (c : nat) (t : tree) : tree :=
  set_items ((fun it => if decide (content it = c) then _updateSubTreeRendering t it else it) <$> items t) t.

Definition set_item_expanded (c : nat) (b : bool) (t : tree) : tree :=
  tell_views c (set_content_expanded (if b then {[c]} ∪ treeItemIsExpanded t else treeItemIsExpanded t ∖ {[c]}) t).

Section tree.
Context (selectable : nat -> bool).       (* the item view is visible and may be selected *)
Context (volatileNotifies : bool).        (* whether Ember tells the observers of [hasChildren], which is volatile *)

Definition set_item_children (c : nat) (k : option (list nat)) (t : tree) : tree :=
  let t1 := set_children (match k with Some l => <[c := l]> (treeItemChildren t) | None => delete c (treeItemChildren t) end) t in
  if volatileNotifies then tell_views c t1 else t1.

Definition nested_of (i : nat) (t : tree) : option nat :=
  it ← items t !! i;
  if renderSubTree it then
    head (filter (fun l => (lists t !! l) ≫= container = Some i) (elements (dom (lists t))))
  else None.

(** ** Making the views *)

Definition fresh_view (m : gset nat) : nat := S (max_list (elements m)).

(** The item view of the item [c]; its template reads [renderSubTree]. *)
Definition new_item (l : nat) (t : tree) (k c : nat) : titem :=
  let it := TItem l c k None false in put_rendered (hasChildren it t && isExpanded it t) it.

(** The list [l] and its item views, numbered from [n]. *)
Definition add_list (l n : nat) (nested : bool) (cont : option nat) (cs : list nat) (allow : bool) (t : tree) : tree :=
  let its := imap (fun k c => (n + k, new_item l t k c)) cs in
  set_items (list_to_map its ∪ items t) (set_lists (<[l := TList nested cont cs its.*1 allow None]> (lists t)) t).

(** The template of an item view makes [nestedTreeView] if the item has been expanded. *)
Definition render (i : nat) (t : tree) : tree :=
  match items t !! i with
  | Some it =>
      if renderSubTree it && bool_decide (nested_of i t = None) then
        add_list (fresh_view (dom (lists t))) (fresh_view (dom (items t))) true (Some i)
          (default [] (treeItemChildren t !! content it)) (from_option allowSelection true (lists t !! 0)) t
      else t
  | None => t
  end.

Definition create (cs : list nat) (kids : gmap nat (list nat)) (exp : gset nat) (dflt click allow : bool) : tree :=
  add_list 0 0 false None cs allow (Tree ∅ ∅ kids exp dflt click).

(** ** Events *)

(** [selectIndex] of a list, on a press of the mouse. *)
Definition selectIndex (fuel : nat) (l index : nat) (t : tree) : option (tree * bool) :=
  match lists t !! l with
  | Some li =>
      match lviews li !! index ≫= (items t !!.) with
      | Some it =>
          if allowSelection li && selectable (content it) then
            t' ← set_selection fuel l (lcontent li !! index) t; Some (t', true)
          else Some (t, false)
      | None => Some (t, false)
      end
  | None => Some (t, false)
  end.

Definition mouseUp (i : nat) (t : tree) : tree :=
  if clickTogglesIsExpanded t then
    match items t !! i with Some it => set_isExpanded i (negb (isExpanded it t)) t | None => t end
  else t.

(** Selected items are marked by their class. *)
Definition is_selected (i : nat) (t : tree) : bool :=
  match items t !! i with
  | Some it =>
      match rootTreeView (S (parentList it)) (parentList it) t with
      | Some r => bool_decide (selection_of r t = Some (content it))
      | None => false
      end
  | None => false
  end.

Inductive event :=
| Render (i : nat)
| Press (l index : nat)
| Release (i : nat)
| SetIsExpanded (i : nat) (b : bool)
| SetItemExpanded (c : nat) (b : bool)
| SetItemChildren (c : nat) (k : option (list nat)).

(** Lists are numbered after those they are in, so their numbers bound the recursion. *)
Definition step (ev : event) (t : tree) : option tree :=
  match ev with
  | Render i => Some (render i t)
  | Press l k => fst <$> selectIndex (S l) l k t
  | Release i => Some (mouseUp i t)
  | SetIsExpanded i b => Some (set_isExpanded i b t)
  | SetItemExpanded c b => Some (set_item_expanded c b t)
  | SetItemChildren c k => Some (set_item_children c k t)
  end.


(** ** Specification *)

Record tree_ok (t : tree) : Prop := {
  ok_nested l li : lists t !! l = Some li -> isNested li = negb (bool_decide (l = 0));
  ok_container l li : lists t !! l = Some li -> l <> 0 -> exists i it, container li = Some i /\
    items t !! i = Some it /\ renderSubTree it = true /\ parentList it < l;
  ok_once l l' li li' : lists t !! l = Some li -> lists t !! l' = Some li' -> l <> 0 -> l' <> 0 ->
    container li = container li' -> l = l';
  ok_parent i it : items t !! i = Some it -> is_Some (lists t !! parentList it);
  ok_views l li k i : lists t !! l = Some li -> lviews li !! k = Some i -> exists it, items t !! i = Some it /\
    parentList it = l /\ contentIndex it = k /\ lcontent li !! k = Some (content it);
  ok_selection l li : lists t !! l = Some li -> l <> 0 -> selection li = None
}.

(** An item that is expanded and has children has asked for the view of its subtree. *)
Definition shown (t : tree) : Prop :=
  forall i it, items t !! i = Some it -> isExpanded it t = true -> hasChildren it t = true -> renderSubTree it = true.

(** The lists that a list is in, up to the root. *)
Inductive path_up (t : tree) : nat -> list nat -> Prop :=
| path_root l : parentTreeView l t = None -> path_up t l [l]
| path_nested l p ls : parentTreeView l t = Some p -> path_up t p ls -> path_up t l (l :: ls).

(** ** Lists within lists *)

Lemma parent_cases t l : tree_ok t -> is_Some (lists t !! l) ->
  (l = 0 /\ parentTreeView l t = None) \/
  (l <> 0 /\ exists p, parentTreeView l t = Some p /\ p < l /\ is_Some (lists t !! p)).
Proof.
  intros H [li E]. unfold parentTreeView. rewrite E. cbn. rewrite (ok_nested t H _ _ E).
  destruct (decide (l = 0)) as [->|Hl]; [by left|]. right. split; [done|]. rewrite bool_decide_eq_false_2 by done.
  destruct (ok_container t H _ _ E Hl) as (i & it & Hc & Hi & _ & Hp). cbn. rewrite Hc. cbn. rewrite Hi. cbn.
  exists (parentList it). split; [done|]. split; [done|]. exact (ok_parent t H _ _ Hi).
Qed.

(** With fuel for the number of a list the way up to the root is found. *)
Lemma way_up t : tree_ok t -> forall fuel l, is_Some (lists t !! l) -> l < fuel ->
  exists ls, path_up t l ls /\ last ls = Some 0 /\ treeLevel fuel l t = Some (length ls) /\ rootTreeView fuel l t = Some 0.
Proof.
  intros H. induction fuel as [|n IH]; intros l Hl Hf; [lia|]. cbn [treeLevel rootTreeView].
  destruct (parent_cases t l H Hl) as [[-> E]|(Hz & p & E & Hp & Hpl)]; rewrite E.
  - exists [0]. split_and!; try done. by constructor.
  - destruct (IH p Hpl) as (ls & P & L & T & R); [lia|]. exists (l :: ls). rewrite T, R. split_and!; try done.
    + by econstructor.
    + destruct ls; [done|]. exact L.
Qed.

Lemma root_exists t : tree_ok t -> forall l, is_Some (lists t !! l) -> is_Some (lists t !! 0).
Proof.
  intros H l. induction (lt_wf l) as [l _ IH]. intros Hl.
  destruct (parent_cases t l H Hl) as [[-> _]|(_ & p & _ & Hp & Hpl)]; [done|by apply (IH p)].
Qed.

(** ** Selection *)

Lemma parent_selection x k l t : parentTreeView l (set_lists (alter (put_selection x) k (lists t)) t) = parentTreeView l t.
Proof.
  unfold parentTreeView. cbn [lists set_lists items]. destruct (decide (k = l)) as [->|Hk].
  - rewrite lookup_alter_eq. by destruct (lists t !! l).
  - by rewrite lookup_alter_ne.
Qed.

Lemma selection_selection x k l t :
  selection_of l (set_lists (alter (put_selection x) k (lists t)) t) =
    if decide (k = l) then (if lists t !! l then x else None) else selection_of l t.
Proof.
  unfold selection_of. cbn [lists set_lists]. case_decide as Hk; [subst|by rewrite lookup_alter_ne].
  rewrite lookup_alter_eq. by destruct (lists t !! l).
Qed.

Lemma put_same (t : tree) l x : selection_of l t = x -> alter (put_selection x) l (lists t) = lists t.
Proof.
  intros Hx. apply map_eq. intros k. destruct (decide (l = k)) as [<-|Hk]; [|by rewrite lookup_alter_ne].
  rewrite lookup_alter_eq. unfold selection_of in Hx. destruct (lists t !! l) as [[? ? ? ? ? s]|]; [|done]. cbn in *. by subst.
Qed.

Lemma put_twice (m : gmap nat tlist) l x y : alter (put_selection x) l (alter (put_selection y) l m) = alter (put_selection x) l m.
Proof.
  apply map_eq. intros k. destruct (decide (l = k)) as [<-|Hk]; [|by rewrite !lookup_alter_ne].
  rewrite !lookup_alter_eq. by destruct (m !! l).
Qed.

Lemma put_other (m : gmap nat tlist) l k x y : l <> k ->
  alter (put_selection x) l (alter (put_selection y) k m) = alter (put_selection y) k (alter (put_selection x) l m).
Proof.
  intros Hlk. apply map_eq. intros j. destruct (decide (l = j)) as [<-|Hj].
  - by rewrite lookup_alter_eq, !lookup_alter_ne, lookup_alter_eq by done.
  - rewrite lookup_alter_ne by done. destruct (decide (k = j)) as [<-|Hk]; [|by rewrite !lookup_alter_ne].
    by rewrite !lookup_alter_eq, lookup_alter_ne by done.
Qed.

(** Whatever list is given the selection, the root has it in the end. *)
Lemma set_selection_root x : forall fuel l t,
  (forall k, is_Some (lists t !! k) -> (k = 0 /\ parentTreeView k t = None) \/
    (k <> 0 /\ exists p, parentTreeView k t = Some p /\ p < k /\ is_Some (lists t !! p))) ->
  is_Some (lists t !! l) -> l < fuel -> (forall k, k <> 0 -> k <= l -> selection_of k t = None) ->
  set_selection fuel l (Some x) t = Some (set_lists (alter (put_selection (Some x)) 0 (lists t)) t).
Proof.
  induction fuel as [|n IH]; intros l t Hup Hl Hf Hn; [lia|]. cbn [set_selection].
  destruct (Hup l Hl) as [[-> E]|(Hz & p & E & Hp & Hpl)].
  - case_decide as Hs; [by rewrite (put_same t 0 (Some x) Hs); destruct t|]. by rewrite parent_selection, E.
  - rewrite (Hn l Hz (le_n l)), decide_False by done. rewrite parent_selection, E.
    set (t1 := set_lists (alter (put_selection (Some x)) l (lists t)) t).
    assert (forall k, is_Some (lists t1 !! k) <-> is_Some (lists t !! k)) as Hdom.
    { intros k. unfold t1. cbn. by rewrite lookup_alter_is_Some. }
    rewrite (IH p t1).
    + unfold t1, set_lists. cbn. rewrite put_other, put_twice by done.
      by rewrite (put_same t l None (Hn l Hz (le_n l))).
    + intros k Hk. rewrite Hdom in Hk. unfold t1. rewrite parent_selection. fold t1.
      destruct (Hup k Hk) as [?|(? & q & ? & ? & ?)]; [by left|]. right. split; [done|]. exists q. by rewrite Hdom.
    + by apply Hdom.
    + lia.
    + intros k Hk0 Hk. unfold t1. rewrite selection_selection, decide_False by lia. apply Hn; lia.
Qed.

(** ** Preservation *)

(** A change of the item views that keeps them where they are and forgets no subtree. *)
Definition item_le (a b : titem) : Prop :=
  parentList b = parentList a /\ content b = content a /\ contentIndex b = contentIndex a /\
  (renderSubTree a = true -> renderSubTree b = true).

Lemma item_le_refl a : item_le a a.
Proof. by split_and!. Qed.

Lemma update_le t it : item_le it (_updateSubTreeRendering t it).
Proof. unfold _updateSubTreeRendering. destruct (_ && _) eqn:E; by split_and!. Qed.

Lemma ok_items f t : tree_ok t -> (forall i it, items t !! i = Some it -> item_le it (f i it)) ->
  tree_ok (set_items (map_imap (fun i it => Some (f i it)) (items t)) t).
Proof.
  intros H Hf.
  assert (forall i it, items t !! i = Some it -> map_imap (fun i it => Some (f i it)) (items t) !! i = Some (f i it)) as Hget.
  { intros i it E. by rewrite map_lookup_imap, E. }
  split; cbn [lists items set_items].
  - exact (ok_nested t H).
  - intros l li E Hl. destruct (ok_container t H l li E Hl) as (i & it & Hc & Hi & Hr & Hp).
    destruct (Hf i it Hi) as (Ep & _ & _ & Er). exists i, (f i it). rewrite Ep. split_and!; [done|by apply Hget|by apply Er|done].
  - exact (ok_once t H).
  - intros i it' E. rewrite map_lookup_imap in E. destruct (items t !! i) as [it|] eqn:Ei; [|done]. cbn in E. injection E as <-.
    destruct (Hf i it Ei) as (-> & _). exact (ok_parent t H i it Ei).
  - intros l li k i E Ek. destruct (ok_views t H l li k i E Ek) as (it & Hi & Hp & Hk & Hc).
    destruct (Hf i it Hi) as (Ep & Ec & Ek' & _). exists (f i it). rewrite Ep, Ec, Ek'. split_and!; [by apply Hget|done..].
  - exact (ok_selection t H).
Qed.

Lemma alter_imap (g : titem -> titem) i (m : gmap nat titem) :
  alter g i m = map_imap (fun j it => Some (if decide (i = j) then g it else it)) m.
Proof.
  apply map_eq. intros j. rewrite map_lookup_imap. destruct (decide (i = j)) as [<-|Hj].
  - rewrite lookup_alter_eq. by destruct (m !! i).
  - rewrite lookup_alter_ne by done. by destruct (m !! j).
Qed.

Lemma views_fmap_imap (g : titem -> titem) (m : gmap nat titem) : g <$> m = map_imap (fun _ it => Some (g it)) m.
Proof. apply map_eq. intros j. rewrite map_lookup_imap, lookup_fmap. by destruct (m !! j). Qed.

Lemma ok_data t c e : tree_ok t -> tree_ok (set_children c (set_content_expanded e t)).
Proof. by intros [? ? ? ? ? ?]. Qed.

Lemma ok_tell c t : tree_ok t -> tree_ok (tell_views c t).
Proof.
  intros H. unfold tell_views. rewrite views_fmap_imap. apply (ok_items (fun _ it => if decide (content it = c) then _updateSubTreeRendering t it else it)); [done|].
  intros i it _. case_decide; [apply update_le|apply item_le_refl].
Qed.

Lemma ok_set_expanded i b t : tree_ok t -> tree_ok (set_isExpanded i b t).
Proof.
  intros H. unfold set_isExpanded. rewrite alter_imap.
  apply (ok_items (fun j it => if decide (i = j) then _updateSubTreeRendering t (put_expanded (Some b) it) else it)); [done|].
  intros j it _. case_decide; [|apply item_le_refl]. exact (update_le t (put_expanded (Some b) it)).
Qed.

Lemma ok_select x t : tree_ok t -> tree_ok (set_lists (alter (put_selection x) 0 (lists t)) t).
Proof.
  intros H.
  assert (forall l li', alter (put_selection x) 0 (lists t) !! l = Some li' -> exists li, lists t !! l = Some li /\
    li' = if decide (l = 0) then put_selection x li else li) as Hget.
  { intros l li'. destruct (decide (l = 0)) as [->|Hl].
    - rewrite lookup_alter_eq. destruct (lists t !! 0) as [li|]; [|done]. intros [= <-]. by exists li.
    - rewrite lookup_alter_ne by done. intros E. by exists li'. }
  split; cbn [lists items set_lists].
  - intros l li' (li & E & ->)%Hget. rewrite <- (ok_nested t H l li E). by case_decide.
  - intros l li' (li & E & ->)%Hget Hl. rewrite decide_False by done. exact (ok_container t H l li E Hl).
  - intros l l' a b (li & E & ->)%Hget (li' & E' & ->)%Hget Hl Hl'. rewrite !decide_False by done. by apply (ok_once t H).
  - intros i it Ei. rewrite lookup_alter_is_Some. exact (ok_parent t H i it Ei).
  - intros l li' k i (li & E & ->)%Hget Hk. case_decide; exact (ok_views t H l li k i E Hk).
  - intros l li' (li & E & ->)%Hget Hl. rewrite decide_False by done. exact (ok_selection t H l li E Hl).
Qed.

Lemma fresh_view_above (m : gset nat) x : x ∈ m -> x < fresh_view m.
Proof. intros Hx. unfold fresh_view. apply elem_of_elements, max_list_elem_of_le in Hx. lia. Qed.

(** The item views that [add_list] makes. *)
Lemma new_views l n t cs i it :
  (list_to_map (imap (fun k c => (n + k, new_item l t k c)) cs) : gmap nat titem) !! i = Some it <->
  exists k c, cs !! k = Some c /\ i = n + k /\ it = new_item l t k c.
Proof.
  rewrite <- elem_of_list_to_map.
  - rewrite elem_of_lookup_imap. split; [intros (k & c & [= -> ->] & Hc)|intros (k & c & Hc & -> & ->)]; by exists k, c.
  - rewrite fmap_imap, (imap_ext _ (fun k _ => n + k)) by done. apply NoDup_alt. intros a b x Ha Hb.
    rewrite list_lookup_imap in Ha, Hb. destruct (cs !! a), (cs !! b); cbn in *; simplify_eq. lia.
Qed.

Lemma ok_add t l n nested cont cs allow :
  tree_ok t -> (forall k, is_Some (lists t !! k) -> k < l) -> (forall i, is_Some (items t !! i) -> i < n) ->
  nested = negb (bool_decide (l = 0)) ->
  (l <> 0 -> exists i it, cont = Some i /\ items t !! i = Some it /\ renderSubTree it = true /\
     forall l' li', lists t !! l' = Some li' -> l' <> 0 -> container li' <> Some i) ->
  tree_ok (add_list l n nested cont cs allow t).
Proof.
  intros H Hl Hn Hnest Hcont. unfold add_list. set (its := imap _ cs). set (L := TList nested cont cs its.*1 allow None).
  assert (forall i it, items t !! i = Some it -> ((list_to_map its : gmap nat titem) ∪ items t) !! i = Some it) as Hold.
  { intros i it Hi. apply lookup_union_Some_raw. right. split; [|done].
    destruct (list_to_map its !! i) as [it'|] eqn:E; [|done]. apply new_views in E as (k & c & _ & -> & _).
    specialize (Hn (n + k) (mk_is_Some _ _ Hi)). lia. }
  assert (forall l' li, <[l := L]> (lists t) !! l' = Some li -> (l' = l /\ li = L) \/ (l' <> l /\ lists t !! l' = Some li)) as Hget.
  { intros l' li E. apply lookup_insert_Some in E. naive_solver. }
  assert (forall l' li, lists t !! l' = Some li -> is_Some (<[l := L]> (lists t) !! l')) as Hlist.
  { intros l' li E. rewrite lookup_insert_ne; [by exists li|]. intros ->. specialize (Hl l' (mk_is_Some _ _ E)). lia. }
  split; cbn [lists items set_items set_lists].
  - intros l' li [[-> ->]|[_ E]]%Hget; [exact Hnest|exact (ok_nested t H l' li E)].
  - intros l' li [[-> ->]|[_ E]]%Hget Hz.
    + destruct (Hcont Hz) as (i & it & -> & Hi & Hr & _). exists i, it. split_and!; [done|by apply Hold|done|].
      apply Hl. exact (ok_parent t H i it Hi).
    + destruct (ok_container t H l' li E Hz) as (i & it & Hc & Hi & Hr & Hp). exists i, it. split_and!; [done|by apply Hold|done|done].
  - intros a b la lb [[-> ->]|[_ Ea]]%Hget [[-> ->]|[_ Eb]]%Hget Ha Hb Hab; [done|..].
    + destruct (Hcont Ha) as (i & it & -> & _ & _ & Hno). exfalso. by apply (Hno b lb Eb Hb).
    + destruct (Hcont Hb) as (i & it & -> & _ & _ & Hno). exfalso. by apply (Hno a la Ea Ha).
    + by apply (ok_once t H a b la lb).
  - intros i it E. apply lookup_union_Some_raw in E as [E|[_ E]].
    + apply new_views in E as (k & c & _ & _ & ->). cbn. rewrite lookup_insert_eq. by eexists.
    + destruct (ok_parent t H i it E) as [li Hli]. by apply (Hlist _ li).
  - intros l' li k i [[-> ->]|[_ E]]%Hget Hk.
    + unfold L in Hk. cbn [lviews] in Hk. rewrite list_lookup_fmap in Hk. unfold its in Hk at 1. rewrite list_lookup_imap in Hk.
      destruct (cs !! k) as [c|] eqn:Hc; [|done]. cbn in Hk. injection Hk as <-.
      exists (new_item l t k c). split; [|done]. apply lookup_union_Some_raw. left. apply new_views. by exists k, c.
    + destruct (ok_views t H l' li k i E Hk) as (it & Hi & Hrest). exists it. split; [by apply Hold|done].
  - intros l' li [[-> ->]|[_ E]]%Hget Hz; [done|exact (ok_selection t H l' li E Hz)].
Qed.

Lemma nested_none i t : nested_of i t = None -> (exists it, items t !! i = Some it /\ renderSubTree it = true) ->
  forall l li, lists t !! l = Some li -> container li <> Some i.
Proof.
  unfold nested_of. intros Hn (it & E & Hr) l li El Hc. rewrite E in Hn. cbn in Hn. rewrite Hr in Hn.
  destruct (filter _ _) as [|x xs] eqn:F; [|done].
  assert (l ∈ (filter (fun l => lists t !! l ≫= container = Some i) (elements (dom (lists t))))) as Hin; [|rewrite F in Hin; set_solver].
  apply list_elem_of_filter. rewrite El. split; [done|]. apply elem_of_elements, elem_of_dom. by exists li.
Qed.

Lemma ok_render i t : tree_ok t -> tree_ok (render i t).
Proof.
  intros H. unfold render. destruct (items t !! i) as [it|] eqn:Ei; [|done].
  destruct (renderSubTree it) eqn:Hr; [|done]. cbn. case_bool_decide as Hn; [|done].
  assert (forall k, is_Some (lists t !! k) -> k < fresh_view (dom (lists t))) as Hl by (intros k Hk; by apply fresh_view_above, elem_of_dom).
  apply ok_add; [done|done|intros k Hk; by apply fresh_view_above, elem_of_dom|done|].
  intros _. exists i, it. split_and!; [done..|]. intros l li El _. by apply (nested_none i t Hn (ex_intro _ it (conj Ei Hr)) l li El).
Qed.

Lemma ok_create cs kids exp dflt click allow : tree_ok (create cs kids exp dflt click allow).
Proof.
  apply ok_add; cbn.
  - split; cbn; intros *; rewrite ?lookup_empty; done.
  - intros k [? Hk]. by rewrite lookup_empty in Hk.
  - intros k [? Hk]. by rewrite lookup_empty in Hk.
  - done.
  - done.
Qed.

(** ** What is shown *)

Lemma update_expanded t it : isExpanded (_updateSubTreeRendering t it) t = isExpanded it t /\
  hasChildren (_updateSubTreeRendering t it) t = hasChildren it t /\
  renderSubTree (_updateSubTreeRendering t it) = renderSubTree it || isExpanded it t && hasChildren it t.
Proof.
  unfold _updateSubTreeRendering.
  destruct (renderSubTree it) eqn:Hr, (isExpanded it t) eqn:He, (hasChildren it t) eqn:Hh; cbn; rewrite ?Hr; done.
Qed.

(** How one event changes one item view: its subtree is asked for if that is so now, and
    if it was before. *)
Definition told (t t' : tree) : Prop :=
  forall i it', items t' !! i = Some it' ->
    renderSubTree it' = from_option renderSubTree false (items t !! i) || (isExpanded it' t' && hasChildren it' t').

Lemma told_shown t t' : told t t' -> shown t'.
Proof. intros H i it' Hi He Hh. by rewrite (H i it' Hi), He, Hh, orb_true_r. Qed.

Lemma told_same t t' : shown t -> items t' = items t -> treeItemChildren t' = treeItemChildren t ->
  treeItemIsExpanded t' = treeItemIsExpanded t -> defaultIsExpanded t' = defaultIsExpanded t -> told t t'.
Proof.
  intros H Hi Hc He Hd i it E. rewrite Hi in E. rewrite E. cbn.
  assert (isExpanded it t' = isExpanded it t /\ hasChildren it t' = hasChildren it t) as [-> ->].
  { unfold isExpanded, hasChildren. by rewrite Hc, He, Hd. }
  specialize (H i it E). destruct (renderSubTree it), (isExpanded it t), (hasChildren it t); naive_solver.
Qed.

Lemma told_set_expanded i b t : shown t -> told t (set_isExpanded i b t).
Proof.
  intros H j it' E. unfold set_isExpanded in *. cbn [items set_items] in E.
  change (isExpanded it' _) with (isExpanded it' t). change (hasChildren it' _) with (hasChildren it' t).
  destruct (decide (i = j)) as [<-|Hj].
  - rewrite lookup_alter_eq in E. destruct (items t !! i) as [it|] eqn:Ei; [|done]. cbn in E. injection E as <-.
    destruct (update_expanded t (put_expanded (Some b) it)) as (-> & -> & ->). done.
  - rewrite lookup_alter_ne in E by done. rewrite E. cbn. specialize (H j it' E).
    destruct (renderSubTree it'), (isExpanded it' t), (hasChildren it' t); naive_solver.
Qed.

(** A change that concerns the item [c] only, whose views are told. *)
Lemma told_views c t t1 : shown t -> items t1 = items t -> defaultIsExpanded t1 = defaultIsExpanded t ->
  (forall x, x <> c -> treeItemChildren t1 !! x = treeItemChildren t !! x) ->
  (forall x, x <> c -> x ∈ treeItemIsExpanded t1 <-> x ∈ treeItemIsExpanded t) ->
  told t (tell_views c t1).
Proof.
  intros H Hi Hd Hc He j it' E. unfold tell_views in *. cbn [items set_items] in E.
  change (isExpanded it' _) with (isExpanded it' t1). change (hasChildren it' _) with (hasChildren it' t1).
  rewrite lookup_fmap, Hi in E. destruct (items t !! j) as [it|] eqn:Ej; [|done]. cbn in E |- *. injection E as <-.
  destruct (decide (content it = c)) as [Hx|Hx].
  - destruct (update_expanded t1 it) as (-> & -> & ->). done.
  - assert (isExpanded it t1 = isExpanded it t /\ hasChildren it t1 = hasChildren it t) as [-> ->].
    { unfold isExpanded, hasChildren. rewrite Hd, (Hc _ Hx). by rewrite (bool_decide_ext _ _ (He _ Hx)). }
    specialize (H j it Ej). destruct (renderSubTree it), (isExpanded it t), (hasChildren it t); naive_solver.
Qed.

Lemma told_render i t : shown t -> told t (render i t).
Proof.
  intros H. unfold render.
  assert (told t t) as Hsame by (by apply told_same).
  destruct (items t !! i) as [it|]; [|done]. destruct (_ && _); [|done]. unfold add_list. intros j it' E.
  cbn [items set_items] in E. change (isExpanded it' _) with (isExpanded it' t). change (hasChildren it' _) with (hasChildren it' t).
  apply lookup_union_Some_raw in E as [E|[_ E]]; [|by apply Hsame].
  apply new_views in E as (k & c & _ & -> & ->).
  assert (items t !! (fresh_view (dom (items t)) + k) = None) as ->.
  { apply not_elem_of_dom. intros Hin%fresh_view_above. lia. }
  unfold new_item. cbn. by rewrite andb_comm.
Qed.

(** ** Steps *)

Lemma press_root fuel l k t : tree_ok t -> l < fuel ->
  exists t' b, selectIndex fuel l k t = Some (t', b) /\
    (t' = t \/ exists x, t' = set_lists (alter (put_selection x) 0 (lists t)) t).
Proof.
  intros H Hf. unfold selectIndex. destruct (lists t !! l) as [li|] eqn:El; [|by exists t, false; auto].
  destruct (lviews li !! k) as [i|] eqn:Ek; cbn; [|by exists t, false; auto].
  destruct (ok_views t H l li k i El Ek) as (it & Hi & _ & _ & Hc). rewrite Hi.
  destruct (_ && _); [|by exists t, false; auto]. rewrite Hc, set_selection_root.
  - eexists _, true. split; [done|]. right. by eexists.
  - intros j Hj. by apply parent_cases.
  - by eexists.
  - done.
  - intros j Hj _. unfold selection_of. destruct (lists t !! j) as [lj|] eqn:Ej; [|done]. exact (ok_selection t H j lj Ej Hj).
Qed.

Lemma tree_step ev t : tree_ok t -> exists t', step ev t = Some t' /\ tree_ok t' /\
  (volatileNotifies = true -> shown t -> told t t').
Proof.
  intros H. destruct ev as [i|l k|i|i b|c b|c kk]; cbn [step].
  - eexists. split; [done|]. split; [by apply ok_render|]. intros _. apply told_render.
  - destruct (press_root (S l) l k t H) as (t' & b & -> & Ht); [lia|]. exists t'. split; [done|].
    destruct Ht as [->|[x ->]]; (split; [done || by apply ok_select|]); intros _ Hs; by apply told_same.
  - unfold mouseUp. eexists. split; [done|]. destruct (clickTogglesIsExpanded t), (items t !! i);
      (split; [done || by apply ok_set_expanded|]); intros _ Hs; (by apply told_set_expanded) || by apply told_same.
  - eexists. split; [done|]. split; [by apply ok_set_expanded|]. intros _. apply told_set_expanded.
  - eexists. split; [done|]. unfold set_item_expanded. split; [by apply ok_tell; destruct H|]. intros _ Hs.
    apply told_views; [done..|]. intros x Hx. cbn. destruct b; set_solver.
  - eexists. split; [done|]. unfold set_item_children. split.
    + destruct volatileNotifies; [apply ok_tell|]; by destruct H.
    + intros -> Hs. apply told_views; [done..| |done]. intros x Hx. cbn. destruct kk; by rewrite ?lookup_insert_ne, ?lookup_delete_ne.
Qed.

Fixpoint run (evs : list event) (t : tree) : option tree :=
  match evs with
  | [] => Some t
  | ev :: evs' => t' ← step ev t; run evs' t'
  end.

Lemma run_ok_shown evs : forall t, tree_ok t -> shown t -> exists t', run evs t = Some t' /\ tree_ok t' /\
  (volatileNotifies = true -> shown t').
Proof.
  induction evs as [|ev evs IH]; intros t H Hs; [by exists t|]. cbn [run].
  destruct (tree_step ev t H) as (t1 & -> & H1 & Ht). destruct (decide (volatileNotifies = true)) as [Hv|Hv].
  - apply (IH t1 H1), (told_shown t), Ht; done.
  - clear IH Ht Hs. cbn. assert (exists t', run evs t1 = Some t' /\ tree_ok t') as (t' & E & Ht'); [|by exists t'].
    clear H t. revert t1 H1. induction evs as [|e evs IH]; intros t1 H1; [by exists t1|]. cbn [run].
    destruct (tree_step e t1 H1) as (t2 & -> & H2 & _). by apply IH.
Qed.

Lemma create_tree_shown cs kids exp dflt click allow : shown (create cs kids exp dflt click allow).
Proof.
  intros i it E. unfold create, add_list in *. cbn [items set_items] in E.
  apply lookup_union_Some_raw in E as [E|[_ E]]; [|by rewrite lookup_empty in E].
  apply new_views in E as (k & c & _ & _ & ->). intros He Hh. unfold new_item. cbn.
  change (isExpanded (new_item 0 ?t0 k c) _) with (isExpanded (TItem 0 c k None false) t0) in He.
  by apply andb_true_intro.
Qed.

(** ** Properties *)


(** A subtree is asked for exactly when its item is expanded and has children, and is
    never given up: after each event it has been asked for if it had been before, or if
    these two hold now. *)
Theorem subtree_is_lazy ev t i it :
  volatileNotifies = true -> tree_ok t -> shown t ->
  exists t', step ev t = Some t' /\
    forall it', items t !! i = Some it -> items t' !! i = Some it' ->
      renderSubTree it' = renderSubTree it || (isExpanded it' t' && hasChildren it' t').
Proof.
  intros Hv H Hs. destruct (tree_step ev t H) as (t' & E & _ & Ht). exists t'. split; [done|].
  intros it' Hi Hi'. rewrite (Ht Hv Hs i it' Hi'), Hi. done.
Qed.

(** A press on an item of any list of the tree makes it the selection of the root, and
    the item views that are marked, anywhere in the tree, are those of this item. *)
Theorem press_selects_item l li k i it t :
  tree_ok t -> lists t !! l = Some li -> lviews li !! k = Some i -> items t !! i = Some it ->
  allowSelection li = true -> selectable (content it) = true ->
  exists t', step (Press l k) t = Some t' /\ tree_ok t' /\ selection_of 0 t' = Some (content it) /\
    forall j jt, items t' !! j = Some jt -> is_selected j t' = bool_decide (content jt = content it).
Proof.
  intros H El Ek Ei Ha Hsel. cbn [step]. remember (S l) as fuel eqn:Hf. unfold selectIndex. rewrite El. cbn. rewrite Ek. cbn. rewrite Ei, Ha, Hsel. cbn.
  destruct (ok_views t H l li k i El Ek) as (it' & Ei' & _ & _ & ->). rewrite Ei in Ei'. injection Ei' as <-.
  rewrite set_selection_root.
  2: { intros j Hj. by apply parent_cases. } 2: { by eexists. } 2: lia.
  2: { intros j Hj _. unfold selection_of. destruct (lists t !! j) as [lj|] eqn:Ej; [|done]. exact (ok_selection t H j lj Ej Hj). }
  cbn. eexists. split; [done|]. split; [by apply ok_select|].
  set (t' := set_lists _ t). assert (selection_of 0 t' = Some (content it)) as Hroot.
  { unfold t'. rewrite selection_selection, decide_True by done.
    destruct (way_up t H (S l) l) as (_ & _ & _ & _ & R); [by eexists|lia|].
    assert (is_Some (lists t !! 0)) as [r ->]; [|done]. exact (root_exists t H l (mk_is_Some _ _ El)). }
  split; [done|]. intros j jt Ej. unfold is_selected. rewrite Ej.
  assert (tree_ok t') as H' by (by apply ok_select).
  destruct (way_up t' H' (S (parentList jt)) (parentList jt)) as (_ & _ & _ & _ & ->); [exact (ok_parent t' H' j jt Ej)|lia|].
  rewrite Hroot. apply bool_decide_ext. split; congruence.
Qed.
End tree.

(** ** Witnesses and departures *)

(** Items 1 and 2; item 1 has the children 3 and 4, item 3 the child 5. *)
Definition ex_kids : gmap nat (list nat) := {[1 := [3; 4]; 3 := [5]]}.
Definition ex_start : tree := create [1; 2] ex_kids ∅ false true true.
Definition any_item (c : nat) : bool := true.

(** Opened down to item 5, which is in list 2. *)
Definition ex_opened : tree :=
  default ex_start (run any_item true [Release 0; Render 0; SetIsExpanded 2 true; Render 2] ex_start).

Lemma ex_opened_ok : tree_ok ex_opened /\ shown ex_opened.
Proof.
  destruct (run_ok_shown any_item true [Release 0; Render 0; SetIsExpanded 2 true; Render 2] ex_start
    (ok_create any_item _ _ _ _ _ _) (create_tree_shown _ _ _ _ _ _)) as (t & E & H & Hs).
  unfold ex_opened. rewrite E. exact (conj H (Hs eq_refl)).
Qed.

Definition ex_list2 : tlist := TList true (Some 2) [5] [4] true None.
Definition ex_view4 : titem := TItem 2 5 0 None false.

(** A press on item 5, two lists below the root. *)
Lemma press_selects_item_witness :
  exists t', step any_item true (Press 2 0) ex_opened = Some t' /\ selection_of 0 t' = Some 5 /\
    is_selected 4 t' = true /\ is_selected 0 t' = false.
Proof.
  destruct (press_selects_item any_item true 2 ex_list2 0 4 ex_view4 ex_opened (proj1 ex_opened_ok))
    as (t' & E & _ & Hr & Hm); [vm_compute; reflexivity..|].
  exists t'. split; [exact E|]. split; [exact Hr|]. vm_compute in E. injection E as <-. split; vm_compute; reflexivity.
Defined.

(** Closing item 1 keeps the view of its children. *)
Lemma subtree_is_lazy_witness :
  exists t', step any_item true (Release 0) ex_opened = Some t' /\
    exists it', items t' !! 0 = Some it' /\ isExpanded it' t' = false /\ renderSubTree it' = true.
Proof.
  destruct (subtree_is_lazy any_item true (Release 0) ex_opened 0 (TItem 0 1 0 (Some true) true) eq_refl
    (proj1 ex_opened_ok) (proj2 ex_opened_ok)) as (t' & E & H).
  exists t'. split; [exact E|]. vm_compute in E. injection E as <-.
  eexists. split; [vm_compute; reflexivity|]. split; [vm_compute; reflexivity|].
  rewrite (H (TItem 0 1 0 (Some false) true)); vm_compute; reflexivity.
Defined.

(** Nobody is told of the children that an expanded item gets, since [hasChildren] is
    volatile: its subtree is not shown. *)
Lemma new_children_not_shown :
  (fun t => (fun it => (isExpanded it t, hasChildren it t, renderSubTree it)) <$> items t !! 1) <$>
    run any_item false [SetIsExpanded 1 true; SetItemChildren 2 (Some [6])] ex_start = Some (Some (true, true, false)).
Proof. vm_compute. reflexivity. Qed.
