(* ===== verification/Panel.v ===== *)
(** * Panels, popovers and the sizes of menus
    ([views/panel.js], [views/popover.js], [mixins/menu_view_support.js])

    A panel is shown on top of everything else, relative to an anchor element, modal or
    not; it can be moved by its title and resized, and its position can be remembered.
    The panels share a counter for the z-index, the stack of key responders and the
    stored positions.

    A number of pixels that may be missing ([undefined], or [NaN] once calculated with) is
    an option: arithmetic with a missing number is missing, comparisons with it are false.
    The positions of a layout are counted in half pixels, since the code halves differences
    of widths.  Sizes of the window and of elements are arguments.  The title view of a
    panel and its resize thumb are reduced to their state charts. *)

From S2P Require Import Prelude.
From stdpp Require Import gmap.
Open Scope string_scope.
Open Scope list_scope.
Open Scope flame_scope.
Open Scope Z_scope.

(** ** Numbers that may be missing *)

Definition num : Type := option Z.
Definition nadd (a b : num) : num := x ← a; y ← b; Some (x + y).
Definition nsub (a b : num) : num := x ← a; y ← b; Some (x - y).
Definition nlt (a b : num) : bool := match a, b with Some x, Some y => x <? y | _, _ => false end.
Definition double (a : num) : num := x ← a; Some (2 * x).
Definition ntruthy (a : num) : bool := match a with Some x => negb (x =? 0) | None => false end.

(** ** Positions *)

Definition POSITION_BELOW : Z := 1.
Definition POSITION_RIGHT : Z := 2.
Definition POSITION_LEFT : Z := 4.
Definition POSITION_ABOVE : Z := 8.
Definition POSITION_MIDDLE : Z := 16.

(** [position & flags] as a condition. *)
Definition has (p flags : Z) : bool := negb (Z.land p flags =? 0).

Record layout := Layout {
  top : num;                (* half pixels *)
  left : num;               (* half pixels *)
  width : num;
  height : num;
  centerX : num;
  centerY : num;
  zIndex : num;
  movedX : bool;
  movedY : bool
}.

Definition set_top x l := Layout x (left l) (width l) (height l) (centerX l) (centerY l) (zIndex l) (movedX l) (movedY l).
Definition set_left x l := Layout (top l) x (width l) (height l) (centerX l) (centerY l) (zIndex l) (movedX l) (movedY l).
Definition set_width x l := Layout (top l) (left l) x (height l) (centerX l) (centerY l) (zIndex l) (movedX l) (movedY l).
Definition set_height x l := Layout (top l) (left l) (width l) x (centerX l) (centerY l) (zIndex l) (movedX l) (movedY l).
Definition set_zIndex x l := Layout (top l) (left l) (width l) (height l) (centerX l) (centerY l) x (movedX l) (movedY l).
Definition set_movedX x l := Layout (top l) (left l) (width l) (height l) (centerX l) (centerY l) (zIndex l) x (movedY l).
Definition set_movedY x l := Layout (top l) (left l) (width l) (height l) (centerX l) (centerY l) (zIndex l) (movedX l) x.
(** A remembered position replaces the centering. *)
Definition set_position (t x : num) l := Layout t x (width l) (height l) None None (zIndex l) (movedX l) (movedY l).

(** The anchor element: its offset and its dimensions. *)
Record anchor := Anchor { offsetTop : Z; offsetLeft : Z; dimWidth : Z; dimHeight : Z }.

Section Geometry.
Context (windowWidth windowHeight : Z).

(** The height taken from the first child view when the panel has none. *)
Definition default_height (childHeight : num) (l : layout) : layout :=
  if ntruthy childHeight && negb (ntruthy (height l)) then set_height childHeight l else l.

(** Beside the anchor, centered on it with [POSITION_MIDDLE]. *)
Definition place (a : anchor) (position : Z) (l : layout) : layout :=
  if has position (Z.lor POSITION_BELOW POSITION_ABOVE) then
    let t := nadd (Some (2 * offsetTop a)) (if has position POSITION_BELOW then Some (2 * dimHeight a) else nsub (Some 0) (double (height l))) in
    let x := Some (2 * offsetLeft a) in
    set_left (if has position POSITION_MIDDLE then nadd (nsub x (width l)) (Some (dimWidth a)) else x) (set_top t l)
  else if has position (Z.lor POSITION_RIGHT POSITION_LEFT) then
    let x := nadd (Some (2 * offsetLeft a)) (if has position POSITION_RIGHT then Some (2 * dimWidth a) else nsub (Some 0) (double (width l))) in
    let t := Some (2 * offsetTop a) in
    set_top (if has position POSITION_MIDDLE then nadd (nsub t (height l)) (Some (dimHeight a)) else t) (set_left x l)
  else l.

Definition fit_x (l : layout) : layout :=
  if nlt (Some (2 * (windowWidth - 10))) (nadd (left l) (double (width l)))
  then set_movedX true (set_left (nsub (Some (2 * (windowWidth - 10))) (double (width l))) l)
  else l.

Definition fit_y (a : anchor) (position : Z) (l : layout) : layout :=
  if (has position POSITION_BELOW && nlt (Some (2 * (windowHeight - 10))) (nadd (top l) (double (height l)))
        && negb (nlt (nsub (Some (offsetTop a)) (height l)) (Some 0))
        && bool_decide (is_Some (height l))) ||
     (has position POSITION_ABOVE && nlt (top l) (Some 0))
  then set_movedY true l
  else if nlt (top l) (Some 0) then set_top (Some 20) l else l.

(** [_layoutRelativeTo] of a panel. *)
Definition _layoutRelativeTo (a : anchor) (position : Z) (childHeight : num) (l : layout) : layout :=
  let position := if position =? 0 then POSITION_BELOW else position in
  fit_y a position (fit_x (place a position (default_height childHeight l))).

(** [_layoutRelativeTo] of a popover: where it did not fit, the other side is tried; then
    it makes room for its arrow.  With the layout comes the position. *)
Definition flip (position : Z) (l : layout) : Z :=
  let p1 := if movedX l && has position (Z.lor POSITION_LEFT POSITION_RIGHT) then Z.lxor position (Z.lor POSITION_LEFT POSITION_RIGHT) else position in
  if movedY l && has p1 (Z.lor POSITION_ABOVE POSITION_BELOW) then Z.lxor p1 (Z.lor POSITION_ABOVE POSITION_BELOW) else p1.

Definition arrow_room (position : Z) (l : layout) : layout :=
  if has position POSITION_ABOVE then set_top (nsub (top l) (Some 30)) l
  else if has position POSITION_BELOW then set_top (nadd (top l) (Some 30)) l
  else if has position POSITION_LEFT then set_left (nsub (left l) (Some 30)) l
  else if has position POSITION_RIGHT then set_left (nadd (left l) (Some 30)) l
  else l.

Inductive arrow := ArrowDown | ArrowUp | ArrowRight | ArrowLeft.
Definition arrow_image (position : Z) : option arrow :=
  if has position POSITION_ABOVE then Some ArrowDown
  else if has position POSITION_BELOW then Some ArrowUp
  else if has position POSITION_LEFT then Some ArrowRight
  else if has position POSITION_RIGHT then Some ArrowLeft
  else None.

Definition popover_layoutRelativeTo (a : anchor) (position : Z) (childHeight : num) (l : layout) : layout * Z :=
  let l1 := _layoutRelativeTo a position childHeight l in
  let '(l2, p2) :=
    if movedX l1 || movedY l1 then
      let p := flip position l1 in (_layoutRelativeTo a p childHeight l1, p)
    else (l1, position) in
  (arrow_room p2 l2, p2).

(** [popup] of a popover asks for the middle of the anchor. *)
Definition popover_position (position : Z) : Z := Z.lor position POSITION_MIDDLE.

(** ** The size of a menu *)

Record menu_size := MenuSize { menu_layout : layout; needScrolling : bool }.

Section MenuSize.
Context (menuMargin itemHeight : Z) (minWidth : num) (isSubMenu : bool).
(** The measured width of the titles; none without items. *)
Context (calculated : nat -> num).

Definition paddingTop : Z := 5.
Definition paddingBottom : Z := 5.
Definition borderWidth : Z := 1.

Definition _updateMenuSize (anchorTop anchorHeight : Z) (items : nat) (l : layout) : menu_size :=
  let totalPadding := paddingTop + paddingBottom in
  let menuOuterHeight := Z.of_nat items * itemHeight + totalPadding + 2 * borderWidth in
  let wh := windowHeight in
  let spaceDownwards := wh - anchorTop + (if isSubMenu then borderWidth + paddingTop else - anchorHeight) in
  let '(l1, h, scroll) :=
    if menuOuterHeight + menuMargin * 2 <=? wh then
      if isSubMenu && (menuOuterHeight + menuMargin <=? spaceDownwards) then
        (set_top (Some (2 * (anchorTop - (borderWidth + paddingTop)))) l, menuOuterHeight, false)
      else if spaceDownwards <? menuOuterHeight + menuMargin then
        (set_top (Some (2 * (wh - (menuOuterHeight + menuMargin)))) l, menuOuterHeight, false)
      else (l, menuOuterHeight, false)
    else (set_top (Some (2 * menuMargin)) l, wh - 2 * menuMargin, true) in
  let l2 := set_height (Some h) l1 in
  let l3 := if ntruthy (width l2) then l2
            else set_width (x ← calculated items; Some (Z.max (default 0 minWidth) x)) l2 in
  MenuSize l3 scroll.
End MenuSize.
End Geometry.

(** ** Panels *)

(** What is set when a panel is defined. *)
Record config := Config {
  isModal : bool;
  acceptsKeyResponder : bool;
  destroyOnClose : bool;
  allowMoving : bool;
  isResizable : bool;
  allowClosingByClickingOutside : bool;
  allowClosingByCancelButton : bool;
  layoutPersistenceKey : option string;
  minW : Z;
  minH : Z
}.

(** The title view while it is moving, and the thumb while it is resizing. *)
Record moving := Moving { _pageX : Z; _pageY : Z; _panelX : Z; _panelY : Z; windowW : Z; windowH : Z; elementWidth : Z; elementHeight : Z }.
Record resizing := Resizing { r_pageX : Z; r_pageY : Z; _startW : Z; _startH : Z }.

Record panel := Panel {
  conf : config;
  isShown : bool;
  isDestroyed : bool;
  p_layout : layout;
  modalPane : option Z;                 (* the z-index of the modal pane that is shown *)
  p_moving : option moving;             (* in the state [moving] *)
  newXY : option (Z * Z);               (* [newX] and [newY] of that state *)
  p_resizing : option resizing;
  cssPosition : option (Z * Z);         (* left and top set by moving *)
  cssSize : option (Z * Z)              (* width and height set by resizing *)
}.

Definition set_open b d p := Panel (conf p) b d (p_layout p) (modalPane p) (p_moving p) (newXY p) (p_resizing p) (cssPosition p) (cssSize p).
Definition set_layout x p := Panel (conf p) (isShown p) (isDestroyed p) x (modalPane p) (p_moving p) (newXY p) (p_resizing p) (cssPosition p) (cssSize p).
Definition set_pane x p := Panel (conf p) (isShown p) (isDestroyed p) (p_layout p) x (p_moving p) (newXY p) (p_resizing p) (cssPosition p) (cssSize p).
Definition set_moving x p := Panel (conf p) (isShown p) (isDestroyed p) (p_layout p) (modalPane p) x (newXY p) (p_resizing p) (cssPosition p) (cssSize p).
Definition set_moved x p := Panel (conf p) (isShown p) (isDestroyed p) (p_layout p) (modalPane p) (p_moving p) (Some x) (p_resizing p) (Some x) (cssSize p).
Definition set_resizing x p := Panel (conf p) (isShown p) (isDestroyed p) (p_layout p) (modalPane p) (p_moving p) (newXY p) x (cssPosition p) (cssSize p).
Definition set_size x p := Panel (conf p) (isShown p) (isDestroyed p) (p_layout p) (modalPane p) (p_moving p) (newXY p) (p_resizing p) (cssPosition p) (Some x).

(** What the panels share; the key responders with the current one first. *)
Record desk := Desk {
  panels : gmap nat panel;
  zIndexCounter : Z;
  keyStack : list nat;
  panelLayouts : gmap string (option (Z * Z))     (* stored positions, left and top *)
}.

Definition upd (n : nat) (f : panel -> panel) (d : desk) : desk :=
  Desk (alter f n (panels d)) (zIndexCounter d) (keyStack d) (panelLayouts d).
Definition set_stack (l : list nat) (d : desk) : desk := Desk (panels d) (zIndexCounter d) l (panelLayouts d).
Definition add_zIndex (z : Z) (d : desk) : desk := Desk (panels d) (zIndexCounter d + z) (keyStack d) (panelLayouts d).
Definition store_layout (k : string) (x : option (Z * Z)) (d : desk) : desk :=
  Desk (panels d) (zIndexCounter d) (keyStack d) (<[k := x]> (panelLayouts d)).

(** The stored position of a panel, restored when it is shown. *)
Definition restore (d : desk) (p : panel) : panel :=
  match k ← layoutPersistenceKey (conf p); panelLayouts d !! k with
  | Some pos => set_layout (set_position (double (snd <$> pos)) (double (fst <$> pos)) (p_layout p)) p
  | None => p
  end.

(** [relative] is [_layoutRelativeTo] with the anchor given, if any. *)
Definition popup (relative : option (layout -> layout)) (n : nat) (d : desk) : outcome desk :=
  do! p <- or_throw (panels d !! n) TypeError;
  if isShown p then Ok d
  else if isDestroyed p then Throw "calling append on a destroyed view"
  else
    let p1 := if isModal (conf p) then set_pane (Some (zIndexCounter d)) p else p in
    let l1 := match relative with Some f => f (p_layout p1) | None => p_layout p1 end in
    let p2 := set_layout (set_zIndex (Some (zIndexCounter d + 10)) l1) p1 in
    let p3 := restore d (set_open true false p2) in
    let d1 := add_zIndex 100 (upd n (fun _ => p3) d) in
    Ok (if acceptsKeyResponder (conf p) then set_stack (n :: keyStack d1) d1 else d1).

Definition close (n : nat) (d : desk) : outcome desk :=
  do! p <- or_throw (panels d !! n) TypeError;
  if isDestroyed p then Ok d
  else if isShown p then
    let d1 := upd n (fun p => set_open false (destroyOnClose (conf p)) (set_pane None p)) d in
    let d2 := if acceptsKeyResponder (conf p) then set_stack (tail (keyStack d1)) d1 else d1 in
    Ok (add_zIndex (-100) d2)
  else Ok d.

(** A click or touch on the modal pane, and the escape key. *)
Definition pane_mouseDown (n : nat) (d : desk) : outcome desk :=
  do! p <- or_throw (panels d !! n) TypeError;
  if allowClosingByClickingOutside (conf p) then close n d else Ok d.
Definition cancel (n : nat) (d : desk) : outcome desk :=
  do! p <- or_throw (panels d !! n) TypeError;
  if allowClosingByCancelButton (conf p) then close n d else Ok d.

(** *** Moving *)

(** [mouseDown] on the title: where the mouse and the panel are, and the sizes. *)
Definition title_mouseDown (m : moving) (n : nat) (d : desk) : desk :=
  match panels d !! n with
  | Some p => if allowMoving (conf p) && bool_decide (p_moving p = None) then upd n (set_moving (Some m)) d else d
  | None => d
  end.

Definition constrain (x windowSize elementSize : Z) : Z := Z.max 5 (Z.min x (windowSize - elementSize - 5)).

Definition title_mouseMove (pageX pageY : Z) (n : nat) (d : desk) : desk :=
  match p ← panels d !! n; p_moving p with
  | Some m =>
      let newX := _panelX m + (pageX - _pageX m) in
      let newY := _panelY m + (pageY - _pageY m) in
      upd n (set_moved (constrain newX (windowW m) (elementWidth m), constrain newY (windowH m) (elementHeight m))) d
  | None => d
  end.

(** Leaving the state [moving] stores the position. *)
Definition title_mouseUp (n : nat) (d : desk) : desk :=
  match panels d !! n with
  | Some p =>
      match p_moving p with
      | Some _ =>
          let d1 := match layoutPersistenceKey (conf p) with Some k => store_layout k (newXY p) d | None => d end in
          upd n (set_moving None) d1
      | None => d
      end
  | None => d
  end.

(** *** Resizing *)

Definition thumb_mouseDown (r : resizing) (n : nat) (d : desk) : desk :=
  match panels d !! n with
  | Some p => if isResizable (conf p) && bool_decide (p_resizing p = None) then upd n (set_resizing (Some r)) d else d
  | None => d
  end.

Definition thumb_mouseMove (pageX pageY : Z) (n : nat) (d : desk) : desk :=
  match p ← panels d !! n; r ← p_resizing p; Some (p, r) with
  | Some (p, r) =>
      let newW := _startW r + (pageX - r_pageX r) in
      let newH := _startH r + (pageY - r_pageY r) in
      upd n (set_size (Z.max (minW (conf p)) newW, Z.max (minH (conf p)) newH)) d
  | None => d
  end.

Definition thumb_mouseUp (n : nat) (d : desk) : desk := upd n (set_resizing None) d.

(** ** What holds of positions *)

(** The tests of positions that are known. *)
Ltac decide_flags :=
  repeat match goal with
  | |- context [has ?p ?q] => let v := eval vm_compute in (has p q) in change (has p q) with v
  | |- context [bool_decide (?p = ?q :> Z)] => let v := eval vm_compute in (bool_decide (p = q)) in change (bool_decide (p = q)) with v
  end.

(** Beside the anchor below it when there is room; else above it when there is room there;
    else below it all the same. *)
Definition below_top (a : anchor) (h : Z) (H : Z) : Z * Z :=
  if offsetTop a + dimHeight a + h <=? H - 10 then (offsetTop a + dimHeight a + 15, POSITION_BELOW)
  else if h <=? offsetTop a then (offsetTop a - h - 15, POSITION_ABOVE)
  else (offsetTop a + dimHeight a + 15, POSITION_BELOW).

Lemma fit_x_spec W l w x : width l = Some w -> left l = Some x ->
  let l' := fit_x W l in
  top l' = top l /\ width l' = width l /\ height l' = height l /\ movedY l' = movedY l /\
  left l' = Some (Z.min x (2 * (W - 10) - 2 * w)) /\ (movedX l = true -> movedX l' = true).
Proof.
  intros Hw Hx. unfold fit_x. rewrite Hx, Hw. cbn. destruct (Z.ltb_spec (2 * (W - 10)) (x + 2 * w)); cbn.
  - split_and!; try done. f_equal. lia.
  - split_and!; try done. rewrite Hx. f_equal. lia.
Qed.

Section Popover.
Context (W H : Z) (a : anchor) (l : layout) (w h : Z).
Context (Hw : width l = Some w) (Hh : height l = Some h).

Lemma has_height l0 : height l0 = Some h -> 0 < h -> default_height None l0 = l0.
Proof. unfold default_height. done. Qed.

(** One positioning, on either side. *)
Lemma relative_below l0 : width l0 = Some w -> height l0 = Some h ->
  let l' := _layoutRelativeTo W H a 17 None l0 in
  top l' = Some (let t := offsetTop a + dimHeight a in
                 if (t + h <=? H - 10) || negb (h <=? offsetTop a) then if t <? 0 then 20 else 2 * t else 2 * t) /\
  width l' = Some w /\ height l' = Some h /\
  left l' = Some (Z.min (2 * offsetLeft a - w + dimWidth a) (2 * (W - 10) - 2 * w)) /\
  (movedY l' = true <-> movedY l0 = true \/ (H - 10 < offsetTop a + dimHeight a + h /\ h <= offsetTop a)).
Proof.
  intros Hw0 Hh0. unfold _layoutRelativeTo. cbn [Z.eqb default_height]. unfold default_height. cbn [ntruthy andb].
  set (l1 := place a 17 l0).
  assert (top l1 = Some (2 * offsetTop a + 2 * dimHeight a) /\ width l1 = Some w /\ height l1 = Some h /\ movedY l1 = movedY l0 /\
    left l1 = Some (2 * offsetLeft a - w + dimWidth a)) as (T1 & T2 & T3 & T4 & T5).
  { unfold l1, place. cbn. rewrite Hw0, Hh0. by split_and!. }
  destruct (fit_x_spec W l1 w _ T2 T5) as (F1 & F2 & F3 & F4 & F5 & _). cbv zeta in *.
  set (l2 := fit_x W l1) in *. clearbody l2. unfold fit_y. change (has 17 POSITION_BELOW) with true. change (has 17 POSITION_ABOVE) with false.
  rewrite F1, T1, F3, T3. cbn [andb orb nadd nsub double mbind option_bind nlt].
  rewrite bool_decide_eq_true_2 by (by eexists). rewrite andb_true_r, orb_false_r.
  destruct (Z.ltb_spec (2 * (H - 10)) (2 * offsetTop a + 2 * dimHeight a + 2 * h));
  destruct (Z.ltb_spec (offsetTop a - h) 0); cbn [andb negb];
  destruct (Z.leb_spec (offsetTop a + dimHeight a + h) (H - 10)); try lia;
  destruct (Z.leb_spec h (offsetTop a)); try lia; cbn [orb negb].
  2: { cbn. rewrite F1, T1, F2, F3, F5. split_and!; [f_equal; lia|done..|]. split; [intros _; right; lia|done]. }
  all: destruct (Z.ltb_spec (2 * offsetTop a + 2 * dimHeight a) 0);
    destruct (Z.ltb_spec (offsetTop a + dimHeight a) 0); try lia; cbn; rewrite ?F1, ?T1, F2, F3, F4, F5, T4;
    (split_and!; [f_equal; lia|done..|]); (split; [by left|intros [?|?]; [done|lia]]).
Qed.

Lemma relative_above l0 : width l0 = Some w -> height l0 = Some h -> h <= offsetTop a ->
  let l' := _layoutRelativeTo W H a 24 None l0 in
  top l' = Some (2 * (offsetTop a - h)) /\
  left l' = Some (Z.min (2 * offsetLeft a - w + dimWidth a) (2 * (W - 10) - 2 * w)).
Proof.
  intros Hw0 Hh0 Hfit. unfold _layoutRelativeTo, default_height. cbn [Z.eqb ntruthy andb].
  set (l1 := place a 24 l0).
  assert (top l1 = Some (2 * offsetTop a + (0 - 2 * h)) /\ width l1 = Some w /\ left l1 = Some (2 * offsetLeft a - w + dimWidth a)) as (T1 & T2 & T5).
  { unfold l1, place. cbn. rewrite Hw0, Hh0. by split_and!. }
  destruct (fit_x_spec W l1 w _ T2 T5) as (F1 & F2 & F3 & F4 & F5 & _). cbv zeta in *.
  set (l2 := fit_x W l1) in *. clearbody l2. unfold fit_y. change (has 24 POSITION_BELOW) with false. change (has 24 POSITION_ABOVE) with true.
  rewrite F1, T1. cbn [andb orb nlt]. destruct (Z.ltb_spec (2 * offsetTop a + (0 - 2 * h)) 0); [lia|].
  rewrite F1, T1, F5. split; [f_equal; lia|done].
Qed.
End Popover.

Lemma below_room p l t x : p = 17 -> top l = Some (2 * t) -> left l = x ->
  top (arrow_room p l) = Some (2 * (t + 15)) /\ p = popover_position POSITION_BELOW /\ left (arrow_room p l) = x /\
  arrow_image p = Some (if POSITION_BELOW =? POSITION_BELOW then ArrowUp else ArrowDown).
Proof.
  intros -> Ht Hx. unfold arrow_room. change (has 17 POSITION_ABOVE) with false. change (has 17 POSITION_BELOW) with true.
  cbn [top left set_top]. rewrite Ht. split_and!; try done. cbn -[Z.mul]. f_equal. lia.
Qed.

(** A popover asked for below its anchor is put below it if it fits into the window
    there, else above it if there is room above, else below it after all; it is centered
    on the anchor as far as the right edge of the window allows; and its arrow is on the
    side of the anchor. *)
Theorem popover_takes_the_side_with_room W H a l w h :
  width l = Some w -> height l = Some h -> movedY l = false -> 0 <= offsetTop a + dimHeight a ->
  let '(l', p) := popover_layoutRelativeTo W H a (popover_position POSITION_BELOW) None l in
  let '(t, side) := below_top a h H in
  top l' = Some (2 * t) /\ p = popover_position side /\
  left l' = Some (Z.min (2 * offsetLeft a - w + dimWidth a) (2 * (W - 10) - 2 * w)) /\
  arrow_image p = Some (if side =? POSITION_BELOW then ArrowUp else ArrowDown).
Proof.
  intros Hw Hh Hm Hoff. unfold popover_layoutRelativeTo. change (popover_position POSITION_BELOW) with 17.
  destruct (relative_below W H a w h l Hw Hh) as (R1 & R2 & R3 & R4 & R5). cbv zeta in *.
  set (l1 := _layoutRelativeTo W H a 17 None l) in *.
  assert (Hx : has 17 (Z.lor POSITION_LEFT POSITION_RIGHT) = false) by done.
  assert (Hy : has 17 (Z.lor POSITION_ABOVE POSITION_BELOW) = true) by done.
  destruct (relative_below W H a w h l1 R2 R3) as (S1 & S2 & S3 & S4 & S5). cbv zeta in *.
  unfold below_top. destruct (Z.leb_spec (offsetTop a + dimHeight a + h) (H - 10)) as [Hf|Hf].
  - assert (movedY l1 = false) as Hm1.
    { apply not_true_is_false. intros [?|?]%R5; [congruence|lia]. }
    assert (flip 17 l1 = 17) as Efl by (unfold flip; rewrite Hx, andb_false_r, Hm1; done).
    rewrite Hm1, orb_false_r, Efl. cbn [orb] in R1, S1. destruct (Z.ltb_spec (offsetTop a + dimHeight a) 0); [lia|].
    by destruct (movedX l1); apply (below_room 17 _ (offsetTop a + dimHeight a)); rewrite ?S1, ?R1, ?S4, ?R4.
  - destruct (Z.leb_spec h (offsetTop a)) as [Hh'|Hh'].
    + assert (movedY l1 = true) as Hm1 by (apply R5; right; lia).
      assert (flip 17 l1 = 24) as Efl by (unfold flip; rewrite Hx, andb_false_r, Hm1; done).
      rewrite Hm1, orb_true_r, Efl. destruct (relative_above W H a w h l1 R2 R3 Hh') as (A1 & A2). cbv zeta in *.
      unfold arrow_room. change (has 24 POSITION_ABOVE) with true. cbn -[Z.mul _layoutRelativeTo]. rewrite A1, A2. cbn -[Z.mul].
      split_and!; try done. f_equal. lia.
    + assert (movedY l1 = false) as Hm1.
      { apply not_true_is_false. intros [?|?]%R5; [congruence|lia]. }
      assert (flip 17 l1 = 17) as Efl by (unfold flip; rewrite Hx, andb_false_r, Hm1; done).
      rewrite Hm1, orb_false_r, Efl. cbn [orb negb] in R1, S1. destruct (Z.ltb_spec (offsetTop a + dimHeight a) 0); [lia|].
      by destruct (movedX l1); apply (below_room 17 _ (offsetTop a + dimHeight a)); rewrite ?S1, ?R1, ?S4, ?R4.
Qed.

(** ** What holds of the sizes of menus *)

Section Sizes.
Context (wh menuMargin itemHeight : Z) (minWidth : num) (isSubMenu : bool) (calculated : nat -> num) (anchorTop anchorHeight : Z).
Notation size := (_updateMenuSize wh menuMargin itemHeight minWidth isSubMenu calculated anchorTop anchorHeight).

Definition outer (n : nat) : Z := Z.of_nat n * itemHeight + 12.

Lemma size_step n l t : 0 <= menuMargin -> top l = Some t -> (isSubMenu = false -> t <= 2 * Z.max (anchorTop + anchorHeight) menuMargin) ->
  exists t', top (menu_layout (size n l)) = Some t' /\ (isSubMenu = false -> t' <= 2 * Z.max (anchorTop + anchorHeight) menuMargin) /\
    height (menu_layout (size n l)) = Some (Z.min (outer n) (wh - 2 * menuMargin)) /\
    t' + 2 * Z.min (outer n) (wh - 2 * menuMargin) <= 2 * (wh - menuMargin) /\
    (needScrolling (size n l) = true <-> wh - 2 * menuMargin < outer n).
Proof.
  intros Hm Ht Hle. unfold _updateMenuSize, outer, paddingTop, paddingBottom, borderWidth.
  set (o := Z.of_nat n * itemHeight + (5 + 5) + 2 * 1). assert (Z.of_nat n * itemHeight + 12 = o) as -> by (unfold o; lia). clearbody o.
  assert (Hwidth : forall l0 : layout, let l2 := if ntruthy (width l0) then l0 else set_width (x ← calculated n; Some (Z.max (default 0 minWidth) x)) l0 in
    top l2 = top l0 /\ height l2 = height l0) by (intros l0; cbv zeta; by destruct (ntruthy (width l0))).
  destruct (Z.leb_spec (o + menuMargin * 2) wh).
  - destruct isSubMenu; cbn [andb].
    + destruct (Z.leb_spec (o + menuMargin) (wh - anchorTop + (1 + 5))).
      * cbn [menu_layout needScrolling]. destruct (Hwidth (set_height (Some o) (set_top (Some (2 * (anchorTop - (1 + 5)))) l))) as [-> ->]. cbn.
        eexists. split_and!; [done|done|f_equal; lia|lia|split; [done|lia]].
      * rewrite (proj2 (Z.ltb_lt _ _)) by lia. cbn [menu_layout needScrolling].
        destruct (Hwidth (set_height (Some o) (set_top (Some (2 * (wh - (o + menuMargin)))) l))) as [-> ->]. cbn.
        eexists. split_and!; [done|done|f_equal; lia|lia|split; [done|lia]].
    + destruct (Z.ltb_spec (wh - anchorTop + - anchorHeight) (o + menuMargin)); cbn [menu_layout needScrolling].
      * destruct (Hwidth (set_height (Some o) (set_top (Some (2 * (wh - (o + menuMargin)))) l))) as [-> ->]. cbn.
        eexists. split_and!; [done|lia|f_equal; lia|lia|split; [done|lia]].
      * specialize (Hle eq_refl). destruct (Hwidth (set_height (Some o) l)) as [-> ->]. cbn. rewrite Ht.
        eexists. split_and!; [done|lia|f_equal; lia|lia|split; [done|lia]].
  - cbn [menu_layout needScrolling].
    destruct (Hwidth (set_height (Some (wh - 2 * menuMargin)) (set_top (Some (2 * menuMargin)) l))) as [-> ->]. cbn.
    eexists. split_and!; [done|lia|f_equal; lia|lia|split; [lia|done]].
Qed.

Fixpoint sizes (ns : list nat) (l : layout) : layout :=
  match ns with [] => l | n :: ns' => sizes ns' (menu_layout (size n l)) end.
End Sizes.

(** C39. However often the items of a menu change while it is open, its height is that of
    its items but for the margins of the window, it ends above the lower margin, and it
    scrolls exactly when its items do not fit between the margins. *)
Theorem menu_stays_in_window wh menuMargin itemHeight minWidth isSubMenu calculated anchorTop anchorHeight ns n l t0 :
  0 <= menuMargin -> top l = Some t0 -> (isSubMenu = false -> t0 = 2 * (anchorTop + anchorHeight)) ->
  let m := _updateMenuSize wh menuMargin itemHeight minWidth isSubMenu calculated anchorTop anchorHeight n
             (sizes wh menuMargin itemHeight minWidth isSubMenu calculated anchorTop anchorHeight ns l) in
  exists t, top (menu_layout m) = Some t /\
    height (menu_layout m) = Some (Z.min (outer itemHeight n) (wh - 2 * menuMargin)) /\
    t + 2 * Z.min (outer itemHeight n) (wh - 2 * menuMargin) <= 2 * (wh - menuMargin) /\
    (needScrolling m = true <-> wh - 2 * menuMargin < outer itemHeight n).
Proof.
  intros Hm Ht H0. cbv zeta.
  assert (exists t, top (sizes wh menuMargin itemHeight minWidth isSubMenu calculated anchorTop anchorHeight ns l) = Some t /\
    (isSubMenu = false -> t <= 2 * Z.max (anchorTop + anchorHeight) menuMargin)) as (t & Et & Hle).
  { assert (isSubMenu = false -> t0 <= 2 * Z.max (anchorTop + anchorHeight) menuMargin) as Hle by (intros E; specialize (H0 E); lia).
    clear H0. revert l t0 Ht Hle. induction ns as [|k ns IH]; intros l t0 Ht Hle; cbn [sizes]; [by exists t0|].
    destruct (size_step wh menuMargin itemHeight minWidth isSubMenu calculated anchorTop anchorHeight k l t0 Hm Ht Hle) as (t1 & E1 & Hle1 & _).
    by apply (IH _ t1). }
  destruct (size_step wh menuMargin itemHeight minWidth isSubMenu calculated anchorTop anchorHeight n _ t Hm Et Hle) as (t1 & E1 & _ & E2 & E3 & E4).
  by exists t1.
Qed.

(** ** Panels above each other *)

(** The panels that are open, the last opened first, when panels are opened and the last
    one is closed, from a desk without panels. *)
Inductive opened (z0 : Z) (ks0 : list nat) : list nat -> desk -> Prop :=
| opened_none d : zIndexCounter d = z0 -> keyStack d = ks0 -> (forall n p, panels d !! n = Some p -> isShown p = false) -> opened z0 ks0 [] d
| opened_popup l d n p f d' : opened z0 ks0 l d -> panels d !! n = Some p -> isShown p = false -> popup f n d = Ok d' -> opened z0 ks0 (n :: l) d'
| opened_close l d n d' : opened z0 ks0 (n :: l) d -> close n d = Ok d' -> opened z0 ks0 l d'.

(** The z-index of the [k]th panel from below, and of its modal pane. *)
Definition shown_at (z : Z) (p : panel) : Prop :=
  isShown p = true /\ zIndex (p_layout p) = Some (z + 10) /\ (isModal (conf p) = true -> modalPane p = Some z).

Definition responders (d : desk) (l : list nat) : list nat :=
  filter (fun n => match panels d !! n with Some p => acceptsKeyResponder (conf p) | None => false end = true) l.

Record stacked (z0 : Z) (ks0 : list nat) (l : list nat) (d : desk) : Prop := {
  st_counter : zIndexCounter d = z0 + 100 * Z.of_nat (length l);
  st_keys : keyStack d = responders d l ++ ks0;
  st_nodup : NoDup l;
  st_shown : forall i n, l !! i = Some n -> exists p, panels d !! n = Some p /\ isDestroyed p = false /\ shown_at (z0 + 100 * (Z.of_nat (length l) - Z.of_nat i - 1)) p;
  st_other : forall n p, n ∉ l -> panels d !! n = Some p -> isShown p = false
}.

Lemma popup_panel f n d d' p : popup f n d = Ok d' -> panels d !! n = Some p -> isShown p = false ->
  zIndexCounter d' = zIndexCounter d + 100 /\ keyStack d' = (if acceptsKeyResponder (conf p) then n :: keyStack d else keyStack d) /\
  (forall m, m <> n -> panels d' !! m = panels d !! m) /\
  exists p', panels d' !! n = Some p' /\ isDestroyed p' = false /\ conf p' = conf p /\ shown_at (zIndexCounter d) p'.
Proof.
  intros H Hp Hs. unfold popup in H. rewrite Hp in H. cbn [or_throw outcome_bind] in H. rewrite Hs in H.
  destruct (isDestroyed p); [done|]. injection H as <-.
  set (p3 := restore d _).
  assert (isDestroyed p3 = false /\ conf p3 = conf p /\ shown_at (zIndexCounter d) p3) as H3.
  { unfold p3, restore, shown_at. destruct (isModal (conf p)) eqn:Em; cbn; destruct (_ ≫= _); cbn; rewrite ?Em; by split_and!. }
  clearbody p3. destruct (acceptsKeyResponder (conf p)); cbn; (split_and!; [done..| |]).
  1, 3: intros m Hm; by rewrite lookup_alter_ne.
  all: exists p3; rewrite lookup_alter_eq, Hp; by cbn.
Qed.

Lemma close_panel n d d' p : close n d = Ok d' -> panels d !! n = Some p -> isShown p = true -> isDestroyed p = false ->
  zIndexCounter d' = zIndexCounter d - 100 /\ keyStack d' = (if acceptsKeyResponder (conf p) then tail (keyStack d) else keyStack d) /\
  (forall m, m <> n -> panels d' !! m = panels d !! m) /\
  exists p', panels d' !! n = Some p' /\ isShown p' = false.
Proof.
  intros H Hp Hs Hd. unfold close in H. rewrite Hp in H. cbn [or_throw outcome_bind] in H. rewrite Hs, Hd in H. injection H as <-.
  destruct (acceptsKeyResponder (conf p)); cbn; (split_and!; [lia|done| |]).
  1, 3: intros m Hm; by rewrite lookup_alter_ne.
  all: rewrite lookup_alter_eq, Hp; cbn; by eexists.
Qed.

Lemma responders_ext d d' l : (forall n, n ∈ l -> conf <$> panels d' !! n = conf <$> panels d !! n) -> responders d' l = responders d l.
Proof.
  intros H. unfold responders. induction l as [|n l IH]; [done|].
  assert (E := H n ltac:(set_solver)). rewrite !filter_cons, IH by (intros; apply H; set_solver).
  destruct (panels d' !! n), (panels d !! n); cbn in E; try done. injection E as ->. done.
Qed.

Lemma responders_cons d n l p : panels d !! n = Some p ->
  responders d (n :: l) = if acceptsKeyResponder (conf p) then n :: responders d l else responders d l.
Proof. intros Hp. unfold responders. rewrite filter_cons, Hp. destruct (acceptsKeyResponder (conf p)); by destruct (decide _). Qed.

Lemma opened_stacked z0 ks0 l d : opened z0 ks0 l d -> stacked z0 ks0 l d.
Proof.
  induction 1 as [d Hz Hk Hn|l d n p f d' Ho IH Hp Hs Hpop|l d n d' Ho IH Hc].
  - split; cbn; [lia|done|constructor|done|]. intros n p _. apply Hn.
  - destruct IH as [C K N S O]. destruct (popup_panel f n d d' p Hpop Hp Hs) as (P1 & P2 & P3 & p' & Hp' & Hd' & Hconf & Hat).
    assert (n ∉ l) as Hnl by (intros [i Hi]%list_elem_of_lookup; destruct (S i n Hi) as (q & Hq & _ & (? & _)); congruence).
    split.
    + rewrite P1, C. cbn [length]. lia.
    + rewrite P2, K, (responders_cons d' n l p' Hp'), Hconf.
      rewrite (responders_ext d d' l) by (intros m Hm; rewrite P3; [done|by intros ->]).
      by destruct (acceptsKeyResponder (conf p)).
    + by constructor.
    + intros [|i] m Hi; cbn in Hi.
      * injection Hi as <-. exists p'. split_and!; [done..|]. rewrite C in Hat. cbn [length].
        by replace (z0 + 100 * (Z.of_nat (Datatypes.S (length l)) - Z.of_nat 0 - 1)) with (z0 + 100 * Z.of_nat (length l)) by lia.
      * destruct (S i m Hi) as (q & Hq & Hdq & Hatq). assert (m <> n) by (intros ->; apply Hnl; by eapply list_elem_of_lookup_2).
        exists q. rewrite P3 by done. split_and!; [done..|]. cbn [length].
        by replace (Z.of_nat (Datatypes.S (length l)) - Z.of_nat (Datatypes.S i) - 1) with (Z.of_nat (length l) - Z.of_nat i - 1) by lia.
    + intros m q Hm Hq. rewrite P3 in Hq by set_solver. apply (O m q); [set_solver|done].
  - destruct IH as [C K N S O]. destruct (S 0%nat n eq_refl) as (p & Hp & Hd & Hat).
    destruct (close_panel n d d' p Hc Hp (proj1 Hat) Hd) as (P1 & P2 & P3 & p' & Hp' & Hs').
    apply NoDup_cons in N as [Hnl N].
    split.
    + rewrite P1, C. cbn [length]. lia.
    + rewrite P2, K, (responders_cons d n l p Hp).
      rewrite (responders_ext d d' l) by (intros m Hm; rewrite P3; [done|by intros ->]).
      by destruct (acceptsKeyResponder (conf p)).
    + done.
    + intros i m Hi. destruct (S (Datatypes.S i) m Hi) as (q & Hq & Hdq & Hatq).
      assert (m <> n) by (intros ->; apply Hnl; by eapply list_elem_of_lookup_2).
      exists q. rewrite P3 by done. split_and!; [done..|]. cbn [length] in Hatq.
      by replace (Z.of_nat (Datatypes.S (length l)) - Z.of_nat (Datatypes.S i) - 1) with (Z.of_nat (length l) - Z.of_nat i - 1) in Hatq by lia.
    + intros m q Hm Hq. destruct (decide (m = n)) as [->|Hne]; [congruence|].
      rewrite P3 in Hq by done. apply (O m q); [set_solver|done].
Qed.

(** When panels are closed in the opposite order of their opening, each open panel and
    its modal pane are above all panels opened before it, the key events go to the last
    panel that takes them, and closing them all brings counter and responders back. *)
Theorem panels_stack z0 ks0 l d :
  opened z0 ks0 l d ->
  (forall i j n m, l !! i = Some n -> l !! j = Some m -> (i < j)%nat ->
     exists p q z, panels d !! n = Some p /\ panels d !! m = Some q /\ isShown p = true /\ isShown q = true /\
       zIndex (p_layout q) = Some z /\ zIndex (p_layout p) = Some (z + 100 * (Z.of_nat j - Z.of_nat i)) /\
       (forall y, isModal (conf p) = true -> modalPane p = Some y -> z < y)) /\
  keyStack d = responders d l ++ ks0 /\ (l = [] -> zIndexCounter d = z0).
Proof.
  intros [C K N S O]%opened_stacked. split_and!; [|done|intros ->; cbn in C; lia].
  intros i j n m Hi Hj Hlt. destruct (S i n Hi) as (p & Hp & _ & Hs & Hz & Hm). destruct (S j m Hj) as (q & Hq & _ & Hs' & Hz' & _).
  exists p, q. eexists. split_and!; [done..| |].
  - rewrite Hz. f_equal. lia.
  - intros y Hy E. rewrite (Hm Hy) in E. injection E as <-. lia.
Qed.

(** ** Moving and resizing *)

Lemma constrain_bounds x W w : w + 10 <= W -> 5 <= constrain x W w <= W - w - 5 /\ (5 <= x <= W - w - 5 -> constrain x W w = x).
Proof. unfold constrain. lia. Qed.

Definition move_all (ms : list (Z * Z)) (n : nat) (d : desk) : desk := foldl (fun d xy => title_mouseMove xy.1 xy.2 n d) d ms.

Lemma mouseMove_panel x y n d p m : panels d !! n = Some p -> p_moving p = Some m ->
  panels (title_mouseMove x y n d) !! n =
    Some (set_moved (constrain (_panelX m + (x - _pageX m)) (windowW m) (elementWidth m), constrain (_panelY m + (y - _pageY m)) (windowH m) (elementHeight m)) p) /\
  panelLayouts (title_mouseMove x y n d) = panelLayouts d.
Proof.
  intros Hp Hm. unfold title_mouseMove. rewrite Hp. cbn [mbind option_bind]. rewrite Hm. cbn. by rewrite lookup_alter_eq, Hp.
Qed.

Lemma move_all_last ms x y n d p m : panels d !! n = Some p -> p_moving p = Some m ->
  exists q, panels (move_all (ms ++ [(x, y)]) n d) !! n = Some q /\ conf q = conf p /\ p_moving q = Some m /\
    newXY q = Some (constrain (_panelX m + (x - _pageX m)) (windowW m) (elementWidth m), constrain (_panelY m + (y - _pageY m)) (windowH m) (elementHeight m)) /\
    cssPosition q = newXY q.
Proof.
  intros Hp Hm. unfold move_all. rewrite foldl_app. cbn [foldl fst snd].
  assert (exists q, panels (foldl (fun d xy => title_mouseMove xy.1 xy.2 n d) d ms) !! n = Some q /\ conf q = conf p /\ p_moving q = Some m) as (q & Hq & Hc & Hm').
  { induction ms as [|[x' y'] ms IH] using rev_ind; [by exists p|]. rewrite foldl_app. cbn [foldl fst snd].
    destruct IH as (q & Hq & Hc & Hm'). destruct (mouseMove_panel x' y' n _ q m Hq Hm') as [E _]. eexists. split; [exact E|]. done. }
  destruct (mouseMove_panel x y n _ q m Hq Hm') as [E _]. eexists. split; [exact E|]. done.
Qed.

(** A panel that is moved by its title follows the mouse as far as the window allows;
    where it was left is remembered under its key, and a panel with that key shown later
    is put at that place, with no centering left. *)
Theorem moved_panel_remembered d n p k m ms x y n' p' d' :
  panels d !! n = Some p -> allowMoving (conf p) = true -> p_moving p = None -> layoutPersistenceKey (conf p) = Some k ->
  elementWidth m + 10 <= windowW m -> elementHeight m + 10 <= windowH m ->
  let d1 := title_mouseUp n (move_all (ms ++ [(x, y)]) n (title_mouseDown m n d)) in
  panels d1 !! n' = Some p' -> isShown p' = false -> layoutPersistenceKey (conf p') = Some k ->
  popup None n' d1 = Ok d' ->
  exists X Y q, panels d' !! n' = Some q /\ left (p_layout q) = Some (2 * X) /\ top (p_layout q) = Some (2 * Y) /\
    centerX (p_layout q) = None /\ centerY (p_layout q) = None /\
    5 <= X <= windowW m - elementWidth m - 5 /\ 5 <= Y <= windowH m - elementHeight m - 5 /\
    (5 <= _panelX m + (x - _pageX m) <= windowW m - elementWidth m - 5 -> X = _panelX m + (x - _pageX m)) /\
    (5 <= _panelY m + (y - _pageY m) <= windowH m - elementHeight m - 5 -> Y = _panelY m + (y - _pageY m)).
Proof.
  intros Hp Ha Hm Hk HW HH d1 Hp' Hs Hk' Hpop.
  set (d0 := title_mouseDown m n d) in *.
  assert (exists q0, panels d0 !! n = Some q0 /\ p_moving q0 = Some m /\ conf q0 = conf p) as (q0 & Hq0 & Hm0 & Hc0).
  { unfold d0, title_mouseDown. rewrite Hp, Ha. rewrite bool_decide_eq_true_2 by done. cbn. rewrite lookup_alter_eq, Hp. by eexists. }
  destruct (move_all_last ms x y n d0 q0 m Hq0 Hm0) as (q1 & Hq1 & Hc1 & Hm1 & Hxy & _).
  assert (panelLayouts d1 !! k = Some (newXY q1)) as Hst.
  { unfold d1, title_mouseUp. rewrite Hq1, Hm1, Hc1, Hc0, Hk. cbn. by rewrite lookup_insert_eq. }
  set (X := constrain (_panelX m + (x - _pageX m)) (windowW m) (elementWidth m)) in *.
  set (Y := constrain (_panelY m + (y - _pageY m)) (windowH m) (elementHeight m)) in *.
  rewrite Hxy in Hst. unfold popup in Hpop. rewrite Hp' in Hpop. cbn [or_throw outcome_bind] in Hpop. rewrite Hs in Hpop.
  destruct (isDestroyed p') eqn:Ed; [done|]. injection Hpop as <-. clearbody d1.
  set (p3 := set_open true false _). assert (conf p3 = conf p') as Hc3 by (unfold p3; by destruct (isModal (conf p'))).
  assert (restore d1 p3 = set_layout (set_position (Some (2 * Y)) (Some (2 * X)) (p_layout p3)) p3) as ->.
  { unfold restore. rewrite Hc3, Hk'. cbn [mbind option_bind]. rewrite Hst. done. }
  exists X, Y. eexists. split; [destruct (acceptsKeyResponder (conf p')); cbn; rewrite lookup_alter_eq, Hp'; cbn; reflexivity|]. cbn -[Z.mul].
  destruct (constrain_bounds (_panelX m + (x - _pageX m)) (windowW m) (elementWidth m) HW) as [B1 B2].
  destruct (constrain_bounds (_panelY m + (y - _pageY m)) (windowH m) (elementHeight m) HH) as [B3 B4].
  fold X in B1, B2. fold Y in B3, B4. clearbody X Y. split_and!; try done; try lia.
Qed.

(** A resized panel never gets smaller than its minimum. *)
Lemma resize_keeps_minimum x y n d p r : panels d !! n = Some p -> p_resizing p = Some r ->
  exists q w h, panels (thumb_mouseMove x y n d) !! n = Some q /\ cssSize q = Some (w, h) /\ minW (conf p) <= w /\ minH (conf p) <= h /\
    (minW (conf p) <= _startW r + (x - r_pageX r) -> w = _startW r + (x - r_pageX r)).
Proof.
  intros Hp Hr. unfold thumb_mouseMove. rewrite Hp. cbn [mbind option_bind]. rewrite Hr. cbn. rewrite lookup_alter_eq, Hp.
  eexists _, _, _. split; [done|]. cbn. split; [done|]. lia.
Qed.

(** ** Examples *)

Definition no_layout : layout := Layout None None (Some 300) (Some 200) (Some 0) (Some 0) None false false.
Definition an_anchor : anchor := Anchor 250 40 80 20.

Lemma popover_takes_the_side_with_room_witness :
  let '(l', p) := popover_layoutRelativeTo 800 400 an_anchor (popover_position POSITION_BELOW) None no_layout in
  let '(t, side) := below_top an_anchor 200 400 in
  top l' = Some (2 * t) /\ p = popover_position side /\
  left l' = Some (Z.min (2 * offsetLeft an_anchor - 300 + dimWidth an_anchor) (2 * (800 - 10) - 2 * 300)) /\
  arrow_image p = Some (if side =? POSITION_BELOW then ArrowUp else ArrowDown).
Proof.
  apply (popover_takes_the_side_with_room 800 400 an_anchor no_layout 300 200); [reflexivity|reflexivity|reflexivity|cbn; lia].
Defined.

(** The room that the arrow takes is not counted: this one starts above the window. *)
Example popover_above_the_window :
  let '(l', p) := popover_layoutRelativeTo 800 400 (Anchor 205 40 80 20) (popover_position POSITION_BELOW) None no_layout in
  top l' = Some (2 * -10) /\ p = popover_position POSITION_ABOVE.
Proof. by vm_compute. Qed.

Lemma menu_stays_in_window_witness :
  let l := set_top (Some (2 * (300 + 20))) no_layout in
  let m := _updateMenuSize 600 12 21 None false (fun _ => Some 80) 300 20 4 (sizes 600 12 21 None false (fun _ => Some 80) 300 20 [40; 5]%nat l) in
  exists t, top (menu_layout m) = Some t /\ height (menu_layout m) = Some (Z.min (outer 21 4) (600 - 2 * 12)) /\
    t + 2 * Z.min (outer 21 4) (600 - 2 * 12) <= 2 * (600 - 12) /\ (needScrolling m = true <-> 600 - 2 * 12 < outer 21 4).
Proof.
  cbv zeta. apply (menu_stays_in_window 600 12 21 None false (fun _ => Some 80) 300 20 [40; 5]%nat 4 (set_top (Some (2 * (300 + 20))) no_layout) (2 * (300 + 20)));
    [lia|reflexivity|reflexivity].
Defined.

(** A menu that had to scroll keeps its place at the upper margin when its items become
    few: it does not go back to its anchor. *)
Example menu_stays_at_the_margin :
  let l := set_top (Some (2 * (300 + 20))) no_layout in
  top (sizes 600 12 21 None false (fun _ => Some 80) 300 20 [40; 2]%nat l) = Some (2 * 12).
Proof. by vm_compute. Qed.

Definition a_config (modal : bool) (key : option string) : config := Config modal true false true true true true key 100 52.
Definition a_panel (modal : bool) (key : option string) : panel := Panel (a_config modal key) false false no_layout None None None None None None.
Definition a_desk : desk :=
  Desk (list_to_map [(1%nat, a_panel true (Some "p")); (2%nat, a_panel false None); (3%nat, a_panel true None)]) 100 [9%nat] ∅.

Definition ok_or {A} (d : A) (m : outcome A) : A := match m with Ok a => a | Throw _ => d end.
Definition desk_1 : desk := Eval vm_compute in ok_or a_desk (popup None 1 a_desk).
Definition desk_2 : desk := Eval vm_compute in ok_or a_desk (popup None 2 desk_1).

Lemma desk_2_opened : opened 100 [9%nat] [2%nat; 1%nat] desk_2.
Proof.
  apply (opened_popup _ _ _ desk_1 2 (a_panel false None) None); [|vm_compute; reflexivity|reflexivity|vm_compute; reflexivity].
  apply (opened_popup _ _ _ a_desk 1 (a_panel true (Some "p")) None); [|vm_compute; reflexivity|reflexivity|vm_compute; reflexivity].
  apply opened_none; [done|done|]. intros n p H%elem_of_list_to_map_2. cbn in H. rewrite !elem_of_cons in H.
  destruct H as [[= _ ->]|[[= _ ->]|[[= _ ->]|H]]]; [done..|set_solver].
Qed.

Lemma panels_stack_witness :
  (forall i j n m, [2%nat; 1%nat] !! i = Some n -> [2%nat; 1%nat] !! j = Some m -> (i < j)%nat ->
     exists p q z, panels desk_2 !! n = Some p /\ panels desk_2 !! m = Some q /\ isShown p = true /\ isShown q = true /\
       zIndex (p_layout q) = Some z /\ zIndex (p_layout p) = Some (z + 100 * (Z.of_nat j - Z.of_nat i)) /\
       (forall y, isModal (conf p) = true -> modalPane p = Some y -> z < y)) /\
  keyStack desk_2 = responders desk_2 [2%nat; 1%nat] ++ [9%nat] /\ ([2%nat; 1%nat] = [] -> zIndexCounter desk_2 = 100).
Proof. apply (panels_stack 100 [9%nat] [2%nat; 1%nat] desk_2). exact desk_2_opened. Defined.

(** Closing the lower of two panels first gives its place away: the next panel has the
    z-index of the one still open, and the closed panel has popped the other's responder. *)
Example closing_the_lower_panel :
  let d := ok_or a_desk (popup None 3 (ok_or a_desk (close 1 desk_2))) in
  ((fun p => zIndex (p_layout p)) <$> panels d !! 2%nat) = ((fun p => zIndex (p_layout p)) <$> panels d !! 3%nat) /\
  keyStack (ok_or a_desk (close 1 desk_2)) = [1%nat; 9%nat].
Proof. by vm_compute. Qed.

Definition a_move : moving := Moving 150 60 100 50 800 600 300 200.

Lemma moved_panel_remembered_witness :
  let d1 := title_mouseUp 1 (move_all ([(160, 70)] ++ [(200, 1000)]) 1 (title_mouseDown a_move 1 a_desk)) in
  exists X Y q, panels (ok_or a_desk (popup None 1 d1)) !! 1%nat = Some q /\ left (p_layout q) = Some (2 * X) /\ top (p_layout q) = Some (2 * Y) /\
    centerX (p_layout q) = None /\ centerY (p_layout q) = None /\
    5 <= X <= windowW a_move - elementWidth a_move - 5 /\ 5 <= Y <= windowH a_move - elementHeight a_move - 5 /\
    (5 <= _panelX a_move + (200 - _pageX a_move) <= windowW a_move - elementWidth a_move - 5 -> X = _panelX a_move + (200 - _pageX a_move)) /\
    (5 <= _panelY a_move + (1000 - _pageY a_move) <= windowH a_move - elementHeight a_move - 5 -> Y = _panelY a_move + (1000 - _pageY a_move)).
Proof.
  cbv zeta. set (d1 := title_mouseUp 1 (move_all ([(160, 70)] ++ [(200, 1000)]) 1 (title_mouseDown a_move 1 a_desk))).
  apply (moved_panel_remembered a_desk 1 (a_panel true (Some "p")) "p" a_move [(160, 70)] 200 1000 1 (ok_or (a_panel true None) (or_throw (panels d1 !! 1%nat) "")));
    try (vm_compute; reflexivity); cbn; lia.
Defined.

(** A click on the title without a move stores a position without numbers: shown again,
    the panel has lost its place and its centering. *)
Example title_click_forgets :
  let d1 := title_mouseUp 1 (title_mouseDown a_move 1 a_desk) in
  panelLayouts d1 !! "p" = Some None /\
  ((fun p => (top (p_layout p), left (p_layout p), centerX (p_layout p))) <$> panels (ok_or a_desk (popup None 1 d1)) !! 1%nat) = Some (None, None, None).
Proof. by vm_compute. Qed.
