(* ===== verification/Dialog.v ===== *)
(** * Dialogs: panels, their fields and the focus ([views/panel.js], [text_field_view.js])

    A panel that is shown pushes itself on the stack of key responders and asks the view in it
    that is meant to have the focus to become the key responder; while it is shown its views
    take the place of each other on the stack, and when it is closed the stack is popped once.
    This file puts together [Panel], the search for a descendant of [ViewSupport], and the key
    responders with the focus of the browser of [Focus].

    The state is that of the panels and that of the page; they have the stack of key responders
    in common.  After each event the callbacks given to [run.next] run. *)

From S2P Require Import Prelude.
From stdpp Require Import gmap.
From S2P Require Import ViewSupport.
From S2P Require EventManager.
From S2P Require Focus.
From S2P Require Import Panel.
Open Scope string_scope.
Open Scope list_scope.
Open Scope flame_scope.
Open Scope nat_scope.

Record dialog := Dialog { panels_of : Panel.desk; page : Focus.page }.

(** The stack is changed on the side of the page. *)
Definition with_page (w : Focus.page) (d : Panel.desk) : dialog := Dialog (Panel.set_stack (EventManager._stack w) d) w.

Section dialog.
Context (isField : nat -> bool).
Context (isDefaultFocus : nat -> bool).
Context (textField : nat -> option nat).       (* the input in a text field or text area *)
Context (n : nat) (content : vnode).           (* the panel, as a view, and the tree below it *)

(** The views of the dialog. *)
Definition views_of : list nat := n :: descendants content.
Definition inside (v : nat) : bool := bool_decide (v ∈ views_of).

(** Text fields hand the call to the input in them. *)
Definition receiver (v : nat) : nat := default v (textField v).
Definition becomeKeyResponder (v : nat) (w : Focus.page) : Focus.page := Focus.become isField None (receiver v) w.

Definition _focusDefaultInput (w : Focus.page) : Focus.page :=
  match firstDescendantWithProperty isDefaultFocus content with Some v => becomeKeyResponder v w | None => w end.

Definition accepts (w : Focus.page) : bool := EventManager.acceptsKeyResponder (EventManager.info w n).

Definition popup (relative : option (layout -> layout)) (a : dialog) : outcome dialog :=
  do! p <- or_throw (panels (panels_of a) !! n) TypeError ;
  do! d <- Panel.popup relative n (panels_of a) ;
  Ok (if isShown p then a
      else
        let w := if accepts (page a) then Focus.become isField (Some false) n (page a) else page a in
        with_page (_focusDefaultInput w) d).

(** An element that is taken out of the document loses the focus without being told. *)
Definition remove (w : Focus.page) : Focus.page :=
  match Focus.activeElement (EventManager.app w) with
  | Some u => if inside u then Focus.set_active None w else w
  | None => w
  end.

Definition close (a : dialog) : outcome dialog :=
  do! p <- or_throw (panels (panels_of a) !! n) TypeError ;
  do! d <- Panel.close n (panels_of a) ;
  Ok (if isDestroyed p then a
      else if isShown p then
        let w := remove (page a) in
        with_page (if accepts w then Focus.step isField Focus.Resign w else w) d
      else a).

Definition pane_mouseDown (a : dialog) : outcome dialog :=
  do! p <- or_throw (panels (panels_of a) !! n) TypeError ;
  if allowClosingByClickingOutside (conf p) then close a else Ok a.

Definition cancel (a : dialog) : outcome dialog :=
  do! p <- or_throw (panels (panels_of a) !! n) TypeError ;
  if allowClosingByCancelButton (conf p) then close a else Ok a.

Inductive event :=
| Ask (v : nat)          (* a view is clicked, or asked to become the key responder by code *)
| LeaveWindow
| EnterWindow
| Escape                 (* no view in the dialog takes the key *)
| ClickOutside           (* a click on the modal pane *)
| Close.

Definition on_page (f : Focus.page -> Focus.page) (a : dialog) : outcome dialog := Ok (with_page (f (page a)) (panels_of a)).

Definition step (ev : event) (a : dialog) : outcome dialog :=
  match ev with
  | Ask v => on_page (becomeKeyResponder v) a
  | LeaveWindow => on_page (Focus.step isField Focus.LeaveWindow) a
  | EnterWindow => on_page (Focus.step isField Focus.EnterWindow) a
  | Escape => cancel a
  | ClickOutside => pane_mouseDown a
  | Close => close a
  end.

Definition run_next (a : dialog) : dialog := with_page (Focus.run_next isField (page a)) (panels_of a).

Definition is_open (a : dialog) : bool := match panels (panels_of a) !! n with Some p => isShown p | None => false end.

(** The events up to the one that closes the dialog. *)
Fixpoint run (evs : list event) (a : dialog) : outcome dialog :=
  match evs with
  | [] => Ok a
  | ev :: evs' => if is_open a then do! a' <- step ev a ; run evs' (run_next a') else Ok a
  end.

Definition use (relative : option (layout -> layout)) (evs : list event) (a : dialog) : outcome dialog :=
  do! a' <- popup relative a ; run evs (run_next a').

(** ** Specification *)

(** The view that the search finds. *)
Definition default_focus : option nat := receiver <$> first_having isDefaultFocus (descendants content).

(** Only views of the dialog are asked, and they take key events. *)
Definition event_ok (w : Focus.page) (ev : event) : Prop :=
  match ev with Ask v => receiver v ∈ views_of /\ Focus.willing w (receiver v) | _ => True end.

Section uses.
Context (l : list nat) (z : Z) (vs : gmap nat EventManager.vinfo).

(** The page below the dialog, and before it. *)
Record page_ok (w : Focus.page) : Prop := {
  po_rest : Focus.at_rest isField w;
  po_step : Focus.in_step isField w;
  po_views : EventManager.views w = vs
}.

Record showing (a : dialog) : Prop := {
  sh_panel : exists p, panels (panels_of a) !! n = Some p /\ isShown p = true /\ isDestroyed p = false;
  sh_counter : zIndexCounter (panels_of a) = (z + 100)%Z;
  sh_page : page_ok (page a);
  sh_stack : exists x, x ∈ views_of /\ EventManager._stack (page a) = x :: l;
  sh_same : keyStack (panels_of a) = EventManager._stack (page a)
}.

Record gone (a : dialog) : Prop := {
  gn_open : is_open a = false;
  gn_counter : zIndexCounter (panels_of a) = z;
  gn_rest : Focus.at_rest isField (page a);
  gn_stack : EventManager._stack (page a) = l;
  gn_same : keyStack (panels_of a) = l;
  gn_active : Focus.activeElement (EventManager.app (page a)) = None
}.

(** ** Lemmas *)

Context (below : forall x, x ∈ views_of -> x ∉ l).

(** The callbacks leave the stack alone, if they are to give the focus to the current field. *)
Lemma run_next_settled w : Focus.pending (EventManager.app w) = [] \/
    (exists v, Focus.pending (EventManager.app w) = [v] /\ EventManager.current w = Some v /\ isField v = true /\ Focus.willing w v) ->
  EventManager._stack (Focus.run_next isField w) = EventManager._stack w /\
  EventManager.views (Focus.run_next isField w) = EventManager.views w.
Proof.
  intros [Hp|(v & Hp & Hc & Hv & Hw)].
  - pose proof (Focus.run_next_nothing isField w Hp) as P. by apply Focus.parts_inj in P as (-> & -> & _).
  - pose proof (Focus.run_next_focus isField w v Hp Hc Hv Hw) as P. by apply Focus.parts_inj in P as (-> & -> & _).
Qed.

(** A view of the dialog takes the place of another one. *)
Lemma become_over x v w : page_ok w -> EventManager._stack w = x :: l -> x ∈ views_of -> Focus.willing w v ->
  let w' := Focus.run_next isField (Focus.become isField None v w) in
  page_ok w' /\ EventManager._stack w' = v :: l.
Proof.
  intros [Hr Hi Hv] Hs Hx Hw. cbv zeta.
  destruct (Focus.become_in_step isField None v w ltac:(done) Hr Hi Hw) as (H1 & H2 & _).
  pose proof (Focus.become_parts isField None v w Hw) as P. cbn in P. pose proof Hr as [Hp _ _ _].
  assert (Focus.popped isField w = l) as Hl.
  { unfold Focus.popped. rewrite Hs. rewrite bool_decide_eq_false_2; [done|]. intros (_ & _ & Hd).
    apply (below x Hx). destruct l; [done|]. injection Hd as ->. apply list_elem_of_here. }
  assert (EventManager._stack (Focus.become isField None v w) = v :: l /\ EventManager.views (Focus.become isField None v w) = EventManager.views w /\
    Focus.pending (EventManager.app (Focus.become isField None v w)) =
      if decide (EventManager.current w = Some v) then [] else if isField v then [v] else []) as (S & V & Q).
  { case_decide as Hc; apply Focus.parts_inj in P as (-> & -> & ->).
    - unfold EventManager.current in Hc. rewrite Hs in Hc |- *. injection Hc as ->. by rewrite Hp.
    - cbn. by rewrite Hl, Hp. }
  destruct (run_next_settled (Focus.become isField None v w)) as [S' V'].
  { rewrite Q. case_decide; [by left|]. destruct (isField v) eqn:Hf; [|by left]. right. exists v. split_and!; [done| |done|].
    - unfold EventManager.current. by rewrite S.
    - by apply (Focus.willing_views w). }
  split; [split; [done|done|congruence]|by rewrite S', S].
Qed.

(** The panel is pushed, and what is to have the focus takes its place. *)
Lemma focus_default_over w : page_ok w -> EventManager._stack w = l -> isField n = false -> Focus.willing w n ->
  (forall t, default_focus = Some t -> t ∈ views_of /\ Focus.willing w t) ->
  Focus.activeElement (EventManager.app w) = None \/ (exists t, default_focus = Some t /\ isField t = true) ->
  let w' := Focus.run_next isField (_focusDefaultInput (Focus.become isField (Some false) n w)) in
  page_ok w' /\ EventManager._stack w' = default n default_focus :: l.
Proof.
  intros [Hr Hi Hv] Hs Hn Hw Ht Ha. pose proof Hr as [Hp Hth Hf _]. cbv zeta.
  pose proof (Focus.become_parts isField (Some false) n w Hw) as P. cbn in P. rewrite Hn, app_nil_r, Hp, Hth, Hs in P.
  set (w1 := Focus.become isField (Some false) n w) in *. clearbody w1. apply Focus.parts_inj in P as (V & S & A).
  unfold _focusDefaultInput, becomeKeyResponder. rewrite first_descendant_is_first. unfold default_focus in *.
  destruct (first_having isDefaultFocus (descendants content)) as [v|]; cbn [fmap option_fmap option_map default] in *.
  2: { destruct Ha as [Ha|(t & [=] & _)].
    destruct (Focus.settled_at_once isField w w1) as (H1 & H2 & _); rewrite ?A; [done..| | |].
    - cbn. rewrite Ha. done.
    - apply (Focus.in_step_nobody _ _ _ S); [by rewrite A|]. by intros u [= <-].
    - destruct (run_next_settled w1) as [S' V']; [left; by rewrite A|]. split; [split; [done|done|congruence]|by rewrite S', S]. }
  destruct (Ht (receiver v) eq_refl) as [Hin Hwt]. set (t := receiver v) in *. clearbody t. clear Ht.
  pose proof (Focus.become_parts isField None t w1 (Focus.willing_views w w1 t V Hwt)) as P. cbn in P.
  assert (Focus.popped isField w1 = l /\ Focus.given_up isField w1 = Focus.activeElement (EventManager.app w)) as [E1 E2].
  { unfold Focus.popped, Focus.given_up, EventManager.current. rewrite S, A. cbn. rewrite !bool_decide_eq_false_2; [done|by intros []; congruence|by intros (_ & ? & _); congruence]. }
  rewrite E1, E2 in P. assert (EventManager.current w1 = Some n) as Hc by (unfold EventManager.current; by rewrite S).
  rewrite Hc, A in P. cbn [Focus.pending Focus.thrown app] in P.
  set (w2 := Focus.become isField None t w1) in *. clearbody w2.
  assert (Focus.parts w2 = (EventManager.views w1, t :: l, Focus.Doc (Focus.activeElement (EventManager.app w)) (if isField t then [t] else []) false)) as P2.
  { case_decide as Hd; [|done]. injection Hd as <-. rewrite P, Hn. unfold Focus.parts. by rewrite S, A. }
  clear P. apply Focus.parts_inj in P2 as (V2 & S2 & A2).
  destruct (isField t) eqn:Hft.
  - destruct (Focus.settled_by_focus isField w w2 t) as (H1 & H2 & _); rewrite ?A2; [done|congruence|done..| |].
    { unfold EventManager.current. by rewrite S2. }
    destruct (run_next_settled w2) as [S' V'].
    { right. exists t. rewrite A2. split_and!; [done| |done|apply (Focus.willing_views w); [congruence|done]]. unfold EventManager.current. by rewrite S2. }
    split; [split; [done|done|congruence]|by rewrite S', S2].
  - destruct Ha as [Ha|(t' & [= <-] & Hc')]; [|congruence].
    destruct (Focus.settled_at_once isField w w2) as (H1 & H2 & _); rewrite ?A2; [done|congruence|done..| | |].
    + cbn. rewrite Ha. done.
    + apply (Focus.in_step_nobody _ _ _ S2); [by rewrite A2|]. by intros u [= <-].
    + destruct (run_next_settled w2) as [S' V']; [left; by rewrite A2|]. split; [split; [done|done|congruence]|by rewrite S', S2].
Qed.

(** The window may lose the focus and get it back. *)
Lemma window_event ev w : page_ok w -> ev = Focus.LeaveWindow \/ ev = Focus.EnterWindow -> Focus.step isField ev w = w.
Proof.
  intros [Hr Hi _] [-> | ->]; cbn [Focus.step]; destruct (Focus.activeElement (EventManager.app w)) as [u|] eqn:Ha; try done.
  - unfold Focus.focusOut. by repeat case_match.
  - unfold Focus.focusIn. rewrite (proj2 (Hi u (Focus.rest_active isField w Hr u Ha)) Ha). by rewrite decide_True.
Qed.

Lemma rested_same w : page_ok w -> page_ok (Focus.run_next isField w) /\ EventManager._stack (Focus.run_next isField w) = EventManager._stack w.
Proof.
  intros [Hr Hi Hv]. pose proof Hr as [Hp Ht Hf _]. destruct (Focus.settled_at_once isField w w) as (H1 & H2 & _); [done..|].
  destruct (run_next_settled w) as [S V]; [by left|]. split; [split; [done|done|congruence]|done].
Qed.

(** The stack is popped once, and the element that is removed is not told. *)
Lemma resign_removed x w : page_ok w -> EventManager._stack w = x :: l -> x ∈ views_of ->
  let w' := Focus.step isField Focus.Resign (remove w) in
  EventManager._stack w' = l /\ Focus.at_rest isField (Focus.run_next isField w') /\
  EventManager._stack (Focus.run_next isField w') = l /\ Focus.activeElement (EventManager.app (Focus.run_next isField w')) = None.
Proof.
  intros [Hr Hi Hv] Hs Hx. cbv zeta. pose proof Hr as [Hp Ht Hf _].
  assert (Focus.parts (remove w) = (EventManager.views w, x :: l, Focus.Doc None [] false)) as P.
  { unfold remove. destruct (Focus.activeElement (EventManager.app w)) as [u|] eqn:Ha.
    - assert (Some x = Some u) as [= ->].
      { rewrite <- (proj2 (Hi u (Hf u eq_refl)) Ha). unfold EventManager.current. by rewrite Hs. }
      unfold inside. rewrite bool_decide_eq_true_2 by done. unfold Focus.parts. cbn. by rewrite Hs, Hp, Ht.
    - unfold Focus.parts. rewrite Hs. destruct (EventManager.app w). cbn in *. by subst. }
  apply Focus.parts_inj in P as (V & S & A).
  destruct (Focus.pop_inert isField 2 (remove w) x l S) as (w' & E & P); [rewrite A; by intros [[=] _]|].
  cbn [Focus.step]. unfold Focus.hook. rewrite E. cbn [Focus.settle]. rewrite V, A in P. apply Focus.parts_inj in P as (V' & S' & A').
  pose proof (Focus.run_next_nothing isField w' ltac:(by rewrite A')) as P. apply Focus.parts_inj in P as (V2 & S2 & A2).
  rewrite S2, A2, A'. split_and!; [done| |done|done].
  apply (Focus.rested isField w); rewrite ?A2, ?A'; [done|congruence|done..].
Qed.

Lemma dialog_open a : showing a -> is_open a = true.
Proof. intros [(p & Hp & Hs & _) _ _ _ _]. unfold is_open. by rewrite Hp. Qed.

Lemma dialog_closes a : showing a -> Focus.willing (page a) n -> exists a', close a = Ok a' /\ gone (run_next a').
Proof.
  intros [(p & Hp & Hs & Hd) Hz Hpg (x & Hx & Hst) _] [Hw _]. unfold close. rewrite Hp. cbn [or_throw outcome_bind].
  destruct (Panel.close n (panels_of a)) as [d|e] eqn:E.
  2: { unfold Panel.close in E. rewrite Hp in E. cbn in E. by rewrite Hs, Hd in E. }
  destruct (close_panel n _ d p E Hp Hs Hd) as (Hz' & _ & _ & p' & Hp' & Hs'). cbn [outcome_bind]. rewrite Hd, Hs.
  assert (accepts (remove (page a)) = true) as ->.
  { unfold accepts, remove. destruct (Focus.activeElement _); [|done]. by destruct (inside _). }
  eexists. split; [reflexivity|]. destruct (resign_removed x (page a) Hpg Hst Hx) as (S & R & S' & A').
  split; cbn [panels_of run_next with_page page zIndexCounter keyStack Panel.set_stack]; try done; [|lia].
  unfold is_open. cbn. by rewrite Hp'.
Qed.

(** What is done on the page while the panel stays open. *)
Lemma on_page_showing a w x : showing a -> page_ok (Focus.run_next isField w) ->
  x ∈ views_of -> EventManager._stack (Focus.run_next isField w) = x :: l ->
  showing (run_next (with_page w (panels_of a))).
Proof. intros [Hp Hz _ _ _] Hw Hx Hs. split; cbn; try done. by exists x. Qed.

Lemma event_step ev a : showing a -> Focus.willing (page a) n -> event_ok (page a) ev ->
  exists a', step ev a = Ok a' /\ (showing (run_next a') \/ gone (run_next a')).
Proof.
  intros Hs Hn He. pose proof Hs as [(p & Hp & _) _ Hpg (x & Hx & Hst) _].
  assert (showing (run_next a)) as Hsame.
  { destruct (rested_same (page a) Hpg) as [H1 H2]. rewrite Hst in H2. destruct Hs as [H3 H4 _ _ _]. split; cbn; try done. by exists x. }
  destruct (dialog_closes a Hs Hn) as (a' & Hc & Hg).
  destruct ev as [v| | | | |]; cbn [step].
  - destruct He as [Hin Hw]. eexists. split; [reflexivity|]. left.
    destruct (become_over x (receiver v) (page a) Hpg Hst Hx Hw) as [H1 H2]. by apply (on_page_showing a _ (receiver v)).
  - eexists. split; [reflexivity|]. left. rewrite (window_event Focus.LeaveWindow) by auto.
    destruct (rested_same (page a) Hpg) as [H1 H2]. apply (on_page_showing a _ x); [done..|congruence].
  - eexists. split; [reflexivity|]. left. rewrite (window_event Focus.EnterWindow) by auto.
    destruct (rested_same (page a) Hpg) as [H1 H2]. apply (on_page_showing a _ x); [done..|congruence].
  - unfold cancel. rewrite Hp. cbn. destruct (allowClosingByCancelButton _); eauto.
  - unfold pane_mouseDown. rewrite Hp. cbn. destruct (allowClosingByClickingOutside _); eauto.
  - eauto.
Qed.

Lemma dialog_events w0 evs : EventManager.views w0 = vs -> Focus.willing w0 n -> Forall (event_ok w0) evs ->
  forall a, showing a -> exists a', run evs a = Ok a' /\ (showing a' \/ gone a').
Proof.
  intros Hv Hn. induction 1 as [|ev evs Hev _ IH]; intros a Ha; [eauto|]. cbn [run]. rewrite (dialog_open a Ha).
  assert (EventManager.views (page a) = EventManager.views w0) as E by (rewrite Hv; apply Ha).
  destruct (event_step ev a Ha) as (a' & -> & [H|H]); [by apply (Focus.willing_views w0)| | |].
  - destruct ev; try done. destruct Hev. split; [done|]. by apply (Focus.willing_views w0).
  - cbn [outcome_bind]. by apply IH.
  - cbn [outcome_bind]. exists (run_next a'). split; [|by right]. destruct evs; [done|]. cbn [run]. by rewrite (gn_open _ H).
Qed.
End uses.

(** ** Properties *)

(** The panel is not shown yet and can take the keys, and so can what is to have the focus in
    it.  Where nothing in it is, no field may have the focus. *)
Record ready (a : dialog) : Prop := {
  rd_panel : exists p, panels (panels_of a) !! n = Some p /\ isShown p = false /\ isDestroyed p = false;
  rd_page : page_ok (EventManager.views (page a)) (page a);
  rd_new x : x ∈ views_of -> x ∉ EventManager._stack (page a);
  rd_willing : Focus.willing (page a) n;
  rd_field : isField n = false;
  rd_default t : default_focus = Some t -> t ∈ views_of /\ Focus.willing (page a) t;
  rd_active : Focus.activeElement (EventManager.app (page a)) = None \/ (exists t, default_focus = Some t /\ isField t = true)
}.

Lemma popup_showing relative a : ready a ->
  exists a1, popup relative a = Ok a1 /\
    showing (EventManager._stack (page a)) (zIndexCounter (panels_of a)) (EventManager.views (page a)) (run_next a1) /\
    EventManager.current (page (run_next a1)) = Some (default n default_focus).
Proof.
  intros [(p & Hp & Hs & Hd) Hpg Hnew Hw Hn Ht Ha]. unfold popup. rewrite Hp. cbn [or_throw outcome_bind].
  destruct (Panel.popup relative n (panels_of a)) as [d|e] eqn:E.
  2: { unfold Panel.popup in E. rewrite Hp in E. cbn in E. by rewrite Hs, Hd in E. }
  destruct (popup_panel _ n _ d p E Hp Hs) as (Hz & _ & _ & p' & Hp' & Hd' & _ & Hsh). cbn [outcome_bind]. rewrite Hs.
  assert (accepts (page a) = true) as -> by apply Hw.
  destruct (focus_default_over _ _ (page a) Hpg eq_refl Hn Hw Ht Ha) as [H1 H2].
  eexists. split; [reflexivity|]. split; [|unfold EventManager.current; cbn; by rewrite H2].
  split; cbn; [|done|done| |done].
  - exists p'. split_and!; [done| |done]. apply Hsh.
  - eexists. split; [|exact H2]. destruct default_focus as [t|]; cbn; [by apply Ht|apply list_elem_of_here].
Qed.


(** Without a view that is meant to have the focus the panel keeps the keys. *)
Lemma nothing_meant_to_have_focus w : (forall v, v ∈ descendants content -> isDefaultFocus v = false) -> _focusDefaultInput w = w.
Proof.
  intros H. unfold _focusDefaultInput. rewrite first_descendant_is_first. unfold first_having.
  destruct (base.filter _ (descendants content)) as [|v vs] eqn:E; [done|].
  assert (v ∈ base.filter (fun x => isDefaultFocus x = true) (descendants content)) as Hv by (rewrite E; apply list_elem_of_here).
  apply list_elem_of_filter in Hv as [H1 H2]. rewrite (H v H2) in H1. done.
Qed.
End dialog.

(** ** A concrete dialog

    View 7 is the panel.  In it are the label 10, the text field 11 with the input 12, the text
    field 13, meant to have the focus, with the input 14, and the button 15; view 3 is the
    button below that opened the dialog. *)
Definition ex_tree : vnode :=
  VNode 7 true [VNode 10 true []; VNode 11 true [VNode 12 true []]; VNode 13 true [VNode 14 true []]; VNode 15 true []].
Definition ex_input (v : nat) : option nat := if decide (v = 11) then Some 12 else if decide (v = 13) then Some 14 else None.
Definition ex_isField (v : nat) : bool := bool_decide (v = 12 \/ v = 14).
Definition ex_info (p : option nat) : EventManager.vinfo := EventManager.VInfo p true true true true false true false true.
Definition ex_infos : gmap nat EventManager.vinfo :=
  list_to_map [(3, ex_info None); (7, ex_info None); (11, ex_info (Some 7)); (12, ex_info (Some 11)); (13, ex_info (Some 7));
               (14, ex_info (Some 13)); (15, ex_info (Some 7))].
Definition ex_panel : panel :=
  Panel (Config true true true false false false true None 100 52) false false
    (Layout None None (Some 300%Z) (Some 200%Z) (Some 0%Z) (Some 0%Z) None false false) None None None None None None.
Definition ex_dialog : dialog :=
  Dialog (Desk {[7 := ex_panel]} 100 [3] ∅) (EventManager.World (Focus.Doc None [] false) ex_infos [3] None {[3]}).

Lemma ex_dialog_ready : ready ex_isField (fun v => bool_decide (v = 13)) ex_input 7 ex_tree ex_dialog.
Proof.
  split.
  - exists ex_panel. done.
  - assert (forall v, ex_isField v = true -> v = 12 \/ v = 14) as Hf by (intros v Hv; by apply bool_decide_eq_true in Hv).
    split; [split|..]; [done|done|by intros u [=]| | |done]; intros v Hv; apply Hf in Hv as [-> | ->]; by vm_compute.
  - intros x Hx H. apply list_elem_of_singleton in H as ->. revert Hx. unfold views_of. vm_compute descendants. set_solver.
  - by vm_compute.
  - done.
  - intros t. vm_compute. intros [= <-]. split; [by repeat constructor|done].
  - by left.
Qed.


(** ** Departures *)

(** The focus is moved to the next field by the browser, with the tabulator key: the stack loses
    the view below the dialog, and closing the dialog leaves no key responder. *)
Lemma tab_key_drops_opener :
  match popup ex_isField (fun v => bool_decide (v = 13)) ex_input 7 ex_tree None ex_dialog with
  | Ok a =>
      let a1 := run_next ex_isField a in
      let a2 := with_page (Focus.run_next ex_isField (Focus.step ex_isField (Focus.UserFocus 12) (page a1))) (panels_of a1) in
      EventManager._stack (page a1) = [14; 3] /\ EventManager._stack (page a2) = [12] /\
      match close ex_isField 7 ex_tree a2 with Ok a3 => EventManager._stack (page a3) = [] | Throw _ => False end
  | Throw _ => False
  end.
Proof. vm_compute. done. Qed.
