(* ===== verification/Touch.v ===== *)
(** * Touch events ([statechart.js], [views/panel.js])

    Touch events come as events of jQuery, which may have the data of the touch only in the
    event of the browser that they wrap; it is copied from there.  With it the panels treat
    touches like the mouse, whose handlers are those of [Panel]. *)

From S2P Require Import Prelude.
From stdpp Require Import gmap.
From S2P Require Import Panel.
Open Scope string_scope.
Open Scope list_scope.
Open Scope flame_scope.
Open Scope Z_scope.

(** ** Events *)

Record fields := Fields {
  touches : option (list (Z * Z));
  pageX : option Z;
  pageY : option Z;
  screenX : option Z;
  screenY : option Z;
  clientX : option Z;
  clientY : option Z
}.

Record touch_event := TouchEvent { own : fields; originalEvent : option fields }.

(** [if (!event.x) event.x = event.originalEvent.x]; zero counts as missing, an empty list
    does not. *)
Definition fill (x : fields -> option Z) (e : touch_event) : outcome (option Z) :=
  match x (own e) with
  | Some (Zpos _ as z) | Some (Zneg _ as z) => Ok (Some z)
  | _ => do! o <- or_throw (originalEvent e) TypeError ; Ok (x o)
  end.
Definition fill_touches (e : touch_event) : outcome (option (list (Z * Z))) :=
  match touches (own e) with
  | Some l => Ok (Some l)
  | None => do! o <- or_throw (originalEvent e) TypeError ; Ok (touches o)
  end.

Definition normalizeTouchEvents (e : touch_event) : outcome touch_event :=
  do! t <- fill_touches e ;
  do! px <- fill pageX e ;
  do! py <- fill pageY e ;
  do! sx <- fill screenX e ;
  do! sy <- fill screenY e ;
  do! cx <- fill clientX e ;
  do! cy <- fill clientY e ;
  Ok (TouchEvent (Fields t px py sx sy cx cy) (originalEvent e)).

(** ** Touches on panels *)

(** The handlers of the mouse read [pageX] and [pageY]; with either missing the position is
    [NaN], which is left out: no state is given then. *)
Definition at_page (f : Z -> Z -> desk -> desk) (e : touch_event) (d : desk) : option desk :=
  match pageX (own e), pageY (own e) with Some x, Some y => Some (f x y d) | _, _ => None end.

Definition touched (f : Z -> Z -> desk -> desk) (e : touch_event) (d : desk) : outcome (option desk) :=
  do! e' <- normalizeTouchEvents e ; Ok (at_page f e' d).

Section touch.
(** Where the panel is, its size and that of the window, when the touch begins. *)
Context (panelX panelY windowW windowH elementWidth elementHeight : Z).
Context (n : nat).

Definition title_down (x y : Z) (d : desk) : desk := title_mouseDown (Moving x y panelX panelY windowW windowH elementWidth elementHeight) n d.
Definition thumb_down (x y : Z) (d : desk) : desk := thumb_mouseDown (Resizing x y elementWidth elementHeight) n d.

Definition title_touchStart : touch_event -> desk -> outcome (option desk) := touched title_down.
Definition title_touchMove : touch_event -> desk -> outcome (option desk) := touched (fun x y => title_mouseMove x y n).
Definition thumb_touchStart : touch_event -> desk -> outcome (option desk) := touched thumb_down.
Definition thumb_touchMove : touch_event -> desk -> outcome (option desk) := touched (fun x y => thumb_mouseMove x y n).

(** A finger is put down, moved and lifted. *)
Inductive gesture := Start (e : touch_event) | Move (e : touch_event) | End_.
Inductive part := Title | Thumb.

Definition gesture_step (p : part) (g : gesture) (d : desk) : outcome (option desk) :=
  match p, g with
  | Title, Start e => title_touchStart e d
  | Title, Move e => title_touchMove e d
  | Title, End_ => Ok (Some (title_mouseUp n d))
  | Thumb, Start e => thumb_touchStart e d
  | Thumb, Move e => thumb_touchMove e d
  | Thumb, End_ => Ok (Some (thumb_mouseUp n d))
  end.

Fixpoint gestures (p : part) (gs : list gesture) (d : desk) : outcome (option desk) :=
  match gs with
  | [] => Ok (Some d)
  | g :: gs' => do! r <- gesture_step p g d ; match r with Some d' => gestures p gs' d' | None => Ok None end
  end.

(** ** Specification *)

(** What the mouse would do. *)
Inductive mouse := Down (x y : Z) | To (x y : Z) | Up.
Definition mouse_step (p : part) (d : desk) (m : mouse) : desk :=
  match p, m with
  | Title, Down x y => title_down x y d
  | Title, To x y => title_mouseMove x y n d
  | Title, Up => title_mouseUp n d
  | Thumb, Down x y => thumb_down x y d
  | Thumb, To x y => thumb_mouseMove x y n d
  | Thumb, Up => thumb_mouseUp n d
  end.

(** An event is at a position: its own, if that is not zero, or that of the event it wraps. *)
Definition coordinate (x : fields -> option Z) (e : touch_event) : option Z :=
  match x (own e) with
  | Some z => if z =? 0 then match originalEvent e with Some o => x o | None => None end else Some z
  | None => match originalEvent e with Some o => x o | None => None end
  end.

Definition at_position (e : touch_event) (x y : Z) : Prop := coordinate pageX e = Some x /\ coordinate pageY e = Some y.

Inductive same : gesture -> mouse -> Prop :=
| same_start e x y : is_Some (originalEvent e) -> at_position e x y -> same (Start e) (Down x y)
| same_move e x y : is_Some (originalEvent e) -> at_position e x y -> same (Move e) (To x y)
| same_end : same End_ Up.

(** ** Lemmas *)

Lemma fill_coordinate x e : is_Some (originalEvent e) -> fill x e = Ok (coordinate x e).
Proof. destruct e as [ow [og|]]; intros [o Ho]; [|done]. unfold fill, coordinate. cbn. by destruct (x ow) as [[|z|z]|]. Qed.

Lemma normalize_ok e : is_Some (originalEvent e) -> exists e', normalizeTouchEvents e = Ok e' /\
  pageX (own e') = coordinate pageX e /\ pageY (own e') = coordinate pageY e /\ screenX (own e') = coordinate screenX e /\
  screenY (own e') = coordinate screenY e /\ clientX (own e') = coordinate clientX e /\ clientY (own e') = coordinate clientY e /\
  originalEvent e' = originalEvent e.
Proof.
  intros Ho. unfold normalizeTouchEvents. rewrite !fill_coordinate by done.
  assert (exists t, fill_touches e = Ok t) as [t ->] by (unfold fill_touches; destruct (touches _); [by eexists|destruct Ho as [o ->]; by eexists]).
  cbn [outcome_bind]. eexists. split; [reflexivity|]. by split_and!.
Qed.

Lemma touched_ok f e x y d : is_Some (originalEvent e) -> at_position e x y -> touched f e d = Ok (Some (f x y d)).
Proof.
  intros Ho [Hx Hy]. unfold touched. destruct (normalize_ok e Ho) as (e' & -> & E1 & E2 & _). cbn [outcome_bind]. unfold at_page. by rewrite E1, E2, Hx, Hy.
Qed.

(** ** Properties *)

(** A panel is moved and resized by touches as it is by a mouse at the positions of the
    touches: whether the events have their positions themselves or in the events they wrap. *)
Theorem touches_are_mouse p gs ms d : Forall2 same gs ms -> gestures p gs d = Ok (Some (foldl (mouse_step p) d ms)).
Proof.
  intros H. revert d. induction H as [|g m gs ms Hg _ IH]; intros d; [done|]. cbn [gestures foldl].
  assert (gesture_step p g d = Ok (Some (mouse_step p d m))) as ->; [|cbn [outcome_bind]; apply IH].
  destruct Hg as [e x y Ho Hp|e x y Ho Hp|]; destruct p; cbn [gesture_step mouse_step]; try done;
    match goal with |- _ = Ok (Some (?h ?x ?y ?d)) => exact (touched_ok h e x y d Ho Hp)
    | |- _ = Ok (Some (?h ?x ?y n ?d)) => exact (touched_ok (fun x y => h x y n) e x y d Ho Hp) end.
Qed.

End touch.

(** ** At a concrete panel *)

(** The title is touched at 150, 60 and the finger moved to 160, 100; the first event has its
    position only in the event that it wraps, the second one itself. *)
Definition no_fields : fields := Fields None None None None None None None.
Definition position (x y : Z) : fields := Fields (Some [(x, y)]) (Some x) (Some y) None None None None.
Definition a_drag : list gesture :=
  [Start (TouchEvent no_fields (Some (position 150 60))); Move (TouchEvent (position 160 100) (Some no_fields)); End_].

Definition placed (d : desk) : option (Z * Z) := p ← panels d !! 1%nat; cssPosition p.

Lemma touches_are_mouse_witness :
  exists d, gestures 100 50 800 600 300 200 1 Title a_drag desk_1 = Ok (Some d) /\ placed d = Some (110, 90).
Proof.
  eexists. split; [apply (touches_are_mouse 100 50 800 600 300 200 1 Title a_drag [Down 150 60; To 160 100; Up] desk_1)|vm_compute; reflexivity].
  repeat constructor; by eexists.
Defined.

(** ** Departures *)

(** An event that is zero somewhere and wraps no other cannot be normalized. *)
Lemma touch_at_the_edge_throws :
  normalizeTouchEvents (TouchEvent (Fields (Some []) (Some 0) (Some 9) (Some 1) (Some 1) (Some 1) (Some 1)) None) = Throw TypeError.
Proof. reflexivity. Qed.
