(* ===== verification/SubMenu.v ===== *)
(** * Submenus beside their items, and the items by their elements ([views/menu_view.js])

    Where the panel of a submenu is put, and on which side those of its own submenus are;
    and the identifiers of the elements of menu items, from which the handler of mouse
    events gets back their indexes.  What menus do is in [Menu], the geometry of panels in
    [Panel]. *)

From S2P Require Import Prelude.
From S2P Require Import Panel.
From Stdlib Require Import DecimalString DecimalNat.
Open Scope string_scope.
Open Scope list_scope.
Open Scope flame_scope.
Open Scope Z_scope.

(** ** Submenus *)

Record submenu := SubMenu {
  subMenuPosition : option Z;          (* where its own submenus are put, once known *)
  menu_layout : layout;
  minWidth : option Z;
  calculatedWidth : option Z           (* [_calculateMenuWidth]; none without items *)
}.

Definition put_layout l s := SubMenu (subMenuPosition s) l (minWidth s) (calculatedWidth s).
Definition put_position p s := SubMenu (Some p) (menu_layout s) (minWidth s) (calculatedWidth s).

Section window.
Context (windowWidth windowHeight : Z).

(** [_layoutRelativeTo] of a submenu.  The layout object is changed in place. *)
Definition submenu_layoutRelativeTo (a : anchor) (position : Z) (childHeight : option Z) (s : submenu) : submenu :=
  let s1 := put_layout (_layoutRelativeTo windowWidth windowHeight a position childHeight (menu_layout s)) s in
  if decide (subMenuPosition s1 = Some POSITION_LEFT) then s1
  else if movedX (menu_layout s1) then
    put_layout (_layoutRelativeTo windowWidth windowHeight a POSITION_LEFT childHeight (menu_layout s1)) (put_position POSITION_LEFT s1)
  else s1.

(** [popup] of a submenu, as far as the layout goes. *)
Definition submenu_popup (a : anchor) (position : Z) (childHeight : option Z) (s : submenu) : submenu :=
  let s1 := if ntruthy (width (menu_layout s)) then s
            else put_layout (set_width (w ← calculatedWidth s; Some (Z.max (default 0 (minWidth s)) w)) (menu_layout s)) s in
  submenu_layoutRelativeTo a position childHeight s1.

(** [createSubMenu] hands the position on, [_tryOpenSubmenu] uses it. *)
Definition createSubMenu (parent : submenu) (w : Z) : submenu :=
  SubMenu (subMenuPosition parent) (Layout None None None None None None None false false) None (Some w).

Definition open_position (parent : submenu) : Z :=
  match subMenuPosition parent with Some p => if p =? 0 then POSITION_RIGHT else p | None => POSITION_RIGHT end.

Definition openSubMenu (parent : submenu) (a : anchor) (w : Z) (childHeight : option Z) : submenu :=
  submenu_popup a (open_position parent) childHeight (createSubMenu parent w).

(** Submenu in submenu: where each one is anchored and how wide it is. *)
Fixpoint cascade (parent : submenu) (l : list (anchor * Z * option Z)) : list submenu :=
  match l with
  | [] => []
  | (a, w, h) :: l' => let s := openSubMenu parent a w h in s :: cascade s l'
  end.

(** ** Specification *)

Definition on_left (s : submenu) : bool := bool_decide (subMenuPosition s = Some POSITION_LEFT).

(** The left edge in half pixels: beside the item. *)
Definition beside (left_side : bool) (a : anchor) (w : Z) : Z :=
  2 * (if left_side then offsetLeft a - w else offsetLeft a + dimWidth a).

Definition known (s : submenu) : Prop := subMenuPosition s = None \/ subMenuPosition s = Some POSITION_LEFT.

Lemma layout_x (a : anchor) position h l w : width l = Some w -> position = POSITION_RIGHT \/ position = POSITION_LEFT ->
  let x := beside (bool_decide (position = POSITION_LEFT)) a w in
  let l' := _layoutRelativeTo windowWidth windowHeight a position h l in
  width l' = Some w /\ left l' = Some (Z.min x (2 * (windowWidth - 10) - 2 * w)) /\
  movedX l' = (movedX l || (2 * (windowWidth - 10) <? x + 2 * w)).
Proof.
  intros Hw Hp x l'. subst l'. unfold _layoutRelativeTo.
  assert ((position =? 0) = false) as -> by (destruct Hp as [-> | ->]; reflexivity).
  assert (width (default_height h l) = Some w /\ movedX (default_height h l) = movedX l) as [Hw1 Hm1].
  { unfold default_height. by destruct (_ && _). }
  set (l1 := default_height h l) in *.
  assert (width (place a position l1) = Some w /\ left (place a position l1) = Some x /\ movedX (place a position l1) = movedX l) as (Hw2 & Hx2 & Hm2).
  { destruct Hp as [-> | ->]; unfold place, x, beside; decide_flags; cbn -[Z.mul Z.sub Z.add]; rewrite ?Hw1; cbn -[Z.mul Z.sub Z.add]; (split; [done|]); (split; [f_equal; lia|done]). }
  set (l2 := place a position l1) in *.
  assert (forall l0, width (fit_y windowHeight a position l0) = width l0 /\ left (fit_y windowHeight a position l0) = left l0 /\
    movedX (fit_y windowHeight a position l0) = movedX l0) as Hy.
  { intros l0. unfold fit_y. by repeat case_match. }
  destruct (Hy (fit_x windowWidth l2)) as (-> & -> & ->). unfold fit_x. rewrite Hx2, Hw2. cbn -[Z.mul Z.sub Z.add].
  destruct (Z.ltb_spec (2 * (windowWidth - 10)) (x + 2 * w)); cbn -[Z.mul Z.sub Z.add]; rewrite ?Hw2, ?Hm2, ?Hx2.
  - split; [done|]. split; [f_equal; lia|]. by rewrite orb_true_r.
  - split; [done|]. split; [f_equal; lia|]. by rewrite orb_false_r.
Qed.

(** Opening one submenu. *)
Lemma open_spec parent a w h : known parent -> 0 < w ->
  let s := openSubMenu parent a w h in
  let l := on_left parent || (windowWidth - 10 <? offsetLeft a + dimWidth a + w) in
  known s /\ on_left s = l /\ width (menu_layout s) = Some w /\
  left (menu_layout s) = Some (Z.min (beside l a w) (2 * (windowWidth - 10) - 2 * w)).
Proof.
  intros Hk Hw. unfold openSubMenu, submenu_popup, createSubMenu. cbn [menu_layout width ntruthy].
  change (ntruthy None) with false. cbn [calculatedWidth minWidth default mbind option_bind]. rewrite Z.max_r by (cbn; lia).
  set (l0 := set_width (Some w) _). assert (width l0 = Some w) as Hl0 by done. assert (movedX l0 = false) as Hm0 by done.
  unfold submenu_layoutRelativeTo, on_left, open_position. destruct Hk as [-> | ->].
  - change (bool_decide (None = Some POSITION_LEFT)) with false. cbn [menu_layout put_layout subMenuPosition orb].
    rewrite (decide_False (P := None = Some POSITION_LEFT)) by done.
    destruct (layout_x a POSITION_RIGHT h l0 w Hl0) as (W1 & L1 & M1); [by left|].
    set (l1 := _layoutRelativeTo _ _ _ POSITION_RIGHT _ _) in *. rewrite Hm0, orb_false_l in M1. rewrite M1.
    change (bool_decide (POSITION_RIGHT = POSITION_LEFT)) with false in *. unfold beside in *.
    replace (2 * (windowWidth - 10) <? 2 * (offsetLeft a + dimWidth a) + 2 * w) with (windowWidth - 10 <? offsetLeft a + dimWidth a + w)
      by (zcases; lia).
    destruct (windowWidth - 10 <? offsetLeft a + dimWidth a + w) eqn:E.
    + destruct (layout_x a POSITION_LEFT h l1 w W1) as (W2 & L2 & _); [by right|].
      change (bool_decide (POSITION_LEFT = POSITION_LEFT)) with true in L2.
      split_and!; [by right|done|exact W2|exact L2].
    + split_and!; [by left|done|exact W1|exact L1].
  - change (bool_decide (Some POSITION_LEFT = Some POSITION_LEFT)) with true. change (POSITION_LEFT =? 0) with false.
    cbn [menu_layout put_layout subMenuPosition orb]. rewrite decide_True by done.
    destruct (layout_x a POSITION_LEFT h l0 w Hl0) as (W1 & L1 & _); [by right|].
    change (bool_decide (POSITION_LEFT = POSITION_LEFT)) with true in L1. split_and!; [by right|done|exact W1|exact L1].
Qed.

(** ** Properties *)

(** In a cascade of submenus each one lies right of its item, until the first for which
    there is no room there; that one and all that are opened from it lie left of theirs.
    None covers its item or reaches beyond the right margin of the window, if the items are
    in the window. *)
Theorem cascade_turns_once l : forall parent, known parent ->
  Forall (fun x => 0 < x.1.2 /\ offsetLeft x.1.1 <= windowWidth - 10) l ->
  Forall2 (fun x s => left (menu_layout s) = Some (beside (on_left s) x.1.1 x.1.2) /\ width (menu_layout s) = Some x.1.2 /\
      (on_left s = false -> offsetLeft x.1.1 + dimWidth x.1.1 + x.1.2 <= windowWidth - 10)) l (cascade parent l) /\
  exists k, on_left <$> cascade parent l = replicate k false ++ replicate (length l - k) true /\
    (on_left parent = true -> k = 0%nat).
Proof.
  induction l as [|[[a w] h] l IH]; intros parent Hk Hf; cbn [cascade].
  { split; [constructor|]. by exists 0%nat. }
  apply Forall_cons in Hf as [[Hw Ha] Hf]. cbn in Hw, Ha.
  destruct (open_spec parent a w h Hk Hw) as (Hk' & Hl & Hwd & Hx). set (s := openSubMenu parent a w h) in *.
  destruct (IH s Hk' Hf) as [H2 (k & Hr & Hk0)]. split.
  - constructor; [cbn [fst snd]|exact H2]. rewrite Hx, Hl, Hwd. split_and!; [|done|].
    + f_equal. destruct (on_left parent); cbn; unfold beside; [lia|]. zcases; lia.
    + destruct (on_left parent); cbn; [done|]. zcases; [done|lia].
  - cbn [fmap list_fmap length]. rewrite Hr. destruct (on_left s) eqn:Hs.
    + rewrite (Hk0 eq_refl). exists 0%nat. split; [cbn; by rewrite Nat.sub_0_r|done].
    + exists (S k). split; [done|]. intros Hpar. rewrite Hpar in Hl. cbn in Hl. congruence.
Qed.
End window.

(** ** Elements of items *)

Open Scope nat_scope.

Definition number (n : nat) : string := NilZero.string_of_uint (Nat.to_uint n).

Definition _indexToId (elementId : string) (index : nat) : string := elementId +:+ "-" +:+ number index.

Definition is_digit (c : Ascii.ascii) : bool :=
  let n := Ascii.nat_of_ascii c in (48 <=? n) && (n <=? 57).

(** The digits a string begins with. *)
Fixpoint digits (s : string) : string :=
  match s with
  | String c s' => if is_digit c then String c (digits s') else EmptyString
  | EmptyString => EmptyString
  end.

(** [parseInt] of digits. *)
Definition parse_digits (s : string) : nat :=
  match NilZero.uint_of_string s with Some d => Nat.of_uint d | None => 0 end.

Fixpoint strip (p s : string) : option string :=
  match p, s with
  | EmptyString, _ => Some s
  | String a p', String b s' => if Ascii.eqb a b then strip p' s' else None
  | _, _ => None
  end.

(** The first match of the expression, at any place in the string.  The identifier of an
    element of Ember has no characters with a meaning in expressions. *)
Fixpoint exec (p s : string) : option string :=
  match (match strip p s with Some r => if String.eqb (digits r) "" then None else Some (digits r) | None => None end) with
  | Some d => Some d
  | None => match s with String _ s' => exec p s' | EmptyString => None end
  end.

Definition _idToIndex (elementId id : string) : Z :=
  match exec (elementId +:+ "-") id with
  | Some d => Z.of_nat (parse_digits d)
  | None => (-1)%Z
  end.

Lemma uint_digits (d : Decimal.uint) : digits (NilEmpty.string_of_uint d) = NilEmpty.string_of_uint d.
Proof. induction d as [|d IH|d IH|d IH|d IH|d IH|d IH|d IH|d IH|d IH|d IH]; cbn; [done|..]; by rewrite IH. Qed.

Lemma number_digits n : digits (number n) = number n /\ number n <> "".
Proof.
  unfold number, NilZero.string_of_uint. destruct (Nat.to_uint n) as [|d|d|d|d|d|d|d|d|d|d]; [done|..];
    (split; [apply (uint_digits (_ d))|done]).
Qed.

Lemma parse_number n : parse_digits (number n) = n.
Proof.
  unfold parse_digits, number. rewrite NilZero.usu.
  - by rewrite Unsigned.of_to.
  - intros H. apply (f_equal Nat.of_uint) in H as H'. rewrite Unsigned.of_to in H'. cbn in H'. subst n. discriminate H.
Qed.

Lemma strip_app p s : strip p (p +:+ s) = Some s.
Proof.
  induction p as [|c p IH]; [done|].
  change (strip (String c p) (String c p +:+ s)) with (if Ascii.eqb c c then strip p (p +:+ s) else None).
  by rewrite Ascii.eqb_refl.
Qed.

Lemma exec_step p s : exec p s =
  match (match strip p s with Some r => if String.eqb (digits r) "" then None else Some (digits r) | None => None end) with
  | Some d => Some d
  | None => match s with String _ s' => exec p s' | EmptyString => None end
  end.
Proof. by destruct s. Qed.

Lemma exec_here p s : digits s <> "" -> exec p (p +:+ s) = Some (digits s).
Proof. intros Hs. rewrite exec_step, strip_app. by destruct (String.eqb_spec (digits s) ""). Qed.

(** The handler of mouse events gets back from the identifier of the element of an item
    the index it was made with, whatever the identifier of the menu. *)
Theorem item_id_roundtrip elementId index : _idToIndex elementId (_indexToId elementId index) = Z.of_nat index.
Proof.
  unfold _idToIndex, _indexToId. destruct (number_digits index) as [Hd Hn].
  assert (elementId +:+ "-" +:+ number index = (elementId +:+ "-") +:+ number index) as ->.
  { clear. induction elementId as [|c e IH]; [done|]. exact (f_equal (String c) IH). }
  rewrite exec_here by (rewrite Hd; exact Hn). by rewrite Hd, parse_number.
Qed.

(** ** Witnesses and departures *)

Open Scope Z_scope.

Definition ex_root : submenu := SubMenu None (Layout (Some 0) (Some 0) (Some 200) (Some 100) None None None false false) None (Some 200).
Definition ex_cascade : list (anchor * Z * option Z) :=
  [(Anchor 50 10 200 21, 150, None); (Anchor 60 210 150 21, 180, None); (Anchor 70 30 180 21, 100, None)].

Lemma cascade_turns_once_witness :
  exists k, on_left <$> cascade 500 400 ex_root ex_cascade = replicate k false ++ replicate (3 - k) true.
Proof.
  destruct (cascade_turns_once 500 400 ex_cascade ex_root) as [_ (k & H & _)].
  - by left.
  - repeat (constructor; [cbn; lia|]). constructor.
  - exists k. exact H.
Defined.

Lemma cascade_sides : on_left <$> cascade 500 400 ex_root ex_cascade = [false; true; true].
Proof. vm_compute. reflexivity. Qed.

(** Nothing keeps a submenu on the left within the left edge of the window. *)
Lemma left_submenu_leaves_window :
  (fun s => left (menu_layout s)) <$> cascade 500 400 ex_root ex_cascade = [Some 420; Some 60; Some (-140)].
Proof. vm_compute. reflexivity. Qed.
