(* ===== verification/MenuItems.v ===== *)
(** * The elements of menu items and of checkboxes ([views/menu_view.js], [views/checkbox_view.js])

    What markup is pushed for a menu item and for a checkbox, and how the mouse events of the
    elements come to the menu.  The menus are those of [Menu], the identifiers of the elements
    those of [SubMenu]. *)

From S2P Require Import Prelude.
From S2P Require Import Menu.
From S2P Require SubMenu.
Open Scope string_scope.
Open Scope list_scope.
Open Scope flame_scope.

(** ** Markup *)

(** A quotation mark, and an attribute with its value. *)
Definition quote : string := String (Ascii.ascii_of_nat 34) "".
Definition attribute (name val : string) : string := name +:+ "=" +:+ quote +:+ val +:+ quote.

Fixpoint join_space (l : list string) : string :=
  match l with [] => "" | [x] => x | x :: l' => x +:+ " " +:+ join_space l' end.

Section markup.
Context (escape : string -> string).              (* [Handlebars.Utils.escapeExpression] *)

(** The class names of the element of a menu item. *)
Definition item_classes (x : mitem) : list string :=
  ["flame-view"; "flame-list-item-view"; "flame-menu-item-view"] ++
  (if isSelected x then ["is-selected"] else []) ++ (if isEnabled x then [] else ["is-disabled"]).

Definition subMenuLength (x : mitem) : Z :=
  match subMenuItems x with None => -1 | Some l => Z.of_nat (length l) end.

(** [renderToBuffer] of a menu item. *)
Definition renderToBuffer (elementId : string) (tooltip : option string) (index : nat) (x : mitem) : string :=
  "<div " +:+ attribute "id" (SubMenu._indexToId elementId index) +:+ " " +:+ attribute "class" (join_space (item_classes x)) +:+ " " +:+
  (match tooltip with Some t => if bool_decide (t = "") then "" else attribute "title" t | None => "" end) +:+ ">" +:+
  (if isChecked x then "<div " +:+ attribute "class" "flame-menu-item-view-checkmark" +:+ "></div>" else "") +:+
  escape (title (item x)) +:+
  (if (0 <? subMenuLength x)%Z then "<div " +:+ attribute "class" "menu-indicator" +:+ "></div>" else "") +:+ "</div>".

(** [render] of a checkbox with the URL of the check mark. *)
Definition renderCheckMark (imgUrl : string) : string :=
  "<div " +:+ attribute "class" "flame-view flame-checkbox-checkmark" +:+ " " +:+ attribute "style" "left: 4px; top: 2px;" +:+ "><img " +:+
  attribute "src" imgUrl +:+ "></div>".

Definition render_checkbox (imgUrl tooltip : string) (label : option string) : string :=
  "<div " +:+ attribute "class" "flame-checkbox-box" +:+ "></div>" +:+ renderCheckMark imgUrl +:+
  "<label " +:+ attribute "class" "flame-checkbox-label" +:+ " " +:+ attribute "title" tooltip +:+ ">" +:+
  match label with Some l => escape l | None => "" end +:+ "</label>".

(** ** The tags in a text *)

Definition is_lt (c : Ascii.ascii) : bool := bool_decide (c = "<"%char).

(** The number of tags opened, closing ones included. *)
Fixpoint tags (s : string) : nat :=
  match s with EmptyString => 0 | String c s' => (if is_lt c then 1 else 0) + tags s' end.

Lemma tags_app s1 s2 : tags (s1 +:+ s2) = tags s1 + tags s2.
Proof.
  induction s1 as [|c s1 IH]; [done|]. change (String c s1 +:+ s2) with (String c (s1 +:+ s2)). cbn [tags]. rewrite IH. lia.
Qed.

Lemma tags_attribute name val : tags (attribute name val) = tags name + tags val.
Proof. unfold attribute. rewrite !tags_app. change (tags "=") with 0. change (tags quote) with 0. lia. Qed.

Lemma tags_number n : tags (SubMenu.number n) = 0.
Proof.
  unfold SubMenu.number, DecimalString.NilZero.string_of_uint.
  assert (forall d, tags (DecimalString.NilEmpty.string_of_uint d) = 0) as H.
  { induction d as [|d IH|d IH|d IH|d IH|d IH|d IH|d IH|d IH|d IH|d IH]; [done|..]; exact IH. }
  destruct (Nat.to_uint n); [done|..]; apply H.
Qed.

Lemma tags_classes x : tags (join_space (item_classes x)) = 0.
Proof. unfold item_classes. by destruct (isSelected x), (isEnabled x). Qed.

(** ** Properties *)

(** What is in a title cannot add a tag to the element of a menu item or to a checkbox,
    given that escaped texts are free of them: there are the tags of the element, of the check
    mark and of the sign of a submenu, as long as the item has no tooltip. *)
Theorem titles_add_no_tags elementId index x imgUrl label :
  (forall s, tags (escape s) = 0) -> tags elementId = 0 -> tags imgUrl = 0 ->
  tags (renderToBuffer elementId None index x) =
    2 + (if isChecked x then 2 else 0) + (if (0 <? subMenuLength x)%Z then 2 else 0) /\
  tags (render_checkbox imgUrl "" label) = 7.
Proof.
  intros He Hid Hurl. split.
  - unfold renderToBuffer, SubMenu._indexToId. rewrite !tags_app, !tags_attribute, !tags_app, tags_number, tags_classes, He, Hid.
    destruct (isChecked x), (0 <? subMenuLength x)%Z; reflexivity.
  - unfold render_checkbox, renderCheckMark. rewrite !tags_app, !tags_attribute, Hurl. destruct label; rewrite ?He; reflexivity.
Qed.
End markup.

(** ** Mouse events *)

Inductive mouse_event := MouseEnter | MouseUp | MouseDown | OtherEvent.

(** The click that opened the menu is not one on its items. *)
Definition click_counts (now : Z) (M : menu) : bool :=
  match parentMenu M with None => negb (now - _openedAt M <? 300)%Z | Some _ => true end.

(** [handleMouseEvents]: the state, and what the handler of jQuery is to return: to let
    the event through. *)
Definition handleMouseEvents (now : Z) (elementId : string) (m : nat) (type : mouse_event) (currentTarget : string) (s : state) : option (state * bool) :=
  let itemIndex := SubMenu._idToIndex elementId currentTarget in
  match type with
  | MouseEnter => (fun s' => (s', false)) <$> mouseEntered now m itemIndex s
  | MouseUp =>
      M ← menus s !! m;
      (fun s' => (s', negb (click_counts now M))) <$> mouseClicked now m itemIndex s
  | MouseDown => Some (s, false)
  | OtherEvent => Some (s, true)
  end.

(** The events of the element of an item come to that item. *)
Lemma events_reach_item now elementId m type index s :
  handleMouseEvents now elementId m type (SubMenu._indexToId elementId index) s =
  match type with
  | MouseEnter => (fun s' => (s', false)) <$> mouseEntered now m (Z.of_nat index) s
  | MouseUp => M ← menus s !! m; (fun s' => (s', negb (click_counts now M))) <$> mouseClicked now m (Z.of_nat index) s
  | MouseDown => Some (s, false)
  | OtherEvent => Some (s, true)
  end.
Proof. unfold handleMouseEvents. by rewrite SubMenu.item_id_roundtrip. Qed.

(** ** Witness and departures *)

(** Stands for the escaping of the library as far as tags go. *)
Fixpoint ex_escape (s : string) : string :=
  match s with EmptyString => EmptyString | String c s' => if is_lt c then "&lt;" +:+ ex_escape s' else String c (ex_escape s') end.

Lemma ex_escape_ok s : tags (ex_escape s) = 0.
Proof.
  induction s as [|c s IH]; [done|]. cbn [ex_escape]. destruct (is_lt c) eqn:E; [by rewrite tags_app, IH|]. cbn [tags]. by rewrite E, IH.
Defined.

Definition ex_item : mitem := MItem (MData "<b>Save</b>" None true None None None) false false true None None.

Lemma titles_add_no_tags_witness :
  tags (renderToBuffer ex_escape "ember1" None 3 ex_item) = 4 /\ tags (render_checkbox ex_escape "mark.svg" "" (Some "<i>")) = 7.
Proof. apply (titles_add_no_tags ex_escape "ember1" 3 ex_item "mark.svg" (Some "<i>")); [exact ex_escape_ok|reflexivity|reflexivity]. Defined.

(** Tooltips are not escaped: what ends the attribute goes on as markup. *)
Definition ex_tooltip : string := quote +:+ "><img src=x>".

Lemma tooltip_adds_tags :
  tags (renderToBuffer ex_escape "ember1" (Some ex_tooltip) 3 ex_item) = 5 /\ tags (render_checkbox ex_escape "mark.svg" ex_tooltip None) = 8.
Proof. vm_compute. done. Qed.
