(* ===== verification/Tooltip.v ===== *)
(** * Tooltips, and the arrows of popovers ([views/tooltip.js], [views/popover.js])

    A tooltip is a popover as wide as its text, which is measured once its element is in the
    document; the popover is then laid out a second time.  The geometry of popovers is in
    [Panel], measuring in [Measure]. *)

From S2P Require Import Prelude.
From S2P Require Import Measure.
From S2P Require Import Panel.
Open Scope string_scope.
Open Scope list_scope.
Open Scope flame_scope.
Open Scope Z_scope.

(** ** Arrows *)

(** The position of the arrow in the popover, left and top, in half pixels; what is not set
    stays. *)
Record arrow_css := ArrowCss { arrow_left : num; arrow_top : num }.

(** [_positionArrow], for a popover whose element is where its layout says. *)
Definition _positionArrow (a : anchor) (position : Z) (l : layout) (css : arrow_css) : arrow_css :=
  if has position (Z.lor POSITION_ABOVE POSITION_BELOW) then
    let x := 2 * offsetLeft a + dimWidth a - default 0 (left l) - 30 in
    ArrowCss (Some x) (if has position POSITION_ABOVE then nsub (double (height l)) (Some 2) else arrow_top css)
  else
    let y := 2 * offsetTop a + dimHeight a - default 0 (top l) - 30 in
    ArrowCss (if has position POSITION_LEFT then nsub (double (width l)) (Some 2) else arrow_left css) (Some y).

(** ** Tooltips *)

Record tooltip := Tooltip { t_layout : layout; t_anchor : anchor; t_position : Z }.

Definition tooltip_layout : layout := Layout None None (Some 200) (Some 25) None None None false false.

Section tooltip.
Context (windowWidth windowHeight : Z).

(** Where the popover puts itself, which it remembers. *)
Definition tooltip_layoutRelativeTo (a : anchor) (position : Z) (l : layout) : tooltip :=
  let '(l', p) := popover_layoutRelativeTo windowWidth windowHeight a position None l in Tooltip l' a p.

Definition tooltip_popup (a : anchor) (position : Z) (l : layout) : tooltip :=
  tooltip_layoutRelativeTo a (popover_position position) l.

(** [sizeToFit], once the text of the value has been measured. *)
Definition sizeToFit (measuredWidth : Z) (t : tooltip) : tooltip :=
  tooltip_layoutRelativeTo (t_anchor t) (t_position t) (set_width (Some (measuredWidth + 20)) (t_layout t)).

(** A tooltip shown for a value. *)
Definition show_tooltip (escape : string -> string) (client : mel -> Z * Z) (value : string) (a : anchor) (position : Z) (p : page) : page * option tooltip :=
  let t := tooltip_popup a position tooltip_layout in
  let '(p', size) := measureString escape client (OneLine value) (Some "ember-view flame-view") None None p in
  (p', (fun s => sizeToFit s.1 t) <$> size).

(** ** Specification *)

Definition sides : list Z := [POSITION_BELOW; POSITION_RIGHT; POSITION_LEFT; POSITION_ABOVE].

Definition vertical (side : Z) : bool := (side =? POSITION_BELOW) || (side =? POSITION_ABOVE).

(** Beside the anchor and centered on it, in half pixels. *)
Definition spot_left (side : Z) (a : anchor) (w : Z) : Z :=
  if vertical side then 2 * offsetLeft a + dimWidth a - w
  else if side =? POSITION_RIGHT then 2 * (offsetLeft a + dimWidth a) else 2 * (offsetLeft a - w).
Definition spot_top (side : Z) (a : anchor) (h : Z) : Z :=
  if negb (vertical side) then 2 * offsetTop a + dimHeight a - h
  else if side =? POSITION_BELOW then 2 * (offsetTop a + dimHeight a) else 2 * (offsetTop a - h).

(** The panel fits into the window there. *)
Definition room (side : Z) (a : anchor) (w h : Z) : Prop :=
  spot_left side a w + 2 * w <= 2 * (windowWidth - 10) /\ 0 <= spot_top side a h /\
  (side = POSITION_BELOW -> offsetTop a + dimHeight a + h <= windowHeight - 10).

(** What the arrow takes. *)
Definition arrow_x (side : Z) : Z := if vertical side then 0 else if side =? POSITION_RIGHT then 30 else -30.
Definition arrow_y (side : Z) : Z := if negb (vertical side) then 0 else if side =? POSITION_BELOW then 30 else -30.

Ltac by_side := match goal with H : ?side ∈ sides |- _ =>
  unfold sides in H; rewrite !elem_of_cons in H; destruct H as [-> | [-> | [-> | [-> | H]]]]; [..|by apply elem_of_nil in H] end.

Lemma place_spot side a w h t0 x0 cx cy z : side ∈ sides ->
  place a (popover_position side) (Layout t0 x0 (Some w) (Some h) cx cy z false false) =
  Layout (Some (spot_top side a h)) (Some (spot_left side a w)) (Some w) (Some h) cx cy z false false.
Proof.
  intros Hs. unfold spot_left, spot_top, vertical. by_side; unfold place; decide_flags; cbn -[Z.mul Z.sub Z.add]; unfold set_top, set_left; cbn [width height centerX centerY zIndex movedX movedY top left]; f_equal; f_equal; lia.
Qed.

Lemma spot_fits side a w h cx cy z : side ∈ sides -> room side a w h ->
  let l := Layout (Some (spot_top side a h)) (Some (spot_left side a w)) (Some w) (Some h) cx cy z false false in
  fit_x windowWidth l = l /\ fit_y windowHeight a (popover_position side) l = l.
Proof.
  intros Hs (Hx & Hy & Hb). cbv zeta. unfold fit_x, fit_y. cbn [left width top height nlt nadd double mbind option_bind].
  rewrite (proj2 (Z.ltb_ge (2 * (windowWidth - 10)) _)) by lia. rewrite (proj2 (Z.ltb_ge (spot_top side a h) 0)) by lia.
  split; [done|]. rewrite andb_false_r, orb_false_r.
  replace (has (popover_position side) POSITION_BELOW && (2 * (windowHeight - 10) <? spot_top side a h + 2 * h)) with false; [done|].
  unfold spot_top in *. by_side; decide_flags; cbn -[Z.mul Z.sub Z.add]; [|done..]. symmetry. apply Z.ltb_ge. specialize (Hb eq_refl). lia.
Qed.

(** With room on the side asked for the popover stays there. *)
Lemma layout_still side a w h t0 x0 cx cy z : side ∈ sides -> room side a w h ->
  tooltip_layoutRelativeTo a (popover_position side) (Layout t0 x0 (Some w) (Some h) cx cy z false false) =
  Tooltip (Layout (Some (spot_top side a h + arrow_y side)) (Some (spot_left side a w + arrow_x side)) (Some w) (Some h) cx cy z false false)
    a (popover_position side).
Proof.
  intros Hs Hr. unfold tooltip_layoutRelativeTo, popover_layoutRelativeTo.
  set (l := Layout t0 x0 _ _ _ _ _ _ _).
  assert (_layoutRelativeTo windowWidth windowHeight a (popover_position side) None l =
    Layout (Some (spot_top side a h)) (Some (spot_left side a w)) (Some w) (Some h) cx cy z false false) as ->.
  { unfold _layoutRelativeTo. replace (popover_position side =? 0) with false by (by_side; reflexivity).
    unfold default_height. cbn [ntruthy andb]. unfold l. rewrite place_spot by done.
    destruct (spot_fits side a w h cx cy z Hs Hr) as [-> ->]. done. }
  cbn [movedX movedY orb]. f_equal. unfold arrow_room, arrow_x, arrow_y, vertical. clear Hr. by_side; decide_flags; cbn -[Z.mul Z.sub Z.add spot_top spot_left].
  all: unfold set_top, set_left; cbn [width height centerX centerY zIndex movedX movedY top left]; by rewrite Z.add_0_r.
Qed.

(** ** Properties *)

(** A tooltip for which there is room on the side asked for, both with its first width
    and with that of its text, is in the end as wide as its text and its margins, beside its
    anchor on that side, and its middle and its arrow are at the middle of the anchor. *)
Theorem tooltip_fits escape client value side a p css :
  side ∈ sides -> one_element p ->
  let w := (measured escape client (OneLine value) (Some "ember-view flame-view") None None).1 + 20 in
  room side a 200 25 -> room side a w 25 ->
  let l := Layout (Some (spot_top side a 25 + arrow_y side)) (Some (spot_left side a w + arrow_x side)) (Some w) (Some 25) None None None false false in
  (show_tooltip escape client value a side p).2 = Some (Tooltip l a (popover_position side)) /\
  let arrow := _positionArrow a (popover_position side) l css in
  if vertical side then arrow_left arrow = Some (w - 30) else arrow_top arrow = Some (25 - 30).
Proof.
  intros Hs Hp w Hr1 Hr2. cbv zeta. unfold show_tooltip. rewrite (measure_ok escape client _ _ _ _ p Hp). cbn [snd fmap option_fmap option_map].
  unfold sizeToFit, tooltip_popup, tooltip_layout. rewrite (layout_still side a 200 25) by done. cbn [t_anchor t_position t_layout]. unfold set_width.
  cbn [width height centerX centerY zIndex movedX movedY top left]. fold w. rewrite (layout_still side a w 25) by done.
  split; [done|]. clear Hr1 Hr2. unfold _positionArrow, spot_left, spot_top, arrow_x, arrow_y, vertical.
  by_side; decide_flags; cbn -[Z.mul Z.sub Z.add]; f_equal; lia.
Qed.
End tooltip.

(** ** Witness and departures *)

Definition ex_client (e : mel) : Z * Z := (10 * Z.of_nat (String.length (innerHTML e)), 14).

Lemma tooltip_fits_witness :
  (show_tooltip 800 600 id ex_client "Save" (Anchor 300 400 40 20) POSITION_BELOW (Page [] None)).2 =
    Some (Tooltip (Layout (Some 670) (Some 780) (Some 60) (Some 25) None None None false false) (Anchor 300 400 40 20) (popover_position POSITION_BELOW)).
Proof.
  apply (tooltip_fits 800 600 id ex_client "Save" POSITION_BELOW (Anchor 300 400 40 20) (Page [] None) (ArrowCss None None));
    [by left|by left|unfold room; vm_compute; split_and!; done|unfold room; vm_compute; split_and!; done].
Defined.

(** The marks that a layout was moved are never taken off: a tooltip that was put above its
    anchor, for want of room below it, is put below it again when it is sized - across the
    lower edge of the window. *)
Lemma tooltip_flips_back :
  let a := Anchor 560 400 40 20 in
  let t := tooltip_popup 800 600 a POSITION_BELOW tooltip_layout in
  let t' := sizeToFit 800 600 40 t in
  (t_position t, top (t_layout t)) = (popover_position POSITION_ABOVE, Some (2 * 520)) /\
  (t_position t', top (t_layout t')) = (popover_position POSITION_BELOW, Some (2 * 595)).
Proof. vm_compute. done. Qed.

(** Asked for on the right, where there is no room, it comes back from the left and covers
    its anchor. *)
Lemma tooltip_covers_anchor :
  let a := Anchor 300 700 60 20 in
  let t := tooltip_popup 800 600 a POSITION_RIGHT tooltip_layout in
  let t' := sizeToFit 800 600 80 t in
  (t_position t, left (t_layout t)) = (popover_position POSITION_LEFT, Some (2 * 485)) /\
  (t_position t', left (t_layout t')) = (popover_position POSITION_RIGHT, Some (2 * 705)).
Proof. vm_compute. done. Qed.
