(* ===== verification/MenuSizes.v ===== *)
(** * The width of menus, their scrolling part, and the search by typing
    ([mixins/menu_view_support.js], [views/menu_scroll_view.js])

    The sizes of a menu are those of [Panel]; here is where its width comes from, the
    measuring of its titles as in [Measure], and what the scrolling part makes of its height.
    The search by typing, of which [Menu] has the matching, is forgotten after a second. *)

From S2P Require Import Prelude.
From stdpp Require Import gmap.
From S2P Require Import Arrays.
From S2P Require Import Measure.
From S2P Require Import Panel.
Open Scope string_scope.
Open Scope list_scope.
Open Scope flame_scope.
Open Scope Z_scope.

(** ** Sizes *)

Section sizes.
Context (escape : string -> string) (client : mel -> Z * Z).
Context (windowHeight menuMargin itemHeight : Z) (minWidth : num) (isSubMenu : bool).

Definition parentClasses : option string := Some "ember-view flame-view flame-list-item-view flame-menu-item-view".
Definition elementClasses : option string := Some "title".

(** [_calculateMenuWidth]: [undefined] without items. *)
Definition _calculateMenuWidth (titles : list string) (p : page) : page * num :=
  match titles with
  | [] => (p, None)
  | _ => let '(p', size) := measureString escape client (Lines titles) parentClasses elementClasses None p in
         (p', x ← size; Some (x.1 + 16 + 18))
  end.

(** The whole of [_updateMenuSize]; titles are measured when there is no width yet. *)
Definition updateMenuSize (anchorTop anchorHeight : Z) (titles : list string) (l : layout) (p : page) : page * menu_size :=
  let '(p', w) := if ntruthy (width l) then (p, None) else _calculateMenuWidth titles p in
  (p', _updateMenuSize windowHeight menuMargin itemHeight minWidth isSubMenu (fun _ => w) anchorTop anchorHeight (length titles) l).

(** The scrolling part and its viewport have the same height; [None] leaves them. *)
Definition _recalculateSizes (height : num) : num :=
  match height with Some h => if 0 <? h then Some (h - (5 + 5 + 1 + 1)) else None | None => None end.

(** The width that a title takes by itself. *)
Definition title_width (t : string) : Z := (measured escape client (Lines [t]) parentClasses elementClasses None).1.

(** Lines one below the other are as wide as the widest of them. *)
Context (client_widest : forall titles t, t ∈ titles ->
  title_width t <= (measured escape client (Lines titles) parentClasses elementClasses None).1).

Lemma update_width anchorTop anchorHeight n l w : width l = None ->
  width (menu_layout (_updateMenuSize windowHeight menuMargin itemHeight minWidth isSubMenu (fun _ => Some w) anchorTop anchorHeight n l)) =
    Some (Z.max (default 0 minWidth) w).
Proof. intros Hl. unfold _updateMenuSize. repeat case_match; simplify_eq; cbn in *; rewrite ?Hl in *; done. Qed.

Lemma update_height anchorTop anchorHeight n l f :
  let m := _updateMenuSize windowHeight menuMargin itemHeight minWidth isSubMenu f anchorTop anchorHeight n l in
  height (menu_layout m) = Some (if needScrolling m then windowHeight - 2 * menuMargin else Z.of_nat n * itemHeight + 12).
Proof.
  cbv zeta. unfold _updateMenuSize, paddingTop, paddingBottom, borderWidth.
  repeat case_match; simplify_eq; cbn in *; try discriminate; f_equal; lia.
Qed.

(** A menu that is sized for the first time is wide enough for each of its titles with 34
    pixels beside it, and not narrower than its least width; what is between its borders, the
    scrolling part, is exactly as high as its items, or else the menu scrolls. *)
Theorem menu_fits_titles anchorTop anchorHeight titles l p :
  titles <> [] -> width l = None -> one_element p -> 0 <= itemHeight -> 2 * menuMargin < windowHeight ->
  let m := (updateMenuSize anchorTop anchorHeight titles l p).2 in
  exists w h, width (menu_layout m) = Some w /\ height (menu_layout m) = Some h /\
    (forall t, t ∈ titles -> title_width t + 34 <= w) /\ default 0 minWidth <= w /\
    (needScrolling m = false -> _recalculateSizes (Some h) = Some (Z.of_nat (length titles) * itemHeight)) /\
    (needScrolling m = true -> _recalculateSizes (Some h) = Some (windowHeight - 2 * menuMargin - 12)).
Proof.
  intros Ht Hl Hp Hi Hw. cbv zeta. unfold updateMenuSize. rewrite Hl. cbn [ntruthy].
  assert (exists p', _calculateMenuWidth titles p = (p', Some ((measured escape client (Lines titles) parentClasses elementClasses None).1 + 16 + 18))) as [p' ->].
  { unfold _calculateMenuWidth. destruct titles; [done|]. rewrite measure_ok by done. by eexists. }
  cbn [snd]. eexists _, _. split; [by apply update_width|]. split; [apply update_height|]. split; [|split; [lia|]].
  - intros t Hin. pose proof (client_widest titles t Hin). lia.
  - unfold _recalculateSizes. destruct (needScrolling _); (split; [try done|try done]); intros _; rewrite (proj2 (Z.ltb_lt _ _)) by lia; f_equal; lia.
Qed.
End sizes.

(** ** The search by typing *)

Record search := Search {
  _searchKey : string;
  _timer : option nat;              (* the last one that was started *)
  timers : gset nat;                (* those that run *)
  next : nat
}.

Definition set_timers t s := Search (_searchKey s) (_timer s) t (next s).
Definition cancel_timer (s : search) : search := match _timer s with Some t => set_timers (timers s ∖ {[t]}) s | None => s end.

(** [_doKeySearch]; the search in the items is that of [Menu]. *)
Definition _doKeySearch (key : string) (s : search) : search :=
  let s1 := cancel_timer s in
  Search (_searchKey s +:+ key) (Some (next s)) ({[next s]} ∪ timers s1) (S (next s)).

Definition _clearKeySearch (s : search) : search := let s1 := cancel_timer s in Search "" (_timer s1) (timers s1) (next s1).

(** [keyPress]: control characters are left out. *)
Definition keyPress (which : nat) (s : search) : search * bool :=
  if (31 <? which)%nat then (_doKeySearch (String (Ascii.ascii_of_nat which) "") s, true) else (s, false).

(** A key, the second of a timer that is over, or what clears the search: arrow keys, opening
    a submenu, closing. *)
Inductive event := Key (which : nat) | Fire (t : nat) | Clear.
Definition step (s : search) (ev : event) : search :=
  match ev with
  | Key c => fst (keyPress c s)
  | Fire t => if bool_decide (t ∈ timers s) then _clearKeySearch (set_timers (timers s ∖ {[t]}) s) else s
  | Clear => _clearKeySearch s
  end.

Definition fresh : search := Search "" None ∅ 0.

(** At most the last timer runs; without one nothing is searched for. *)
Record search_ok (s : search) : Prop := {
  so_timer t : t ∈ timers s -> _timer s = Some t;
  so_next t : t ∈ timers s -> (t < next s)%nat;
  so_key : timers s = ∅ -> _searchKey s = ""
}.

(** At most the last timer runs. *)
Definition one_timer (s : search) : Prop := forall t, t ∈ timers s -> _timer s = Some t.

Lemma cancelled s : one_timer s -> timers (cancel_timer s) = ∅.
Proof.
  intros Ht. unfold cancel_timer. destruct (_timer s) as [t|] eqn:E; cbn; apply set_eq; intros x.
  - rewrite elem_of_difference, elem_of_singleton, elem_of_empty. split; [|done]. intros [Hx Hne]. apply Ht in Hx. congruence.
  - split; [intros H; apply Ht in H; congruence|intros H; by apply elem_of_empty in H].
Qed.

Lemma clear_ok s : one_timer s -> search_ok (_clearKeySearch s) /\ timers (_clearKeySearch s) = ∅ /\ _searchKey (_clearKeySearch s) = "".
Proof. intros H. pose proof (cancelled s H) as E. split; [|by split]. split; cbn; rewrite ?E; [..|done]; intros t Ht; by apply elem_of_empty in Ht. Qed.

Lemma search_step s ev : search_ok s -> search_ok (step s ev).
Proof.
  intros [H1 H2 H3]. destruct ev as [c|t|]; cbn [step]; [|case_bool_decide; [|by split]|by apply clear_ok].
  - unfold keyPress. destruct (_ <? _)%nat; [|by split]. cbn [fst]. unfold _doKeySearch. split; cbn; rewrite (cancelled s H1).
    + intros t. rewrite elem_of_union, elem_of_singleton. intros [->|Ht]; [done|by apply elem_of_empty in Ht].
    + intros t. rewrite elem_of_union, elem_of_singleton. intros [->|Ht]; [lia|by apply elem_of_empty in Ht].
    + intros Hn. exfalso. apply (not_elem_of_empty (C := gset nat) (next s)). rewrite <- Hn. apply elem_of_union. left. by apply elem_of_singleton.
  - apply clear_ok. intros x [Hx _]%elem_of_difference. by apply H1.
Qed.

Lemma search_run evs s : search_ok s -> search_ok (foldl step s evs).
Proof. revert s. induction evs as [|ev evs IH]; intros s H; [done|]. by apply IH, search_step. Qed.

(** The keys typed one after the other. *)
Definition typed (cs : list nat) : list event := Key <$> cs.
Definition text (cs : list nat) : string := foldl (fun acc c => if (31 <? c)%nat then acc +:+ String (Ascii.ascii_of_nat c) "" else acc) "" cs.

Lemma typed_key cs s : _searchKey (foldl step s (typed cs)) =
  foldl (fun acc c => if (31 <? c)%nat then acc +:+ String (Ascii.ascii_of_nat c) "" else acc) (_searchKey s) cs.
Proof.
  revert s. induction cs as [|c cs IH]; intros s; [done|]. cbn [typed fmap list_fmap foldl]. rewrite IH. f_equal.
  cbn [step]. unfold keyPress. by destruct (31 <? c)%nat.
Qed.

(** Whatever has been typed into a menu, and whenever: keys that follow each other are
    searched for together; at most one timer runs, and when it is over, as when the search is
    cleared, nothing is searched for any more and no timer is left, not even for a menu that
    is closed. *)
Theorem search_expires evs cs :
  let s := foldl step fresh evs in
  (forall t1 t2, t1 ∈ timers s -> t2 ∈ timers s -> t1 = t2) /\
  (timers s = ∅ -> _searchKey (foldl step s (typed cs)) = text cs) /\
  (forall t, t ∈ timers s -> _searchKey (step s (Fire t)) = "" /\ timers (step s (Fire t)) = ∅) /\
  _searchKey (step s Clear) = "" /\ timers (step s Clear) = ∅.
Proof.
  cbv zeta. pose proof (search_run evs fresh ltac:(split; cbn; [intros t H; by apply elem_of_empty in H..|done])) as [H1 H2 H3].
  set (s := foldl step fresh evs) in *. split; [|split; [|split]].
  - intros t1 t2 T1%H1 T2%H1. congruence.
  - intros Hn. rewrite typed_key, H3 by done. done.
  - intros t Ht. cbn [step]. rewrite bool_decide_true by done.
    destruct (clear_ok (set_timers (timers s ∖ {[t]}) s)) as (_ & E1 & E2); [intros x [Hx _]%elem_of_difference; by apply H1|done].
  - cbn [step]. destruct (clear_ok s H1) as (_ & E1 & E2). by split.
Qed.

(** ** At a concrete menu *)

(** A browser in which every character of an element takes 7 pixels. *)
Definition client_7 (e : mel) : Z * Z := (7 * Z.of_nat (String.length (innerHTML e)), 14).

Lemma lines_length titles acc : (String.length acc <= String.length (foldl (fun acc s => acc +:+ id s +:+ "<br>") acc titles))%nat /\
  forall t, t ∈ titles -> (String.length t + 4 <= String.length (foldl (fun acc s => acc +:+ id s +:+ "<br>") acc titles))%nat.
Proof.
  revert acc. induction titles as [|x titles IH]; intros acc; cbn [foldl]; [split; [lia|by intros t H%elem_of_nil]|].
  destruct (IH (acc +:+ id x +:+ "<br>")) as [H1 H2]. rewrite !append_length in H1. unfold id in H1; cbn [String.length] in H1. split; [unfold id; lia|].
  intros t [->|Ht]%elem_of_cons; [unfold id in *; lia|by apply H2].
Qed.

Lemma client_7_widest titles t : t ∈ titles ->
  title_width id client_7 t <= (measured id client_7 (Lines titles) parentClasses elementClasses None).1.
Proof.
  intros Ht. unfold title_width, measured, client_7. cbn [innerHTML measuredString fst]. destruct (lines_length titles "") as [_ H].
  specialize (H t Ht). cbn [foldl]. rewrite !append_length. cbn [String.length]. unfold id at 1. lia.
Qed.

Definition menu_layout_0 : layout := Layout (Some 240) (Some 80) None None None None (Some 110) false false.

Lemma menu_fits_titles_witness :
  let m := (updateMenuSize id client_7 600 12 21 (Some 100) false 100 20 ["Open"; "Save as"] menu_layout_0 (Page [] None)).2 in
  exists w h, width (menu_layout m) = Some w /\ title_width id client_7 "Save as" + 34 <= w /\
    height (menu_layout m) = Some h /\ _recalculateSizes (Some h) = Some 42.
Proof.
  destruct (menu_fits_titles id client_7 600 12 21 (Some 100) false client_7_widest 100 20 ["Open"; "Save as"] menu_layout_0 (Page [] None)
    ltac:(done) eq_refl (or_introl eq_refl) ltac:(lia) ltac:(lia)) as (w & h & Ew & Eh & H & _ & Hs & _).
  exists w, h. split; [exact Ew|]. split; [apply H; right; left|]. split; [exact Eh|]. rewrite Hs; reflexivity.
Defined.

Lemma search_expires_witness : _searchKey (foldl step (foldl step fresh [Key 97; Key 98; Fire 1]) (typed [83; 97; 9]%nat)) = "Sa".
Proof. etrans; [apply (search_expires [Key 97; Key 98; Fire 1] [83; 97; 9]%nat); reflexivity|reflexivity]. Defined.

(** ** Departures *)

(** The width is set once: when the items of a menu that is open are replaced by others with
    longer titles, the menu keeps its width, and the titles are cut off. *)
Lemma longer_titles_are_cut :
  let '(p, m) := updateMenuSize id client_7 600 12 21 None false 100 20 ["Open"] menu_layout_0 (Page [] None) in
  let '(_, m') := updateMenuSize id client_7 600 12 21 None false 100 20 ["Open in a new window"] (menu_layout m) p in
  width (menu_layout m') = Some 90 /\ title_width id client_7 "Open in a new window" = 168.
Proof. vm_compute. done. Qed.

(** A menu without items and without a least width has no width. *)
Lemma empty_menu_has_no_width :
  width (menu_layout (updateMenuSize id client_7 600 12 21 (Some 100) false 100 20 [] menu_layout_0 (Page [] None)).2) = None.
Proof. reflexivity. Qed.
