(* ===== verification/AlertPanel.v ===== *)
(** * Alert panels ([views/alert_panel.js])

    An alert panel stacks its title and its content, and the content stacks the message and
    the buttons, so that the panel is as high as its message needs.  The views and their
    managers are those of [Layout], the message is measured by [Measure], closing is that of
    [Panel]. *)

From S2P Require Import Prelude.
From S2P Require Import Measure.
From S2P Require Panel ViewSupport.
From S2P Require Import Layout.
Open Scope string_scope.
Open Scope list_scope.
Open Scope flame_scope.

(** ** Views *)

(** The views of an alert panel. *)
Definition PANEL : nat := 0.
Definition TITLE : nat := 1.
Definition CONTENT : nat := 2.
Definition RESIZE : nat := 3.
Definition MESSAGE : nat := 4.
Definition BUTTONS : nat := 5.

Definition num_props (l : list (string * Z)) : gmap string lval := list_to_map (prod_map id LNum <$> l).
Definition plain (l : list (string * Z)) : layout := Layout (num_props l) None None None None None None false.
Definition bound (path : string) (padding : option Z) (l : list (string * Z)) : layout :=
  Layout (<["height" := LStr path]> (num_props l)) None None None None padding None false.
Definition panel_layout : layout := Layout (num_props [("width", 400%Z)]) (Some 0%Z) (Some (-50)%Z) None None None None false.

Definition panel_manager : manager := Manager 0 0 0.
Definition content_manager : manager := Manager 20 17 10.

(** The views as they are defined.  A panel that has not been initialised yet does not
    consult its manager. *)
Definition alert_views (title initialised : bool) : list (nat * view) :=
  [(PANEL, View panel_layout None [TITLE; CONTENT; RESIZE] (if initialised then Some panel_manager else None) false (Some true) false true None []);
   (TITLE, View (bound "height" (Some 1%Z) [("left", 0); ("right", 0)]%Z) (Some PANEL) [] None false (Some title) false true None []);
   (CONTENT, View (plain [("left", 15); ("right", 15); ("top", 36); ("bottom", 15)]%Z) (Some PANEL) [MESSAGE; BUTTONS] (Some content_manager)
      false (Some true) false true None []);
   (RESIZE, View (plain [("bottom", 3); ("right", 3); ("height", 16); ("width", 16)]%Z) (Some PANEL) [] None false (Some false) true true None []);
   (MESSAGE, View (bound "measuredHeight" None [("left", 10); ("right", 2)]%Z) (Some CONTENT) [] None false (Some true) false true None []);
   (BUTTONS, View (Layout (<["width" := LStr "100%"]> (num_props [("right", 0); ("height", 30)]%Z)) None None None None None None false)
      (Some CONTENT) [] None false (Some true) false true None [])].

(** The properties that heights are bound to; the title has no header view of its own. *)
Definition get_property (measuredHeight : Z) (o : nat) (path : string) : option lval :=
  if decide (o = MESSAGE /\ path = "measuredHeight") then Some (LNum measuredHeight)
  else if decide (o = TITLE /\ path = "height") then Some (LNum 26) else None.

Definition set_manager m (v : view) : view := View (v_layout v) (parentView v) (childViews v) m (_layoutChangeInProgress v) (isVisible v) (ignoreLayoutManager v) (useAbsolutePosition v) (element v) (_layoutObservers v).
Definition set_isVisible b (v : view) : view := View (v_layout v) (parentView v) (childViews v) (layoutManager v) (_layoutChangeInProgress v) b (ignoreLayoutManager v) (useAbsolutePosition v) (element v) (_layoutObservers v).

(** More than there are views. *)
Definition FUEL : nat := 6.
Definition consult (m : Z) (o : nat) (s : gmap nat view) : option (gmap nat view) :=
  consultLayoutManager (get_property m) (adjustLayout (get_property m) FUEL) o s.

(** The content is initialised before the panel it is in. *)
Definition create_views (title : bool) (m : Z) : option (gmap nat view) :=
  s1 ← consult m CONTENT (list_to_map (alert_views title false));
  consult m PANEL (alter (set_manager (Some panel_manager)) PANEL s1).

(** The rendering of the elements, invisible ones included. *)
Definition append_views (m : Z) (s : gmap nat view) : gmap nat view :=
  map_imap (fun o v =>
    let v' := _resolveLayoutBindings (get_property m) o v in Some (set_element (Some (_translateLayout (v_layout v'))) v')) s.

(** ** The panel *)

Section alert.
Context (escape : string -> string) (client : mel -> Z * Z).   (* as in [Measure] *)
(** The class names of the panel and of the message, in between spaces. *)
Context (panelClasses messageClasses : string).

Record alert := Alert {
  views : gmap nat view;
  title : jsval;
  message : string;
  messageViewWidth : Z;
  measuring : page
}.

Definition put_views s a := Alert s (title a) (message a) (messageViewWidth a) (measuring a).

Definition measureMessage (width : Z) (msg : string) (p : page) : page * Z :=
  let '(p', size) := measureString escape client (OneLine msg) (Some panelClasses) (Some messageClasses)
                       (Some ("width: " +:+ pretty width +:+ "px;")) p in
  (p', Z.max (Z.min (default 0%Z (snd <$> size)) 600) 50).

(** [measuredHeight], asked for again, and the observer that was made for the layout. *)
Definition measuredHeightDidChange (a : alert) : option alert :=
  let '(p', m) := measureMessage (messageViewWidth a) (message a) (measuring a) in
  s ← adjustLayout (get_property m) FUEL MESSAGE "height" (LNum m) (views a);
  Some (Alert s (title a) (message a) (messageViewWidth a) p').

(** The [isVisible] of the title: [notEqual('parentView.title', null)]. *)
Definition title_visible (t : jsval) : bool := negb (bool_decide (t = JNull)).

Inductive event :=
| SetMessage (msg : string)
| SetTitle (t : jsval)
| MessageInserted (width : Z)                 (* [didInsertElement] of the message *)
| Inserted (o : nat).                         (* that of other views *)

(** Setting a property to the value it has is not noticed. *)
Definition step (ev : event) (a : alert) : option alert :=
  match ev with
  | SetMessage msg =>
      if decide (msg = message a) then Some a
      else measuredHeightDidChange (Alert (views a) (title a) msg (messageViewWidth a) (measuring a))
  | MessageInserted w =>
      if decide (w = messageViewWidth a) then Some a
      else measuredHeightDidChange (Alert (views a) (title a) (message a) w (measuring a))
  | SetTitle t =>
      if decide (t = title a) then Some a
      else
        s ← updateLayout (get_property 0) (adjustLayout (get_property 0) FUEL) TITLE
              (alter (set_isVisible (Some (title_visible t))) TITLE (views a));
        Some (Alert s t (message a) (messageViewWidth a) (measuring a))
  | Inserted o => s ← consult 0 o (views a); Some (put_views s a)
  end.

Fixpoint run (evs : list event) (a : alert) : option alert :=
  match evs with [] => Some a | ev :: evs' => a' ← step ev a; run evs' a' end.

(** A panel created with a title and a message; the width of the message is not known yet. *)
Definition create (t : jsval) (msg : string) : option alert :=
  let '(p, m) := measureMessage 0 msg (Page [] None) in
  s ← create_views (title_visible t) m;
  Some (Alert (append_views m s) t msg 0 p).

(** ** Specification *)

(** All views, whatever their tops and heights. *)
Definition base_view (ov : nat * view) : nat * view :=
  let '(o, v) := ov in
  let v' := _resolveLayoutBindings (get_property 0) o v in
  (o, if decide (o = CONTENT) then set_layout (set_props (<["height" := LNum 0]> (props (v_layout v'))) (v_layout v')) v' else v').
Definition base_views (vis : bool) : list (nat * view) := base_view <$> alert_views vis true.
Definition base (vis : bool) : gmap nat view := list_to_map (base_views vis).

(** The measured height of the message that is shown. *)
Definition message_height (a : alert) : Z :=
  (measureMessage (messageViewWidth a) (message a) (Page [] None)).2.

Definition title_height (a : alert) : Z := if title_visible (title a) then 27 else 0.

Record alert_ok (a : alert) (m : Z) : Prop := {
  ao_frame : frame (base (title_visible (title a))) (views a);
  ao_flags x : flag (views a) x = false;
  ao_resize : prop_of (views a) RESIZE "height" = Some (LNum 16);
  ao_title : prop_of (views a) TITLE "height" = Some (LNum 26);
  ao_buttons : prop_of (views a) BUTTONS "height" = Some (LNum 30);
  ao_message : prop_of (views a) MESSAGE "height" = Some (LNum m);
  ao_content : stacked content_manager (views a) CONTENT;
  ao_panel : stacked panel_manager (views a) PANEL;
  ao_page : one_element (measuring a)
}.

(** *** A new panel *)

Definition created {A} (f : gmap nat view -> A) (vis : bool) (m : Z) : option A :=
  (fun s => f (append_views m s)) <$> create_views vis m.

Definition tops_of (mg : manager) (o : nat) (s : gmap nat view) : list (option lval) := (fun ct => prop_of s ct.1 "top") <$> (positions mg s o).1.
Definition tops_wanted (mg : manager) (o : nat) (s : gmap nat view) : list (option lval) := (fun ct => Some (LNum ct.2)) <$> (positions mg s o).1.
Definition end_wanted (mg : manager) (o : nat) (s : gmap nat view) : option lval := Some (LNum ((positions mg s o).2 + m_bottomMargin mg)).

Lemma created_frame vis m : created (fun s => erase <$> s) vis m = Some (erase <$> base vis).
Proof. destruct vis; vm_compute; reflexivity. Qed.
Lemma created_flags vis m : created (fun s => _layoutChangeInProgress <$> s) vis m = Some ((fun _ => false) <$> base vis).
Proof. destruct vis; vm_compute; reflexivity. Qed.
Lemma created_heights vis m : created (fun s => (prop_of s RESIZE "height", prop_of s TITLE "height", prop_of s BUTTONS "height", prop_of s MESSAGE "height")) vis m =
  Some (Some (LNum 16), Some (LNum 26), Some (LNum 30), Some (LNum m)).
Proof. destruct vis; vm_compute; reflexivity. Qed.
Lemma created_content vis m : created (fun s => (tops_of content_manager CONTENT s, prop_of s CONTENT "height")) vis m =
  created (fun s => (tops_wanted content_manager CONTENT s, end_wanted content_manager CONTENT s)) vis m.
Proof. destruct vis; vm_compute; reflexivity. Qed.
Lemma created_panel vis m : created (fun s => (tops_of panel_manager PANEL s, prop_of s PANEL "height")) vis m =
  created (fun s => (tops_wanted panel_manager PANEL s, end_wanted panel_manager PANEL s)) vis m.
Proof. destruct vis; vm_compute; reflexivity. Qed.

Lemma tops_stacked mg o s : tops_of mg o s = tops_wanted mg o s -> prop_of s o "height" = end_wanted mg o s -> stacked mg s o.
Proof.
  intros Ht Hh. split; [|exact Hh]. unfold tops_of, tops_wanted in Ht. induction (positions mg s o).1 as [|ct l IH]; [constructor|].
  injection Ht as Hc Hl. constructor; [done|by apply IH].
Qed.

Lemma created_ok vis m : exists s, create_views vis m = Some s /\
  let s' := append_views m s in
  frame (base vis) s' /\ (forall x, flag s' x = false) /\ prop_of s' RESIZE "height" = Some (LNum 16) /\ prop_of s' TITLE "height" = Some (LNum 26) /\
  prop_of s' BUTTONS "height" = Some (LNum 30) /\ prop_of s' MESSAGE "height" = Some (LNum m) /\
  stacked content_manager s' CONTENT /\ stacked panel_manager s' PANEL.
Proof.
  pose proof (created_frame vis m) as F. pose proof (created_flags vis m) as G. pose proof (created_heights vis m) as H.
  pose proof (created_content vis m) as C. pose proof (created_panel vis m) as P. unfold created in *.
  destruct (create_views vis m) as [s|]; [|discriminate F]. cbn [fmap option_fmap option_map] in *.
  exists s. split; [done|]. cbv zeta. set (s' := append_views m s) in *. clearbody s'.
  apply (inj Some) in F, G, H, C, P. apply pair_eq in C as [C1 C2], P as [P1 P2], H as [H H3]. apply pair_eq in H as [H H2]. apply pair_eq in H as [H H1].
  split_and!; [exact F| |done|done|done|done|by apply tops_stacked|by apply tops_stacked].
  intros x. unfold flag. apply (f_equal (.!! x)) in G. rewrite !lookup_fmap in G. destruct (s' !! x), (base vis !! x); cbn in G; congruence.
Qed.

(** *** The views *)

Ltac views_of H := unfold base_views, alert_views in H; cbn [fmap list_fmap base_view] in H;
  repeat (apply elem_of_cons in H as [H|H]; [injection H as -> ->|]); [..|by apply elem_of_nil in H].

Lemma base_lookup vis o v : base vis !! o = Some v -> (o, v) ∈ base_views vis.
Proof. apply elem_of_list_to_map_2. Qed.

Lemma base_managed vis o mg : managed (base vis) o mg <-> o = PANEL /\ mg = panel_manager \/ o = CONTENT /\ mg = content_manager.
Proof.
  split.
  - unfold managed. destruct (base vis !! o) as [v|] eqn:E; [|done]. apply base_lookup in E. cbn [mbind option_bind].
    views_of E; intros H; try discriminate H; injection H as <-; auto.
  - intros [[-> ->]|[-> ->]]; by destruct vis.
Qed.

Lemma base_wf vis : well_formed (base vis).
Proof.
  split.
  - intros o v E%base_lookup. views_of E; (split; [repeat constructor; set_solver|]); intros c Hc; cbn in Hc;
      repeat (apply elem_of_cons in Hc as [->|Hc]; [by destruct vis|]); by apply elem_of_nil in Hc.
  - intros o mg Hm%base_managed. destruct Hm as [[-> ->]|[-> ->]]; (split; [by destruct vis|]); intros c Hc;
      destruct vis; vm_compute in Hc; repeat (apply elem_of_cons in Hc as [->|Hc]; [split; [by eexists|reflexivity]|]);
      by apply elem_of_nil in Hc.
Qed.

Section shape.
Context (vis : bool) (s : gmap nat view) (Hf : frame (base vis) s).

Lemma view_wf : (forall o, o ∈ [TITLE; CONTENT; RESIZE; MESSAGE; BUTTONS] -> exists h, prop_of s o "height" = Some (LNum h)) -> well_formed s.
Proof.
  intros Hh. apply (well_formed_frame (base vis)); [done|apply base_wf|]. intros c [h Hc].
  unfold prop_of in Hc. destruct (base vis !! c) as [v|] eqn:E; [|done]. apply base_lookup in E.
  views_of E; try (apply Hh; set_solver).
Qed.

Lemma view_chain : chain s CONTENT [CONTENT; PANEL] /\ chain s PANEL [PANEL].
Proof.
  assert (chain s PANEL [PANEL]) as H.
  { apply (frame_chain (base vis)); [done|]. apply chain_root. by destruct vis. }
  split; [|done]. eapply chain_up; [rewrite (frame_parent (base vis)) by done; by destruct vis|set_solver|exact H].
Qed.

Lemma margins o : margin_of topMargin s o = 0%Z /\ margin_of topPadding s o = 0%Z /\
  margin_of bottomPadding s o = if (o =? TITLE)%nat then 1%Z else 0%Z.
Proof.
  rewrite !(fun f H => frame_margin f (base vis) s o H Hf) by done. unfold margin_of, layout_of.
  destruct (base vis !! o) as [v|] eqn:E; [apply base_lookup in E; by views_of E|]. cbn. split_and!; [done..|].
  destruct (Nat.eqb_spec o TITLE) as [->|]; [|done]. by destruct vis.
Qed.

(** The stacks, in numbers. *)
Lemma two_eq (x y : nat) (a b c a' b' c' : Z) : a = a' -> b = b' -> c = c' -> ([(x, a); (y, b)], c) = ([(x, a'); (y, b')], c').
Proof. by intros -> -> ->. Qed.
Lemma content_positions : positions content_manager s CONTENT =
  ([(MESSAGE, 20%Z); (BUTTONS, (30 + height_num s MESSAGE)%Z)], (30 + height_num s MESSAGE + height_num s BUTTONS)%Z).
Proof.
  unfold positions. rewrite (frame_affected (base vis)) by done.
  assert (getAffectedChildViews (base vis) CONTENT = [MESSAGE; BUTTONS]) as -> by (by destruct vis).
  cbn [stack]. destruct (margins MESSAGE) as (-> & -> & ->), (margins BUTTONS) as (-> & -> & ->). cbn -[Z.add height_num].
  apply two_eq; lia.
Qed.

Lemma panel_positions : positions panel_manager s PANEL =
  if vis then ([(TITLE, 0%Z); (CONTENT, (1 + height_num s TITLE)%Z)], (1 + height_num s TITLE + height_num s CONTENT)%Z)
  else ([(CONTENT, 0%Z)], height_num s CONTENT).
Proof.
  unfold positions. rewrite (frame_affected (base vis)) by done.
  destruct (margins TITLE) as (T1 & T2 & T3), (margins CONTENT) as (C1 & C2 & C3). destruct vis.
  - change (getAffectedChildViews (base true) PANEL) with [TITLE; CONTENT]. cbn [stack].
    rewrite T1, T2, T3, C1, C2, C3. cbn -[Z.add height_num]. apply two_eq; lia.
  - change (getAffectedChildViews (base false) PANEL) with [CONTENT]. cbn [stack]. by rewrite C1, C2, C3.
Qed.
End shape.

(** *** Steps *)

Lemma measureMessage_ok w msg p : one_element p ->
  exists p', measureMessage w msg p = (p', (measureMessage w msg (Page [] None)).2) /\ one_element p'.
Proof.
  intros Hp. unfold measureMessage. rewrite (measure_ok escape client _ _ _ _ p Hp), (measure_ok escape client _ _ _ _ (Page [] None)) by (by left).
  eexists. split; [reflexivity|]. right. by eexists.
Qed.

Section ok.
Context (a : alert) (m : Z) (Hok : alert_ok a m).
Notation vis := (title_visible (title a)).
Notation s := (views a).

Lemma ok_wf : well_formed s.
Proof.
  destruct Hok as [Hf _ Hr Ht Hb Hm [_ Hc] _ _]. apply (view_wf vis); [done|]. intros o Ho.
  repeat (apply elem_of_cons in Ho as [->|Ho]; [by eexists|]). by apply elem_of_nil in Ho.
Qed.

Lemma ok_stacked : all_stacked_but None s.
Proof.
  intros w mg _ Hm. apply (frame_managed (base vis)) in Hm; [|apply Hok]. apply base_managed in Hm as [[-> ->]|[-> ->]]; apply Hok.
Qed.

Lemma ok_unmanaged o : o ∈ [TITLE; RESIZE; MESSAGE; BUTTONS] -> s !! o ≫= layoutManager = None.
Proof.
  intros Ho. rewrite (frame_proj layoutManager (base vis)) by (done || apply Hok).
  repeat (apply elem_of_cons in Ho as [->|Ho]; [by destruct vis|]). by apply elem_of_nil in Ho.
Qed.

(** After the managers have been at work again. *)
Lemma restacked s' m' t msg w p : frame (base (title_visible t)) s' -> (forall x, flag s' x = false) -> all_stacked_but None s' ->
  prop_of s' MESSAGE "height" = Some (LNum m') ->
  (forall o, o ∈ [TITLE; RESIZE; BUTTONS] -> prop_of s' o "height" = prop_of s o "height") -> one_element p ->
  alert_ok (Alert s' t msg w p) m'.
Proof.
  intros Hf Hfl Hst Hm Hh Hp. destruct Hok. split; cbn [title views measuring]; try done.
  - rewrite Hh by set_solver. done.
  - rewrite Hh by set_solver. done.
  - rewrite Hh by set_solver. done.
  - apply Hst; [done|]. apply (frame_managed (base (title_visible t))); [done|]. apply base_managed. by right.
  - apply Hst; [done|]. apply (frame_managed (base (title_visible t))); [done|]. apply base_managed. by left.
Qed.
End ok.

Lemma message_changes a m msg w : alert_ok a m ->
  exists a', measuredHeightDidChange (Alert (views a) (title a) msg w (measuring a)) = Some a' /\
    title a' = title a /\ message a' = msg /\ messageViewWidth a' = w /\ alert_ok a' (message_height a').
Proof.
  intros Hok. unfold measuredHeightDidChange. cbn [messageViewWidth message measuring views title].
  destruct (measureMessage_ok w msg (measuring a)) as (p' & -> & Hp'); [apply Hok|]. set (m' := (measureMessage w msg _).2).
  destruct (view_chain _ _ (ao_frame a m Hok)) as [Hc _].
  destruct (height_change_ok (get_property m') [CONTENT; PANEL] MESSAGE CONTENT m' (views a) 5) as (s' & E & F & G & W & A & Hm & Hk);
    [|exact Hc|cbn; lia|by apply (ok_wf a m)|intros; apply Hok|by apply (ok_stacked a m)|apply (ok_unmanaged a m Hok); set_solver|].
  { rewrite (frame_parent (base (title_visible (title a)))) by apply Hok. by destruct (title_visible (title a)). }
  unfold FUEL. rewrite E. cbn [mbind option_bind]. eexists. split; [reflexivity|]. split_and!; [done..|].
  unfold message_height. cbn [messageViewWidth message]. fold m'. apply (restacked a m Hok); [|intros; rewrite G; apply Hok|done|done| |done].
  - eapply frame_trans; [apply Hok|done].
  - intros o Ho. apply Hk; [by intros ->; set_solver|]. apply (ok_unmanaged a m Hok). set_solver.
Qed.

Lemma retitled vis t s : frame (base vis) s -> frame (base (title_visible t)) (alter (set_isVisible (Some (title_visible t))) TITLE s).
Proof.
  unfold frame. intros Hf. set (f := set_isVisible _).
  assert (erase <$> alter f TITLE s = alter f TITLE (erase <$> s)) as ->.
  { apply map_eq. intros i. rewrite lookup_fmap. destruct (decide (TITLE = i)) as [<-|Hne].
    - rewrite !lookup_alter_eq, lookup_fmap. by destruct (s !! TITLE).
    - by rewrite !lookup_alter_ne, lookup_fmap. }
  rewrite Hf. subst f. by destruct vis, (title_visible t); vm_compute.
Qed.

Lemma title_changes a m t : alert_ok a m ->
  exists s', updateLayout (get_property 0) (adjustLayout (get_property 0) FUEL) TITLE
      (alter (set_isVisible (Some (title_visible t))) TITLE (views a)) = Some s' /\
    alert_ok (Alert s' t (message a) (messageViewWidth a) (measuring a)) m.
Proof.
  intros Hok. set (s0 := alter _ TITLE (views a)). unfold updateLayout.
  assert (frame (base (title_visible t)) s0) as F0 by (eapply retitled; apply Hok).
  assert (forall o p, prop_of s0 o p = prop_of (views a) o p) as P0 by (intros; by apply prop_alter).
  assert (forall x, flag s0 x = false) as G0 by (intros x; unfold s0; rewrite flag_alter by done; apply Hok).
  destruct (write_css_facts TITLE s0) as (F1 & G1 & P1). set (s1 := write_css TITLE s0) in *.
  assert (F2 := frame_trans _ _ _ F0 F1).
  rewrite (frame_parent (base (title_visible t)) s1) by done.
  assert (base (title_visible t) !! TITLE ≫= parentView = Some PANEL) as -> by (by destruct (title_visible t)).
  assert (forall o, prop_of s1 o "height" = prop_of (views a) o "height") as Hh by (intros; by rewrite P1, P0).
  destruct (view_chain _ s1 F2) as [_ Hc].
  destruct (consult_ok (get_property 0) [PANEL] PANEL s1 FUEL) as (s' & -> & F' & G' & W' & A' & H');
    [done|cbn; unfold FUEL; lia| |intros; by rewrite G1| |].
  - apply (view_wf (title_visible t)); [done|]. destruct Hok as [_ _ ? ? ? ? [_ ?] _ _]. intros o Ho. rewrite Hh.
    repeat (apply elem_of_cons in Ho as [->|Ho]; [by eexists|]). by apply elem_of_nil in Ho.
  - intros o mg Ho Hm. apply (frame_managed (base (title_visible t))) in Hm; [|done]. apply base_managed in Hm as [[-> ->]|[-> ->]]; [done|].
    destruct (ao_content a m Hok) as [Ht He]. unfold stacked in *. rewrite (content_positions _ _ F2).
    rewrite (content_positions _ _ (ao_frame a m Hok)) in Ht, He. unfold height_num in *. rewrite !Hh.
    split; [|done]. cbn [fst] in Ht |- *. rewrite !Forall_cons in Ht |- *. cbn [fst snd] in *. destruct Ht as (Ht1 & Ht2 & _). split_and!; [by rewrite P1, P0|by rewrite P1, P0|constructor].
  - exists s'. split; [done|]. apply (restacked a m Hok); [by eapply frame_trans|intros; by rewrite G', G1, G0|done| | |apply Hok].
    + rewrite H', Hh; [apply Hok|]. rewrite (frame_proj layoutManager (base (title_visible t))) by done. by destruct (title_visible t).
    + intros o Ho. rewrite H', Hh; [done|]. rewrite (frame_proj layoutManager (base (title_visible t))) by done.
      repeat (apply elem_of_cons in Ho as [->|Ho]; [by destruct (title_visible t)|]). by apply elem_of_nil in Ho.
Qed.

Lemma consulted a m o : alert_ok a m -> exists s', consult 0 o (views a) = Some s' /\ alert_ok (put_views s' a) m.
Proof.
  intros Hok. assert (forall s', restacks None (views a) s' -> alert_ok (put_views s' a) m) as Hre.
  { intros s' (F & G & W & A & H). apply (restacked a m Hok); [eapply frame_trans; [apply Hok|done]|intros; rewrite G; by rewrite (ao_flags a m Hok)|done| | |apply Hok].
    - rewrite H by (apply (ok_unmanaged a m Hok); set_solver). apply Hok.
    - intros x Hx. apply H. apply (ok_unmanaged a m Hok). set_solver. }
  destruct (view_chain _ _ (ao_frame a m Hok)) as [Hc1 Hc2].
  assert (forall l, chain (views a) o l -> length l <= FUEL -> exists s', consult 0 o (views a) = Some s' /\ alert_ok (put_views s' a) m) as Hdo.
  { intros l Hl Hn. destruct (consult_ok (get_property 0) l o (views a) FUEL) as (s' & E & R);
      [done|done|by apply (ok_wf a m)|intros; apply Hok|intros w mg _; by apply (ok_stacked a m)|]. exists s'. split; [exact E|by apply Hre]. }
  destruct (views a !! o ≫= layoutManager) as [mg|] eqn:E.
  - assert (managed (views a) o mg) as Hm by exact E. apply (frame_managed (base (title_visible (title a)))) in Hm; [|apply Hok].
    apply base_managed in Hm as [[-> _]|[-> _]]; (eapply Hdo; [done|cbn; unfold FUEL; lia]).
  - exists (views a). split; [|by destruct a]. unfold consult, consultLayoutManager. destruct (views a !! o) as [v|]; [|done].
    cbn in E. by rewrite E.
Qed.

Lemma event_ok ev a : alert_ok a (message_height a) -> exists a', step ev a = Some a' /\ alert_ok a' (message_height a').
Proof.
  intros Hok. destruct ev as [msg|t|w|o]; cbn [step].
  - destruct (decide (msg = message a)); [by eexists|].
    destruct (message_changes a _ msg (messageViewWidth a) Hok) as (a' & E & _ & _ & _ & Ha). by exists a'.
  - destruct (decide (t = title a)); [by eexists|]. destruct (title_changes a _ t Hok) as (s' & -> & Ha). by eexists.
  - destruct (decide (w = messageViewWidth a)); [by eexists|].
    destruct (message_changes a _ (message a) w Hok) as (a' & E & _ & _ & _ & Ha). by exists a'.
  - destruct (consulted a _ o Hok) as (s' & -> & Ha). by eexists.
Qed.

(** ** Properties *)

(** C12. An alert panel is created, and however its message and its title change after that
    and whatever is laid out, its message has the height it was measured with, no less than
    50 and no more than 600 pixels; the buttons are below the message; and content and panel
    reach just around them, with room for the title if there is one. *)
Theorem alert_fits_message t msg evs :
  exists a0 a, create t msg = Some a0 /\ run evs a0 = Some a /\
  let m := message_height a in
  let s := views a in
  (50 <= m <= 600)%Z /\
  prop_of s MESSAGE "top" = Some (LNum 20) /\ prop_of s MESSAGE "height" = Some (LNum m) /\
  prop_of s BUTTONS "top" = Some (LNum (20 + m + 10)) /\
  prop_of s CONTENT "top" = Some (LNum (title_height a)) /\ prop_of s CONTENT "height" = Some (LNum (20 + m + 10 + 30 + 17)) /\
  prop_of s PANEL "height" = Some (LNum (title_height a + (m + 77))).
Proof.
  unfold create. destruct (measureMessage_ok 0 msg (Page [] None)) as (p & Ep & Hp); [by left|]. rewrite Ep.
  set (m0 := (measureMessage 0 msg (Page [] None)).2). destruct (created_ok (title_visible t) m0) as (s0 & -> & F & G & Hs). cbn [mbind option_bind].
  set (a0 := Alert _ _ _ _ _). assert (alert_ok a0 (message_height a0)) as Hok.
  { destruct Hs as (? & ? & ? & ? & ? & ?). by split. }
  clearbody a0. clear -Hok. assert (exists a, run evs a0 = Some a /\ alert_ok a (message_height a)) as (a & Hrun & Ha).
  { revert a0 Hok. induction evs as [|ev evs IH]; intros a Ha; [by eexists|]. cbn [run].
    destruct (event_ok ev a Ha) as (a' & -> & Ha'). by apply IH. }
  exists a0, a. split; [done|]. split; [done|]. cbv zeta. destruct Ha as [Hf _ _ Ht Hb Hm [Hc1 Hc2] [Hp1 Hp2] _].
  rewrite (content_positions _ _ Hf) in Hc1, Hc2. rewrite (panel_positions _ _ Hf) in Hp1, Hp2.
  unfold height_num in *. rewrite Hm, Hb in Hc1, Hc2. rewrite Ht, Hc2 in Hp1, Hp2. unfold title_height.
  cbn [fst] in Hc1. rewrite !Forall_cons in Hc1. destruct Hc1 as (T1 & T2 & _). cbn [fst snd m_bottomMargin content_manager panel_manager] in *.
  split; [unfold message_height, measureMessage; destruct (measureString _ _ _ _ _ _ _); cbn [snd]; lia|].
  split_and!; [exact T1|exact Hm| | | |].
  - rewrite T2. f_equal. f_equal. lia.
  - destruct (title_visible (title a)); cbn [fst] in Hp1; rewrite !Forall_cons in Hp1; cbn [fst snd] in Hp1; [by destruct Hp1 as (_ & -> & _)|by destruct Hp1 as (-> & _)].
  - rewrite Hc2. f_equal. f_equal. lia.
  - rewrite Hp2. f_equal. f_equal. destruct (title_visible (title a)); cbn [snd]; lia.
Qed.
End alert.

(** ** The three kinds of alerts *)

Section kinds.
Context (INFO_ICON WARN_ICON ERROR_ICON : string).       (* the URLs of the images *)

(** The objects that an application gives as configurations. *)
Abbreviation heap := (gmap nat (gmap string jsval)).

(** [jQuery.extend(config || {}, ...)] puts the properties into the object given. *)
Definition extend (config : option nat) (source : gmap string jsval) (h : heap) : heap * nat :=
  let o := match config with Some o => o | None => fresh (dom h) end in
  (<[o := source ∪ default ∅ (h !! o)]> h, o).

(** What [AlertPanel.reopen] defines. *)
Definition defaults : gmap string jsval :=
  list_to_map [("icon", JStr INFO_ICON); ("isModal", JBool true); ("allowClosingByClickingOutside", JBool false);
    ("allowMoving", JBool true); ("isCancelVisible", JBool true); ("isConfirmVisible", JBool true); ("isCloseable", JBool true);
    ("title", JStr ""); ("message", JStr ""); ("confirmButtonTitle", JStr "OK"); ("cancelButtonTitle", JStr "Cancel")].

(** The properties of the panel that [createWithMixins] makes of a configuration. *)
Definition createWithMixins (o : nat) (h : heap) : gmap string jsval := default ∅ (h !! o) ∪ defaults.

Inductive kind := Info | Warn | Error.

Definition kind_settings (k : kind) : gmap string jsval :=
  match k with
  | Info => {["icon" := JStr INFO_ICON; "isCancelVisible" := JBool false]}
  | Warn => {["icon" := JStr WARN_ICON]}
  | Error => {["icon" := JStr ERROR_ICON]}
  end.

(** [AlertPanel.info], [warn] and [error]. *)
Definition make (k : kind) (config : option nat) (h : heap) : heap * gmap string jsval :=
  let '(h', o) := extend config (kind_settings k) h in (h', createWithMixins o h').

Definition prop (p : string) (props : gmap string jsval) : jsval := default JUndefined (props !! p).

(** The buttons, and their properties as they get them from the panel; [isDisabled] is not
    taken from it. *)
Record button := Button { b_title : jsval; b_isVisible : jsval; b_isDisabled : bool; b_isDefault : bool }.

Definition cancelButtonView (props : gmap string jsval) : button :=
  Button (prop "cancelButtonTitle" props) (prop "isCancelVisible" props) false false.
Definition confirmButtonView (props : gmap string jsval) : button :=
  Button (prop "confirmButtonTitle" props) (prop "isConfirmVisible" props) false true.

(** ** Closing *)

Definition alert_config (props : gmap string jsval) : Panel.config :=
  Panel.Config (truthy (prop "isModal" props)) true true (truthy (prop "allowMoving" props)) false
    (truthy (prop "allowClosingByClickingOutside" props)) false None 100 52.

Definition onCancel (props : gmap string jsval) (n : nat) (d : Panel.desk) : outcome Panel.desk :=
  if truthy (prop "isCloseable" props) then Panel.close n d else Ok d.
Definition onConfirm := onCancel.

Inductive action := Confirm | Cancel | Escape | Enter | ClickOutside.
#[local] Instance action_eq_dec : EqDecision action.
Proof. solve_decision. Defined.

(** The views of the panel down to its buttons; the confirming one is the default. *)
Definition CANCEL_BUTTON : nat := 6.
Definition CONFIRM_BUTTON : nat := 7.
Definition alert_tree : ViewSupport.vnode :=
  let leaf n := ViewSupport.VNode n true [] in
  ViewSupport.VNode PANEL true
    [ViewSupport.VNode TITLE true [leaf 8];
     ViewSupport.VNode CONTENT true [ViewSupport.VNode MESSAGE true [leaf 9; leaf 10]; ViewSupport.VNode BUTTONS true [leaf CANCEL_BUTTON; leaf CONFIRM_BUTTON]];
     leaf RESIZE].
Definition isDefault (props : gmap string jsval) (n : nat) : bool :=
  if (n =? CANCEL_BUTTON)%nat then b_isDefault (cancelButtonView props)
  else if (n =? CONFIRM_BUTTON)%nat then b_isDefault (confirmButtonView props) else false.

(** [insertNewline] of a panel: a click on the first default button is simulated, which is
    performed as neither button is disabled. *)
Definition insertNewline (props : gmap string jsval) (n : nat) (d : Panel.desk) : outcome Panel.desk :=
  match ViewSupport.firstDescendantWithProperty (isDefault props) alert_tree with
  | Some v => if (v =? CONFIRM_BUTTON)%nat then onConfirm props n d else onCancel props n d
  | None => Ok d
  end.

(** The actions of the buttons, the escape and the enter key, and a click on the modal pane. *)
Definition act (props : gmap string jsval) (n : nat) (ac : action) (d : Panel.desk) : outcome Panel.desk :=
  match ac with
  | Confirm => onConfirm props n d
  | Cancel | Escape => onCancel props n d
  | Enter => insertNewline props n d
  | ClickOutside => Panel.pane_mouseDown n d
  end.

Fixpoint acts (props : gmap string jsval) (n : nat) (l : list action) (d : Panel.desk) : outcome Panel.desk :=
  match l with [] => Ok d | ac :: l' => do! d' <- act props n ac d ; acts props n l' d' end.

Definition shown (n : nat) (d : Panel.desk) : bool :=
  match Panel.panels d !! n with Some p => Panel.isShown p | None => false end.

Lemma close_shown n d p : Panel.panels d !! n = Some p -> exists d' p',
  Panel.close n d = Ok d' /\ Panel.panels d' !! n = Some p' /\ Panel.conf p' = Panel.conf p /\
  Panel.isShown p' = Panel.isShown p && Panel.isDestroyed p.
Proof.
  intros Hp. unfold Panel.close. rewrite Hp. cbn [or_throw outcome_bind].
  destruct (Panel.isDestroyed p) eqn:Ed; [exists d, p; by rewrite andb_true_r|].
  destruct (Panel.isShown p) eqn:Es; [|exists d, p; by rewrite Es].
  eexists. eexists. split; [reflexivity|]. destruct (Panel.acceptsKeyResponder (Panel.conf p));
    cbn; rewrite lookup_alter_eq, Hp; by split_and!.
Qed.

Lemma act_ok props n ac d p : Panel.panels d !! n = Some p -> Panel.conf p = alert_config props ->
  truthy (prop "allowClosingByClickingOutside" props) = false -> Panel.isShown p && Panel.isDestroyed p = false ->
  exists d' p', act props n ac d = Ok d' /\ Panel.panels d' !! n = Some p' /\ Panel.conf p' = alert_config props /\
    Panel.isShown p' && Panel.isDestroyed p' = false /\
    Panel.isShown p' = Panel.isShown p && negb (truthy (prop "isCloseable" props) && negb (bool_decide (ac = ClickOutside))).
Proof.
  intros Hp Hc Ho Hd. assert (exists d' p', onCancel props n d = Ok d' /\ Panel.panels d' !! n = Some p' /\ Panel.conf p' = alert_config props /\
    Panel.isShown p' && Panel.isDestroyed p' = false /\ Panel.isShown p' = Panel.isShown p && negb (truthy (prop "isCloseable" props))) as H.
  { unfold onCancel. destruct (truthy (prop "isCloseable" props)).
    - destruct (close_shown n d p Hp) as (d' & p' & E & Hp' & Hc' & Hs). rewrite Hd in Hs. exists d', p'. rewrite Hs. split_and!; [done|done|congruence|done|].
      by destruct (Panel.isShown p).
    - exists d, p. split_and!; [done..|]. by destruct (Panel.isShown p). }
  destruct ac; cbn [act]; try (destruct H as (d' & p' & H); exists d', p'; rewrite bool_decide_eq_false_2, andb_true_r by done; exact H).
  exists d, p. unfold Panel.pane_mouseDown. rewrite Hp. cbn [or_throw outcome_bind]. rewrite Hc. cbn [Panel.allowClosingByClickingOutside alert_config]. rewrite Ho.
  split_and!; [done..|]. by rewrite bool_decide_eq_true_2, andb_false_r, andb_true_r.
Qed.

(** An alert that may be closed is closed by its buttons, the escape and the enter key, one
    that may not stays; clicks beside it never close it, and nothing throws. *)
Theorem alert_closes props n l d p :
  Panel.panels d !! n = Some p -> Panel.conf p = alert_config props ->
  Panel.isShown p = true -> Panel.isDestroyed p = false ->
  truthy (prop "allowClosingByClickingOutside" props) = false ->
  exists d', acts props n l d = Ok d' /\
    (shown n d' = true <-> (truthy (prop "isCloseable" props) = true -> Forall (.= ClickOutside) l)).
Proof.
  intros Hp Hc Hs Hd Ho. assert (Panel.isShown p && Panel.isDestroyed p = false) as Hsd by (by rewrite Hd, andb_false_r). clear Hd.
  enough (exists d', acts props n l d = Ok d' /\
    (shown n d' = true <-> Panel.isShown p = true /\ (truthy (prop "isCloseable" props) = true -> Forall (.= ClickOutside) l))) as (d' & E & H)
    by (exists d'; split; [done|]; rewrite H, Hs; naive_solver).
  clear Hs. revert d p Hp Hc Hsd. induction l as [|ac l IH]; intros d p Hp Hc Hsd.
  { exists d. split; [done|]. unfold shown. rewrite Hp. naive_solver. }
  cbn [acts]. destruct (act_ok props n ac d p Hp Hc Ho Hsd) as (d1 & p1 & -> & Hp1 & Hc1 & Hsd1 & Hs1). cbn [outcome_bind].
  destruct (IH d1 p1 Hp1 Hc1 Hsd1) as (d' & E & H). exists d'. split; [done|]. rewrite H, Hs1, Forall_cons.
  destruct (Panel.isShown p), (truthy (prop "isCloseable" props)); cbn; case_bool_decide; cbn; naive_solver.
Qed.
End kinds.

(** ** Witnesses and departures *)

Definition ex_props : gmap string jsval := (make "info" "warn" "error" Warn None ∅).2.
Definition ex_desk : Panel.desk := Panel.Desk {[1 := Panel.Panel (alert_config ex_props) true false Panel.no_layout (Some 100%Z) None None None None None]} 200 [1] ∅.

Lemma alert_closes_witness :
  exists d', acts ex_props 1 [ClickOutside; Escape] ex_desk = Ok d' /\
    (shown 1 d' = true <-> (truthy (prop "isCloseable" ex_props) = true -> Forall (.= ClickOutside) [ClickOutside; Escape])).
Proof.
  apply (alert_closes ex_props 1 [ClickOutside; Escape] ex_desk (Panel.Panel (alert_config ex_props) true false Panel.no_layout (Some 100%Z) None None None None None));
    reflexivity.
Defined.

(** The object given is changed: given again for a warning, it hides the cancel button that
    only an information does without. *)
Lemma config_is_changed :
  let h : gmap nat (gmap string jsval) := {[1 := {["message" := JStr "Saved"]}]} in
  let '(h1, info) := make "info" "warn" "error" Info (Some 1) h in
  let '(h2, warning) := make "info" "warn" "error" Warn (Some 1) h1 in
  b_isVisible (cancelButtonView warning) = JBool false /\
  b_isVisible (cancelButtonView (make "info" "warn" "error" Warn (Some 1) h).2) = JBool true.
Proof. vm_compute. done. Qed.

(** The enter key confirms even if the button for it is not shown. *)
Lemma hidden_button_confirms :
  let props := (make "info" "warn" "error" Warn (Some 1) {[1 := {["isConfirmVisible" := JBool false]}]}).2 in
  b_isVisible (confirmButtonView props) = JBool false /\ insertNewline props 1 ex_desk = onConfirm props 1 ex_desk.
Proof. split; [vm_compute; reflexivity|reflexivity]. Qed.
