(* ===== verification/TextField.v ===== *)
(** * Text fields and completion of what is typed
    ([views/text_field_view.js], [views/autocomplete_text_field_view.js])

    [Typing]: the value of a field follows what is typed into its input, at once or when
    typing has paused.  [Completion]: a field that asks a delegate for completions of what
    has been typed, one request at a time, and shows them in a menu.  It is a client of
    [Statechart].

    The delegate is a parameter: which queries it starts a request for, and with which
    options it answers them.  It answers later, never from within
    [fetchAutocompleteResults].  The menu is reduced to whether it is on the screen and
    to its items; [Menu] and [Panel] say what is in it and where it is. *)

From S2P Require Import Prelude Statechart.
From stdpp Require Import gmap.
Open Scope string_scope.
Open Scope list_scope.
Open Scope flame_scope.

(** ** Typing *)

Module Typing.

(** The input with its text, and the value of the field.  [_timer] is the last timer that
    was started; it runs as long as it is in [timers]. *)
Record input := Input {
  element : string;
  value : string;
  setValueOnEachKeyUp : bool;
  _timer : option nat;
  timers : gset nat;
  next : nat;
  inDocument : bool
}.

Definition set_element x i := Input x (value i) (setValueOnEachKeyUp i) (_timer i) (timers i) (next i) (inDocument i).
Definition set_value x i := Input (element i) x (setValueOnEachKeyUp i) (_timer i) (timers i) (next i) (inDocument i).
Definition set_timers t i := Input (element i) (value i) (setValueOnEachKeyUp i) (_timer i) t (next i) (inDocument i).
Definition leave_document i := Input (element i) (value i) (setValueOnEachKeyUp i) (_timer i) (timers i) (next i) false.
Definition set_mode b i := Input (element i) (value i) b (_timer i) (timers i) (next i) (inDocument i).

(** The value becomes what the input holds. *)
Definition _elementValueDidChange (i : input) : input := set_value (element i) i.

(** [Ember.run.cancel(this._timer)] *)
Definition cancel_timer (i : input) : input :=
  match _timer i with Some t => set_timers (timers i ∖ {[t]}) i | None => i end.

Definition start_timer (i : input) : input :=
  Input (element i) (value i) (setValueOnEachKeyUp i) (Some (next i)) ({[next i]} ∪ timers i) (S (next i)) (inDocument i).

Definition _setValue (i : input) : input :=
  if setValueOnEachKeyUp i then _elementValueDidChange i else start_timer (cancel_timer i).

Definition willDestroyElement (i : input) : input :=
  match _timer i with
  | Some _ => _elementValueDidChange (cancel_timer i)
  | None => i
  end.

(** Keys typed, the time of a timer, enter, a value set by the application (which Ember
    writes into the input), the setting changed, the element removed. *)
Inductive event := Type_ (s : string) | Fire (t : nat) | Newline | SetValue (s : string) | SetMode (b : bool) | Remove.

Definition step (ev : event) (i : input) : input :=
  match ev with
  | Type_ s => _setValue (set_element s i)
  | Fire t => if bool_decide (t ∈ timers i) then _elementValueDidChange (set_timers (timers i ∖ {[t]}) i) else i
  | Newline => _elementValueDidChange i
  | SetValue s => set_element s (set_value s i)
  | SetMode b => set_mode b i
  | Remove => leave_document (willDestroyElement i)
  end.

Definition run (evs : list event) (i : input) : input := foldl (fun i ev => step ev i) i evs.
Definition fresh (b : bool) : input := Input "" "" b None ∅ 0 true.

(** What is typed has arrived, or the one timer that runs will bring it. *)
Record typing_ok (i : input) : Prop := {
  to_timer t : t ∈ timers i -> _timer i = Some t;
  to_next t : t ∈ timers i -> t < next i;
  to_value : timers i = ∅ -> value i = element i
}.

Lemma typing_step_ok ev i : typing_ok i -> typing_ok (step ev i).
Proof.
  intros [Ht Hn Hv]. destruct ev as [s|t| |s|b|]; cbn [step].
  - unfold _setValue. cbn. destruct (setValueOnEachKeyUp i); [by split|].
    unfold cancel_timer. cbn. destruct (_timer i) as [t0|] eqn:E; split; cbn.
    + intros t. rewrite elem_of_union, elem_of_singleton, elem_of_difference. intros [->|[H1 H2]]; [done|].
      apply Ht in H1. set_solver.
    + intros t. rewrite elem_of_union, elem_of_singleton, elem_of_difference. intros [->|[H1 H2]]; [lia|].
      apply Hn in H1. lia.
    + intros H. set_solver.
    + intros t. rewrite elem_of_union, elem_of_singleton. intros [->|H]; [done|]. by apply Ht in H.
    + intros t. rewrite elem_of_union, elem_of_singleton. intros [->|H]; [lia|]. apply Hn in H. lia.
    + intros H. set_solver.
  - case_bool_decide; [|by split]. split; cbn.
    + intros t' [H1 _]%elem_of_difference. by apply Ht.
    + intros t' [H1 _]%elem_of_difference. by apply Hn.
    + done.
  - by split.
  - by split.
  - by split.
  - unfold willDestroyElement. destruct (_timer i) as [t0|] eqn:E; [|split; cbn; [by rewrite E|done|done]].
    split; unfold leave_document, _elementValueDidChange, cancel_timer; rewrite E; cbn.
    + intros t [H1 _]%elem_of_difference. rewrite E. by apply Ht.
    + intros t [H1 _]%elem_of_difference. by apply Hn.
    + done.
Qed.

Lemma typing_run_ok evs : forall i, typing_ok i -> typing_ok (run evs i).
Proof. induction evs as [|ev evs IH]; intros i Hi; [done|]. apply IH. by apply typing_step_ok. Qed.

Lemma typing_fresh_ok b : typing_ok (fresh b).
Proof. split; cbn; set_solver. Qed.

Lemma Fire_all i t : typing_ok i -> _timer i = Some t -> timers (step (Fire t) i) = ∅.
Proof.
  intros [Ht _ _] E. cbn. case_bool_decide as H; cbn.
  - apply set_eq. intros x. rewrite elem_of_difference, elem_of_singleton, elem_of_empty. split; [|done].
    intros [Hx Hne]. apply Ht in Hx. congruence.
  - apply set_eq. intros x. rewrite elem_of_empty. split; [|done]. intros Hx. pose proof (Ht x Hx). congruence.
Qed.

(** What is typed is not lost: whatever happened before, the value of the field is the
    text of its input when no timer is running, after enter, after the last timer has
    fired, and after the field has been removed from the document; at most one timer is
    running. *)
Theorem typing_arrives b evs :
  let i := run evs (fresh b) in
  (forall t1 t2, t1 ∈ timers i -> t2 ∈ timers i -> t1 = t2) /\
  (timers i = ∅ -> value i = element i) /\
  (forall t, t ∈ timers i -> value (step (Fire t) i) = element i /\ timers (step (Fire t) i) = ∅) /\
  value (step Newline i) = element i /\
  value (step Remove i) = element i.
Proof.
  intros i. pose proof (typing_run_ok evs _ (typing_fresh_ok b)) as Hi. fold i in Hi. pose proof Hi as [Ht Hn Hv]. split_and!.
  - intros t1 t2 H1%Ht H2%Ht. congruence.
  - done.
  - intros t H. split; [|apply Fire_all; [done|by apply Ht]]. cbn. by rewrite bool_decide_eq_true_2.
  - done.
  - cbn. unfold willDestroyElement. destruct (_timer i) as [t|] eqn:Et.
    + cbn. unfold cancel_timer. by rewrite Et.
    + cbn. apply Hv. apply set_eq. intros x. rewrite elem_of_empty. split; [|done]. intros Hx%Ht. congruence.
Qed.
End Typing.

(** ** Completion *)

Module Completion.

Definition options := list (jsval * string).      (* value and title of each item *)

Record menu := Menu { items : options; isDestroyed : bool }.

Record field := Field {
  flameState : option string;
  _lastQueuedQuery : option string;
  autocompleteDelegate : bool;
  _autocompleteMenu : option nat;
  menus : gmap nat menu;
  next : nat;
  value : string;
  sent : list string                    (* the requests that were started, the last one first *)
}.

Definition put_state n f := Field (Some n) (_lastQueuedQuery f) (autocompleteDelegate f) (_autocompleteMenu f) (menus f) (next f) (value f) (sent f).
Definition set_queued q f := Field (flameState f) q (autocompleteDelegate f) (_autocompleteMenu f) (menus f) (next f) (value f) (sent f).
Definition set_menus m f := Field (flameState f) (_lastQueuedQuery f) (autocompleteDelegate f) (_autocompleteMenu f) m (next f) (value f) (sent f).
Definition set_menu m f := Field (flameState f) (_lastQueuedQuery f) (autocompleteDelegate f) m (menus f) (next f) (value f) (sent f).
Definition set_value v f := Field (flameState f) (_lastQueuedQuery f) (autocompleteDelegate f) (_autocompleteMenu f) (menus f) (next f) v (sent f).
Definition add_sent q f := Field (flameState f) (_lastQueuedQuery f) (autocompleteDelegate f) (_autocompleteMenu f) (menus f) (next f) (value f) (q :: sent f).

Definition destroy (m : menu) : menu := Menu (items m) true.

(** Closing a menu that is already closed does nothing. *)
Definition _closeAutocompleteMenu (f : field) : field :=
  match _autocompleteMenu f with
  | Some m => set_menu None (set_menus (alter destroy m (menus f)) f)
  | None => f
  end.

Definition open_menu (opts : options) (f : field) : field :=
  Field (flameState f) (_lastQueuedQuery f) (autocompleteDelegate f) (Some (next f))
    (<[next f := Menu opts false]> (menus f)) (S (next f)) (value f) (sent f).

Definition _showAutocompleteMenu (opts : options) (f : field) : field :=
  match _autocompleteMenu f with
  | Some m =>
      match menus f !! m with
      | Some (Menu _ false) => set_menus (<[m := Menu opts false]> (menus f)) f
      | _ => open_menu opts f
      end
  | None => open_menu opts f
  end.

Fixpoint findBy (v : jsval) (l : options) : option string :=
  match l with
  | [] => None
  | (x, title) :: l' => if strict_eq x v then Some title else findBy v l'
  end.

Definition _selectAutocompleteItem (id : jsval) (f : field) : outcome field :=
  do! m <- or_throw (_autocompleteMenu f) TypeError ;
  do! title <- or_throw (menus f !! m ≫= fun m => findBy id (items m)) TypeError ;
  Ok (set_value title f).

Section completion.
(** The delegate: whether it starts a request for a query, and its answer. *)
Context (fetchAutocompleteResults : string -> bool) (answer : string -> options).

(** [gotoFlameState('requesting')] from the state idle, which has no exit hook. *)
Definition enter_requesting (f : field) : field := _closeAutocompleteMenu (put_state "requesting" f).

Definition idle_doAutocompleteRequest (query : string) (f : field) : field :=
  if autocompleteDelegate f then
    if negb (bool_decide (query = "")) && fetchAutocompleteResults query
    then enter_requesting (add_sent query f)
    else _closeAutocompleteMenu f
  else f.

Definition idle_enterState (f : field) : field :=
  match _lastQueuedQuery f with
  | Some q => if bool_decide (q = "") then f else idle_doAutocompleteRequest q (set_queued None f)
  | None => f
  end.

#[export] Instance completion_chart : Chart field := {
  currentFlameState := flameState;
  set_currentFlameState := put_state;
  lookup_state n :=
    if String.eqb n "idle" then PState (Hooks (Some idle_enterState) None)
    else if String.eqb n "requesting" then PState (Hooks (Some _closeAutocompleteMenu) None)
    else PUndefined
}.

Definition requesting_doAutocompleteRequest (query : string) (f : field) : field :=
  if bool_decide (query = "") then f else set_queued (Some query) f.

Definition didFetchAutocompleteResults (opts : options) (f : field) : field :=
  match opts with
  | [] => _closeAutocompleteMenu f
  | _ => match _lastQueuedQuery f with None => _showAutocompleteMenu opts f | Some _ => f end
  end.

(** A query that was typed, the delegate's options and its end of a request, an item
    selected in the menu, which closes it, and the menu closed otherwise. *)
Inductive event := Typed (query : string) | Fetched | Finished | Selected (id : jsval) | MenuClosed.

(** A call is forwarded to the current state; what it has no method for is ignored.  The
    delegate answers the last request. *)
Definition step (ev : event) (f : field) : outcome field :=
  let idle := bool_decide (flameState f = Some "idle") in
  match ev with
  | Typed q => Ok (if idle then idle_doAutocompleteRequest q f else requesting_doAutocompleteRequest q f)
  | Fetched => if idle then Ok f else Ok (from_option (fun q => didFetchAutocompleteResults (answer q) f) f (head (sent f)))
  | Finished => if idle then Ok f else gotoFlameState "idle" f
  | Selected id =>
      _selectAutocompleteItem id
        (match _autocompleteMenu f with Some m => set_menus (alter destroy m (menus f)) f | None => f end)
  | MenuClosed => Ok (match _autocompleteMenu f with Some m => set_menus (alter destroy m (menus f)) f | None => f end)
  end.

Fixpoint run (evs : list event) (f : field) : outcome field :=
  match evs with
  | [] => Ok f
  | ev :: evs' => do! f' <- step ev f ; run evs' f'
  end.

Definition init : outcome field := gotoFlameState "idle" (Field None None true None ∅ 0 "" []).

(** ** Specification *)

(** The last query that was typed and not empty. *)
Fixpoint latest (q : option string) (evs : list event) : option string :=
  match evs with
  | [] => q
  | Typed x :: evs' => latest (if bool_decide (x = "") then q else Some x) evs'
  | _ :: evs' => latest q evs'
  end.

(** A menu on the screen. *)
Definition on_screen (f : field) (m : nat) (opts : options) : Prop := menus f !! m = Some (Menu opts false).

(** [q] is the last query typed: it has been asked for, is being asked for or waits for
    the current request to end. *)
Record completion_ok (q : option string) (f : field) : Prop := {
  co_state : flameState f = Some "idle" \/ flameState f = Some "requesting";
  co_delegate : autocompleteDelegate f = true;
  co_idle : flameState f = Some "idle" -> _lastQueuedQuery f = None;
  co_queue x : _lastQueuedQuery f = Some x -> q = Some x /\ x <> "";
  co_sent : _lastQueuedQuery f = None -> forall x, q = Some x -> fetchAutocompleteResults x = true -> head (sent f) = Some x;
  co_menu m opts : on_screen f m opts ->
    _autocompleteMenu f = Some m /\ opts <> [] /\ exists x, head (sent f) = Some x /\ opts = answer x;
  co_next m : is_Some (menus f !! m) -> m < next f;
  co_requesting : flameState f = Some "requesting" -> sent f <> []
}.

Definition is_selection (ev : event) : bool := match ev with Selected _ => true | _ => false end.

(** ** Lemmas *)

Lemma close_frame f :
  let f' := _closeAutocompleteMenu f in
  flameState f' = flameState f /\ _lastQueuedQuery f' = _lastQueuedQuery f /\
  autocompleteDelegate f' = autocompleteDelegate f /\ next f' = next f /\ value f' = value f /\ sent f' = sent f /\
  forall m, is_Some (menus f' !! m) <-> is_Some (menus f !! m).
Proof.
  unfold _closeAutocompleteMenu. destruct (_autocompleteMenu f) as [m0|]; cbn; [|done].
  do 6 (split; [done|]). intros m. destruct (decide (m0 = m)) as [->|Hne].
  - rewrite lookup_alter_eq. by rewrite fmap_is_Some.
  - by rewrite lookup_alter_ne.
Qed.

(** Only the menu the field refers to can be on the screen. *)
Definition one_menu (f : field) : Prop := forall m opts, on_screen f m opts -> _autocompleteMenu f = Some m.

Lemma close_off f m opts : one_menu f -> ~ on_screen (_closeAutocompleteMenu f) m opts.
Proof.
  intros H. unfold _closeAutocompleteMenu, on_screen. destruct (_autocompleteMenu f) as [m0|] eqn:E; cbn.
  - destruct (decide (m0 = m)) as [->|Hne].
    + rewrite lookup_alter_eq. destruct (menus f !! m) as [[o d]|]; by cbn.
    + rewrite lookup_alter_ne by done. intros X. apply H in X. congruence.
  - intros X. apply H in X. congruence.
Qed.

Lemma completion_one q f : completion_ok q f -> one_menu f.
Proof. intros H m opts X. by apply (co_menu q f H m opts). Qed.

Lemma close_ok q f : completion_ok q f -> completion_ok q (_closeAutocompleteMenu f).
Proof.
  intros H. pose proof (close_off f) as Hoff. destruct (close_frame f) as (E1 & E2 & E3 & E4 & E5 & E6 & E7).
  destruct H as [H1 H2 H3 H4 H5 H6 H7 H8] eqn:EH. split; rewrite ?E1, ?E2, ?E3, ?E4, ?E6; try done.
  - intros m opts X. by destruct (Hoff m opts (completion_one q f H) X).
  - intros m. rewrite E7. apply H7.
Qed.

(** A request from the state idle. *)
Lemma idle_request_ok q x f :
  flameState f = Some "idle" -> autocompleteDelegate f = true -> _lastQueuedQuery f = None -> one_menu f ->
  (forall m, is_Some (menus f !! m) -> m < next f) ->
  (x = "" -> forall y, q = Some y -> fetchAutocompleteResults y = true -> head (sent f) = Some y) ->
  (x <> "" -> q = Some x) ->
  completion_ok q (idle_doAutocompleteRequest x f).
Proof.
  intros Hs Hd Hq Ho Hn He Hx. unfold idle_doAutocompleteRequest. rewrite Hd.
  destruct (bool_decide_reflect (x = "")) as [->|Hne]; cbn [negb andb].
  - destruct (close_frame f) as (E1 & E2 & E3 & E4 & E5 & E6 & E7).
    split; rewrite ?E1, ?E2, ?E3, ?E4, ?E6; try done; [by left|by rewrite Hq|by auto| | |by rewrite Hs].
    + intros m opts X. by destruct (close_off f m opts Ho X).
    + intros m. rewrite E7. apply Hn.
  - specialize (Hx Hne). subst q. destruct (fetchAutocompleteResults x) eqn:Ef.
    + unfold enter_requesting. set (g := put_state "requesting" (add_sent x f)).
      destruct (close_frame g) as (E1 & E2 & E3 & E4 & E5 & E6 & E7).
      split; rewrite ?E1, ?E2, ?E3, ?E4, ?E6; cbn; try done; [by right|by rewrite Hq| |].
      * intros m opts X. by destruct (close_off g m opts Ho X).
      * intros m. rewrite E7. apply Hn.
    + destruct (close_frame f) as (E1 & E2 & E3 & E4 & E5 & E6 & E7).
      split; rewrite ?E1, ?E2, ?E3, ?E4, ?E6; try done; [by left|by rewrite Hq|intros; congruence| | |by rewrite Hs].
      * intros m opts X. by destruct (close_off f m opts Ho X).
      * intros m. rewrite E7. apply Hn.
Qed.

Lemma open_ok q f x : completion_ok q f -> head (sent f) = Some x -> answer x <> [] ->
  (forall m o, ~ on_screen f m o) -> completion_ok q (open_menu (answer x) f).
Proof.
  intros H Hx Hne Hoff. destruct H as [H1 H2 H3 H4 H5 H6 H7 H8]. split; cbn; try done.
  - unfold on_screen. cbn. intros m o [[<- [= <-]]|[_ X]]%lookup_insert_Some; [eauto|by destruct (Hoff m o)].
  - intros m. destruct (decide (next f = m)) as [->|Hm]; [lia|]. rewrite lookup_insert_ne by done. intros X%H7. lia.
Qed.

Lemma show_ok q f x : completion_ok q f -> head (sent f) = Some x -> answer x <> [] ->
  completion_ok q (_showAutocompleteMenu (answer x) f).
Proof.
  intros H Hx Hne. pose proof (completion_one q f H) as Ho. unfold _showAutocompleteMenu.
  destruct (_autocompleteMenu f) as [m|] eqn:Em; [|apply open_ok; try done; intros m o X%Ho; congruence].
  destruct (menus f !! m) as [[o []]|] eqn:E;
    try (apply open_ok; try done; intros m' o' X; pose proof (Ho m' o' X); unfold on_screen in X; congruence).
  destruct H as [H1 H2 H3 H4 H5 H6 H7 H8]. split; cbn; try done.
  - unfold on_screen. cbn. intros m' o' [[<- [= <-]]|[_ X]]%lookup_insert_Some; [eauto|].
    destruct (H6 m' o' X) as (? & _ & ?). split_and!; try done; by destruct (H6 m' o' X) as (_ & ? & _).
  - intros m' [[o' d'] [[<- _]|[_ X]]%lookup_insert_Some]; apply H7; [by rewrite E|by rewrite X].
Qed.

Lemma menu_closed_ok q f m : completion_ok q f -> completion_ok q (set_menus (alter destroy m (menus f)) f).
Proof.
  intros [H1 H2 H3 H4 H5 H6 H7 H8].
  split; cbn; try done.
  - unfold on_screen. cbn. intros m' o. destruct (decide (m = m')) as [->|Hm].
    + rewrite lookup_alter_eq. destruct (menus f !! m') as [[? ?]|]; by cbn.
    + rewrite lookup_alter_ne by done. apply H6.
  - intros m'. destruct (decide (m = m')) as [->|Hm].
    + rewrite lookup_alter_eq, fmap_is_Some. apply H7.
    + rewrite lookup_alter_ne by done. apply H7.
Qed.

Lemma finish_step f : flameState f = Some "requesting" ->
  gotoFlameState "idle" f = Ok (idle_enterState (put_state "idle" f)).
Proof. intros H. unfold gotoFlameState. cbn. by rewrite H. Qed.

Lemma finish_ok q f : completion_ok q f -> flameState f = Some "requesting" ->
  completion_ok q (idle_enterState (put_state "idle" f)).
Proof.
  intros H Hs. pose proof (completion_one q f H) as Ho. destruct H as [H1 H2 H3 H4 H5 H6 H7 H8].
  unfold idle_enterState. cbn. destruct (_lastQueuedQuery f) as [x|] eqn:Eq.
  - destruct (H4 x eq_refl) as [-> Hx]. rewrite bool_decide_eq_false_2 by done. by apply idle_request_ok.
  - split; cbn; try done; [by left|by rewrite Eq|by auto].
Qed.

Lemma completion_step_ok q ev f f' : completion_ok q f -> step ev f = Ok f' -> completion_ok (latest q [ev]) f'.
Proof.
  intros H Hf. pose proof (completion_one q f H) as Ho. destruct ev as [x| | |id|]; cbn [step latest] in *.
  - injection Hf as <-. destruct (bool_decide_reflect (flameState f = Some "idle")) as [Hs|Hs].
    + pose proof H as [H1 H2 H3 H4 H5 H6 H7 H8]. apply idle_request_ok; auto.
      * intros ->. rewrite bool_decide_eq_true_2 by done. auto.
      * intros Hx. by rewrite bool_decide_eq_false_2.
    + unfold requesting_doAutocompleteRequest. case_bool_decide as Hx; [done|].
      destruct H as [H1 H2 H3 H4 H5 H6 H7 H8]. split; cbn; try done. by intros y [= <-].
  - destruct (bool_decide_reflect (flameState f = Some "idle")) as [Hs|Hs]; injection Hf as <-; [done|]. destruct (sent f) as [|x l] eqn:Es; [done|]. cbn.
    unfold didFetchAutocompleteResults. destruct (answer x) as [|o os] eqn:Ea; [by apply close_ok|].
    rewrite <- Ea. destruct (_lastQueuedQuery f); [done|]. apply show_ok; [done|by rewrite Es|by rewrite Ea].
  - destruct (bool_decide_reflect (flameState f = Some "idle")) as [Hs|Hs]; [by injection Hf as <-|]. destruct (co_state q f H) as [?|Hr]; [done|].
    rewrite finish_step in Hf by done. injection Hf as <-. by apply finish_ok.
  - unfold _selectAutocompleteItem in Hf. destruct (_autocompleteMenu f) as [m|] eqn:Em; cbn in Hf; [|by rewrite Em in Hf].
    rewrite Em in Hf. cbn in Hf. destruct (_ ≫= _) as [t|]; [|done]. cbn in Hf. injection Hf as <-.
    destruct (menu_closed_ok q f m H) as [H1 H2 H3 H4 H5 H6 H7 H8]. by split.
  - injection Hf as <-. destruct (_autocompleteMenu f); [by apply menu_closed_ok|done].
Qed.

(** A request is sent in the state idle only, or when the request before has ended. *)
Lemma idle_request_sent x f :
  sent (idle_doAutocompleteRequest x f) = sent f \/
  sent (idle_doAutocompleteRequest x f) = x :: sent f /\ flameState (idle_doAutocompleteRequest x f) = Some "requesting".
Proof.
  unfold idle_doAutocompleteRequest. destruct (autocompleteDelegate f); [|by left].
  destruct (_ && _).
  - right. unfold enter_requesting. destruct (close_frame (put_state "requesting" (add_sent x f))) as (-> & _ & _ & _ & _ & -> & _). done.
  - left. by destruct (close_frame f) as (_ & _ & _ & _ & _ & -> & _).
Qed.

Lemma step_sent ev f f' : step ev f = Ok f' ->
  sent f' = sent f \/ exists q, sent f' = q :: sent f /\ flameState f' = Some "requesting" /\
    (flameState f = Some "idle" \/ ev = Finished).
Proof.
  intros H. destruct ev as [x| | |id|]; cbn [step] in H.
  - injection H as <-. case_bool_decide as Hs.
    + destruct (idle_request_sent x f) as [E|[E1 E2]]; [by left|right; eauto].
    + left. unfold requesting_doAutocompleteRequest. by case_bool_decide.
  - left. case_bool_decide as Hs; injection H as <-; [done|]. destruct (sent f) as [|q l] eqn:E; [done|]. cbn.
    unfold didFetchAutocompleteResults, _showAutocompleteMenu, open_menu. rewrite <- E.
    destruct (answer q); [by destruct (close_frame f) as (_ & _ & _ & _ & _ & -> & _)|].
    by repeat case_match.
  - case_bool_decide as Hs; [injection H as <-; by left|]. unfold gotoFlameState in H. cbn in H.
    destruct (flameState f) as [c|] eqn:Ec.
    + case_bool_decide as Hc; [congruence|]. injection H as <-.
      assert (run_hook (exitState (hooks_of c)) f = f) as ->.
      { unfold hooks_of. cbn. by repeat case_match; simplify_eq. }
      unfold run_hook, idle_enterState. cbn. destruct (_lastQueuedQuery f) as [x|]; [|by left]. case_bool_decide; [by left|].
      destruct (idle_request_sent x (set_queued None (put_state "idle" f))) as [E|[E1 E2]]; [by left|right; eauto].
    + injection H as <-. unfold run_hook, idle_enterState. cbn. destruct (_lastQueuedQuery f) as [x|]; [|by left].
      case_bool_decide; [by left|].
      destruct (idle_request_sent x (set_queued None (put_state "idle" f))) as [E|[E1 E2]]; [by left|right; eauto].
  - left. unfold _selectAutocompleteItem in H.
    destruct (_autocompleteMenu _) as [m|] eqn:Em; cbn in H; [|done]. destruct (_ ≫= _); [|done].
    injection H as <-. cbn. by destruct (_autocompleteMenu f).
  - left. injection H as <-. by destruct (_autocompleteMenu f).
Qed.

(** A menu appears, or gets other items, only while no query waits. *)
Lemma closed_on_screen f m opts : on_screen (_closeAutocompleteMenu f) m opts -> on_screen f m opts.
Proof.
  unfold _closeAutocompleteMenu, on_screen. destruct (_autocompleteMenu f) as [m0|]; [|done]. cbn.
  destruct (decide (m0 = m)) as [->|Hm]; [|by rewrite lookup_alter_ne].
  rewrite lookup_alter_eq. by destruct (menus f !! m) as [[? ?]|].
Qed.

Lemma alter_on_screen f m0 m opts : on_screen (set_menus (alter destroy m0 (menus f)) f) m opts -> on_screen f m opts.
Proof.
  unfold on_screen. cbn. destruct (decide (m0 = m)) as [->|Hm]; [|by rewrite lookup_alter_ne].
  rewrite lookup_alter_eq. by destruct (menus f !! m) as [[? ?]|].
Qed.

Lemma idle_request_screen x f m opts : on_screen (idle_doAutocompleteRequest x f) m opts -> on_screen f m opts.
Proof.
  unfold idle_doAutocompleteRequest, enter_requesting. destruct (autocompleteDelegate f); [|done].
  destruct (_ && _); intros H%closed_on_screen; done.
Qed.

Lemma step_opens q ev f f' m opts : completion_ok q f -> step ev f = Ok f' ->
  on_screen f' m opts -> ~ on_screen f m opts -> _lastQueuedQuery f' = None.
Proof.
  intros Hf H Hm Hno. destruct ev as [x| | |id|]; cbn [step] in H.
  - injection H as <-. destruct (bool_decide_reflect (flameState f = Some "idle")); [by apply idle_request_screen in Hm|].
    unfold requesting_doAutocompleteRequest in Hm. by destruct (bool_decide (x = "")).
  - destruct (bool_decide _); injection H as <-; [done|]. destruct (sent f) as [|y l]; [done|]. cbn in Hm |- *.
    unfold didFetchAutocompleteResults in *. destruct (answer y) as [|o os]; [by apply closed_on_screen in Hm|].
    destruct (_lastQueuedQuery f) as [z|] eqn:Eq; [done|].
    unfold _showAutocompleteMenu, open_menu. by repeat case_match.
  - destruct (bool_decide_reflect (flameState f = Some "idle")) as [Hi|Hi]; [by injection H as <-|].
    destruct (co_state q f Hf) as [?|Hr]; [done|]. rewrite finish_step in H by done. injection H as <-.
    unfold idle_enterState in Hm. cbn in Hm. destruct (_lastQueuedQuery f) as [z|]; [|done].
    destruct (bool_decide (z = "")); [done|]. by apply idle_request_screen in Hm.
  - unfold _selectAutocompleteItem in H. destruct (_autocompleteMenu f) as [m0|] eqn:Em; cbn in H; [|by rewrite Em in H].
    rewrite Em in H. cbn in H. destruct (_ ≫= _) as [t|]; [|done]. cbn in H. injection H as <-.
    by apply (alter_on_screen f m0) in Hm.
  - injection H as <-. destruct (_autocompleteMenu f) as [m0|]; [by apply alter_on_screen in Hm|done].
Qed.

Lemma idle_request_queue x f : _lastQueuedQuery (idle_doAutocompleteRequest x f) = _lastQueuedQuery f.
Proof.
  unfold idle_doAutocompleteRequest, enter_requesting. destruct (autocompleteDelegate f); [|done].
  destruct (_ && _); by match goal with |- context [_closeAutocompleteMenu ?g] => destruct (close_frame g) as (_ & -> & _) end.
Qed.

Lemma finish_total q f : completion_ok q f ->
  exists f', step Finished f = Ok f' /\ completion_ok q f' /\ _lastQueuedQuery f' = None /\
    (_lastQueuedQuery f = None -> flameState f' = Some "idle").
Proof.
  intros Hf. cbn [step]. destruct (bool_decide_reflect (flameState f = Some "idle")) as [Hi|Hi].
  { exists f. split_and!; try done. by apply (co_idle q f Hf). }
  destruct (co_state q f Hf) as [?|Hr]; [done|].
  rewrite finish_step by done. eexists. split; [done|]. split; [by apply finish_ok|].
  unfold idle_enterState. cbn. destruct (_lastQueuedQuery f) as [x|] eqn:E; [|done]. split; [|done].
  destruct (co_queue q f Hf x E) as [_ Hx]. rewrite bool_decide_eq_false_2 by done. by rewrite idle_request_queue.
Qed.

Lemma latest_app q evs1 evs2 : latest q (evs1 ++ evs2) = latest (latest q evs1) evs2.
Proof. revert q. induction evs1 as [|ev evs IH]; intros q; [done|]. destruct ev; cbn; apply IH. Qed.

Lemma completion_run_ok evs : forall q f f', completion_ok q f -> run evs f = Ok f' -> completion_ok (latest q evs) f'.
Proof.
  induction evs as [|ev evs IH]; intros q f f' H Hr; [by injection Hr as <-|].
  cbn [run] in Hr. destruct (step ev f) as [f1|e] eqn:E; [|done]. cbn in Hr.
  pose proof (completion_step_ok q ev f f1 H E) as H1. specialize (IH _ _ _ H1 Hr). by destruct ev.
Qed.

Definition start : field := Field (Some "idle") None true None ∅ 0 "" [].

Lemma init_start : init = Ok start.
Proof. done. Qed.

Lemma start_ok : completion_ok None start.
Proof.
  split; cbn; try done; [by left|]. intros m [? X]. by rewrite lookup_empty in X.
Qed.

(** ** Properties *)

(** C6. A field asks for completions of one query at a time and shows, in one menu, only
    the options it got for the last query it has asked for; a query that is typed during a
    request waits, replaced by later ones, and no menu opens while one waits. *)
Theorem completions_are_current evs f ev f' :
  run evs start = Ok f -> step ev f = Ok f' ->
  (sent f' = sent f \/ exists q, sent f' = q :: sent f /\ flameState f' = Some "requesting" /\
     (flameState f = Some "idle" \/ ev = Finished)) /\
  (forall m opts, on_screen f' m opts ->
     (forall m' opts', on_screen f' m' opts' -> m' = m) /\ exists q, head (sent f') = Some q /\ opts = answer q) /\
  (forall m opts, on_screen f' m opts -> ~ on_screen f m opts -> _lastQueuedQuery f' = None) /\
  (forall q, _lastQueuedQuery f' = Some q -> flameState f' = Some "requesting" /\ latest None (evs ++ [ev]) = Some q).
Proof.
  intros Hr Hs. pose proof (completion_run_ok evs None start f start_ok Hr) as Hf.
  pose proof (completion_step_ok _ ev f f' Hf Hs) as Hf'. split_and!.
  - by apply step_sent.
  - intros m opts Hm. destruct (co_menu _ f' Hf' m opts Hm) as (Em & _ & Ex). split; [|done].
    intros m' o' Hm'. destruct (co_menu _ f' Hf' m' o' Hm') as (Em' & _). congruence.
  - intros m opts Hm Hno. exact (step_opens _ ev f f' m opts Hf Hs Hm Hno).
  - intros q Hq. split.
    + destruct (co_state _ f' Hf') as [Hi|]; [|done]. rewrite (co_idle _ f' Hf' Hi) in Hq. done.
    + destruct (co_queue _ f' Hf' q Hq) as [<- _]. by rewrite latest_app.
Qed.

(** The last query typed is asked for: once the current request and the one after it
    have ended, the field is idle, and has sent the query last unless the delegate has
    declined it. *)
Theorem latest_query_is_sent evs f q :
  run evs start = Ok f -> latest None evs = Some q ->
  exists f', run [Finished; Finished] f = Ok f' /\ flameState f' = Some "idle" /\ _lastQueuedQuery f' = None /\
    (fetchAutocompleteResults q = true -> head (sent f') = Some q).
Proof.
  intros Hr Hq. pose proof (completion_run_ok evs None start f start_ok Hr) as Hf. rewrite Hq in Hf.
  cbn [run]. destruct (finish_total _ f Hf) as (f1 & -> & H1 & Hq1 & _). cbn [outcome_bind].
  destruct (finish_total _ f1 H1) as (f2 & -> & H2 & _ & Hq2). cbn [outcome_bind].
  exists f2. pose proof (Hq2 Hq1) as Hi. split; [done|]. split; [done|].
  pose proof (co_idle _ f2 H2 Hi) as Hn. split; [done|]. intros Ha. by apply (co_sent _ f2 H2 Hn).
Qed.
End completion.

(** ** Witnesses *)

Definition ex_fetch (q : string) : bool := negb (bool_decide (q = "x")).
Definition ex_answer (q : string) : options := if bool_decide (q = "zzz") then [] else [(JNum 1, q +:+ "!"); (JNum 2, q +:+ "?")].
Definition ex_events : list event := [Typed "a"; Typed "ab"; Typed "abc"; Fetched; Finished; Fetched].

Lemma completions_are_current_witness :
  exists f f', run ex_fetch ex_answer ex_events start = Ok f /\ step ex_fetch ex_answer Finished f = Ok f' /\
    sent f' = ["abc"; "a"] /\ on_screen f' 0 (ex_answer "abc") /\
    (forall m opts, on_screen f' m opts -> ~ on_screen f m opts -> _lastQueuedQuery f' = None).
Proof.
  eexists _, _. split; [vm_compute; reflexivity|]. split; [vm_compute; reflexivity|].
  split; [reflexivity|]. split; [reflexivity|].
  refine (proj1 (proj2 (proj2 (completions_are_current ex_fetch ex_answer ex_events _ Finished _ _ _)))); vm_compute; reflexivity.
Defined.

Lemma latest_query_is_sent_witness :
  exists f f', run ex_fetch ex_answer [Typed "a"; Typed "ab"] start = Ok f /\ sent f = ["a"] /\
    run ex_fetch ex_answer [Finished; Finished] f = Ok f' /\ head (sent f') = Some "ab".
Proof.
  destruct (run ex_fetch ex_answer [Typed "a"; Typed "ab"] start) as [f|e] eqn:E; [|discriminate E].
  destruct (latest_query_is_sent ex_fetch ex_answer [Typed "a"; Typed "ab"] f "ab" E eq_refl) as (f' & Hr & _ & _ & Hh).
  exists f, f'. split; [reflexivity|]. split; [by injection E as <-|]. split; [exact Hr|]. by apply Hh.
Defined.

(** ** Departures *)

(** A field that is emptied during a request ignores it: the completions of what is no
    longer there are shown. *)
Lemma emptied_field_shows_menu :
  exists f, run ex_fetch ex_answer [Typed "a"; Typed ""; Fetched; Finished] start = Ok f /\ on_screen f 0 (ex_answer "a").
Proof. eexists. by split. Qed.

(** Emptied while a query waits, the field asks for the completions of that query. *)
Lemma emptied_field_asks :
  exists f, run ex_fetch ex_answer [Typed "a"; Typed "ab"; Typed ""; Finished] start = Ok f /\ sent f = ["ab"; "a"].
Proof. eexists. by split. Qed.
End Completion.
