(* ===== verification/Debounce.v ===== *)
(** * From keys to queries ([views/autocomplete_text_field_view.js])

    A field with completions asks for them when the user stops typing: [Ember.run.debounce]
    puts the work off until half a second has gone by without a key, and does it once, with
    the event of the last key.  What becomes of the queries is the subject of [TextField]. *)

From S2P Require Import Prelude.
From S2P Require Import TextField.
Import TextField.Completion.
Open Scope string_scope.
Open Scope list_scope.
Open Scope flame_scope.

Record input := Input {
  text : string;                 (* in the element *)
  _debounce : option nat;        (* the work that is put off, with the code of the last key *)
  completion : field
}.

Section keys.
Context (fetchAutocompleteResults : string -> bool) (answer : string -> options).
Abbreviation complete := (Completion.step fetchAutocompleteResults answer).

Definition keyUp (which : nat) (text : string) (i : input) : input := Input text (Some which) (completion i).

(** Backspace, and the keys from the space on. *)
Definition is_text_key (which : nat) : bool := Nat.eqb which 8 || Nat.ltb 31 which.

Definition autocompleteAction (which : nat) (i : input) : outcome input :=
  if is_text_key which then do! f <- complete (Typed (text i)) (completion i) ; Ok (Input (text i) (_debounce i) f) else Ok i.

(** Half a second without a key. *)
Definition pause (i : input) : outcome input :=
  match _debounce i with
  | Some which => autocompleteAction which (Input (text i) None (completion i))
  | None => Ok i
  end.

Definition willDestroyElement (i : input) : input := Input (text i) None (completion i).

Inductive event := KeyUp (which : nat) (text : string) | Pause | Removed | Answer (ev : Completion.event).

Definition step (ev : event) (i : input) : outcome input :=
  match ev with
  | KeyUp c t => Ok (keyUp c t i)
  | Pause => pause i
  | Removed => Ok (willDestroyElement i)
  | Answer ev => do! f <- complete ev (completion i) ; Ok (Input (text i) (_debounce i) f)
  end.

Fixpoint run (evs : list event) (i : input) : outcome input :=
  match evs with [] => Ok i | ev :: evs' => do! i' <- step ev i ; run evs' i' end.

Definition keys (ks : list (nat * string)) : list event := (fun k => KeyUp k.1 k.2) <$> ks.

Lemma run_events_app evs1 evs2 i : run (evs1 ++ evs2) i = (do! i' <- run evs1 i ; run evs2 i').
Proof. revert i. induction evs1 as [|ev evs1 IH]; intros i; [done|]. cbn [app run]. destruct (step ev i) as [i'|e]; [apply IH|done]. Qed.

Lemma run_keys ks i : run (keys ks) i = Ok (match last ks with Some (c, t) => Input t (Some c) (completion i) | None => i end).
Proof.
  revert i. induction ks as [|[c t] ks IH]; intros i; [done|]. cbn [keys fmap list_fmap run step outcome_bind]. rewrite IH.
  destruct ks as [|k ks]; [done|]. rewrite last_cons_cons. by destruct (last (k :: ks)) as [[]|] eqn:E; [|by apply last_None in E].
Qed.

(** However many keys are typed without a pause, nothing is asked for until the pause, and
    then once: for the text that is in the input after the last key, if that key changes texts;
    and nothing is if the field is removed from the document first. *)
Theorem one_query_per_pause ks c t i :
  run (keys (ks ++ [(c, t)]) ++ [Pause]) i =
    (if is_text_key c then do! f <- complete (Typed t) (completion i) ; Ok (Input t None f) else Ok (Input t None (completion i))) /\
  run (keys (ks ++ [(c, t)]) ++ [Removed; Pause]) i = Ok (Input t None (completion i)) /\
  run (keys (ks ++ [(c, t)]) ++ [Pause; Pause]) i = run (keys (ks ++ [(c, t)]) ++ [Pause]) i.
Proof.
  rewrite !run_events_app, !run_keys, last_snoc. cbn [outcome_bind run step pause _debounce text completion]. unfold autocompleteAction.
  destruct (is_text_key c); [|by split_and!]. cbn [text completion _debounce]. by destruct (complete (Typed t) (completion i)).
Qed.
End keys.

(** ** Departures *)

(** The keyup event of the shift key, which follows that of a capital letter, takes its place:
    no query is sent for the capital letter. *)
Lemma capital_letter_is_not_asked_for :
  let typed ks := match run (fun _ => true) (fun _ => []) (keys ks ++ [Pause]) (Input "" None start) with Ok i => sent (completion i) | Throw _ => [] end in
  typed [(72, "h")] = ["h"] /\ typed [(72, "H"); (16, "H")] = [].
Proof. vm_compute. done. Qed.
