(* ===== verification/Form.v ===== *)
(** * Forms ([views/form_view.js])

    A form builds a row for every property it is given: a label and a control, or a
    control alone, chosen by the type of the field; then a row of buttons.  Fields may
    have a validator, which is handed to the object the form edits ([Validations]), and
    a message that is shown next to the control while the property is invalid.  The tab
    key moves the key responder ([EventManager]) from control to control.

    Elements are left out.  A control is the class that is chosen together with its
    settings; bindings among them are the paths they are made of.  Descriptors of
    buttons are shared objects that the form writes to, and live in a store. *)

From S2P Require Import Prelude.
From S2P Require EventManager Validations.
From stdpp Require Import gmap.
Open Scope string_scope.
Open Scope list_scope.
Open Scope flame_scope.

(** ** Fields *)

(** [options]: a list of items, a function that makes one, or a computed property,
    which is found among the descriptors of the object only. *)
Inductive options := OptItems (items : jsval) | OptFunction (f : unit -> jsval) | OptComputed (desc : jsval) | NoOptions.

(** [isVisible] and [isVisibleBinding] of a row. *)
Inductive visibility := VConst (b : jsval) | VBinding (path : string).

Record field := Field {
  property : string;
  type : option string;
  label : option string;
  tooltip : option string;
  name : option string;
  isVisible : jsval;                     (* [JUndefined] when not given *)
  isVisibleBinding : option string;
  isDisabled : jsval;
  validate : option Validations.validation;
  validation : option jsval;             (* the message *)
  controlLayout : gmap string jsval;
  opts : options;
  optionsBinding : option string;
  itemTitleKey : option string;
  itemValueKey : option string;
  subMenuKey : option string;
  isSelectable : jsval;
  isAutocomplete : bool;
  autocompleteDelegate : jsval;
  setValueOnEachKeyUp : jsval;
  height : jsval;
  allowNew : bool;
  formatTitle : jsval;
  view : jsval                           (* a control of its own *)
}.

Inductive class := LabelView | AutocompleteTextFieldView | TextFieldView | TextAreaView | CheckboxView
  | MultiselectionButtonView | ComboBoxView | SelectButtonView.

#[export] Instance class_eq_dec : EqDecision class.
Proof. solve_decision. Defined.

(** What a setting is bound to: a constant, an alias of a path, or whether a path
    differs from, or equals, a constant. *)
Inductive setting := SValue (v : jsval) | SAlias (path : string) | SNotEqual (path : string) (v : jsval) | SEqual (path : string) (v : jsval).

Record control := Control {
  class_ : class;
  layout : gmap string jsval;
  settings : gmap string setting;
  message : option jsval;                (* the validation observers are installed *)
  submits : bool                         (* [fireAction] clicks the default button *)
}.

(** [null] and [undefined] messages install no observers. *)
Definition _buildValidationObservers (validationMessage : option jsval) : option jsval :=
  m ← validationMessage; if isNone m then None else Some m.

Definition or_else (o : option string) (d : string) : string :=
  match o with Some s => if bool_decide (s = "") then d else s | None => d end.

Definition object_path (p : string) : string := "parentView.parentView.object." +:+ p.

Definition invalid_type (t : string) : string := "Invalid control type " +:+ t.

(** The items of a select and the key of their titles, if it has items. *)
Definition select_items (f : field) (s : gmap string setting) : gmap string setting :=
  match optionsBinding f with
  | Some b => <["itemsBinding" := SAlias b]> (<["itemTitleKey" := SValue (JStr (or_else (itemTitleKey f) "name"))]> s)
  | None =>
      let titled := <["itemTitleKey" := SValue (JStr (or_else (itemTitleKey f) "title"))]> s in
      match opts f with
      | OptItems items => if truthy items then <["items" := SValue items]> titled else s
      | OptFunction g => <["items" := SValue (g tt)]> titled
      | OptComputed d => <["items" := SValue d]> titled
      | NoOptions => s
      end
  end.

Definition named (f : field) (s : gmap string setting) : gmap string setting :=
  <["name" := SValue (JStr (default (property f) (name f)))]> s.

Definition given (k : string) (v : jsval) (s : gmap string setting) : gmap string setting :=
  if truthy v then <[k := SValue v]> s else s.

Definition _buildControlView (lay : gmap string jsval) (s : gmap string setting) (msg : option jsval) (sub : bool)
    (t : string) (f : field) : outcome control :=
  if String.eqb t "readonly" then
    Ok (Control LabelView lay
          (<["titleBinding" := SAlias "value"]>
           (<["isSelectable" := SValue (JBool (negb (strict_eq (isSelectable f) (JBool false))))]> s)) msg sub)
  else if String.eqb t "text" then
    if isAutocomplete f
    then Ok (Control AutocompleteTextFieldView lay
               (<["autocompleteDelegate" := SValue (autocompleteDelegate f)]> (named f s)) msg sub)
    else Ok (Control TextFieldView lay
               (if strict_eq (setValueOnEachKeyUp f) (JBool false)
                then <["setValueOnEachKeyUp" := SValue (JBool false)]> (named f s) else named f s) msg sub)
  else if String.eqb t "textarea" then
    Ok (Control TextAreaView (<["height" := js_or (height f) (JNum 70)]> lay) s msg sub)
  else if String.eqb t "password" then
    Ok (Control TextFieldView lay (named f (<["isPassword" := SValue (JBool true)]> s)) msg sub)
  else if String.eqb t "html" then
    Ok (Control LabelView lay (<["escapeHTML" := SValue (JBool false)]> s) msg sub)
  else if String.eqb t "checkbox" then
    Ok (Control CheckboxView lay
          (delete "value"
            (match s !! "value" with
             | Some v => <["isSelected" := v]> (<["title" := SValue (from_option JStr JUndefined (label f))]> s)
             | None => <["title" := SValue (from_option JStr JUndefined (label f))]> s
             end)) msg sub)
  else if String.eqb t "select" then
    let s1 := given "isSelectable" (isSelectable f)
                (<["subMenuKey" := SValue (JStr (or_else (subMenuKey f) "subMenu"))]>
                 (<["itemValueKey" := SValue (JStr (or_else (itemValueKey f) "value"))]> s)) in
    let s2 := select_items f s1 in
    if bool_decide (type f = Some "multiselect")
    then Ok (Control MultiselectionButtonView lay (given "formatTitle" (formatTitle f) s2) msg sub)
    else if allowNew f then Ok (Control ComboBoxView lay s2 msg sub)
    else Ok (Control SelectButtonView lay s2 msg sub)
  else Throw (invalid_type t).

(** [descriptor.options || descriptor.optionsBinding] *)
Definition has_options (f : field) : bool :=
  match opts f with
  | OptItems v => truthy v
  | OptFunction _ => true
  | _ => false
  end || bool_decide (is_Some (optionsBinding f)).

Definition control_type (f : field) : string := if has_options f then "select" else or_else (type f) "text".

(** The types of controls that submit the form on enter. *)
Definition plain_text (t : string) : bool := String.eqb t "text" || String.eqb t "textarea" || String.eqb t "password".

Section controls.
(** What a form has: the object it edits and its settings for controls. *)
Context (controlWidth : jsval) (defaultFocus : option string).

Definition base_settings (f : field) : gmap string setting :=
  let s := <["isDisabled" := if truthy (isDisabled f) then SValue (isDisabled f)
                             else SEqual (object_path (property f +:+ "IsDisabled")) (JBool true)]>
          (<["isValid" := SNotEqual (object_path (property f +:+ "IsValid")) (JBool false)]>
          (<["value" := SAlias (object_path (property f))]> ∅)) in
  if bool_decide (defaultFocus = Some (property f)) then <["isDefaultFocus" := SValue (JBool true)]> s else s.

Definition base_layout (f : field) : gmap string jsval :=
  controlLayout f ∪
  <["topPadding" := JNum 1]> (<["bottomPadding" := JNum 1]> (<["width" := controlWidth]> ∅)).

(** On-the-fly validation is set up in the object before the control is chosen. *)
Definition _buildControl (object : option Validations.model) (f : field) : outcome (option Validations.model * control) :=
  do! object' <- (match validate f with
                  | None => Ok object
                  | Some v =>
                      do! o <- or_throw object TypeError ;
                      do! o' <- Validations.setValidationFor (property f) v o ; Ok (Some o')
                  end) ;
  let t := control_type f in
  let s := <["className" := SValue (JStr ("form-view-" +:+ t))]> (base_settings f) in
  do! c <- _buildControlView (base_layout f) s (_buildValidationObservers (validation f)) (plain_text t) t f ;
  Ok (object', c).
End controls.

(** ** Rows *)

Open Scope Z_scope.

Record margins := Margins {
  leftMargin : Z;
  rightMargin : Z;
  columnSpacing : Z;
  labelWidth : Z;
  buttonWidth : Z
}.

Definition _focusRingMargin : Z := 3.

Record label_view := LabelOf { label_value : string; label_title : string; label_left : Z; label_width : Z }.

(** The control of a row: a view that the field brings, or one that is built. *)
Inductive cell := CView (v : jsval) | CControl (c : control).

(** A row: the layout of a row with a label, its parts, and the layout of the control
    within its parent. *)
Record row := Row {
  row_layout : option (Z * Z);
  row_label : option label_view;
  row_control : cell;
  control_left : Z;
  control_right : Z;
  row_visible : visibility
}.

Definition _buildLabel (g : margins) (f : field) : label_view :=
  let l := default "undefined" (label f) in
  LabelOf (l +:+ ":") (or_else (tooltip f) l) 0 (labelWidth g).

Definition const_visible (f : field) : visibility :=
  VConst (match isVisible f with JUndefined => JBool true | v => v end).

Definition place_row (g : margins) (f : field) (c : cell) : row :=
  if bool_decide (type f = Some "checkbox") then
    Row None None c (leftMargin g + labelWidth g + columnSpacing g - 4) _focusRingMargin (const_visible f)
  else
    match label f with
    | None => Row None None c (leftMargin g + _focusRingMargin) (rightMargin g + _focusRingMargin) (const_visible f)
    | Some _ =>
        Row (Some (leftMargin g, rightMargin g)) (Some (_buildLabel g f)) c
          (labelWidth g + columnSpacing g) _focusRingMargin
          (match isVisibleBinding f with Some b => VBinding b | None => const_visible f end)
    end.

(** ** Buttons *)

Inductive target := TGiven (t : jsval) | TNearest (key : string).
Record blayout := BLayout { width : option Z; right : option Z; top : option Z }.
Record bdesc := BDesc { btarget : option target; layout_ : option blayout }.

(** The descriptor is completed in place, and the view is made from it. *)
Definition _buildButton (g : margins) (r : Z) (d : bdesc) : bdesc :=
  let t := match btarget d with Some t => t | None => TNearest "defaultTarget" end in
  let l := match layout_ d with Some l => l | None => BLayout (Some (buttonWidth g)) (Some r) None end in
  BDesc (Some t) (Some (BLayout (width l) (right l) (Some _focusRingMargin))).

Definition bwidth (d : bdesc) : Z := default 0 (l ← layout_ d; width l).

(** The loop of the view that holds the buttons. *)
Fixpoint build_buttons (g : margins) (ds : list nat) (r : Z) (store : gmap nat bdesc) : gmap nat bdesc * list bdesc :=
  match ds with
  | [] => (store, [])
  | d :: ds' =>
      let b := _buildButton g r (default (BDesc None None) (store !! d)) in
      let '(store', bs) := build_buttons g ds' (r + (bwidth b + 15)) (<[d := b]> store) in
      (store', b :: bs)
  end.

Definition _buildButtons (g : margins) (ds : list nat) (store : gmap nat bdesc) : gmap nat bdesc * list bdesc :=
  build_buttons g ds _focusRingMargin store.

(** ** The form *)

Record form := Form {
  object : option Validations.model;
  rows : list row;
  buttons : option (list bdesc);          (* the row of buttons, if there are any *)
  descriptors : gmap nat bdesc
}.

Section form.
Context (g : margins) (controlWidth : jsval) (defaultFocus : option string).

Definition _createLabelAndControl (o : option Validations.model) (f : field) : outcome (option Validations.model * row) :=
  do! r <- (if truthy (view f) then Ok (o, CView (view f))
            else do! oc <- _buildControl controlWidth defaultFocus o f ; Ok (oc.1, CControl oc.2)) ;
  Ok (r.1, place_row g f r.2).

Fixpoint create_rows (o : option Validations.model) (fs : list field) : outcome (option Validations.model * list row) :=
  match fs with
  | [] => Ok (o, [])
  | f :: fs' =>
      do! r <- _createLabelAndControl o f ;
      do! rs <- create_rows r.1 fs' ;
      Ok (rs.1, r.2 :: rs.2)
  end.

(** The children are destroyed and made again. *)
Definition _propertiesDidChange (properties : list field) (bs : list nat) (s : form) : outcome form :=
  do! r <- create_rows (object s) properties ;
  Ok (match bs with
      | [] => Form r.1 r.2 None (descriptors s)
      | _ => let '(store, views) := _buildButtons g bs (descriptors s) in Form r.1 r.2 (Some views) store
      end).
End form.

(** ** The tab key *)

Section tab.
Import EventManager.
Context {A : Type}.
Context (hook : nat -> string -> option (world A -> world A)).

(** The tree below the form: the views of each row, which of them are fields wrapped
    around an input of Ember's, and what these are. *)
Record controls_view := ControlsView {
  childViews : list (list nat);
  input_of : gmap nat nat;                (* the input within a wrapper *)
  isInput : nat -> bool                   (* [instanceof Ember.TextField], [Ember.TextArea] *)
}.

(** [control.becomeKeyResponder()], which wrappers pass to their input. *)
Definition focus_control (fuel : nat) (cv : controls_view) (c : nat) (w : world A) : option (outcome (world A)) :=
  becomeKeyResponder hook fuel None (default c (input_of cv !! c)) w.

Definition tab_controls (cv : controls_view) (w : world A) : list nat :=
  filter (fun v => acceptsKeyResponder (info w v) = true /\ EventManager.isVisible (info w v) = true)
    (concat (childViews cv)).

(** The view whose successor is sought. *)
Definition tab_from (cv : controls_view) (w : world A) : option nat :=
  v ← current w; if isInput cv v then parentView (info w v) else Some v.

Definition indexOf (v : option nat) (l : list nat) : Z :=
  match v ≫= (fun v => list_find (v =.) l) with Some (i, _) => Z.of_nat i | None => -1 end.

(** [reduce] throws on a form without rows. *)
Definition _performTab (fuel : nat) (cv : controls_view) (direction : Z) (w : world A) : option (outcome (world A)) :=
  match childViews cv with
  | [] => Some (Throw TypeError)
  | _ =>
      let controls := tab_controls cv w in
      match controls with
      | [] => Some (Ok w)
      | first :: _ =>
          let index := (indexOf (tab_from cv w) controls + direction)%Z in
          let c := if (index <? 0)%Z then nth (length controls - 1) controls first
                   else if (index =? Z.of_nat (length controls))%Z then first
                   else nth (Z.to_nat index) controls first in
          focus_control fuel cv c w
      end
  end.

Definition insertTab fuel cv w := _performTab fuel cv 1 w.
Definition insertBacktab fuel cv w := _performTab fuel cv (-1) w.
End tab.

(** ** Validation messages *)

(** A control with a message, and the error view it shows.  The element of a control
    has an offset from when it is inserted until it is destroyed. *)
Record vcontrol := VControl {
  validity : jsval;                       (* the property [...IsValid] of the object *)
  value : jsval;
  msg : jsval -> jsval;                   (* a message is a constant, or made from the value *)
  inserted : bool;
  _errorView : option nat
}.

Record errors := Errors {
  vcontrols : gmap nat vcontrol;
  _errorViews : list nat;
  shown : gmap nat jsval;                 (* the error views on the screen, with their texts *)
  next : nat                              (* the next view to be created *)
}.

Definition set_validity v c := VControl v (value c) (msg c) (inserted c) (_errorView c).
Definition set_value v c := VControl (validity c) v (msg c) (inserted c) (_errorView c).
Definition set_inserted b c := VControl (validity c) (value c) (msg c) b (_errorView c).
Definition set_errorView e c := VControl (validity c) (value c) (msg c) (inserted c) e.
Definition put (k : nat) (c : vcontrol) (s : errors) : errors := Errors (<[k := c]> (vcontrols s)) (_errorViews s) (shown s) (next s).

(** [notEqual(..., false)] *)
Definition valid (c : vcontrol) : bool := negb (strict_eq (validity c) (JBool false)).

Definition isValidWillChange (k : nat) (s : errors) : errors :=
  match vcontrols s !! k with
  | Some c =>
      match _errorView c with
      | Some e =>
          if valid c then s
          else Errors (<[k := set_errorView None c]> (vcontrols s)) (filter (.≠ e) (_errorViews s))
                 (delete e (shown s)) (next s)
      | None => s
      end
  | None => s
  end.

Definition isValidDidChange (k : nat) (s : errors) : errors :=
  match vcontrols s !! k with
  | Some c =>
      if valid c || bool_decide (is_Some (_errorView c)) || negb (inserted c) then s
      else Errors (<[k := set_errorView (Some (next s)) c]> (vcontrols s)) (_errorViews s ++ [next s])
             (<[next s := msg c (value c)]> (shown s)) (S (next s))
  | None => s
  end.

(** What happens to the controls: the object's validity or value changes, the element
    of a control is inserted, the form is rebuilt with new controls, it is removed. *)
Inductive form_event :=
| ESetValidity (k : nat) (v : jsval)
| ESetValue (k : nat) (v : jsval)
| EInsert (k : nat)
| ERebuild (cs : gmap nat vcontrol)
| EDestroy.

Definition setValidity (k : nat) (v : jsval) (s : errors) : errors :=
  match vcontrols s !! k with
  | Some c =>
      if strict_eq (validity c) v then s
      else
        let s1 := isValidWillChange k s in
        let s2 := match vcontrols s1 !! k with Some c => put k (set_validity v c) s1 | None => s1 end in
        isValidDidChange k s2
  | None => s
  end.

Definition didInsertElement (k : nat) (s : errors) : errors :=
  match vcontrols s !! k with
  | Some c => isValidDidChange k (put k (set_inserted true c) s)
  | None => s
  end.

(** The messages on the screen are removed, the list of error views is not changed. *)
Definition willDestroyElement (s : errors) : errors :=
  Errors (vcontrols s) (_errorViews s) (foldl (fun m e => delete e m) (shown s) (_errorViews s)) (next s).

Definition form_step (ev : form_event) (s : errors) : errors :=
  match ev with
  | ESetValidity k v => setValidity k v s
  | ESetValue k v => match vcontrols s !! k with Some c => put k (set_value v c) s | None => s end
  | EInsert k => didInsertElement k s
  | ERebuild cs => Errors cs (_errorViews s) (shown s) (next s)
  | EDestroy => willDestroyElement s
  end.

Definition form_isValid (s : errors) : bool := bool_decide (length (_errorViews s) = 0)%nat.

Definition fresh_form (cs : gmap nat vcontrol) : errors := Errors cs [] ∅ 0.

(** ** Lemmas on messages *)

(** Error views belong to one control each, and are those on the screen. *)
Record views_ok (s : errors) : Prop := {
  vo_owner e : e ∈ _errorViews s <-> exists k c, vcontrols s !! k = Some c /\ _errorView c = Some e;
  vo_inj k1 c1 k2 c2 e : vcontrols s !! k1 = Some c1 -> vcontrols s !! k2 = Some c2 ->
    _errorView c1 = Some e -> _errorView c2 = Some e -> k1 = k2;
  vo_next e : e ∈ _errorViews s -> (e < next s)%nat;
  vo_nodup : NoDup (_errorViews s);
  vo_shown e : is_Some (shown s !! e) <-> e ∈ _errorViews s;
  vo_text k c e : vcontrols s !! k = Some c -> _errorView c = Some e -> exists v, shown s !! e = Some (msg c v)
}.

(** A control shows an error view when it is on the screen and invalid. *)
Definition control_ok (c : vcontrol) : Prop := is_Some (_errorView c) <-> inserted c = true /\ valid c = false.

Lemma put_views_ok k c c' s :
  vcontrols s !! k = Some c -> _errorView c' = _errorView c -> msg c' = msg c -> views_ok s -> views_ok (put k c' s).
Proof.
  intros Hk He Hm [Ho Hi Hn Hd Hs Ht].
  assert (Hl : forall k1 c1, <[k := c']> (vcontrols s) !! k1 = Some c1 ->
    exists c2, vcontrols s !! k1 = Some c2 /\ _errorView c1 = _errorView c2 /\ msg c1 = msg c2).
  { intros k1 c1 [[<- <-]|[? H]]%lookup_insert_Some; eauto. }
  split; cbn; try done.
  - intros e. rewrite Ho. split.
    + intros (k1 & c1 & H1 & H2). destruct (decide (k1 = k)) as [->|Hne].
      * exists k, c'. rewrite lookup_insert_eq. split; [done|congruence].
      * exists k1, c1. by rewrite lookup_insert_ne.
    + intros (k1 & c1 & H1 & H2). destruct (Hl k1 c1 H1) as (c2 & ? & ? & _). exists k1, c2. split; [done|congruence].
  - intros k1 c1 k2 c2 e H1 H2 E1 E2. destruct (Hl k1 c1 H1) as (d1 & ? & ? & _).
    destruct (Hl k2 c2 H2) as (d2 & ? & ? & _). eapply (Hi k1 d1 k2 d2 e); congruence.
  - intros k1 c1 e H1 E1. destruct (Hl k1 c1 H1) as (d1 & ? & ? & ->). eapply (Ht k1 d1); congruence.
Qed.

Lemma will_views_ok k s : views_ok s -> views_ok (isValidWillChange k s).
Proof.
  intros H. unfold isValidWillChange. destruct (vcontrols s !! k) as [c|] eqn:Hk; [|done].
  destruct (_errorView c) as [e0|] eqn:He; [|done]. destruct (valid c); [done|].
  destruct H as [Ho Hi Hn Hd Hs Ht].
  assert (Hl : forall k1 c1 e, <[k := set_errorView None c]> (vcontrols s) !! k1 = Some c1 -> _errorView c1 = Some e ->
    k1 <> k /\ vcontrols s !! k1 = Some c1 /\ e <> e0).
  { intros k1 c1 e [[<- <-]|[Hne H1]]%lookup_insert_Some E1; [done|]. split_and!; [done|done|].
    intros ->. apply Hne. by eapply (Hi k c k1 c1 e0). }
  split; cbn.
  - intros e. rewrite list_elem_of_filter, Ho. split.
    + intros [Hne (k1 & c1 & H1 & E1)]. exists k1, c1. rewrite lookup_insert_ne; [done|]. intros ->. congruence.
    + intros (k1 & c1 & H1 & E1). destruct (Hl k1 c1 e H1 E1) as (? & ? & ?). eauto.
  - intros k1 c1 k2 c2 e H1 H2 E1 E2. destruct (Hl k1 c1 e H1 E1) as (_ & ? & _).
    destruct (Hl k2 c2 e H2 E2) as (_ & ? & _). by eapply Hi.
  - intros e [_ H]%list_elem_of_filter. by apply Hn.
  - by apply NoDup_filter.
  - intros e. rewrite list_elem_of_filter, <- Hs. destruct (decide (e = e0)) as [->|Hne].
    + rewrite lookup_delete_eq. split; [by intros [? ?]|by intros [? _]].
    + rewrite lookup_delete_ne by done. naive_solver.
  - intros k1 c1 e H1 E1. destruct (Hl k1 c1 e H1 E1) as (_ & H & Hne). rewrite lookup_delete_ne by done. by apply (Ht k1).
Qed.

Lemma did_views_ok k s : views_ok s -> views_ok (isValidDidChange k s).
Proof.
  intros H. unfold isValidDidChange. destruct (vcontrols s !! k) as [c|] eqn:Hk; [|done].
  destruct (valid c); [done|]. destruct (_errorView c) as [e0|] eqn:He; [done|]. destruct (inserted c); [|done].
  cbn. destruct H as [Ho Hi Hn Hd Hs Ht].
  assert (Hfresh : next s ∉ _errorViews s) by (intros X; apply Hn in X; lia).
  assert (Hl : forall k1 c1 e, <[k := set_errorView (Some (next s)) c]> (vcontrols s) !! k1 = Some c1 ->
    _errorView c1 = Some e -> k1 = k /\ c1 = set_errorView (Some (next s)) c /\ e = next s \/
      k1 <> k /\ vcontrols s !! k1 = Some c1 /\ e ∈ _errorViews s).
  { intros k1 c1 e [[<- <-]|[Hne H1]]%lookup_insert_Some E1; [left; cbn in E1; split_and!; congruence|right].
    split_and!; [done|done|]. apply Ho. eauto. }
  split; cbn.
  - intros e. rewrite elem_of_app, list_elem_of_singleton, Ho. split.
    + intros [(k1 & c1 & H1 & E1)| ->].
      * exists k1, c1. rewrite lookup_insert_ne; [done|]. intros ->. congruence.
      * exists k, (set_errorView (Some (next s)) c). by rewrite lookup_insert_eq.
    + intros (k1 & c1 & H1 & E1). destruct (Hl k1 c1 e H1 E1) as [(_ & _ & ->)|(? & ? & ?)]; [by right|left; eauto].
  - intros k1 c1 k2 c2 e H1 H2 E1 E2.
    destruct (Hl k1 c1 e H1 E1) as [(? & _ & ?)|(? & ? & ?)], (Hl k2 c2 e H2 E2) as [(? & _ & ?)|(? & ? & ?)];
      [congruence|congruence|congruence|by eapply Hi].
  - intros e [He'| ->%list_elem_of_singleton]%elem_of_app; [|lia]. apply Hn in He'. lia.
  - apply NoDup_app. split_and!; [done| |apply NoDup_singleton]. intros x Hx ->%list_elem_of_singleton. done.
  - intros e. rewrite elem_of_app, list_elem_of_singleton, <- Hs. destruct (decide (e = next s)) as [->|Hne].
    + rewrite lookup_insert_eq. split; eauto.
    + rewrite lookup_insert_ne by done. naive_solver.
  - intros k1 c1 e H1 E1. destruct (Hl k1 c1 e H1 E1) as [(-> & -> & ->)|(? & ? & ?)].
    + rewrite lookup_insert_eq. by eexists.
    + rewrite lookup_insert_ne by (intros <-; done). by apply (Ht k1).
Qed.

Lemma setValidity_views_ok k v s : views_ok s -> views_ok (setValidity k v s).
Proof.
  intros H. unfold setValidity. destruct (vcontrols s !! k); [|done]. destruct (strict_eq _ _); [done|].
  apply did_views_ok. apply (will_views_ok k) in H.
  destruct (vcontrols (isValidWillChange k s) !! k) as [c|] eqn:E; [by apply (put_views_ok k c)|done].
Qed.

Lemma didInsert_views_ok k s : views_ok s -> views_ok (didInsertElement k s).
Proof.
  intros H. unfold didInsertElement. destruct (vcontrols s !! k) as [c|] eqn:E; [|done].
  apply did_views_ok. by apply (put_views_ok k c).
Qed.

(** What an event leaves at a control: the notifications touch only its own. *)
Lemma did_other k k' s : k' <> k -> vcontrols (isValidDidChange k s) !! k' = vcontrols s !! k'.
Proof. intros Hne. unfold isValidDidChange. repeat case_match; cbn; try done. by rewrite lookup_insert_ne. Qed.

Lemma will_other k k' s : k' <> k -> vcontrols (isValidWillChange k s) !! k' = vcontrols s !! k'.
Proof. intros Hne. unfold isValidWillChange. repeat case_match; cbn; try done. by rewrite lookup_insert_ne. Qed.

Lemma will_at k c s :
  vcontrols s !! k = Some c -> control_ok c ->
  vcontrols (isValidWillChange k s) !! k = Some (set_errorView None c).
Proof.
  intros Hk Hc. unfold isValidWillChange. rewrite Hk. destruct c as [v x m i [e|]]; cbn in *; [|by rewrite Hk].
  destruct (valid _) eqn:Ev; [|cbn; by rewrite lookup_insert_eq].
  destruct (proj1 Hc) as [_ H]; [by eexists|]. change (valid (VControl v x m i (Some e)) = false) in H. congruence.
Qed.

Lemma did_at k c s :
  vcontrols s !! k = Some c -> (is_Some (_errorView c) -> inserted c = true /\ valid c = false) ->
  exists c', vcontrols (isValidDidChange k s) !! k = Some c' /\ control_ok c' /\
    inserted c' = inserted c /\ validity c' = validity c /\ value c' = value c /\ msg c' = msg c.
Proof.
  intros Hk Hc. unfold isValidDidChange. rewrite Hk. unfold control_ok.
  destruct (valid c) eqn:Ev; cbn; [exists c; split_and!; try done; rewrite Ev; naive_solver|].
  destruct (_errorView c) as [e|] eqn:Ee; cbn; [exists c; rewrite Ev, Ee; split_and!; try done; naive_solver|].
  destruct (inserted c) eqn:Ei; cbn.
  - exists (set_errorView (Some (next s)) c). rewrite lookup_insert_eq. refine (conj eq_refl (conj _ _)); [|done].
    split; [|by eexists]. intros _. split; [exact Ei|exact Ev].
  - exists c. rewrite Ee, Ei. refine (conj Hk (conj _ _)); [|done]. split; [by intros [? ?]|by intros [? _]].
Qed.

Definition form_ok (s : errors) : Prop := views_ok s /\ forall k c, vcontrols s !! k = Some c -> control_ok c.

Definition form_stays (ev : form_event) : Prop := match ev with ERebuild _ | EDestroy => False | _ => True end.

Lemma form_step_ok ev s : form_stays ev -> form_ok s -> form_ok (form_step ev s).
Proof.
  intros Hev [Hv Hc]. destruct ev as [k v|k v|k|cs|]; cbn [form_step]; try done.
  - split; [by apply setValidity_views_ok|]. intros k' c'. unfold setValidity.
    destruct (vcontrols s !! k) as [c|] eqn:Hk; [|by apply Hc]. destruct (strict_eq (validity c) v); [by apply Hc|].
    rewrite (will_at k c s Hk (Hc k c Hk)). destruct (decide (k' = k)) as [->|Hne].
    + edestruct (did_at k (set_validity v (set_errorView None c))) as (c2 & -> & H2 & _);
        [cbn; by rewrite lookup_insert_eq|cbn; by intros [? ?]|]. by intros [= <-].
    + rewrite did_other by done. cbn. rewrite lookup_insert_ne, will_other by done. apply Hc.
  - destruct (vcontrols s !! k) as [c|] eqn:Hk; [|done].
    split; [by apply (put_views_ok k c)|]. cbn. intros k' c' [[<- <-]|[_ H]]%lookup_insert_Some; [|by eapply Hc].
    exact (Hc k c Hk).
  - split; [by apply didInsert_views_ok|]. intros k' c'. unfold didInsertElement.
    destruct (vcontrols s !! k) as [c|] eqn:Hk; [|by apply Hc]. destruct (decide (k' = k)) as [->|Hne].
    + edestruct (did_at k (set_inserted true c)) as (c2 & -> & H2 & _); [cbn; by rewrite lookup_insert_eq| |by intros [= <-]].
      cbn. intros [_ H]%(Hc k c Hk). done.
    + rewrite did_other by done. cbn. rewrite lookup_insert_ne by done. apply Hc.
Qed.

Lemma form_run_ok evs : forall s, Forall form_stays evs -> form_ok s -> form_ok (foldl (fun s ev => form_step ev s) s evs).
Proof.
  induction evs as [|ev evs IH]; intros s Hf Hs; [done|]. inversion Hf; subst. cbn.
  apply IH; [done|]. by apply form_step_ok.
Qed.

Definition unseen (c : vcontrol) : Prop := _errorView c = None /\ inserted c = false.

Lemma fresh_form_ok cs : map_Forall (fun _ => unseen) cs -> form_ok (fresh_form cs).
Proof.
  intros Hc. assert (Hn : forall k c, cs !! k = Some c -> _errorView c = None) by (intros k c H; by apply (Hc k c H)).
  split; [split|]; cbn.
  - intros e. split; [by intros H%elem_of_nil|]. intros (k & c & H & E). by rewrite (Hn k c H) in E.
  - intros k1 c1 k2 c2 e H1 _ E1 _. by rewrite (Hn k1 c1 H1) in E1.
  - by intros e H%elem_of_nil.
  - constructor.
  - intros e. rewrite lookup_empty. split; [by intros [? ?]|by intros H%elem_of_nil].
  - intros k c e H E. by rewrite (Hn k c H) in E.
  - intros k c H. destruct (Hc k c H) as [H1 H2]. unfold control_ok. rewrite H1, H2.
    split; [by intros [? ?]|by intros [? _]].
Qed.

(** ** Lemmas on the tab key *)

Section tab_lemmas.
Import EventManager.
Context {A : Type}.
Context (hook : nat -> string -> option (world A -> world A)).
Context (cv : controls_view).

(** The view that has the key responder when a control has the focus. *)
Definition responder_of (c : nat) : nat := default c (input_of cv !! c).

(** Every control that the tab key visits takes the focus, and is found again from
    the view that has it. *)
Record tab_ready (w : world A) : Prop := {
  tr_nodup : NoDup (tab_controls cv w);
  tr_focus c : c ∈ tab_controls cv w ->
    acceptsKeyResponder (info w (responder_of c)) = true /\
    EventManager.isDisabled (info w (responder_of c)) = false;
  tr_from c : c ∈ tab_controls cv w ->
    if isInput cv (responder_of c) then parentView (info w (responder_of c)) = Some c else responder_of c = c
}.

Definition tabs (fuel : nat) (direction : Z) (n : nat) (w : world A) : option (outcome (world A)) :=
  Nat.iter n (fun r => match r with Some (Ok w) => _performTab hook fuel cv direction w | _ => r end) (Some (Ok w)).

Lemma tab_controls_ext (w w' : world A) : views w' = views w -> tab_controls cv w' = tab_controls cv w.
Proof. intros H. unfold tab_controls, info. by rewrite H. Qed.

Lemma tab_ready_ext w w' : views w' = views w -> tab_ready w -> tab_ready w'.
Proof.
  intros H [Hn Hf Ht]. split; rewrite (tab_controls_ext w w' H); [done| |].
  - intros c Hc. rewrite (info_ext w w') by done. by apply Hf.
  - intros c Hc. rewrite (info_ext w w') by done. by apply Ht.
Qed.

Lemma indexOf_lookup l i c : NoDup l -> l !! i = Some c -> indexOf (Some c) l = Z.of_nat i.
Proof.
  intros Hn Hi. unfold indexOf. cbn.
  destruct (list_find (c =.) l) as [[j x]|] eqn:E.
  - apply list_find_Some in E as (Hj & <- & _). f_equal. by eapply NoDup_lookup.
  - apply list_find_None in E. rewrite Forall_forall in E. exfalso. by apply (E c); [eapply list_elem_of_lookup_2|].
Qed.

Context (Hk : HookLaws hook).

Lemma replace_stack v w :
  exists w', replace hook v w = Ok w' /\ views w' = views w /\ _stack w' = v :: tail (_stack w).
Proof.
  unfold replace. destruct (_stack w) as [|c rest] eqn:Es; unfold current at 1; rewrite Es; cbn [head tail].
  - unfold pop, current. rewrite Es. cbn.
    destruct (push_frame hook Hk v w) as (V & S & _). eexists. rewrite V, S, Es. done.
  - case_bool_decide as Hc; [subst; eauto|].
    set (w1 := if isView (info w c) then w else call_hook hook c "blur" w).
    assert (H1 : views w1 = views w /\ _stack w1 = _stack w).
    { unfold w1. destruct (isView _); [done|]. by destruct (call_hook_frame hook Hk c "blur" w) as (? & ? & _). }
    destruct H1 as [V1 S1]. destruct (pop_frame hook Hk w1 c rest) as (w2 & -> & V2 & S2 & _); [congruence|].
    cbn [outcome_bind fst]. destruct (push_frame hook Hk v w2) as (V3 & S3 & _). eexists. split; [done|]. split; [congruence|].
    rewrite S3, S2. done.
Qed.

Lemma focus_control_ok fuel c w :
  tab_ready w -> c ∈ tab_controls cv w -> (0 < fuel)%nat ->
  exists w', focus_control hook fuel cv c w = Some (Ok w') /\ views w' = views w /\
    _stack w' = responder_of c :: tail (_stack w).
Proof.
  intros Hr Hc Hf. destruct fuel as [|n]; [lia|]. unfold focus_control. fold (responder_of c).
  destruct (tr_focus w Hr c Hc) as [Ha Hd]. cbn [becomeKeyResponder]. rewrite Ha, Hd. cbn.
  destruct (replace_stack (responder_of c) w) as (w' & -> & V & S). by exists w'.
Qed.

Lemma tab_from_control c w :
  tab_ready w -> c ∈ tab_controls cv w -> current w = Some (responder_of c) -> tab_from cv w = Some c.
Proof.
  intros Hr Hc Hcur. unfold tab_from. rewrite Hcur. cbn. pose proof (tr_from w Hr c Hc) as H.
  destruct (isInput cv (responder_of c)); congruence.
Qed.

Lemma childViews_nonempty (w : world A) c : c ∈ tab_controls cv w -> childViews cv <> [].
Proof. unfold tab_controls. intros H E. rewrite E in H. by apply list_elem_of_filter in H as [_ ?%elem_of_nil]. Qed.

(** One step around the circle of controls. *)
Lemma performTab_step fuel d i c w :
  tab_ready w -> (0 < fuel)%nat -> d = 1 \/ d = -1 ->
  tab_controls cv w !! i = Some c -> current w = Some (responder_of c) ->
  exists w' c', _performTab hook fuel cv d w = Some (Ok w') /\ views w' = views w /\
    tab_controls cv w !! Z.to_nat ((Z.of_nat i + d) mod Z.of_nat (length (tab_controls cv w))) = Some c' /\
    _stack w' = responder_of c' :: tail (_stack w).
Proof.
  intros Hr Hf Hd Hi Hcur. pose proof (list_elem_of_lookup_2 _ _ _ Hi) as Hc.
  unfold _performTab. rewrite (tab_from_control c w Hr Hc Hcur).
  destruct (childViews cv) as [|cv1 cvs] eqn:Ech; [by destruct (childViews_nonempty w c Hc)|].
  rewrite (indexOf_lookup _ i c (tr_nodup w Hr) Hi).
  destruct (tab_controls cv w) as [|first rest] eqn:El; [done|].
  set (l := first :: rest) in *. pose proof (lookup_lt_Some _ _ _ Hi) as Hlt.
  set (z := (Z.of_nat i + d)%Z). set (n := Z.of_nat (length l)).
  assert (exists k, (if (z <? 0)%Z then nth (length l - 1) l first else if (z =? n)%Z then first
    else nth (Z.to_nat z) l first) = nth k l first /\ k = Z.to_nat (z mod n) /\ (k < length l)%nat) as (k & -> & Hkz & Hkl).
  { unfold z, n.
    destruct (Z.ltb_spec (Z.of_nat i + d) 0); [|destruct (Z.eqb_spec (Z.of_nat i + d) (Z.of_nat (length l))) as [E|]].
    - exists (length l - 1)%nat. split; [done|]. split; [|lia].
      rewrite <- (Z.mod_unique (Z.of_nat i + d) (Z.of_nat (length l)) (-1) (Z.of_nat (length l) - 1)); lia.
    - exists 0%nat. split; [done|]. split; [|lia]. rewrite E, Z.mod_same; lia.
    - exists (Z.to_nat (Z.of_nat i + d)). split; [done|]. rewrite Z.mod_small; lia. }
  assert (Hl : l !! k = Some (nth k l first)).
  { rewrite nth_lookup. destruct (lookup_lt_is_Some_2 l k Hkl) as [x ->]. done. }
  destruct (focus_control_ok fuel (nth k l first) w Hr) as (w' & Hw & V & S); [|done|].
  { rewrite El. by eapply list_elem_of_lookup_2. }
  exists w', (nth k l first). rewrite Hw, <- Hkz. done.
Qed.
End tab_lemmas.

(** ** Lemmas on buttons *)

Lemma buildButton_done g r r' d : _buildButton g r' (_buildButton g r d) = _buildButton g r d.
Proof. by destruct d as [[t|] [[w x y]|]]. Qed.

Lemma build_buttons_store g ds : forall r store d,
  exists b, (build_buttons g ds r store).1 !! d = b /\
    (d ∉ ds -> b = store !! d) /\
    (forall r0 b0, store !! d = Some (_buildButton g r0 b0) -> b = Some (_buildButton g r0 b0)).
Proof.
  induction ds as [|d0 ds IH]; intros r store d; cbn [build_buttons]; [by exists (store !! d)|].
  set (b1 := _buildButton g r (default (BDesc None None) (store !! d0))).
  destruct (IH (r + (bwidth b1 + 15)) (<[d0 := b1]> store) d) as (b & Hb & Hout & Hdone).
  destruct (build_buttons g ds _ _) as [st bs]. exists b. split; [done|]. split.
  - intros [Hne Hd]%not_elem_of_cons. rewrite Hout, lookup_insert_ne; done.
  - intros r0 b0 H0. apply Hdone. destruct (decide (d0 = d)) as [->|Hne].
    + rewrite lookup_insert_eq. unfold b1. rewrite H0. cbn. by rewrite buildButton_done.
    + by rewrite lookup_insert_ne.
Qed.

Lemma build_buttons_cons g d ds r store :
  build_buttons g (d :: ds) r store =
  let b := _buildButton g r (default (BDesc None None) (store !! d)) in
  let p := build_buttons g ds (r + (bwidth b + 15)) (<[d := b]> store) in (p.1, b :: p.2).
Proof. cbn [build_buttons]. cbv zeta. by destruct (build_buttons g ds _ _). Qed.

(** A second pass over completed descriptors changes nothing. *)
Lemma build_buttons_again g ds : forall r r' store store' bs,
  build_buttons g ds r store = (store', bs) ->
  forall st, (forall d, d ∈ ds -> st !! d = store' !! d) -> build_buttons g ds r' st = (st, bs).
Proof.
  induction ds as [|d ds IH]; intros r r' store store' bs Hb st Hst.
  { cbn in *. congruence. }
  rewrite build_buttons_cons in Hb |- *. cbv zeta in *.
  set (b1 := _buildButton g r (default (BDesc None None) (store !! d))) in *.
  destruct (build_buttons g ds (r + (bwidth b1 + 15)) (<[d := b1]> store)) as [s2 bs2] eqn:E.
  cbn [fst snd] in Hb. injection Hb as -> <-.
  assert (Hd : st !! d = Some b1).
  { rewrite Hst by set_solver. pose proof (build_buttons_store g ds (r + (bwidth b1 + 15)) (<[d := b1]> store) d) as (b & Hb & _ & Hdone).
    rewrite E in Hb. cbn in Hb. rewrite Hb. apply (Hdone r (default (BDesc None None) (store !! d))).
    by rewrite lookup_insert_eq. }
  assert (_buildButton g r' (default (BDesc None None) (st !! d)) = b1) as -> by (rewrite Hd; apply buildButton_done).
  rewrite (insert_id st d b1 Hd).
  by rewrite (IH _ (r' + (bwidth b1 + 15)) _ _ _ E st ltac:(intros d' Hd'; apply Hst; set_solver)).
Qed.

Lemma build_buttons_row g ds : forall r store,
  NoDup ds -> (forall d, d ∈ ds -> (store !! d) ≫= layout_ = None) ->
  forall i b, (build_buttons g ds r store).2 !! i = Some b ->
  layout_ b = Some (BLayout (Some (buttonWidth g)) (Some (r + Z.of_nat i * (buttonWidth g + 15))) (Some _focusRingMargin)).
Proof.
  induction ds as [|d ds IH]; intros r store Hn Hs i b Hi; [done|].
  rewrite build_buttons_cons in Hi. cbv zeta in Hi. cbn [snd] in Hi. apply NoDup_cons in Hn as [Hd Hn].
  set (b1 := _buildButton g r (default (BDesc None None) (store !! d))) in *.
  assert (Hb1 : layout_ b1 = Some (BLayout (Some (buttonWidth g)) (Some r) (Some _focusRingMargin))).
  { unfold b1. specialize (Hs d ltac:(set_solver)). destruct (store !! d) as [[t l]|]; cbn in *; [by rewrite Hs|done]. }
  assert (bwidth b1 = buttonWidth g) as Ew by (unfold bwidth; by rewrite Hb1). rewrite Ew in Hi.
  destruct i as [|i]; cbn in Hi.
  - injection Hi as <-. rewrite Hb1. do 3 f_equal. lia.
  - apply IH in Hi; [|done|].
    + rewrite Hi. do 3 f_equal. lia.
    + intros d' Hd'. rewrite lookup_insert_ne by (intros ->; done). apply Hs. set_solver.
Qed.

Lemma build_buttons_length g ds : forall r store, length (build_buttons g ds r store).2 = length ds.
Proof. induction ds as [|d ds IH]; intros r store; [done|]. rewrite build_buttons_cons. cbn. by rewrite IH. Qed.

(** ** Lemmas on controls *)

(** The settings that show and edit the property. *)
Definition bound (f : field) (s : gmap string setting) : Prop :=
  s !! "value" = Some (SAlias (object_path (property f))) /\
  s !! "isValid" = Some (SNotEqual (object_path (property f +:+ "IsValid")) (JBool false)).

Lemma bound_insert f k v s : k <> "value" -> k <> "isValid" -> bound f s -> bound f (<[k := v]> s).
Proof. intros H1 H2 [A B]. split; by rewrite lookup_insert_ne. Qed.

Lemma bound_base df f : bound f (base_settings df f).
Proof.
  unfold base_settings. assert (forall x, bound f (<["isDisabled" := x]>
    (<["isValid" := SNotEqual (object_path (property f +:+ "IsValid")) (JBool false)]>
    (<["value" := SAlias (object_path (property f))]> ∅)))) as H.
  { intros x. by split; simplify_map_eq. }
  case_bool_decide; [by apply bound_insert|apply H].
Qed.

Lemma bound_named f s : bound f s -> bound f (named f s).
Proof. by apply bound_insert. Qed.

Lemma bound_given f k v s : k <> "value" -> k <> "isValid" -> bound f s -> bound f (given k v s).
Proof. intros. unfold given. case_match; [by apply bound_insert|done]. Qed.

Lemma bound_select_items f s : bound f s -> bound f (select_items f s).
Proof.
  intros H. unfold select_items. destruct (optionsBinding f); [by repeat apply bound_insert|].
  destruct (opts f); try done; try case_match; try done; by repeat apply bound_insert.
Qed.

#[local] Hint Resolve bound_base bound_named : bound.
#[local] Hint Extern 2 (bound _ (<[_ := _]> _)) => apply bound_insert; [discriminate|discriminate|] : bound.
#[local] Hint Extern 2 (bound _ (given _ _ _)) => apply bound_given; [discriminate|discriminate|] : bound.
#[local] Hint Extern 2 (bound _ (select_items _ _)) => apply bound_select_items : bound.
#[local] Hint Extern 3 (bound _ (if _ then _ else _)) => case_match : bound.

(** The types of controls that exist. *)
Definition known_types : list string := ["readonly"; "text"; "textarea"; "password"; "html"; "checkbox"; "select"].

(** A control of a given type, whose settings keep the property bound. *)
Ltac built_control f :=
  split; [unfold known_types; set_solver|]; do 2 (split; [done|]);
  cbn [settings]; rewrite ?bool_decide_eq_false_2 by discriminate;
  lazymatch goal with |- lookup _ ?s = _ /\ _ => change (bound f s) end; auto 10 with bound.

Lemma buildControlView_bound lay s msg sub t f :
  bound f s ->
  match _buildControlView lay s msg sub t f with
  | Throw e => e = invalid_type t /\ t ∉ known_types
  | Ok c =>
      t ∈ known_types /\ submits c = sub /\ message c = msg /\
      settings c !! (if bool_decide (t = "checkbox") then "isSelected" else "value") =
        Some (SAlias (object_path (property f))) /\
      settings c !! "isValid" = Some (SNotEqual (object_path (property f +:+ "IsValid")) (JBool false))
  end.
Proof.
  intros Hs. unfold _buildControlView.
  repeat match goal with
  | |- context [String.eqb t ?k] => destruct (String.eqb_spec t k) as [->|?]
  end; repeat case_match; simplify_eq/=; try (by built_control f).
  1,2: destruct Hs as [Hv Hi]; split; [unfold known_types; set_solver|]; do 2 (split; [done|]);
    split; simplify_map_eq; done.
  split; [done|]. unfold known_types. set_solver.
Qed.

(** ** Properties *)

(** From a control with the focus the tab key goes through the visible controls of
    the form one by one and from the last one to the first, backtab the other way: after
    [n] keys the control [n] places further around has the focus, and the responders
    below it on the stack are still there. *)
Theorem tab_goes_round {A} (hook : nat -> string -> option (EventManager.world A -> EventManager.world A))
    (Hk : EventManager.HookLaws hook) cv fuel d i c n w :
  tab_ready cv w -> (0 < fuel)%nat -> d = 1 \/ d = -1 ->
  tab_controls cv w !! i = Some c -> EventManager.current w = Some (responder_of cv c) ->
  exists w' c', tabs hook cv fuel d n w = Some (Ok w') /\
    tab_controls cv w !! Z.to_nat ((Z.of_nat i + d * Z.of_nat n) mod Z.of_nat (length (tab_controls cv w)))%Z = Some c' /\
    EventManager._stack w' = responder_of cv c' :: tail (EventManager._stack w).
Proof.
  intros Hr Hf Hd Hi Hcur. set (len := Z.of_nat (length (tab_controls cv w))).
  assert (Hlen : 0 < len) by (pose proof (lookup_lt_Some _ _ _ Hi); lia).
  enough (exists w' c', tabs hook cv fuel d n w = Some (Ok w') /\ EventManager.views w' = EventManager.views w /\
    tab_controls cv w !! Z.to_nat ((Z.of_nat i + d * Z.of_nat n) mod len)%Z = Some c' /\
    EventManager._stack w' = responder_of cv c' :: tail (EventManager._stack w)) as (w' & c' & ? & _ & ? & ?) by eauto.
  induction n as [|n IH].
  - exists w, c. replace ((Z.of_nat i + d * Z.of_nat 0) mod len)%Z with (Z.of_nat i).
    + rewrite Nat2Z.id. split_and!; try done. unfold EventManager.current in Hcur.
      destruct (EventManager._stack w); cbn in *; congruence.
    + pose proof (lookup_lt_Some _ _ _ Hi). rewrite Z.mod_small; lia.
  - destruct IH as (w1 & c1 & H1 & V1 & L1 & S1). set (k := Z.to_nat ((Z.of_nat i + d * Z.of_nat n) mod len)%Z) in *.
    pose proof (tab_controls_ext cv w w1 V1) as E1.
    destruct (performTab_step hook cv Hk fuel d k c1 w1) as (w2 & c2 & H2 & V2 & L2 & S2);
      [by apply (tab_ready_ext cv w)|done|done|by rewrite E1|by unfold EventManager.current; rewrite S1|].
    exists w2, c2. split; [|split; [congruence|split]].
    + unfold tabs in H1 |- *. by rewrite Nat.iter_succ, H1.
    + rewrite E1 in L2. fold len in L2. rewrite <- L2. do 2 f_equal. unfold k.
      rewrite Z2Nat.id by (apply Z.mod_pos_bound; lia). rewrite Zplus_mod_idemp_l. f_equal. lia.
    + by rewrite S2, S1.
Qed.

(** C5. However the validity and the values of the properties change, and whenever the
    controls get into the document: each control in the document whose property is
    invalid shows exactly one message, made by its own validation, no other control
    shows one, nothing else is on the screen, and the form is valid exactly when all
    controls in the document are. *)
Theorem errors_follow_validity cs evs :
  map_Forall (fun _ => unseen) cs -> Forall form_stays evs ->
  let s := foldl (fun s ev => form_step ev s) (fresh_form cs) evs in
  (forall k c, vcontrols s !! k = Some c ->
     match _errorView c with
     | Some e => inserted c = true /\ valid c = false /\ exists v, shown s !! e = Some (msg c v)
     | None => inserted c = true -> valid c = true
     end) /\
  (forall e t, shown s !! e = Some t ->
     exists k c, vcontrols s !! k = Some c /\ _errorView c = Some e /\
       forall k' c', vcontrols s !! k' = Some c' -> _errorView c' = Some e -> k' = k) /\
  (form_isValid s = true <-> forall k c, vcontrols s !! k = Some c -> inserted c = true -> valid c = true).
Proof.
  intros Hcs Hev s. pose proof (form_run_ok evs _ Hev (fresh_form_ok cs Hcs)) as [Hv Hc]. fold s in Hv, Hc.
  destruct Hv as [Ho Hi Hn Hd Hs Ht]. split; [|split].
  - intros k c Hk. specialize (Hc k c Hk). destruct (_errorView c) as [e|] eqn:Ee; unfold control_ok in Hc; rewrite Ee in Hc.
    + destruct (proj1 Hc) as [? ?]; [by eexists|]. split_and!; [done|done|by eapply Ht].
    + intros Hin. destruct (valid c) eqn:Ev; [done|]. by destruct (proj2 Hc) as [? ?].
  - intros e t He. destruct (proj1 (Ho e)) as (k & c & Hk & Ek); [apply Hs; by eexists|].
    exists k, c. split_and!; [done|done|]. intros k' c' Hk' Ek'. by eapply (Hi k' c' k c e).
  - unfold form_isValid. rewrite bool_decide_eq_true, length_zero_iff_nil. split.
    + intros E k c Hk Hin. destruct (valid c) eqn:Ev; [done|]. destruct (proj2 (Hc k c Hk)) as [e He]; [done|].
      assert (e ∈ _errorViews s) as X by (apply Ho; eauto). rewrite E in X. by apply elem_of_nil in X.
    + intros H. apply elem_of_nil_inv. intros e He. destruct (proj1 (Ho e) He) as (k & c & Hk & Ek).
      destruct (proj1 (Hc k c Hk)) as [Hin Hval]; [by eexists|]. specialize (H k c Hk Hin). congruence.
Qed.

(** Buttons without layouts of their own are put from right to left, one button
    width and a gap of 15 pixels apart, and building the form again with the same
    buttons, whose descriptors the first time completed, gives the same buttons. *)
Theorem buttons_in_a_row g ds store store' bs :
  NoDup ds -> (forall d, d ∈ ds -> (store !! d) ≫= layout_ = None) ->
  _buildButtons g ds store = (store', bs) ->
  length bs = length ds /\
  (forall i b, bs !! i = Some b ->
     layout_ b = Some (BLayout (Some (buttonWidth g)) (Some (3 + Z.of_nat i * (buttonWidth g + 15))) (Some 3))) /\
  _buildButtons g ds store' = (store', bs).
Proof.
  intros Hn Hs Hb. unfold _buildButtons in *. split_and!.
  - rewrite <- (build_buttons_length g ds _focusRingMargin store). by rewrite Hb.
  - intros i b Hi. apply (build_buttons_row g ds _focusRingMargin store Hn Hs i b). by rewrite Hb.
  - by apply (build_buttons_again g ds _ _ _ _ _ Hb).
Qed.

(** C27. The control of a field without a validator can be built exactly when its type is
    a known one, options making it a select; otherwise the form throws and names the
    type.  The control shows and edits the field's property of the object, is invalid
    when the object says so, and the controls with text submit the form. *)
Theorem control_of_field cw df o f :
  validate f = None ->
  match _buildControl cw df o f with
  | Throw e => e = invalid_type (control_type f) /\ control_type f ∉ known_types
  | Ok (o', c) =>
      o' = o /\ control_type f ∈ known_types /\
      settings c !! (if bool_decide (control_type f = "checkbox") then "isSelected" else "value") =
        Some (SAlias (object_path (property f))) /\
      settings c !! "isValid" = Some (SNotEqual (object_path (property f +:+ "IsValid")) (JBool false)) /\
      (submits c = true <-> control_type f ∈ ["text"; "textarea"; "password"]) /\
      message c = _buildValidationObservers (validation f)
  end.
Proof.
  intros Hv. unfold _buildControl. rewrite Hv. cbn [outcome_bind].
  set (t := control_type f). clearbody t.
  set (s := <["className" := _]> (base_settings df f)).
  assert (Hs : bound f s) by (apply bound_insert; [done|done|apply bound_base]).
  pose proof (buildControlView_bound (base_layout cw f) s (_buildValidationObservers (validation f)) (plain_text t) t f Hs) as H.
  destruct (_buildControlView _ _ _ _ _ _) as [c|e]; cbn [outcome_bind]; [|exact H].
  destruct H as (Hk & Hsub & Hm & H1 & H2). rewrite Hsub, Hm. refine (conj eq_refl (conj Hk (conj H1 (conj H2 (conj _ eq_refl))))).
  unfold plain_text. rewrite !orb_true_iff, !String.eqb_eq. set_solver.
Qed.

(** ** Witnesses *)

(** A form with two text fields and a checkbox, and a hidden field between them; every
    row has a label, which is never the key responder.  View 1 is the form, 10 to 13
    the rows, 20 to 23 the controls, 30 to 32 the inputs of the text fields. *)
Definition ex_view (p : option nat) (accepts disabled visible : bool) : EventManager.vinfo :=
  EventManager.VInfo p true true true accepts disabled visible false true.

Definition ex_views (checkbox_disabled : bool) : gmap nat EventManager.vinfo := Eval vm_compute in
  list_to_map [(1, ex_view None true false true);
    (10, ex_view (Some 1) false false true); (11, ex_view (Some 1) false false true);
    (12, ex_view (Some 1) false false true); (13, ex_view (Some 1) false false false);
    (19, ex_view (Some 10) false false true);
    (20, ex_view (Some 10) true false true); (30, ex_view (Some 20) true false true);
    (21, ex_view (Some 11) true false true); (31, ex_view (Some 21) true false true);
    (22, ex_view (Some 12) true checkbox_disabled true);
    (23, ex_view (Some 13) true false true); (33, ex_view (Some 23) true false true)]%nat.

Definition ex_cv : controls_view :=
  ControlsView [[19; 20]; [21]; [22]]%nat (list_to_map [(20, 30); (21, 31); (23, 33)]%nat)
    (fun v => bool_decide (v ∈ [30; 31; 33]%nat)).

Definition ex_world (d : bool) (stack : list nat) : EventManager.world unit :=
  EventManager.World tt (ex_views d) stack None (list_to_set stack).

Definition ex_hook : nat -> string -> option (EventManager.world unit -> EventManager.world unit) := fun _ _ => None.

Lemma form_hook_laws : EventManager.HookLaws ex_hook.
Proof. by split. Defined.

Lemma ex_ready : tab_ready ex_cv (ex_world false [30; 7]%nat).
Proof.
  assert (tab_controls ex_cv (ex_world false [30; 7]%nat) = [20; 21; 22]%nat) as E by reflexivity.
  split; rewrite E.
  - repeat constructor; set_solver.
  - intros c Hc. repeat (apply elem_of_cons in Hc as [->|Hc]; [done|]). by apply elem_of_nil in Hc.
  - intros c Hc. repeat (apply elem_of_cons in Hc as [->|Hc]; [done|]). by apply elem_of_nil in Hc.
Defined.

Lemma tab_goes_round_witness :
  exists w' c', tabs ex_hook ex_cv 1 1 4 (ex_world false [30; 7]%nat) = Some (Ok w') /\
    tab_controls ex_cv (ex_world false [30; 7]%nat) !! 1%nat = Some c' /\
    EventManager._stack w' = responder_of ex_cv c' :: [7]%nat.
Proof.
  exact (tab_goes_round ex_hook form_hook_laws ex_cv 1 1 0 20 4 (ex_world false [30; 7]%nat)
    ex_ready ltac:(lia) (or_introl eq_refl) eq_refl eq_refl).
Defined.

Definition ex_vcontrol (m : string) : vcontrol := VControl JUndefined JNull (fun _ => JStr m) false None.
Definition ex_controls : gmap nat vcontrol := {[1%nat := ex_vcontrol "number!"; 2%nat := ex_vcontrol "required!"]}.
Definition ex_events : list form_event :=
  [EInsert 1; EInsert 2; ESetValidity 1 (JBool false); ESetValidity 2 (JBool false); ESetValidity 1 (JBool true)].

Lemma errors_follow_validity_witness :
  let s := foldl (fun s ev => form_step ev s) (fresh_form ex_controls) ex_events in
  form_isValid s = false /\ shown s !! 1%nat = Some (JStr "required!") /\
  (form_isValid s = true <-> forall k c, vcontrols s !! k = Some c -> inserted c = true -> valid c = true).
Proof.
  destruct (errors_follow_validity ex_controls ex_events) as (_ & _ & H).
  - intros k c. unfold ex_controls. rewrite lookup_insert_Some, lookup_singleton_Some. by intros [[_ <-]|[_ [_ <-]]].
  - repeat constructor.
  - split; [reflexivity|]. split; [reflexivity|exact H].
Defined.

Definition ex_margins : margins := Margins 20 20 10 150 90.
Definition ex_buttons : gmap nat bdesc := {[1%nat := BDesc None None; 2%nat := BDesc (Some (TGiven JNull)) None]}.

Lemma buttons_in_a_row_witness :
  let '(store', bs) := _buildButtons ex_margins [1; 2]%nat ex_buttons in
  (layout_ <$> bs) = [Some (BLayout (Some 90) (Some 3) (Some 3)); Some (BLayout (Some 90) (Some 108) (Some 3))] /\
  _buildButtons ex_margins [1; 2]%nat store' = (store', bs).
Proof.
  destruct (_buildButtons ex_margins [1; 2]%nat ex_buttons) as [store' bs] eqn:E.
  destruct (buttons_in_a_row ex_margins [1; 2]%nat ex_buttons store' bs) as (_ & _ & H); [| |exact E|].
  - repeat constructor; set_solver.
  - intros d Hd. repeat (apply elem_of_cons in Hd as [->|Hd]; [reflexivity|]). by apply elem_of_nil in Hd.
  - split; [|exact H]. by injection E as <- <-.
Defined.

Definition ex_field (t : string) (o : options) : field :=
  Field "age" (Some t) (Some "Age") None None JUndefined None JUndefined None (Some (JStr "number!")) ∅ o None
    None None None JUndefined false JUndefined JUndefined JUndefined false JUndefined JUndefined.

Lemma control_of_field_witness :
  exists c, _buildControl JNull None None (ex_field "text" NoOptions) = Ok (None, c) /\ class_ c = TextFieldView /\
    settings c !! "value" = Some (SAlias "parentView.parentView.object.age").
Proof.
  pose proof (control_of_field JNull None None (ex_field "text" NoOptions) eq_refl) as H.
  destruct (_buildControl JNull None None (ex_field "text" NoOptions)) as [[o c]|e] eqn:E.
  - destruct H as (-> & _ & H & _). exists c. split; [reflexivity|]. split; [by injection E as <-|exact H].
  - discriminate E.
Defined.

(** ** Departures *)

(** A disabled control is among those the tab key visits; it does not take the focus,
    which goes to an ancestor that does, or nowhere. *)
Lemma disabled_control_loses_focus :
  tab_controls ex_cv (ex_world true [31; 7]%nat) = [20; 21; 22]%nat /\
  exists w', insertTab ex_hook 5 ex_cv (ex_world true [31; 7]%nat) = Some (Ok w') /\ EventManager._stack w' = [1; 7]%nat.
Proof. split; [reflexivity|]. eexists. split; reflexivity. Qed.

(** The visibility of a row is not that of its control: the tab key goes to the
    controls of hidden rows. *)
Definition ex_hidden : controls_view :=
  ControlsView [[19; 20]; [23]; [22]]%nat (input_of ex_cv) (isInput ex_cv).

Lemma hidden_row_gets_focus :
  EventManager.isVisible (EventManager.info (ex_world false [30]%nat) 13) = false /\
  exists w', insertTab ex_hook 5 ex_hidden (ex_world false [30]%nat) = Some (Ok w') /\ EventManager._stack w' = [33]%nat.
Proof. split; [reflexivity|]. eexists. split; reflexivity. Qed.

(** Within a combo box, whose text field is not itself a control of the form, the tab
    key starts over from the first control. *)
Definition ex_combo : controls_view :=
  ControlsView [[19; 20]; [22]; [11]]%nat (input_of ex_cv) (isInput ex_cv).

Lemma combo_box_starts_over :
  EventManager.parentView (EventManager.info (ex_world false [31]%nat) 21) = Some 11%nat /\
  exists w', insertTab ex_hook 5 ex_combo (ex_world false [31]%nat) = Some (Ok w') /\ EventManager._stack w' = [30]%nat.
Proof. split; [reflexivity|]. eexists. split; reflexivity. Qed.

Lemma setValidity_true k s :
  (forall c, vcontrols s !! k = Some c -> _errorView c = None) ->
  setValidity k (JBool true) s = s \/
  exists c, vcontrols s !! k = Some c /\ setValidity k (JBool true) s = put k (set_validity (JBool true) c) s.
Proof.
  intros Hn. unfold setValidity. destruct (vcontrols s !! k) as [c|] eqn:Hk; [|by left].
  destruct (strict_eq _ _); [by left|]. right. exists c. split; [done|].
  unfold isValidWillChange. rewrite Hk, (Hn c eq_refl), Hk. unfold isValidDidChange. cbn. by rewrite lookup_insert_eq.
Qed.

(** When the properties of the form change, its controls are made again and the
    messages of the old ones stay: the form remains invalid whatever the new controls
    are. *)
Lemma rebuilt_form_stays_invalid cs evs :
  Forall (fun ev => match ev with ESetValidity _ (JBool true) => True | _ => False end) evs ->
  map_Forall (fun _ => unseen) cs ->
  let s := foldl (fun s ev => form_step ev s) (fresh_form ex_controls)
             ([EInsert 1; ESetValidity 1 (JBool false); ERebuild cs] ++ evs) in
  form_isValid s = false /\ shown s !! 0%nat = Some (JStr "number!").
Proof.
  intros Hev Hcs. cbv zeta. rewrite foldl_app.
  set (s0 := foldl _ (fresh_form ex_controls) _).
  enough (H : forall evs s, Forall (fun ev => match ev with ESetValidity _ (JBool true) => True | _ => False end) evs ->
    (forall k c, vcontrols s !! k = Some c -> _errorView c = None) -> 0%nat ∈ _errorViews s ->
    shown s !! 0%nat = Some (JStr "number!") ->
    let s' := foldl (fun s ev => form_step ev s) s evs in 0%nat ∈ _errorViews s' /\ shown s' !! 0%nat = Some (JStr "number!")).
  { destruct (H evs s0 Hev) as [H1 H2]; [|by apply list_elem_of_here|done|].
    - intros k c Hk. by apply (Hcs k c).
    - split; [|exact H2]. unfold form_isValid. apply bool_decide_eq_false. rewrite length_zero_iff_nil.
      intros E. rewrite E in H1. by apply elem_of_nil in H1. }
  clear. induction evs as [|ev evs IH]; intros s Hev Hn Ho Hs; [done|]. inversion Hev as [|? ? Hev1 Hev2]; subst.
  destruct ev as [k [| |[]| | | |]| | | |]; try done. cbn [foldl form_step].
  destruct (setValidity_true k s (Hn k)) as [->|(c & Hk & ->)]; apply IH; try done.
  cbn. intros k' c' [[_ <-]|[_ H]]%lookup_insert_Some; [exact (Hn k c Hk)|by eapply Hn].
Qed.

(** Buttons that were laid out before keep their places when others are added. *)
Lemma added_button_overlaps :
  let '(store, _) := _buildButtons ex_margins [1; 2]%nat ex_buttons in
  (layout_ <$> (_buildButtons ex_margins [3; 1; 2]%nat store).2) =
    [Some (BLayout (Some 90) (Some 3) (Some 3)); Some (BLayout (Some 90) (Some 3) (Some 3));
     Some (BLayout (Some 90) (Some 108) (Some 3))].
Proof. reflexivity. Qed.

(** Options that are a computed property make a select only if the type says so: with
    several values to choose, the form throws, although the code that makes the select
    looks for such options. *)
Lemma computed_options_of_multiselect d o :
  _buildControl JNull None o (ex_field "multiselect" (OptComputed d)) = Throw "Invalid control type multiselect" /\
  is_ok (_buildControl JNull None o (ex_field "select" (OptComputed d))) = true.
Proof. by split. Qed.

(** [isVisibleBinding] is ignored in a row without a label. *)
Lemma binding_ignored g c f b :
  label f = None -> isVisible f = JUndefined -> isVisibleBinding f = Some b ->
  row_visible (place_row g f c) = VConst (JBool true).
Proof. intros Hl Hv _. unfold place_row, const_visible. rewrite Hl, Hv. by case_bool_decide. Qed.
