(* ===== verification/Tabs.v ===== *)
(** * Tabs ([views/tab_view.js])

    A tab view has a bar with one button per tab and shows the view of one of them.  The
    views are properties of the tab view, named by the values of the tabs; they are classes
    until they are created, at once or when they are first shown.  The buttons and the views
    follow the array of tabs and the property [nowShowing] by observers, which are called
    where these are set and, as in Ember, only if the value changes. *)

From S2P Require Import Prelude Arrays.
From stdpp Require Import gmap.
Open Scope string_scope.
Open Scope list_scope.
Open Scope flame_scope.

(** ** State *)

(** What [this.get(value)] is: nothing, a class of views, or a view. *)
Inductive content := Undefined | Class_ | View (isVisible : bool).

Record tabview := TabView {
  tabs : option (list string);            (* the values of the tabs; [None] is [null] *)
  previousTabs : option (list string);
  nowShowing : option string;             (* [null], or a value *)
  initializeTabsLazily : bool;
  contents : gmap string content;
  tabBarView : list string;               (* the values of the buttons *)
  contentView : list string               (* the views that were created *)
}.

Definition set_tabs x s := TabView x (previousTabs s) (nowShowing s) (initializeTabsLazily s) (contents s) (tabBarView s) (contentView s).
Definition set_previous x s := TabView (tabs s) x (nowShowing s) (initializeTabsLazily s) (contents s) (tabBarView s) (contentView s).
Definition put_nowShowing x s := TabView (tabs s) (previousTabs s) x (initializeTabsLazily s) (contents s) (tabBarView s) (contentView s).
Definition put_content k x s := TabView (tabs s) (previousTabs s) (nowShowing s) (initializeTabsLazily s) (<[k := x]> (contents s)) (tabBarView s) (contentView s).
Definition set_bar x s := TabView (tabs s) (previousTabs s) (nowShowing s) (initializeTabsLazily s) (contents s) x (contentView s).
Definition push_content k s := TabView (tabs s) (previousTabs s) (nowShowing s) (initializeTabsLazily s) (contents s) (tabBarView s) (contentView s ++ [k]).

Definition get (s : tabview) (k : string) : content := default Undefined (contents s !! k).

(** A property that names a tab is used when it is truthy. *)
Definition named (v : option string) : option string := k ← v; if bool_decide (k = "") then None else Some k.

(** ** The tab that is shown *)

Definition _tabWillChange (s : tabview) : outcome tabview :=
  match named (nowShowing s) with
  | None => Ok s
  | Some k => match get s k with View _ => Ok (put_content k (View false) s) | _ => Throw TypeError end
  end.

(** A class is made a view; anything else but a view fails when the view is created. *)
Definition _tabDidChange (s : tabview) : outcome tabview :=
  match named (nowShowing s) with
  | None => Ok s
  | Some k =>
      match get s k with
      | View _ => Ok (put_content k (View true) s)
      | Class_ => Ok (put_content k (View true) (push_content k s))
      | Undefined => Throw TypeError
      end
  end.

Definition set_nowShowing (v : option string) (s : tabview) : outcome tabview :=
  if bool_decide (nowShowing s = v) then Ok s
  else do! s1 <- _tabWillChange s ; _tabDidChange (put_nowShowing v s1).

(** ** The tabs *)

Definition insertAt (i : nat) (x : string) (l : list string) : outcome (list string) :=
  if (length l <? i)%nat then Throw "Index out of range" else Ok (take i l ++ x :: drop i l).

Definition not_defined (v : string) : string := "View for tab " +:+ v +:+ " not defined!".

Definition _addTab (value : string) (index : nat) (s : tabview) : outcome tabview :=
  do! bar <- insertAt index value (tabBarView s) ;
  let s1 := set_bar bar s in
  do! s2 <- (match get s1 value with
             | Undefined => Throw (not_defined value)
             | _ => if initializeTabsLazily s1 then Ok s1 else Ok (put_content value (View false) (push_content value s1))
             end) ;
  match nowShowing s2 with
  | None => set_nowShowing (head (default [] (tabs s2))) s2
  | Some _ => Ok s2
  end.

(** [findBy('value', v)] finds a tab. *)
Definition in_tabs (v : string) (l : list string) : bool := bool_decide (v ∈ l).

(** The first button with the value is removed. *)
Fixpoint remove_first (v : string) (l : list string) : list string :=
  match l with
  | [] => []
  | x :: l' => if String.eqb x v then l' else x :: remove_first v l'
  end.

Definition remove_tabs (previous new : list string) (bar : list string) : list string :=
  foldl (fun bar v => if in_tabs v new then bar else remove_first v bar) bar previous.

Fixpoint add_tabs (previous : option (list string)) (l : list string) (i : nat) (s : tabview) : outcome tabview :=
  match l with
  | [] => Ok s
  | v :: l' =>
      do! s1 <- (if from_option (in_tabs v) false previous then Ok s else _addTab v i s) ;
      add_tabs previous l' (S i) s1
  end.

Definition _tabsDidChange (s : tabview) : outcome tabview :=
  match tabs s with
  | None => Ok s
  | Some new =>
      let s1 := match previousTabs s with
                | Some previous => set_bar (remove_tabs previous new (tabBarView s)) s
                | None => s
                end in
      add_tabs (previousTabs s) new 0 s1
  end.

Definition _tabsWillChange (s : tabview) : tabview :=
  match tabs s with Some l => set_previous (Some l) s | None => s end.

(** [this.set('tabs', l)], or a change of the array. *)
Definition change_tabs (l : option (list string)) (s : tabview) : outcome tabview :=
  _tabsDidChange (set_tabs l (_tabsWillChange s)).

(** [init], and [_tabDidChange] on the event that follows. *)
Definition init (s : tabview) : outcome tabview := do! s1 <- _tabsDidChange s ; _tabDidChange s1.

(** A click on a button. *)
Definition action (value : string) (s : tabview) : outcome tabview := set_nowShowing (Some value) s.

(** ** Specification *)

(** Exactly the view of the tab that is shown is visible. *)
Record shown_ok (s : tabview) : Prop := {
  sh_visible k b : get s k = View b -> (b = true <-> nowShowing s = Some k);
  sh_now k : nowShowing s = Some k -> k <> "" /\ get s k = View true
}.

(** The tabs before the next change. *)
Definition old_tabs (s : tabview) : option (list string) := match tabs s with Some l => Some l | None => previousTabs s end.

(** The buttons are those of the tabs, in their order. *)
Record bar_ok (s : tabview) : Prop := {
  bo_bar : tabBarView s = default [] (old_tabs s);
  bo_nodup : NoDup (default [] (old_tabs s))
}.

(** A change of the tabs that keeps the order of those that stay. *)
Definition keeps_order (old new : list string) : Prop := filter (.∈ old) new = filter (.∈ new) old.

(** ** Lemmas *)

Lemma get_put s k x k' : get (put_content k x s) k' = if decide (k = k') then x else get s k'.
Proof.
  unfold get. cbn. case_decide as H; [subst; by rewrite lookup_insert_eq|by rewrite lookup_insert_ne].
Qed.

(** The same views exist but for that of [k], which was created. *)
Definition kinds (s s' : tabview) (k : string) : Prop :=
  forall x, (get s' x = Undefined <-> get s x = Undefined) /\ (get s' x = Class_ <-> get s x = Class_ /\ x <> k).

(** Everything but the contents is the same. *)
Definition same_bar (s s' : tabview) : Prop :=
  tabs s' = tabs s /\ previousTabs s' = previousTabs s /\ tabBarView s' = tabBarView s /\
  initializeTabsLazily s' = initializeTabsLazily s.

Definition off (c : content) : content := match c with View _ => View false | c => c end.

Lemma shown_off s x : shown_ok s -> nowShowing s <> Some x -> get s x = off (get s x).
Proof.
  intros [Hv _] Hx. destruct (get s x) as [| |b] eqn:E; try done. destruct b; [|done].
  by destruct Hx; apply (Hv x true E).
Qed.

Lemma tabWillChange_ok s : shown_ok s ->
  exists s1, _tabWillChange s = Ok s1 /\ nowShowing s1 = nowShowing s /\ same_bar s s1 /\ forall x, get s1 x = off (get s x).
Proof.
  intros Hs. unfold _tabWillChange. destruct (nowShowing s) as [k0|] eqn:En; cbn.
  - destruct (sh_now s Hs k0 En) as [Hk0 Hg0]. rewrite bool_decide_eq_false_2, Hg0 by done.
    eexists. split; [reflexivity|]. split; [exact En|]. split; [done|]. intros x. rewrite get_put.
    case_decide as Hx; [subst; by rewrite Hg0|]. apply shown_off; [done|congruence].
  - exists s. split_and!; try done. intros x. apply shown_off; [done|congruence].
Qed.

Lemma turned_on k s s2 : k <> "" -> get s k <> Undefined -> nowShowing s2 = Some k ->
  (forall x, get s2 x = if decide (k = x) then View true else off (get s x)) ->
  shown_ok s2 /\ kinds s s2 k.
Proof.
  intros Hk Hd Hs2 H2. split; [split|].
  - intros x b. rewrite H2, Hs2. case_decide as Hx; [subst; intros [= <-]; done|].
    destruct (get s x); try done. intros [= <-]. split; [done|]. congruence.
  - intros x. rewrite Hs2. intros [= <-]. split; [done|]. rewrite H2. by rewrite decide_True.
  - intros x. rewrite H2. case_decide as Hx.
    + subst. split; split; intros H; destruct_and?; congruence.
    + destruct (get s x); cbn [off]; split; split; intros H; destruct_and?; try split; congruence.
Qed.

Lemma set_nowShowing_ok k s : shown_ok s -> k <> "" -> get s k <> Undefined ->
  exists s', set_nowShowing (Some k) s = Ok s' /\ shown_ok s' /\ nowShowing s' = Some k /\ same_bar s s' /\ kinds s s' k.
Proof.
  intros Hs Hk Hd. unfold set_nowShowing. case_bool_decide as E.
  { exists s. split_and!; try done. intros x. split; [done|]. split; [|by intros [? _]]. intros Hx. split; [done|]. intros ->.
    destruct (sh_now s Hs k E) as [_ ?]. congruence. }
  destruct (tabWillChange_ok s Hs) as (s1 & -> & E1 & Eb & Hg). cbn [outcome_bind].
  unfold _tabDidChange. cbn [put_nowShowing nowShowing named mbind option_bind].
  rewrite bool_decide_eq_false_2 by done. change (get (put_nowShowing (Some k) s1) k) with (get s1 k). rewrite Hg.
  destruct (get s k) as [| |b] eqn:Ek; [done| |]; cbn [off];
    (match goal with |- exists s', Ok ?x = Ok s' /\ _ => exists x; split; [reflexivity|]; destruct (turned_on k s x) as [H1 H2] end);
    try done; try (by rewrite Ek); intros x; rewrite get_put; case_decide; try done; apply Hg.
Qed.

(** ** Lemmas on the bar *)

Lemma filter_ext_in {A} (P Q : A -> Prop) `{!forall x, Decision (P x)} `{!forall x, Decision (Q x)} (l : list A) :
  (forall x, x ∈ l -> P x <-> Q x) -> filter P l = filter Q l.
Proof.
  induction l as [|x l IH]; [done|]. intros Hpq. rewrite !filter_cons. rewrite IH by (intros; apply Hpq; set_solver).
  pose proof (Hpq x ltac:(set_solver)) as Hx. destruct (decide (P x)), (decide (Q x)); tauto.
Qed.

Lemma remove_first_filter v l : NoDup l -> remove_first v l = filter (.≠ v) l.
Proof.
  induction l as [|x l IH]; [done|]. intros [Hx Hl]%NoDup_cons. cbn [remove_first]. rewrite filter_cons.
  destruct (String.eqb_spec x v) as [->|Hne].
  - rewrite decide_False by naive_solver. symmetry. apply list_filter_all, Forall_forall. intros y Hy ->. done.
  - rewrite decide_True by done. by rewrite IH.
Qed.

Lemma remove_tabs_filter new previous : forall bar, NoDup bar ->
  remove_tabs previous new bar = filter (fun x => x ∈ new \/ x ∉ previous) bar.
Proof.
  unfold remove_tabs. induction previous as [|v previous IH]; intros bar Hn; cbn [foldl].
  { symmetry. apply list_filter_all, Forall_forall. intros x _. right. set_solver. }
  unfold in_tabs at 2. case_bool_decide as Hv.
  - rewrite IH by done. apply list_filter_iff. intros x. rewrite elem_of_cons.
    destruct (decide (x = v)) as [->|]; tauto.
  - rewrite remove_first_filter, IH by (done || by apply NoDup_filter).
    rewrite list_filter_filter. apply list_filter_iff. intros x. rewrite elem_of_cons.
    destruct (decide (x = v)) as [->|]; tauto.
Qed.

Lemma remove_all_tabs new l : NoDup l -> remove_tabs l new l = filter (.∈ new) l.
Proof.
  intros Hn. rewrite remove_tabs_filter by done. apply filter_ext_in. intros x Hx. set_solver.
Qed.

(** ** Lemmas on adding tabs *)

(** A tab can be shown: it has a name and a view, or a class. *)
Definition shows (s : tabview) (v : string) : Prop := v <> "" /\ get s v <> Undefined.

(** A tab can be added: its view has not been created, or will be when it is shown. *)
Definition addable (s : tabview) (v : string) : Prop := initializeTabsLazily s = true \/ get s v = Class_.

Lemma addTab_ok new i v s rest :
  tabs s = Some new -> new !! i = Some v -> NoDup new -> tabBarView s = take i new ++ rest ->
  shown_ok s -> (forall x, x ∈ new -> shows s x) -> (forall x, x ∈ drop i new -> x ∉ rest -> addable s x) -> v ∉ rest ->
  exists s', _addTab v i s = Ok s' /\ tabs s' = Some new /\ previousTabs s' = previousTabs s /\
    tabBarView s' = take (S i) new ++ rest /\ shown_ok s' /\ (forall x, x ∈ new -> shows s' x) /\
    (forall x, x ∈ drop (S i) new -> x ∉ rest -> addable s' x) /\ is_Some (nowShowing s').
Proof.
  intros Ht Hi Hnd Hbar Hs Hdef Hadd Hv. pose proof (lookup_lt_Some _ _ _ Hi) as Hlen.
  unfold _addTab, insertAt. rewrite Hbar, length_app, length_take.
  rewrite (proj2 (Nat.ltb_ge _ _)) by lia. cbn [outcome_bind].
  rewrite take_app_le, take_take, drop_app_le by (rewrite length_take; lia). rewrite Nat.min_id.
  rewrite drop_ge by (rewrite length_take; lia). cbn [app].
  replace (take i new ++ v :: rest) with (take (S i) new ++ rest)
    by (rewrite (take_S_r new i v Hi), <- app_assoc; done).
  set (s1 := set_bar (take (S i) new ++ rest) s).
  assert (Hvn : v ∈ new) by by eapply list_elem_of_lookup_2.
  destruct (Hdef v Hvn) as [Hv0 Hvd].
  assert (Hdrop : forall x, x ∈ drop (S i) new -> x ∈ drop i new /\ x <> v /\ (i = 0 -> head new <> Some x)).
  { intros x Hx. rewrite (drop_S new v i Hi) in *. split; [set_solver|].
    rewrite <- (take_drop_middle new i v Hi) in Hnd. apply NoDup_app in Hnd as (_ & Hd & [Hvd' Hnd']%NoDup_cons).
    split; [intros ->; done|]. intros ->. destruct new; cbn in *; [done|]. simplify_eq. intros [= ->]. done. }
  assert (H2 : exists s2, match get s1 v with Undefined => Throw (not_defined v) | _ =>
      if initializeTabsLazily s1 then Ok s1 else Ok (put_content v (View false) (push_content v s1)) end = Ok s2 /\
    tabs s2 = Some new /\ previousTabs s2 = previousTabs s /\ tabBarView s2 = take (S i) new ++ rest /\
    nowShowing s2 = nowShowing s /\ initializeTabsLazily s2 = initializeTabsLazily s /\ shown_ok s2 /\
    (forall x, x ∈ new -> shows s2 x) /\ (forall x, x ∈ drop (S i) new -> x ∉ rest -> addable s2 x)).
  { change (get s1 v) with (get s v). change (initializeTabsLazily s1) with (initializeTabsLazily s).
    destruct (initializeTabsLazily s) eqn:El.
    - exists s1. split; [by destruct (get s v)|]. split_and!; try done; [by destruct Hs|].
      intros x _ _. left. exact El.
    - exists (put_content v (View false) (push_content v s1)). split; [by destruct (get s v)|].
      assert (Hc : get s v = Class_).
      { assert (Hvd' : v ∈ drop i new) by (rewrite (drop_S new v i Hi); set_solver).
        destruct (Hadd v Hvd' Hv) as [E|E]; [congruence|exact E]. }
      assert (Hg : forall x, get (put_content v (View false) (push_content v s1)) x = if decide (v = x) then View false else get s x).
      { intros x. by rewrite get_put. }
      split_and!; try done.
      + destruct Hs as [Hs1 Hs2]. split.
        * intros x b. rewrite Hg. case_decide as Hx; [subst; intros [= <-]|apply Hs1]. split; [done|].
          intros E. destruct (Hs2 x E). congruence.
        * intros x E. rewrite Hg. destruct (Hs2 x E) as [? Hgx]. split; [done|]. rewrite decide_False; [done|].
          intros ->. congruence.
      + intros x Hx. destruct (Hdef x Hx) as [H1 H2]. split; [done|]. rewrite Hg. by case_decide.
      + intros x Hx Hr. destruct (Hdrop x Hx) as (Hx1 & Hx2 & _). right. rewrite Hg, decide_False by done.
        destruct (Hadd x Hx1 Hr) as [?|?]; [congruence|done]. }
  destruct H2 as (s2 & -> & T2 & P2 & B2 & N2 & L2 & Hs2 & Hd2 & Ha2). cbn [outcome_bind].
  destruct (nowShowing s2) as [k|] eqn:En.
  { exists s2. split; [done|]. by split_and!. }
  rewrite T2. destruct new as [|h new']; [done|]. cbn [default from_option id head].
  destruct (Hd2 h) as [Hh Hhd]; [set_solver|].
  destruct (set_nowShowing_ok h s2 Hs2 Hh Hhd) as (s3 & -> & Hs3 & N3 & (T3 & P3 & B3 & L3) & Hk).
  exists s3. split; [done|]. split; [congruence|]. split; [congruence|]. split; [congruence|]. split; [done|].
  split; [|split; [|by exists h]].
  - intros x Hx. destruct (Hd2 x Hx) as [H1 H2]. split; [done|]. intros E. apply H2. by apply (Hk x).
  - intros x Hx Hr. destruct (Ha2 x Hx Hr) as [E|E]; [left; congruence|right]. apply (Hk x). split; [done|].
    intros ->. destruct (Hdrop h Hx) as (_ & Hne & Hh0). destruct i as [|i]; [by apply Hh0|].
    cbn in Hx. apply NoDup_cons in Hnd as [Hnh _]. apply Hnh. apply (subseteq_drop (S i) new'). exact Hx.
Qed.

Lemma add_tabs_ok new previous : NoDup new -> forall l i s, l = drop i new ->
  tabs s = Some new -> tabBarView s = take i new ++ filter (.∈ default [] previous) l ->
  shown_ok s -> (forall x, x ∈ new -> shows s x) -> (forall x, x ∈ l -> x ∉ default [] previous -> addable s x) ->
  exists s', add_tabs previous l i s = Ok s' /\ tabs s' = Some new /\ previousTabs s' = previousTabs s /\
    tabBarView s' = new /\ shown_ok s' /\ (forall x, x ∈ new -> shows s' x) /\
    (is_Some (nowShowing s) \/ (exists x, x ∈ l /\ x ∉ default [] previous) -> is_Some (nowShowing s')).
Proof.
  intros Hnd. induction l as [|v l IH]; intros i s El Ht Hbar Hs Hdef Hadd; cbn [add_tabs].
  { exists s. assert (length new <= i) by (apply drop_nil_inv; by symmetry).
    split; [done|]. split; [done|]. split; [done|]. split; [rewrite Hbar, take_ge by done; by rewrite app_nil_r|].
    split; [done|]. split; [done|]. intros [?|(x & Hx & _)]; [done|]. by apply elem_of_nil in Hx. }
  assert (Hi : new !! i = Some v).
  { rewrite <- (Nat.add_0_r i), <- lookup_drop, <- El. done. }
  assert (El' : l = drop (S i) new) by (rewrite (drop_S new v i Hi) in El; congruence).
  destruct (decide (v ∈ default [] previous)) as [Hv|Hv].
  - assert (from_option (in_tabs v) false previous = true) as ->.
    { unfold in_tabs. destruct previous; cbn in *; [by apply bool_decide_eq_true_2|by apply elem_of_nil in Hv]. }
    cbn [outcome_bind]. destruct (IH (S i) s El') as (s' & E & E1 & E2 & E3 & E4 & E5 & E6); try done.
    + rewrite Hbar, filter_cons, decide_True by done. by rewrite (take_S_r new i v Hi), <- app_assoc.
    + intros x Hx. apply Hadd. set_solver.
    + exists s'. split_and!; try done. intros [?|(x & [->|Hx]%elem_of_cons & Hxo)]; [by apply E6; left|done|]. apply E6. right. eauto.
  - assert (from_option (in_tabs v) false previous = false) as ->.
    { unfold in_tabs. destruct previous; cbn in *; [by apply bool_decide_eq_false_2|done]. }
    rewrite filter_cons, decide_False in Hbar by done.
    destruct (addTab_ok new i v s (filter (.∈ default [] previous) l)) as (s1 & -> & T1 & P1 & B1 & S1 & D1 & A1 & N1); try done.
    + intros x Hx Hr. apply Hadd; [by rewrite El|]. intros Hxo. apply Hr. apply list_elem_of_filter. split; [done|].
      rewrite <- El in Hx. apply elem_of_cons in Hx as [->|Hx]; [done|done].
    + intros [? _]%list_elem_of_filter. done.
    + cbn [outcome_bind]. destruct (IH (S i) s1 El') as (s' & E & E1 & E2 & E3 & E4 & E5 & E6); try done.
      * intros x Hx Hxo. apply A1; [by rewrite <- El'|]. intros [? _]%list_elem_of_filter. done.
      * exists s'. split_and!; try done; [congruence|]. intros _. apply E6. by left.
Qed.

(** ** Properties *)

(** What may be asked of a tab view: to show a tab with a view, by its button or by
    [nowShowing]; to change the tabs to others with views, in which those that stay keep
    their order; to be without tabs. *)
Inductive event := Show (k : string) | Change (l : option (list string)).

Definition step (ev : event) (s : tabview) : outcome tabview :=
  match ev with Show k => action k s | Change l => change_tabs l s end.

Definition allowed (s : tabview) (ev : event) : Prop :=
  match ev with
  | Show k => shows s k
  | Change None => True
  | Change (Some l) =>
      NoDup l /\ keeps_order (default [] (old_tabs s)) l /\ Forall (shows s) l /\
      Forall (fun v => v ∉ default [] (old_tabs s) -> addable s v) l
  end.


(** The first transition, when the tab view has just been created. *)
Lemma fresh_ok lazy cs : (forall k b, cs !! k <> Some (View b)) ->
  let s := TabView None None None lazy cs [] [] in shown_ok s /\ bar_ok s.
Proof.
  intros H s. split; split; cbn; try done; [|constructor]. intros k b. unfold get. cbn.
  destruct (cs !! k) as [c|] eqn:E; cbn; [|done]. intros ->. by destruct (H k b).
Qed.

(** ** Witnesses *)

Definition ex_contents : gmap string content := list_to_map [("a", Class_); ("b", Class_); ("c", Class_)].
Definition ex_start : tabview := Eval vm_compute in TabView None None None false ex_contents [] [].
Definition ex_two : tabview := Eval vm_compute in
  match change_tabs (Some ["a"; "c"]) ex_start with Ok s => s | Throw _ => ex_start end.

Lemma ex_two_ok : shown_ok ex_two /\ bar_ok ex_two.
Proof.
  assert (Hg : forall k, get ex_two k = if decide (k = "a") then View true else if decide (k = "c") then View false
    else if decide (k = "b") then Class_ else Undefined).
  { intros k. unfold get, ex_two. cbn [contents].
    destruct (decide (k = "a")) as [->|]; [reflexivity|]. destruct (decide (k = "c")) as [->|]; [reflexivity|].
    destruct (decide (k = "b")) as [->|]; [reflexivity|].
    match goal with |- default _ (?m !! _) = _ => change m with
      (<["a" := View true]> (<["c" := View false]> (<["b" := Class_]> ∅)) : gmap string content) end.
    by rewrite !lookup_insert_ne by done. }
  split; split.
  - intros k b. rewrite Hg. repeat case_decide; subst; intros [= <-]; cbn; split; try done; congruence.
  - intros k. cbn. intros [= <-]. split; [done|]. by rewrite Hg.
  - reflexivity.
  - cbn. repeat constructor; set_solver.
Defined.


(** ** Departures *)

(** Tabs that change places keep their buttons where they were. *)
Lemma reordered_tabs :
  exists s', change_tabs (Some ["c"; "a"]) ex_two = Ok s' /\ tabs s' = Some ["c"; "a"] /\ tabBarView s' = ["a"; "c"].
Proof. eexists. split; [vm_compute; reflexivity|]. split_and!; vm_compute; reflexivity. Qed.

(** The view of a tab that is removed stays visible, with no button for it. *)
Lemma removed_tab_shown :
  exists s', change_tabs (Some ["c"]) ex_two = Ok s' /\ tabBarView s' = ["c"] /\ nowShowing s' = Some "a" /\ get s' "a" = View true.
Proof. eexists. split; [vm_compute; reflexivity|]. split_and!; vm_compute; reflexivity. Qed.

(** Added again, a tab that is created at once is hidden although it is the one shown, and
    its view is put into the content a second time. *)
Lemma tab_added_again :
  exists s1 s', change_tabs (Some ["c"]) ex_two = Ok s1 /\ change_tabs (Some ["a"; "c"]) s1 = Ok s' /\
    nowShowing s' = Some "a" /\ get s' "a" = View false /\ contentView s' = ["a"; "c"; "a"].
Proof.
  eexists _, _. split; [vm_compute; reflexivity|]. split; [vm_compute; reflexivity|]. split_and!; vm_compute; reflexivity.
Qed.
